(* ===== verification/_CoqProject ===== *)
-Q . S2P
Prelude.v
Bytes.v
Serialize.v
Crypto.v
RtcTime.v
Path.v
Memory.v
Pools.v
Channels.v
Locks.v
Executor.v
Disk.v
Gpt.v
Storage.v
Ext2Layout.v
Ext2Fs.v
Ext2Alloc.v
Ext2Iter.v
Ext2File.v
Ext2Dir.v
Ext2Create.v
Ext2Delete.v
Ext2List.v
Vfs.v
Scheduler.v
Entry.v
Elf.v
Loader.v
Timer.v
Ahci.v
AhciTask.v
Pata.v
Acpi.v
PerCpu.v
Apic.v
Serial.v
Pcie.v
Font.v
Terminal.v
Hba.v
Layouts.v
Idt.v
