(* ===== verification/Prelude.v ===== *)
(** * Verification of the dvida_oxide kernel

    dvida_oxide is a kernel for x86-64 written in Rust.  It boots through Limine,
    takes over the memory map, the interrupt controllers and the disks, runs its
    own work as asynchronous tasks, serves an ext2 file system through a server
    task, and loads and schedules user programs.  Source paths below are under
    src/kernel/src unless they start with src/.

    This file is the prelude: the results and monads the models are written in,
    arithmetic at machine width, indexing, loops, the tactics and the hint
    databases, and lemmas on lists and numbers that several files share.

    ** How code is modelled

    A Rust function is a Rocq function of the same name.  [res E A] is what a
    call ends in: [Ok], [Err] with the error value, [Panic], or [Hang] where a
    loop is out of fuel; code that changes state is in the monad [M S E A], which
    passes the state also to what follows an error.  Integers are [Z], with
    [uadd w], [usub w] and so on for arithmetic at width [w]; they panic on
    overflow or wrap around according to [Build], which stands for the build
    profile, so that theorems hold for both profiles unless one is named.
    Structs are records or, where the code casts memory, their bytes.

    Crates, devices and the boot loader are parameters: type classes with the
    operations ([Ports], [Machine], [Platform], [Bus], [PageTables], ...) and
    classes with the laws the code relies on.  Each file ends with instances of
    its classes on which the theorems are applied (modules [Sample...]), so that
    no theorem rests on laws nothing obeys.

    ** The parts

    Data and encoding.  Bytes: buffers and little-endian numbers.  Serialize: the
    crate src/dvida_serialize with its derived codecs, as a record of operations
    with laws.  Crypto: crypto/ (CRC-32, GUIDs, UUIDs, random numbers, iterators).
    RtcTime: time/.  Path: hal/path.rs.  Layouts: the declarations of the structs
    the kernel shares with disks, drives and firmware, and where their fields are.

    Memory.  Memory: arch/x86_64/memory (the memory map, the bitmap of frames and
    its allocator).  Pools: ejcineque/pools, buffers from those frames.  PerCpu:
    memory/per_cpu.rs with the stacks and kernel page table of every processor.

    Tasks.  Channels: ejcineque/sync/{spsc,mpsc}.  Locks: sync/{spin,mutex}.rs, as
    step relations on interleaved threads.  Executor: ejcineque/executor.rs and
    the futures.

    Disks.  Disk: what a drive promises its users ([BlockDev]).  Gpt: hal/gpt.rs.
    Storage: hal/storage.rs and args.rs.  Ahci, AhciTask, Hba: drivers/ata/sata,
    from the commands of a port over the task of a drive to the controllers, with
    arch/x86_64/msi.rs.  Pata: drivers/ata/pata.

    Files.  Ext2Layout, Ext2Fs, Ext2Alloc, Ext2Iter, Ext2File, Ext2Dir,
    Ext2Create, Ext2Delete, Ext2List: drivers/fs/ext2, on any [BlockDev].  Vfs:
    hal/vfs.rs, on any [FileImpl], of which the ext2 driver is an instance.

    Processors and programs.  Scheduler: arch/x86_64/scheduler/{mod,syscall}.rs
    and the timer interrupt.  Entry: the assembly that enters and leaves the
    kernel, run on a model of the processor, with gdt.rs.  Idt: idt.rs and
    src/macros, and what the interrupt controllers are programmed to send.  Elf,
    Loader: scheduler/{elf,loader}.rs, over Vfs and Memory.  Timer: timer.rs.

    The machine.  Acpi, Apic: arch/x86_64/acpi.  Pcie: acpi/mcfg.rs and pcie.rs.
    Font, Terminal: terminal/.  Serial: terminal/port_dbg.rs.

    ** What is shown

    Memory is not shared by accident: no frame is handed out while it is held
    (Memory), buffers of a pool, of drives and of processors and the stacks are
    disjoint (Pools, Hba, PerCpu), the regions of a port's memory are (Layouts),
    and operations on one descriptor leave the others as they are (Vfs).  What a
    processor finds as its own data is that of the entry with the number of its
    APIC, which is its own if the numbers agree (PerCpu).

    Files: inodes and directory entries are read back as written; the allocator
    hands out free blocks and finds one if there is one; the block iterator
    follows the tree of pointers; reading gives the contents; a name that was
    added is found and a deleted one is gone with the others kept; a path resolves
    to what the tree of directories says; and through the server an opened file
    reads as its contents.  The invariant of the server holds after every turn.

    Requests: every request to an AHCI drive is answered once, by the command that
    was issued for it; sectors are written on a PATA drive that may be busy
    whenever the driver waits for it; channels are queues; locks exclude; the
    executor loses no task that was spawned completely.

    Processors: an interrupt is transparent to what it interrupts, a system call
    and a preempted thread return with their registers, threads take turns, and
    interrupts arrive at the handlers of their devices.  Partition tables are read
    back, and the headers of an ELF file whose tables begin in its first block;
    the entries of the MADT are, with sources of NMIs misread; every function
    behind the bridges that are scanned is recorded; the loader copies whole
    pages of a program; the screen and the serial line show what was written.

    Where the code does not do what it means to, there is a theorem that says
    what it does (for instance [Entry.interrupt_after_syscall_faults],
    [Loader.load_never_succeeds], [Ext2Dir.zero_record_hangs]), and the theorems
    above have a hypothesis that keeps clear of it.

    ** Fuel

    A loop without a structural measure takes fuel.  Where the code bounds its
    rounds (the polling of PATA, the walk through a directory block, the blocks
    of a file) the definition supplies the bound, and theorems show it is enough
    or that only a loop that repeats itself uses it up.  Where the number of
    rounds is the device's or the firmware's (the calibration, the port resets,
    the entries of the MADT, the serial line) fuel is an argument, and theorems
    are for every fuel above a bound they state.

    ** Not modelled

    The boot sequence of main.rs and arch/x86_64/init.rs, and mp/mod.rs, which
    call the parts one after the other; pic.rs, the keyboard and the kernel heap,
    which pass everything to a crate; the exception handlers, which print;
    formatting and logging of any kind; the registers and bit fields no function
    reads; the destructor of the ring channel and the interleavings of its
    lock-free loops; the requests to flush a drive and to identify it through the
    registry; src/dvida_serialize/expanded.rs, which is not built, and the empty
    port to aarch64.  Addresses that only Rust's type system protects (the
    pointers of [Pin], of [Arc] and of slices) have no counterpart, except in
    Locks, Loader and the drivers, where the code computes with them. *)

From Stdlib Require Export Lia ZifyBool.
From stdpp Require Export base tactics numbers option strings relations sets list.

#[global] Open Scope Z_scope.

(** ** Results of Rust code

    [res E A] is what a Rust call of type [Result<A, E>] can end in: a value,
    an error value, or a panic (an [unwrap], an index out of bounds, an
    arithmetic overflow in a build with overflow checks, a [todo!()]), or
    [Hang] for a loop that runs out of the fuel given to the model.  Code that
    returns no [Result] is modelled at the empty error type. *)
Inductive res (E A : Type) : Type :=
| Ok (a : A)
| Err (e : E)
| Panic
| Hang.
Arguments Ok {E A} a.
Arguments Err {E A} e.
Arguments Panic {E A}.
Arguments Hang {E A}.

#[global] Instance res_ret E : MRet (res E) := fun A a => Ok a.
#[global] Instance res_bind E : MBind (res E) := fun A B f m =>
  match m with Ok a => f a | Err e => Err e | Panic => Panic | Hang => Hang end.
#[global] Instance res_fmap E : FMap (res E) := fun A B f m =>
  match m with Ok a => Ok (f a) | Err e => Err e | Panic => Panic | Hang => Hang end.

(** The error type of code that returns no [Result]. *)
Abbreviation never := Empty_set.

Definition expect {E A} (o : option A) : res E A :=
  match o with Some a => Ok a | None => Panic end.
Definition ok_or {E A} (e : E) (o : option A) : res E A :=
  match o with Some a => Ok a | None => Err e end.
Definition map_err {E F A} (f : E -> F) (m : res E A) : res F A :=
  match m with Ok a => Ok a | Err e => Err (f e) | Panic => Panic | Hang => Hang end.
(** A call that cannot fail, from code that can *)
Definition from_never {E A} (m : res never A) : res E A := map_err (fun e : never => match e with end) m.
(** A [Result] kept as a value; a panic is not caught. *)
Definition attempt {E F A} (m : res E A) : res F (E + A) :=
  match m with Ok a => Ok (inr a) | Err e => Ok (inl e) | Panic => Panic | Hang => Hang end.
Definition rassert {E} (b : bool) : res E () := if b then Ok () else Panic.

(** ** Stateful code: an error does not undo the effects before it *)
Definition M (S E A : Type) : Type := S -> res E A * S.

#[global] Instance M_ret S E : MRet (M S E) := fun A a s => (Ok a, s).
#[global] Instance M_bind S E : MBind (M S E) := fun A B f m s =>
  match m s with
  | (Ok a, s') => f a s'
  | (Err e, s') => (Err e, s')
  | (Panic, s') => (Panic, s')
  | (Hang, s') => (Hang, s')
  end.
Definition lift {S E A} (m : res E A) : M S E A := fun s => (m, s).
Definition throw {S E A} (e : E) : M S E A := fun s => (Err e, s).
Definition get {S E} : M S E S := fun s => (Ok s, s).
Definition put {S E} (s : S) : M S E () := fun _ => (Ok (), s).
Definition gets {S E A} (f : S -> A) : M S E A := fun s => (Ok (f s), s).
Definition modify {S E} (f : S -> S) : M S E () := fun s => (Ok (), f s).
Definition panic {S E A} : M S E A := fun s => (Panic, s).

(** [for x in xs { ... }] with loop-carried data. *)
Fixpoint for_each {S E A B} (xs : list A) (b : B) (f : A -> B -> M S E B) : M S E B :=
  match xs with
  | [] => mret b
  | x :: xs => b' ← f x b; for_each xs b' f
  end.
Fixpoint rfor {E A B} (xs : list A) (b : B) (f : A -> B -> res E B) : res E B :=
  match xs with
  | [] => Ok b
  | x :: xs => b' ← f x b; rfor xs b' f
  end.

(** ** Machine integers

    A [w]-bit unsigned integer is a [Z] in [0, 2^w), a signed one a [Z] in
    [-2^(w-1), 2^(w-1)).  [a as uW] is [wrap w a], [a as iW] is [swrap w a].
    The operators [+], [-], [*] panic on overflow when the kernel is built
    with overflow checks (cargo's dev profile) and wrap when it is not (its
    release profile): the repository does not fix the profile, so the model
    carries it as a class. *)
Class Build := overflow_checks : bool.
Definition dev_build : Build := true.
Definition release_build : Build := false.

Definition wrap (w z : Z) : Z := z mod 2 ^ w.
Definition swrap (w z : Z) : Z := (z + 2 ^ (w - 1)) mod 2 ^ w - 2 ^ (w - 1).
Definition fits (w z : Z) : bool := (0 <=? z) && (z <? 2 ^ w).
Definition sfits (w z : Z) : bool := (- 2 ^ (w - 1) <=? z) && (z <? 2 ^ (w - 1)).

Section arith.
Context `{Build}.
Definition unum {E} (w z : Z) : res E Z :=
  if fits w z then Ok z else if overflow_checks then Panic else Ok (wrap w z).
Definition snum {E} (w z : Z) : res E Z :=
  if sfits w z then Ok z else if overflow_checks then Panic else Ok (swrap w z).
Definition uadd {E} (w a b : Z) : res E Z := unum w (a + b).
Definition usub {E} (w a b : Z) : res E Z := unum w (a - b).
Definition umul {E} (w a b : Z) : res E Z := unum w (a * b).
(** Division by zero panics in every build. *)
Definition udiv {E} (a b : Z) : res E Z := if b =? 0 then Panic else Ok (a / b).
Definition urem {E} (a b : Z) : res E Z := if b =? 0 then Panic else Ok (a mod b).
(** [a << k] drops the bits shifted out; only a shift by the width or more is
    an overflow. *)
Definition ushl {E} (w a k : Z) : res E Z :=
  if fits w k && (k <? w) then Ok (wrap w (Z.shiftl a k))
  else if overflow_checks then Panic else Ok (wrap w (Z.shiftl a (k mod w))).
Definition ushr {E} (w a k : Z) : res E Z :=
  if fits w k && (k <? w) then Ok (Z.shiftr a k)
  else if overflow_checks then Panic else Ok (Z.shiftr a (k mod w)).
End arith.

(** ** Slices *)
Section slices.
Context {E A : Type}.
Definition zlen (l : list A) : Z := Z.of_nat (length l).
(** [l[i]] *)
Definition index (l : list A) (i : Z) : res E A :=
  if 0 <=? i then expect (l !! Z.to_nat i) else Panic.
(** [l[i] = x] *)
Definition update (l : list A) (i : Z) (x : A) : res E (list A) :=
  if (0 <=? i) && (i <? zlen l) then Ok (<[Z.to_nat i := x]> l) else Panic.
(** [&l[a..b]] *)
Definition slice (l : list A) (a b : Z) : res E (list A) :=
  if (0 <=? a) && (a <=? b) && (b <=? zlen l)
  then Ok (take (Z.to_nat (b - a)) (drop (Z.to_nat a) l)) else Panic.
(** [&l[a..]] *)
Definition slice_from (l : list A) (a : Z) : res E (list A) := slice l a (zlen l).
(** [l[a..a + xs.len()].copy_from_slice(xs)] *)
Definition splice (l : list A) (a : Z) (xs : list A) : res E (list A) :=
  if (0 <=? a) && (a + zlen xs <=? zlen l)
  then Ok (take (Z.to_nat a) l ++ xs ++ drop (Z.to_nat a + length xs) l) else Panic.
End slices.
(** [l.chunks(n)]: pieces of [n] elements, the last one shorter if need be; a
    size of zero panics. *)
Fixpoint chunks_fuel {A} (fuel n : nat) (l : list A) : list (list A) :=
  match fuel, l with
  | S fuel, _ :: _ => take n l :: chunks_fuel fuel n (drop n l)
  | _, _ => []
  end.
Definition chunks {E A} (n : Z) (l : list A) : res E (list (list A)) :=
  if n =? 0 then Panic else Ok (chunks_fuel (length l) (Z.to_nat n) l).
(** [x.is_power_of_two()] *)
Definition is_power_of_two (x : Z) : bool := (0 <? x) && (Z.land x (x - 1) =? 0).

(** ** Automation *)
Create HintDb rust.

(** [bool_decide]-free case analysis on boolean tests. *)
Ltac boom :=
  repeat match goal with
  | H : _ && _ = true |- _ => apply andb_true_iff in H as [? ?]
  | H : _ || _ = false |- _ => apply orb_false_iff in H as [? ?]
  | H : negb _ = true |- _ => apply negb_true_iff in H
  | H : negb _ = false |- _ => apply negb_false_iff in H
  | H : (_ <=? _) = true |- _ => apply Z.leb_le in H
  | H : (_ <=? _) = false |- _ => apply Z.leb_gt in H
  | H : (_ <? _) = true |- _ => apply Z.ltb_lt in H
  | H : (_ <? _) = false |- _ => apply Z.ltb_ge in H
  | H : (_ =? _) = true |- _ => apply Z.eqb_eq in H
  | H : (_ =? _) = false |- _ => apply Z.eqb_neq in H
  end.

(** Evaluate a boolean arithmetic test whose truth [lia] can see. *)
Ltac blia := unfold zlen in *; rewrite ?length_app in *; lia.
Ltac babsurd := exfalso; boom; repeat rewrite andb_false_iff in *; repeat rewrite Z.leb_gt, Z.ltb_ge in *; blia.
Ltac btrue t := replace t with true by
  (symmetry; first [lia | blia | let E := fresh in destruct t eqn:E; [done | babsurd]]).
Ltac bfalse t := replace t with false by
  (symmetry; first [lia | blia | let E := fresh in destruct t eqn:E; [babsurd | done]]).
Ltac bcase :=
  repeat match goal with
  | |- context [if ?b then _ else _] =>
      first [ btrue b | bfalse b | let E := fresh "E" in destruct b eqn:E; boom ]; simpl
  end.

(** One step of the monads. *)
Ltac rsimpl := cbn [mbind res_bind mret res_ret fmap res_fmap].
(** Equal tuples, results and the like, componentwise *)
Ltac parts := repeat first [reflexivity | lia | f_equal].
(** Replace a closed term by its value. *)
Ltac ev t := let v := eval vm_compute in t in change t with v.
Ltac ev_in t H := let v := eval vm_compute in t in change t with v in H.

Lemma pow_S b n : b ^ Z.of_nat (S n) = b * b ^ Z.of_nat n.
Proof. rewrite Nat2Z.inj_succ, Z.pow_succ_r by lia. done. Qed.
Lemma fits_iff w z : fits w z = true <-> 0 <= z < 2 ^ w.
Proof. unfold fits. lia. Qed.
Lemma sfits_iff w z : sfits w z = true <-> - 2 ^ (w - 1) <= z < 2 ^ (w - 1).
Proof. unfold sfits. lia. Qed.

Lemma wrap_range w z : 0 <= w -> 0 <= wrap w z < 2 ^ w.
Proof. intros. apply Z.mod_pos_bound, Z.pow_pos_nonneg; lia. Qed.
Lemma wrap_small w z : 0 <= z < 2 ^ w -> wrap w z = z.
Proof. apply Z.mod_small. Qed.
Lemma swrap_small w z : 0 < w -> - 2 ^ (w - 1) <= z < 2 ^ (w - 1) -> swrap w z = z.
Proof.
  intros Hw Hz. unfold swrap.
  assert (2 ^ w = 2 * 2 ^ (w - 1)) as -> by (rewrite <- Z.pow_succ_r by lia; f_equal; lia).
  rewrite Z.mod_small; lia.
Qed.
Lemma swrap_range w z : 0 < w -> - 2 ^ (w - 1) <= swrap w z < 2 ^ (w - 1).
Proof.
  intros Hw. unfold swrap.
  assert (2 ^ w = 2 * 2 ^ (w - 1)) as E by (rewrite <- Z.pow_succ_r by lia; f_equal; lia).
  pose proof (Z.mod_pos_bound (z + 2 ^ (w - 1)) (2 ^ w)) as B.
  assert (0 < 2 ^ (w - 1)) by (apply Z.pow_pos_nonneg; lia). lia.
Qed.

Lemma unum_ok `{Build} {E} w z : 0 <= z < 2 ^ w -> unum (E:=E) w z = Ok z.
Proof. intros Hz. unfold unum. by rewrite (proj2 (fits_iff w z) Hz). Qed.
Lemma snum_ok `{Build} {E} w z : - 2 ^ (w - 1) <= z < 2 ^ (w - 1) -> snum (E:=E) w z = Ok z.
Proof. intros Hz. unfold snum. by rewrite (proj2 (sfits_iff w z) Hz). Qed.
Lemma uadd_ok `{Build} {E} w a b : 0 <= a + b < 2 ^ w -> uadd (E:=E) w a b = Ok (a + b).
Proof. apply unum_ok. Qed.
Lemma usub_ok `{Build} {E} w a b : 0 <= a - b < 2 ^ w -> usub (E:=E) w a b = Ok (a - b).
Proof. apply unum_ok. Qed.
Lemma umul_ok `{Build} {E} w a b : 0 <= a * b < 2 ^ w -> umul (E:=E) w a b = Ok (a * b).
Proof. apply unum_ok. Qed.
Lemma udiv_ok {E} a b : b <> 0 -> udiv (E:=E) a b = Ok (a / b).
Proof. intros. unfold udiv. by bfalse (b =? 0). Qed.
Lemma urem_ok {E} a b : b <> 0 -> urem (E:=E) a b = Ok (a mod b).
Proof. intros. unfold urem. by bfalse (b =? 0). Qed.
(** With overflow checks an out-of-range result panics; without, it wraps. *)
Lemma unum_panic {E} w z : ~ 0 <= z < 2 ^ w -> @unum dev_build E w z = Panic.
Proof. intros Hz. unfold unum. destruct (fits w z) eqn:F; [|done]. apply fits_iff in F. lia. Qed.
Lemma unum_release {E} w z : 0 <= w -> @unum release_build E w z = Ok (wrap w z).
Proof.
  intros. unfold unum. destruct (fits w z) eqn:F; [|done].
  apply fits_iff in F. by rewrite wrap_small.
Qed.

(** *** Inversion of binds *)
Lemma res_bind_ok {E A B} (m : res E A) (f : A -> res E B) b :
  (m ≫= f) = Ok b <-> exists a, m = Ok a /\ f a = Ok b.
Proof. split; [destruct m; simpl; naive_solver | by intros (a & -> & ?)]. Qed.
Lemma M_bind_ok {S E A B} (m : M S E A) (f : A -> M S E B) s b s'' :
  (m ≫= f) s = (Ok b, s'') <-> exists a s', m s = (Ok a, s') /\ f a s' = (Ok b, s'').
Proof.
  unfold mbind, M_bind. split.
  - destruct (m s) as [[a|e| |] s'] eqn:Hm; naive_solver.
  - by intros (a & s' & -> & ?).
Qed.
Lemma M_bind_run {S E A B} (m : M S E A) (f : A -> M S E B) s a s' :
  m s = (Ok a, s') -> (m ≫= f) s = f a s'.
Proof. unfold mbind, M_bind. by intros ->. Qed.
Lemma M_bind_err {S E A B} (m : M S E A) (f : A -> M S E B) s e s' : m s = (Err e, s') -> (m ≫= f) s = (Err e, s').
Proof. unfold mbind, M_bind. by intros ->. Qed.
Lemma M_assoc {S E A B C} (m : M S E A) (f : A -> M S E B) (g : B -> M S E C) s :
  ((m ≫= f) ≫= g) s = (m ≫= (fun a => f a ≫= g)) s.
Proof. unfold mbind, M_bind. by destruct (m s) as [[]]. Qed.

Section run.
Context {S E A B : Type} (f : A -> M S E B) (s : S).
Lemma run_lift (a : A) : (lift (Ok a) ≫= f) s = f a s.
Proof. done. Qed.
Lemma run_gets (g : S -> A) : (gets g ≫= f) s = f (g s) s.
Proof. done. Qed.
Lemma run_ret (a : A) : (mret a ≫= f) s = f a s.
Proof. done. Qed.
End run.
Lemma run_get {S E B} (f : S -> M S E B) s : (get ≫= f) s = f s s.
Proof. done. Qed.
Lemma run_put {S E B} (f : () -> M S E B) s s' : (put s' ≫= f) s = f () s'.
Proof. done. Qed.
(** Run the first action of a sequence whose outcome is known. *)
Ltac mstep := first [ rewrite run_lift | rewrite run_get | rewrite run_gets | rewrite run_put | rewrite run_ret ].
Ltac mrun H := erewrite M_bind_run by exact H.

Ltac res_inv :=
  repeat match goal with
  | H : (?m ≫= ?f) = Ok _ |- _ => apply res_bind_ok in H as (? & ? & ?)
  | H : (?m ≫= ?f) ?s = (Ok _, _) |- _ => apply M_bind_ok in H as (? & ? & ? & ?)
  | H : Ok _ = Ok _ |- _ => injection H as H
  | H : (Ok _, _) = (Ok _, _) |- _ => injection H as H
  | H : Err _ = Ok _ |- _ => discriminate H
  | H : Panic = Ok _ |- _ => discriminate H
  | H : mret _ = Ok _ |- _ => injection H as H
  end.

Lemma rfor_app {E A B} (xs ys : list A) (b : B) (f : A -> B -> res E B) :
  rfor (xs ++ ys) b f = (b' ← rfor xs b f; rfor ys b' f).
Proof.
  revert b. induction xs as [|x xs IH]; intros b; simpl; [done|].
  destruct (f x b); simpl; auto.
Qed.

(** *** Loops *)
Lemma for_each_seqZ {S E} (f : Z -> () -> M S E ()) (I : Z -> S -> Prop) : forall (n : nat) a s,
  (forall i s, a <= i < a + Z.of_nat n -> I i s -> exists s', f i () s = (Ok (), s') /\ I (i + 1) s') -> I a s ->
  exists s', for_each (seqZ a (Z.of_nat n)) () f s = (Ok (), s') /\ I (a + Z.of_nat n) s'.
Proof.
  induction n as [|n IH]; intros a s Hf HI.
  { exists s. split; [done|]. by rewrite Z.add_0_r. }
  rewrite seqZ_cons by lia. cbn [for_each]. destruct (Hf a s) as (s1 & H1 & I1); [lia|done|]. mrun H1.
  replace (Z.pred (Z.of_nat (Datatypes.S n))) with (Z.of_nat n) by lia. change (Z.succ a) with (a + 1).
  destruct (IH (a + 1) s1) as (s2 & H2 & I2); [intros i s' Hi; apply Hf; lia|done|].
  exists s2. split; [exact H2|]. by replace (a + Z.of_nat (Datatypes.S n)) with (a + 1 + Z.of_nat n) by lia.
Qed.
Lemma for_each_app {S E A} (xs ys : list A) (f : A -> () -> M S E ()) : forall s,
  for_each (xs ++ ys) () f s = (_ ← for_each xs () f; for_each ys () f) s.
Proof.
  induction xs as [|x xs IH]; intros s; [done|]. cbn [app for_each]. rewrite M_assoc. unfold mbind, M_bind. destruct (f x () s) as [[[]|e| |] s']; done.
Qed.
Lemma bind_panic {S E A B} (m : M S E A) (f : A -> M S E B) s : (m s).1 = Panic -> ((m ≫= f) s).1 = Panic.
Proof. unfold mbind, M_bind. destruct (m s) as [[]]; cbn; congruence. Qed.
Lemma for_seq {S E} (f : Z -> () -> M S E ()) (I : Z -> S -> Prop) a n s : 0 <= n ->
  (forall i s, a <= i < a + n -> I i s -> exists s', f i () s = (Ok (), s') /\ I (i + 1) s') -> I a s ->
  exists s', for_each (seqZ a n) () f s = (Ok (), s') /\ I (a + n) s'.
Proof. intros Hn. rewrite <- (Z2Nat.id n) by done. apply for_each_seqZ. Qed.

(** *** Slices *)
Section slice_lemmas.
Context {E A : Type}.
Implicit Types (l xs : list A).

Lemma zlen_nonneg l : 0 <= zlen l.
Proof. unfold zlen. lia. Qed.
Lemma to_nat_zlen l : Z.to_nat (zlen l) = length l.
Proof. unfold zlen. lia. Qed.
Lemma zlen_nil : zlen (@nil A) = 0.
Proof. done. Qed.
Lemma zlen_cons x l : zlen (x :: l) = 1 + zlen l.
Proof. unfold zlen. simpl. lia. Qed.
Lemma zlen_app l1 l2 : zlen (l1 ++ l2) = zlen l1 + zlen l2.
Proof. unfold zlen. rewrite length_app. lia. Qed.
Lemma zlen_insert i x l : zlen (<[i := x]> l) = zlen l.
Proof. unfold zlen. by rewrite length_insert. Qed.
Lemma zlen_take n l : zlen (take n l) = Z.min (Z.of_nat n) (zlen l).
Proof. unfold zlen. rewrite length_take. lia. Qed.
Lemma zlen_drop n l : zlen (drop n l) = Z.max 0 (zlen l - Z.of_nat n).
Proof. unfold zlen. rewrite length_drop. lia. Qed.
Lemma zlen_replicate n (x : A) : zlen (replicate n x) = Z.of_nat n.
Proof. unfold zlen. by rewrite length_replicate. Qed.

Lemma index_ok l i x : 0 <= i -> l !! Z.to_nat i = Some x -> index (E:=E) l i = Ok x.
Proof. intros Hi Hx. unfold index. btrue (0 <=? i). by rewrite Hx. Qed.
Lemma index_inv l i x : index (E:=E) l i = Ok x -> 0 <= i < zlen l /\ l !! Z.to_nat i = Some x.
Proof.
  unfold index. destruct (0 <=? i) eqn:Hi; [|done]. boom.
  destruct (l !! Z.to_nat i) eqn:Hl; simpl; [|done]. intros [= ->].
  apply lookup_lt_Some in Hl as Hlt. unfold zlen. split; [lia|done].
Qed.
Lemma index_total l i : 0 <= i < zlen l -> exists x, index (E:=E) l i = Ok x.
Proof.
  unfold zlen. intros Hi. destruct (lookup_lt_is_Some_2 l (Z.to_nat i)) as [x Hx]; [lia|].
  exists x. by apply index_ok; [lia|].
Qed.
Lemma index_panic l i : ~ 0 <= i < zlen l -> index (E:=E) l i = Panic.
Proof.
  unfold zlen, index. intros Hi. destruct (0 <=? i) eqn:Hi'; [|done]. boom.
  rewrite lookup_ge_None_2; [done|lia].
Qed.
Lemma update_ok l i x : 0 <= i < zlen l -> update (E:=E) l i x = Ok (<[Z.to_nat i := x]> l).
Proof. intros Hi. unfold update. by btrue ((0 <=? i) && (i <? zlen l)). Qed.
Lemma slice_ok l a b : 0 <= a <= b -> b <= zlen l ->
  slice (E:=E) l a b = Ok (take (Z.to_nat (b - a)) (drop (Z.to_nat a) l)).
Proof. intros. unfold slice. by btrue ((0 <=? a) && (a <=? b) && (b <=? zlen l)). Qed.
Lemma slice_from_ok l a : 0 <= a <= zlen l ->
  slice_from (E:=E) l a = Ok (drop (Z.to_nat a) l).
Proof.
  intros. unfold slice_from. rewrite slice_ok by lia. f_equal.
  apply take_ge. rewrite length_drop. unfold zlen in *. lia.
Qed.
Lemma splice_ok l a xs : 0 <= a -> a + zlen xs <= zlen l ->
  splice (E:=E) l a xs = Ok (take (Z.to_nat a) l ++ xs ++ drop (Z.to_nat a + length xs) l).
Proof. intros. unfold splice. by btrue ((0 <=? a) && (a + zlen xs <=? zlen l)). Qed.
Lemma slice_mid (pre x post : list A) : slice (E:=E) (pre ++ x ++ post) (zlen pre) (zlen pre + zlen x) = Ok x.
Proof.
  rewrite slice_ok; [|unfold zlen; lia|unfold zlen; rewrite !length_app; lia].
  replace (zlen pre + zlen x - zlen pre) with (zlen x) by lia. unfold zlen. by rewrite !Nat2Z.id, drop_app_length, take_app_length.
Qed.
Lemma splice_mid (pre x y post : list A) : zlen x = zlen y -> splice (E:=E) (pre ++ x ++ post) (zlen pre) y = Ok (pre ++ y ++ post).
Proof.
  unfold zlen. intros Hl. rewrite splice_ok; [|unfold zlen; lia|unfold zlen; rewrite !length_app; lia].
  unfold zlen. rewrite Nat2Z.id, take_app_length. do 3 f_equal.
  rewrite drop_app_ge by lia. rewrite drop_app_ge by lia. by replace (_ - _ - _)%nat with 0%nat by lia.
Qed.
Lemma splice_len l a xs l' : splice (E:=E) l a xs = Ok l' -> length l' = length l.
Proof.
  unfold splice. destruct (_ && _) eqn:Hc; [|done]. boom. intros [= <-].
  rewrite !length_app, length_take, length_drop. unfold zlen in *. lia.
Qed.
End slice_lemmas.

#[export] Hint Resolve zlen_nonneg : rust.
Create Rewrite HintDb zlen.
#[export] Hint Rewrite @zlen_cons @zlen_nil @zlen_app @zlen_insert @zlen_take @zlen_drop @zlen_replicate : zlen.
Ltac zlen := autorewrite with zlen in *.

(** ** Bit tests *)
Definition setbit (b i : Z) : Z := Z.lor b (Z.shiftl 1 i).
(** [b & !(1 << i)] on a [w]-bit integer *)
Definition clrbit (w b i : Z) : Z := Z.land b (Z.ldiff (Z.ones w) (Z.shiftl 1 i)).
(** [b & (1 << i) != 0] *)
Definition tstbit (b i : Z) : bool := negb (Z.land b (Z.shiftl 1 i) =? 0).

Lemma shiftl1_testbit i j : 0 <= i -> Z.testbit (Z.shiftl 1 i) j = (i =? j).
Proof.
  intros. rewrite Z.shiftl_1_l. destruct (Z.eqb_spec i j) as [->|].
  - by apply Z.pow2_bits_true.
  - by apply Z.pow2_bits_false.
Qed.
Lemma tstbit_spec b i : 0 <= i -> tstbit b i = Z.testbit b i.
Proof.
  intros Hi. unfold tstbit. destruct (Z.testbit b i) eqn:Hb.
  - apply negb_true_iff, Z.eqb_neq. intros H0.
    assert (Z.testbit (Z.land b (Z.shiftl 1 i)) i = true)
      by (rewrite Z.land_spec, shiftl1_testbit, Hb by lia; lia).
    rewrite H0, Z.bits_0 in *. done.
  - apply negb_false_iff, Z.eqb_eq, Z.bits_inj_iff. intros j.
    rewrite Z.land_spec, shiftl1_testbit, Z.bits_0 by lia.
    destruct (Z.eqb_spec i j) as [->|]; [by rewrite Hb|apply andb_false_r].
Qed.
Lemma setbit_spec b i j : 0 <= i -> Z.testbit (setbit b i) j = (i =? j) || Z.testbit b j.
Proof. intros. unfold setbit. rewrite Z.lor_spec, shiftl1_testbit by lia. apply orb_comm. Qed.
Lemma clrbit_spec w b i j : 0 <= i -> 0 <= j < w ->
  Z.testbit (clrbit w b i) j = negb (i =? j) && Z.testbit b j.
Proof.
  intros. unfold clrbit. rewrite Z.land_spec, Z.ldiff_spec, shiftl1_testbit by lia.
  rewrite Z.ones_spec_low by lia. simpl. apply andb_comm.
Qed.
Lemma bits_bound w z : 0 <= w -> 0 <= z -> (forall j, w <= j -> Z.testbit z j = false) -> z < 2 ^ w.
Proof.
  intros Hw Hz Hb. destruct (Z.lt_ge_cases z (2 ^ w)) as [|Hge]; [done|].
  assert (0 < z) by (assert (0 < 2 ^ w) by (apply Z.pow_pos_nonneg; lia); lia).
  pose proof (Hb (Z.log2 z)) as H1. rewrite Z.bit_log2 in H1 by done.
  apply Z.log2_le_mono in Hge. rewrite Z.log2_pow2 in Hge by lia. naive_solver lia.
Qed.
Lemma setbit_range w b i : 0 <= i < w -> 0 <= b < 2 ^ w -> 0 <= setbit b i < 2 ^ w.
Proof.
  intros Hi Hb. assert (0 <= setbit b i).
  { unfold setbit. apply Z.lor_nonneg. split; [lia|]. apply Z.shiftl_nonneg. lia. }
  split; [done|]. apply bits_bound; [lia|done|]. intros j Hj.
  rewrite setbit_spec by lia. bfalse (i =? j). simpl.
  destruct (Z.eq_dec b 0) as [->|]; [apply Z.bits_0|].
  apply Z.bits_above_log2; [lia|]. apply Z.log2_lt_pow2; [lia|].
  assert (2 ^ w <= 2 ^ j) by (apply Z.pow_le_mono_r; lia). lia.
Qed.
Lemma clrbit_range w b i : 0 <= w -> 0 <= b < 2 ^ w -> 0 <= clrbit w b i < 2 ^ w.
Proof.
  intros Hw Hb. unfold clrbit.
  assert (0 <= Z.land b (Z.ldiff (Z.ones w) (Z.shiftl 1 i))) by (apply Z.land_nonneg; lia).
  split; [done|]. apply bits_bound; [lia|done|]. intros j Hj.
  rewrite Z.land_spec, Z.ldiff_spec, Z.ones_spec_high by lia.
  by rewrite andb_false_r.
Qed.
Lemma byte_testbit_high b j : 0 <= b < 256 -> 8 <= j -> Z.testbit b j = false.
Proof.
  intros Hb Hj. destruct (Z.eq_dec b 0) as [->|]; [apply Z.bits_0|].
  apply Z.bits_above_log2; [lia|]. apply Z.log2_lt_pow2; [lia|].
  assert (2 ^ 8 <= 2 ^ j) by (apply Z.pow_le_mono_r; lia). lia.
Qed.

(** ** Ranges of the bitwise operators *)
Lemma testbit_high w z j : 0 <= z < 2 ^ w -> w <= j -> Z.testbit z j = false.
Proof.
  intros Hz Hj. destruct (Z.eq_dec z 0) as [->|]; [apply Z.bits_0|].
  apply Z.bits_above_log2; [lia|]. apply Z.log2_lt_pow2; [lia|].
  assert (2 ^ w <= 2 ^ j).
  { destruct (Z.lt_ge_cases w 0); [rewrite (Z.pow_neg_r 2 w) in * by done; lia|].
    apply Z.pow_le_mono_r; lia. }
  lia.
Qed.
Lemma lxor_range w a b : 0 <= w -> 0 <= a < 2 ^ w -> 0 <= b < 2 ^ w -> 0 <= Z.lxor a b < 2 ^ w.
Proof.
  intros Hw Ha Hb. assert (0 <= Z.lxor a b) by (apply Z.lxor_nonneg; lia).
  split; [done|]. apply bits_bound; [done..|]. intros j Hj.
  rewrite Z.lxor_spec. by rewrite !(testbit_high w).
Qed.
Lemma lor_range w a b : 0 <= w -> 0 <= a < 2 ^ w -> 0 <= b < 2 ^ w -> 0 <= Z.lor a b < 2 ^ w.
Proof.
  intros Hw Ha Hb. assert (0 <= Z.lor a b) by (apply Z.lor_nonneg; lia).
  split; [done|]. apply bits_bound; [done..|]. intros j Hj.
  rewrite Z.lor_spec. by rewrite !(testbit_high w).
Qed.
Lemma land_range w a b : 0 <= w -> 0 <= a -> 0 <= b < 2 ^ w -> 0 <= Z.land a b < 2 ^ w.
Proof.
  intros Hw Ha Hb. assert (0 <= Z.land a b) by (apply Z.land_nonneg; lia).
  split; [done|]. apply bits_bound; [done..|]. intros j Hj.
  rewrite Z.land_spec. rewrite (testbit_high w b) by done. apply andb_false_r.
Qed.
Lemma shiftr_range w a k : 0 <= k -> 0 <= a < 2 ^ w -> 0 <= Z.shiftr a k < 2 ^ w.
Proof.
  intros Hk Ha. rewrite Z.shiftr_div_pow2 by done.
  assert (0 < 2 ^ k) by (apply Z.pow_pos_nonneg; lia).
  split; [apply Z.div_pos; lia|]. apply Z.div_lt_upper_bound; [done|]. nia.
Qed.
(** A number and another shifted above it: [|], [^] and [+] are the same. *)
Lemma lor_shiftl_add w a b : 0 <= w -> 0 <= a < 2 ^ w -> Z.lor a (Z.shiftl b w) = a + 2 ^ w * b.
Proof.
  intros Hw Ha. rewrite <- Z.lxor_lor, <- Z.add_nocarry_lxor.
  1: rewrite Z.shiftl_mul_pow2 by done; lia.
  all: apply Z.bits_inj_iff; intros j; rewrite Z.land_spec, Z.bits_0;
    destruct (Z.lt_ge_cases j w);
    [rewrite Z.shiftl_spec_low by done; apply andb_false_r
    |by rewrite (testbit_high w)].
Qed.
Lemma lxor_shiftl_add w a b : 0 <= w -> 0 <= a < 2 ^ w -> Z.lxor a (Z.shiftl b w) = a + 2 ^ w * b.
Proof.
  intros Hw Ha. rewrite <- (lor_shiftl_add w) by done. apply Z.lxor_lor.
  apply Z.bits_inj_iff; intros j. rewrite Z.land_spec, Z.bits_0.
  destruct (Z.lt_ge_cases j w);
    [rewrite Z.shiftl_spec_low by done; apply andb_false_r|by rewrite (testbit_high w)].
Qed.

Lemma filter_ext_Forall {A} (P Q : A -> Prop) `{forall x, Decision (P x), forall x, Decision (Q x)} l :
  Forall (fun x => P x <-> Q x) l -> filter P l = filter Q l.
Proof.
  induction 1 as [|x l Hx _ IH]; [done|]. rewrite !filter_cons, IH. by repeat case_decide; try tauto.
Qed.

(** Pieces of equal length are what [chunks] cuts their concatenation into. *)
Lemma chunks_concat {E A} n (ls : list (list A)) : 0 < n -> Forall (fun l => zlen l = n) ls ->
  chunks (E:=E) n (concat ls) = Ok ls.
Proof.
  intros Hn Hls. unfold chunks. bfalse (n =? 0). f_equal.
  cut (forall fuel, (length (concat ls) <= fuel)%nat -> chunks_fuel fuel (Z.to_nat n) (concat ls) = ls); [auto|].
  induction Hls as [|l ls Hl _ IH]; intros fuel Hf; [by destruct fuel|]. cbn [concat] in *. unfold zlen in Hl.
  rewrite length_app in Hf. destruct fuel as [|fuel]; [lia|]. destruct l as [|x l]; [cbn in Hl; lia|].
  cbn [app chunks_fuel]. rewrite (app_comm_cons l).
  rewrite take_app_length', drop_app_length' by lia. f_equal. apply IH. cbn in Hf. lia.
Qed.

(** ** Code that returns: whatever the state, it does not run out of fuel *)
Definition returns {E A} (m : res E A) : Prop := m <> Hang.
Definition no_hang {S E A} (m : M S E A) : Prop := forall s, returns (fst (m s)).
Create HintDb nohang.
Section nohang.
Context {E A : Type}.
Lemma returns_bind {B} (m : res E A) (f : A -> res E B) : returns m -> (forall a, returns (f a)) -> returns (m ≫= f).
Proof. unfold returns. by destruct m; cbn. Qed.
Lemma returns_ok (a : A) : returns (Ok (E:=E) a).
Proof. done. Qed.
Lemma returns_err (e : E) : returns (Err (A:=A) e).
Proof. done. Qed.
Lemma returns_panic : returns (Panic (E:=E) (A:=A)).
Proof. done. Qed.
Lemma returns_expect (o : option A) : returns (expect (E:=E) o).
Proof. by destruct o. Qed.
Lemma returns_map_err {F} (f : E -> F) (m : res E A) : returns m -> returns (map_err f m).
Proof. unfold returns. by destruct m. Qed.
Lemma returns_index (l : list A) i : returns (index (E:=E) l i).
Proof. unfold index. destruct (0 <=? i); [apply returns_expect|done]. Qed.
Lemma returns_update (l : list A) i x : returns (update (E:=E) l i x).
Proof. unfold update. by destruct (_ && _). Qed.
Lemma returns_slice (l : list A) a b : returns (slice (E:=E) l a b).
Proof. unfold slice. by destruct (_ && _). Qed.
Lemma returns_splice (l : list A) a xs : returns (splice (E:=E) l a xs).
Proof. unfold splice. by destruct (_ && _). Qed.
End nohang.
Section nohang_arith.
Context `{Build} {E : Type}.
Lemma returns_unum w z : returns (unum (E:=E) w z).
Proof. unfold unum. destruct (fits w z); [done|]. by destruct overflow_checks. Qed.
Lemma returns_snum w z : returns (snum (E:=E) w z).
Proof. unfold snum. destruct (sfits w z); [done|]. by destruct overflow_checks. Qed.
Lemma returns_udiv a b : returns (udiv (E:=E) a b).
Proof. unfold udiv. by destruct (b =? 0). Qed.
Lemma returns_urem a b : returns (urem (E:=E) a b).
Proof. unfold urem. by destruct (b =? 0). Qed.
Lemma returns_ushl w a k : returns (ushl (E:=E) w a k).
Proof. unfold ushl. destruct (_ && _); [done|]. by destruct overflow_checks. Qed.
End nohang_arith.
Section nohang_m.
Context {S E A : Type}.
Lemma no_hang_bind {B} (m : M S E A) (f : A -> M S E B) : no_hang m -> (forall a, no_hang (f a)) -> no_hang (m ≫= f).
Proof.
  intros Hm Hf s. unfold mbind, M_bind. specialize (Hm s). destruct (m s) as [[a|e| |] s']; cbn in *; try done. apply Hf.
Qed.
Lemma no_hang_lift (m : res E A) : returns m -> no_hang (lift (S:=S) m).
Proof. by intros Hm s. Qed.
Lemma no_hang_ret (a : A) : no_hang (mret (M:=M S E) a).
Proof. done. Qed.
Lemma no_hang_throw (e : E) : no_hang (throw (S:=S) (A:=A) e).
Proof. done. Qed.
Lemma no_hang_gets (f : S -> A) : no_hang (gets (E:=E) f).
Proof. done. Qed.
Lemma no_hang_get : no_hang (get (S:=S) (E:=E)).
Proof. done. Qed.
Lemma no_hang_put (s : S) : no_hang (put (E:=E) s).
Proof. done. Qed.
End nohang_m.
#[export] Hint Resolve returns_bind returns_ok returns_err returns_panic returns_expect returns_map_err returns_index
  returns_update returns_slice returns_splice returns_unum returns_snum returns_udiv returns_urem returns_ushl
  no_hang_bind no_hang_lift no_hang_ret no_hang_throw no_hang_gets no_hang_get no_hang_put : nohang.
(** Follow the structure of a definition down to the calls in it. *)
Ltac nohang :=
  repeat first
  [ progress intros
  | solve [eauto 3 with nohang]
  | apply no_hang_bind | apply no_hang_lift | apply returns_bind | apply returns_map_err
  | match goal with
    | |- no_hang (if ?b then _ else _) => destruct b
    | |- returns (if ?b then _ else _) => destruct b
    | |- no_hang (match ?x with _ => _ end) => destruct x
    | |- returns (match ?x with _ => _ end) => destruct x
    end ].
