(* ===== verification/Bytes.v ===== *)
(** * Byte buffers

    The encodings and in-place bit operations shared by the serializer, the
    on-disk structures of ext2 and GPT, and the bitmaps of the frame and block
    allocators.  A byte buffer ([Box<[u8]>], [&mut [u8]], [Vec<u8>]) is a
    [list Z] of values in [0, 256). *)

From S2P Require Import Prelude.

Definition is_byte (b : Z) : Prop := 0 <= b < 256.
Abbreviation bytes := (Forall is_byte).

(** [bytes] of a closed list, by evaluation *)
Definition is_byteb (b : Z) : bool := (0 <=? b) && (b <? 256).
Lemma bytes_check l : forallb is_byteb l = true -> bytes l.
Proof.
  intros Hl. apply Forall_forall. intros b Hb. apply list_elem_of_In in Hb.
  rewrite forallb_forall in Hl. specialize (Hl b Hb). unfold is_byteb in Hl. boom. unfold is_byte. lia.
Qed.

(** [to_le_bytes] / [from_le_bytes] of an [n]-byte unsigned integer. *)
Fixpoint le_bytes (n : nat) (z : Z) : list Z :=
  match n with
  | O => []
  | S n => z mod 256 :: le_bytes n (z / 256)
  end.
Fixpoint le_num (bs : list Z) : Z :=
  match bs with
  | [] => 0
  | b :: bs => b + 256 * le_num bs
  end.
(** [to_be_bytes] / [from_be_bytes] *)
Definition be_bytes (n : nat) (z : Z) : list Z := rev (le_bytes n z).
Definition be_num (bs : list Z) : Z := le_num (rev bs).

(** [bytes] of a list built from parts that are. *)
Ltac solve_bytes := repeat first
  [ assumption | apply Forall_nil_2 | apply Forall_cons_2 | apply Forall_app_2
  | apply Forall_take | apply Forall_drop | apply Forall_rev | split; [done|reflexivity] ].

(** A [&str] or [String] is its UTF-8 bytes; [str] names the one of a literal. *)
Definition str (s : string) : list Z :=
  (fun a => Z.of_N (Ascii.N_of_ascii a)) <$> String.list_ascii_of_string s.

Lemma length_le_bytes n z : length (le_bytes n z) = n.
Proof. revert z. induction n; intros; simpl; auto. Qed.
Lemma length_be_bytes n z : length (be_bytes n z) = n.
Proof. unfold be_bytes. by rewrite length_rev, length_le_bytes. Qed.
Lemma le_bytes_bytes n z : bytes (le_bytes n z).
Proof.
  revert z. induction n; intros; simpl; constructor; [|done].
  apply Z.mod_pos_bound. lia.
Qed.
Lemma be_bytes_bytes n z : bytes (be_bytes n z).
Proof. apply Forall_rev, le_bytes_bytes. Qed.
Lemma le_num_range bs : bytes bs -> 0 <= le_num bs < 256 ^ Z.of_nat (length bs).
Proof.
  induction 1 as [|b bs Hb Hbs IH]; simpl; [lia|].
  rewrite Nat2Z.inj_succ, Z.pow_succ_r by lia. unfold is_byte in Hb. nia.
Qed.
Lemma le_num_bytes n z : 0 <= z < 256 ^ Z.of_nat n -> le_num (le_bytes n z) = z.
Proof.
  revert z. induction n as [|n IH]; intros z Hz; simpl.
  - change (256 ^ Z.of_nat 0) with 1 in Hz. lia.
  - rewrite Nat2Z.inj_succ, Z.pow_succ_r in Hz by lia.
    rewrite IH; [pose proof (Z.div_mod z 256); lia|].
    split; [apply Z.div_pos; lia|]. apply Z.div_lt_upper_bound; lia.
Qed.
Lemma le_bytes_num bs : bytes bs -> le_bytes (length bs) (le_num bs) = bs.
Proof.
  induction 1 as [|b bs Hb Hbs IH]; simpl; [done|]. unfold is_byte in Hb.
  replace ((b + 256 * le_num bs) mod 256) with b
    by (rewrite Z.mul_comm, Z.mod_add, Z.mod_small; lia).
  replace ((b + 256 * le_num bs) / 256) with (le_num bs); [by rewrite IH|].
  rewrite Z.mul_comm, Z.div_add, Z.div_small; lia.
Qed.
Lemma be_num_bytes n z : 0 <= z < 256 ^ Z.of_nat n -> be_num (be_bytes n z) = z.
Proof. unfold be_num, be_bytes. rewrite rev_involutive. apply le_num_bytes. Qed.
Lemma be_num_range bs : bytes bs -> 0 <= be_num bs < 256 ^ Z.of_nat (length bs).
Proof.
  intros H. unfold be_num. rewrite <- (length_rev bs). apply le_num_range.
  by apply Forall_rev.
Qed.
Lemma le_num_app a b : le_num (a ++ b) = le_num a + 256 ^ Z.of_nat (length a) * le_num b.
Proof.
  induction a as [|x a IH]; simpl; [lia|].
  rewrite IH, Nat2Z.inj_succ, Z.pow_succ_r by lia. lia.
Qed.
Lemma le_bytes_app m n z :
  le_bytes (m + n) z = le_bytes m z ++ le_bytes n (z / 256 ^ Z.of_nat m).
Proof.
  revert z. induction m as [|m IH]; intros z; simpl.
  - change (256 ^ Z.of_nat 0) with 1. by rewrite Z.div_1_r.
  - rewrite IH, Nat2Z.inj_succ, Z.pow_succ_r, Z.div_div by lia. done.
Qed.
Lemma le_bytes_mod n z : le_bytes n (z mod 256 ^ Z.of_nat n) = le_bytes n z.
Proof.
  revert z. induction n as [|n IH]; intros z; [done|]. cbn [le_bytes]. rewrite pow_S.
  assert (0 < 256 ^ Z.of_nat n) by (apply Z.pow_pos_nonneg; lia). rewrite Z.rem_mul_r by lia.
  rewrite (Z.mul_comm 256), Z.mod_add, Z.mod_mod by lia. f_equal.
  rewrite Z.div_add by lia. rewrite (Z.div_small (z mod 256)) by (apply Z.mod_pos_bound; lia). apply IH.
Qed.
(** [(z as uW).to_le_bytes()] *)
Lemma le_bytes_wrap n z : le_bytes n (wrap (8 * Z.of_nat n) z) = le_bytes n z.
Proof. unfold wrap. rewrite Z.pow_mul_r by lia. apply (le_bytes_mod n z). Qed.

(** ** Bitmaps: bit [i] of a buffer is bit [i % 8] of byte [i / 8] *)
Definition bit_at (bs : list Z) (i : Z) : bool :=
  Z.testbit (default 0 (bs !! Z.to_nat (i / 8))) (i mod 8).

Section bit_ops.
Context {E : Type}.
(** [bs[i / 8] |= 1 << (i % 8)] *)
Definition bit_set (bs : list Z) (i : Z) : res E (list Z) :=
  b ← index bs (i / 8); update bs (i / 8) (setbit b (i mod 8)).
(** [bs[i / 8] &= !(1 << (i % 8))] *)
Definition bit_clear (bs : list Z) (i : Z) : res E (list Z) :=
  b ← index bs (i / 8); update bs (i / 8) (clrbit 8 b (i mod 8)).
(** [bs[i / 8] & (1 << (i % 8)) != 0] *)
Definition bit_test (bs : list Z) (i : Z) : res E bool :=
  b ← index bs (i / 8); mret (tstbit b (i mod 8)).
End bit_ops.

Lemma div8_range i n : 0 <= i < 8 * n <-> 0 <= i / 8 < n.
Proof. pose proof (Z.div_mod i 8). pose proof (Z.mod_pos_bound i 8). lia. Qed.

Lemma bit_test_ok {E} bs i : 0 <= i < 8 * zlen bs ->
  bit_test (E:=E) bs i = Ok (bit_at bs i).
Proof.
  intros Hi. apply div8_range in Hi as Hd. unfold bit_test, bit_at.
  destruct (index_total (E:=E) bs (i / 8)) as [b Hb]; [lia|]. rewrite Hb. simpl.
  apply index_inv in Hb as [_ ->]. simpl. unfold mret, res_ret.
  by rewrite tstbit_spec by (apply Z.mod_pos_bound; lia).
Qed.

Lemma bit_set_spec {E} bs i : 0 <= i < 8 * zlen bs -> bytes bs ->
  exists bs', bit_set (E:=E) bs i = Ok bs' /\ length bs' = length bs /\ bytes bs' /\
    forall j, 0 <= j -> bit_at bs' j = (i =? j) || bit_at bs j.
Proof.
  intros Hi Hbs. apply div8_range in Hi as Hd. unfold bit_set.
  destruct (index_total (E:=E) bs (i / 8)) as [b Hb]; [lia|]. rewrite Hb. simpl.
  apply index_inv in Hb as [Hr Hb]. rewrite update_ok by lia. eexists. split_and!; [done|..].
  - by rewrite length_insert.
  - apply Forall_insert; [done|].
    apply (setbit_range 8); [apply Z.mod_pos_bound; lia|]. by eapply Forall_lookup_1 in Hbs.
  - intros j Hj. unfold bit_at. destruct (decide (i / 8 = j / 8)) as [He|Hn].
    + rewrite <- He, list_lookup_insert_eq by (unfold zlen in *; lia). simpl. rewrite Hb. simpl.
      rewrite setbit_spec by (apply Z.mod_pos_bound; lia). f_equal.
      pose proof (Z.div_mod i 8). pose proof (Z.div_mod j 8). lia.
    + rewrite list_lookup_insert_ne.
      * assert ((i =? j) = false) as -> by (apply Z.eqb_neq; congruence). done.
      * assert (0 <= j / 8) by (apply Z.div_pos; lia). lia.
Qed.

Lemma bit_clear_spec {E} bs i : 0 <= i < 8 * zlen bs -> bytes bs ->
  exists bs', bit_clear (E:=E) bs i = Ok bs' /\ length bs' = length bs /\ bytes bs' /\
    forall j, 0 <= j -> bit_at bs' j = negb (i =? j) && bit_at bs j.
Proof.
  intros Hi Hbs. apply div8_range in Hi as Hd. unfold bit_clear.
  destruct (index_total (E:=E) bs (i / 8)) as [b Hb]; [lia|]. rewrite Hb. simpl.
  apply index_inv in Hb as [Hr Hb]. rewrite update_ok by lia. eexists. split_and!; [done|..].
  - by rewrite length_insert.
  - apply Forall_insert; [done|].
    apply (clrbit_range 8); [lia|]. by eapply Forall_lookup_1 in Hbs.
  - intros j Hj. unfold bit_at. destruct (decide (i / 8 = j / 8)) as [He|Hn].
    + rewrite <- He, list_lookup_insert_eq by (unfold zlen in *; lia). simpl. rewrite Hb. simpl.
      rewrite clrbit_spec by (apply Z.mod_pos_bound; lia). f_equal. f_equal.
      pose proof (Z.div_mod i 8). pose proof (Z.div_mod j 8). lia.
    + rewrite list_lookup_insert_ne.
      * assert ((i =? j) = false) as -> by (apply Z.eqb_neq; congruence). done.
      * assert (0 <= j / 8) by (apply Z.div_pos; lia). lia.
Qed.

Lemma bit_set_panic {E} bs i : ~ 0 <= i < 8 * zlen bs -> bit_set (E:=E) bs i = Panic.
Proof.
  intros Hi. unfold bit_set. rewrite index_panic; [done|]. by rewrite <- div8_range.
Qed.

(** Two buffers of one length with the same bits are equal. *)
Lemma bits_eq bs bs' : bytes bs -> bytes bs' -> length bs = length bs' ->
  (forall i, 0 <= i < 8 * zlen bs -> bit_at bs i = bit_at bs' i) -> bs = bs'.
Proof.
  intros Hb Hb' Hl Hi. apply list_eq_same_length with (length bs); [done..|].
  intros n x y Hn Hx Hy.
  eapply Forall_lookup_1 in Hb; [|exact Hx]. eapply Forall_lookup_1 in Hb'; [|exact Hy].
  apply Z.bits_inj_iff'. intros j Hj. destruct (Z.lt_ge_cases j 8) as [Hlt|Hge].
  - specialize (Hi (8 * Z.of_nat n + j)). unfold bit_at in Hi.
    replace ((8 * Z.of_nat n + j) / 8) with (Z.of_nat n) in Hi
      by (rewrite Z.mul_comm, Z.div_add_l, Z.div_small; lia).
    replace ((8 * Z.of_nat n + j) mod 8) with j in Hi
      by (rewrite Z.add_comm, Z.mul_comm, Z.mod_add, Z.mod_small; lia).
    rewrite Nat2Z.id, Hx, Hy in Hi. apply Hi. unfold zlen. lia.
  - by rewrite !byte_testbit_high by (unfold is_byte in *; lia).
Qed.

(** ** Fields of [Pod] structs

    A packed struct is its bytes; a field of [n] bytes at offset [off] is read
    and written in place. *)
Definition u_at (n : nat) (off : Z) (bs : list Z) : Z := le_num (take n (drop (Z.to_nat off) bs)).
Definition u_put (n : nat) (off : Z) (v : Z) (bs : list Z) : list Z :=
  take (Z.to_nat off) bs ++ le_bytes n v ++ drop (Z.to_nat off + n) bs.

Lemma length_u_put n off v bs : 0 <= off -> off + Z.of_nat n <= zlen bs -> length (u_put n off v bs) = length bs.
Proof.
  unfold zlen, u_put. intros. rewrite !length_app, length_take, length_drop, length_le_bytes. lia.
Qed.
Lemma zlen_u_put n off v bs : 0 <= off -> off + Z.of_nat n <= zlen bs -> zlen (u_put n off v bs) = zlen bs.
Proof. intros. unfold zlen. by rewrite length_u_put. Qed.
Lemma u_put_bytes n off v bs : bytes bs -> bytes (u_put n off v bs).
Proof.
  intros Hb. unfold u_put. rewrite !Forall_app. split_and!; [by apply Forall_take|apply le_bytes_bytes|by apply Forall_drop].
Qed.
Lemma u_at_range n off bs : bytes bs -> 0 <= off -> off + Z.of_nat n <= zlen bs -> 0 <= u_at n off bs < 256 ^ Z.of_nat n.
Proof.
  intros Hb Ho Hl. unfold u_at. pose proof (le_num_range (take n (drop (Z.to_nat off) bs))) as Hr.
  rewrite length_take, length_drop in Hr. unfold zlen in Hl.
  replace (n `min` (length bs - Z.to_nat off))%nat with n in Hr by lia. apply Hr. by apply Forall_take, Forall_drop.
Qed.
Lemma u_at_put n off v bs : 0 <= off -> off + Z.of_nat n <= zlen bs -> 0 <= v < 256 ^ Z.of_nat n ->
  u_at n off (u_put n off v bs) = v.
Proof.
  unfold zlen. intros Ho Hl Hv. unfold u_at, u_put.
  rewrite drop_app_length' by (rewrite length_take; lia).
  rewrite take_app_length' by (by rewrite length_le_bytes). by apply le_num_bytes.
Qed.
Lemma u_at_put_ne n m off off' v bs : 0 <= off -> 0 <= off' -> off' + Z.of_nat m <= zlen bs ->
  off + Z.of_nat n <= off' \/ off' + Z.of_nat m <= off ->
  u_at n off (u_put m off' v bs) = u_at n off bs.
Proof.
  unfold zlen. intros Ho Ho' Hl Hd. unfold u_at. f_equal. apply list_eq. intros i.
  destruct (decide (i < n)%nat) as [Hi|Hi].
  2:{ rewrite !lookup_take_ge by lia. done. }
  rewrite !lookup_take_lt, !lookup_drop by done. unfold u_put.
  destruct Hd.
  - rewrite lookup_app_l by (rewrite length_take; lia). by rewrite lookup_take_lt by lia.
  - rewrite lookup_app_r by (rewrite length_take; lia). rewrite length_take.
    rewrite lookup_app_r by (rewrite length_le_bytes; lia). rewrite length_le_bytes, lookup_drop. f_equal. lia.
Qed.
(** Fields of a concatenation *)
Lemma u_at_app_l n off a b : 0 <= off -> off + Z.of_nat n <= zlen a -> u_at n off (a ++ b) = u_at n off a.
Proof.
  unfold zlen. intros Ho Hl. unfold u_at. rewrite drop_app_le, take_app_le; [done|rewrite length_drop|]; lia.
Qed.
Lemma u_at_app_r n off a b : zlen a <= off -> u_at n off (a ++ b) = u_at n (off - zlen a) b.
Proof.
  unfold zlen, u_at. intros Ho. rewrite drop_app_ge by lia. do 3 f_equal. lia.
Qed.
Lemma u_put_app_l n off v a b : 0 <= off -> off + Z.of_nat n <= zlen a -> u_put n off v (a ++ b) = u_put n off v a ++ b.
Proof.
  unfold zlen, u_put. intros Ho Hl. rewrite take_app_le, drop_app_le by lia. by rewrite <- !app_assoc.
Qed.
Lemma u_put_app_r n off v a b : zlen a <= off -> u_put n off v (a ++ b) = a ++ u_put n (off - zlen a) v b.
Proof.
  unfold zlen, u_put. intros Ho. rewrite take_app_ge, drop_app_ge by lia. rewrite <- app_assoc.
  replace (Z.to_nat off - length a)%nat with (Z.to_nat (off - Z.of_nat (length a))) by lia.
  by replace (Z.to_nat off + n - length a)%nat with (Z.to_nat (off - Z.of_nat (length a)) + n)%nat by lia.
Qed.
