(* ===== verification/Serialize.v ===== *)
(** * The [dvida_serialize] crate

    [DvSerialize]/[DvDeserialize] (src/dvida_serialize/src/lib.rs), their
    implementations for the integer primitives and for fixed arrays of them
    (src/dvida_serialize/src/numbers.rs), and what the [DvDeSer] derive macro
    generates for a struct (src/dvida_serialize_macros/src/lib.rs).

    The two traits of one type are a record of operations; [DvLaws] is what
    the rest of the kernel relies on.  A floating-point type is serialized by
    its bit pattern, so [f32]/[f64] are the codecs of [u32]/[u64]. *)

From S2P Require Import Prelude Bytes.

Inductive Endianness := Little | Big | NA.

Inductive DvSerErr :=
| BufferTooSmall
| BadStringLength (lo hi : Z).

Inductive DvDeErr := WrongBufferSize.

#[global] Instance Endianness_eq_dec : EqDecision Endianness.
Proof. solve_decision. Defined.

(** [serialize] returns the new contents of [target] and the number of bytes
    written; [deserialize] the value and the number of bytes read. *)
Record DvDeSer (A : Type) := {
  serialize : Endianness -> A -> list Z -> res DvSerErr (list Z * Z);
  deserialize : Endianness -> list Z -> res DvDeErr (A * Z);
}.
Arguments serialize {A} _ _ _ _.
Arguments deserialize {A} _ _ _.

(** [#[derive(DvDeSer)]] on a struct: the fields in order, each on the rest of
    the buffer, with [acc] the bytes done so far.  [struct_cons c cs] is the
    field [c] followed by the fields [cs]; [struct_nil] is a struct with no
    fields; [struct_iso] names the fields of the record. *)
Definition struct_nil : DvDeSer () := {|
  serialize _ _ target := Ok (target, 0);
  deserialize _ _ := Ok ((), 0);
|}.
Definition struct_cons {A B} (c : DvDeSer A) (cs : DvDeSer B) : DvDeSer (A * B) := {|
  serialize e ab target :=
    '(target, acc) ← serialize c e ab.1 target;
    rest ← slice_from target acc;
    '(rest, n) ← serialize cs e ab.2 rest;
    mret (take (Z.to_nat acc) target ++ rest, acc + n);
  deserialize e input :=
    '(a, acc) ← deserialize c e input;
    rest ← slice_from input acc;
    '(b, n) ← deserialize cs e rest;
    mret ((a, b), acc + n);
|}.
Definition struct_iso {A B} (into : A -> B) (from : B -> A) (c : DvDeSer A) : DvDeSer B := {|
  serialize e b target := serialize c e (from b) target;
  deserialize e input := '(a, n) ← deserialize c e input; mret (into a, n);
|}.

(** ** Primitives: [impl_serialize_deserialize!] *)
Definition to_bytes (e : Endianness) (n : nat) (z : Z) : list Z :=
  match e with NA | Little => le_bytes n z | Big => be_bytes n z end.
Definition from_bytes (e : Endianness) (bs : list Z) : Z :=
  match e with NA | Little => le_num bs | Big => be_num bs end.

(** [to_u]/[of_u] is the cast between the type and its unsigned bits: the
    identity on [u8..u128], two's complement on [i8..i128]. *)
Definition prim (n : nat) (to_u of_u : Z -> Z) : DvDeSer Z := {|
  serialize e z target :=
    if zlen target <? Z.of_nat n then Err BufferTooSmall
    else target ← splice target 0 (to_bytes e n (to_u z)); mret (target, Z.of_nat n);
  deserialize e input :=
    if zlen input <? Z.of_nat n then Err WrongBufferSize
    else bs ← slice input 0 (Z.of_nat n); mret (of_u (from_bytes e bs), Z.of_nat n);
|}.
Definition uint (n : nat) : DvDeSer Z := prim n id id.
Definition sint (n : nat) : DvDeSer Z := prim n (wrap (8 * Z.of_nat n)) (swrap (8 * Z.of_nat n)).

(** ** Arrays: [impl_serialize_deserialize_array!], [[T; N]] with
    [size_of::<T>() = sz] *)
Fixpoint array_ser_loop (c : DvDeSer Z) (sz : nat) (e : Endianness) (i : nat)
    (elems : list Z) (target : list Z) : res DvSerErr (list Z) :=
  match elems with
  | [] => Ok target
  | elem :: elems =>
      let offset := Z.of_nat (i * sz) in
      sub ← slice target offset (offset + Z.of_nat sz);
      '(sub, _) ← serialize c e elem sub;
      target ← splice target offset sub;
      array_ser_loop c sz e (S i) elems target
  end.
Fixpoint array_de_loop (c : DvDeSer Z) (sz : nat) (e : Endianness) (i n : nat)
    (input : list Z) : res DvDeErr (list Z) :=
  match n with
  | O => Ok []
  | S n =>
      let offset := Z.of_nat (i * sz) in
      sub ← slice input offset (offset + Z.of_nat sz);
      '(elem, _) ← deserialize c e sub;
      rest ← array_de_loop c sz e (S i) n input;
      mret (elem :: rest)
  end.
Definition array (c : DvDeSer Z) (sz n : nat) : DvDeSer (list Z) := {|
  serialize e elems target :=
    if zlen target <? Z.of_nat (sz * n) then Err BufferTooSmall
    else target ← array_ser_loop c sz e 0 elems target; mret (target, Z.of_nat (sz * n));
  deserialize e input :=
    if zlen input <? Z.of_nat (sz * n) then Err WrongBufferSize
    else elems ← array_de_loop c sz e 0 n input; mret (elems, Z.of_nat (sz * n));
|}.

(** ** The contract

    Values in [valid] occupy [sz] bytes.  [enc] is the encoding: [serialize]
    puts it at the start of a buffer that is long enough, leaves the rest of
    the buffer as it was and refuses a short buffer; [deserialize] reads it
    back, whatever follows it, and every [sz]-byte string decodes to the
    value it is the encoding of. *)
Class DvLaws {A} (c : DvDeSer A) (sz : nat) (valid : A -> Prop)
    (enc : Endianness -> A -> list Z) : Prop := {
  enc_len e a : valid a -> length (enc e a) = sz;
  enc_bytes e a : valid a -> bytes (enc e a);
  ser_fits e a t : valid a -> (sz <= length t)%nat ->
    serialize c e a t = Ok (enc e a ++ drop sz t, Z.of_nat sz);
  ser_short e a t : valid a -> (length t < sz)%nat ->
    serialize c e a t = Err BufferTooSmall;
  de_enc e a rest : valid a -> deserialize c e (enc e a ++ rest) = Ok (a, Z.of_nat sz);
  de_short e i : (length i < sz)%nat -> deserialize c e i = Err WrongBufferSize;
  de_long e i : (sz <= length i)%nat -> exists a, deserialize c e i = Ok (a, Z.of_nat sz);
  de_onto e bs : bytes bs -> length bs = sz -> exists a, valid a /\ enc e a = bs;
}.

(** Serializing a valid value and reading the buffer back gives the value. *)
Lemma codec_roundtrip `{DvLaws A c sz valid enc} e a t : valid a -> (sz <= length t)%nat ->
  exists t', serialize c e a t = Ok (t', Z.of_nat sz) /\ length t' = length t /\
    drop sz t' = drop sz t /\ deserialize c e t' = Ok (a, Z.of_nat sz).
Proof.
  intros Ha Ht. exists (enc e a ++ drop sz t). split_and!.
  - by apply ser_fits.
  - rewrite length_app, length_drop, enc_len by done. lia.
  - rewrite drop_app_length'; [done|]. by rewrite enc_len.
  - by apply de_enc.
Qed.

(** A buffer that is long enough always decodes, to the value whose encoding
    is the buffer's prefix. *)
Lemma codec_total `{DvLaws A c sz valid enc} e input : bytes input -> (sz <= length input)%nat ->
  exists a, valid a /\ deserialize c e input = Ok (a, Z.of_nat sz) /\
    enc e a = take sz input.
Proof.
  intros Hb Hl. destruct (de_onto e (take sz input)) as (a & Ha & He).
  { by apply Forall_take. }
  { rewrite length_take. lia. }
  exists a. split_and!; [done| |done].
  rewrite <- (take_drop sz input) at 1. rewrite <- He. by apply de_enc.
Qed.

#[global] Instance struct_nil_laws : DvLaws struct_nil 0 (fun _ => True) (fun _ _ => []).
Proof.
  split; simpl; intros; try (done || lia); eauto.
  - by destruct a.
  - exists (). by destruct bs.
Qed.

#[global] Instance struct_cons_laws {A B} (c : DvDeSer A) (cs : DvDeSer B) m n P Q f g :
  DvLaws c m P f -> DvLaws cs n Q g ->
  DvLaws (struct_cons c cs) (m + n) (fun ab => P ab.1 /\ Q ab.2)
    (fun e ab => f e ab.1 ++ g e ab.2).
Proof.
  intros Hc Hs.
  assert (forall e a t, P a -> slice_from (E:=DvSerErr) (f e a ++ t) (Z.of_nat m) = Ok t) as Hsf.
  { intros e a t Ha. rewrite slice_from_ok, Nat2Z.id, drop_app_length'; [done| |].
    - by rewrite enc_len.
    - zlen. unfold zlen. rewrite enc_len by done. lia. }
  split.
  - intros e [a b] [Ha Hb]. rewrite length_app. simpl in *. by rewrite !enc_len.
  - intros e [a b] [Ha Hb]. apply Forall_app. simpl in *. split; by apply enc_bytes.
  - intros e [a b] t [Ha Hb] Ht. simpl in *.
    rewrite ser_fits by (done || lia). simpl. rewrite Hsf by done. simpl.
    rewrite ser_fits by (done || rewrite length_drop; lia). simpl.
    unfold mret, res_ret. rewrite Nat2Z.id, take_app_length' by (by rewrite enc_len).
    rewrite drop_drop, <- app_assoc, Nat2Z.inj_add. done.
  - intros e [a b] t [Ha Hb] Ht. simpl in *.
    destruct (Nat.lt_ge_cases (length t) m); [by rewrite ser_short|].
    rewrite ser_fits by (done || lia). simpl. rewrite Hsf by done. simpl.
    rewrite ser_short; [done|done|]. rewrite length_drop. lia.
  - intros e [a b] rest [Ha Hb]. simpl in *. rewrite <- app_assoc, de_enc by done. simpl.
    rewrite slice_from_ok, Nat2Z.id, drop_app_length'.
    + simpl. rewrite de_enc by done. simpl. by rewrite Nat2Z.inj_add.
    + by rewrite enc_len.
    + zlen. unfold zlen. rewrite enc_len by done. lia.
  - intros e i Hi. simpl. destruct (Nat.lt_ge_cases (length i) m); [by rewrite de_short|].
    destruct (de_long (c:=c) e i) as [a ->]; [done|]. simpl.
    rewrite slice_from_ok, Nat2Z.id by (unfold zlen; lia). simpl.
    rewrite de_short; [done|]. rewrite length_drop. lia.
  - intros e i Hi. simpl. destruct (de_long (c:=c) e i) as [a ->]; [lia|]. simpl.
    rewrite slice_from_ok, Nat2Z.id by (unfold zlen; lia). simpl.
    destruct (de_long (c:=cs) e (drop m i)) as [b ->]; [rewrite length_drop; lia|].
    eexists. simpl. by rewrite Nat2Z.inj_add.
  - intros e bs Hb Hl.
    destruct (de_onto (c:=c) e (take m bs)) as (a & Ha & Ea);
      [by apply Forall_take|rewrite length_take; lia|].
    destruct (de_onto (c:=cs) e (drop m bs)) as (b & Hb' & Eb);
      [by apply Forall_drop|rewrite length_drop; lia|].
    exists (a, b). simpl. rewrite Ea, Eb, take_drop. done.
Qed.

Lemma struct_iso_laws {A B} (into : A -> B) (from : B -> A) c n P f (Q : B -> Prop) :
  DvLaws c n P f -> (forall b, Q b -> P (from b)) -> (forall a, P a -> Q (into a)) ->
  (forall b, into (from b) = b) -> (forall a, from (into a) = a) ->
  DvLaws (struct_iso into from c) n Q (fun e b => f e (from b)).
Proof.
  intros Hc HQ HP H1 H2. split; simpl; intros.
  - apply enc_len. auto.
  - apply enc_bytes. auto.
  - apply ser_fits; auto.
  - apply ser_short; auto.
  - rewrite de_enc by auto. simpl. by rewrite H1.
  - by rewrite de_short.
  - destruct (de_long (c:=c) e i) as [a ->]; [done|]. eauto.
  - destruct (de_onto (c:=c) e bs) as (a & Ha & Ea); [done..|].
    exists (into a). rewrite H2. auto.
Qed.

(** ** Primitives satisfy the contract *)
Lemma length_to_bytes e n z : length (to_bytes e n z) = n.
Proof. destruct e; simpl; auto using length_le_bytes, length_be_bytes. Qed.
Lemma to_bytes_bytes e n z : bytes (to_bytes e n z).
Proof. destruct e; simpl; auto using le_bytes_bytes, be_bytes_bytes. Qed.
Lemma from_to_bytes e n z : 0 <= z < 256 ^ Z.of_nat n -> from_bytes e (to_bytes e n z) = z.
Proof. destruct e; simpl; auto using le_num_bytes, be_num_bytes. Qed.
Lemma from_bytes_range e bs : bytes bs -> 0 <= from_bytes e bs < 256 ^ Z.of_nat (length bs).
Proof. destruct e; simpl; auto using le_num_range, be_num_range. Qed.
Lemma to_from_bytes e bs : bytes bs -> to_bytes e (length bs) (from_bytes e bs) = bs.
Proof.
  intros Hb. destruct e; simpl; auto using le_bytes_num.
  unfold be_bytes, be_num. rewrite <- (length_rev bs), le_bytes_num, rev_involutive; [done|].
  by apply Forall_rev.
Qed.

Lemma prim_laws n (to_u of_u : Z -> Z) (P : Z -> Prop) :
  (forall z, P z -> 0 <= to_u z < 256 ^ Z.of_nat n) ->
  (forall z, P z -> of_u (to_u z) = z) ->
  (forall u, 0 <= u < 256 ^ Z.of_nat n -> P (of_u u) /\ to_u (of_u u) = u) ->
  DvLaws (prim n to_u of_u) n P (fun e z => to_bytes e n (to_u z)).
Proof.
  intros Hr Hi Hu. split; simpl.
  - intros. apply length_to_bytes.
  - intros. apply to_bytes_bytes.
  - intros e a t Ha Ht. bfalse (zlen t <? Z.of_nat n).
    rewrite splice_ok by (unfold zlen; rewrite ?length_to_bytes; lia). simpl.
    by rewrite length_to_bytes.
  - intros e a t Ha Ht. by btrue (zlen t <? Z.of_nat n).
  - intros e a rest Ha.
    pose proof (length_to_bytes e n (to_u a)).
    bfalse (zlen (to_bytes e n (to_u a) ++ rest) <? Z.of_nat n).
    rewrite slice_ok; [|lia|zlen; unfold zlen; rewrite length_to_bytes; lia]. simpl.
    rewrite Z.sub_0_r, Nat2Z.id, drop_0, take_app_length' by (by rewrite length_to_bytes).
    rewrite from_to_bytes, Hi by auto. done.
  - intros e i Hl. by btrue (zlen i <? Z.of_nat n).
  - intros e i Hl. bfalse (zlen i <? Z.of_nat n).
    rewrite slice_ok by (unfold zlen; lia). simpl. eauto.
  - intros e bs Hb Hl. exists (of_u (from_bytes e bs)).
    destruct (Hu (from_bytes e bs)) as [HP ->].
    + rewrite <- Hl. by apply from_bytes_range.
    + split; [done|]. subst n. by apply to_from_bytes.
Qed.

Definition is_uint (n : nat) (z : Z) : Prop := 0 <= z < 256 ^ Z.of_nat n.
Definition is_sint (n : nat) (z : Z) : Prop :=
  - 2 ^ (8 * Z.of_nat n - 1) <= z < 2 ^ (8 * Z.of_nat n - 1).

Lemma pow256 n : 256 ^ Z.of_nat n = 2 ^ (8 * Z.of_nat n).
Proof. rewrite Z.pow_mul_r by lia. done. Qed.

#[global] Instance uint_laws n : DvLaws (uint n) n (is_uint n) (fun e z => to_bytes e n z).
Proof. apply prim_laws; auto. Qed.

Lemma swrap_wrap w z : 0 < w -> - 2 ^ (w - 1) <= z < 2 ^ (w - 1) -> swrap w (wrap w z) = z.
Proof.
  intros Hw Hz. rewrite <- (swrap_small w z) at 2 by done. unfold swrap, wrap.
  by rewrite Zplus_mod_idemp_l.
Qed.
Lemma wrap_swrap w u : 0 < w -> 0 <= u < 2 ^ w -> wrap w (swrap w u) = u.
Proof.
  intros Hw Hu. unfold swrap, wrap. rewrite Zminus_mod_idemp_l.
  replace (u + 2 ^ (w - 1) - 2 ^ (w - 1)) with u by lia. by apply Z.mod_small.
Qed.

#[global] Instance sint_laws n : DvLaws (sint (S n)) (S n) (is_sint (S n))
  (fun e z => to_bytes e (S n) (wrap (8 * Z.of_nat (S n)) z)).
Proof.
  apply prim_laws; intros z Hz; rewrite ?pow256 in *; unfold is_sint in *.
  - apply wrap_range. lia.
  - apply swrap_wrap; [lia|done].
  - split; [apply swrap_range; lia|apply wrap_swrap; [lia|done]].
Qed.

(** ** Arrays satisfy the contract *)
Section array.
Context (c : DvDeSer Z) (sz : nat) (P : Z -> Prop) (enc : Endianness -> Z -> list Z).
Context `{!DvLaws c sz P enc}.

Lemma enc_concat_len e elems : Forall P elems ->
  length (concat (enc e <$> elems)) = (sz * length elems)%nat.
Proof.
  induction 1 as [|x l Hx Hl IH]; csimpl; [lia|].
  rewrite length_app, enc_len, IH by done. lia.
Qed.

Lemma array_ser_loop_ok e elems i pre t : Forall P elems -> length pre = (i * sz)%nat ->
  (sz * length elems <= length t)%nat ->
  array_ser_loop c sz e i elems (pre ++ t) =
    Ok (pre ++ concat (enc e <$> elems) ++ drop (sz * length elems) t).
Proof.
  intros He. revert i pre t. induction He as [|x l Hx Hl IH]; intros i pre t Hp Ht; csimpl.
  { by rewrite Nat.mul_0_r, drop_0. }
  simpl in Ht.
  rewrite slice_ok; [|lia|zlen; unfold zlen; rewrite Hp; lia]. simpl.
  rewrite Nat2Z.id, drop_app_length' by done.
  replace (Z.to_nat _) with sz by lia.
  rewrite ser_fits; [|done|rewrite length_take; lia]. simpl.
  rewrite drop_ge, app_nil_r by (rewrite length_take; lia).
  rewrite splice_ok; [|lia|zlen; unfold zlen; rewrite Hp, enc_len by done; lia]. simpl.
  rewrite Nat2Z.id, take_app_length' by done.
  rewrite enc_len by done. rewrite <- Hp, drop_app_add by done.
  rewrite app_assoc, IH.
  - rewrite drop_drop, <- !app_assoc, Nat.mul_succ_r, Nat.add_comm. done.
  - rewrite length_app, enc_len, Hp by done. lia.
  - rewrite length_drop. lia.
Qed.

Lemma array_de_loop_ok e elems i pre t : Forall P elems -> length pre = (i * sz)%nat ->
  array_de_loop c sz e i (length elems) (pre ++ concat (enc e <$> elems) ++ t) = Ok elems.
Proof.
  intros He. revert i pre t. induction He as [|x l Hx Hl IH]; intros i pre t Hp; csimpl; [done|].
  rewrite <- app_assoc, slice_ok;
    [|lia|zlen; unfold zlen; rewrite Hp, enc_len by done; lia]. simpl.
  rewrite Nat2Z.id, drop_app_length' by done.
  replace (Z.to_nat _) with sz by lia. rewrite take_app_length' by (by rewrite enc_len).
  rewrite <- (app_nil_r (enc e x)) at 1. rewrite de_enc by done. simpl.
  rewrite app_assoc, IH; [done|]. rewrite length_app, enc_len, Hp by done. lia.
Qed.

Lemma array_de_loop_long e i n input : ((i + n) * sz <= length input)%nat ->
  exists l, array_de_loop c sz e i n input = Ok l.
Proof.
  revert i. induction n as [|n IH]; intros i Hl; simpl; [eauto|].
  rewrite slice_ok; [|lia|unfold zlen; lia]. simpl.
  match goal with |- context [deserialize c e ?x] => destruct (de_long e x) as [a ->] end.
  { rewrite length_take, length_drop. lia. }
  simpl. destruct (IH (S i)) as [l ->]; [lia|]. simpl. eauto.
Qed.

Lemma array_onto e n bs : bytes bs -> length bs = (sz * n)%nat ->
  exists l, Forall P l /\ length l = n /\ concat (enc e <$> l) = bs.
Proof.
  revert bs. induction n as [|n IH]; intros bs Hb Hl.
  { exists []. destruct bs; simpl in *; [done|lia]. }
  destruct (de_onto (c:=c) e (take sz bs)) as (a & Ha & Ea);
    [by apply Forall_take|rewrite length_take; lia|].
  destruct (IH (drop sz bs)) as (l & Hl1 & Hl2 & Hl3);
    [by apply Forall_drop|rewrite length_drop; lia|].
  exists (a :: l). split_and!; [by constructor|simpl; lia|]. csimpl.
  by rewrite Ea, Hl3, take_drop.
Qed.

#[global] Instance array_laws n : DvLaws (array c sz n) (sz * n)
  (fun l => Forall P l /\ length l = n) (fun e l => concat (enc e <$> l)).
Proof using DvLaws0.
  split; simpl.
  - intros e l [Hl <-]. by apply enc_concat_len.
  - intros e l [Hl _]. induction Hl as [|x l Hx Hl IH]; csimpl; [constructor|].
    apply Forall_app. split; [by apply enc_bytes|done].
  - intros e l t [Hl <-] Ht. bfalse (zlen t <? Z.of_nat (sz * length l)).
    pose proof (array_ser_loop_ok e l 0 [] t) as R. simpl in R. by rewrite R by (done || lia).
  - intros e l t _ Ht. by btrue (zlen t <? Z.of_nat (sz * n)).
  - intros e l rest [Hl <-].
    pose proof (enc_concat_len e l Hl).
    bfalse (zlen (concat (enc e <$> l) ++ rest) <? Z.of_nat (sz * length l)).
    pose proof (array_de_loop_ok e l 0 [] rest) as R. simpl in R. by rewrite R.
  - intros e i Hi. by btrue (zlen i <? Z.of_nat (sz * n)).
  - intros e i Hi. bfalse (zlen i <? Z.of_nat (sz * n)).
    destruct (array_de_loop_long e 0 n i) as [l ->]; [lia|]. simpl. eauto.
  - intros e bs Hb Hl. destruct (array_onto e n bs) as (l & ? & ? & ?); eauto.
Qed.
End array.

(** Arrays of signed integers of any width, in any byte order: [serialize]
    refuses a buffer that is too short, otherwise writes exactly
    [width * length] bytes, leaves the rest of the buffer alone, and
    [deserialize] reads the same elements back from the result whatever
    follows them. *)
Theorem int_array_roundtrip n e elems t : Forall (is_sint (S n)) elems ->
  let sz := (S n * length elems)%nat in
  let c := array (sint (S n)) (S n) (length elems) in
  ((length t < sz)%nat -> serialize c e elems t = Err BufferTooSmall /\
    deserialize c e t = Err WrongBufferSize) /\
  ((sz <= length t)%nat -> exists t', serialize c e elems t = Ok (t', Z.of_nat sz) /\
    length t' = length t /\ drop sz t' = drop sz t /\
    deserialize c e t' = Ok (elems, Z.of_nat sz)).
Proof.
  intros He sz c.
  pose proof (array_laws (sint (S n)) (S n) (is_sint (S n)) _ (length elems)) as L. split.
  - intros Ht. split; [by apply (ser_short (DvLaws:=L))|by apply (de_short (DvLaws:=L))].
  - intros Ht. by apply (codec_roundtrip (H:=L)).
Qed.

Lemma int_array_roundtrip_witness : exists t',
  serialize (array (sint 2) 2 2) Big [-2; 258] [7; 7; 7; 7; 9] = Ok (t', 4) /\
  deserialize (array (sint 2) 2 2) Big t' = Ok ([-2; 258], 4).
Proof.
  destruct (int_array_roundtrip 1 Big [-2; 258] [7; 7; 7; 7; 9]) as [_ H].
  - repeat constructor; vm_compute; congruence.
  - destruct H as (t' & H1 & _ & _ & H2); [vm_compute; lia|]. exists t'. by split.
Defined.
