(* ===== verification/Crypto.v ===== *)
(** * The [crypto] module of the kernel

    src/kernel/src/crypto: the CRC-32 used for GPT headers and entry arrays,
    GUIDs and their text form, the bit iterator, the random number generator,
    UUIDs and the two helpers of mod.rs.

    Shown here: the table-driven CRC computes the bitwise CRC-32 and detects
    every change confined to four consecutive bytes; GUIDs survive printing
    and parsing; the bit iterator yields the bits of its words in order; the
    generator only ever rewrites one of its 624 words; a UUID has its version
    and variant bits and its text form spells its bytes. *)

From S2P Require Import Prelude Bytes.

(** ** crc32.rs *)
Module Crc32.

Definition I_TABLE : list Z :=
  [0x00000000; 0x77073096; 0xee0e612c; 0x990951ba; 0x076dc419; 0x706af48f; 0xe963a535; 0x9e6495a3;
   0x0edb8832; 0x79dcb8a4; 0xe0d5e91e; 0x97d2d988; 0x09b64c2b; 0x7eb17cbd; 0xe7b82d07; 0x90bf1d91;
   0x1db71064; 0x6ab020f2; 0xf3b97148; 0x84be41de; 0x1adad47d; 0x6ddde4eb; 0xf4d4b551; 0x83d385c7;
   0x136c9856; 0x646ba8c0; 0xfd62f97a; 0x8a65c9ec; 0x14015c4f; 0x63066cd9; 0xfa0f3d63; 0x8d080df5;
   0x3b6e20c8; 0x4c69105e; 0xd56041e4; 0xa2677172; 0x3c03e4d1; 0x4b04d447; 0xd20d85fd; 0xa50ab56b;
   0x35b5a8fa; 0x42b2986c; 0xdbbbc9d6; 0xacbcf940; 0x32d86ce3; 0x45df5c75; 0xdcd60dcf; 0xabd13d59;
   0x26d930ac; 0x51de003a; 0xc8d75180; 0xbfd06116; 0x21b4f4b5; 0x56b3c423; 0xcfba9599; 0xb8bda50f;
   0x2802b89e; 0x5f058808; 0xc60cd9b2; 0xb10be924; 0x2f6f7c87; 0x58684c11; 0xc1611dab; 0xb6662d3d;
   0x76dc4190; 0x01db7106; 0x98d220bc; 0xefd5102a; 0x71b18589; 0x06b6b51f; 0x9fbfe4a5; 0xe8b8d433;
   0x7807c9a2; 0x0f00f934; 0x9609a88e; 0xe10e9818; 0x7f6a0dbb; 0x086d3d2d; 0x91646c97; 0xe6635c01;
   0x6b6b51f4; 0x1c6c6162; 0x856530d8; 0xf262004e; 0x6c0695ed; 0x1b01a57b; 0x8208f4c1; 0xf50fc457;
   0x65b0d9c6; 0x12b7e950; 0x8bbeb8ea; 0xfcb9887c; 0x62dd1ddf; 0x15da2d49; 0x8cd37cf3; 0xfbd44c65;
   0x4db26158; 0x3ab551ce; 0xa3bc0074; 0xd4bb30e2; 0x4adfa541; 0x3dd895d7; 0xa4d1c46d; 0xd3d6f4fb;
   0x4369e96a; 0x346ed9fc; 0xad678846; 0xda60b8d0; 0x44042d73; 0x33031de5; 0xaa0a4c5f; 0xdd0d7cc9;
   0x5005713c; 0x270241aa; 0xbe0b1010; 0xc90c2086; 0x5768b525; 0x206f85b3; 0xb966d409; 0xce61e49f;
   0x5edef90e; 0x29d9c998; 0xb0d09822; 0xc7d7a8b4; 0x59b33d17; 0x2eb40d81; 0xb7bd5c3b; 0xc0ba6cad;
   0xedb88320; 0x9abfb3b6; 0x03b6e20c; 0x74b1d29a; 0xead54739; 0x9dd277af; 0x04db2615; 0x73dc1683;
   0xe3630b12; 0x94643b84; 0x0d6d6a3e; 0x7a6a5aa8; 0xe40ecf0b; 0x9309ff9d; 0x0a00ae27; 0x7d079eb1;
   0xf00f9344; 0x8708a3d2; 0x1e01f268; 0x6906c2fe; 0xf762575d; 0x806567cb; 0x196c3671; 0x6e6b06e7;
   0xfed41b76; 0x89d32be0; 0x10da7a5a; 0x67dd4acc; 0xf9b9df6f; 0x8ebeeff9; 0x17b7be43; 0x60b08ed5;
   0xd6d6a3e8; 0xa1d1937e; 0x38d8c2c4; 0x4fdff252; 0xd1bb67f1; 0xa6bc5767; 0x3fb506dd; 0x48b2364b;
   0xd80d2bda; 0xaf0a1b4c; 0x36034af6; 0x41047a60; 0xdf60efc3; 0xa867df55; 0x316e8eef; 0x4669be79;
   0xcb61b38c; 0xbc66831a; 0x256fd2a0; 0x5268e236; 0xcc0c7795; 0xbb0b4703; 0x220216b9; 0x5505262f;
   0xc5ba3bbe; 0xb2bd0b28; 0x2bb45a92; 0x5cb36a04; 0xc2d7ffa7; 0xb5d0cf31; 0x2cd99e8b; 0x5bdeae1d;
   0x9b64c2b0; 0xec63f226; 0x756aa39c; 0x026d930a; 0x9c0906a9; 0xeb0e363f; 0x72076785; 0x05005713;
   0x95bf4a82; 0xe2b87a14; 0x7bb12bae; 0x0cb61b38; 0x92d28e9b; 0xe5d5be0d; 0x7cdcefb7; 0x0bdbdf21;
   0x86d3d2d4; 0xf1d4e242; 0x68ddb3f8; 0x1fda836e; 0x81be16cd; 0xf6b9265b; 0x6fb077e1; 0x18b74777;
   0x88085ae6; 0xff0f6a70; 0x66063bca; 0x11010b5c; 0x8f659eff; 0xf862ae69; 0x616bffd3; 0x166ccf45;
   0xa00ae278; 0xd70dd2ee; 0x4e048354; 0x3903b3c2; 0xa7672661; 0xd06016f7; 0x4969474d; 0x3e6e77db;
   0xaed16a4a; 0xd9d65adc; 0x40df0b66; 0x37d83bf0; 0xa9bcae53; 0xdebb9ec5; 0x47b2cf7f; 0x30b5ffe9;
   0xbdbdf21c; 0xcabac28a; 0x53b39330; 0x24b4a3a6; 0xbad03605; 0xcdd70693; 0x54de5729; 0x23d967bf;
   0xb3667a2e; 0xc4614ab8; 0x5d681b02; 0x2a6f2b94; 0xb40bbe37; 0xc30c8ea1; 0x5a05df1b; 0x2d02ef8d].

Definition partial_crc (i_crc : Z) (s_data : list Z) : res never Z :=
  rfor s_data i_crc (fun data i_crc =>
    t ← index I_TABLE (Z.lxor (Z.land i_crc 0xFF) data);
    mret (Z.lxor (Z.shiftr i_crc 8) t)).

Definition full_crc (s_data : list Z) : res never Z :=
  ul_crc ← rfor s_data 0xFFFFFFFF (fun data ul_crc =>
    t ← index I_TABLE (Z.land (Z.lxor ul_crc data) 0xFF);
    mret (Z.lxor (Z.shiftr ul_crc 8) t));
  mret (Z.lxor ul_crc 0xFFFFFFFF).

Definition is_verified_crc32 (arr : list Z) (crc32 : Z) : res never bool :=
  c ← full_crc arr; mret (crc32 =? c).

(** *** Specification: one bit of the message at a time *)
Definition POLY : Z := 0xEDB88320.
Definition crc_bit (c : Z) : Z :=
  Z.lxor (Z.shiftr c 1) (if Z.odd c then POLY else 0).
Fixpoint crc_bits (n : nat) (c : Z) : Z :=
  match n with O => c | S n => crc_bits n (crc_bit c) end.
Definition crc_byte (c b : Z) : Z := crc_bits 8 (Z.lxor c b).
Definition crc_bytes (c : Z) (bs : list Z) : Z := foldl crc_byte c bs.
Definition crc32_spec (bs : list Z) : Z :=
  Z.lxor (crc_bytes 0xFFFFFFFF bs) 0xFFFFFFFF.

Definition u32 (z : Z) : Prop := 0 <= z < 2 ^ 32.

(** *** The step is linear and injective on 32-bit states *)
Lemma crc_bit_linear a b : crc_bit (Z.lxor a b) = Z.lxor (crc_bit a) (crc_bit b).
Proof.
  unfold crc_bit. rewrite Z.shiftr_lxor, <- !Z.bit0_odd, Z.lxor_spec.
  rewrite !Z.lxor_assoc. f_equal.
  destruct (Z.testbit a 0), (Z.testbit b 0); simpl; apply Z.bits_inj_iff; intros j;
    rewrite ?Z.lxor_spec, ?Z.bits_0, ?xorb_false_r; try done;
    destruct (Z.testbit (Z.shiftr b 1) j), (Z.testbit POLY j); done.
Qed.
Lemma crc_bits_linear n a b : crc_bits n (Z.lxor a b) = Z.lxor (crc_bits n a) (crc_bits n b).
Proof.
  revert a b. induction n as [|n IH]; intros a b; simpl; [done|].
  by rewrite crc_bit_linear, IH.
Qed.
Lemma crc_bit_range c : u32 c -> u32 (crc_bit c).
Proof.
  intros Hc. unfold u32, crc_bit in *. apply lxor_range; [lia|by apply shiftr_range|].
  by destruct (Z.odd c).
Qed.
Lemma crc_bits_range n c : u32 c -> u32 (crc_bits n c).
Proof. revert c. induction n; simpl; auto using crc_bit_range. Qed.
Lemma crc_bits_add m n c : crc_bits (m + n) c = crc_bits n (crc_bits m c).
Proof. revert c. induction m; simpl; auto. Qed.

Lemma crc_bit_zero c : u32 c -> crc_bit c = 0 -> c = 0.
Proof.
  unfold u32, crc_bit. intros Hc. rewrite Z.shiftr_div_pow2 by done. change (2 ^ 1) with 2.
  pose proof (Z.div_mod c 2) as D. rewrite Zmod_odd in D.
  destruct (Z.odd c); intros H.
  - apply Z.lxor_eq in H. unfold POLY in H. lia.
  - rewrite Z.lxor_0_r in H. lia.
Qed.
Lemma crc_bits_zero n c : u32 c -> crc_bits n c = 0 -> c = 0.
Proof.
  revert c. induction n as [|n IH]; intros c Hc H; simpl in H; [done|].
  apply crc_bit_zero; [done|]. apply IH; [by apply crc_bit_range|done].
Qed.
Lemma crc_bits_inj n a b : u32 a -> u32 b -> crc_bits n a = crc_bits n b -> a = b.
Proof.
  intros Ha Hb H. apply Z.lxor_eq. apply (crc_bits_zero n).
  - apply lxor_range; [lia|done..].
  - by rewrite crc_bits_linear, H, Z.lxor_nilpotent.
Qed.

(** Bits above the ones consumed are only shifted down. *)
Lemma crc_bit_shiftl c : crc_bit (Z.shiftl c 1) = c.
Proof.
  unfold crc_bit. rewrite <- Z.bit0_odd, Z.shiftl_spec_low by lia.
  by rewrite Z.shiftr_shiftl_l, Z.shiftl_0_r, Z.lxor_0_r by lia.
Qed.
Lemma crc_bits_shiftl n c : crc_bits n (Z.shiftl c (Z.of_nat n)) = c.
Proof.
  revert c. induction n as [|n IH]; intros c; [apply Z.shiftl_0_r|].
  change (crc_bits n (crc_bit (Z.shiftl c (Z.of_nat (S n)))) = c).
  replace (Z.shiftl c (Z.of_nat (S n))) with (Z.shiftl (Z.shiftl c (Z.of_nat n)) 1)
    by (rewrite Z.shiftl_shiftl by lia; f_equal; lia).
  by rewrite crc_bit_shiftl, IH.
Qed.
Lemma crc_bits_split n a b :
  crc_bits n (Z.lxor a (Z.shiftl b (Z.of_nat n))) = Z.lxor (crc_bits n a) b.
Proof. by rewrite crc_bits_linear, crc_bits_shiftl. Qed.

#[local] Arguments crc_bits : simpl never.

(** *** The table *)
Lemma table_spec i : is_byte i -> index (E:=never) I_TABLE i = Ok (crc_bits 8 i).
Proof.
  intros Hi.
  assert (I_TABLE = (fun i => crc_bits 8 (Z.of_nat i)) <$> seq 0 256) as -> by (by vm_compute).
  apply index_ok; [unfold is_byte in Hi; lia|].
  rewrite list_lookup_fmap, lookup_seq_lt by (unfold is_byte in Hi; lia). simpl.
  by rewrite Z2Nat.id by (unfold is_byte in Hi; lia).
Qed.
Lemma split_low8 c : 0 <= c -> c = Z.lxor (Z.land c 0xFF) (Z.shiftl (Z.shiftr c 8) 8).
Proof.
  intros Hc. change 0xFF with (Z.ones 8). rewrite Z.land_ones by lia.
  assert (0 <= c mod 2 ^ 8 < 2 ^ 8) by (by apply Z.mod_pos_bound).
  rewrite lxor_shiftl_add, Z.shiftr_div_pow2 by lia.
  pose proof (Z.div_mod c (2 ^ 8)). lia.
Qed.
Lemma crc_byte_table c b : u32 c -> is_byte b ->
  crc_byte c b = Z.lxor (Z.shiftr c 8) (crc_bits 8 (Z.lxor (Z.land c 0xFF) b)).
Proof.
  intros Hc Hb. unfold u32, crc_byte in *. rewrite (split_low8 c) at 1 by lia.
  rewrite (Z.lxor_comm (Z.land c 255)), Z.lxor_assoc, Z.lxor_comm.
  by rewrite (crc_bits_split 8), Z.lxor_comm.
Qed.
Lemma low_byte_range c b : 0 <= c -> is_byte b -> is_byte (Z.lxor (Z.land c 0xFF) b).
Proof.
  intros Hc Hb. apply (lxor_range 8); [lia| |done]. by apply land_range.
Qed.
Lemma low_byte_comm c b : is_byte b -> Z.land (Z.lxor c b) 0xFF = Z.lxor (Z.land c 0xFF) b.
Proof.
  intros Hb. change 0xFF with (Z.ones 8).
  assert (Z.land b (Z.ones 8) = b) as Hl by (rewrite Z.land_ones by lia; by apply Z.mod_small).
  rewrite <- Hl at 2. apply Z.bits_inj_iff. intros j.
  rewrite !Z.land_spec, !Z.lxor_spec, !Z.land_spec.
  by destruct (Z.testbit c j), (Z.testbit b j), (Z.testbit (Z.ones 8) j).
Qed.
Lemma crc_byte_range c b : u32 c -> is_byte b -> u32 (crc_byte c b).
Proof.
  intros Hc Hb. apply crc_bits_range, lxor_range; [lia|done|].
  unfold is_byte in Hb. lia.
Qed.
Lemma crc_bytes_range c bs : u32 c -> bytes bs -> u32 (crc_bytes c bs).
Proof.
  intros Hc Hb. revert c Hc. induction Hb; intros c Hc; simpl; auto using crc_byte_range.
Qed.

Lemma partial_crc_bytes c bs : u32 c -> bytes bs -> partial_crc c bs = Ok (crc_bytes c bs).
Proof.
  intros Hc Hb. revert c Hc. unfold partial_crc.
  induction Hb as [|b bs Hb Hbs IH]; intros c Hc; [done|]. simpl.
  rewrite table_spec by (apply low_byte_range; [unfold u32 in Hc; lia|done]). simpl.
  rewrite <- crc_byte_table by done. apply IH. by apply crc_byte_range.
Qed.
Lemma full_crc_partial bs : bytes bs ->
  full_crc bs = (c ← partial_crc 0xFFFFFFFF bs; mret (Z.lxor c 0xFFFFFFFF)).
Proof.
  intros Hb. unfold full_crc, partial_crc. f_equal. generalize 0xFFFFFFFF.
  induction Hb as [|b bs Hb Hbs IH]; intros c; [done|]. simpl. rewrite low_byte_comm by done.
  destruct (index I_TABLE _); simpl; auto.
Qed.
Lemma full_crc_ok bs : bytes bs -> full_crc bs = Ok (crc32_spec bs).
Proof.
  intros Hb. by rewrite full_crc_partial, partial_crc_bytes.
Qed.

Lemma crc_bytes_cons c b bs : crc_bytes c (b :: bs) = crc_bytes (crc_byte c b) bs.
Proof. done. Qed.
Lemma le_num_shift b bs : is_byte b -> le_num (b :: bs) = Z.lxor b (Z.shiftl (le_num bs) 8).
Proof. intros Hb. rewrite lxor_shiftl_add by (done || lia). done. Qed.
(** Up to four bytes enter the state like one little-endian number. *)
Lemma crc_bytes_block c m : u32 c -> bytes m -> (length m <= 4)%nat ->
  crc_bytes c m = crc_bits (8 * length m) (Z.lxor c (le_num m)).
Proof.
  revert c. induction m as [|b m IH]; intros c Hc Hm Hl.
  { simpl. by rewrite Z.lxor_0_r. }
  apply Forall_cons_1 in Hm as [Hb Hm]. simpl in Hl.
  rewrite crc_bytes_cons, le_num_shift by done. cbn [length].
  rewrite IH by (auto using crc_byte_range; lia).
  replace (8 * S (length m))%nat with (8 + 8 * length m)%nat by lia.
  rewrite crc_bits_add, <- Z.lxor_assoc, (crc_bits_split 8). done.
Qed.
Lemma lxor_cancel_l c a b : Z.lxor c a = Z.lxor c b -> a = b.
Proof.
  intros H. rewrite <- (Z.lxor_0_l a), <- (Z.lxor_0_l b), <- (Z.lxor_nilpotent c), !Z.lxor_assoc, H.
  done.
Qed.
Lemma crc_byte_def c b : crc_byte c b = crc_bits 8 (Z.lxor c b).
Proof. reflexivity. Qed.
Lemma crc_byte_inj a b x : u32 a -> u32 b -> is_byte x -> crc_byte a x = crc_byte b x -> a = b.
Proof.
  rewrite !crc_byte_def. intros Ha Hb Hx H. apply (lxor_cancel_l x). rewrite !(Z.lxor_comm x).
  unfold is_byte in Hx. apply (crc_bits_inj 8); [apply lxor_range; unfold u32 in *; lia..|exact H].
Qed.
Lemma crc_bytes_inj a b bs : u32 a -> u32 b -> bytes bs ->
  crc_bytes a bs = crc_bytes b bs -> a = b.
Proof.
  intros Ha Hb Hbs. revert a b Ha Hb. induction Hbs as [|x bs Hx Hbs IH]; intros a b Ha Hb H; [done|].
  rewrite !crc_bytes_cons in H. apply IH in H; auto using crc_byte_range.
  by apply (crc_byte_inj a b x).
Qed.
Lemma le_num_inj a b : bytes a -> bytes b -> length a = length b -> le_num a = le_num b -> a = b.
Proof.
  intros Ha Hb Hl H. rewrite <- (le_bytes_num a), <- (le_bytes_num b) by done. by rewrite Hl, H.
Qed.
Lemma crc32_spec_app p m s : crc32_spec (p ++ m ++ s) =
  Z.lxor (crc_bytes (crc_bytes (crc_bytes 0xFFFFFFFF p) m) s) 0xFFFFFFFF.
Proof. unfold crc32_spec, crc_bytes. by rewrite !foldl_app. Qed.
Lemma le_num_u32 m : bytes m -> (length m <= 4)%nat -> u32 (le_num m).
Proof.
  intros Hm Hl. pose proof (le_num_range m Hm).
  assert (256 ^ Z.of_nat (length m) <= 256 ^ 4) by (apply Z.pow_le_mono_r; lia).
  unfold u32. lia.
Qed.
Lemma burst_differs p m m' s : bytes (p ++ m ++ s) -> bytes m' ->
  length m = length m' -> (length m <= 4)%nat -> m <> m' ->
  crc32_spec (p ++ m ++ s) <> crc32_spec (p ++ m' ++ s).
Proof.
  intros Hb Hm' Hl H4 Hne Heq. apply Hne.
  apply Forall_app in Hb as [Hp Hb]. apply Forall_app in Hb as [Hm Hs].
  rewrite !crc32_spec_app, !(Z.lxor_comm _ 0xFFFFFFFF) in Heq. apply lxor_cancel_l in Heq.
  assert (u32 (crc_bytes 0xFFFFFFFF p)) as Hc by (by apply crc_bytes_range).
  apply crc_bytes_inj in Heq; auto using crc_bytes_range.
  rewrite (crc_bytes_block _ m), (crc_bytes_block _ m'), Hl in Heq by (done || lia).
  apply crc_bits_inj in Heq;
    [|apply lxor_range; [lia|done|apply le_num_u32; [done|lia]]..].
  apply lxor_cancel_l in Heq. by apply le_num_inj.
Qed.

(** C37: the table-driven [full_crc] is total and computes the bitwise CRC-32
    of the data (reflected polynomial 0xEDB88320, initial value and final xor
    0xFFFFFFFF), and [is_verified_crc32] accepts exactly that value. *)
Theorem full_crc_is_crc32 bs c : bytes bs ->
  full_crc bs = Ok (crc32_spec bs) /\
  is_verified_crc32 bs c = Ok (c =? crc32_spec bs).
Proof. intros Hb. unfold is_verified_crc32. by rewrite full_crc_ok. Qed.

Lemma full_crc_is_crc32_witness :
  full_crc (str "123456789") = Ok 0xCBF43926 /\
  is_verified_crc32 (str "123456789") 0xCBF43926 = Ok true.
Proof.
  destruct (full_crc_is_crc32 (str "123456789") 0xCBF43926) as [-> ->].
  - repeat constructor; done.
  - split; by vm_compute.
Defined.

(** A stored checksum exposes every corruption confined to four
    consecutive bytes of the data: if [c] is the CRC of the data and at most
    four adjacent bytes are replaced by others, verification fails. *)
Theorem crc_detects_burst p m m' s c : bytes (p ++ m ++ s) -> bytes m' ->
  length m = length m' -> (length m <= 4)%nat -> m <> m' ->
  full_crc (p ++ m ++ s) = Ok c -> is_verified_crc32 (p ++ m' ++ s) c = Ok false.
Proof.
  intros Hb Hm' Hl H4 Hne. rewrite full_crc_ok by done. intros [= <-].
  assert (bytes (p ++ m' ++ s)).
  { apply Forall_app in Hb as [? [? ?]%Forall_app]. by repeat apply Forall_app_2. }
  unfold is_verified_crc32. rewrite full_crc_ok by done. simpl.
  unfold mret, res_ret. f_equal. apply Z.eqb_neq. by apply burst_differs.
Qed.

Lemma crc_detects_burst_witness :
  is_verified_crc32 (str "12" ++ [0; 255] ++ str "56789") 0xCBF43926 = Ok false.
Proof.
  apply (crc_detects_burst (str "12") (str "34") [0; 255] (str "56789") 0xCBF43926);
    [repeat constructor; done..| |done|by vm_compute].
  simpl. lia.
Defined.

End Crc32.

(** ** guid.rs *)
Module Guid.

Record t := mk {
  whole : Z;
  data1 : Z;
  data2 : Z;
  data3 : Z;
  data4 : list Z;
}.

(** [u8] to hex digit and back *)
Definition hexdigit (d : Z) : Z := if d <? 10 then 48 + d else 87 + d.
Definition to_digit16 (c : Z) : option Z :=
  if (48 <=? c) && (c <=? 57) then Some (c - 48)
  else if (97 <=? c) && (c <=? 102) then Some (c - 87)
  else if (65 <=? c) && (c <=? 70) then Some (c - 55)
  else None.

(** [uW::from_str_radix(s, 16)]: an optional [+], then at least one digit,
    and a value that fits. *)
Fixpoint radix_loop (w : Z) (acc : Z) (s : list Z) : option Z :=
  match s with
  | [] => Some acc
  | c :: s =>
      d ← to_digit16 c;
      let acc := acc * 16 + d in
      if acc <? 2 ^ w then radix_loop w acc s else None
  end.
Definition from_str_radix16 (w : Z) (s : list Z) : option Z :=
  match s with
  | [] => None
  | [43] | [45] => None
  | 43 :: s => radix_loop w 0 s
  | s => radix_loop w 0 s
  end.

(** [s.splitn(n, '-')] for [n >= 1] *)
Fixpoint splitn (n : nat) (cur : list Z) (s : list Z) : list (list Z) :=
  match s with
  | [] => [cur]
  | c :: s =>
      if (c =? 45) && (1 <? Z.of_nat n) then cur :: splitn (pred n) [] s
      else splitn n (cur ++ [c]) s
  end.

Definition from_str (val : list Z) : option t :=
  let parts := splitn 5 [] val in
  data1 ← parts !! 0%nat ≫= from_str_radix16 32;
  data2 ← parts !! 1%nat ≫= from_str_radix16 16;
  data3 ← parts !! 2%nat ≫= from_str_radix16 16;
  data4_first ← parts !! 3%nat ≫= from_str_radix16 64;
  data4_second ← parts !! 4%nat ≫= from_str_radix16 64;
  let data4 := be_bytes 8 (Z.lor (wrap 64 (Z.shiftl data4_first 48)) data4_second) in
  let whole := le_num (le_bytes 4 data1 ++ le_bytes 2 data2 ++ le_bytes 2 data3 ++ data4) in
  Some (mk whole data1 data2 data3 data4).

Definition from_bytes (val : list Z) : res never t :=
  d1 ← slice val 0 4; d2 ← slice val 4 6; d3 ← slice val 6 8; d4 ← slice val 8 16;
  mret (mk (le_num val) (le_num d1) (le_num d2) (le_num d3) d4).

(** [{:0wx}] *)
Fixpoint hex_rev (fuel : nat) (z : Z) : list Z :=
  match fuel with
  | O => []
  | S fuel => if z <? 16 then [hexdigit z] else hexdigit (z mod 16) :: hex_rev fuel (z / 16)
  end.
Definition fmt_hex (w : nat) (z : Z) : list Z :=
  let ds := rev (hex_rev 32 z) in replicate (w - length ds) 48 ++ ds.

Definition to_string (g : t) : res never (list Z) :=
  d ← index (data4 g) 0; e ← index (data4 g) 1;
  f ← slice (data4 g) 2 8;
  mret (fmt_hex 8 (data1 g) ++ [45] ++ fmt_hex 4 (data2 g) ++ [45] ++ fmt_hex 4 (data3 g) ++ [45]
    ++ fmt_hex 2 d ++ fmt_hex 2 e ++ [45] ++ concat (fmt_hex 2 <$> f)).

Definition cmp (a b : t) : comparison := Z.compare (whole a) (whole b).

(** A value of the type as the two constructors build it: the fields in their
    ranges and [whole] the little-endian value of the sixteen bytes. *)
Record wf (g : t) : Prop := {
  wf1 : 0 <= data1 g < 2 ^ 32;
  wf2 : 0 <= data2 g < 2 ^ 16;
  wf3 : 0 <= data3 g < 2 ^ 16;
  wf4 : bytes (data4 g) /\ length (data4 g) = 8%nat;
  wf_whole : whole g =
    le_num (le_bytes 4 (data1 g) ++ le_bytes 2 (data2 g) ++ le_bytes 2 (data3 g) ++ data4 g);
}.

(** *** Printing and parsing hexadecimal *)
Definition hexchar (c : Z) : Prop := 48 <= c <= 57 \/ 97 <= c <= 102.
Fixpoint hex_val (acc : Z) (s : list Z) : option Z :=
  match s with [] => Some acc | c :: s => d ← to_digit16 c; hex_val (acc * 16 + d) s end.

Lemma hexdigit_char d : 0 <= d < 16 -> hexchar (hexdigit d).
Proof. intros. unfold hexchar, hexdigit. destruct (d <? 10) eqn:E; boom; lia. Qed.
Lemma to_digit_hexdigit d : 0 <= d < 16 -> to_digit16 (hexdigit d) = Some d.
Proof.
  intros. unfold hexdigit, to_digit16. destruct (d <? 10) eqn:E; boom; bcase; f_equal; lia.
Qed.
Lemma hex_val_app acc a b : hex_val acc (a ++ b) = v ← hex_val acc a; hex_val v b.
Proof.
  revert acc. induction a as [|c a IH]; intros acc; simpl; [done|].
  destruct (to_digit16 c); simpl; auto.
Qed.
Lemma hex_val_zeros k acc : hex_val acc (replicate k 48) = Some (acc * 16 ^ Z.of_nat k).
Proof.
  revert acc. induction k as [|k IH]; intros acc; [simpl; f_equal; lia|].
  rewrite pow_S. cbn. rewrite IH. f_equal. lia.
Qed.

Lemma hex_rev_spec fuel z : 0 <= z < 16 ^ Z.of_nat fuel ->
  Forall hexchar (hex_rev fuel z) /\
  (forall n, (1 <= n)%nat -> z < 16 ^ Z.of_nat n -> (length (hex_rev fuel z) <= n)%nat) /\
  ((1 <= fuel)%nat -> hex_rev fuel z <> []) /\
  forall acc, hex_val acc (rev (hex_rev fuel z)) =
    Some (acc * 16 ^ Z.of_nat (length (hex_rev fuel z)) + z).
Proof.
  revert z. induction fuel as [|fuel IH]; intros z Hz.
  { simpl in *. split_and!; [constructor|lia..|]. intros acc. f_equal. lia. }
  simpl hex_rev. destruct (z <? 16) eqn:Hc; boom.
  - split_and!; [|simpl; lia|done|].
    + apply Forall_singleton, hexdigit_char. lia.
    + intros acc. simpl. by rewrite to_digit_hexdigit by lia.
  - rewrite pow_S in Hz.
    destruct (IH (z / 16)) as (I1 & I2 & I3 & I4); [split; [apply Z.div_pos; lia|apply Z.div_lt_upper_bound; lia]|].
    pose proof (Z.mod_pos_bound z 16). split_and!; [| |done|].
    + constructor; [apply hexdigit_char; lia|done].
    + intros n Hn Hzn. destruct n as [|n]; [lia|]. simpl.
      destruct n as [|n]; [simpl in Hzn; lia|]. apply le_n_S, I2; [lia|].
      apply Z.div_lt_upper_bound; [lia|].
      rewrite pow_S in Hzn. lia.
    + intros acc. cbn [length]. rewrite pow_S. cbn. rewrite hex_val_app, I4. cbn.
      rewrite to_digit_hexdigit by lia. cbn. f_equal. pose proof (Z.div_mod z 16). lia.
Qed.

Lemma fmt_hex_spec w z : (1 <= w <= 32)%nat -> 0 <= z < 16 ^ Z.of_nat w ->
  length (fmt_hex w z) = w /\ Forall hexchar (fmt_hex w z) /\
  forall acc, hex_val acc (fmt_hex w z) = Some (acc * 16 ^ Z.of_nat w + z).
Proof.
  intros Hw Hz. destruct (hex_rev_spec 32 z) as (I1 & I2 & I3 & I4).
  { assert (16 ^ Z.of_nat w <= 16 ^ Z.of_nat 32) by (apply Z.pow_le_mono_r; lia). lia. }
  pose proof (I2 w ltac:(lia) ltac:(lia)) as Hl. unfold fmt_hex. rewrite length_rev.
  set (ds := hex_rev 32 z) in *. split_and!.
  - rewrite length_app, length_replicate, length_rev. lia.
  - apply Forall_app. split; [|by apply Forall_rev].
    apply Forall_replicate. unfold hexchar. lia.
  - intros acc. rewrite hex_val_app, hex_val_zeros. simpl. rewrite I4. f_equal.
    rewrite <- Z.mul_assoc, <- Z.pow_add_r by lia. do 3 f_equal. lia.
Qed.

Lemma hex_val_nonneg s acc v : 0 <= acc -> hex_val acc s = Some v -> acc <= v.
Proof.
  revert acc. induction s as [|c s IH]; intros acc Ha; simpl; [intros [= ->]; lia|].
  unfold to_digit16. repeat case_match; simpl; try done; intros Hv; boom; apply IH in Hv; lia.
Qed.
Lemma radix_loop_ok w acc s v : 0 <= acc -> hex_val acc s = Some v -> v < 2 ^ w ->
  radix_loop w acc s = Some v.
Proof.
  revert acc. induction s as [|c s IH]; intros acc Ha; simpl; [done|].
  destruct (to_digit16 c) as [d|] eqn:Hd; simpl; [|done]. intros Hv Hw.
  assert (0 <= d) by (unfold to_digit16 in Hd; repeat case_match; simplify_eq; boom; lia).
  pose proof (hex_val_nonneg s (acc * 16 + d) v ltac:(lia) Hv).
  btrue (acc * 16 + d <? 2 ^ w). apply IH; [lia|done..].
Qed.
Lemma from_str_radix16_ok w s v : s <> [] -> Forall hexchar s -> hex_val 0 s = Some v -> v < 2 ^ w ->
  from_str_radix16 w s = Some v.
Proof.
  intros Hn Hc Hv Hw. destruct s as [|c s]; [done|].
  apply Forall_cons_1 in Hc as [Hc _].
  assert (from_str_radix16 w (c :: s) = radix_loop w 0 (c :: s)) as ->.
  { unfold hexchar in Hc. assert (c <> 43 /\ c <> 45) as [? ?] by lia.
    unfold from_str_radix16. repeat case_match; done. }
  by apply radix_loop_ok.
Qed.

Lemma splitn_part n cur a s : Forall hexchar a ->
  splitn (S (S n)) cur (a ++ 45 :: s) = (cur ++ a) :: splitn (S n) [] s.
Proof.
  intros Ha. revert cur. induction Ha as [|c a Hc Ha IH]; intros cur; simpl app.
  { cbn [splitn]. btrue ((45 =? 45) && (1 <? Z.of_nat (S (S n)))). by rewrite app_nil_r. }
  cbn [splitn]. unfold hexchar in Hc. bfalse (c =? 45). cbn [andb].
  rewrite IH. by rewrite <- app_assoc.
Qed.
Lemma splitn_last n cur a : Forall hexchar a -> splitn n cur a = [cur ++ a].
Proof.
  intros Ha. revert cur. induction Ha as [|c a Hc Ha IH]; intros cur; simpl.
  { by rewrite app_nil_r. }
  unfold hexchar in Hc. bfalse (c =? 45). simpl. rewrite IH. by rewrite <- app_assoc.
Qed.
Lemma be_num_cons b bs : be_num (b :: bs) = b * 256 ^ Z.of_nat (length bs) + be_num bs.
Proof. unfold be_num. simpl. rewrite le_num_app, length_rev. simpl. lia. Qed.
Lemma hex_bytes_spec bs : bytes bs -> Forall hexchar (concat (fmt_hex 2 <$> bs)) /\
  forall acc, hex_val acc (concat (fmt_hex 2 <$> bs)) =
    Some (acc * 256 ^ Z.of_nat (length bs) + be_num bs).
Proof.
  induction 1 as [|b bs Hb Hbs [IH1 IH2]]; csimpl.
  { split; [constructor|]. intros. f_equal. unfold be_num. simpl. lia. }
  destruct (fmt_hex_spec 2 b) as (_ & F2 & F3); [lia|unfold is_byte in Hb; simpl; lia|].
  split; [by apply Forall_app|]. intros acc. rewrite hex_val_app, F3. simpl mbind. rewrite IH2.
  f_equal. rewrite be_num_cons. cbn [length]. rewrite (pow_S 256). change (16 ^ Z.of_nat 2) with 256. lia.
Qed.

Lemma from_bytes_ok val : length val = 16%nat -> from_bytes val =
  Ok (mk (le_num val) (le_num (take 4 val)) (le_num (take 2 (drop 4 val)))
    (le_num (take 2 (drop 6 val))) (drop 8 val)).
Proof.
  intros Hl. do 17 (destruct val as [|? val]; try discriminate Hl). done.
Qed.
Lemma le_bytes_num' l n : n = length l -> bytes l -> le_bytes n (le_num l) = l.
Proof. intros ->. apply le_bytes_num. Qed.
Lemma from_bytes_wf val g : bytes val -> length val = 16%nat -> from_bytes val = Ok g -> wf g.
Proof.
  intros Hb Hl. rewrite from_bytes_ok by done. intros [= <-].
  do 17 (destruct val as [|? val]; try discriminate Hl).
  repeat match goal with H : Forall _ (_ :: _) |- _ => apply Forall_cons_1 in H as [? H] end.
  assert (forall l n, bytes l -> length l = n -> 0 <= le_num l < 256 ^ Z.of_nat n) as R
    by (intros l n ? <-; by apply le_num_range).
  split.
  - apply (R _ 4%nat); [solve_bytes|done].
  - apply (R _ 2%nat); [solve_bytes|done].
  - apply (R _ 2%nat); [solve_bytes|done].
  - split; [solve_bytes|done].
  - cbn [whole data1 data2 data3 data4 take drop].
    rewrite (le_bytes_num' [z; z0; z1; z2]), (le_bytes_num' [z3; z4]), (le_bytes_num' [z5; z6])
      by (done || solve_bytes). done.
Qed.

Lemma be_num_pair (a b : list Z) : bytes a -> bytes b -> length a = 2%nat -> length b = 6%nat ->
  Z.lor (wrap 64 (Z.shiftl (be_num a) 48)) (be_num b) = be_num (a ++ b).
Proof.
  intros Ha Hb La Lb.
  pose proof (be_num_range a Ha) as Ra. rewrite La in Ra.
  pose proof (be_num_range b Hb) as Rb. rewrite Lb in Rb.
  rewrite wrap_small.
  - rewrite Z.lor_comm, lor_shiftl_add by lia. unfold be_num.
    rewrite rev_app_distr, le_num_app, length_rev, Lb. done.
  - rewrite Z.shiftl_mul_pow2 by lia. change (256 ^ Z.of_nat 2) with (2 ^ 16) in Ra.
    change (2 ^ 64) with (2 ^ 16 * 2 ^ 48). lia.
Qed.

Lemma hex_bytes_len bs : bytes bs -> length (concat (fmt_hex 2 <$> bs)) = (2 * length bs)%nat.
Proof.
  induction 1 as [|x l Hx Hl IH]; csimpl; [done|].
  rewrite length_app, IH. destruct (fmt_hex_spec 2 x) as [-> _]; [lia|done|lia].
Qed.
Lemma radix_fmt w n d : (1 <= n <= 32)%nat -> 0 <= d < 16 ^ Z.of_nat n -> 16 ^ Z.of_nat n <= 2 ^ w ->
  from_str_radix16 w (fmt_hex n d) = Some d.
Proof.
  intros Hn Hd Hw. destruct (fmt_hex_spec n d Hn Hd) as (L & C & V).
  apply from_str_radix16_ok; [|done|by rewrite V|lia]. intros E. rewrite E in L. simpl in L. lia.
Qed.
Lemma radix_bytes w bs : bs <> [] -> bytes bs -> 256 ^ Z.of_nat (length bs) <= 2 ^ w ->
  from_str_radix16 w (concat (fmt_hex 2 <$> bs)) = Some (be_num bs).
Proof.
  intros Hn Hb Hw. destruct (hex_bytes_spec bs Hb) as (C & V). pose proof (be_num_range bs Hb).
  apply from_str_radix16_ok; [|done|by rewrite V|lia].
  intros E. pose proof (hex_bytes_len bs Hb) as L. rewrite E in L. destruct bs; simpl in *; [done|lia].
Qed.
Lemma be_bytes_num l n : n = length l -> bytes l -> be_bytes n (be_num l) = l.
Proof.
  intros Hn Hb. unfold be_bytes, be_num.
  rewrite le_bytes_num'; [apply rev_involutive|by rewrite length_rev|by apply Forall_rev].
Qed.

(** The text of a GUID: five groups of 8, 4, 4, 4 and 12 digits. *)
Definition text (d1 d2 d3 : Z) (hi lo : list Z) : list Z :=
  fmt_hex 8 d1 ++ 45 :: fmt_hex 4 d2 ++ 45 :: fmt_hex 4 d3 ++ 45 ::
  concat (fmt_hex 2 <$> hi) ++ 45 :: concat (fmt_hex 2 <$> lo).

Section text.
Context (d1 d2 d3 : Z) (hi lo : list Z).
Context (H1 : 0 <= d1 < 2 ^ 32) (H2 : 0 <= d2 < 2 ^ 16) (H3 : 0 <= d3 < 2 ^ 16).
Context (Hhi : bytes hi) (Lhi : length hi = 2%nat) (Hlo : bytes lo) (Llo : length lo = 6%nat).

Lemma text_length : length (text d1 d2 d3 hi lo) = 36%nat.
Proof using H1 H2 H3 Hhi Hlo Lhi Llo.
  unfold text. repeat (rewrite length_app; cbn [length]). rewrite !hex_bytes_len, Lhi, Llo by done.
  rewrite (proj1 (fmt_hex_spec 8 d1 ltac:(lia) H1)), (proj1 (fmt_hex_spec 4 d2 ltac:(lia) H2)).
  by rewrite (proj1 (fmt_hex_spec 4 d3 ltac:(lia) H3)).
Qed.
Lemma text_parse : from_str (text d1 d2 d3 hi lo) =
  Some (mk (le_num (le_bytes 4 d1 ++ le_bytes 2 d2 ++ le_bytes 2 d3 ++ hi ++ lo)) d1 d2 d3 (hi ++ lo)).
Proof using H1 H2 H3 Hhi Hlo Lhi Llo.
  unfold from_str, text. destruct (hex_bytes_spec hi Hhi), (hex_bytes_spec lo Hlo).
  rewrite !splitn_part, splitn_last by (done || by apply fmt_hex_spec; [lia|]).
  cbn [app lookup list_lookup mbind option_bind].
  rewrite !radix_fmt by (done || lia). cbn [mbind option_bind].
  assert (hi <> [] /\ lo <> []) as [? ?] by (destruct hi, lo; done).
  rewrite !radix_bytes by (rewrite ?Lhi, ?Llo; done). cbn [mbind option_bind].
  rewrite be_num_pair, be_bytes_num by (rewrite ?length_app, ?Lhi, ?Llo; done || by apply Forall_app_2).
  done.
Qed.
End text.

Lemma from_str_to_string g : wf g -> exists s, to_string g = Ok s /\
  length s = 36%nat /\ from_str s = Some g.
Proof.
  destruct g as [w d1 d2 d3 d4]. intros [H1 H2 H3 [H4 L4] Hw]; cbn [data1 data2 data3 data4 whole] in *.
  do 9 (destruct d4 as [|? d4]; try discriminate L4).
  repeat match goal with H : Forall _ (_ :: _) |- _ => apply Forall_cons_1 in H as [? H] end.
  exists (text d1 d2 d3 [z; z0] [z1; z2; z3; z4; z5; z6]). split_and!.
  - unfold text. change (concat (fmt_hex 2 <$> [z; z0])) with (fmt_hex 2 z ++ fmt_hex 2 z0 ++ []).
    rewrite <- (app_assoc (fmt_hex 2 z)), app_nil_r. reflexivity.
  - apply text_length; solve [done | solve_bytes].
  - rewrite text_parse; [by rewrite Hw|solve [done | solve_bytes]..].
Qed.

(** The sixteen bytes of a GUID on disk, its fields and its text carry the
    same information: [from_bytes] accepts every sixteen bytes, [whole] is
    those bytes, [to_string] is 36 characters and [from_str] reads them back
    to the same value. *)
Theorem guid_text_roundtrip val : bytes val -> length val = 16%nat ->
  exists g s, from_bytes val = Ok g /\ le_bytes 16 (whole g) = val /\
    to_string g = Ok s /\ length s = 36%nat /\ from_str s = Some g.
Proof.
  intros Hb Hl. pose proof (from_bytes_ok val Hl) as Hg.
  destruct (from_str_to_string _ (from_bytes_wf _ _ Hb Hl Hg)) as (s & ? & ? & ?).
  eexists _, s. split_and!; [done| |done..]. by apply le_bytes_num'.
Qed.

Lemma guid_text_roundtrip_witness : exists g,
  from_bytes [0xAF; 0x3D; 0xC6; 0x0F; 0x83; 0x84; 0x72; 0x47;
              0x8E; 0x79; 0x3D; 0x69; 0xD8; 0x47; 0x7D; 0xE4] = Ok g /\
  from_str (str "0fc63daf-8483-4772-8e79-3d69d8477de4") = Some g.
Proof.
  edestruct (guid_text_roundtrip [0xAF; 0x3D; 0xC6; 0x0F; 0x83; 0x84; 0x72; 0x47;
    0x8E; 0x79; 0x3D; 0x69; 0xD8; 0x47; 0x7D; 0xE4]) as (g & s & Hg & _ & Hs & _ & Hr).
  - repeat constructor; done.
  - done.
  - exists g. split; [done|]. rewrite <- Hr. f_equal.
    vm_compute in Hg. injection Hg as <-. vm_compute in Hs. by injection Hs as <-.
Defined.

End Guid.

(** ** iterators.rs *)
Module Iterators.
Section iter.
Context `{Build}.
(** [w] is the width of the element type [T]. *)
Context (w : Z).

Inductive Bit := Zero | One.

Record BitIterator := { num : list Z; idx : Z; bit_idx : Z }.

Definition new (num : list Z) : BitIterator := {| num := num; idx := 0; bit_idx := 0 |}.

Definition next (self : BitIterator) : res never (option Bit * BitIterator) :=
  if zlen (num self) <=? idx self then Ok (None, self) else
  mask ← ushl w 1 (bit_idx self);
  x ← index (num self) (idx self);
  let r := Z.land x mask in
  let bit := if r =? 0 then Zero else One in
  bit_idx' ← uadd 64 (bit_idx self) 1;
  if w <=? bit_idx' then
    idx' ← uadd 64 (idx self) 1;
    mret (Some bit, {| num := num self; idx := idx'; bit_idx := 0 |})
  else mret (Some bit, {| num := num self; idx := idx self; bit_idx := bit_idx' |}).

(** [collect()]: [next] until it returns [None]. *)
Fixpoint collect (fuel : nat) (self : BitIterator) : res never (list Bit) :=
  match fuel with
  | O => Hang
  | S fuel =>
      '(o, self) ← next self;
      match o with
      | None => mret []
      | Some b => rest ← collect fuel self; mret (b :: rest)
      end
  end.

(** The bits of the words, least significant first. *)
Definition bit_of (b : bool) : Bit := if b then One else Zero.
Definition word_bits (x : Z) : list Bit := (fun j => bit_of (Z.testbit x j)) <$> seqZ 0 w.
Definition all_bits (xs : list Z) : list Bit := concat (word_bits <$> xs).

Context (Hw : 0 < w <= 128).

Lemma next_bit pre x post k : 0 <= k < w -> zlen (pre ++ x :: post) < 2 ^ 63 ->
  next {| num := pre ++ x :: post; idx := zlen pre; bit_idx := k |} =
    Ok (Some (bit_of (Z.testbit x k)),
      if w <=? k + 1 then {| num := pre ++ x :: post; idx := zlen pre + 1; bit_idx := 0 |}
      else {| num := pre ++ x :: post; idx := zlen pre; bit_idx := k + 1 |}).
Proof using Hw.
  intros Hk Hl. pose proof (zlen_nonneg pre). pose proof (zlen_nonneg post). zlen.
  unfold next; cbn [num idx bit_idx]. rewrite zlen_app, zlen_cons.
  bfalse (zlen pre + (1 + zlen post) <=? zlen pre).
  unfold ushl. assert (k < 2 ^ w) by (pose proof (Z.pow_gt_lin_r 2 w); lia).
  unfold fits. btrue ((0 <=? k) && (k <? 2 ^ w) && (k <? w)). cbn [mbind res_bind].
  rewrite (index_ok _ _ x) by (done || (unfold zlen; rewrite Nat2Z.id; by apply list_lookup_middle)).
  cbn [mbind res_bind]. rewrite (uadd_ok 64 k), (uadd_ok 64 (zlen pre)) by lia. cbn [mbind res_bind].
  rewrite wrap_small.
  2:{ rewrite Z.shiftl_1_l. split; [lia|]. apply Z.pow_lt_mono_r; lia. }
  assert ((if Z.land x (Z.shiftl 1 k) =? 0 then Zero else One) = bit_of (Z.testbit x k)) as ->.
  { rewrite <- tstbit_spec by lia. unfold tstbit. by destruct (_ =? 0). }
  by destruct (w <=? k + 1).
Qed.

Lemma word_bits_drop x k : 0 <= k < w ->
  drop (Z.to_nat k) (word_bits x) = bit_of (Z.testbit x k) :: drop (Z.to_nat (k + 1)) (word_bits x).
Proof using Hw.
  intros Hk. rewrite (drop_S _ (bit_of (Z.testbit x k)) (Z.to_nat k)).
  - do 2 f_equal. lia.
  - unfold word_bits. rewrite list_lookup_fmap, lookup_seqZ_lt by lia. simpl.
    do 3 f_equal. lia.
Qed.

Lemma collect_word pre x post n k fuel : w - k = Z.of_nat (S n) -> 0 <= k ->
  zlen (pre ++ x :: post) < 2 ^ 63 ->
  collect (S n + fuel) {| num := pre ++ x :: post; idx := zlen pre; bit_idx := k |} =
    (rest ← collect fuel {| num := pre ++ x :: post; idx := zlen pre + 1; bit_idx := 0 |};
     mret (drop (Z.to_nat k) (word_bits x) ++ rest)).
Proof using Hw.
  revert k. induction n as [|n IH]; intros k Hn Hk Hl; rewrite Nat.add_succ_l;
    cbn [collect]; rewrite next_bit, word_bits_drop by (done || lia); cbn [mbind res_bind].
  - btrue (w <=? k + 1). rewrite (drop_ge _ (Z.to_nat (k + 1))); [done|].
    unfold word_bits. rewrite length_fmap, length_seqZ. lia.
  - bfalse (w <=? k + 1). rewrite (IH (k + 1)) by (done || lia).
    destruct (collect fuel _); done.
Qed.

Lemma collect_all post pre fuel : zlen (pre ++ post) < 2 ^ 63 ->
  collect (Z.to_nat w * length post + S fuel) {| num := pre ++ post; idx := zlen pre; bit_idx := 0 |} =
    Ok (all_bits post).
Proof using Hw.
  revert pre. induction post as [|x post IH]; intros pre Hl.
  - cbn [length]. rewrite Nat.mul_0_r, app_nil_r. cbn [Nat.add collect]. unfold next.
    cbn [num idx bit_idx]. by btrue (zlen pre <=? zlen pre).
  - destruct (Z.to_nat w) as [|n] eqn:Hn; [lia|]. cbn [length].
    replace (S n * S (length post) + S fuel)%nat with (S n + (S n * length post + S fuel))%nat by lia.
    rewrite collect_word by (done || lia).
    specialize (IH (pre ++ [x])). assert (zlen (pre ++ [x]) = zlen pre + 1) as E by (zlen; lia).
    rewrite E, <- app_assoc in IH. cbn [app] in IH. by rewrite IH.
Qed.
End iter.

(** The bit iterator over a slice of [w]-bit words ends after exactly
    [w * len] bits and yields every bit of every word once, words in order and
    least significant bit first. *)
Theorem bit_iterator_yields_bits `{Build} w xs fuel : 0 < w <= 128 -> zlen xs < 2 ^ 63 ->
  (Z.to_nat w * length xs < fuel)%nat -> collect w fuel (new xs) = Ok (all_bits w xs).
Proof.
  intros Hw Hl Hf. replace fuel with (Z.to_nat w * length xs + S (fuel - Z.to_nat w * length xs - 1))%nat
    by lia. by apply (collect_all w Hw xs []).
Qed.

Lemma bit_iterator_yields_bits_witness : @collect dev_build 8 17 (new [0x05; 0x80]) =
  Ok [One; Zero; One; Zero; Zero; Zero; Zero; Zero; Zero; Zero; Zero; Zero; Zero; Zero; Zero; One].
Proof. apply (@bit_iterator_yields_bits dev_build 8 [0x05; 0x80] 17); [lia|done|vm_compute; lia]. Defined.

End Iterators.

(** ** random.rs *)
Module Random.
Section random.
Context `{Build}.

Definition W : Z := 32.
Definition N : Z := 624.
Definition M : Z := 32.
Definition A : Z := 0x9908B0DF.
Definition U : Z := 11.
Definition S : Z := 7.
Definition B : Z := 0x9D2C5680.
Definition T : Z := 15.
Definition C : Z := 0xEFC60000.
Definition L : Z := 18.
Definition F : Z := 1812433253.

Record RandState := { state_array : list Z; rand_index : Z }.

(** [init] from the seed read from the clock *)
Definition init (seed : Z) : res never RandState :=
  '(arr, _) ← rfor (seqZ 0 N) (replicate (Z.to_nat N) 0, seed) (fun i st =>
    let '(arr, seed) := st in
    arr ← update arr i seed;
    m ← umul 32 F (Z.lxor seed (Z.shiftr seed (W - 2)));
    seed ← uadd 32 m i;
    mret (arr, seed));
  mret {| state_array := arr; rand_index := 0 |}.

Definition random_u32 (state : RandState) : res never (Z * RandState) :=
  let k := rand_index state in
  let k := if k <? 0 then k + N else k in
  let j := k - (N - 1) in
  let j := if j <? 0 then j + N else j in
  a ← index (state_array state) k;
  b ← index (state_array state) j;
  let x := Z.lor (Z.land a 0xFFFF0000) (Z.land b 0xFFFF) in
  let x_a := Z.shiftr x 1 in
  let x_a := if Z.land x 1 =? 1 then Z.lxor x_a A else x_a in
  let j := k - (N - M) in
  let j := if j <? 0 then j + N else j in
  c ← index (state_array state) j;
  let x := Z.lxor c x_a in
  arr ← update (state_array state) (k + 1) x;
  let k := if N <=? k then 0 else k in
  let y := Z.lxor x (Z.shiftr x U) in
  let y := Z.lxor y (Z.land (wrap 32 (Z.shiftl y S)) B) in
  let y := Z.lxor y (Z.land (wrap 32 (Z.shiftl y T)) C) in
  mret (Z.lxor y (Z.shiftr y L), {| state_array := arr; rand_index := k |}).

(** The generator task: one number per request. *)
Fixpoint draws (n : nat) (state : RandState) : res never (list Z * RandState) :=
  match n with
  | O => mret ([], state)
  | Datatypes.S n =>
      '(x, state) ← random_u32 state;
      '(xs, state) ← draws n state;
      mret (x :: xs, state)
  end.

Lemma random_u32_step s : length (state_array s) = 624%nat -> rand_index s = 0 ->
  exists x v, random_u32 s = Ok (x, {| state_array := <[1%nat := v]> (state_array s); rand_index := 0 |}).
Proof.
  intros Hl Hi. unfold random_u32. rewrite Hi. cbn [Z.ltb Z.compare].
  assert (zlen (state_array s) = 624) as Hz by (unfold zlen; by rewrite Hl).
  destruct (index_total (E:=never) (state_array s) 0) as [a ->]; [lia|].
  destruct (index_total (E:=never) (state_array s) 1) as [b Hb]; [lia|].
  destruct (index_total (E:=never) (state_array s) 32) as [c Hc]; [lia|].
  change (if 0 - (N - 1) <? 0 then 0 - (N - 1) + N else 0 - (N - 1)) with 1.
  change (if 0 - (N - M) <? 0 then 0 - (N - M) + N else 0 - (N - M)) with 32.
  cbn [mbind res_bind]. rewrite Hb. cbn [mbind res_bind]. rewrite Hc. cbn [mbind res_bind].
  rewrite update_ok by lia. cbn [mbind res_bind]. do 2 eexists. reflexivity.
Qed.
End random.

(** The generator never advances: from the state [init] builds, any number
    of draws succeeds, leaves [index] at 0 and changes no word of the state
    but word 1, so 623 of the 624 words of the Mersenne Twister are never
    refreshed. *)
Theorem generator_index_stuck s n : length (state_array s) = 624%nat -> rand_index s = 0 ->
  exists xs s', draws n s = Ok (xs, s') /\ length xs = n /\ rand_index s' = 0 /\
    forall i, i <> 1%nat -> state_array s' !! i = state_array s !! i.
Proof.
  revert s. induction n as [|n IH]; intros s Hl Hi; cbn [draws]; [by eexists _, s|].
  destruct (random_u32_step s Hl Hi) as (x & v & ->). cbn [mbind res_bind].
  destruct (IH {| state_array := <[1%nat := v]> (state_array s); rand_index := 0 |})
    as (xs & s' & -> & Hx & Hk & Hs); [cbn; by rewrite length_insert|done|].
  eexists _, s'. split_and!; [reflexivity|cbn; lia|done|].
  intros i Hne. rewrite Hs by done. cbn. by apply list_lookup_insert_ne.
Qed.

Lemma generator_index_stuck_witness : exists xs s',
  draws 1000 {| state_array := seqZ 0 624; rand_index := 0 |} = Ok (xs, s') /\ rand_index s' = 0.
Proof.
  destruct (generator_index_stuck {| state_array := seqZ 0 624; rand_index := 0 |} 1000)
    as (xs & s' & ? & _ & ? & _); [done|done|]. exists xs, s'. split; assumption.
Defined.

(** In a build with overflow checks the seeding multiplication overflows at
    its first step for every seed but 0, 1 and 2. *)
Lemma init_panics seed : 3 <= seed < 2 ^ 32 -> @init dev_build seed = Panic.
Proof.
  intros Hs. unfold init. change (seqZ 0 N) with (0 :: seqZ 1 623). cbn [rfor].
  rewrite update_ok by (unfold zlen; rewrite length_replicate; done). cbn [mbind res_bind].
  assert (3 <= Z.lxor seed (Z.shiftr seed (W - 2))) as H3.
  { unfold W. rewrite Z.shiftr_div_pow2 by done. change (2 ^ (32 - 2)) with 1073741824.
    destruct (Z.lt_ge_cases seed 1073741824).
    - rewrite Z.div_small by lia. rewrite Z.lxor_0_r. lia.
    - assert (0 <= seed / 1073741824 < 2 ^ 2) by
        (split; [apply Z.div_pos; lia|apply Z.div_lt_upper_bound; lia]).
      rewrite (Z.div_mod seed 4) at 1 by lia. rewrite Z.add_comm.
      pose proof (Z.mod_pos_bound seed 4 ltac:(lia)).
      change (4 * (seed / 4)) with (2 ^ 2 * (seed / 4)).
      rewrite <- lxor_shiftl_add, (Z.lxor_comm (seed mod 4)), Z.lxor_assoc by lia.
      rewrite Z.lxor_comm, lxor_shiftl_add; [|lia|apply lxor_range; lia].
      assert (0 <= Z.lxor (seed mod 4) (seed / 1073741824)) by (apply Z.lxor_nonneg; lia).
      assert (1 <= seed / 4) by (apply Z.div_le_lower_bound; lia). lia. }
  unfold umul. rewrite unum_panic; [done|]. unfold F. lia.
Qed.
End Random.

(** ** uuid.rs *)
Module Uuid.

Record t := { uuid_bytes : list Z }.

(** [uuid_v4] on the four numbers drawn from the generator *)
Definition uuid_v4 (r1 r2 r3 r4 : Z) : res never t :=
  let bytes := replicate 16 0 in
  bytes ← splice bytes 0 (be_bytes 4 r1);
  bytes ← splice bytes 4 (be_bytes 4 r2);
  bytes ← splice bytes 8 (be_bytes 4 r3);
  bytes ← splice bytes 12 (be_bytes 4 r4);
  b6 ← index bytes 6;
  bytes ← update bytes 6 (Z.lor (Z.land b6 0x0f) 0x40);
  b8 ← index bytes 8;
  bytes ← update bytes 8 (Z.lor (Z.land b8 0x3f) 0x80);
  mret {| uuid_bytes := bytes |}.

Definition hex : list Z := str "0123456789abcdef".

(** [UuidString::from_uuid] *)
Definition from_uuid (uuid : t) : res never (list Z) :=
  '(bytes, _) ← rfor (imap pair (uuid_bytes uuid)) (replicate 36 0, 0) (fun ib st =>
    let '(idx, byte) := ib in
    let '(bytes, i) := st in
    h ← index hex (Z.shiftr byte 4);
    bytes ← update bytes i h;
    l ← index hex (Z.land byte 0x0f);
    bytes ← update bytes (i + 1) l;
    let i := i + 2 in
    if ((idx =? 3) || (idx =? 5) || (idx =? 7) || (idx =? 9))%nat then
      bytes ← update bytes i 45;
      mret (bytes, i + 1)
    else mret (bytes, i));
  mret bytes.

(** Two digits per byte *)
Definition byte_hex (b : Z) : list Z := [Guid.hexdigit (b / 16); Guid.hexdigit (b mod 16)].
Definition hex_text (bs : list Z) : list Z := concat (byte_hex <$> bs).

Lemma hex_digit d : 0 <= d < 16 -> index (E:=never) hex d = Ok (Guid.hexdigit d).
Proof.
  intros Hd. assert (hex = Guid.hexdigit <$> seqZ 0 16) as -> by done.
  apply index_ok; [lia|]. rewrite list_lookup_fmap, lookup_seqZ_lt by lia.
  simpl. do 2 f_equal. lia.
Qed.
Lemma hex_hi b : is_byte b -> index (E:=never) hex (Z.shiftr b 4) = Ok (Guid.hexdigit (b / 16)).
Proof.
  intros Hb. unfold is_byte in Hb. rewrite Z.shiftr_div_pow2 by lia. change (2 ^ 4) with 16.
  apply hex_digit. split; [apply Z.div_pos|apply Z.div_lt_upper_bound]; lia.
Qed.
Lemma hex_lo b : is_byte b -> index (E:=never) hex (Z.land b 0x0f) = Ok (Guid.hexdigit (b mod 16)).
Proof.
  intros Hb. change 0x0f with (Z.ones 4). rewrite Z.land_ones by lia.
  apply hex_digit, Z.mod_pos_bound. lia.
Qed.

Lemma from_uuid_text bs : bytes bs -> length bs = 16%nat ->
  from_uuid {| uuid_bytes := bs |} =
    Ok (hex_text (take 4 bs) ++ 45 :: hex_text (take 2 (drop 4 bs)) ++ 45 ::
        hex_text (take 2 (drop 6 bs)) ++ 45 :: hex_text (take 2 (drop 8 bs)) ++ 45 ::
        hex_text (drop 10 bs)).
Proof.
  intros Hb Hl. do 17 (destruct bs as [|? bs]; try discriminate Hl).
  repeat match goal with H : Forall _ (_ :: _) |- _ => apply Forall_cons_1 in H as [? H] end.
  unfold from_uuid. cbn [imap uuid_bytes rfor compose].
  do 16 (rewrite hex_hi, hex_lo by assumption; cbn -[index Guid.hexdigit Z.div Z.modulo Z.shiftr Z.land]).
  reflexivity.
Qed.

Definition version4 (b : Z) : Z := Z.lor (Z.land b 0x0f) 0x40.
Definition variant1 (b : Z) : Z := Z.lor (Z.land b 0x3f) 0x80.
Lemma version_byte b : version4 b = b mod 16 + 64.
Proof.
  unfold version4.
  change 0x0f with (Z.ones 4). rewrite Z.land_ones by lia. change (2 ^ 4) with 16.
  pose proof (Z.mod_pos_bound b 16 ltac:(lia)). apply (lor_shiftl_add 6 _ 1); lia.
Qed.
Lemma variant_byte b : variant1 b = b mod 64 + 128.
Proof.
  unfold variant1.
  change 0x3f with (Z.ones 6). rewrite Z.land_ones by lia. change (2 ^ 6) with 64.
  pose proof (Z.mod_pos_bound b 64 ltac:(lia)). apply (lor_shiftl_add 6 _ 2); lia.
Qed.

Lemma uuid_v4_bytes r1 r2 r3 r4 :
  let rnd := be_bytes 4 r1 ++ be_bytes 4 r2 ++ be_bytes 4 r3 ++ be_bytes 4 r4 in
  uuid_v4 r1 r2 r3 r4 =
    Ok {| uuid_bytes := alter variant1 8%nat (alter version4 6%nat rnd) |}.
Proof.
  unfold uuid_v4.
  pose proof (length_be_bytes 4 r1) as L1. pose proof (length_be_bytes 4 r2) as L2.
  pose proof (length_be_bytes 4 r3) as L3. pose proof (length_be_bytes 4 r4) as L4.
  set (x1 := be_bytes 4 r1) in *. set (x2 := be_bytes 4 r2) in *.
  set (x3 := be_bytes 4 r3) in *. set (x4 := be_bytes 4 r4) in *. clearbody x1 x2 x3 x4.
  do 5 (destruct x1 as [|? x1]; try discriminate L1). do 5 (destruct x2 as [|? x2]; try discriminate L2).
  do 5 (destruct x3 as [|? x3]; try discriminate L3). do 5 (destruct x4 as [|? x4]; try discriminate L4).
  reflexivity.
Qed.
Lemma alter_bytes f i bs : (forall b, is_byte b -> is_byte (f b)) -> bytes bs -> bytes (alter f i bs).
Proof. intros Hf Hb. apply Forall_alter; [done|]. intros x _ Hx. by apply Hf. Qed.

(** [uuid_v4] keeps the 128 random bits except the six that RFC 4122
    fixes (version 4 in the high nibble of byte 6, variant 10 in the top bits
    of byte 8), and the string form is those sixteen bytes as lower-case hex,
    two digits each, with hyphens after bytes 4, 6, 8 and 10. *)
Theorem uuid_v4_text r1 r2 r3 r4 : exists bs,
  uuid_v4 r1 r2 r3 r4 = Ok {| uuid_bytes := bs |} /\ length bs = 16%nat /\
  (forall i b, (be_bytes 4 r1 ++ be_bytes 4 r2 ++ be_bytes 4 r3 ++ be_bytes 4 r4) !! i = Some b ->
    bs !! i = Some (if (i =? 6)%nat then b mod 16 + 64 else
                    if (i =? 8)%nat then b mod 64 + 128 else b)) /\
  from_uuid {| uuid_bytes := bs |} =
    Ok (hex_text (take 4 bs) ++ 45 :: hex_text (take 2 (drop 4 bs)) ++ 45 ::
        hex_text (take 2 (drop 6 bs)) ++ 45 :: hex_text (take 2 (drop 8 bs)) ++ 45 ::
        hex_text (drop 10 bs)).
Proof.
  eexists. split; [apply uuid_v4_bytes|].
  assert (forall l, length (alter variant1 8%nat (alter version4 6%nat l)) = length l) as Hl
    by (intros; by rewrite !length_alter).
  rewrite Hl, !length_app, !length_be_bytes. split_and!; [done| |].
  - intros i b Hb. destruct (Nat.eqb_spec i 6) as [->|]; [|destruct (Nat.eqb_spec i 8) as [->|]].
    + rewrite list_lookup_alter_ne, list_lookup_alter, Hb by done. cbn. by rewrite version_byte.
    + rewrite list_lookup_alter, list_lookup_alter_ne, Hb by done. cbn. by rewrite variant_byte.
    + by rewrite !list_lookup_alter_ne by done.
  - apply from_uuid_text; [|by rewrite Hl, !length_app, !length_be_bytes].
    apply alter_bytes; [intros b _; rewrite variant_byte|apply alter_bytes; [intros b _; rewrite version_byte|]].
    + pose proof (Z.mod_pos_bound b 64 ltac:(lia)). unfold is_byte. lia.
    + pose proof (Z.mod_pos_bound b 16 ltac:(lia)). unfold is_byte. lia.
    + do 3 (apply Forall_app_2; [apply be_bytes_bytes|]). apply be_bytes_bytes.
Qed.
End Uuid.

(** ** mod.rs *)
Module CryptoMod.
Section crypto.
Context `{Build}.

Definition binary_test (target bit : Z) : res never bool :=
  m ← ushl 64 1 bit;
  m' ← ushl 64 1 bit;
  mret (Z.land target m =? m').

Definition lba_to_chs (sectors_per_track lba : Z) : res never (Z * Z * Z) :=
  cylinder ← udiv lba (sectors_per_track * 2);
  r ← urem lba (sectors_per_track * 2);
  head ← udiv r sectors_per_track;
  s ← urem lba sectors_per_track;
  mret (cylinder, head, s + 1).

Lemma binary_test_ok target bit : 0 <= target -> 0 <= bit < 64 ->
  binary_test target bit = Ok (Z.testbit target bit).
Proof.
  intros Ht Hb. unfold binary_test, ushl, fits.
  btrue ((0 <=? bit) && (bit <? 2 ^ 64) && (bit <? 64)). cbn [mbind res_bind].
  rewrite wrap_small by (rewrite Z.shiftl_1_l; split; [lia|apply Z.pow_lt_mono_r; lia]).
  rewrite <- tstbit_spec by lia. unfold tstbit, mret, res_ret. f_equal.
  assert (Z.land target (Z.shiftl 1 bit) = if Z.testbit target bit then Z.shiftl 1 bit else 0) as ->.
  { apply Z.bits_inj_iff. intros j. rewrite Z.land_spec, shiftl1_testbit by lia.
    destruct (Z.eqb_spec bit j) as [<-|].
    - destruct (Z.testbit target bit); [|by rewrite Z.bits_0].
      by rewrite shiftl1_testbit, Z.eqb_refl by lia.
    - rewrite andb_false_r. destruct (Z.testbit target bit); [|by rewrite Z.bits_0].
      rewrite shiftl1_testbit by lia. lia. }
  rewrite Z.shiftl_1_l. pose proof (Z.pow_pos_nonneg 2 bit). destruct (Z.testbit target bit); lia.
Qed.
End crypto.

(** [lba_to_chs] is the decomposition of a block address into cylinder,
    head and sector for two heads: the parts recompose to the address and are
    in range (sectors count from 1); it panics exactly when a track has no
    sectors. *)
Theorem lba_to_chs_decomposes spt lba : 0 <= spt -> 0 <= lba ->
  (spt = 0 /\ lba_to_chs spt lba = Panic) \/
  exists c h s, lba_to_chs spt lba = Ok (c, h, s) /\
    lba = (c * 2 + h) * spt + (s - 1) /\ 0 <= h < 2 /\ 1 <= s <= spt.
Proof.
  intros Hs Hl. unfold lba_to_chs. destruct (Z.eq_dec spt 0) as [->|Hne]; [by left|right].
  rewrite (udiv_ok lba), (urem_ok lba (spt * 2)), (urem_ok lba spt) by lia. cbn [mbind res_bind].
  rewrite udiv_ok by lia. do 3 eexists. split; [reflexivity|].
  pose proof (Z.mod_pos_bound lba (spt * 2) ltac:(lia)). pose proof (Z.mod_pos_bound lba spt ltac:(lia)).
  assert (lba mod spt = (lba mod (spt * 2)) mod spt) as E.
  { rewrite (Z.div_mod lba (spt * 2)) at 1 by lia.
    replace (spt * 2 * (lba / (spt * 2)) + lba mod (spt * 2))
      with (lba mod (spt * 2) + (2 * (lba / (spt * 2))) * spt) by lia. by apply Z.mod_add. }
  pose proof (Z.div_mod lba (spt * 2) ltac:(lia)). pose proof (Z.div_mod (lba mod (spt * 2)) spt ltac:(lia)).
  split_and!; [nia|apply Z.div_pos; lia|apply Z.div_lt_upper_bound; lia|lia..].
Qed.

Lemma lba_to_chs_decomposes_witness : lba_to_chs 63 1000 = Ok (7, 1, 56).
Proof.
  destruct (lba_to_chs_decomposes 63 1000) as [[? _]|(c & h & s & H & _)]; [lia|lia|done|].
  rewrite H. vm_compute in H. symmetry. exact H.
Defined.
End CryptoMod.
