(* ===== verification/RtcTime.v ===== *)
(** * The real-time clock and calendar arithmetic

    src/kernel/src/time/mod.rs and formats.rs: reading the CMOS clock,
    conversion between date and Unix timestamp, and the POSIX timestamp that
    ext2 stores in inodes.

    The clock chip is outside the repository: it is the parameter [rtc], the
    byte its data port returns on the [n]-th read when a register is selected.

    The dates in play are [u16] years, so the [i64] and [i32] intermediate
    results stay far from their bounds and are written as plain integers;
    casts to a narrower type, and the [u16] and [u32] operations that can
    overflow, keep their width.

    Shown here: the two conversions are inverse to each other on every date
    from 1970-01-01 to 65535-12-31 and agree with the proleptic Gregorian
    calendar, the weekday is right, [rtc_to_posix] is 59 days early, and a
    24-hour clock is read correctly in both number formats. *)

From S2P Require Import Prelude.

Record RtcDateTime := {
  second : Z; minute : Z; hour : Z; day : Z; month : Z; year : Z; weekday : Z;
}.

#[global] Instance RtcDateTime_eq_dec : EqDecision RtcDateTime.
Proof. solve_decision. Defined.

Definition RTC_SECONDS : Z := 0x00.
Definition RTC_MINUTES : Z := 0x02.
Definition RTC_HOURS : Z := 0x04.
Definition RTC_WEEKDAY : Z := 0x06.
Definition RTC_DAY : Z := 0x07.
Definition RTC_MONTH : Z := 0x08.
Definition RTC_YEAR : Z := 0x09.
Definition RTC_CENTURY : Z := 0x32.
Definition RTC_STATUS_A : Z := 0x0A.
Definition RTC_STATUS_B : Z := 0x0B.
Definition RTC_24_HOUR : Z := 0x02.
Definition RTC_BINARY : Z := 0x04.
Definition RTC_UIP : Z := 0x80.

(** ** Calendar *)
Definition is_leap_year (year : Z) : bool :=
  ((year mod 4 =? 0) && negb (year mod 100 =? 0)) || (year mod 400 =? 0).

Definition DAYS_IN_MONTH : list Z := [31; 28; 31; 30; 31; 30; 31; 31; 30; 31; 30; 31].

Definition datetime_to_unix_timestamp (dt : RtcDateTime) : res never Z :=
  let days := foldl (fun days y => days + if is_leap_year (wrap 16 y) then 366 else 365)
    0 (seqZ 1970 (year dt - 1970)) in
  days ← rfor (seqZ 1 (month dt - 1)) days (fun m days =>
    d ← index DAYS_IN_MONTH (m - 1);
    let days := days + d in
    mret (if (m =? 2) && is_leap_year (year dt) then days + 1 else days));
  let days := days + (day dt - 1) in
  mret (days * 86400 + hour dt * 3600 + minute dt * 60 + second dt).

Definition calculate_weekday (year month day : Z) : Z :=
  let y := year in
  let m := month in
  let '(m, y) := if m <? 3 then (m + 12, y - 1) else (m, y) in
  let k := Z.rem y 100 in
  let j := Z.quot y 100 in
  let h := Z.rem (day + Z.quot (13 * (m + 1)) 5 + k + Z.quot k 4 + Z.quot j 4 - 2 * j) 7 in
  wrap 8 (Z.rem (h + 6) 7).

Section build.
Context `{Build}.

(** The [loop] that finds the year *)
Fixpoint year_loop (fuel : nat) (days year : Z) : res never (Z * Z) :=
  match fuel with
  | O => Hang
  | S fuel =>
      let days_in_year := if is_leap_year year then 366 else 365 in
      if days <? days_in_year then Ok (days, year)
      else year' ← uadd 16 year 1; year_loop fuel (days - days_in_year) year'
  end.

(** [for m in 0..12] with its [break] *)
Fixpoint month_loop (ms : list Z) (leap : bool) (days month : Z) : res never (Z * Z) :=
  match ms with
  | [] => Ok (days, month)
  | m :: ms =>
      d ← index DAYS_IN_MONTH m;
      let days_in_month := if (m =? 1) && leap then d + 1 else d in
      if days <? days_in_month then Ok (days, month)
      else month_loop ms leap (days - days_in_month) (month + 1)
  end.

Definition unix_timestamp_to_datetime (fuel : nat) (timestamp : Z) : res never RtcDateTime :=
  let days := Z.quot timestamp 86400 in
  let remaining := Z.rem timestamp 86400 in
  let hour := wrap 8 (Z.quot remaining 3600) in
  let remaining := Z.rem remaining 3600 in
  let minute := wrap 8 (Z.quot remaining 60) in
  let second := wrap 8 (Z.rem remaining 60) in
  '(days, year) ← year_loop fuel days 1970;
  '(days, month) ← month_loop (seqZ 0 12) (is_leap_year year) days 1;
  let day := wrap 8 (days + 1) in
  mret {| second := second; minute := minute; hour := hour; day := day; month := month;
          year := year; weekday := calculate_weekday year month day |}.

(** formats.rs *)
Definition rtc_to_posix (rtc : RtcDateTime) : res never Z :=
  let year := year rtc in
  let month := month rtc in
  let '(year, month) := if month <=? 2 then (year - 1, month + 12) else (year, month) in
  let days := 365 * year + Z.quot year 4 - Z.quot year 100 + Z.quot year 400
    + Z.quot (153 * month - 457) 5 + day rtc - 719528 in
  a ← umul 32 (wrap 32 days) 86400;
  b ← umul 32 (hour rtc) 3600;
  s ← uadd 32 a b;
  c ← umul 32 (minute rtc) 60;
  s ← uadd 32 s c;
  uadd 32 s (second rtc).
End build.

(** ** Reading the clock *)
Definition bcd_to_binary (bcd : Z) : Z := Z.shiftr bcd 4 * 10 + Z.land bcd 0x0F.

Section device.
Context (rtc : nat -> Z -> Z).

(** The state is the number of data-port reads done so far. *)
Definition read_register (reg : Z) : M nat never Z := fun n => (Ok (rtc n reg), S n).

Definition is_update_in_progress : M nat never bool :=
  a ← read_register RTC_STATUS_A; mret (negb (Z.land a RTC_UIP =? 0)).

Fixpoint wait_update (fuel : nat) : M nat never () :=
  match fuel with
  | O => lift Hang
  | S fuel => uip ← is_update_in_progress; if (uip : bool) then wait_update fuel else mret ()
  end.

Definition read_datetime (fuel : nat) : M nat never (option RtcDateTime) :=
  wait_update fuel;;
  second ← read_register RTC_SECONDS;
  minute ← read_register RTC_MINUTES;
  hour ← read_register RTC_HOURS;
  day ← read_register RTC_DAY;
  month ← read_register RTC_MONTH;
  year ← read_register RTC_YEAR;
  weekday ← read_register RTC_WEEKDAY;
  century ← read_register RTC_CENTURY;
  uip ← is_update_in_progress;
  if (uip : bool) then mret None else
  status_b ← read_register RTC_STATUS_B;
  let is_binary := negb (Z.land status_b RTC_BINARY =? 0) in
  let is_24hour := negb (Z.land status_b RTC_24_HOUR =? 0) in
  let conv x := if is_binary then x else bcd_to_binary x in
  let second := conv second in
  let minute := conv minute in
  let hour := if is_binary then hour else bcd_to_binary (Z.land hour 0x7F) in
  let day := conv day in
  let month := conv month in
  let year := conv year in
  let century := conv century in
  let hour :=
    if is_24hour then hour else
    let pm := negb (Z.land hour 0x80 =? 0) in
    let hour := Z.land hour 0x7F in
    if pm && negb (hour =? 12) then hour + 12
    else if negb pm && (hour =? 12) then 0 else hour in
  let full_year :=
    if (0 <? century) && (century <? 99) then century * 100 + year
    else if year <? 80 then 2000 + year else 1900 + year in
  mret (Some {| second := second; minute := minute; hour := hour; day := day; month := month;
                year := full_year; weekday := weekday |}).

Fixpoint read_attempts (fuel attempts : nat) : M nat never RtcDateTime :=
  match attempts with
  | O => panic
  | S attempts =>
      o ← read_datetime fuel;
      match o with Some dt => mret dt | None => read_attempts fuel attempts end
  end.
Definition read_datetime_reliable (fuel : nat) : M nat never RtcDateTime := read_attempts fuel 5.

Definition get_unix_timestamp `{Build} (fuel : nat) : M nat never Z :=
  dt ← read_datetime_reliable fuel; lift (rtc_to_posix dt).
End device.

(** ** Specification: the proleptic Gregorian calendar *)
Definition days_in_year (y : Z) : Z := if is_leap_year y then 366 else 365.
(** Days from 1970-01-01 to January 1st of year [y] *)
Definition days_before_year (y : Z) : Z :=
  365 * (y - 1970) + (y - 1) / 4 - (y - 1) / 100 + (y - 1) / 400 - 477.
Definition days_in_month (leap : bool) (m : Z) : Z :=
  default 0 (DAYS_IN_MONTH !! Z.to_nat (m - 1)) + if (m =? 2) && leap then 1 else 0.
Definition days_before_month (leap : bool) (m : Z) : Z :=
  foldl (fun a m => a + days_in_month leap m) 0 (seqZ 1 (m - 1)).
Definition epoch_day (y m d : Z) : Z :=
  days_before_year y + days_before_month (is_leap_year y) m + (d - 1).
Definition epoch_second (dt : RtcDateTime) : Z :=
  epoch_day (year dt) (month dt) (day dt) * 86400 + hour dt * 3600 + minute dt * 60 + second dt.
(** 1970-01-01 was a Thursday, day 4. *)
Definition week_day (n : Z) : Z := (n + 4) mod 7.

Record valid_date (y m d : Z) : Prop := {
  vd_year : 1970 <= y <= 65535;
  vd_month : 1 <= m <= 12;
  vd_day : 1 <= d <= days_in_month (is_leap_year y) m;
}.
Record valid (dt : RtcDateTime) : Prop := {
  v_date : valid_date (year dt) (month dt) (day dt);
  v_hour : 0 <= hour dt < 24;
  v_minute : 0 <= minute dt < 60;
  v_second : 0 <= second dt < 60;
  v_weekday : weekday dt = week_day (epoch_day (year dt) (month dt) (day dt));
}.

Ltac zdiv := Z.to_euclidean_division_equations; lia.
Ltac month_cases m :=
  assert (m = 1 \/ m = 2 \/ m = 3 \/ m = 4 \/ m = 5 \/ m = 6 \/ m = 7 \/ m = 8 \/ m = 9 \/
          m = 10 \/ m = 11 \/ m = 12) as Hcases by lia;
  destruct_or! Hcases; subst m.

Lemma div_succ n y : 0 < n -> y / n = (y - 1) / n + if y mod n =? 0 then 1 else 0.
Proof.
  intros Hn. pose proof (Z.div_mod y n ltac:(lia)) as D. pose proof (Z.mod_pos_bound y n Hn).
  destruct (y mod n =? 0) eqn:E; boom; symmetry.
  - replace (y - 1) with (n * (y / n - 1) + (n - 1)) by lia.
    rewrite Z.mul_comm, Z.div_add_l, (Z.div_small (n - 1)) by lia. lia.
  - replace (y - 1) with (n * (y / n) + (y mod n - 1)) by lia.
    rewrite Z.mul_comm, Z.div_add_l, (Z.div_small (y mod n - 1)) by lia. lia.
Qed.
Lemma days_before_year_succ y : days_before_year (y + 1) = days_before_year y + days_in_year y.
Proof.
  unfold days_before_year, days_in_year, is_leap_year. replace (y + 1 - 1) with y by lia.
  rewrite (div_succ 4 y), (div_succ 100 y), (div_succ 400 y) by lia.
  destruct (y mod 4 =? 0) eqn:E4, (y mod 100 =? 0) eqn:E100, (y mod 400 =? 0) eqn:E400;
    simpl; boom; zdiv.
Qed.
Lemma days_in_year_range y : 365 <= days_in_year y <= 366.
Proof. unfold days_in_year. destruct (is_leap_year y); lia. Qed.

Lemma sum_years n acc : Z.of_nat n <= 63566 ->
  foldl (fun days y => days + if is_leap_year (wrap 16 y) then 366 else 365) acc (seqZ 1970 (Z.of_nat n))
  = acc + days_before_year (1970 + Z.of_nat n).
Proof.
  induction n as [|n IH]; intros Hn.
  { change (acc = acc + days_before_year 1970). change (days_before_year 1970) with 0. lia. }
  rewrite Nat2Z.inj_succ, <- Z.add_1_r, seqZ_app, foldl_app by lia.
  rewrite IH by lia. change (seqZ (1970 + Z.of_nat n) 1) with [1970 + Z.of_nat n]. cbn [foldl].
  rewrite wrap_small by lia. rewrite Z.add_assoc, days_before_year_succ.
  unfold days_in_year. lia.
Qed.
Lemma month_index m : 1 <= m <= 12 ->
  index (E:=never) DAYS_IN_MONTH (m - 1) = Ok (default 0 (DAYS_IN_MONTH !! Z.to_nat (m - 1))).
Proof. intros Hm. month_cases m; reflexivity. Qed.
Lemma foldl_months leap l a : foldl (fun a m => a + days_in_month leap m) a l =
  a + foldl (fun a m => a + days_in_month leap m) 0 l.
Proof.
  revert a. induction l as [|m l IH]; intros a; cbn [foldl]; [lia|].
  rewrite IH, (IH (0 + _)). lia.
Qed.
Lemma sum_months leap y days m : 1 <= m <= 12 -> is_leap_year y = leap ->
  rfor (E:=never) (seqZ 1 (m - 1)) days (fun m days =>
    d ← index DAYS_IN_MONTH (m - 1);
    let days := days + d in
    mret (if (m =? 2) && is_leap_year y then days + 1 else days)) = Ok (days + days_before_month leap m).
Proof.
  intros Hm ->. unfold days_before_month. rewrite <- foldl_months.
  assert (Forall (fun m => 1 <= m <= 12) (seqZ 1 (m - 1))) as Hl.
  { apply Forall_lookup_2. intros i x Hx%lookup_seqZ. lia. }
  revert days. induction Hl as [|x l Hx Hl IH]; intros days; cbn [rfor foldl]; [done|].
  rewrite month_index by done. cbn [mbind res_bind]. rewrite <- IH. unfold days_in_month, mret, res_ret.
  destruct ((x =? 2) && leap); rsimpl; f_equal; lia.
Qed.

Lemma timestamp_ok dt : 1970 <= year dt <= 65535 -> 1 <= month dt <= 12 ->
  datetime_to_unix_timestamp dt = Ok (epoch_second dt).
Proof.
  intros Hy Hm. unfold datetime_to_unix_timestamp.
  replace (year dt - 1970) with (Z.of_nat (Z.to_nat (year dt - 1970))) by lia.
  rewrite sum_years by lia. rewrite (sum_months _ _ _ _ Hm eq_refl). cbn [mbind res_bind].
  unfold mret, res_ret, epoch_second, epoch_day. do 5 f_equal. do 2 f_equal.
  replace (1970 + Z.of_nat (Z.to_nat (year dt - 1970))) with (year dt) by lia. lia.
Qed.

Lemma year_loop_ok `{Build} n y d fuel : Z.of_nat n + y <= 65535 -> 0 <= y ->
  0 <= d < days_in_year (y + Z.of_nat n) -> (n < fuel)%nat ->
  year_loop fuel (days_before_year (y + Z.of_nat n) - days_before_year y + d) y =
    Ok (d, y + Z.of_nat n).
Proof.
  revert y fuel. induction n as [|n IH]; intros y fuel Hn Hy Hd Hf; (destruct fuel as [|fuel]; [lia|]);
    cbn [year_loop]; fold (days_in_year y).
  - rewrite Z.add_0_r in *. rewrite Z.sub_diag, Z.add_0_l. by btrue (d <? days_in_year y).
  - specialize (IH (y + 1) fuel). replace (y + Z.of_nat (S n)) with (y + 1 + Z.of_nat n) in * by lia.
    assert (days_before_year (y + 1) <= days_before_year (y + 1 + Z.of_nat n)).
    { clear. induction n as [|n IH]; [rewrite Z.add_0_r; lia|].
      pose proof (days_before_year_succ (y + 1 + Z.of_nat n)).
      pose proof (days_in_year_range (y + 1 + Z.of_nat n)).
      replace (y + 1 + Z.of_nat (S n)) with (y + 1 + Z.of_nat n + 1) by lia. lia. }
    pose proof (days_before_year_succ y). pose proof (days_in_year_range y).
    bfalse (days_before_year (y + 1 + Z.of_nat n) - days_before_year y + d <? days_in_year y).
    rewrite uadd_ok by lia. cbn [mbind res_bind]. rewrite <- IH by lia. f_equal. lia.
Qed.
Lemma days_before_month_succ leap m : 1 <= m ->
  days_before_month leap (m + 1) = days_before_month leap m + days_in_month leap m.
Proof.
  intros Hm. unfold days_before_month. replace (m + 1 - 1) with (m - 1 + 1) by lia.
  rewrite seqZ_app, foldl_app by lia. replace (1 + (m - 1)) with m by lia.
  change (seqZ m 1) with [m]. done.
Qed.
Lemma days_in_month_range leap m : 1 <= m <= 12 -> 28 <= days_in_month leap m <= 31.
Proof. intros Hm. month_cases m; destruct leap; vm_compute; split; discriminate. Qed.
Lemma days_before_month_mono leap m n : 1 <= m -> m + Z.of_nat n <= 13 ->
  days_before_month leap m <= days_before_month leap (m + Z.of_nat n).
Proof.
  intros Hm. induction n as [|n IH]; intros Hn; [rewrite Z.add_0_r; lia|].
  rewrite Nat2Z.inj_succ, <- Z.add_1_r, Z.add_assoc, days_before_month_succ by lia.
  pose proof (days_in_month_range leap (m + Z.of_nat n)). lia.
Qed.
Lemma month_loop_ok leap n k d : 1 <= k -> k + Z.of_nat n <= 12 ->
  0 <= d < days_in_month leap (k + Z.of_nat n) ->
  month_loop (seqZ (k - 1) (13 - k)) leap
    (days_before_month leap (k + Z.of_nat n) - days_before_month leap k + d) k = Ok (d, k + Z.of_nat n).
Proof.
  revert k. induction n as [|n IH]; intros k Hk Hn Hd; rewrite seqZ_cons by lia; cbn [month_loop];
    rewrite month_index by lia; rsimpl;
    (replace (if (k - 1 =? 1) && leap then _ else _) with (days_in_month leap k)
      by (unfold days_in_month; replace (k =? 2) with (k - 1 =? 1) by lia; destruct (_ && _); lia)).
  - rewrite Z.add_0_r in *. rewrite Z.sub_diag, Z.add_0_l. by btrue (d <? days_in_month leap k).
  - replace (k + Z.of_nat (S n)) with (k + 1 + Z.of_nat n) in * by lia.
    pose proof (days_before_month_succ leap k Hk).
    pose proof (days_before_month_mono leap (k + 1) n ltac:(lia) ltac:(lia)).
    bfalse (days_before_month leap (k + 1 + Z.of_nat n) - days_before_month leap k + d <? days_in_month leap k).
    specialize (IH (k + 1)). replace (k + 1 - 1) with (Z.succ (k - 1)) in IH by lia.
    replace (13 - (k + 1)) with (Z.pred (13 - k)) in IH by lia. rewrite <- IH by lia. f_equal. lia.
Qed.

(** Zeller's congruence, for the year that starts in March *)
Lemma zeller y a : 0 <= y ->
  wrap 8 (Z.rem (Z.rem (a + Z.rem y 100 + Z.quot (Z.rem y 100) 4 + Z.quot (Z.quot y 100) 4
    - 2 * Z.quot y 100) 7 + 6) 7) = (a + 365 * y + y / 4 - y / 100 + y / 400 + 6) mod 7.
Proof.
  intros Hy. rewrite (Z.rem_mod_nonneg y 100), (Z.quot_div_nonneg y 100) by lia.
  pose proof (Z.div_mod y 100 ltac:(lia)) as D. pose proof (Z.mod_pos_bound y 100 ltac:(lia)).
  assert (0 <= y / 100) by (apply Z.div_pos; lia).
  set (j := y / 100) in *. set (k := y mod 100) in *.
  rewrite (Z.quot_div_nonneg k 4), (Z.quot_div_nonneg j 4) by lia.
  assert (y / 4 = 25 * j + k / 4) as ->.
  { rewrite D. replace (100 * j + k) with (k + (25 * j) * 4) by lia. rewrite Z.div_add by lia. lia. }
  assert (y / 400 = j / 4) as ->.
  { unfold j. rewrite Z.div_div by lia. done. }
  rewrite D. set (q := k / 4). set (r := j / 4).
  set (x := a + k + q + r - 2 * j).
  replace (a + 365 * (100 * j + k) + (25 * j + q) - j + r + 6) with (x + 6 + (5218 * j + 52 * k) * 7)
    by (unfold x; lia).
  rewrite Z.mod_add by lia. clearbody x. clear. unfold wrap. zdiv.
Qed.

Lemma epoch_day_march y m d : 3 <= m <= 12 ->
  epoch_day y m d = days_before_year (y + 1) - 365 + days_before_month false m + (d - 1).
Proof.
  intros Hm. unfold epoch_day. rewrite days_before_year_succ. unfold days_in_year.
  assert (days_before_month true m = days_before_month false m + 1).
  { assert (1 <= m <= 12) by lia. month_cases m; try lia; reflexivity. }
  destruct (is_leap_year y); lia.
Qed.

Lemma weekday_ok y m d : 1970 <= y -> 1 <= m <= 12 ->
  calculate_weekday y m d = week_day (epoch_day y m d).
Proof.
  intros Hy Hm. unfold calculate_weekday, week_day.
  destruct (Z.lt_ge_cases m 3).
  - btrue (m <? 3). rewrite zeller by lia. unfold epoch_day, days_before_year.
    assert (m = 1 \/ m = 2) as [-> | ->] by lia;
      [ev (Z.quot (13 * (1 + 12 + 1)) 5)|ev (Z.quot (13 * (2 + 12 + 1)) 5)]; destruct (is_leap_year y);
      match goal with |- context [days_before_month ?l ?m] => ev (days_before_month l m) end;
      generalize ((y - 1) / 4), ((y - 1) / 100), ((y - 1) / 400); clear; intros; zdiv.
  - bfalse (m <? 3). rewrite zeller by lia. rewrite epoch_day_march by lia. unfold days_before_year.
    replace (y + 1 - 1) with y by lia. assert (Z.quot (13 * (m + 1)) 5 mod 7 =
      days_before_month false m mod 7) as E.
    { month_cases m; try lia; reflexivity. }
    revert E. generalize (Z.quot (13 * (m + 1)) 5), (days_before_month false m), (y / 4), (y / 100), (y / 400).
    clear. intros. zdiv.
Qed.

(** *** Every day has one date *)
Lemma days_before_year_mono y n : days_before_year y <= days_before_year (y + Z.of_nat n).
Proof.
  induction n as [|n IH]; [rewrite Z.add_0_r; lia|].
  pose proof (days_before_year_succ (y + Z.of_nat n)). pose proof (days_in_year_range (y + Z.of_nat n)).
  replace (y + Z.of_nat (S n)) with (y + Z.of_nat n + 1) by lia. lia.
Qed.
Lemma days_before_year_nonneg y : 1970 <= y -> 0 <= days_before_year y.
Proof.
  intros Hy. pose proof (days_before_year_mono 1970 (Z.to_nat (y - 1970))) as Hm.
  replace (1970 + Z.of_nat (Z.to_nat (y - 1970))) with y in Hm by lia.
  change (days_before_year 1970) with 0 in Hm. lia.
Qed.
Lemma days_before_month_nonneg leap m : 1 <= m <= 12 -> 0 <= days_before_month leap m.
Proof.
  intros Hm. pose proof (days_before_month_mono leap 1 (Z.to_nat (m - 1)) ltac:(lia) ltac:(lia)) as Hb.
  replace (1 + Z.of_nat (Z.to_nat (m - 1))) with m in Hb by lia.
  change (days_before_month leap 1) with 0 in Hb. lia.
Qed.
(** A step function that starts at or below [n] and passes it has a last step
    at or below it. *)
Lemma last_step (f : Z -> Z) a k n : f a <= n -> n < f (a + Z.of_nat k) ->
  exists i, a <= i < a + Z.of_nat k /\ f i <= n < f (i + 1).
Proof.
  induction k as [|k IH]; intros Ha Hk; [rewrite Z.add_0_r in Hk; lia|].
  destruct (Z.lt_ge_cases n (f (a + Z.of_nat k))) as [Hlt|Hge].
  - destruct IH as (i & Hi & Hn); [done|done|]. exists i. split; [lia|done].
  - exists (a + Z.of_nat k). replace (a + Z.of_nat (S k)) with (a + Z.of_nat k + 1) in Hk by lia. lia.
Qed.
Lemma date_of_day n : 0 <= n < days_before_year 65536 ->
  exists y m d, valid_date y m d /\ epoch_day y m d = n.
Proof.
  intros Hn. destruct (last_step days_before_year 1970 (Z.to_nat 63566) n) as (y & Hy & Hy').
  { change (days_before_year 1970) with 0. lia. }
  { replace (1970 + Z.of_nat (Z.to_nat 63566)) with 65536 by lia. lia. }
  rewrite days_before_year_succ in Hy'. set (leap := is_leap_year y).
  destruct (last_step (days_before_month leap) 1 12 (n - days_before_year y)) as (m & Hm & Hm').
  { change (days_before_month leap 1) with 0. lia. }
  { unfold days_in_year in Hy'. fold leap in Hy'.
    destruct leap; [ev (days_before_month true (1 + Z.of_nat 12))|
      ev (days_before_month false (1 + Z.of_nat 12))]; lia. }
  rewrite days_before_month_succ in Hm' by lia.
  exists y, m, (n - days_before_year y - days_before_month leap m + 1).
  unfold epoch_day. fold leap. split; [|lia]. split; fold leap; lia.
Qed.

Lemma epoch_day_nonneg y m d : valid_date y m d -> 0 <= epoch_day y m d.
Proof.
  intros [Hy Hm Hd]. pose proof (days_before_year_nonneg y). unfold epoch_day.
  pose proof (days_before_month_nonneg (is_leap_year y) m). lia.
Qed.

Lemma year_loop_day `{Build} y m d fuel : valid_date y m d -> (Z.to_nat (y - 1970) < fuel)%nat ->
  year_loop fuel (epoch_day y m d) 1970 = Ok (days_before_month (is_leap_year y) m + (d - 1), y).
Proof.
  intros [Hy Hm Hd] Hf. set (leap := is_leap_year y) in *.
  pose proof (days_before_month_nonneg leap m Hm). pose proof (days_before_month_succ leap m ltac:(lia)).
  pose proof (days_before_month_mono leap (m + 1) (Z.to_nat (12 - m)) ltac:(lia) ltac:(lia)) as Hmono.
  replace (m + 1 + Z.of_nat (Z.to_nat (12 - m))) with 13 in Hmono by lia.
  assert (days_before_month leap 13 = days_in_year y)
    by (unfold days_in_year; fold leap; destruct leap; reflexivity).
  pose proof (year_loop_ok (Z.to_nat (y - 1970)) 1970 (days_before_month leap m + (d - 1)) fuel) as Hyl.
  replace (1970 + Z.of_nat (Z.to_nat (y - 1970))) with y in Hyl by lia.
  change (days_before_year 1970) with 0 in Hyl. rewrite <- Hyl by lia.
  unfold epoch_day. fold leap. f_equal. lia.
Qed.
Lemma month_loop_day leap m d : 1 <= m <= 12 -> 1 <= d <= days_in_month leap m ->
  month_loop (seqZ 0 12) leap (days_before_month leap m + (d - 1)) 1 = Ok (d - 1, m).
Proof.
  intros Hm Hd. pose proof (month_loop_ok leap (Z.to_nat (m - 1)) 1 (d - 1)) as Hml.
  replace (1 + Z.of_nat (Z.to_nat (m - 1))) with m in Hml by lia.
  change (days_before_month leap 1) with 0 in Hml. rewrite Z.sub_0_r in Hml. apply Hml; lia.
Qed.
Lemma clock_parts n h m s : 0 <= n -> 0 <= h < 24 -> 0 <= m < 60 -> 0 <= s < 60 ->
  let ts := n * 86400 + h * 3600 + m * 60 + s in
  Z.quot ts 86400 = n /\ Z.quot (Z.rem ts 86400) 3600 = h /\
  Z.quot (Z.rem (Z.rem ts 86400) 3600) 60 = m /\ Z.rem (Z.rem (Z.rem ts 86400) 3600) 60 = s.
Proof.
  intros Hn Hh Hm Hs ts.
  assert (Z.quot ts 86400 = n /\ Z.rem ts 86400 = h * 3600 + m * 60 + s) as [-> ->] by (unfold ts; zdiv).
  assert (Z.quot (h * 3600 + m * 60 + s) 3600 = h /\ Z.rem (h * 3600 + m * 60 + s) 3600 = m * 60 + s)
    as [-> ->] by zdiv.
  split_and!; [done..|zdiv|zdiv].
Qed.

Lemma to_datetime_ok `{Build} dt fuel : valid dt -> (Z.to_nat (year dt - 1970) < fuel)%nat ->
  unix_timestamp_to_datetime fuel (epoch_second dt) = Ok dt.
Proof.
  intros [Hdate Hh Hm Hs Hw] Hf. pose proof (epoch_day_nonneg _ _ _ Hdate) as Hn.
  unfold unix_timestamp_to_datetime, epoch_second.
  destruct (clock_parts _ _ _ _ Hn Hh Hm Hs) as (-> & -> & -> & ->).
  rewrite year_loop_day by done. rsimpl. destruct Hdate as [Hy Hmo Hd].
  rewrite month_loop_day by done. rsimpl. pose proof (days_in_month_range (is_leap_year (year dt)) _ Hmo).
  replace (day dt - 1 + 1) with (day dt) by lia. rewrite !wrap_small by lia.
  rewrite weekday_ok, <- Hw by lia. by destruct dt.
Qed.

(** A timestamp as the date it falls on *)
Lemma datetime_of_timestamp ts : 0 <= ts < days_before_year 65536 * 86400 ->
  exists dt, valid dt /\ epoch_second dt = ts.
Proof.
  intros Ht. destruct (date_of_day (ts / 86400)) as (y & m & d & Hv & Hd).
  { split; [apply Z.div_pos; lia|apply Z.div_lt_upper_bound; lia]. }
  exists {| second := ts mod 60; minute := ts / 60 mod 60; hour := ts / 3600 mod 24;
            day := d; month := m; year := y; weekday := week_day (epoch_day y m d) |}.
  split; [split; cbn; try done; by apply Z.mod_pos_bound|].
  unfold epoch_second. cbn. rewrite Hd. clear. zdiv.
Qed.

(** *** The POSIX formula *)
Lemma posix_days y m d : 1970 <= y -> 1 <= m <= 12 ->
  (let '(y', m') := if m <=? 2 then (y - 1, m + 12) else (y, m) in
   365 * y' + Z.quot y' 4 - Z.quot y' 100 + Z.quot y' 400 + Z.quot (153 * m' - 457) 5 + d - 719528) =
  epoch_day y m d - 59.
Proof.
  intros Hy Hm. destruct (Z.le_gt_cases m 2).
  - btrue (m <=? 2). unfold epoch_day, days_before_year. rewrite !Z.quot_div_nonneg by lia.
    assert (m = 1 \/ m = 2) as [-> | ->] by lia;
      [ev ((153 * (1 + 12) - 457) / 5)|ev ((153 * (2 + 12) - 457) / 5)]; destruct (is_leap_year y);
      match goal with |- context [days_before_month ?l ?m] => ev (days_before_month l m) end; lia.
  - bfalse (m <=? 2). rewrite epoch_day_march by lia. unfold days_before_year.
    replace (y + 1 - 1) with y by lia. rewrite !Z.quot_div_nonneg by lia.
    assert ((153 * m - 457) / 5 = days_before_month false m - 59) by
      (month_cases m; try lia; reflexivity). lia.
Qed.

(** *** The clock's registers *)
Definition to_bcd (z : Z) : Z := z / 10 * 16 + z mod 10.

Lemma bcd_roundtrip z : 0 <= z < 100 -> bcd_to_binary (to_bcd z) = z.
Proof.
  intros Hz. unfold bcd_to_binary, to_bcd. change 0x0F with (Z.ones 4).
  rewrite Z.land_ones, Z.shiftr_div_pow2 by lia. zdiv.
Qed.

(** What a clock in 24-hour mode holds for a date, as binary or as BCD *)
Definition encode (binary : bool) (z : Z) : Z := if binary then z else to_bcd z.
Definition holds (binary : bool) (dt : RtcDateTime) (reg : Z) : option Z :=
  if reg =? RTC_SECONDS then Some (encode binary (second dt))
  else if reg =? RTC_MINUTES then Some (encode binary (minute dt))
  else if reg =? RTC_HOURS then Some (encode binary (hour dt))
  else if reg =? RTC_DAY then Some (encode binary (day dt))
  else if reg =? RTC_MONTH then Some (encode binary (month dt))
  else if reg =? RTC_YEAR then Some (encode binary (year dt mod 100))
  else if reg =? RTC_WEEKDAY then Some (weekday dt)
  else if reg =? RTC_CENTURY then Some (encode binary (year dt / 100))
  else if reg =? RTC_STATUS_B then Some (if binary then 0x06 else 0x02)
  else None.

Section read.
Context (rtc : nat -> Z -> Z).

(** The chip reports an update on reads [n .. n+k), none on read [n+k], and
    holds the date from then to the end of the read, eleven bytes later. *)
Definition busy (n : nat) : Prop := Z.land (rtc n RTC_STATUS_A) RTC_UIP <> 0.
Definition idle (n : nat) : Prop := Z.land (rtc n RTC_STATUS_A) RTC_UIP = 0.
Definition stable (binary : bool) (dt : RtcDateTime) (n : nat) : Prop :=
  forall i reg v, (n < i < n + 11)%nat -> holds binary dt reg = Some v -> rtc i reg = v.

Lemma wait_update_ok k fuel n : (k < fuel)%nat -> (forall i, (n <= i < n + k)%nat -> busy i) ->
  idle (n + k) -> wait_update rtc fuel n = (Ok (), S (n + k)).
Proof.
  revert fuel n. induction k as [|k IH]; intros fuel n Hf Hb Hi; (destruct fuel as [|fuel]; [lia|]);
    cbn [wait_update]; unfold is_update_in_progress, mbind, M_bind, read_register; cbn.
  - rewrite Nat.add_0_r in *. unfold idle in Hi. by rewrite Hi.
  - pose proof (Hb n ltac:(lia)) as Hn. unfold busy in Hn.
    bfalse (Z.land (rtc n RTC_STATUS_A) RTC_UIP =? 0). cbn.
    replace (n + S k)%nat with (S n + k)%nat in * by lia. apply IH; [lia| |done].
    intros i Hi'. apply Hb. lia.
Qed.

Lemma conv_encode (b : bool) z : 0 <= z < 100 -> (if b then encode b z else bcd_to_binary (encode b z)) = z.
Proof. intros Hz. destruct b; cbn; [done|by apply bcd_roundtrip]. Qed.
Lemma conv_hour (b : bool) z : 0 <= z < 24 ->
  (if b then encode b z else bcd_to_binary (Z.land (encode b z) 0x7F)) = z.
Proof.
  intros Hz. destruct b; cbn; [done|]. change 0x7F with (Z.ones 7). rewrite Z.land_ones by lia.
  rewrite Z.mod_small; [apply bcd_roundtrip; lia|]. unfold to_bcd. zdiv.
Qed.

Lemma read_datetime_ok binary dt k fuel n : valid dt -> 1 <= year dt / 100 < 99 ->
  (k < fuel)%nat -> (forall i, (n <= i < n + k)%nat -> busy i) -> idle (n + k) ->
  stable binary dt (n + k) -> 
  read_datetime rtc fuel n =
    if bool_decide (Z.land (rtc (n + k + 9)%nat RTC_STATUS_A) RTC_UIP = 0)
    then (Ok (Some dt), (n + k + 11)%nat) else (Ok None, (n + k + 10)%nat).
Proof.
  intros [[Hy Hmo Hd] Hh Hm Hs Hw] Hc Hf Hb Hi Hst. unfold read_datetime.
  rewrite (M_bind_run _ _ _ _ _ (wait_update_ok k fuel n Hf Hb Hi)).
  unfold is_update_in_progress, mbind, M_bind, read_register, mret, M_ret.
  set (N := (n + k)%nat) in *. cbv beta iota zeta.
  rewrite <- (Nat.add_1_r N). repeat match goal with |- context [S (N + ?c)] =>
    replace (S (N + c))%nat with (N + S c)%nat by lia end.
  case_bool_decide as E; rewrite ?(proj2 (Z.eqb_eq _ _) E), ?(proj2 (Z.eqb_neq _ _) E); cbn;
    [|f_equal; lia].
  rewrite (Hst (N + 1)%nat RTC_SECONDS _ ltac:(lia) eq_refl).
  rewrite (Hst (N + 2)%nat RTC_MINUTES _ ltac:(lia) eq_refl).
  rewrite (Hst (N + 3)%nat RTC_HOURS _ ltac:(lia) eq_refl).
  rewrite (Hst (N + 4)%nat RTC_DAY _ ltac:(lia) eq_refl).
  rewrite (Hst (N + 5)%nat RTC_MONTH _ ltac:(lia) eq_refl).
  rewrite (Hst (N + 6)%nat RTC_YEAR _ ltac:(lia) eq_refl).
  rewrite (Hst (N + 7)%nat RTC_WEEKDAY _ ltac:(lia) eq_refl).
  rewrite (Hst (N + 8)%nat RTC_CENTURY _ ltac:(lia) eq_refl).
  rewrite (Hst (N + 10)%nat RTC_STATUS_B _ ltac:(lia) eq_refl).
  pose proof (Z.mod_pos_bound (year dt) 100 ltac:(lia)).
  pose proof (days_in_month_range (is_leap_year (year dt)) _ Hmo).
  replace (negb (Z.land (if binary then 0x06 else 0x02) RTC_BINARY =? 0)) with binary by (by destruct binary).
  replace (negb (Z.land (if binary then 0x06 else 0x02) RTC_24_HOUR =? 0)) with true by (by destruct binary).
  rewrite !conv_encode, conv_hour by lia. btrue ((0 <? year dt / 100) && (year dt / 100 <? 99)).
  replace (year dt / 100 * 100 + year dt mod 100) with (year dt) by (pose proof (Z.div_mod (year dt) 100); lia).
  f_equal; [|lia]. by destruct dt.
Qed.
End read.

(** ** Theorems *)

(** Date to timestamp and back: for every valid date and time of day from
    1970 to 65535, [datetime_to_unix_timestamp] returns the number of seconds
    since the epoch in the Gregorian calendar, and
    [unix_timestamp_to_datetime] turns it back into the same record, the
    weekday included (its year loop ends within [year - 1970] rounds). *)
Theorem datetime_roundtrip `{Build} dt fuel : valid dt -> (Z.to_nat (year dt - 1970) < fuel)%nat ->
  datetime_to_unix_timestamp dt = Ok (epoch_second dt) /\
  unix_timestamp_to_datetime fuel (epoch_second dt) = Ok dt.
Proof.
  intros Hv Hf. pose proof Hv as [[Hy Hm _] _ _ _ _].
  split; [by apply timestamp_ok|by apply to_datetime_ok].
Qed.

Definition leap_day : RtcDateTime :=
  {| second := 7; minute := 30; hour := 13; day := 29; month := 2; year := 2024; weekday := 4 |}.
Lemma leap_day_valid : valid leap_day.
Proof. repeat split; try (vm_compute; congruence). Qed.

Lemma datetime_roundtrip_witness :
  datetime_to_unix_timestamp leap_day = Ok 1709213407 /\
  @unix_timestamp_to_datetime dev_build 100 1709213407 = Ok leap_day.
Proof. apply (@datetime_roundtrip dev_build leap_day 100); [apply leap_day_valid|vm_compute; lia]. Defined.

(** Timestamp to date and back: every timestamp before the year 65536 is
    converted to a valid date, and that date converts to the timestamp. *)
Theorem timestamp_roundtrip `{Build} ts fuel : 0 <= ts < days_before_year 65536 * 86400 ->
  63566 <= Z.of_nat fuel ->
  exists dt, unix_timestamp_to_datetime fuel ts = Ok dt /\ valid dt /\
    datetime_to_unix_timestamp dt = Ok ts.
Proof.
  intros Ht Hf. destruct (datetime_of_timestamp ts Ht) as (dt & Hv & <-). exists dt.
  pose proof Hv as [[Hy Hm _] _ _ _ _].
  split_and!; [apply to_datetime_ok; [done|lia]|done|by apply timestamp_ok].
Qed.

Lemma timestamp_roundtrip_witness : exists dt,
  @unix_timestamp_to_datetime dev_build (Z.to_nat 63566) 951782400 = Ok dt /\
  datetime_to_unix_timestamp dt = Ok 951782400.
Proof.
  destruct (@timestamp_roundtrip dev_build 951782400 (Z.to_nat 63566)) as (dt & H1 & _ & H2).
  - vm_compute. split; congruence.
  - rewrite Z2Nat.id; lia.
  - exists dt. split; assumption.
Defined.

(** [rtc_to_posix], the time ext2 stamps on inodes, is always exactly 59
    days earlier than the clock's date: whenever the result is representable
    it is the true Unix time minus 59 * 86400 seconds. *)
Theorem rtc_to_posix_59_days_early `{Build} dt : valid dt ->
  59 <= epoch_day (year dt) (month dt) (day dt) -> epoch_second dt - 59 * 86400 < 2 ^ 32 ->
  rtc_to_posix dt = Ok (epoch_second dt - 59 * 86400).
Proof.
  intros [[Hy Hmo Hd] Hh Hm Hs _] Hn Ht. unfold rtc_to_posix.
  pose proof (posix_days (year dt) (month dt) (day dt) (proj1 Hy) Hmo) as Hp.
  destruct (if month dt <=? 2 then _ else _) as [y' m']. rewrite Hp. unfold epoch_second in *.
  set (n := epoch_day _ _ _) in *.
  rewrite wrap_small by lia. rewrite !umul_ok by lia. rsimpl.
  do 3 (rewrite uadd_ok by lia; rsimpl). f_equal. lia.
Qed.

Lemma rtc_to_posix_59_days_early_witness :
  @rtc_to_posix dev_build leap_day = Ok (1709213407 - 59 * 86400).
Proof.
  apply (@rtc_to_posix_59_days_early dev_build leap_day leap_day_valid); vm_compute; congruence.
Defined.

(** Reading a 24-hour clock, in binary or BCD format: once the chip has
    finished an update and holds still, [read_datetime_reliable] returns the
    date the registers hold on its first attempt. *)
Theorem clock_read_24h rtc binary dt k fuel n : valid dt -> 1 <= year dt / 100 < 99 ->
  (k < fuel)%nat -> (forall i, (n <= i < n + k)%nat -> busy rtc i) -> idle rtc (n + k) ->
  stable rtc binary dt (n + k) -> idle rtc (n + k + 9) ->
  read_datetime_reliable rtc fuel n = (Ok dt, (n + k + 11)%nat).
Proof.
  intros Hv Hc Hf Hb Hi Hst Hi'. unfold read_datetime_reliable. cbn [read_attempts].
  erewrite M_bind_run; [|rewrite (read_datetime_ok rtc binary dt k fuel n) by done;
    rewrite bool_decide_eq_true_2 by exact Hi'; reflexivity]. done.
Qed.

(** A clock whose status register shows an update during the first two reads *)
Definition sample_rtc (n : nat) (reg : Z) : Z :=
  if reg =? RTC_STATUS_A then if (n <? 2)%nat then 0xA6 else 0x26
  else default 0 (holds false leap_day reg).

Lemma clock_read_24h_witness : read_datetime_reliable sample_rtc 10 0%nat = (Ok leap_day, 13%nat).
Proof.
  apply (clock_read_24h sample_rtc false leap_day 2 10 0%nat leap_day_valid).
  - vm_compute. split; congruence.
  - lia.
  - intros i Hi. assert (i = 0 \/ i = 1)%nat as [-> | ->] by lia; vm_compute; congruence.
  - reflexivity.
  - intros i reg v Hi Hh. unfold sample_rtc. destruct (reg =? RTC_STATUS_A) eqn:E; [|by rewrite Hh].
    boom. subst reg. discriminate Hh.
  - reflexivity.
Defined.

(** A BCD clock in 12-hour mode loses the PM bit: it is masked off before the
    conversion and tested after it, so 1 PM (0x81) is read as 1 o'clock. *)
Example pm_bit_lost : fst (read_datetime (fun _ reg =>
    if reg =? RTC_HOURS then 0x81 else if reg =? RTC_STATUS_B then 0x00
    else default 0 (holds false leap_day reg)) 1 0%nat) =
  Ok (Some {| second := 7; minute := 30; hour := 1; day := 29; month := 2; year := 2024; weekday := 4 |}).
Proof. reflexivity. Qed.
