(* ===== verification/Path.v ===== *)
(** * Absolute paths

    src/kernel/src/hal/path.rs.  A path is its UTF-8 bytes; the separator is
    one byte, so every position the code slices at is a character boundary of
    an absolute path and the model slices bytes.

    Shown here: the double-ended component iterator is a double-ended queue
    holding the non-empty pieces between separators, whatever the order in
    which the two ends are read; [file_name], [parent], [join] and [normalize]
    act on that list as their documentation says, and normalizing is
    idempotent and leaves no ["."] or [".."]. *)

From S2P Require Import Prelude Bytes.

Definition SLASH : Z := 47.
Definition DOT : Z := 46.

(** ** [str] methods *)
Definition starts_with (c : Z) (s : list Z) : bool :=
  match s with x :: _ => x =? c | [] => false end.
Definition ends_with (c : Z) (s : list Z) : bool := starts_with c (rev s).
Fixpoint find (c : Z) (s : list Z) : option nat :=
  match s with
  | [] => None
  | x :: s => if x =? c then Some 0%nat else S <$> find c s
  end.
Fixpoint rfind (c : Z) (s : list Z) : option nat :=
  match s with
  | [] => None
  | x :: s =>
      match rfind c s with
      | Some p => Some (S p)
      | None => if x =? c then Some 0%nat else None
      end
  end.
Fixpoint trim_start_matches (c : Z) (s : list Z) : list Z :=
  match s with
  | x :: s' => if x =? c then trim_start_matches c s' else s
  | [] => []
  end.
Definition trim_end_matches (c : Z) (s : list Z) : list Z := rev (trim_start_matches c (rev s)).

(** ** [Components] *)
Record Components := { cpath : list Z; front : Z; back : Z }.

Fixpoint next_loop (fuel : nat) (self : Components) : res never (option (list Z) * Components) :=
  match fuel with
  | O => Hang
  | S fuel =>
      if front self <? back self then
        remaining ← slice (cpath self) (front self) (back self);
        match find SLASH remaining with
        | Some pos =>
            let component := take pos remaining in
            let self := {| cpath := cpath self; front := front self + (Z.of_nat pos + 1); back := back self |} in
            if bool_decide (component = []) then next_loop fuel self else Ok (Some component, self)
        | None =>
            let self := {| cpath := cpath self; front := back self; back := back self |} in
            if bool_decide (remaining = []) then Ok (None, self) else Ok (Some remaining, self)
        end
      else Ok (None, self)
  end.
Fixpoint next_back_loop (fuel : nat) (self : Components) : res never (option (list Z) * Components) :=
  match fuel with
  | O => Hang
  | S fuel =>
      if front self <? back self then
        remaining ← slice (cpath self) (front self) (back self);
        match rfind SLASH remaining with
        | Some pos =>
            let component := drop (S pos) remaining in
            let self := {| cpath := cpath self; front := front self; back := front self + Z.of_nat pos |} in
            if bool_decide (component = []) then next_back_loop fuel self else Ok (Some component, self)
        | None =>
            let self := {| cpath := cpath self; front := front self; back := front self |} in
            if bool_decide (remaining = []) then Ok (None, self) else Ok (Some remaining, self)
        end
      else Ok (None, self)
  end.
(** Every round of the loops shortens the range by at least one byte. *)
Definition rounds (self : Components) : nat := S (Z.to_nat (back self - front self)).
Definition next (self : Components) := next_loop (rounds self) self.
Definition next_back (self : Components) := next_back_loop (rounds self) self.

(** [for component in components] *)
Fixpoint collect (fuel : nat) (self : Components) : res never (list (list Z)) :=
  match fuel with
  | O => Hang
  | S fuel =>
      '(o, self) ← next self;
      match o with
      | None => Ok []
      | Some c => cs ← collect fuel self; Ok (c :: cs)
      end
  end.

(** ** [Path] *)
Record Path := { raw : list Z }.

Definition new (path : list Z) : option Path :=
  if starts_with SLASH path then Some {| raw := path |} else None.
Definition new_appended (path : list Z) : Path :=
  if starts_with SLASH path then {| raw := path |} else {| raw := SLASH :: path |}.
Definition from_str (path : list Z) : option Path := new path.

Definition components (self : Path) : Components :=
  {| cpath := raw self; front := 1; back := zlen (raw self) |}.

Definition file_name (self : Path) : res never (option (list Z)) :=
  '(o, _) ← next_back (components self); Ok o.

Definition parent (self : Path) : res never (option Path) :=
  if bool_decide (raw self = [SLASH]) then Ok None else
  let trimmed := trim_end_matches SLASH (raw self) in
  match rfind SLASH trimmed with
  | Some pos =>
      if (pos =? 0)%nat then Ok (Some {| raw := [SLASH] |})
      else r ← slice (raw self) 0 (Z.of_nat pos); Ok (Some {| raw := r |})
  | None => Ok (Some {| raw := [SLASH] |})
  end.

Definition extension (self : Path) : res never (option (list Z)) :=
  o ← file_name self;
  match o with
  | None => Ok None
  | Some name =>
      match rfind DOT name with
      | None => Ok None
      | Some pos =>
          pre ← slice name 0 (Z.of_nat pos);
          if (pos =? 0)%nat || ends_with SLASH pre then Ok None
          else ext ← slice_from name (Z.of_nat pos + 1); Ok (Some ext)
      end
  end.

(** The loop over the components: [stack] is kept in order, last element last. *)
Definition normalize_step (stack : list (list Z)) (component : list Z) : list (list Z) :=
  if bool_decide (component = [DOT]) then stack
  else if bool_decide (component = [DOT; DOT]) then removelast stack
  else stack ++ [component].
Definition push_all (stack : list (list Z)) : list Z :=
  foldl (fun result ic =>
    let '(i, component) := ic in
    (if (0 <? i)%nat then result ++ [SLASH] else result) ++ component) [SLASH] (imap pair stack).
Definition normalize (self : Path) : res never Path :=
  cs ← collect (S (length (raw self))) (components self);
  Ok {| raw := push_all (foldl normalize_step [] cs) |}.

Definition join (self : Path) (other : list Z) : Path :=
  if starts_with SLASH other then {| raw := other |} else
  let result := raw self in
  let result := if ends_with SLASH result then result else result ++ [SLASH] in
  {| raw := result ++ other |}.

(** ** Specification: the non-empty pieces between separators *)
Fixpoint split (s : list Z) : list (list Z) :=
  match s with
  | [] => [[]]
  | c :: s =>
      if c =? SLASH then [] :: split s
      else match split s with w :: ws => (c :: w) :: ws | [] => [[c]] end
  end.
Definition nonempty (w : list Z) : Prop := w <> [].
#[global] Instance nonempty_dec w : Decision (nonempty w).
Proof. unfold nonempty. apply _. Defined.
Definition pieces (s : list Z) : list (list Z) := filter nonempty (split s).
#[global] Arguments pieces : simpl never.
Definition no_slash (s : list Z) : Prop := Forall (fun c => c <> SLASH) s.
Definition absolute (p : Path) : Prop := starts_with SLASH (raw p) = true.

Lemma split_nonnil s : split s <> [].
Proof. destruct s as [|c s]; simpl; [done|]. destruct (c =? SLASH), (split s); done. Qed.
Lemma split_no_slash s : no_slash s -> split s = [s].
Proof.
  induction 1 as [|c s Hc Hs IH]; simpl; [done|]. bfalse (c =? SLASH). by rewrite IH.
Qed.
Lemma split_app a b : split (a ++ SLASH :: b) = split a ++ split b.
Proof.
  induction a as [|c a IH]; simpl; [done|]. rewrite IH.
  destruct (c =? SLASH); [done|]. pose proof (split_nonnil a). by destruct (split a).
Qed.
Lemma pieces_app a b : pieces (a ++ SLASH :: b) = pieces a ++ pieces b.
Proof. unfold pieces. by rewrite split_app, filter_app. Qed.
Lemma pieces_nil : pieces [] = [].
Proof. done. Qed.
Lemma pieces_word w : no_slash w -> w <> [] -> pieces w = [w].
Proof. intros Hw Hn. unfold pieces. rewrite split_no_slash by done. by rewrite filter_cons_True. Qed.
Lemma pieces_slash s : pieces (SLASH :: s) = pieces s.
Proof. apply (pieces_app [] s). Qed.
Lemma pieces_end s : pieces (s ++ [SLASH]) = pieces s.
Proof. rewrite pieces_app, pieces_nil. apply app_nil_r. Qed.
Lemma split_words s : Forall no_slash (split s).
Proof.
  induction s as [|c s IH]; simpl; [by repeat constructor|].
  destruct (c =? SLASH) eqn:E; boom; [by repeat constructor|].
  destruct (split s) as [|w ws]; [by repeat constructor|].
  apply Forall_cons in IH as [Hw Hws]. by repeat constructor.
Qed.
Lemma pieces_words s : Forall (fun w => no_slash w /\ w <> []) (pieces s).
Proof.
  apply Forall_forall. intros w [Hn Hw]%list_elem_of_filter. split; [|done].
  by eapply Forall_forall in Hw; [|apply split_words].
Qed.

(** ** Searching *)
Lemma find_Some c s p : find c s = Some p ->
  s = take p s ++ c :: drop (S p) s /\ Forall (fun x => x <> c) (take p s).
Proof.
  revert p. induction s as [|x s IH]; intros p; simpl; [done|].
  destruct (x =? c) eqn:E; boom.
  - intros [= <-]. subst x. by split; [|constructor].
  - intros H. apply fmap_Some in H as (q & Hq & ->). apply IH in Hq as [Hs Hf]. simpl.
    split; [by f_equal|by constructor].
Qed.
Lemma find_None c s : find c s = None -> Forall (fun x => x <> c) s.
Proof.
  induction s as [|x s IH]; simpl; [by constructor|].
  destruct (x =? c) eqn:E; boom; [done|]. intros H. apply fmap_None in H. constructor; auto.
Qed.
Lemma rfind_None c s : rfind c s = None -> Forall (fun x => x <> c) s.
Proof.
  induction s as [|x s IH]; simpl; [by constructor|].
  destruct (rfind c s); [done|]. destruct (x =? c) eqn:E; boom; [done|]. constructor; auto.
Qed.
Lemma rfind_Some c s p : rfind c s = Some p ->
  s = take p s ++ c :: drop (S p) s /\ Forall (fun x => x <> c) (drop (S p) s).
Proof.
  revert p. induction s as [|x s IH]; intros p; simpl; [done|].
  destruct (rfind c s) as [q|] eqn:Hq.
  - intros [= <-]. destruct (IH q eq_refl) as [Hs Hf]. simpl. split; [by f_equal|done].
  - destruct (x =? c) eqn:E; boom; [|done]. intros [= <-]. subst x. simpl. rewrite drop_0.
    split; [done|by apply rfind_None].
Qed.

(** ** The iterator is a double-ended queue of the pieces left *)
Definition range (self : Components) : list Z :=
  take (Z.to_nat (back self - front self)) (drop (Z.to_nat (front self)) (cpath self)).
Definition left_pieces (self : Components) : list (list Z) := pieces (range self).
Record inv (self : Components) : Prop := {
  inv_front : 0 <= front self;
  inv_back : back self <= zlen (cpath self);
}.

Lemma range_slice self : inv self -> front self < back self ->
  slice (E:=never) (cpath self) (front self) (back self) = Ok (range self).
Proof. intros [? ?] ?. unfold range. by rewrite slice_ok by lia. Qed.
Lemma range_length self : inv self -> length (range self) = Z.to_nat (back self - front self).
Proof. intros [? ?]. unfold range, zlen in *. rewrite length_take, length_drop. lia. Qed.
Lemma range_front self n b : inv self -> (n <= length (range self))%nat -> b = back self ->
  range {| cpath := cpath self; front := front self + Z.of_nat n; back := b |} = drop n (range self).
Proof.
  intros Hi Hn ->. rewrite range_length in Hn by done. destruct Hi as [? ?]. unfold range; cbn.
  replace (Z.to_nat (front self + Z.of_nat n)) with (Z.to_nat (front self) + n)%nat by lia.
  rewrite <- drop_drop, take_drop_commute. do 2 f_equal. lia.
Qed.
Lemma range_back self n : inv self -> (n <= length (range self))%nat ->
  range {| cpath := cpath self; front := front self; back := front self + Z.of_nat n |} = take n (range self).
Proof.
  intros Hi Hn. rewrite range_length in Hn by done. unfold range; cbn. rewrite take_take. f_equal. lia.
Qed.
Lemma range_empty self : back self <= front self -> range self = [].
Proof. intros. unfold range. by replace (Z.to_nat (back self - front self)) with 0%nat by lia. Qed.

Lemma next_loop_ok fuel self : inv self -> (Z.to_nat (back self - front self) < fuel)%nat ->
  exists o self', next_loop fuel self = Ok (o, self') /\ inv self' /\
    match o with
    | None => left_pieces self = [] /\ left_pieces self' = []
    | Some w => left_pieces self = w :: left_pieces self'
    end.
Proof.
  revert self. induction fuel as [|fuel IH]; intros self Hi Hf; [lia|]. cbn [next_loop].
  destruct (front self <? back self) eqn:Hfb; boom.
  2:{ eexists None, self. unfold left_pieces. by rewrite range_empty. }
  rewrite range_slice by done. rsimpl. pose proof (range_length self Hi) as Hl.
  destruct (find SLASH (range self)) as [pos|] eqn:Hfind.
  - apply find_Some in Hfind as [Hs Hw]. assert (pos < length (range self))%nat as Hpos.
    { apply (f_equal length) in Hs. rewrite length_app, length_take in Hs. simpl in Hs. lia. }
    replace (Z.of_nat pos + 1) with (Z.of_nat (S pos)) by lia.
    set (self' := {| cpath := cpath self; front := front self + Z.of_nat (S pos); back := back self |}).
    assert (inv self') as Hi' by (destruct Hi; split; cbn; lia).
    assert (range self' = drop (S pos) (range self)) as Hr by (by apply range_front).
    case_bool_decide as Hc.
    + destruct (IH self') as (o & self'' & -> & Hi'' & Ho); [done|cbn; lia|].
      exists o, self''. split_and!; [done..|]. unfold left_pieces in *. rewrite Hr in Ho.
      rewrite Hs, pieces_app, Hc. by destruct o.
    + eexists _, self'. split_and!; [done..|]. unfold left_pieces. rewrite Hr.
      rewrite Hs at 1. rewrite pieces_app. by rewrite pieces_word.
  - apply find_None in Hfind. case_bool_decide as Hc.
    { apply (f_equal length) in Hc. simpl in Hc. lia. }
    eexists _, _. split_and!; [done|destruct Hi; split; cbn; lia|].
    unfold left_pieces. rewrite (range_empty {| front := back self |}) by (cbn; lia).
    by rewrite pieces_word.
Qed.

Lemma next_back_loop_ok fuel self : inv self -> (Z.to_nat (back self - front self) < fuel)%nat ->
  exists o self', next_back_loop fuel self = Ok (o, self') /\ inv self' /\
    match o with
    | None => left_pieces self = [] /\ left_pieces self' = []
    | Some w => left_pieces self = left_pieces self' ++ [w]
    end.
Proof.
  revert self. induction fuel as [|fuel IH]; intros self Hi Hf; [lia|]. cbn [next_back_loop].
  destruct (front self <? back self) eqn:Hfb; boom.
  2:{ eexists None, self. unfold left_pieces. by rewrite range_empty. }
  rewrite range_slice by done. rsimpl. pose proof (range_length self Hi) as Hl.
  destruct (rfind SLASH (range self)) as [pos|] eqn:Hfind.
  - apply rfind_Some in Hfind as [Hs Hw]. assert (pos < length (range self))%nat as Hpos.
    { apply (f_equal length) in Hs. rewrite length_app, length_take in Hs. simpl in Hs. lia. }
    set (self' := {| cpath := cpath self; front := front self; back := front self + Z.of_nat pos |}).
    assert (inv self') as Hi' by (destruct Hi; split; cbn; lia).
    assert (range self' = take pos (range self)) as Hr by (apply range_back; [done|lia]).
    case_bool_decide as Hc.
    + destruct (IH self') as (o & self'' & -> & Hi'' & Ho); [done|cbn; lia|].
      exists o, self''. split_and!; [done..|]. unfold left_pieces in *. rewrite Hr in Ho.
      rewrite Hs, pieces_app, Hc, pieces_nil, app_nil_r. by destruct o.
    + eexists _, self'. split_and!; [done..|]. unfold left_pieces. rewrite Hr.
      rewrite Hs at 1. rewrite pieces_app. by rewrite (pieces_word (drop _ _)).
  - apply rfind_None in Hfind. case_bool_decide as Hc.
    { apply (f_equal length) in Hc. simpl in Hc. lia. }
    eexists _, _. split_and!; [done|destruct Hi; split; cbn; lia|].
    unfold left_pieces. rewrite (range_empty {| front := front self; back := front self |}) by (cbn; lia).
    by rewrite pieces_word.
Qed.

Lemma next_ok self : inv self -> exists o self', next self = Ok (o, self') /\ inv self' /\
  match o with
  | None => left_pieces self = [] /\ left_pieces self' = []
  | Some w => left_pieces self = w :: left_pieces self'
  end.
Proof. intros. apply next_loop_ok; [done|unfold rounds; lia]. Qed.
Lemma next_back_ok self : inv self -> exists o self', next_back self = Ok (o, self') /\ inv self' /\
  match o with
  | None => left_pieces self = [] /\ left_pieces self' = []
  | Some w => left_pieces self = left_pieces self' ++ [w]
  end.
Proof. intros. apply next_back_loop_ok; [done|unfold rounds; lia]. Qed.

Lemma components_ok p : inv (components p).
Proof. split; cbn; lia. Qed.
Lemma absolute_inv p : absolute p -> exists r, raw p = SLASH :: r.
Proof.
  unfold absolute, starts_with. destruct (raw p) as [|c r]; [done|]. intros Ha. boom. subst c. eauto.
Qed.
Lemma components_pieces p : absolute p -> left_pieces (components p) = pieces (raw p).
Proof.
  intros [r Hr]%absolute_inv. unfold left_pieces, range, components. cbn [cpath front back].
  rewrite Hr, pieces_slash.
  change (drop (Z.to_nat 1) (SLASH :: r)) with r. rewrite take_ge; [done|].
  unfold zlen. simpl. lia.
Qed.
Lemma length_split s : (length (split s) <= S (length s))%nat.
Proof.
  induction s as [|c s IH]; simpl; [lia|].
  destruct (c =? SLASH); simpl; [lia|]. destruct (split s); simpl in *; lia.
Qed.
Lemma length_pieces s : (length (pieces s) <= S (length s))%nat.
Proof. pose proof (length_split s). pose proof (length_filter nonempty (split s)). unfold pieces. lia. Qed.
Lemma collect_ok fuel self : inv self -> (length (left_pieces self) < fuel)%nat ->
  collect fuel self = Ok (left_pieces self).
Proof.
  revert self. induction fuel as [|fuel IH]; intros self Hi Hf; [lia|]. cbn [collect].
  destruct (next_ok self Hi) as (o & self' & -> & Hi' & Ho). rsimpl. destruct o as [w|].
  - rewrite Ho in *. simpl in Hf. rewrite IH by (done || lia). done.
  - destruct Ho as [-> _]. done.
Qed.
Lemma collect_components p : absolute p ->
  collect (S (length (raw p))) (components p) = Ok (pieces (raw p)).
Proof.
  intros Ha. rewrite collect_ok, components_pieces; [done|done|apply components_ok|].
  rewrite components_pieces by done. apply absolute_inv in Ha as [r ->]. rewrite pieces_slash.
  pose proof (length_pieces r). simpl. lia.
Qed.

(** ** [normalize] *)
Definition word (w : list Z) : Prop := no_slash w /\ w <> [].
Lemma pieces_chain w ws : word w -> Forall word ws ->
  pieces (w ++ concat (cons SLASH <$> ws)) = w :: ws.
Proof.
  intros Hw Hws. revert w Hw. induction Hws as [|w' ws Hw' Hws IH]; intros w [Hn Hne]; csimpl.
  - rewrite app_nil_r. by apply pieces_word.
  - rewrite pieces_app, IH by done. by rewrite pieces_word.
Qed.
Lemma push_rest n acc ws :
  foldl (fun result ic => let '(i, component) := ic in
    (if (0 <? i)%nat then result ++ [SLASH] else result) ++ component) acc
    (imap (fun i c => (S (n + i), c)) ws) = acc ++ concat (cons SLASH <$> ws).
Proof.
  revert n acc. induction ws as [|w ws IH]; intros n acc; csimpl; [by rewrite app_nil_r|].
  rewrite (imap_ext _ (fun i c => (S (S n + i), c)))
    by (intros; cbn; do 2 f_equal; lia).
  rewrite IH. by rewrite <- !app_assoc.
Qed.
Lemma push_all_eq stack : push_all stack =
  match stack with [] => [SLASH] | w :: ws => SLASH :: w ++ concat (cons SLASH <$> ws) end.
Proof.
  destruct stack as [|w ws]; [done|]. unfold push_all. cbn [imap foldl].
  rewrite (imap_ext _ (fun i c => (S (0 + i), c))) by done. by rewrite push_rest.
Qed.
Lemma push_all_pieces stack : Forall word stack -> pieces (push_all stack) = stack.
Proof.
  rewrite push_all_eq. destruct 1 as [|w ws Hw Hws]; [done|].
  by rewrite pieces_slash, pieces_chain.
Qed.
Lemma push_all_absolute stack : absolute {| raw := push_all stack |}.
Proof. unfold absolute. cbn. rewrite push_all_eq. by destruct stack. Qed.

Definition plain (w : list Z) : Prop := word w /\ w <> [DOT] /\ w <> [DOT; DOT].
Lemma normalize_step_plain stack w : Forall plain stack -> word w -> Forall plain (normalize_step stack w).
Proof.
  intros Hs Hw. unfold normalize_step. case_bool_decide; [done|]. case_bool_decide.
  - destruct stack as [|x l _] using rev_ind; [done|]. rewrite removelast_last.
    by apply Forall_app in Hs as [? _].
  - apply Forall_app. split; [done|]. by apply Forall_singleton.
Qed.
Lemma resolve_plain cs stack : Forall word cs -> Forall plain stack ->
  Forall plain (foldl normalize_step stack cs).
Proof.
  intros Hc. revert stack. induction Hc; intros stack Hs; cbn; auto using normalize_step_plain.
Qed.
Lemma resolve_fix cs stack : Forall plain cs -> foldl normalize_step stack cs = stack ++ cs.
Proof.
  intros Hc. revert stack. induction Hc as [|c cs (Hc1 & Hc2 & Hc3) Hcs IH]; intros stack; cbn.
  - by rewrite app_nil_r.
  - rewrite IH. unfold normalize_step. by rewrite !bool_decide_eq_false_2, <- app_assoc.
Qed.
Lemma normalize_ok p : absolute p ->
  normalize p = Ok {| raw := push_all (foldl normalize_step [] (pieces (raw p))) |}.
Proof. intros. unfold normalize. by rewrite collect_components. Qed.

(** The components of a normalized path *)
Lemma collect_normalized p : absolute p -> exists q, normalize p = Ok q /\
  collect (S (length (raw q))) (components q) = Ok (foldl normalize_step [] (pieces (raw p))).
Proof.
  intros Ha. eexists. split; [by apply normalize_ok|]. rewrite collect_components by apply push_all_absolute.
  cbn [raw]. rewrite push_all_pieces; [done|].
  eapply Forall_impl; [apply resolve_plain; [apply pieces_words|constructor]|by intros w [? _]].
Qed.

(** ** [parent] *)
Lemma trim_start_spec c s : exists k, s = replicate k c ++ trim_start_matches c s /\
  starts_with c (trim_start_matches c s) = false.
Proof.
  induction s as [|x s (k & Hk & Hs)]; cbn; [by exists 0%nat|].
  destruct (x =? c) eqn:E; boom.
  - subst x. exists (S k). cbn. by rewrite <- Hk.
  - exists 0%nat. cbn. split; [done|lia].
Qed.
Lemma trim_end_spec c s : exists k, s = trim_end_matches c s ++ replicate k c /\
  ends_with c (trim_end_matches c s) = false.
Proof.
  destruct (trim_start_spec c (rev s)) as (k & Hk & Hs). exists k.
  unfold trim_end_matches, ends_with. rewrite rev_involutive. split; [|done].
  apply (f_equal (@rev Z)) in Hk. rewrite rev_involutive, rev_app_distr, (rev_alt (replicate k c)) in Hk.
  change (rev_append (replicate k c) []) with (reverse (replicate k c)) in Hk.
  by rewrite reverse_replicate in Hk.
Qed.
Lemma pieces_trailing s k : pieces (s ++ replicate k SLASH) = pieces s.
Proof.
  induction k as [|k IH]; cbn [replicate]; [by rewrite app_nil_r|].
  rewrite pieces_app. assert (pieces (replicate k SLASH) = []) as ->.
  { clear. induction k; cbn [replicate]; [done|]. by rewrite pieces_slash. }
  apply app_nil_r.
Qed.
Lemma parent_ok p cs c : absolute p -> pieces (raw p) = cs ++ [c] ->
  exists q, parent p = Ok (Some q) /\ absolute q /\ pieces (raw q) = cs.
Proof.
  intros Ha Hp. unfold parent. case_bool_decide as Hr.
  { rewrite Hr in Hp. by destruct cs. }
  destruct (trim_end_spec SLASH (raw p)) as (k & Hk & He).
  set (t := trim_end_matches SLASH (raw p)) in *.
  assert (pieces t = cs ++ [c]) as Ht by (by rewrite <- Hp, Hk, pieces_trailing).
  destruct (rfind SLASH t) as [pos|] eqn:Hf.
  2:{ apply rfind_None in Hf. destruct t as [|x t']; [by destruct cs|].
      apply Forall_cons in Hf as [Hx _]. unfold absolute in Ha. rewrite Hk in Ha. cbn in Ha. lia. }
  apply rfind_Some in Hf as [Hs Hw]. set (w := drop (S pos) t) in *.
  assert (w <> []) as Hne.
  { intros Hw0. unfold ends_with in He. rewrite Hs, Hw0, rev_app_distr in He. done. }
  rewrite Hs, pieces_app, (pieces_word w) in Ht by done. apply app_inj_tail in Ht as [Ht ->].
  destruct (Nat.eqb_spec pos 0) as [->|Hpos].
  { eexists. split_and!; [done|done|]. by rewrite <- Ht. }
  assert (pos < length t)%nat.
  { apply (f_equal length) in Hs. rewrite length_app, length_take in Hs. simpl in Hs. lia. }
  rewrite slice_ok by (rewrite ?Hk; zlen; unfold zlen; lia). rsimpl.
  eexists. split_and!; [done| |]; cbn; rewrite Z.sub_0_r, Nat2Z.id, drop_0.
  - apply absolute_inv in Ha as [r ->]. by destruct pos.
  - rewrite Hk, take_app_le by lia. done.
Qed.

Lemma file_name_ok p : absolute p -> file_name p = Ok (last (pieces (raw p))).
Proof.
  intros Ha. unfold file_name. rewrite <- components_pieces by done.
  destruct (next_back_ok (components p) (components_ok p)) as (o & self' & -> & _ & Ho). rsimpl.
  destruct o as [w|]; [by rewrite Ho, last_snoc|]. by destruct Ho as [-> _].
Qed.
Lemma join_pieces p other : absolute p -> starts_with SLASH other = false ->
  absolute (join p other) /\ pieces (raw (join p other)) = pieces (raw p) ++ pieces other.
Proof.
  intros Ha Ho. unfold join. rewrite Ho. cbn [raw].
  destruct (ends_with SLASH (raw p)) eqn:He.
  - split. { apply absolute_inv in Ha as [r ->]. done. }
    assert (exists r, raw p = r ++ [SLASH]) as [r Hr].
    { unfold ends_with, starts_with in He. destruct (rev (raw p)) as [|c l] eqn:Hrev; [done|]. boom. subst c.
      exists (rev l). rewrite <- (rev_involutive (raw p)), Hrev. done. }
    rewrite Hr, <- app_assoc. cbn [app]. by rewrite pieces_app, pieces_end.
  - split. { apply absolute_inv in Ha as [r ->]. done. }
    rewrite <- app_assoc. cbn [app]. apply pieces_app.
Qed.

(** Reading the iterator from both ends, and what a double-ended queue does *)
Inductive Side := Front | Back.
Fixpoint run_iter (ops : list Side) (self : Components) : res never (list (option (list Z)) * Components) :=
  match ops with
  | [] => Ok ([], self)
  | op :: ops =>
      '(o, self) ← match op with Front => next self | Back => next_back self end;
      '(os, self) ← run_iter ops self;
      Ok (o :: os, self)
  end.
Fixpoint run_deque {A} (ops : list Side) (q : list A) : list (option A) * list A :=
  match ops with
  | [] => ([], q)
  | Front :: ops => let '(os, q') := run_deque ops (tail q) in (head q :: os, q')
  | Back :: ops => let '(os, q') := run_deque ops (removelast q) in (last q :: os, q')
  end.

Lemma run_iter_deque ops self : inv self -> exists self', inv self' /\
  run_iter ops self = Ok (fst (run_deque ops (left_pieces self)), self') /\
  left_pieces self' = snd (run_deque ops (left_pieces self)).
Proof.
  revert self. induction ops as [|[|] ops IH]; intros self Hi; cbn [run_iter run_deque]; [by exists self|..].
  - destruct (next_ok self Hi) as (o & self' & -> & Hi' & Ho). rsimpl.
    destruct (IH self' Hi') as (self'' & Hi'' & -> & Hl). rsimpl.
    assert (o = head (left_pieces self) /\ left_pieces self' = tail (left_pieces self)) as [-> E].
    { destruct o; [by rewrite Ho|]. by destruct Ho as [-> ->]. }
    rewrite E in *. destruct (run_deque ops _). by exists self''.
  - destruct (next_back_ok self Hi) as (o & self' & -> & Hi' & Ho). rsimpl.
    destruct (IH self' Hi') as (self'' & Hi'' & -> & Hl). rsimpl.
    assert (o = last (left_pieces self) /\ left_pieces self' = removelast (left_pieces self)) as [-> E].
    { destruct o; [by rewrite Ho, last_snoc, removelast_last|]. by destruct Ho as [-> ->]. }
    rewrite E in *. destruct (run_deque ops _). by exists self''.
Qed.

(** ** Theorems *)

(** The component iterator of an absolute path refines a double-ended
    queue of the non-empty pieces between separators: any interleaving of
    [next] and [next_back] terminates without panicking and returns exactly
    what popping the two ends of that list returns. *)
Theorem components_refine_deque p ops : absolute p -> exists self',
  run_iter ops (components p) = Ok (fst (run_deque ops (pieces (raw p))), self') /\
  left_pieces self' = snd (run_deque ops (pieces (raw p))).
Proof.
  intros Ha. rewrite <- components_pieces by done.
  destruct (run_iter_deque ops _ (components_ok p)) as (self' & _ & ? & ?). by exists self'.
Qed.

Lemma components_refine_deque_witness : exists self',
  run_iter [Back; Front; Back; Front] (components {| raw := str "/usr//local/bin/" |}) =
    Ok ([Some (str "bin"); Some (str "usr"); Some (str "local"); None], self').
Proof.
  destruct (components_refine_deque {| raw := str "/usr//local/bin/" |} [Back; Front; Back; Front])
    as (self' & H & _); [done|]. exists self'. exact H.
Defined.

(** [file_name] is the last component and [parent] an absolute path with
    all the others (so parent and file name split a path without loss); the
    root has neither. *)
Theorem parent_and_file_name p cs c : absolute p -> pieces (raw p) = cs ++ [c] ->
  file_name p = Ok (Some c) /\
  exists q, parent p = Ok (Some q) /\ absolute q /\ pieces (raw q) = cs /\
    pieces (raw (join q c)) = pieces (raw p).
Proof.
  intros Ha Hp. rewrite file_name_ok, Hp, last_snoc by done. split; [done|].
  destruct (parent_ok p cs c Ha Hp) as (q & Hq & Haq & Hc). exists q. split_and!; [done..|].
  pose proof (pieces_words (raw p)) as Hw. rewrite Hp in Hw. apply Forall_app in Hw as [_ Hw].
  apply Forall_singleton in Hw as [Hn Hne].
  destruct (join_pieces q c Haq) as [_ ->].
  - destruct c as [|x c]; [done|]. apply Forall_cons in Hn as [Hx _]. cbn. lia.
  - by rewrite Hc, (pieces_word c).
Qed.

Lemma parent_and_file_name_witness : file_name {| raw := str "/usr//bin/rustc/" |} = Ok (Some (str "rustc")) /\
  exists q, parent {| raw := str "/usr//bin/rustc/" |} = Ok (Some q) /\
    pieces (raw q) = [str "usr"; str "bin"].
Proof.
  destruct (parent_and_file_name {| raw := str "/usr//bin/rustc/" |} [str "usr"; str "bin"] (str "rustc"))
    as (Hf & q & Hq & _ & Hc & _); [done|by vm_compute|]. split; [exact Hf|]. exists q. by split.
Defined.

(** [normalize] resolves every ["."] and [".."] of an absolute path: the
    result is absolute, its components are the resolved list, none of them is
    ["."], [".."], empty or contains a separator, and normalizing again
    changes nothing. *)
Theorem normalize_resolves p : absolute p -> exists q, normalize p = Ok q /\ absolute q /\
  pieces (raw q) = foldl normalize_step [] (pieces (raw p)) /\ Forall plain (pieces (raw q)) /\
  normalize q = Ok q.
Proof.
  intros Ha. set (stack := foldl normalize_step [] (pieces (raw p))).
  assert (Forall plain stack) as Hs by (apply resolve_plain; [apply pieces_words|constructor]).
  assert (pieces (push_all stack) = stack) as Hp
    by (apply push_all_pieces; eapply Forall_impl; [exact Hs|by intros w [? _]]).
  exists {| raw := push_all stack |}. split_and!.
  - by apply normalize_ok.
  - apply push_all_absolute.
  - exact Hp.
  - cbn [raw]. by rewrite Hp.
  - rewrite normalize_ok by apply push_all_absolute. cbn [raw]. rewrite Hp, resolve_fix by done. done.
Qed.

Lemma normalize_resolves_witness :
  normalize {| raw := str "/usr/./local/..//bin/.." |} = Ok {| raw := str "/usr" |} /\
  normalize {| raw := str "/usr" |} = Ok {| raw := str "/usr" |}.
Proof.
  destruct (normalize_resolves {| raw := str "/usr/./local/..//bin/.." |}) as (q & Hq & _ & _ & _ & Hn); [done|].
  vm_compute in Hq. injection Hq as <-. split; [by vm_compute|exact Hn].
Defined.
