(* ===== verification/Memory.v ===== *)
(** * Physical memory

    src/kernel/src/arch/x86_64/memory: the memory map (memmap.rs), the bitmap
    of page frames (bitmap.rs), its layout at boot (mod.rs) and the frame
    allocator (frame_allocator.rs).

    The memory map comes from the boot loader and is an argument.  The bitmap
    lives at a raw address; the model keeps its bytes in the record.  A frame
    is its physical start address.

    Shown here: [fill] marks free exactly the pages of usable entries; after
    [init] the bitmap and the kernel heap are marked used and lie in usable
    memory; both allocation routines are sound and complete (they return
    frames that were free, mark exactly those, and fail only when no frame or
    no run of the requested length is free); and no sequence of allocations
    and frees hands out a frame that is still in use. *)

From S2P Require Import Prelude Bytes.

Definition PAGE_SIZE : Z := 4096.
Definition BYTE_SIZE : Z := 8.
Definition KHEAP_PAGE_COUNT : Z := 128.
Definition STACK_PAGE_SIZE : Z := 5.

(** ** memmap.rs *)
Inductive EntryType :=
| USABLE | RESERVED | ACPI_RECLAIMABLE | ACPI_NVS | BAD_MEMORY
| BOOTLOADER_RECLAIMABLE | EXECUTABLE_AND_MODULES | FRAMEBUFFER.
Inductive MemmapEntryType :=
| Usable | Reserved | ACPIReclaim | ACPINVS | BadMem | BootReclaim | Framebuffer.
#[global] Instance EntryType_eq_dec : EqDecision EntryType.
Proof. solve_decision. Defined.
#[global] Instance MemmapEntryType_eq_dec : EqDecision MemmapEntryType.
Proof. solve_decision. Defined.

Record Entry := { base : Z; elength : Z; entry_type : EntryType }.

Definition from_entry (ty : EntryType) : MemmapEntryType :=
  match ty with
  | USABLE => Usable
  | RESERVED => Reserved
  | ACPI_RECLAIMABLE => ACPIReclaim
  | ACPI_NVS => ACPINVS
  | BAD_MEMORY => BadMem
  | BOOTLOADER_RECLAIMABLE => BootReclaim
  | FRAMEBUFFER => Framebuffer
  | _ => BadMem
  end.

Section build.
Context `{Build}.

Definition sum_memmap (entries : list Entry) : res never (Z * Z) :=
  rfor (imap pair entries) (0, 0) (fun ie st =>
    let '(index, entry) := ie in
    let '(total_memory, total_memory_usable) := st in
    total_memory_usable ←
      (if bool_decide (from_entry (entry_type entry) = Usable)
       then uadd 64 total_memory_usable (elength entry) else Ok total_memory_usable);
    if negb (bool_decide (from_entry (entry_type entry) = Usable))
       && (length entries - 1 <=? index)%nat
    then Ok (total_memory, total_memory_usable)
    else total_memory ← uadd 64 total_memory (elength entry);
         Ok (total_memory, total_memory_usable)).
Definition count_mem_usable (memmap : list Entry) : res never Z :=
  '(_, r) ← sum_memmap memmap; Ok r.
Definition count_mem (memmap : list Entry) : res never Z :=
  '(r, _) ← sum_memmap memmap; Ok r.

(** ** bitmap.rs *)
(** The bytes at [start] are [mem]. *)
Record BitMap := { start : Z; blength : Z; page_length : Z; mem : list Z }.

(** [a..b] *)
Definition range (a b : Z) : list Z := seqZ a (b - a).

Fixpoint strip_loop (memmap : list Entry) (idxs : list Z) (len : Z) : res never Z :=
  match idxs with
  | [] => Ok len
  | i :: idxs =>
      e ← index memmap i;
      if bool_decide (entry_type e = USABLE) then Ok len else strip_loop memmap idxs i
  end.
Definition get_memmap_length_usable (memmap : list Entry) : res never (list Entry * Z) :=
  last ← usub 64 (zlen memmap) 1;
  len ← strip_loop memmap (range last 0) (zlen memmap);
  Ok (memmap, len).

Definition get_highest_physical_memory_usable (memmap : list Entry) : res never Z :=
  '(memmap, len) ← get_memmap_length_usable memmap;
  i ← usub 64 len 1;
  e ← index memmap i;
  uadd 64 (base e) (elength e).

Definition set_used_by_address (self : BitMap) (addr page_count : Z) : res never BitMap :=
  let base := addr / PAGE_SIZE in
  m ← rfor (range 0 page_count) (mem self) (fun i m => idx ← uadd 64 base i; bit_set m idx);
  Ok {| start := start self; blength := blength self; page_length := page_length self; mem := m |}.
Definition set_unused_by_address (self : BitMap) (addr page_count : Z) : res never BitMap :=
  let base := addr / PAGE_SIZE in
  m ← rfor (range 0 page_count) (mem self) (fun i m => idx ← uadd 64 base i; bit_clear m idx);
  Ok {| start := start self; blength := blength self; page_length := page_length self; mem := m |}.

Definition fill (memmap : list Entry) (self : BitMap) : res never BitMap :=
  '(memmap, len) ← get_memmap_length_usable memmap;
  let self := {| start := start self; blength := blength self; page_length := page_length self;
                 mem := replicate (length (mem self)) 0xFF |} in
  es ← slice memmap 0 len;
  rfor (filter (fun e => entry_type e = USABLE) es) self (fun e self =>
    set_unused_by_address self (base e) (elength e / PAGE_SIZE)).

(** ** mod.rs *)
Record MemoryMappings := { bit_map : BitMap; kheap_start : Z }.

Definition div_ceil (a b : Z) : Z := if a mod b =? 0 then a / b else a / b + 1.

(** [ram a n] is the [n] bytes of memory found at address [a] at boot. *)
Definition init (memmap : list Entry) (hhdm_offset : Z) (ram : Z -> nat -> list Z) :
    res never MemoryMappings :=
  highest ← get_highest_physical_memory_usable memmap;
  let frame_count := highest / PAGE_SIZE in
  let bitmap_length := div_ceil frame_count BYTE_SIZE in
  let bitmap_page_length := div_ceil bitmap_length PAGE_SIZE in
  need ← umul 64 (bitmap_page_length + KHEAP_PAGE_COUNT + STACK_PAGE_SIZE) PAGE_SIZE;
  entry ← expect (head (filter (fun r => need < elength r)
    (filter (fun r => entry_type r = USABLE) memmap)));
  bitmap_start ← uadd 64 (base entry) hhdm_offset;
  let bit_map := {| start := bitmap_start; blength := bitmap_length;
                    page_length := bitmap_page_length;
                    mem := ram bitmap_start (Z.to_nat bitmap_length) |} in
  kheap_start ← uadd 64 bitmap_start (bitmap_page_length * PAGE_SIZE);
  bit_map ← fill memmap bit_map;
  addr ← usub 64 bitmap_start hhdm_offset;
  bit_map ← set_used_by_address bit_map addr (bitmap_page_length + KHEAP_PAGE_COUNT);
  Ok {| bit_map := bit_map; kheap_start := kheap_start |}.

(** ** frame_allocator.rs *)
Record BitmapAllocator := { bitmap : BitMap; next : Z }.

Definition set_mem (b : BitMap) (m : list Z) : BitMap :=
  {| start := start b; blength := blength b; page_length := page_length b; mem := m |}.

(** [PhysAddr::new] panics on an address of more than 52 bits. *)
Definition phys_addr (a : Z) : res never Z := if a <? 2 ^ 52 then Ok a else Panic.

Definition push_context (context : option (list Z)) (frame : Z) : option (list Z) :=
  (fun v => v ++ [frame]) <$> context.

Definition free_frames (self : BitmapAllocator) (frames : list Z) : res never BitmapAllocator :=
  m ← rfor frames (mem (bitmap self)) (fun frame m => bit_clear m (frame / PAGE_SIZE));
  Ok {| bitmap := set_mem (bitmap self) m; next := next self |}.

Fixpoint alloc_scan (offsets : list Z) (total_bits : Z) (self : BitmapAllocator)
    (context : option (list Z)) : res never (option Z * BitmapAllocator * option (list Z)) :=
  match offsets with
  | [] => Ok (None, self, context)
  | offset :: offsets =>
      s ← uadd 64 (next self) offset;
      i ← urem s total_bits;
      b ← index (mem (bitmap self)) (i / 8);
      if (i mod 8 =? 0) && (b =? 0xff) then alloc_scan offsets total_bits self context else
      used ← bit_test (mem (bitmap self)) i;
      if (used : bool) then alloc_scan offsets total_bits self context else
      m ← bit_set (mem (bitmap self)) i;
      next' ← urem (i + 1) total_bits;
      r ← phys_addr (i * 4096);
      Ok (Some r, {| bitmap := set_mem (bitmap self) m; next := next' |}, push_context context r)
  end.
Definition allocate_frame (self : BitmapAllocator) (context : option (list Z)) :
    res never (option Z * BitmapAllocator * option (list Z)) :=
  total_bits ← umul 64 (blength (bitmap self)) 8;
  alloc_scan (range 0 total_bits) total_bits self context.

(** The inner loop of [allocate_continuous_frames], over the run it found *)
Definition take_run (indices : list Z) (total_bits : Z) (self : BitmapAllocator)
    (context : option (list Z)) : res never (list Z * BitmapAllocator * option (list Z)) :=
  rfor indices ([], self, context) (fun i st =>
    let '(result, self, context) := st in
    m ← bit_set (mem (bitmap self)) i;
    next' ← urem (i + 1) total_bits;
    r ← phys_addr (i * 4096);
    Ok (result ++ [r], {| bitmap := set_mem (bitmap self) m; next := next' |}, push_context context r)).
Fixpoint run_scan (offsets : list Z) (total_bits len : Z) (indices : list Z) (self : BitmapAllocator)
    (context : option (list Z)) : res never (option (list Z) * BitmapAllocator * option (list Z)) :=
  match offsets with
  | [] => Ok (None, self, context)
  | offset :: offsets =>
      i ← urem offset total_bits;
      b ← index (mem (bitmap self)) (i / 8);
      if (i mod 8 =? 0) && (b =? 0xff) then run_scan offsets total_bits len [] self context else
      used ← bit_test (mem (bitmap self)) i;
      let indices := if (used : bool) then [] else indices ++ [i] in
      if zlen indices =? len then
        '(result, self, context) ← take_run indices total_bits self context;
        Ok (Some result, self, context)
      else run_scan offsets total_bits len indices self context
  end.
Definition allocate_continuous_frames (self : BitmapAllocator) (context : option (list Z)) (len : Z) :
    res never (option (list Z) * BitmapAllocator * option (list Z)) :=
  total_bits ← umul 64 (blength (bitmap self)) 8;
  run_scan (range 0 total_bits) total_bits len [] self context.
End build.

(** ** Marking bits *)
Definition flipped (b : bool) (idxs : list Z) (m m' : list Z) : Prop :=
  length m' = length m /\ bytes m' /\
  forall j, 0 <= j -> bit_at m' j = if bool_decide (j ∈ idxs) then b else bit_at m j.

Lemma flipped_zlen b idxs m m' : flipped b idxs m m' -> zlen m' = zlen m.
Proof. intros [Hl _]. unfold zlen. by rewrite Hl. Qed.
Lemma flipped_nil b m : bytes m -> flipped b [] m m.
Proof. intros. split_and!; [done..|]. intros j _. by rewrite bool_decide_eq_false_2 by apply not_elem_of_nil. Qed.
Lemma flipped_snoc b idxs i m m' m'' : flipped b idxs m m' -> flipped b [i] m' m'' ->
  flipped b (idxs ++ [i]) m m''.
Proof.
  intros (L1 & B1 & F1) (L2 & B2 & F2). split_and!; [congruence|done|]. intros j Hj.
  rewrite F2, F1 by done. rewrite (bool_decide_ext (j ∈ idxs ++ [i]) (j ∈ idxs \/ j ∈ [i])) by apply elem_of_app.
  repeat case_bool_decide; tauto.
Qed.
Lemma bit_set_flipped m i : 0 <= i < 8 * zlen m -> bytes m ->
  exists m', bit_set (E:=never) m i = Ok m' /\ flipped true [i] m m'.
Proof.
  intros Hi Hb. destruct (bit_set_spec (E:=never) m i Hi Hb) as (m' & ? & ? & ? & Hj).
  exists m'. split; [done|]. split_and!; [done..|]. intros j Hj0. rewrite Hj by done.
  destruct (Z.eqb_spec i j) as [->|]; case_bool_decide; rewrite ?list_elem_of_singleton in *; done || congruence.
Qed.
Lemma bit_clear_flipped m i : 0 <= i < 8 * zlen m -> bytes m ->
  exists m', bit_clear (E:=never) m i = Ok m' /\ flipped false [i] m m'.
Proof.
  intros Hi Hb. destruct (bit_clear_spec (E:=never) m i Hi Hb) as (m' & ? & ? & ? & Hj).
  exists m'. split; [done|]. split_and!; [done..|]. intros j Hj0. rewrite Hj by done.
  destruct (Z.eqb_spec i j) as [->|]; case_bool_decide; rewrite ?list_elem_of_singleton in *; done || congruence.
Qed.

Section marking.
Context `{Build}.

(** The loops of [set_used_by_address] and [set_unused_by_address] *)
Lemma mark_pages (b : bool) m p n : bytes m -> 0 <= p -> p + Z.of_nat n <= 8 * zlen m -> 8 * zlen m <= 2 ^ 64 ->
  exists m', rfor (E:=never) (range 0 (Z.of_nat n)) m (fun i m => idx ← uadd 64 p i;
      if b then bit_set m idx else bit_clear m idx) = Ok m' /\
    flipped b (seqZ p (Z.of_nat n)) m m'.
Proof.
  intros Hb Hp. unfold range. rewrite Z.sub_0_r. induction n as [|n IH]; intros Hn H64.
  { exists m. split; [done|]. by apply flipped_nil. }
  destruct IH as (m1 & Hf & Hm1); [lia|done|].
  rewrite Nat2Z.inj_succ, <- Z.add_1_r, !seqZ_app, rfor_app, Hf by lia. rsimpl.
  change (seqZ (0 + Z.of_nat n) 1) with [0 + Z.of_nat n]. rewrite Z.add_0_l. cbn [rfor].
  rewrite uadd_ok by lia. rsimpl. pose proof (flipped_zlen _ _ _ _ Hm1). destruct Hm1 as (? & ? & ?).
  change (seqZ (p + Z.of_nat n) 1) with [p + Z.of_nat n].
  destruct b.
  - destruct (bit_set_flipped m1 (p + Z.of_nat n)) as (m2 & -> & ?); [lia|done|]. exists m2.
    split; [done|]. by apply flipped_snoc with m1.
  - destruct (bit_clear_flipped m1 (p + Z.of_nat n)) as (m2 & -> & ?); [lia|done|]. exists m2.
    split; [done|]. by apply flipped_snoc with m1.
Qed.

Record wf_map (self : BitMap) : Prop := {
  wf_len : blength self = zlen (mem self);
  wf_bytes : bytes (mem self);
  wf_size : 8 * blength self * PAGE_SIZE <= 2 ^ 52;
}.

Lemma wf_map_flipped self b idxs m' : wf_map self -> flipped b idxs (mem self) m' ->
  wf_map (set_mem self m').
Proof.
  intros [H1 H2 H3] Hf. pose proof (flipped_zlen _ _ _ _ Hf). destruct Hf as (_ & ? & _).
  split; cbn; [congruence|done|done].
Qed.

Definition page_of (addr : Z) : Z := addr / PAGE_SIZE.
Definition pages (addr count : Z) : list Z := seqZ (page_of addr) count.

Lemma set_unused_ok self addr n : wf_map self -> 0 <= addr -> 0 <= n -> page_of addr + n <= 8 * blength self ->
  exists m', set_unused_by_address self addr n = Ok (set_mem self m') /\
    flipped false (pages addr n) (mem self) m'.
Proof.
  intros [H1 H2 H3] Ha Hn Hr. unfold set_unused_by_address, pages, page_of, PAGE_SIZE in *.
  destruct (mark_pages false (mem self) (addr / 4096) (Z.to_nat n)) as (m' & Hf & Hm);
    [done|apply Z.div_pos; lia|lia|lia|].
  rewrite Z2Nat.id in * by lia. rewrite Hf. by exists m'.
Qed.
Lemma set_used_ok self addr n : wf_map self -> 0 <= addr -> 0 <= n -> page_of addr + n <= 8 * blength self ->
  exists m', set_used_by_address self addr n = Ok (set_mem self m') /\
    flipped true (pages addr n) (mem self) m'.
Proof.
  intros [H1 H2 H3] Ha Hn Hr. unfold set_used_by_address, pages, page_of, PAGE_SIZE in *.
  destruct (mark_pages true (mem self) (addr / 4096) (Z.to_nat n)) as (m' & Hf & Hm);
    [done|apply Z.div_pos; lia|lia|lia|].
  rewrite Z2Nat.id in * by lia. rewrite Hf. by exists m'.
Qed.

(** ** The memory map *)
Definition top (memmap : list Entry) : Z :=
  match last memmap with Some e => base e + elength e | None => 0 end.
(** What the boot protocol guarantees: at least one entry, sorted so that the
    last one ends highest, all inside the physical address space. *)
Record memmap_ok (memmap : list Entry) : Prop := {
  mm_nonempty : memmap <> [];
  mm_entries : Forall (fun e => 0 <= base e /\ 0 <= elength e /\ base e + elength e <= top memmap) memmap;
  mm_top : top memmap <= 2 ^ 51;
  mm_len : zlen memmap < 2 ^ 32;
}.

Lemma memmap_length memmap : memmap_ok memmap ->
  get_memmap_length_usable memmap = Ok (memmap, zlen memmap).
Proof.
  intros [Hne _ _ Hl]. unfold get_memmap_length_usable.
  assert (0 < zlen memmap) by (destruct memmap; [done|unfold zlen; simpl; lia]).
  rewrite usub_ok by lia. rsimpl. unfold range.
  assert (seqZ (zlen memmap - 1) (0 - (zlen memmap - 1)) = []) as ->; [|done].
  apply seqZ_nil. lia.
Qed.
Lemma highest_ok memmap : memmap_ok memmap -> get_highest_physical_memory_usable memmap = Ok (top memmap).
Proof.
  intros Hm. unfold get_highest_physical_memory_usable. rewrite memmap_length by done. rsimpl.
  destruct Hm as [Hne He Ht Hl]. destruct memmap as [|e es _] using rev_ind; [done|].
  unfold top in *. rewrite last_snoc in Ht |- *. apply Forall_app in He as [_ He]. rewrite Forall_singleton in He.
  assert (zlen (es ++ [e]) = zlen es + 1) as Hz by (zlen; lia). pose proof (zlen_nonneg es).
  rewrite usub_ok by lia. rsimpl.
  rewrite (index_ok _ _ e); [|lia|].
  - rsimpl. rewrite uadd_ok by lia. done.
  - replace (Z.to_nat _) with (length es) by (rewrite Hz; unfold zlen; lia). by rewrite list_lookup_middle.
Qed.

Definition in_entry (j : Z) (e : Entry) : bool :=
  bool_decide (j ∈ pages (base e) (elength e / PAGE_SIZE)).
Definition usable_page (memmap : list Entry) (j : Z) : bool :=
  existsb (in_entry j) (filter (fun e => entry_type e = USABLE) memmap).

Lemma set_mem_set_mem self m m' : set_mem (set_mem self m) m' = set_mem self m'.
Proof. done. Qed.
Lemma set_mem_id self : set_mem self (mem self) = self.
Proof. by destruct self. Qed.

Lemma fill_loop es self : wf_map self ->
  Forall (fun e => 0 <= base e /\ 0 <= elength e /\ (base e + elength e) / PAGE_SIZE <= 8 * blength self) es ->
  exists m', rfor es self (fun e self => set_unused_by_address self (base e) (elength e / PAGE_SIZE)) =
      Ok (set_mem self m') /\ length m' = length (mem self) /\ bytes m' /\
    forall j, 0 <= j -> bit_at m' j = if existsb (in_entry j) es then false else bit_at (mem self) j.
Proof.
  intros Hwf He. revert self Hwf He. induction es as [|e es IH]; intros self Hwf He; cbn [rfor].
  { exists (mem self). rewrite set_mem_id. by destruct Hwf. }
  apply Forall_cons in He as [(Hb & Hl & Ht) He].
  destruct (set_unused_ok self (base e) (elength e / PAGE_SIZE)) as (m1 & -> & Hm1); [done|done| | |].
  { apply Z.div_pos; [done|unfold PAGE_SIZE; lia]. }
  { unfold page_of, PAGE_SIZE in *. pose proof (Z.div_mod (base e) 4096). pose proof (Z.div_mod (elength e) 4096).
    pose proof (Z.mod_pos_bound (base e) 4096). pose proof (Z.mod_pos_bound (elength e) 4096).
    etrans; [|exact Ht]. apply Z.div_le_lower_bound; lia. }
  rsimpl. destruct (IH (set_mem self m1)) as (m2 & -> & L2 & B2 & F2);
    [by eapply wf_map_flipped|done|].
  destruct Hm1 as (L1 & B1 & F1). exists m2. split_and!; [done|cbn in *; congruence|done|].
  intros j Hj. rewrite F2 by done. cbn [existsb]. unfold in_entry at 2. cbn. rewrite F1 by done.
  destruct (existsb (in_entry j) es), (bool_decide _); done.
Qed.

Lemma bit_at_ff n j : 0 <= j < 8 * Z.of_nat n -> bit_at (replicate n 0xFF) j = true.
Proof.
  intros Hj. unfold bit_at. rewrite lookup_replicate_2.
  2:{ pose proof (Z.div_mod j 8). pose proof (Z.mod_pos_bound j 8). lia. }
  cbn. change 0xFF with (Z.ones 8). apply Z.ones_spec_low. pose proof (Z.mod_pos_bound j 8). lia.
Qed.

Lemma fill_ok memmap self : memmap_ok memmap -> blength self = zlen (mem self) ->
  8 * blength self * PAGE_SIZE <= 2 ^ 52 -> top memmap / PAGE_SIZE <= 8 * blength self ->
  exists m', fill memmap self = Ok (set_mem self m') /\ length m' = length (mem self) /\ bytes m' /\
    forall j, 0 <= j < 8 * blength self -> bit_at m' j = negb (usable_page memmap j).
Proof.
  intros Hm Hl Hs Ht. unfold fill. rewrite memmap_length by done. rsimpl.
  rewrite slice_ok by (pose proof (zlen_nonneg memmap); lia). rsimpl.
  rewrite Z.sub_0_r, drop_0, take_ge by (unfold zlen; lia).
  destruct Hm as [_ He _ _].
  destruct (fill_loop (filter (fun e => entry_type e = USABLE) memmap)
    (set_mem self (replicate (length (mem self)) 0xFF))) as (m' & Hf & L & B & F).
  - split; cbn; [rewrite Hl; unfold zlen; by rewrite length_replicate| |done].
    apply Forall_replicate. done.
  - apply Forall_forall. intros e [_ Hin]%list_elem_of_filter.
    eapply Forall_forall in He as (H1 & H2 & H3); [|exact Hin]. split_and!; [done..|].
    etrans; [|exact Ht]. apply Z.div_le_mono; [unfold PAGE_SIZE; lia|done].
  - exists m'. rewrite set_mem_set_mem in Hf. split_and!; [exact Hf|cbn in L; by rewrite length_replicate in L|done|].
    intros j Hj. rewrite F by lia. cbn. rewrite bit_at_ff by (rewrite Hl in Hj; unfold zlen in Hj; lia).
    unfold usable_page. by destruct (existsb _ _).
Qed.

(** ** Boot *)
Lemma div_ceil_spec a b : 0 <= a -> 0 < b -> a <= div_ceil a b * b < a + b.
Proof.
  intros Ha Hb. unfold div_ceil. pose proof (Z.div_mod a b). pose proof (Z.mod_pos_bound a b).
  destruct (a mod b =? 0) eqn:E; boom; nia.
Qed.

(** What [init] decides from the memory map *)
Definition frame_count_of (memmap : list Entry) : Z := top memmap / PAGE_SIZE.
Definition bitmap_length_of (memmap : list Entry) : Z := div_ceil (frame_count_of memmap) BYTE_SIZE.
Definition bitmap_pages_of (memmap : list Entry) : Z := div_ceil (bitmap_length_of memmap) PAGE_SIZE.
Definition region_of (memmap : list Entry) : option Entry :=
  head (filter (fun r => (bitmap_pages_of memmap + KHEAP_PAGE_COUNT + STACK_PAGE_SIZE) * PAGE_SIZE < elength r)
    (filter (fun r => entry_type r = USABLE) memmap)).

Lemma region_of_spec memmap e : region_of memmap = Some e -> e ∈ memmap /\ entry_type e = USABLE /\
  (bitmap_pages_of memmap + KHEAP_PAGE_COUNT + STACK_PAGE_SIZE) * PAGE_SIZE < elength e.
Proof.
  unfold region_of. intros Hh. apply head_Some_elem_of in Hh.
  apply list_elem_of_filter in Hh as [Hn [Hu Hin]%list_elem_of_filter]. done.
Qed.
Lemma bitmap_length_bounds memmap : memmap_ok memmap ->
  0 <= bitmap_length_of memmap /\ frame_count_of memmap <= 8 * bitmap_length_of memmap /\
  8 * bitmap_length_of memmap * PAGE_SIZE <= 2 ^ 52 /\ 0 <= bitmap_pages_of memmap <= 2 ^ 40.
Proof.
  intros [Hne He Ht _].
  assert (0 <= top memmap).
  { destruct memmap as [|e es]; [done|]. apply Forall_cons in He as [? _]. lia. }
  unfold bitmap_pages_of, bitmap_length_of, frame_count_of, BYTE_SIZE, PAGE_SIZE in *.
  assert (0 <= top memmap / 4096 <= 2 ^ 39) as Hf
    by (split; [apply Z.div_pos; lia|apply Z.div_le_upper_bound; lia]).
  pose proof (div_ceil_spec (top memmap / 4096) 8 ltac:(lia) ltac:(lia)) as H8.
  pose proof (div_ceil_spec (div_ceil (top memmap / 4096) 8) 4096 ltac:(lia) ltac:(lia)). lia.
Qed.

Lemma init_ok memmap hhdm ram e : memmap_ok memmap -> 0 <= hhdm < 2 ^ 63 ->
  (forall a n, length (ram a n) = n) -> region_of memmap = Some e ->
  exists mm, init memmap hhdm ram = Ok mm /\ wf_map (bit_map mm) /\
    start (bit_map mm) = base e + hhdm /\ blength (bit_map mm) = bitmap_length_of memmap /\
    kheap_start mm = start (bit_map mm) + bitmap_pages_of memmap * PAGE_SIZE /\
    forall j, 0 <= j < 8 * blength (bit_map mm) ->
      bit_at (mem (bit_map mm)) j = bool_decide (j ∈ pages (base e) (bitmap_pages_of memmap + KHEAP_PAGE_COUNT))
        || negb (usable_page memmap j).
Proof.
  intros Hm Hh Hram Hreg. destruct (region_of_spec _ _ Hreg) as (Hin & Hu & Hneed).
  destruct (bitmap_length_bounds _ Hm) as (HL & HF & HS & HP).
  pose proof Hm as [_ He Ht _]. eapply Forall_forall in He as (Hb0 & Hl0 & Htop); [|exact Hin].
  unfold init. rewrite highest_ok by done. rsimpl.
  fold (frame_count_of memmap). fold (bitmap_length_of memmap). fold (bitmap_pages_of memmap).
  unfold KHEAP_PAGE_COUNT, STACK_PAGE_SIZE in *. rewrite umul_ok by (unfold PAGE_SIZE; lia). rsimpl.
  fold (region_of memmap). unfold KHEAP_PAGE_COUNT, STACK_PAGE_SIZE in *.
  change (head (filter _ (filter _ memmap))) with (region_of memmap). rewrite Hreg. cbn [expect]. rsimpl.
  unfold PAGE_SIZE in *. rewrite (uadd_ok 64 (base e)) by lia. rsimpl.
  rewrite uadd_ok by lia. rsimpl.
  set (bm0 := {| start := _; blength := _; page_length := _; mem := _ |}).
  destruct (fill_ok memmap bm0) as (m1 & -> & L1 & B1 & F1); [done| |exact HS|exact HF|].
  { cbn. unfold zlen. rewrite Hram, Z2Nat.id; lia. }
  rsimpl. rewrite usub_ok by lia. rsimpl.
  assert (wf_map (set_mem bm0 m1)) as Hwf.
  { split; cbn; [|done|exact HS]. unfold zlen. rewrite L1. cbn. rewrite Hram, Z2Nat.id; lia. }
  destruct (set_used_ok (set_mem bm0 m1) (base e + hhdm - hhdm) (bitmap_pages_of memmap + 128))
    as (m2 & -> & Hm2); [done|lia|lia| |].
  { cbn. replace (base e + hhdm - hhdm) with (base e) by lia. etrans; [|exact HF].
    unfold page_of, frame_count_of, PAGE_SIZE. apply Z.div_le_lower_bound; [lia|].
    pose proof (Z.mul_div_le (base e) 4096). lia. }
  rsimpl. eexists. split_and!; [reflexivity|by eapply wf_map_flipped|done|done|done|].
  cbn. intros j Hj. replace (base e + hhdm - hhdm) with (base e) in Hm2 by lia.
  destruct Hm2 as (_ & _ & F2). rewrite F2 by lia. cbn. rewrite F1 by done. by destruct (bool_decide _).
Qed.
End marking.

(** ** The allocator *)
Section allocator.
Context `{Build}.

Definition total (self : BitmapAllocator) : Z := 8 * blength (bitmap self).
Definition used (self : BitmapAllocator) (i : Z) : bool := bit_at (mem (bitmap self)) i.
Record wf (self : BitmapAllocator) : Prop := {
  wf_bitmap : wf_map (bitmap self);
  wf_next : 0 <= next self <= total self;
}.

Lemma total_small self : wf self -> 0 <= total self <= 2 ^ 40.
Proof.
  intros [[Hl _ Hs] _]. unfold total, PAGE_SIZE in *. pose proof (zlen_nonneg (mem (bitmap self))). lia.
Qed.

(** The shortcut on full bytes only skips a bit that is set. *)
Lemma full_byte m i b : 0 <= i -> index (E:=never) m (i / 8) = Ok b -> (i mod 8 =? 0) && (b =? 0xff) = true ->
  bit_at m i = true.
Proof.
  intros Hi Hb Hc. boom. subst b. apply index_inv in Hb as [_ Hb]. unfold bit_at. rewrite Hb. cbn.
  by replace (i mod 8) with 0 by lia.
Qed.

Definition mark (self : BitmapAllocator) (m : list Z) (i : Z) : BitmapAllocator :=
  {| bitmap := set_mem (bitmap self) m; next := (i + 1) mod total self |}.

Lemma mark_wf self m i : wf self -> 0 <= i < total self -> flipped true [i] (mem (bitmap self)) m ->
  wf (mark self m i).
Proof.
  intros [Hm Hn] Hi Hf. split; [by eapply wf_map_flipped|]. cbn. unfold total in *. cbn.
  pose proof (Z.mod_pos_bound (i + 1) (8 * blength (bitmap self))). lia.
Qed.

(** What scanning the bits [next + o] for [o] in [offsets] does: nothing if all
    are set, otherwise it takes the first one that is not. *)
Definition slot (self : BitmapAllocator) (o : Z) : Z := (next self + o) mod total self.
Definition all_used (self : BitmapAllocator) (offsets : list Z) : Prop :=
  Forall (fun o => used self (slot self o) = true) offsets.
Definition scan_post (self : BitmapAllocator) (context : option (list Z)) (offsets : list Z)
    (r : res never (option Z * BitmapAllocator * option (list Z))) : Prop :=
  (r = Ok (None, self, context) /\ all_used self offsets) \/
  exists pre o post m, offsets = pre ++ o :: post /\ all_used self pre /\
    let i := slot self o in
    used self i = false /\ flipped true [i] (mem (bitmap self)) m /\
    r = Ok (Some (i * PAGE_SIZE), mark self m i, push_context context (i * PAGE_SIZE)).

Lemma scan_post_skip self context o os r : used self (slot self o) = true ->
  scan_post self context os r -> scan_post self context (o :: os) r.
Proof.
  intros Hu [[-> Hf]|(pre & o' & post & m & -> & Hpre & Hrest)].
  - left. split; [done|]. by apply Forall_cons.
  - right. exists (o :: pre), o', post, m. split; [done|]. split; [by apply Forall_cons|exact Hrest].
Qed.

Lemma alloc_scan_spec offsets self context : wf self -> 0 < total self ->
  Forall (fun o => 0 <= o < total self) offsets ->
  scan_post self context offsets (alloc_scan offsets (total self) self context).
Proof.
  intros Hwf Ht Ho. pose proof (total_small _ Hwf) as Hs. pose proof Hwf as [[Hl Hb Hsz] Hn].
  induction Ho as [|o os Ho Hos IH]; [left; split; [done|by apply Forall_nil]|]. cbn [alloc_scan].
  rewrite uadd_ok by lia. rsimpl. rewrite urem_ok by lia. rsimpl. fold (slot self o).
  assert (0 <= slot self o < total self) as Hi by (by apply Z.mod_pos_bound).
  set (i := slot self o) in *.
  assert (0 <= i < 8 * zlen (mem (bitmap self))) as Hi' by (unfold total in Hi; lia).
  destruct (index_total (E:=never) (mem (bitmap self)) (i / 8)) as [b Hb']; [by apply div8_range|].
  rewrite Hb'. rsimpl. rewrite bit_test_ok by done.
  destruct ((i mod 8 =? 0) && (b =? 0xff)) eqn:Hff.
  { apply scan_post_skip; [|done]. by eapply full_byte; [lia| |]. }
  rsimpl. fold (used self i). destruct (used self i) eqn:Hu; [by apply scan_post_skip|].
  destruct (bit_set_flipped (mem (bitmap self)) i) as (m & -> & Hm); [done|done|]. rsimpl.
  rewrite urem_ok by lia. rsimpl. unfold phys_addr, PAGE_SIZE, total in *.
  btrue (i * 4096 <? 2 ^ 52). rsimpl. right. exists [], o, os, m. split; [done|]. split; [by apply Forall_nil|done].
Qed.

Lemma slot_onto self i : wf self -> 0 <= i < total self ->
  exists o, 0 <= o < total self /\ slot self o = i.
Proof.
  intros [_ Hn] Hi. exists ((i - next self) mod total self).
  split; [apply Z.mod_pos_bound; lia|]. unfold slot.
  rewrite Zplus_mod_idemp_r. replace (next self + (i - next self)) with i by lia. by apply Z.mod_small.
Qed.

(** [allocate_frame] fails exactly when every frame is used and otherwise takes
    one that is free. *)
Lemma allocate_frame_spec self context : wf self ->
  (allocate_frame self context = Ok (None, self, context) /\
    forall i, 0 <= i < total self -> used self i = true) \/
  exists i m, 0 <= i < total self /\ used self i = false /\
    flipped true [i] (mem (bitmap self)) m /\ wf (mark self m i) /\
    allocate_frame self context =
      Ok (Some (i * PAGE_SIZE), mark self m i, push_context context (i * PAGE_SIZE)).
Proof.
  intros Hwf. pose proof (total_small _ Hwf) as Hs. unfold allocate_frame.
  rewrite umul_ok by (unfold total in Hs; lia). rsimpl.
  replace (blength (bitmap self) * 8) with (total self) by (unfold total; lia).
  unfold range. rewrite Z.sub_0_r.
  destruct (Z.eq_dec (total self) 0) as [E|Hne]; [rewrite E; left; split; [done|lia]|].
  destruct (alloc_scan_spec (seqZ 0 (total self)) self context) as [[-> Ha]|(pre & o & post & m & Ho & _ & Hu & Hm & ->)].
  - done.
  - lia.
  - apply Forall_forall. intros o Ho%elem_of_seqZ. lia.
  - left. split; [done|]. intros i Hi. destruct (slot_onto self i Hwf Hi) as (o & Ho & <-).
    eapply Forall_forall in Ha; [exact Ha|]. apply elem_of_seqZ. lia.
  - right. assert (o ∈ seqZ 0 (total self)) as Hin%elem_of_seqZ by (rewrite Ho; apply elem_of_app; right; left).
    assert (0 <= slot self o < total self) by (apply Z.mod_pos_bound; lia).
    exists (slot self o), m. split_and!; try done; try lia. by apply mark_wf.
Qed.

Definition frames_of (idxs : list Z) : list Z := (fun i => i * PAGE_SIZE) <$> idxs.
Definition push_contexts (context : option (list Z)) (frames : list Z) : option (list Z) :=
  (fun v => v ++ frames) <$> context.

Lemma take_run_ok idxs self context : wf self -> Forall (fun i => 0 <= i < total self) idxs ->
  exists m n, take_run idxs (total self) self context =
      Ok (frames_of idxs, {| bitmap := set_mem (bitmap self) m; next := n |},
          push_contexts context (frames_of idxs)) /\
    flipped true idxs (mem (bitmap self)) m /\ 0 <= n <= total self.
Proof.
  intros Hwf Hi. pose proof Hwf as [[Hl Hb Hsz] Hn]. unfold take_run.
  induction idxs as [|i idxs IH] using rev_ind.
  { exists (mem (bitmap self)), (next self). split_and!; [|by apply flipped_nil|lia..].
    rewrite set_mem_id. destruct self. cbn. do 2 f_equal.
    unfold push_contexts. destruct context; cbn; [by rewrite app_nil_r|done]. }
  apply Forall_app in Hi as [Hi Hi1]. rewrite Forall_singleton in Hi1.
  destruct (IH Hi) as (m & n & Hr & Hm & _). rewrite rfor_app, Hr. rsimpl. cbn [rfor].
  cbn [bitmap mem set_mem]. pose proof (flipped_zlen _ _ _ _ Hm) as Hz.
  destruct (bit_set_flipped m i) as (m' & -> & Hm'); [unfold total in Hi1; lia|by destruct Hm as (_ & ? & _)|].
  rsimpl. rewrite urem_ok by lia. rsimpl. unfold phys_addr, PAGE_SIZE, total in *.
  btrue (i * 4096 <? 2 ^ 52). rsimpl. exists m', ((i + 1) mod (8 * blength (bitmap self))). split_and!.
  - unfold frames_of, push_contexts, push_context. rewrite fmap_app. cbn [fmap list_fmap].
    destruct context; cbn; [by rewrite app_assoc|done].
  - by apply flipped_snoc with m.
  - pose proof (Z.mod_pos_bound (i + 1) (8 * blength (bitmap self))). lia.
  - pose proof (Z.mod_pos_bound (i + 1) (8 * blength (bitmap self))). lia.
Qed.

Definition free_run (self : BitmapAllocator) (i len : Z) : Prop :=
  0 <= i /\ i + len <= total self /\ forall j, i <= j < i + len -> used self j = false.

(** What the scan from bit [c] does when the free bits just before [c] are the
    [k] last ones and no run ends at or before [c] *)
Definition run_post (self : BitmapAllocator) (context : option (list Z)) (len : Z)
    (r : res never (option (list Z) * BitmapAllocator * option (list Z))) : Prop :=
  (r = Ok (None, self, context) /\ forall i, ~ free_run self i len) \/
  exists i m n, free_run self i len /\ (forall i', free_run self i' len -> i <= i') /\
    flipped true (seqZ i len) (mem (bitmap self)) m /\ 0 <= n <= total self /\
    r = Ok (Some (frames_of (seqZ i len)), {| bitmap := set_mem (bitmap self) m; next := n |},
            push_contexts context (frames_of (seqZ i len))).

Lemma run_scan_spec n c k len self context : wf self -> 0 < total self -> Z.of_nat n = total self - c ->
  0 <= k < len -> k <= c -> (forall j, c - k <= j < c -> used self j = false) ->
  (c = k \/ used self (c - k - 1) = true) ->
  (forall i, free_run self i len -> c - k <= i) ->
  run_post self context len (run_scan (range c (total self)) (total self) len (seqZ (c - k) k) self context).
Proof.
  intros Hwf Ht. pose proof Hwf as [[Hl Hb Hsz] _].
  revert c k. induction n as [|n IH]; intros c k Hn Hk Hc Hfree Hedge Hno.
  { left. unfold range. rewrite seqZ_nil by lia. split; [done|].
    intros i Hi. pose proof (Hno i Hi). destruct Hi as (? & ? & ?). lia. }
  unfold range. rewrite seqZ_cons by lia. cbn [run_scan].
  rewrite urem_ok by lia. rsimpl. rewrite (Z.mod_small c (total self)) by lia.
  assert (0 <= c < 8 * zlen (mem (bitmap self))) as Hi' by (unfold total in *; lia).
  destruct (index_total (E:=never) (mem (bitmap self)) (c / 8)) as [b Hb']; [by apply div8_range|].
  rewrite Hb'. rsimpl. rewrite bit_test_ok by done. rsimpl. fold (used self c).
  replace (seqZ (Z.succ c) (Z.pred (total self - c))) with (range (c + 1) (total self))
    by (unfold range; f_equal; lia).
  assert (used self c = true -> run_post self context len
    (run_scan (range (c + 1) (total self)) (total self) len [] self context)) as Hreset.
  { intros Hu. specialize (IH (c + 1) 0). rewrite (seqZ_nil _ 0) in IH by lia. apply IH; [lia..| | |].
    - intros j Hj. lia.
    - right. replace (c + 1 - 0 - 1) with c by lia. done.
    - intros i Hi. pose proof (Hno i Hi). destruct Hi as (? & ? & Hf).
      destruct (Z.lt_ge_cases i (c + 1 - 0)); [|lia].
      specialize (Hf c ltac:(lia)). congruence. }
  destruct ((c mod 8 =? 0) && (b =? 0xff)) eqn:Hff.
  { apply Hreset. by eapply full_byte; [lia| |]. }
  destruct (used self c) eqn:Hu.
  { rewrite zlen_nil. bfalse (0 =? len). by apply Hreset. }
  replace (seqZ (c - k) k ++ [c]) with (seqZ (c - k) (k + 1)).
  2:{ rewrite seqZ_app by lia. f_equal. replace (c - k + k) with c by lia. done. }
  replace (zlen (seqZ (c - k) (k + 1))) with (k + 1) by (unfold zlen; rewrite length_seqZ; lia).
  destruct (k + 1 =? len) eqn:Hlen; boom.
  - destruct (take_run_ok (seqZ (c - k) (k + 1)) self context) as (m & nx & -> & Hm & Hnx); [done| |].
    { apply Forall_forall. intros j Hj%elem_of_seqZ. lia. }
    rsimpl. right. rewrite Hlen. rewrite Hlen in Hm. exists (c - k), m, nx. split_and!; try done; try lia.
    split_and!; [lia..|]. intros j Hj. destruct (Z.eq_dec j c) as [->|]; [done|]. apply Hfree. lia.
  - specialize (IH (c + 1) (k + 1)). replace (c + 1 - (k + 1)) with (c - k) in IH by lia.
    apply IH; [lia..| | |].
    + intros j Hj. destruct (Z.eq_dec j c) as [->|]; [done|]. apply Hfree. lia.
    + destruct Hedge as [->|Hedge]; [left; lia|right; done].
    + exact Hno.
Qed.

Lemma allocate_continuous_frames_spec self context len : wf self -> 1 <= len ->
  run_post self context len (allocate_continuous_frames self context len).
Proof.
  intros Hwf Hlen. pose proof (total_small _ Hwf) as Hs. unfold allocate_continuous_frames.
  rewrite umul_ok by (unfold total in Hs; lia). rsimpl.
  replace (blength (bitmap self) * 8) with (total self) by (unfold total; lia).
  destruct (Z.eq_dec (total self) 0) as [E|Hne].
  { rewrite E. left. split; [done|]. intros i (? & ? & ?). lia. }
  apply (run_scan_spec (Z.to_nat (total self)) 0 0); try done; try lia.
  intros i (? & _). lia.
Qed.

Lemma free_frames_ok self idxs : wf self -> Forall (fun i => 0 <= i < total self) idxs ->
  exists m, free_frames self (frames_of idxs) =
      Ok {| bitmap := set_mem (bitmap self) m; next := next self |} /\
    flipped false idxs (mem (bitmap self)) m.
Proof.
  intros Hwf Hi. pose proof Hwf as [[Hl Hb Hsz] Hn]. unfold free_frames.
  assert (exists m, rfor (frames_of idxs) (mem (bitmap self)) (fun frame m => bit_clear m (frame / PAGE_SIZE)) =
    Ok (E:=never) m /\ flipped false idxs (mem (bitmap self)) m) as (m & -> & Hm); [|by exists m].
  induction idxs as [|i idxs IH] using rev_ind.
  { exists (mem (bitmap self)). split; [done|by apply flipped_nil]. }
  apply Forall_app in Hi as [Hi Hi1]. rewrite Forall_singleton in Hi1.
  destruct (IH Hi) as (m & Hr & Hm). unfold frames_of in *. rewrite fmap_app, rfor_app, Hr. rsimpl.
  cbn [fmap list_fmap rfor]. unfold PAGE_SIZE at 2. rewrite Z.div_mul by done.
  pose proof (flipped_zlen _ _ _ _ Hm) as Hz.
  destruct (bit_clear_flipped m i) as (m' & -> & Hm'); [unfold total in Hi1; lia|by destruct Hm as (_ & ? & _)|].
  exists m'. split; [done|]. by apply flipped_snoc with m.
Qed.

(** ** Histories of the allocator

    A state is the allocator and the frames its clients hold.  Clients free
    frames they hold. *)
Definition hold (r : option Z) (live : list Z) : list Z :=
  match r with Some f => f :: live | None => live end.
Inductive step : BitmapAllocator * list Z -> BitmapAllocator * list Z -> Prop :=
| step_alloc a live r a' c : allocate_frame a None = Ok (r, a', c) ->
    step (a, live) (a', hold r live)
| step_run a live len r a' c : 1 <= len -> allocate_continuous_frames a None len = Ok (r, a', c) ->
    step (a, live) (a', default [] r ++ live)
| step_free a live fs rest a' : live ≡ₚ fs ++ rest -> free_frames a fs = Ok a' ->
    step (a, live) (a', rest).

(** Against the frames [reserved] before any allocation *)
Record history_inv (reserved : Z -> bool) (n : Z) (st : BitmapAllocator * list Z) : Prop := {
  hi_wf : wf st.1;
  hi_total : total st.1 = n;
  hi_nodup : NoDup st.2;
  hi_live : Forall (fun f => exists i, f = i * PAGE_SIZE /\ 0 <= i < n /\ reserved i = false) st.2;
  hi_used : forall i, 0 <= i < n -> used st.1 i = reserved i || bool_decide (i * PAGE_SIZE ∈ st.2);
}.

Lemma used_flipped a b idxs m nx i : 0 <= i -> flipped b idxs (mem (bitmap a)) m ->
  used {| bitmap := set_mem (bitmap a) m; next := nx |} i = if bool_decide (i ∈ idxs) then b else used a i.
Proof. intros Hi (_ & _ & Hf). by apply Hf. Qed.
Lemma wf_flipped a b idxs m nx : wf a -> flipped b idxs (mem (bitmap a)) m -> 0 <= nx <= total a ->
  wf {| bitmap := set_mem (bitmap a) m; next := nx |}.
Proof. intros [Hm Hn] Hf Hx. split; [by eapply wf_map_flipped|done]. Qed.
Lemma frames_of_elem i idxs : i * PAGE_SIZE ∈ frames_of idxs <-> i ∈ idxs.
Proof.
  unfold frames_of. rewrite list_elem_of_fmap. unfold PAGE_SIZE. split.
  - intros (j & E & Hj). by replace i with j by lia.
  - intros Hi. by exists i.
Qed.
Lemma frames_of_NoDup idxs : NoDup idxs -> NoDup (frames_of idxs).
Proof. apply NoDup_fmap_2. intros i j. unfold PAGE_SIZE. lia. Qed.

(** Handing out the frames of free bits keeps the invariant. *)
Lemma history_take reserved n a live idxs m nx : history_inv reserved n (a, live) ->
  NoDup idxs -> Forall (fun i => 0 <= i < n /\ used a i = false) idxs ->
  flipped true idxs (mem (bitmap a)) m -> 0 <= nx <= n ->
  history_inv reserved n ({| bitmap := set_mem (bitmap a) m; next := nx |}, frames_of idxs ++ live).
Proof.
  intros [Hwf Ht Hnd Hl Hu] Hni Hfree Hm Hx. cbn in *. split; cbn.
  - eapply wf_flipped; [done..|lia].
  - done.
  - apply NoDup_app. split_and!; [by apply frames_of_NoDup| |done].
    intros f Hf Hlive. apply list_elem_of_fmap in Hf as (i & -> & Hi).
    eapply Forall_forall in Hfree as [Hr Hf]; [|exact Hi]. rewrite Hu in Hf by done.
    rewrite bool_decide_eq_true_2 in Hf by done. by rewrite orb_true_r in Hf.
  - apply Forall_app. split; [|done]. apply Forall_fmap. eapply Forall_impl; [exact Hfree|].
    intros i [Hr Hf]. exists i. split_and!; [done|lia|lia|]. rewrite Hu in Hf by done. by apply orb_false_iff in Hf as [? _].
  - intros i Hi. rewrite (used_flipped a true idxs) by (done || lia). rewrite Hu by done.
    rewrite (bool_decide_ext (i * PAGE_SIZE ∈ frames_of idxs ++ live) (i ∈ idxs \/ i * PAGE_SIZE ∈ live)) by (rewrite elem_of_app, frames_of_elem; done).
    rewrite bool_decide_or. destruct (bool_decide (i ∈ idxs)); [by rewrite orb_true_r|done].
Qed.

Lemma live_frames reserved n fs :
  Forall (fun f => exists i, f = i * PAGE_SIZE /\ 0 <= i < n /\ reserved i = false) fs ->
  exists idxs, fs = frames_of idxs /\ Forall (fun i => 0 <= i < n /\ reserved i = false) idxs.
Proof.
  induction 1 as [|f fs (i & -> & Hi & Hr) _ (idxs & -> & IH)]; [by exists []|].
  exists (i :: idxs). split; [done|]. by constructor.
Qed.

Lemma history_step reserved n st st' : history_inv reserved n st -> step st st' -> history_inv reserved n st'.
Proof.
  intros Hinv Hstep. destruct Hstep as [a live r a' c Ha|a live len r a' c Hlen Ha|a live fs rest a' Hp Ha].
  - destruct (allocate_frame_spec a None (hi_wf _ _ _ Hinv)) as [[E _]|(i & m & Hi & Hu & Hm & _ & E)];
      rewrite E in Ha; injection Ha as <- <- <-; [done|]. cbn [hold].
    apply (history_take reserved n a live [i] m); [done|apply NoDup_singleton| |done|].
    + apply Forall_singleton. by rewrite <- (hi_total _ _ _ Hinv).
    + pose proof (hi_total _ _ _ Hinv) as Ht. cbn in Ht. rewrite <- Ht.
      pose proof (Z.mod_pos_bound (i + 1) (total a)). lia.
  - destruct (allocate_continuous_frames_spec a None len (hi_wf _ _ _ Hinv) Hlen)
      as [[E _]|(i & m & nx & Hrun & _ & Hm & Hnx & E)]; rewrite E in Ha; injection Ha as <- <- <-; [done|].
    pose proof (hi_total _ _ _ Hinv) as Ht. cbn in Ht. rewrite <- Ht. rewrite <- Ht in Hinv.
    apply history_take; [done|apply NoDup_seqZ| |done|done].
    apply Forall_forall. intros j Hj%elem_of_seqZ. destruct Hrun as (? & ? & Hf). split; [lia|]. apply Hf. lia.
  - destruct Hinv as [Hwf Ht Hnd Hl Hu]. cbn in *. rewrite Hp in Hl, Hnd.
    apply Forall_app in Hl as [Hfs Hrest]. apply NoDup_app in Hnd as (_ & Hdis & Hnd).
    destruct (live_frames _ _ _ Hfs) as (idxs & -> & Hidx).
    destruct (free_frames_ok a idxs Hwf) as (m & E & Hm).
    { eapply Forall_impl; [exact Hidx|]. intros i [? _]. lia. }
    rewrite E in Ha. injection Ha as <-. split; cbn; [|done..|].
    + eapply wf_flipped; [done..|by destruct Hwf].
    + intros i Hi. rewrite (used_flipped a false idxs) by (done || lia). rewrite Hu by done.
      rewrite (bool_decide_ext (_ ∈ live) (i ∈ idxs \/ i * PAGE_SIZE ∈ rest))
        by (rewrite Hp, elem_of_app, frames_of_elem; done).
      rewrite bool_decide_or. case_bool_decide as Hin; [|done]. cbn.
      eapply Forall_forall in Hidx as [_ Hr]; [|exact Hin]. rewrite Hr.
      rewrite bool_decide_eq_false_2; [done|]. apply Hdis. by apply frames_of_elem.
Qed.

Lemma history_reach reserved n st st' : history_inv reserved n st -> rtc step st st' ->
  history_inv reserved n st'.
Proof. intros Hi Hr. induction Hr; [done|]. eauto using history_step. Qed.
Lemma history_start a : wf a -> history_inv (used a) (total a) (a, []).
Proof.
  intros Hwf. split; cbn; [done|done|apply NoDup_nil_2|constructor|].
  intros i _. by rewrite bool_decide_eq_false_2, orb_false_r by apply not_elem_of_nil.
Qed.
End allocator.

(** ** Theorems *)

(** C1: no frame is handed out twice.  After any history of single and run
    allocations and frees (clients free only frames they hold), the frames
    held are pairwise distinct, none of them was in use when the history
    started, and a bit of the bitmap is set exactly if the frame was in use at
    the start or is held now. *)
Theorem no_double_allocation `{Build} a0 a live : wf a0 -> rtc step (a0, []) (a, live) ->
  NoDup live /\
  Forall (fun f => exists i, f = i * PAGE_SIZE /\ 0 <= i < total a0 /\ used a0 i = false) live /\
  forall i, 0 <= i < total a0 -> used a i = used a0 i || bool_decide (i * PAGE_SIZE ∈ live).
Proof.
  intros Hwf Hr. destruct (history_reach _ _ _ _ (history_start a0 Hwf) Hr) as [_ _ Hn Hl Hu].
  split_and!; [exact Hn|exact Hl|exact Hu].
Qed.

(** A one-page machine in which frames 1, 2 and 5 are free *)
Definition sample : BitmapAllocator :=
  {| bitmap := {| start := 0; blength := 1; page_length := 1; mem := [0xD9] |}; next := 0 |}.
Lemma sample_wf : wf sample.
Proof.
  split; [split; [done| |vm_compute; congruence]|vm_compute; split; congruence].
  apply Forall_singleton. done.
Qed.

Lemma no_double_allocation_witness : exists a,
  rtc (@step dev_build) (sample, []) (a, [0x2000; 0x5000]) /\ NoDup [0x2000; 0x5000] /\ used a 1 = false.
Proof.
  exists {| bitmap := {| start := 0; blength := 1; page_length := 1; mem := [0xFD] |}; next := 6 |}.
  assert (rtc (@step dev_build) (sample, []) ({| bitmap := {| start := 0; blength := 1; page_length := 1;
    mem := [0xFD] |}; next := 6 |}, [0x2000; 0x5000])) as Hr.
  { eapply rtc_l; [eapply step_alloc; reflexivity|].
    eapply rtc_l; [eapply step_alloc; reflexivity|].
    eapply rtc_l; [eapply (step_free _ _ [0x1000] [0x2000]); [apply Permutation_swap|reflexivity]|].
    eapply rtc_l; [eapply step_alloc; reflexivity|].
    eapply rtc_l; [eapply (step_free _ _ [] [0x2000; 0x5000]); [apply Permutation_swap|reflexivity]|].
    apply rtc_refl. }
  destruct (@no_double_allocation dev_build _ _ _ sample_wf Hr) as (Hn & _ & Hu).
  split; [exact Hr|]. split; [exact Hn|]. by rewrite Hu.
Defined.

(** [allocate_frame] never panics; it returns [None] exactly when no frame
    is free, and otherwise a frame that was free, of which it sets the bit,
    changing no other bit, and which it also pushes on the caller's list. *)
Theorem allocate_frame_sound_complete `{Build} a context : wf a ->
  (exists i, 0 <= i < total a /\ used a i = false /\
    exists a', allocate_frame a context = Ok (Some (i * PAGE_SIZE), a', push_context context (i * PAGE_SIZE)) /\
      wf a' /\ forall j, 0 <= j < total a -> used a' j = (j =? i) || used a j) \/
  ((forall i, 0 <= i < total a -> used a i = true) /\ allocate_frame a context = Ok (None, a, context)).
Proof.
  intros Hwf. destruct (allocate_frame_spec a context Hwf) as [[? ?]|(i & m & Hi & Hu & Hm & Hw & E)].
  - by right.
  - left. exists i. split_and!; [lia|lia|done|]. exists (mark a m i). split_and!; [done..|].
    intros j Hj. unfold mark. rewrite (used_flipped a true [i]) by (done || lia).
    destruct (Z.eqb_spec j i) as [->|]; case_bool_decide; rewrite list_elem_of_singleton in *; done.
Qed.

Lemma allocate_frame_sound_complete_witness : exists a',
  @allocate_frame dev_build sample (Some []) = Ok (Some 0x1000, a', Some [0x1000]) /\ used a' 1 = true.
Proof.
  destruct (@allocate_frame_sound_complete dev_build sample (Some []) sample_wf)
    as [(i & Hi & Hu & a' & E & _ & Ha)|[Hall _]].
  - assert (@allocate_frame dev_build sample (Some []) = Ok (Some 0x1000,
      {| bitmap := set_mem (bitmap sample) [0xDB]; next := 2 |}, Some [0x1000])) as E' by (by vm_compute).
    rewrite E' in E. injection E as Ei Ea _. exists a'. split; [by rewrite E', <- Ea|].
    rewrite Ha by (vm_compute; split; congruence). by replace i with 1 by (unfold PAGE_SIZE in Ei; lia).
  - specialize (Hall 1 ltac:(vm_compute; split; congruence)). discriminate Hall.
Defined.

(** [allocate_continuous_frames] returns the lowest run of [len] consecutive
    free frames, in order, marking exactly those used, and [None] only when
    there is no such run anywhere. *)
Theorem continuous_frames_first_fit `{Build} a context len : wf a -> 1 <= len ->
  (exists i a', free_run a i len /\ (forall i', free_run a i' len -> i <= i') /\
    allocate_continuous_frames a context len =
      Ok (Some (frames_of (seqZ i len)), a', push_contexts context (frames_of (seqZ i len))) /\
    forall j, 0 <= j -> used a' j = bool_decide (i <= j < i + len) || used a j) \/
  ((forall i, ~ free_run a i len) /\ allocate_continuous_frames a context len = Ok (None, a, context)).
Proof.
  intros Hwf Hlen. destruct (allocate_continuous_frames_spec a context len Hwf Hlen)
    as [[E Hno]|(i & m & n & Hrun & Hmin & Hm & Hn & E)]; [by right|].
  left. exists i, {| bitmap := set_mem (bitmap a) m; next := n |}. split_and!; [done..|].
  intros j Hj. rewrite (used_flipped a true (seqZ i len)) by done.
  rewrite (bool_decide_ext _ _ (elem_of_seqZ i len j)). by destruct (bool_decide _).
Qed.

Lemma continuous_frames_first_fit_witness : exists a',
  @allocate_continuous_frames dev_build sample None 2 = Ok (Some [0x1000; 0x2000], a', None).
Proof.
  destruct (@continuous_frames_first_fit dev_build sample None 2 sample_wf ltac:(lia))
    as [(i & a' & _ & _ & E & _)|[Hno _]].
  - assert (@allocate_continuous_frames dev_build sample None 2 = Ok (Some [0x1000; 0x2000],
      {| bitmap := set_mem (bitmap sample) [0xDF]; next := 3 |}, None)) as E' by (by vm_compute).
    exists a'. rewrite E' in *. congruence.
  - destruct (Hno 1). repeat split; try (vm_compute; congruence).
    intros j Hj. assert (j = 1 \/ j = 2) as [-> | ->] by lia; reflexivity.
Defined.

(** Memory set-up at boot.  For a memory map as the boot protocol gives
    it, [init] places the bitmap and the kernel heap in the first usable
    region that has room for them and the stack, sizes the bitmap to cover
    every page, and leaves a page marked free exactly if it belongs to usable
    memory and not to the bitmap or the heap. *)
Theorem memory_init_bitmap `{Build} memmap hhdm ram e : memmap_ok memmap -> 0 <= hhdm < 2 ^ 63 ->
  (forall a n, length (ram a n) = n) -> region_of memmap = Some e ->
  exists mm, init memmap hhdm ram = Ok mm /\
    frame_count_of memmap <= 8 * blength (bit_map mm) /\
    start (bit_map mm) = base e + hhdm /\
    kheap_start mm = start (bit_map mm) + bitmap_pages_of memmap * PAGE_SIZE /\
    blength (bit_map mm) <= bitmap_pages_of memmap * PAGE_SIZE /\
    kheap_start mm + KHEAP_PAGE_COUNT * PAGE_SIZE < base e + elength e + hhdm /\
    forall j, 0 <= j < 8 * blength (bit_map mm) ->
      bit_at (mem (bit_map mm)) j =
        negb (usable_page memmap j && negb (bool_decide (j ∈ pages (base e) (bitmap_pages_of memmap + KHEAP_PAGE_COUNT)))).
Proof.
  intros Hm Hh Hram Hreg. destruct (init_ok memmap hhdm ram e Hm Hh Hram Hreg) as (mm & E & Hwf & Hs & Hl & Hk & Hb).
  destruct (region_of_spec _ _ Hreg) as (_ & _ & Hneed). destruct (bitmap_length_bounds _ Hm) as (? & ? & ? & ?).
  pose proof (div_ceil_spec (bitmap_length_of memmap) PAGE_SIZE ltac:(lia) ltac:(done)) as Hd.
  fold (bitmap_pages_of memmap) in Hd. unfold KHEAP_PAGE_COUNT, STACK_PAGE_SIZE, PAGE_SIZE in *.
  exists mm. split_and!; [done|lia|lia|lia|lia|lia|].
  intros j Hj. rewrite Hb by done. by destruct (usable_page _ _), (bool_decide _).
Qed.

Definition sample_map : list Entry :=
  [{| base := 0; elength := 0x9F000; entry_type := RESERVED |};
   {| base := 0x100000; elength := 0x100000; entry_type := USABLE |};
   {| base := 0x200000; elength := 0x1000; entry_type := FRAMEBUFFER |}].

Lemma memory_init_bitmap_witness : exists mm,
  @init dev_build sample_map 0xFFFF8000 (fun _ n => replicate n 0) = Ok mm /\
  bit_at (mem (bit_map mm)) 0x17F = true /\ bit_at (mem (bit_map mm)) 0x181 = false.
Proof.
  destruct (@memory_init_bitmap dev_build sample_map 0xFFFF8000 (fun _ n => replicate n 0)
    {| base := 0x100000; elength := 0x100000; entry_type := USABLE |}) as (mm & E & _ & _ & _ & _ & _ & Hb).
  - split; [done| |vm_compute; congruence|vm_compute; congruence].
    repeat constructor; vm_compute; congruence.
  - lia.
  - intros. apply length_replicate.
  - by vm_compute.
  - exists mm. split; [exact E|]. vm_compute in E. injection E as <-. split; by vm_compute.
Defined.
