(* ===== verification/Pools.v ===== *)
(** * Pools of disk buffers

    src/kernel/src/ejcineque/pools/mod.rs: 64 buffers of [N] bytes carved out
    of page frames, handed out through a 64-bit mask.

    The pool takes its frames from an allocator it only knows through
    [FrameSource]: what the pool relies on is that an allocated frame was free
    and is page-aligned.  src/kernel/src/arch/x86_64/memory/frame_allocator.rs
    discharges it (file Memory).  [get_buffer] and [drop] are one atomic
    read-modify-write of the mask each, so a history is a sequence of them;
    when the pool is exhausted the buffer comes from the heap, whose address
    is an argument.

    Shown here: [new] yields 64 buffers that do not overlap and lie inside
    frames that were free, and no two handles alive at the same time share a
    buffer of the pool. *)

From S2P Require Import Prelude Bytes Memory.

(** ** What the pool needs from a frame allocator *)
Class FrameSource (S : Type) := {
  src_alloc : S -> res never (option Z * S);
  src_free : S -> Z -> Prop;
  src_ok : S -> Prop;
}.
Class FrameSourceLaws (S : Type) `{FrameSource S} : Prop := {
  alloc_total s : src_ok s -> exists o s', src_alloc s = Ok (o, s') /\ src_ok s';
  alloc_was_free s f s' : src_ok s -> src_alloc s = Ok (Some f, s') -> src_free s f;
  alloc_taken s f s' : src_ok s -> src_alloc s = Ok (Some f, s') -> ~ src_free s' f;
  alloc_other s f s' g : src_ok s -> src_alloc s = Ok (Some f, s') -> src_free s' g -> src_free s g;
  free_aligned s f : src_ok s -> src_free s f -> exists i, 0 <= i < 2 ^ 40 /\ f = i * PAGE_SIZE;
}.

#[global] Instance bitmap_source `{Build} : FrameSource BitmapAllocator := {|
  src_alloc a := '(o, a, _) ← allocate_frame a None; Ok (o, a);
  src_free a f := exists i, 0 <= i < total a /\ f = i * PAGE_SIZE /\ used a i = false;
  src_ok := wf;
|}.

#[global] Instance bitmap_source_laws `{Build} : FrameSourceLaws BitmapAllocator.
Proof.
  assert (forall s f s', wf s -> src_alloc s = Ok (Some f, s') -> exists i m, 0 <= i < total s /\
    used s i = false /\ f = i * PAGE_SIZE /\ flipped true [i] (mem (bitmap s)) m /\ s' = mark s m i) as Hsome.
  { intros s f s' Hwf. cbn.
    destruct (allocate_frame_spec s None Hwf) as [[-> _]|(i & m & Hi & Hu & Hm & _ & ->)]; [done|].
    rsimpl. intros [= <- <-]. by exists i, m. }
  split.
  - intros s Hwf. cbn. destruct (allocate_frame_spec s None Hwf) as [[-> _]|(i & m & _ & _ & _ & ? & ->)];
      rsimpl; eauto.
  - intros s f s' Hwf Ha. destruct (Hsome s f s' Hwf Ha) as (i & m & Hi & Hu & -> & _ & _). by exists i.
  - intros s f s' Hwf Ha (j & Hj & Hf & Hu'). destruct (Hsome s f s' Hwf Ha) as (i & m & Hi & Hu & -> & Hm & ->).
    unfold mark in Hu'. rewrite (used_flipped s true [i]) in Hu' by (done || lia).
    rewrite bool_decide_eq_true_2 in Hu'; [done|]. apply list_elem_of_singleton. unfold PAGE_SIZE in Hf. lia.
  - intros s f s' g Hwf Ha (j & Hj & -> & Hu'). destruct (Hsome s f s' Hwf Ha) as (i & m & Hi & Hu & -> & Hm & ->).
    exists j. split_and!; [lia|exact (proj2 Hj)|done|]. unfold mark in Hu'.
    rewrite (used_flipped s true [i]) in Hu' by (done || lia). by destruct (bool_decide _).
  - cbn. intros s f Hwf (i & Hi & -> & _). pose proof (total_small s Hwf). exists i. split; [lia|done].
Qed.

(** ** [DiskIOBufferPool] *)
Definition SECTOR_SIZE : Z := 512.
Record DiskIOBufferPool := { buffers : list Z; mask : Z }.

(** [N.is_power_of_two()] *)
Definition is_power_of_two (n : Z) : bool := (0 <? n) && (Z.land n (n - 1) =? 0).

Section pool.
Context (N : Z).

Section new.
Context {S : Type} `{FrameSource S}.

(** One frame cut into [PAGE_SIZE / N] buffers, with the [break] at 64 *)
Fixpoint cut_frame (idxs : list Z) (addr : Z) (buffers : list Z) (idx : Z) : res never (list Z * Z) :=
  match idxs with
  | [] => Ok (buffers, idx)
  | i :: idxs =>
      if 64 <=? idx then Ok (buffers, idx)
      else buffers ← update buffers idx (addr + i * N); cut_frame idxs addr buffers (idx + 1)
  end.
Definition pool_new (hhdm : Z) (s : S) : res never (DiskIOBufferPool * S) :=
  rassert (negb (N =? 0) && (PAGE_SIZE mod N =? 0));;
  rassert (N <=? PAGE_SIZE);;
  rassert (is_power_of_two N);;
  let bytes_count := N * 64 in
  let frame_count := div_ceil bytes_count PAGE_SIZE in
  '(buffers, _, s) ← rfor (seqZ 0 frame_count) (replicate 64 0, 0, s) (fun _ st =>
    let '(buffers, idx, s) := st in
    '(frame, s) ← src_alloc s;
    frame ← expect frame;
    let addr := hhdm + frame in
    '(buffers, idx) ← cut_frame (seqZ 0 (PAGE_SIZE / N)) addr buffers idx;
    Ok (buffers, idx, s));
  Ok ({| buffers := buffers; mask := 0 |}, s).
End new.

(** [val.trailing_ones()] *)
Fixpoint trailing_ones (fuel : nat) (val : Z) : Z :=
  match fuel with
  | O => 0
  | S fuel => if Z.odd val then 1 + trailing_ones fuel (Z.shiftr val 1) else 0
  end.

Record DiskIOBufferPoolHandle := { hidx : option Z; inner : Z }.

(** [heap] is the address the heap allocator returns when the pool is full. *)
Definition get_buffer (self : DiskIOBufferPool) (heap : Z) :
    res never (DiskIOBufferPoolHandle * DiskIOBufferPool) :=
  let i := trailing_ones 64 (mask self) in
  let '(result, val) := if i <? 64 then (Some i, setbit (mask self) i) else (None, mask self) in
  inner ← match result with Some idx => index (buffers self) idx | None => Ok heap end;
  Ok ({| hidx := result; inner := inner |}, {| buffers := buffers self; mask := val |}).

(** Dropping a handle; a heap buffer goes back to the heap. *)
Definition drop_handle (self : DiskIOBufferPool) (h : DiskIOBufferPoolHandle) : DiskIOBufferPool :=
  match hidx h with
  | Some idx => {| buffers := buffers self; mask := clrbit 64 (mask self) idx |}
  | None => self
  end.
End pool.

(** ** Building the pool *)
Section new_spec.
Context (N : Z) {S : Type} `{FrameSource S}.

Definition slots (addr : Z) (idxs : list Z) : list Z := (fun i => addr + i * N) <$> idxs.
Definition padded (pre : list Z) : list Z := pre ++ replicate (64 - length pre) 0.

Lemma cut_frame_ok idxs addr pre : (length pre <= 64)%nat ->
  let pre' := pre ++ take (64 - length pre) (slots addr idxs) in
  cut_frame N idxs addr (padded pre) (zlen pre) = Ok (padded pre', zlen pre').
Proof.
  revert pre. induction idxs as [|i idxs IH]; intros pre Hl; cbn [cut_frame].
  { cbn. by rewrite take_nil, app_nil_r. }
  destruct (64 <=? zlen pre) eqn:Hc; boom.
  { unfold zlen in Hc. replace (64 - length pre)%nat with 0%nat by lia. cbn. by rewrite app_nil_r. }
  unfold zlen in Hc. destruct (64 - length pre)%nat as [|k] eqn:Hk; [lia|].
  assert (padded pre = pre ++ 0 :: replicate k 0) as Hp by (unfold padded; by rewrite Hk).
  rewrite Hp, update_ok by (zlen; unfold zlen; lia). rsimpl.
  unfold zlen at 1. rewrite Nat2Z.id, insert_app_r_alt, Nat.sub_diag by lia. cbn [insert list_insert].
  specialize (IH (pre ++ [addr + i * N])). rewrite length_app in IH. cbn [length] in IH.
  assert (64 - (length pre + 1) = k)%nat as Hk' by lia. rewrite Hk' in IH.
  assert (padded (pre ++ [addr + i * N]) = pre ++ (addr + i * N) :: replicate k 0) as Hp2.
  { unfold padded. rewrite length_app. cbn [length]. rewrite Hk', <- app_assoc. done. }
  rewrite Hp2 in IH. replace (zlen pre + 1) with (zlen (pre ++ [addr + i * N])) by (zlen; lia).
  rewrite IH by lia. unfold slots. cbn [fmap list_fmap take]. by rewrite <- app_assoc.
Qed.

(** The frames the constructor draws, if the source has them *)
Fixpoint take_frames (n : nat) (s : S) : option (list Z * S) :=
  match n with
  | O => Some ([], s)
  | Datatypes.S n =>
      match src_alloc s with
      | Ok (Some f, s) => '(fs, s) ← take_frames n s; Some (f :: fs, s)
      | _ => None
      end
  end.
Definition per_frame : Z := PAGE_SIZE / N.
Definition carve (hhdm : Z) (fs : list Z) : list Z :=
  concat ((fun f => slots (hhdm + f) (seqZ 0 per_frame)) <$> fs).

Context `{!FrameSourceLaws S}.

Lemma carve_loop hhdm (xs : list Z) pre s : (length pre <= 64)%nat -> src_ok s ->
  rfor xs (padded pre, zlen pre, s) (fun _ st =>
    let '(buffers, idx, s) := st in
    '(frame, s) ← src_alloc s;
    frame ← expect frame;
    let addr := hhdm + frame in
    '(buffers, idx) ← cut_frame N (seqZ 0 (PAGE_SIZE / N)) addr buffers idx;
    Ok (buffers, idx, s)) =
  match take_frames (length xs) s with
  | Some (fs, s') => let pre' := take 64 (pre ++ carve hhdm fs) in Ok (padded pre', zlen pre', s')
  | None => Panic
  end.
Proof using All.
  revert pre s. induction xs as [|x xs IH]; intros pre s Hl Hok; cbn [rfor take_frames length].
  { cbn. rewrite app_nil_r, take_ge by done. done. }
  destruct (alloc_total s Hok) as (o & s1 & Ha & Hok1). rewrite Ha. rsimpl.
  destruct o as [f|]; [|done]. cbn [expect]. rsimpl. rewrite cut_frame_ok by done. rsimpl.
  set (pre1 := pre ++ take (64 - length pre) (slots (hhdm + f) (seqZ 0 (PAGE_SIZE / N)))).
  assert (pre1 = take 64 (pre ++ slots (hhdm + f) (seqZ 0 per_frame))) as Hp1
    by (unfold pre1; by rewrite take_app_ge).
  assert (length pre1 <= 64)%nat as Hl1 by (rewrite Hp1, length_take; lia).
  rewrite IH by done. cbn. destruct (take_frames (length xs) s1) as [[fs s2]|]; [|done]. cbn.
  unfold carve. cbn [fmap list_fmap concat]. fold (carve hhdm fs).
  assert (take 64 (pre1 ++ carve hhdm fs) =
    take 64 (pre ++ slots (hhdm + f) (seqZ 0 per_frame) ++ carve hhdm fs)) as E; [|by rewrite E].
  rewrite Hp1, (app_assoc pre). set (l := pre ++ _). rewrite !take_app, length_take, take_take, Nat.min_id.
  destruct (Nat.le_ge_cases (length l) 64).
  - by rewrite Nat.min_r by lia.
  - rewrite Nat.min_l by lia. by replace (64 - length l)%nat with (64 - 64)%nat by lia.
Qed.

Definition valid_size : Prop := 0 < N <= PAGE_SIZE /\ PAGE_SIZE mod N = 0 /\ is_power_of_two N = true.

Lemma pool_new_ok hhdm s : valid_size -> src_ok s ->
  pool_new N hhdm s =
  match take_frames (Z.to_nat (div_ceil (N * 64) PAGE_SIZE)) s with
  | Some (fs, s') => Ok ({| buffers := padded (take 64 (carve hhdm fs)); mask := 0 |}, s')
  | None => Panic
  end.
Proof using All.
  intros (Hn & Hm & Hp) Hok. unfold pool_new. rewrite Hm, Hp. unfold rassert.
  btrue (negb (N =? 0) && (0 =? 0)). btrue (N <=? PAGE_SIZE). rsimpl.
  pose proof (carve_loop hhdm (seqZ 0 (div_ceil (N * 64) PAGE_SIZE)) [] s) as Hc.
  rewrite length_seqZ in Hc. change (padded []) with (replicate 64 0) in Hc.
  change (zlen (@nil Z)) with 0 in Hc. cbv zeta in Hc. rewrite Hc by (cbn; done || lia).
  destruct (take_frames _ s) as [[fs s']|]; done.
Qed.

Lemma per_frame_mul : valid_size -> per_frame * N = PAGE_SIZE.
Proof. intros (Hn & Hm & _). unfold per_frame. pose proof (Z.div_mod PAGE_SIZE N). lia. Qed.
Lemma length_carve hhdm fs : length (carve hhdm fs) = (length fs * Z.to_nat per_frame)%nat.
Proof.
  unfold carve. induction fs as [|f fs IH]; csimpl; [done|].
  rewrite length_app, IH. unfold slots. rewrite length_fmap, length_seqZ. done.
Qed.
Lemma take_frames_length n s fs s' : take_frames n s = Some (fs, s') -> length fs = n.
Proof.
  revert s fs. induction n as [|n IH]; intros s fs; cbn; [by intros [= <- <-]|].
  destruct (src_alloc s) as [[[f|] s1]|e| |]; try done.
  destruct (take_frames n s1) as [[gs s2]|] eqn:Ht; cbn; [|done]. intros [= <- <-]. cbn. f_equal. eauto.
Qed.
Lemma carve_enough hhdm s fs s' : valid_size ->
  take_frames (Z.to_nat (div_ceil (N * 64) PAGE_SIZE)) s = Some (fs, s') -> (64 <= length (carve hhdm fs))%nat.
Proof.
  intros Hv Ht. rewrite length_carve, (take_frames_length _ _ _ _ Ht).
  pose proof (per_frame_mul Hv). destruct Hv as (Hn & _ & _).
  pose proof (div_ceil_spec (N * 64) PAGE_SIZE ltac:(lia) ltac:(done)).
  assert (0 <= per_frame) by (apply Z.div_pos; unfold PAGE_SIZE; lia).
  assert (64 <= div_ceil (N * 64) PAGE_SIZE * per_frame) by nia.
  assert (0 <= div_ceil (N * 64) PAGE_SIZE) by (unfold PAGE_SIZE in *; lia). nia.
Qed.

(** *** The buffers do not overlap *)
Definition apart (a b : Z) : Prop := a + N <= b \/ b + N <= a.

Lemma take_frames_fresh n s fs s' : src_ok s -> take_frames n s = Some (fs, s') ->
  src_ok s' /\ NoDup fs /\ Forall (src_free s) fs /\ (forall g, src_free s' g -> src_free s g) /\
  Forall (fun f => ~ src_free s' f) fs.
Proof using All.
  revert s fs. induction n as [|n IH]; intros s fs Hok; cbn.
  { intros [= <- <-]. split_and!; [done|apply NoDup_nil_2|constructor|done|constructor]. }
  destruct (alloc_total s Hok) as (o & s1 & Ha & Hok1). rewrite Ha. destruct o as [f|]; [|done].
  destruct (take_frames n s1) as [[gs s2]|] eqn:Ht; cbn; [|done]. intros [= <- <-].
  destruct (IH s1 gs Hok1 Ht) as (Hok2 & Hnd & Hfree & Hmono & Hused).
  pose proof (alloc_taken s f s1 Hok Ha) as Hf1. split_and!; [done| | | |].
  - apply NoDup_cons. split; [|done]. intros Hin. eapply Forall_forall in Hfree; [|exact Hin]. done.
  - apply Forall_cons. split; [by eapply alloc_was_free|].
    eapply Forall_impl; [exact Hfree|]. intros g Hg. by eapply alloc_other.
  - intros g Hg. eapply alloc_other; [done..|by apply Hmono].
  - apply Forall_cons. split; [|done]. intros Hf2. by apply Hf1, Hmono.
Qed.

Lemma FOP_app {A} (R : A -> A -> Prop) l1 l2 : ForallOrdPairs R l1 -> ForallOrdPairs R l2 ->
  (forall x y, x ∈ l1 -> y ∈ l2 -> R x y) -> ForallOrdPairs R (l1 ++ l2).
Proof.
  intros H1 H2 Hx. induction H1 as [|a l Ha Hl IH]; cbn; [done|]. constructor.
  - apply Forall_app. split; [done|]. apply Forall_forall. intros y Hy. apply Hx; [left|done].
  - apply IH. intros x y ? ?. apply Hx; [by right|done].
Qed.
Lemma slots_apart addr k n : 0 < N -> ForallOrdPairs apart (slots addr (seqZ k n)).
Proof.
  intros Hn. unfold slots. destruct (Z.le_gt_cases n 0) as [H0|H0]; [rewrite seqZ_nil by done; constructor|].
  revert k. replace n with (Z.of_nat (Z.to_nat n)) by lia. clear H0.
  induction (Z.to_nat n) as [|m IH]; intros k; [constructor|].
  rewrite seqZ_cons by lia. cbn [fmap list_fmap]. constructor.
  - apply Forall_fmap, Forall_forall. intros j Hj%elem_of_seqZ. left. cbn. nia.
  - replace (Z.pred (Z.of_nat (Datatypes.S m))) with (Z.of_nat m) by lia. apply IH.
Qed.
Lemma carve_elem hhdm fs a : valid_size -> a ∈ carve hhdm fs -> exists f, f ∈ fs /\
  hhdm + f <= a /\ a + N <= hhdm + f + PAGE_SIZE.
Proof.
  intros Hv. pose proof (per_frame_mul Hv) as Hp. destruct Hv as (Hn & _). unfold carve.
  rewrite list_elem_of_In, in_concat. intros (l & Hl & Ha). rewrite <- list_elem_of_In in Hl.
  rewrite <- list_elem_of_In in Ha. apply list_elem_of_fmap in Hl as (f & -> & Hf).
  apply list_elem_of_fmap in Ha as (i & -> & Hi%elem_of_seqZ). exists f. split; [done|]. nia.
Qed.
Lemma carve_apart hhdm fs : valid_size -> NoDup fs -> Forall (fun f => exists i, f = i * PAGE_SIZE) fs ->
  ForallOrdPairs apart (carve hhdm fs).
Proof.
  intros Hv Hnd Hal. induction fs as [|f fs IH]; [constructor|].
  apply NoDup_cons in Hnd as [Hf Hnd]. apply Forall_cons in Hal as [(i & Hfi) Hal].
  unfold carve. cbn [fmap list_fmap concat]. fold (carve hhdm fs). apply FOP_app.
  - apply slots_apart. by destruct Hv as ((? & _) & _).
  - by apply IH.
  - intros x y Hx Hy. destruct (carve_elem hhdm [f] x Hv) as (f' & Hf'%list_elem_of_singleton & Hx1 & Hx2).
    { unfold carve. cbn. by rewrite app_nil_r. }
    destruct (carve_elem hhdm fs y Hv Hy) as (g & Hg & Hy1 & Hy2). subst f'.
    eapply Forall_forall in Hal as (j & Hgj); [|exact Hg]. assert (f <> g) by (intros ->; done).
    unfold apart, PAGE_SIZE in *. destruct (Z.lt_trichotomy i j) as [|[|]]; [left; lia|subst; done|right; lia].
Qed.
Lemma FOP_take {A} (R : A -> A -> Prop) n l : ForallOrdPairs R l -> ForallOrdPairs R (take n l).
Proof.
  intros Hl. revert n. induction Hl as [|a l Ha Hl IH]; intros [|n]; cbn; try constructor; [|done].
  by apply Forall_take.
Qed.
End new_spec.

(** ** Handing buffers out *)
Lemma trailing_ones_spec n v : 0 <= v -> 0 <= trailing_ones n v <= Z.of_nat n /\
  (forall j, 0 <= j < trailing_ones n v -> Z.testbit v j = true) /\
  (trailing_ones n v < Z.of_nat n -> Z.testbit v (trailing_ones n v) = false).
Proof.
  revert v. induction n as [|n IH]; intros v Hv; cbn [trailing_ones]; [split_and!; lia|].
  destruct (Z.odd v) eqn:Ho; rewrite <- Z.bit0_odd in Ho.
  - destruct (IH (Z.shiftr v 1)) as (I1 & I2 & I3); [by apply Z.shiftr_nonneg|]. split_and!; [lia|lia| |].
    + intros j Hj. destruct (Z.eq_dec j 0) as [->|]; [done|].
      specialize (I2 (j - 1) ltac:(lia)). rewrite Z.shiftr_spec in I2 by lia.
      by replace (j - 1 + 1) with j in I2 by lia.
    + intros Hlt. rewrite Z.shiftr_spec in I3 by lia. rewrite Z.add_comm. apply I3. lia.
  - split_and!; [lia|lia|lia|done].
Qed.

Definition live_idxs (live : list DiskIOBufferPoolHandle) : list Z := omap hidx live.

Inductive pool_step : DiskIOBufferPool * list DiskIOBufferPoolHandle ->
    DiskIOBufferPool * list DiskIOBufferPoolHandle -> Prop :=
| pool_get p live heap h p' : get_buffer p heap = Ok (h, p') -> pool_step (p, live) (p', h :: live)
| pool_drop p live h rest : live ≡ₚ h :: rest -> pool_step (p, live) (drop_handle p h, rest).

Record pool_inv (bufs : list Z) (st : DiskIOBufferPool * list DiskIOBufferPoolHandle) : Prop := {
  pi_buffers : buffers st.1 = bufs;
  pi_mask : 0 <= mask st.1 < 2 ^ 64;
  pi_bits : forall j, 0 <= j < 64 -> Z.testbit (mask st.1) j = bool_decide (j ∈ live_idxs st.2);
  pi_nodup : NoDup (live_idxs st.2);
  pi_handles : Forall (fun h => match hidx h with
    | Some i => 0 <= i < 64 /\ bufs !! Z.to_nat i = Some (inner h) | None => True end) st.2;
}.

Lemma pool_get_inv bufs p live heap h p' : length bufs = 64%nat -> pool_inv bufs (p, live) ->
  get_buffer p heap = Ok (h, p') -> pool_inv bufs (p', h :: live).
Proof.
  intros Hlen [Hb Hm Hbits Hnd Hh] Hg. cbn in *. unfold get_buffer in Hg.
  destruct (trailing_ones_spec 64 (mask p)) as (T1 & T2 & T3); [lia|].
  set (t := trailing_ones 64 (mask p)) in *. clearbody t. destruct (t <? 64) eqn:Ht; boom.
  - rewrite Hb in Hg. destruct (index_total (E:=never) bufs t) as [a Ha]; [unfold zlen; lia|].
    rewrite Ha in Hg. cbn [mbind res_bind] in Hg. injection Hg as <- <-. specialize (T3 ltac:(lia)).
    assert (t ∉ live_idxs live) as Hnt.
    { intros Hin. rewrite Hbits, bool_decide_eq_true_2 in T3 by (done || lia). done. }
    split; cbn; [done|apply (setbit_range 64); lia| | |].
    + intros j Hj. rewrite setbit_spec, Hbits by lia.
      rewrite (bool_decide_ext (j ∈ t :: _) (j = t \/ j ∈ live_idxs live)) by apply elem_of_cons.
      rewrite bool_decide_or. f_equal. destruct (Z.eqb_spec t j), (bool_decide_reflect (j = t)); congruence.
    + by apply NoDup_cons.
    + apply Forall_cons. split; [|done]. cbn. split; [lia|]. by apply index_inv in Ha as [_ ?].
  - injection Hg as <- <-. cbn. split; cbn; try done. by apply Forall_cons.
Qed.
Lemma pool_drop_inv bufs p live h rest : pool_inv bufs (p, live) -> live ≡ₚ h :: rest ->
  pool_inv bufs (drop_handle p h, rest).
Proof.
  intros [Hb Hm Hbits Hnd Hh] Hp. cbn in *. rewrite Hp in Hh. apply Forall_cons in Hh as [Hi Hh].
  assert (live_idxs live ≡ₚ live_idxs (h :: rest)) as Hpl by (unfold live_idxs; by rewrite Hp).
  unfold drop_handle. cbn in Hpl. destruct (hidx h) as [i|]; cbn in Hpl.
  - destruct Hi as [Hi _]. rewrite Hpl in Hnd. apply NoDup_cons in Hnd as [Hni Hnd].
    split; cbn; [done|apply clrbit_range; lia| |done|done].
    intros j Hj. rewrite clrbit_spec, Hbits by lia.
    rewrite (bool_decide_ext (j ∈ live_idxs live) (j = i \/ j ∈ live_idxs rest)) by (rewrite Hpl; apply elem_of_cons).
    destruct (Z.eqb_spec i j) as [->|]; cbn; [by rewrite bool_decide_eq_false_2|].
    apply bool_decide_ext. split; [by intros [->|]|by right].
  - split; cbn; [done|done| |by rewrite Hpl in Hnd|done].
    intros j Hj. rewrite Hbits by done. apply bool_decide_ext. by rewrite Hpl.
Qed.
Lemma pool_reach bufs st st' : length bufs = 64%nat -> pool_inv bufs st -> rtc pool_step st st' -> pool_inv bufs st'.
Proof.
  intros Hl Hi Hr. induction Hr as [|x y z Hs Hr IH]; [done|]. apply IH. destruct Hs.
  - by eapply pool_get_inv.
  - by eapply pool_drop_inv.
Qed.

(** ** Theorems *)

(** C40: a pool built from the frame allocator has 64 buffers of [N] bytes that
    pairwise do not overlap, each inside one page frame that was free before
    and is taken afterwards; building it panics only if the allocator runs
    out of frames. *)
Theorem pool_buffers_disjoint `{Build} N hhdm (a : BitmapAllocator) : valid_size N -> wf a ->
  (pool_new N hhdm a = Panic /\ take_frames (Z.to_nat (div_ceil (N * 64) PAGE_SIZE)) a = None) \/
  exists p a', pool_new N hhdm a = Ok (p, a') /\ mask p = 0 /\ length (buffers p) = 64%nat /\
    ForallOrdPairs (apart N) (buffers p) /\
    Forall (fun b => exists f, src_free a f /\ ~ src_free a' f /\
      hhdm + f <= b /\ b + N <= hhdm + f + PAGE_SIZE) (buffers p).
Proof.
  intros Hv Hwf. assert (src_ok a) as Hok by exact Hwf. rewrite (pool_new_ok N hhdm a Hv Hok).
  destruct (take_frames _ a) as [[fs a']|] eqn:Ht; [right|by left].
  destruct (take_frames_fresh N _ a fs a' Hok Ht) as (_ & Hnd & Hfree & _ & Htaken).
  pose proof (carve_enough N hhdm a fs a' Hv Ht) as H64. eexists _, a'. split; [reflexivity|]. cbn [mask buffers].
  assert (padded (take 64 (carve N hhdm fs)) = take 64 (carve N hhdm fs)) as ->.
  { unfold padded. rewrite length_take, Nat.min_l by lia. apply app_nil_r. }
  split_and!; [done|rewrite length_take; lia| |].
  - apply FOP_take, carve_apart; [done|done|]. eapply Forall_impl; [exact Hfree|].
    intros f (i & _ & -> & _). by exists i.
  - apply Forall_take, Forall_forall. intros b Hb.
    destruct (carve_elem N hhdm fs b Hv Hb) as (f & Hf & ? & ?). exists f.
    split_and!; [by eapply Forall_forall in Hfree| |done..]. by eapply Forall_forall in Htaken.
Qed.

(** Sixteen free frames *)
Definition sample_frames : BitmapAllocator :=
  {| bitmap := {| start := 0; blength := 2; page_length := 1; mem := [0; 0] |}; next := 0 |}.

Lemma pool_buffers_disjoint_witness : exists p a',
  @pool_new SECTOR_SIZE _ (@bitmap_source dev_build) 0x10000 sample_frames = Ok (p, a') /\
  ForallOrdPairs (apart SECTOR_SIZE) (buffers p).
Proof.
  destruct (@pool_buffers_disjoint dev_build SECTOR_SIZE 0x10000 sample_frames) as [[E _]|(p & a' & E & _ & _ & Hd & _)].
  - repeat split; vm_compute; congruence.
  - split; [split; [done|repeat constructor; done|vm_compute; congruence]|vm_compute; split; congruence].
  - vm_compute in E. discriminate E.
  - exists p, a'. split; assumption.
Defined.

(** Two buffer handles of the pool alive at the same time never share a
    buffer: after any sequence of [get_buffer] and drops, the pool indices of
    the live handles are pairwise distinct, each handle holds the address of
    its own slot, and a bit of the mask is set exactly for the live ones (a
    handle beyond the 64th is backed by the heap instead). *)
Theorem pool_handles_distinct bufs p live : length bufs = 64%nat ->
  rtc pool_step ({| buffers := bufs; mask := 0 |}, []) (p, live) ->
  NoDup (live_idxs live) /\
  Forall (fun h => match hidx h with
    | Some i => 0 <= i < 64 /\ bufs !! Z.to_nat i = Some (inner h) | None => True end) live /\
  forall j, 0 <= j < 64 -> Z.testbit (mask p) j = bool_decide (j ∈ live_idxs live).
Proof.
  intros Hl Hr. assert (pool_inv bufs ({| buffers := bufs; mask := 0 |}, [])) as Hi.
  { split; cbn; [done|lia| |apply NoDup_nil_2|constructor].
    intros j _. rewrite Z.bits_0. by rewrite bool_decide_eq_false_2 by apply not_elem_of_nil. }
  destruct (pool_reach bufs _ _ Hl Hi Hr) as [_ _ Hb Hn Hh]. split_and!; [exact Hn|exact Hh|exact Hb].
Qed.

Lemma pool_handles_distinct_witness : exists p,
  rtc pool_step ({| buffers := seqZ 0 64; mask := 0 |}, [])
    (p, [{| hidx := Some 0; inner := 0 |}; {| hidx := Some 1; inner := 1 |}]) /\ NoDup [0; 1].
Proof.
  exists {| buffers := seqZ 0 64; mask := 3 |}.
  assert (rtc pool_step ({| buffers := seqZ 0 64; mask := 0 |}, []) ({| buffers := seqZ 0 64; mask := 3 |},
    [{| hidx := Some 0; inner := 0 |}; {| hidx := Some 1; inner := 1 |}])) as Hr.
  { eapply rtc_l; [apply (pool_get _ _ 0 {| hidx := Some 0; inner := 0 |} {| buffers := seqZ 0 64; mask := 1 |}); reflexivity|].
    eapply rtc_l; [apply (pool_get _ _ 0 {| hidx := Some 1; inner := 1 |} {| buffers := seqZ 0 64; mask := 3 |}); reflexivity|].
    eapply rtc_l; [apply (pool_drop _ _ {| hidx := Some 0; inner := 0 |} [{| hidx := Some 1; inner := 1 |}]), Permutation_swap|].
    eapply rtc_l; [apply (pool_get _ _ 0 {| hidx := Some 0; inner := 0 |} {| buffers := seqZ 0 64; mask := 3 |}); reflexivity|].
    apply rtc_refl. }
  split; [exact Hr|]. apply (pool_handles_distinct (seqZ 0 64) _ _ eq_refl Hr).
Defined.
