(* ===== verification/Channels.v ===== *)
(** * Channels

    src/kernel/src/ejcineque/sync: the one-shot cell (spsc/cell.rs), the
    unbounded channel (mpsc/unbounded.rs) and the ring-buffer channel
    (mpsc/bounded.rs).

    A waker is the identity of the task it wakes; an operation returns the
    tasks it wakes.  The cell and the unbounded channel do all their work
    under one lock, so any concurrent use is a sequence of the operations
    below, by any tasks.  The ring buffer is lock-free; its operations are
    modelled as executed one after the other.

    Shown here: the cell delivers the value set to the first poll after it and
    wakes the last waiter; the unbounded channel is first-in first-out and
    loses, duplicates and reorders nothing, but dropping its last sender wakes
    nobody; the ring refines a queue of bounded length, for positions up to
    the wrap-around of [usize]. *)

From S2P Require Import Prelude.

Abbreviation Waker := nat.

Inductive Poll (A : Type) := Ready (a : A) | Pending.
Arguments Ready {A} a.
Arguments Pending {A}.

(** ** spsc/cell.rs *)
Module Cell.
Section cell.
Context {A : Type}.

Record SpscCell := { inner : option A; waker : option Waker }.

Definition spsc_cells : SpscCell := {| inner := None; waker := None |}.

Definition set (value : A) (cell : SpscCell) : SpscCell * list Waker :=
  ({| inner := Some value; waker := waker cell |}, option_list (waker cell)).

Definition poll (cx : Waker) (cell : SpscCell) : Poll A * SpscCell :=
  match inner cell with
  | Some res => (Ready res, {| inner := None; waker := waker cell |})
  | None => (Pending, {| inner := None; waker := Some cx |})
  end.

Fixpoint polls (cxs : list Waker) (cell : SpscCell) : list (Poll A) * SpscCell :=
  match cxs with
  | [] => ([], cell)
  | cx :: cxs =>
      let '(r, cell) := poll cx cell in
      let '(rs, cell) := polls cxs cell in (r :: rs, cell)
  end.

Lemma polls_empty cxs w : polls cxs {| inner := None; waker := w |} =
  (replicate (length cxs) Pending, {| inner := None; waker := from_option Some w (last cxs) |}).
Proof.
  revert w. induction cxs as [|cx cxs IH]; intros w; cbn [polls]; [done|].
  cbn. rewrite IH, last_cons. cbn. by destruct (last cxs).
Qed.
End cell.

(** The one-shot cell: polls before the value is set are pending, setting
    it wakes the last task that polled, the first poll after it is ready with
    the value, and later ones are pending again: the value is delivered
    exactly once. *)
Theorem cell_delivers_once {A} (v : A) cxs cx cxs' :
  let '(before, c1) := polls cxs spsc_cells in
  let '(c2, woken) := set v c1 in
  let '(now, c3) := poll cx c2 in
  let '(after, _) := polls cxs' c3 in
  before = replicate (length cxs) Pending /\ woken = option_list (last cxs) /\
  now = Ready v /\ after = replicate (length cxs') Pending.
Proof.
  unfold spsc_cells. rewrite polls_empty. cbn. rewrite polls_empty. split_and!; try done.
  by destruct (last cxs).
Qed.
End Cell.

(** ** mpsc/unbounded.rs *)
Module Unbounded.
Section channel.
Context {A : Type}.

Record UnboundedChannel := {
  buffer : list A;
  rx_wakers : list Waker;
  sender_count : Z;
}.

Definition unbounded_channel : UnboundedChannel :=
  {| buffer := []; rx_wakers := []; sender_count := 1 |}.

Definition clone `{Build} (c : UnboundedChannel) : res never UnboundedChannel :=
  n ← uadd 64 (sender_count c) 1;
  Ok {| buffer := buffer c; rx_wakers := rx_wakers c; sender_count := n |}.
Definition drop_sender `{Build} (c : UnboundedChannel) : res never UnboundedChannel :=
  n ← usub 64 (sender_count c) 1;
  Ok {| buffer := buffer c; rx_wakers := rx_wakers c; sender_count := n |}.
Definition send (msg : A) (c : UnboundedChannel) : UnboundedChannel * list Waker :=
  let b := buffer c ++ [msg] in
  match rx_wakers c with
  | waker :: ws => ({| buffer := b; rx_wakers := ws; sender_count := sender_count c |}, [waker])
  | [] => ({| buffer := b; rx_wakers := []; sender_count := sender_count c |}, [])
  end.
Definition try_recv (c : UnboundedChannel) : option A * UnboundedChannel :=
  match buffer c with
  | msg :: b => (Some msg, {| buffer := b; rx_wakers := rx_wakers c; sender_count := sender_count c |})
  | [] => (None, c)
  end.
Definition poll_recv (cx : Waker) (c : UnboundedChannel) : Poll (option A) * UnboundedChannel :=
  match buffer c with
  | msg :: b => (Ready (Some msg), {| buffer := b; rx_wakers := rx_wakers c; sender_count := sender_count c |})
  | [] =>
      if sender_count c =? 0 then (Ready None, c)
      else (Pending, {| buffer := []; rx_wakers := rx_wakers c ++ [cx]; sender_count := sender_count c |})
  end.

(** A history of the channel: what was sent, received, woken and registered *)
Inductive Op := Clone | DropSender | Send (msg : A) | TryRecv | PollRecv (cx : Waker).
Record Log := { sent : list A; received : list A; woken : list Waker; registered : list Waker }.
Definition log0 : Log := {| sent := []; received := []; woken := []; registered := [] |}.

Definition step `{Build} (op : Op) (st : UnboundedChannel * Log) : res never (UnboundedChannel * Log) :=
  let '(c, l) := st in
  match op with
  | Clone => c ← clone c; Ok (c, l)
  | DropSender => c ← drop_sender c; Ok (c, l)
  | Send msg =>
      let '(c, ws) := send msg c in
      Ok (c, {| sent := sent l ++ [msg]; received := received l; woken := woken l ++ ws;
                registered := registered l |})
  | TryRecv =>
      let '(o, c) := try_recv c in
      Ok (c, {| sent := sent l; received := received l ++ option_list o; woken := woken l;
                registered := registered l |})
  | PollRecv cx =>
      let '(p, c) := poll_recv cx c in
      Ok (c, match p with
             | Ready o => {| sent := sent l; received := received l ++ option_list o; woken := woken l;
                             registered := registered l |}
             | Pending => {| sent := sent l; received := received l; woken := woken l;
                             registered := registered l ++ [cx] |}
             end)
  end.
Definition run `{Build} (ops : list Op) (st : UnboundedChannel * Log) : res never (UnboundedChannel * Log) :=
  rfor ops st step.

Record fifo_inv (st : UnboundedChannel * Log) : Prop := {
  fifo_msgs : sent st.2 = received st.2 ++ buffer st.1;
  fifo_wakers : registered st.2 = woken st.2 ++ rx_wakers st.1;
}.
Lemma step_fifo `{Build} op st st' : fifo_inv st -> step op st = Ok st' -> fifo_inv st'.
Proof.
  destruct st as [c l]. intros [Hm Hw]. cbn in Hm, Hw.
  destruct op as [| |msg| |cx]; cbn [step]; unfold clone, drop_sender, send, try_recv, poll_recv.
  - intros Hs. res_inv. subst. by split.
  - intros Hs. res_inv. subst. by split.
  - destruct (rx_wakers c) as [|w ws] eqn:E; intros [= <-]; split; cbn; rewrite ?Hm, ?Hw;
      by rewrite <- ?app_assoc, ?app_nil_r.
  - destruct (buffer c) as [|m b] eqn:E; intros [= <-]; split; cbn; rewrite ?E, ?Hm, ?Hw, ?app_nil_r; try done;
      by rewrite <- app_assoc.
  - destruct (buffer c) as [|m b] eqn:E; [destruct (sender_count c =? 0)|]; intros [= <-]; split; cbn;
      rewrite ?E, ?Hm, ?Hw, ?app_nil_r; try done; by rewrite <- app_assoc.
Qed.
Lemma run_fifo `{Build} ops st st' : fifo_inv st -> run ops st = Ok st' -> fifo_inv st'.
Proof.
  revert st. induction ops as [|op ops IH]; intros st Hi; cbn; [by intros [= <-]|].
  intros Hr. res_inv. eauto using step_fifo.
Qed.
End channel.
Arguments UnboundedChannel : clear implicits.
Arguments Op : clear implicits.
Arguments Log : clear implicits.

(** The unbounded channel is first-in first-out: after any sequence of
    sends, receives, polls, sender clones and drops, by any tasks, the
    messages received so far followed by the ones buffered are exactly the
    messages sent, in order; and the tasks woken so far followed by the ones
    waiting are exactly the tasks that registered, in order. *)
Theorem unbounded_fifo `{Build} {A} (ops : list (Op A)) c l :
  run ops (unbounded_channel, log0) = Ok (c, l) ->
  sent l = received l ++ buffer c /\ registered l = woken l ++ rx_wakers c.
Proof. intros Hr. by eapply run_fifo in Hr as [? ?]; [|split]. Qed.

Lemma unbounded_fifo_witness : exists c l,
  @run _ dev_build [PollRecv 1%nat; Send 10; Send 11; Clone; PollRecv 1%nat; DropSender; TryRecv; Send 12]
    (unbounded_channel, log0) = Ok (c, l) /\ sent l = [10; 11] ++ [12].
Proof.
  eexists _, _. split; [reflexivity|].
  exact (proj1 (@unbounded_fifo dev_build Z
    [PollRecv 1%nat; Send 10; Send 11; Clone; PollRecv 1%nat; DropSender; TryRecv; Send 12] _ _ eq_refl)).
Defined.

(** Dropping the last sender wakes nobody: a receiver that is waiting when
    the last sender goes away stays registered and unwoken, although polling
    again would return the end of the stream. *)
Theorem last_sender_wakes_nobody `{Build} (A : Type) cx : exists c l,
  run (A:=A) [PollRecv cx; DropSender] (unbounded_channel, log0) = Ok (c, l) /\
  sender_count c = 0 /\ rx_wakers c = [cx] /\ woken l = [] /\
  fst (poll_recv cx c) = Ready None.
Proof. eexists _, _. split; [reflexivity|]. done. Qed.
End Unbounded.

(** ** mpsc/bounded.rs *)
Module Bounded.

(** [state]: 0 = empty, 1 = writing, 2 = ready, 3 = reading *)
Record Slot (B : Type) := { value : option B; state : Z }.
Arguments Build_Slot {B} value state.
Arguments value {B} s.
Arguments state {B} s.

(** An array of slots with its two positions: the message ring
    ([buffer], [write_pos], [read_pos]) and the waker ring ([wakers],
    [waker_write_pos], [waker_read_pos]) are two of them. *)
Record Ring (B : Type) := { slots : list (Slot B); write_pos : Z; read_pos : Z }.
Arguments Build_Ring {B} slots write_pos read_pos.
Arguments slots {B} r.
Arguments write_pos {B} r.
Arguments read_pos {B} r.

Record Channel (A : Type) := {
  buffer : Ring A;
  wakers : Ring Waker;
  sender_count : Z;
  closed : bool;
}.
Arguments Build_Channel {A} buffer wakers sender_count closed.
Arguments buffer {A} c.
Arguments wakers {A} c.
Arguments sender_count {A} c.
Arguments closed {A} c.

Section bounded.
Context `{Build} {A : Type} (CAPACITY : Z).

Definition new_ring (B : Type) : Ring B :=
  {| slots := replicate (Z.to_nat CAPACITY) {| value := None; state := 0 |};
     write_pos := 0; read_pos := 0 |}.
Definition new : Channel A :=
  {| buffer := new_ring A; wakers := new_ring Waker; sender_count := 1; closed := false |}.

(** The exchange 0 -> 1 on the slot at the write position and, on success, the
    write, the store of 2 and the advance; on failure the exchange of the
    write position with the next one. *)
Definition claim_write {B} (v : B) (r : Ring B) : res never (bool * Ring B) :=
  i ← urem (write_pos r) CAPACITY;
  slot ← index (slots r) i;
  if state slot =? 0 then
    s ← update (slots r) i {| value := Some v; state := 2 |};
    Ok (true, {| slots := s; write_pos := wrap 64 (write_pos r + 1); read_pos := read_pos r |})
  else
    w ← uadd 64 (write_pos r) 1;
    Ok (false, {| slots := slots r; write_pos := w; read_pos := read_pos r |}).

(** The exchange 2 -> 3 on the slot at the read position and, on success, the
    read, the store of 0 and the advance; on failure the exchange of the read
    position with the next one. *)
Definition claim_read {B} (r : Ring B) : res never (option B * Ring B) :=
  i ← urem (read_pos r) CAPACITY;
  slot ← index (slots r) i;
  if state slot =? 2 then
    v ← match value slot with Some v => Ok v | None => Panic end;
    s ← update (slots r) i {| value := None; state := 0 |};
    Ok (Some v, {| slots := s; write_pos := write_pos r; read_pos := wrap 64 (read_pos r + 1) |})
  else
    p ← uadd 64 (read_pos r) 1;
    Ok (None, {| slots := slots r; write_pos := write_pos r; read_pos := p |}).

(** The loop of [try_recv] and of [try_wake_receiver] *)
Fixpoint recv_loop {B} (fuel : nat) (r : Ring B) : res never (option B * Ring B) :=
  match fuel with
  | O => Hang
  | S fuel =>
      if read_pos r =? write_pos r then Ok (None, r)
      else
        '(o, r) ← claim_read r;
        match o with Some v => Ok (Some v, r) | None => recv_loop fuel r end
  end.
Definition distance {B} (r : Ring B) : nat := Z.to_nat (wrap 64 (write_pos r - read_pos r)).
Definition recv_ring {B} (r : Ring B) := recv_loop (S (distance r)) r.

Definition try_recv (c : Channel A) : res never (option A * Channel A) :=
  '(o, r) ← recv_ring (buffer c);
  Ok (o, {| buffer := r; wakers := wakers c; sender_count := sender_count c; closed := closed c |}).

Definition try_wake_receiver (c : Channel A) : res never (list Waker * Channel A) :=
  '(o, r) ← recv_ring (wakers c);
  Ok (option_list o, {| buffer := buffer c; wakers := r; sender_count := sender_count c; closed := closed c |}).

Fixpoint send_loop (fuel : nat) (msg : A) (r : Ring A) : res never (bool * Ring A) :=
  match fuel with
  | O => Hang
  | S fuel =>
      if CAPACITY <=? wrap 64 (write_pos r - read_pos r) then Ok (false, r)
      else
        '(claimed, r) ← claim_write msg r;
        if (claimed : bool) then Ok (true, r) else send_loop fuel msg r
  end.

(** [None] is accepted, [Some msg] the message given back *)
Definition try_send (msg : A) (c : Channel A) : res never (option A * list Waker * Channel A) :=
  if closed c then Ok (Some msg, [], c)
  else
    '(sent, r) ← send_loop (S (Z.to_nat CAPACITY)) msg (buffer c);
    let c := {| buffer := r; wakers := wakers c; sender_count := sender_count c; closed := closed c |} in
    if (sent : bool) then '(ws, c) ← try_wake_receiver c; Ok (None, ws, c)
    else Ok (Some msg, [], c).

Fixpoint register_loop (attempts : nat) (cx : Waker) (r : Ring Waker) : res never (Ring Waker) :=
  match attempts with
  | O => Ok r
  | S attempts =>
      '(claimed, r) ← claim_write cx r;
      if (claimed : bool) then Ok r else register_loop attempts cx r
  end.
Definition register_waker (cx : Waker) (c : Channel A) : res never (Channel A) :=
  r ← register_loop (Z.to_nat CAPACITY) cx (wakers c);
  Ok {| buffer := buffer c; wakers := r; sender_count := sender_count c; closed := closed c |}.

Definition is_closed (c : Channel A) : bool := closed c && (sender_count c =? 0).

Definition poll (cx : Waker) (c : Channel A) : res never (Poll (option A) * Channel A) :=
  '(o, c) ← try_recv c;
  match o with
  | Some msg => Ok (Ready (Some msg), c)
  | None =>
      if is_closed c then Ok (Ready None, c)
      else
        c ← register_waker cx c;
        '(o, c) ← try_recv c;
        match o with
        | Some msg => Ok (Ready (Some msg), c)
        | None => if is_closed c then Ok (Ready None, c) else Ok (Pending, c)
        end
  end.

Definition clone (c : Channel A) : Channel A :=
  {| buffer := buffer c; wakers := wakers c; sender_count := wrap 64 (sender_count c + 1); closed := closed c |}.

Fixpoint wake_all (fuel : nat) (c : Channel A) : res never (list Waker * Channel A) :=
  match fuel with
  | O => Hang
  | S fuel =>
      if read_pos (wakers c) =? write_pos (wakers c) then Ok ([], c)
      else
        '(ws, c) ← try_wake_receiver c;
        '(ws', c) ← wake_all fuel c;
        Ok (ws ++ ws', c)
  end.
Definition drop_sender (c : Channel A) : res never (list Waker * Channel A) :=
  let c' := {| buffer := buffer c; wakers := wakers c; sender_count := wrap 64 (sender_count c - 1);
               closed := closed c |} in
  if sender_count c =? 1 then
    wake_all (S (distance (wakers c)))
      {| buffer := buffer c'; wakers := wakers c'; sender_count := sender_count c'; closed := true |}
  else Ok ([], c').

(** The message ring holds the queue [q]: the slots from the read position
    on are ready with its messages, the rest are empty. *)
Record holds {B} (r : Ring B) (q : list B) : Prop := {
  h_len : zlen (slots r) = CAPACITY;
  h_read : 0 <= read_pos r;
  h_write : write_pos r = read_pos r + zlen q;
  h_cap : zlen q <= CAPACITY;
  h_slot : forall j, 0 <= j < CAPACITY ->
    exists s, slots r !! Z.to_nat ((read_pos r + j) mod CAPACITY) = Some s /\
      match q !! Z.to_nat j with
      | Some v => s = {| value := Some v; state := 2 |}
      | None => state s = 0
      end;
}.

(** The waker ring: every slot is empty or ready, and every ready slot is
    still ahead of the read position. *)
Definition ready {B} (r : Ring B) (i : Z) (v : B) : Prop :=
  slots r !! Z.to_nat i = Some {| value := Some v; state := 2 |}.
Record awaits {B} (r : Ring B) : Prop := {
  a_len : zlen (slots r) = CAPACITY;
  a_pos : 0 <= read_pos r <= write_pos r;
  a_slot : Forall (fun s : Slot B => state s = 0 \/ exists v, s = {| value := Some v; state := 2 |}) (slots r);
  a_ahead : forall i v, 0 <= i < CAPACITY -> ready r i v ->
    exists k, read_pos r <= k < write_pos r /\ k mod CAPACITY = i;
}.
Definition waiting {B} (r : Ring B) : Prop := exists i v, 0 <= i < CAPACITY /\ ready r i v.

(** What the channel promises: a queue of at most [CAPACITY] messages *)
Record Queue := { q_msgs : list A; q_senders : Z; q_closed : bool }.
Definition q_new : Queue := {| q_msgs := []; q_senders := 1; q_closed := false |}.

Inductive Op := Send (msg : A) | Poll_ (cx : Waker) | Clone | DropSender.
Inductive Outcome := Sent | Refused (msg : A) | Polled (p : Poll (option A)) | Done.

Definition q_step (op : Op) (q : Queue) : Outcome * Queue :=
  match op with
  | Send msg =>
      if q_closed q || (CAPACITY <=? zlen (q_msgs q)) then (Refused msg, q)
      else (Sent, {| q_msgs := q_msgs q ++ [msg]; q_senders := q_senders q; q_closed := q_closed q |})
  | Poll_ cx =>
      match q_msgs q with
      | msg :: ms => (Polled (Ready (Some msg)), {| q_msgs := ms; q_senders := q_senders q; q_closed := q_closed q |})
      | [] => (Polled (if q_closed q && (q_senders q =? 0) then Ready None else Pending), q)
      end
  | Clone => (Done, {| q_msgs := q_msgs q; q_senders := wrap 64 (q_senders q + 1); q_closed := q_closed q |})
  | DropSender =>
      (Done, {| q_msgs := q_msgs q; q_senders := wrap 64 (q_senders q - 1);
                q_closed := q_closed q || (q_senders q =? 1) |})
  end.
Fixpoint q_run (ops : list Op) (q : Queue) : list Outcome * Queue :=
  match ops with
  | [] => ([], q)
  | op :: ops => let '(o, q) := q_step op q in let '(os, q) := q_run ops q in (o :: os, q)
  end.

Definition step (op : Op) (c : Channel A) : res never (Outcome * list Waker * Channel A) :=
  match op with
  | Send msg =>
      '(o, ws, c) ← try_send msg c;
      Ok (match o with None => Sent | Some m => Refused m end, ws, c)
  | Poll_ cx => '(p, c) ← poll cx c; Ok (Polled p, [], c)
  | Clone => Ok (Done, [], clone c)
  | DropSender => '(ws, c) ← drop_sender c; Ok (Done, ws, c)
  end.
Fixpoint run (ops : list Op) (c : Channel A) : res never (list Outcome * Channel A) :=
  match ops with
  | [] => Ok ([], c)
  | op :: ops =>
      '(o, _, c) ← step op c;
      '(os, c) ← run ops c;
      Ok (o :: os, c)
  end.

Context (Hcap : 0 < CAPACITY < 2 ^ 32).

Lemma same_slot j k p : 0 <= j < CAPACITY -> 0 <= k < CAPACITY ->
  (p + j) mod CAPACITY = (p + k) mod CAPACITY -> j = k.
Proof.
  intros Hj Hk He.
  assert ((j - k) mod CAPACITY = 0) as Hd.
  { replace (j - k) with ((p + j) - (p + k)) by lia. by rewrite Zminus_mod, He, Z.sub_diag, Z.mod_0_l by lia. }
  apply Z.mod_divide in Hd as [z Hz]; [|lia]. clear He.
  destruct (Z.lt_trichotomy z 0) as [Hz0|[->|Hz0]]; [nia|lia|nia].
Qed.
Lemma slot_range p : 0 <= p mod CAPACITY < CAPACITY.
Proof. apply Z.mod_pos_bound; lia. Qed.

Lemma new_holds B : holds (new_ring B) [].
Proof.
  split; cbn; unfold zlen; rewrite ?length_replicate; cbn [length]; try lia.
  intros j Hj. eexists. rewrite lookup_replicate_2; [done|]. pose proof (slot_range (0 + j)). lia.
Qed.
Lemma new_awaits B : awaits (new_ring B).
Proof.
  split; cbn; rewrite ?zlen_replicate; try lia.
  - by apply Forall_replicate; left.
  - intros i v Hi Hr. unfold ready in Hr. cbn in Hr. apply lookup_replicate in Hr as [[=] _].
Qed.

Lemma claim_write_holds {B} (v : B) r q : holds r q -> zlen q < CAPACITY -> write_pos r < 2 ^ 62 ->
  exists r', claim_write v r = Ok (true, r') /\ holds r' (q ++ [v]) /\ write_pos r' = write_pos r + 1.
Proof.
  intros [Hl Hr Hw Hc Hs] Hq Hb. unfold claim_write. pose proof (slot_range (write_pos r)) as Hi.
  pose proof (zlen_nonneg q) as Hq0.
  destruct (Hs (zlen q)) as (s & Hs1 & Hs2); [lia|]. rewrite <- Hw in Hs1.
  rewrite lookup_ge_None_2 in Hs2 by (unfold zlen; lia).
  rewrite urem_ok by lia. rsimpl. rewrite (index_ok _ _ s) by (done || lia). rsimpl. rewrite Hs2.
  btrue (0 =? 0). rewrite update_ok by lia. rsimpl. rewrite wrap_small by lia.
  eexists. split; [done|]. split; [|cbn; lia].
  split; cbn; rewrite ?zlen_insert, ?zlen_app, ?zlen_cons, ?zlen_nil; try lia.
  intros j Hj. destruct (decide (j = zlen q)) as [->|Hne].
  - rewrite <- Hw. eexists. rewrite list_lookup_insert_eq by (unfold zlen in Hl; lia). split; [done|].
    by rewrite list_lookup_middle by (unfold zlen; lia).
  - destruct (Hs j Hj) as (s' & Hs1' & Hs2'). exists s'. rewrite list_lookup_insert_ne.
    + split; [done|]. destruct (decide (j < zlen q)).
      * rewrite lookup_app_l by (unfold zlen in *; lia). done.
      * rewrite lookup_ge_None_2 in Hs2' by (unfold zlen in *; lia).
        rewrite lookup_ge_None_2; [done|]. rewrite length_app. cbn. unfold zlen in *; lia.
    + pose proof (slot_range (read_pos r + j)). intros E. apply Hne.
      apply (same_slot _ _ (read_pos r)); try lia. rewrite <- Hw. lia.
Qed.

Lemma claim_read_holds {B} (v : B) r q : holds r (v :: q) -> write_pos r < 2 ^ 62 ->
  exists r', claim_read r = Ok (Some v, r') /\ holds r' q /\ write_pos r' = write_pos r.
Proof.
  intros [Hl Hr Hw Hc Hs] Hb. unfold claim_read. pose proof (slot_range (read_pos r)) as Hi.
  pose proof (zlen_nonneg q) as Hq0. rewrite zlen_cons in Hw, Hc.
  destruct (Hs 0) as (s & Hs1 & Hs2); [lia|]. rewrite Z.add_0_r in Hs1. change (Z.to_nat 0) with 0%nat in Hs2. cbn in Hs2. subst s.
  rewrite urem_ok by lia. rsimpl. erewrite index_ok by (done || lia). rsimpl. cbn [state value].
  btrue (2 =? 2). rsimpl. rewrite update_ok by lia. rsimpl. rewrite wrap_small by lia.
  eexists. split; [done|]. split; [|done].
  split; cbn; rewrite ?zlen_insert; try lia.
  intros j Hj. destruct (decide (j = CAPACITY - 1)) as [->|Hne].
  - replace (read_pos r + 1 + (CAPACITY - 1)) with (read_pos r + 1 * CAPACITY) by lia.
    rewrite Z.mod_add by lia. eexists. rewrite list_lookup_insert_eq by (unfold zlen in Hl; lia).
    split; [done|]. rewrite lookup_ge_None_2; [done|]. unfold zlen in *; lia.
  - destruct (Hs (j + 1)) as (s' & Hs1' & Hs2'); [lia|]. exists s'. rewrite list_lookup_insert_ne.
    + replace (read_pos r + 1 + j) with (read_pos r + (j + 1)) by lia. split; [done|].
      replace (Z.to_nat (j + 1)) with (S (Z.to_nat j)) in Hs2' by lia. done.
    + pose proof (slot_range (read_pos r + 1 + j)). intros E.
      assert (0 = j + 1); [|lia]. apply (same_slot _ _ (read_pos r)); try lia.
      rewrite Z.add_0_r. replace (read_pos r + (j + 1)) with (read_pos r + 1 + j) by lia. lia.
Qed.

Lemma awaits_slot {B} (r : Ring B) p : awaits r ->
  exists s, slots r !! Z.to_nat (p mod CAPACITY) = Some s /\
    (state s = 0 \/ exists v, s = {| value := Some v; state := 2 |}).
Proof.
  intros [Hl _ Hs _]. pose proof (slot_range p). unfold zlen in Hl.
  destruct (lookup_lt_is_Some_2 (slots r) (Z.to_nat (p mod CAPACITY))) as [s Hs1]; [lia|].
  exists s. split; [done|]. by eapply Forall_lookup_1 in Hs.
Qed.

Lemma claim_write_awaits {B} (v : B) r : awaits r -> write_pos r < 2 ^ 62 ->
  exists b r', claim_write v r = Ok (b, r') /\ awaits r' /\ write_pos r' = write_pos r + 1.
Proof.
  intros Ha Hb. destruct (awaits_slot r (write_pos r) Ha) as (s & Hs1 & Hs2).
  destruct Ha as [Hl Hp Hs Hr]. pose proof (slot_range (write_pos r)) as Hi.
  unfold claim_write. rewrite urem_ok by lia. rsimpl. rewrite (index_ok _ _ s) by (done || lia). rsimpl.
  destruct Hs2 as [->|[v' ->]]; [btrue (0 =? 0)|cbn [state]; bfalse (2 =? 0)].
  - rewrite update_ok by lia. rsimpl. rewrite wrap_small by lia. eexists _, _. split; [done|].
    split; [|done]. split; cbn; rewrite ?zlen_insert; try lia.
    + apply Forall_insert; [done|]. right. by eexists.
    + intros i v' Hi'. unfold ready. cbn. destruct (decide (i = write_pos r mod CAPACITY)) as [->|Hne].
      * intros _. exists (write_pos r). split; [lia|done].
      * rewrite list_lookup_insert_ne by lia. intros Hv. destruct (Hr i v' Hi' Hv) as (k & ? & ?).
        exists k. split; [lia|done].
  - rewrite uadd_ok by lia. rsimpl. eexists _, _. split; [done|]. split; [|done].
    split; cbn; try (done || lia). intros i v0 Hi' Hv. destruct (Hr i v0 Hi' Hv) as (k & ? & ?).
    exists k. split; [lia|done].
Qed.

Lemma claim_read_awaits {B} (r : Ring B) : awaits r -> read_pos r < write_pos r -> write_pos r < 2 ^ 62 ->
  exists o r', claim_read r = Ok (o, r') /\ awaits r' /\ write_pos r' = write_pos r /\
    read_pos r' = read_pos r + 1 /\ (o = None -> slots r' = slots r).
Proof.
  intros Ha Hlt Hb. destruct (awaits_slot r (read_pos r) Ha) as (s & Hs1 & Hs2).
  destruct Ha as [Hl Hp Hs Hr]. pose proof (slot_range (read_pos r)) as Hi.
  unfold claim_read. rewrite urem_ok by lia. rsimpl. rewrite (index_ok _ _ s) by (done || lia). rsimpl.
  destruct Hs2 as [Hs2|[v' ->]]; [rewrite Hs2; bfalse (0 =? 2)|cbn [state value]; btrue (2 =? 2)].
  - rewrite uadd_ok by lia. rsimpl. eexists _, _. split; [done|]. split_and!; [|done..].
    split; cbn; try (done || lia). intros i v0 Hi' Hv. destruct (Hr i v0 Hi' Hv) as (k & ? & Hk).
    exists k. split; [|done]. assert (k <> read_pos r); [|lia]. intros ->. subst i.
    unfold ready in Hv. cbn in Hv. rewrite Hs1 in Hv. by injection Hv as ->.
  - rsimpl. rewrite update_ok by lia. rsimpl. rewrite wrap_small by lia.
    eexists _, _. split; [done|]. split_and!; [|done..]. split; cbn; rewrite ?zlen_insert; try lia.
    + apply Forall_insert; [done|]. by left.
    + intros i v0 Hi'. unfold ready. cbn. destruct (decide (i = read_pos r mod CAPACITY)) as [->|Hne].
      * rewrite list_lookup_insert_eq by (unfold zlen in Hl; lia). intros [=].
      * rewrite list_lookup_insert_ne by lia. intros Hv. destruct (Hr i v0 Hi' Hv) as (k & ? & ?).
        exists k. split; [|done]. assert (k <> read_pos r) by (intros ->; lia). lia.
Qed.

Lemma distance_eq {B} (r : Ring B) : 0 <= read_pos r <= write_pos r -> write_pos r < 2 ^ 62 ->
  Z.of_nat (distance r) = write_pos r - read_pos r.
Proof. intros. unfold distance. rewrite wrap_small; lia. Qed.

Lemma recv_loop_awaits {B} fuel (r : Ring B) : awaits r -> write_pos r < 2 ^ 62 -> (distance r < fuel)%nat ->
  exists o r', recv_loop fuel r = Ok (o, r') /\ awaits r' /\ write_pos r' = write_pos r /\
    read_pos r <= read_pos r' /\ (read_pos r < write_pos r -> read_pos r < read_pos r') /\
    (o = None -> slots r' = slots r /\ read_pos r' = write_pos r).
Proof.
  revert r. induction fuel as [|fuel IH]; intros r Ha Hb Hf; [lia|]. cbn [recv_loop].
  pose proof (a_pos r Ha) as Hp. destruct (read_pos r =? write_pos r) eqn:E; boom.
  - eexists _, _. split; [done|]. split_and!; try done; lia.
  - destruct (claim_read_awaits r) as (o & r' & -> & Ha' & Hw & Hr & Hs); [done|lia|done|]. rsimpl.
    destruct o as [v|].
    { eexists _, _. split; [done|]. split_and!; try done; lia. }
    destruct (IH r') as (o & r2 & -> & Ha2 & Hw2 & Hle & Hr2 & Hn); [done|lia| |].
    { pose proof (distance_eq r). pose proof (distance_eq r'). lia. }
    eexists _, _. split; [done|]. split_and!; try done; [lia..|].
    intros ->. destruct Hn as [-> ->]; [done|]. split; [by apply Hs|lia].
Qed.
Lemma recv_ring_awaits {B} (r : Ring B) : awaits r -> write_pos r < 2 ^ 62 ->
  exists o r', recv_ring r = Ok (o, r') /\ awaits r' /\ write_pos r' = write_pos r /\
    (read_pos r < write_pos r -> read_pos r < read_pos r') /\ (o = None -> ~ waiting r).
Proof.
  intros Ha Hb. destruct (recv_loop_awaits (S (distance r)) r) as (o & r' & ? & Ha' & Hw & _ & ? & Hn); [done..|lia|].
  exists o, r'. split_and!; try done. intros -> (i & v & Hi & Hv). destruct Hn as [Hs Hr]; [done|].
  destruct (a_ahead r' Ha' i v Hi) as (k & Hk & _); [by unfold ready; rewrite Hs|]. lia.
Qed.

Lemma recv_ring_holds {B} (r : Ring B) q : holds r q -> write_pos r < 2 ^ 62 ->
  exists r', recv_ring r = Ok (head q, r') /\ holds r' (tail q) /\ write_pos r' = write_pos r.
Proof.
  intros Hh Hb. unfold recv_ring. cbn [recv_loop]. pose proof (h_write r q Hh) as Hw.
  destruct q as [|v q].
  - change (zlen []) with 0 in Hw. btrue (read_pos r =? write_pos r). eauto.
  - rewrite zlen_cons in Hw. pose proof (zlen_nonneg q). bfalse (read_pos r =? write_pos r).
    destruct (claim_read_holds v r q Hh Hb) as (r' & -> & ? & ?). rsimpl. eauto.
Qed.
Lemma send_loop_holds fuel (msg : A) r q : holds r q -> write_pos r < 2 ^ 62 ->
  exists r', send_loop (S fuel) msg r = Ok (negb (CAPACITY <=? zlen q), r') /\
    holds r' (if CAPACITY <=? zlen q then q else q ++ [msg]) /\ write_pos r' <= write_pos r + 1.
Proof.
  intros Hh Hb. cbn [send_loop]. pose proof (h_write r q Hh) as Hw. pose proof (h_read r q Hh).
  pose proof (zlen_nonneg q).
  rewrite wrap_small by lia. replace (write_pos r - read_pos r) with (zlen q) by lia.
  destruct (CAPACITY <=? zlen q) eqn:E; boom.
  - eexists. split_and!; [done..|lia].
  - destruct (claim_write_holds msg r q Hh) as (r' & -> & ? & ?); [lia..|]. rsimpl.
    eexists. split_and!; [done..|lia].
Qed.
Lemma register_loop_awaits n cx r : awaits r -> write_pos r + Z.of_nat n < 2 ^ 62 ->
  exists r', register_loop n cx r = Ok r' /\ awaits r' /\ write_pos r' <= write_pos r + Z.of_nat n.
Proof.
  revert r. induction n as [|n IH]; intros r Ha Hb; cbn [register_loop].
  { eexists. split_and!; [done..|lia]. }
  destruct (claim_write_awaits cx r) as (b & r' & -> & Ha' & Hw); [done|lia|]. rsimpl.
  destruct b; [eexists; split_and!; [done..|lia]|].
  destruct (IH r') as (r2 & -> & ? & ?); [done|lia|]. eexists. split_and!; [done..|lia].
Qed.

(** After at most [n] operations the channel represents the queue. *)
Record rep (n : Z) (c : Channel A) (q : Queue) : Prop := {
  r_msgs : holds (buffer c) (q_msgs q);
  r_wakers : awaits (wakers c);
  r_senders : sender_count c = q_senders q;
  r_closed : closed c = q_closed q;
  r_bound : write_pos (buffer c) <= n;
  r_wbound : write_pos (wakers c) <= n * CAPACITY;
}.
Lemma rep_new : rep 0 new q_new.
Proof. split; cbn; [apply new_holds|apply new_awaits|done|done|lia|lia]. Qed.

Lemma wake_all_ok n c q fuel : rep n c q -> 0 <= n < 2 ^ 29 -> (distance (wakers c) < fuel)%nat ->
  exists ws c', wake_all fuel c = Ok (ws, c') /\ rep n c' q.
Proof.
  revert c. induction fuel as [|fuel IH]; intros c Hr Hn Hf; [lia|]. cbn [wake_all].
  destruct (_ =? _) eqn:E; [by eexists _, _|]. boom.
  destruct Hr as [Hm Ha Hs Hc Hb Hwb]. pose proof (a_pos _ Ha). unfold try_wake_receiver.
  destruct (recv_ring_awaits (wakers c)) as (o & r' & -> & Ha' & Hw & Hlt & _); [done|nia|]. rsimpl.
  edestruct IH as (ws & c' & -> & Hr'); [|done| |].
  - split; cbn [buffer wakers sender_count closed]; [done..|lia].
  - cbn. pose proof (a_pos _ Ha'). pose proof (distance_eq (wakers c)). pose proof (distance_eq r').
    assert (write_pos (wakers c) < 2 ^ 62) by nia. lia.
  - rsimpl. eauto.
Qed.

Lemma poll_ok n c q cx : rep n c q -> 0 <= n < 2 ^ 29 ->
  exists p c', poll cx c = Ok (p, c') /\ Polled p = fst (q_step (Poll_ cx) q) /\
    rep (n + 1) c' (snd (q_step (Poll_ cx) q)).
Proof.
  intros [Hm Ha Hs Hc Hb Hwb] Hn. unfold poll, try_recv, is_closed.
  destruct (recv_ring_holds (buffer c) (q_msgs q) Hm) as (r' & -> & Hm' & Hw'); [lia|]. rsimpl.
  cbn [closed sender_count q_step]. rewrite Hs, Hc. destruct (q_msgs q) as [|m ms] eqn:Eq; cbn [head].
  2:{ eexists _, _. split_and!; [done..|]. split; cbn; try done; lia. }
  destruct (q_closed q && (q_senders q =? 0)) eqn:Ecl.
  { eexists _, _. split_and!; [done..|]. split; cbn; rewrite ?Eq; try done; lia. }
  unfold register_waker. cbn [wakers].
  destruct (register_loop_awaits (Z.to_nat CAPACITY) cx (wakers c)) as (w' & -> & Ha' & Hw2); [done|nia|].
  rsimpl. cbn [buffer].
  destruct (recv_ring_holds r' [] Hm') as (r2 & -> & Hm2 & Hw3); [lia|]. rsimpl. cbn [head closed sender_count].
  rewrite Ecl. eexists _, _. split_and!; [done..|]. split; cbn; rewrite ?Eq; try done; nia.
Qed.

Lemma step_ok n c q op : rep n c q -> 0 <= n < 2 ^ 29 ->
  exists o ws c', step op c = Ok (o, ws, c') /\ o = fst (q_step op q) /\ rep (n + 1) c' (snd (q_step op q)) /\
    (o = Sent -> waiting (wakers c) -> exists w, ws = [w]).
Proof.
  intros Hr Hn. destruct op as [msg|cx| |]; cbn [step].
  - destruct Hr as [Hm Ha Hs Hc Hb Hwb]. unfold try_send. cbn [q_step]. rewrite <- Hc.
    destruct (closed c) eqn:Ecl; cbn [orb].
    { rsimpl. eexists _, _, _. split_and!; try done. split; rewrite ?Ecl; try done; nia. }
    destruct (send_loop_holds (Z.to_nat CAPACITY) msg (buffer c) (q_msgs q) Hm) as (r' & -> & Hm' & Hw'); [lia|].
    rsimpl. destruct (CAPACITY <=? zlen (q_msgs q)); cbn [negb].
    { rsimpl. eexists _, _, _. split_and!; try done. split; cbn; rewrite ?Ecl; try done; nia. }
    unfold try_wake_receiver. cbn [wakers].
    destruct (recv_ring_awaits (wakers c)) as (o & w' & -> & Ha' & Hw2 & _ & Hnone); [done|nia|]. rsimpl.
    eexists _, _, _. split_and!; try done; [split; cbn; try done; nia|].
    intros _ Hwait. destruct o as [w|]; [by exists w|]. by destruct Hnone.
  - destruct (poll_ok n c q cx Hr Hn) as (p & c' & -> & Hp & Hr'). rsimpl.
    eexists _, _, _. by split_and!.
  - destruct Hr as [Hm Ha Hs Hc Hb Hwb]. eexists _, _, _. split_and!; try done.
    split; cbn; rewrite ?Hs; try done; nia.
  - unfold drop_sender. destruct Hr as [Hm Ha Hs Hc Hb Hwb]. cbn [q_step]. rewrite Hs, Hc.
    cbn [buffer wakers sender_count closed]. destruct (q_senders q =? 1) eqn:E1.
    + match goal with |- context [wake_all ?f ?c1] =>
        destruct (wake_all_ok n c1 {| q_msgs := q_msgs q; q_senders := wrap 64 (q_senders q - 1); q_closed := true |} f)
          as (ws & c' & -> & Hr') end; [|done|apply Nat.lt_succ_diag_r|].
      { split; cbn [buffer wakers sender_count closed]; [exact Hm|exact Ha|reflexivity|reflexivity|lia|lia]. }
      rsimpl. eexists _, _, _. split_and!; try done. rewrite orb_true_r.
      destruct Hr'. split; cbn in *; try done; nia.
    + rsimpl. eexists _, _, _. split_and!; try done. rewrite orb_false_r. split; cbn; try done; nia.
Qed.

Lemma run_ok n c q ops : rep n c q -> 0 <= n -> n + zlen ops < 2 ^ 29 ->
  exists c', run ops c = Ok (fst (q_run ops q), c') /\ rep (n + zlen ops) c' (snd (q_run ops q)).
Proof.
  revert n c q. induction ops as [|op ops IH]; intros n c q Hr Hn Hlt; cbn [run q_run].
  { eexists. split; [done|]. by rewrite Z.add_0_r. }
  rewrite zlen_cons in *. pose proof (zlen_nonneg ops).
  destruct (step_ok n c q op Hr) as (o & ws & c' & -> & -> & Hr' & _); [lia|]. rsimpl.
  destruct (IH (n + 1) c' _ Hr') as (c2 & -> & Hr2); [lia..|]. rsimpl. exists c2.
  destruct (q_step op q) as [o q']. cbn [fst snd] in *. destruct (q_run ops q') as [os q2]. cbn [fst snd] in *.
  split; [done|]. by replace (n + (1 + zlen ops)) with (n + 1 + zlen ops) by lia.
Qed.
End bounded.
Arguments Op : clear implicits.
Arguments Outcome : clear implicits.

(** C27: used by one task at a time, the ring-buffer channel is a bounded
    first-in first-out queue: for every capacity below 2^32 and every sequence
    of fewer than 2^29 sends, polls, sender clones and drops, every operation
    returns (no panic, no endless loop) with the outcome of a queue that
    refuses a message when it is closed or holds [CAPACITY] of them, hands
    messages out in order, and reports the end when it is empty and the last
    sender is gone. *)
Theorem bounded_refines_queue `{Build} {A} CAPACITY (ops : list (Op A)) :
  0 < CAPACITY < 2 ^ 32 -> zlen ops < 2 ^ 29 ->
  exists c, run CAPACITY ops (new CAPACITY) = Ok (fst (q_run CAPACITY ops q_new), c).
Proof.
  intros Hc Hn. destruct (run_ok CAPACITY Hc 0 (new CAPACITY) q_new ops) as (c & -> & _); eauto using rep_new.
  lia.
Qed.
Lemma bounded_refines_queue_witness : exists c,
  @run dev_build Z 2 [Poll_ 7%nat; Send 1; Send 2; Send 3; Poll_ 7%nat; Send 4; DropSender; Poll_ 7%nat; Poll_ 7%nat; Poll_ 7%nat]
    (new 2) = Ok ([Polled Pending; Sent; Sent; Refused 3; Polled (Ready (Some 1)); Sent; Done;
                   Polled (Ready (Some 2)); Polled (Ready (Some 4)); Polled (Ready None)], c).
Proof.
  apply (@bounded_refines_queue dev_build Z 2
    [Poll_ 7%nat; Send 1; Send 2; Send 3; Poll_ 7%nat; Send 4; DropSender; Poll_ 7%nat; Poll_ 7%nat; Poll_ 7%nat]); [lia|].
  reflexivity.
Defined.

(** A message accepted by the ring-buffer channel wakes exactly one
    waiting receiver whenever the waker ring holds one, in every state reached
    by fewer than 2^29 operations. *)
Theorem bounded_send_wakes `{Build} {A} CAPACITY (ops : list (Op A)) os c msg ws c' :
  0 < CAPACITY < 2 ^ 32 -> zlen ops < 2 ^ 29 -> run CAPACITY ops (new CAPACITY) = Ok (os, c) ->
  waiting CAPACITY (wakers c) -> step CAPACITY (Send msg) c = Ok (Sent, ws, c') ->
  exists w, ws = [w].
Proof.
  intros Hc Hn Hr Hw Hs.
  destruct (run_ok CAPACITY Hc 0 (new CAPACITY) q_new ops) as (c0 & E & Hrep); [by apply rep_new|lia..|].
  rewrite Hr in E. injection E as -> ->. pose proof (zlen_nonneg ops).
  destruct (step_ok CAPACITY Hc _ _ _ (Send msg) Hrep) as (o & ws0 & c1 & E & _ & _ & Hwk); [lia|].
  rewrite Hs in E. injection E as <- -> ->. by apply Hwk.
Qed.
Lemma bounded_send_wakes_witness : exists w, [7%nat] = [w].
Proof.
  refine (@bounded_send_wakes dev_build Z 2 [Poll_ 7%nat; Poll_ 8%nat] [Polled Pending; Polled Pending] _ 5 [7%nat] _
    _ _ eq_refl _ eq_refl); [lia|reflexivity|]. exists 0, 7%nat. split; [lia|reflexivity].
Defined.
End Bounded.
