(* ===== verification/Locks.v ===== *)
(** * Locks

    src/kernel/src/ejcineque/sync/{spin,mutex}.rs: the spin lock and the
    asynchronous mutex with its circular, intrusive list of waiting tasks.

    Threads are interleaved by step relations.  A relaxed load may return a
    stale value, so it is modelled as returning anything; a compare-exchange
    and a store act on the current value.  The mutex's waker list is modelled
    at the level of its pointers: a heap of nodes, each inside the future
    whose identity is its address; dereferencing an address that holds no
    node is a panic.  The list is only touched under its own spin lock, so a
    registration and a removal are single steps; [try_lock], the unlocking
    store and the removal that follows it are separate ones.

    Shown here: both locks exclude, the pointer list implements a queue and
    never dangles as long as no waiting future is dropped, and the wake-up
    protocol can leave a waiting task asleep on a free mutex. *)

From S2P Require Import Prelude.
From stdpp Require Import gmap.
#[local] Open Scope Z_scope.

(** ** spin.rs *)
Module Spin.

Inductive Pc :=
| Idle
| Spin (count : Z)  (* before the load *)
| Try (count : Z)   (* the load saw an unlocked mutex, before the exchange *)
| Guard
| Panicked.

Record SpinMutex := { is_locked : bool; threads : list Pc }.

Definition SPIN_COUNT : Z := 10000000.
Definition new (n : nat) : SpinMutex := {| is_locked := false; threads := replicate n Idle |}.

(** The body of the loop: [count -= 1; if count == 0 { panic! }] *)
Definition spin_loop (count : Z) : Pc :=
  let count := count - 1 in
  if count =? 0 then Panicked else Spin count.

(** One action of a thread; [seen] is what a relaxed load returns. *)
Definition act (seen : bool) (locked : bool) (pc : Pc) : Pc * bool :=
  match pc with
  | Idle => (Spin SPIN_COUNT, locked)
  | Spin count => if seen then (spin_loop count, locked) else (Try count, locked)
  | Try count => if locked then (spin_loop count, locked) else (Guard, true)
  | Guard => (Idle, false)
  | Panicked => (Panicked, locked)
  end.

Inductive step : SpinMutex -> SpinMutex -> Prop :=
| step_act m i pc seen :
    threads m !! i = Some pc ->
    step m {| is_locked := snd (act seen (is_locked m) pc);
              threads := <[i := fst (act seen (is_locked m) pc)]> (threads m) |}.

(** The lock is taken exactly when one thread, and only one, has the guard. *)
Definition guarded (m : SpinMutex) : Prop :=
  (forall i, threads m !! i = Some Guard -> is_locked m = true) /\
  (forall i j, threads m !! i = Some Guard -> threads m !! j = Some Guard -> i = j) /\
  (is_locked m = true -> exists i, threads m !! i = Some Guard).

Lemma step_guarded m m' : guarded m -> step m m' -> guarded m'.
Proof.
  intros (H1 & H2 & H3) Hs. destruct Hs as [m i pc seen Hi].
  assert (forall j p, <[i := p]> (threads m) !! j = Some Guard ->
    (j = i /\ p = Guard) \/ (j <> i /\ threads m !! j = Some Guard)) as Hins.
  { intros j p. destruct (decide (j = i)) as [->|Hne].
    - rewrite list_lookup_insert_eq by by eapply lookup_lt_Some. intros [= ->]. by left.
    - rewrite list_lookup_insert_ne by done. by right. }
  assert (forall p, <[i := p]> (threads m) !! i = Some p) as Heq
    by (intros; apply list_lookup_insert_eq; by eapply lookup_lt_Some).
  assert (forall j p, j <> i -> threads m !! j = Some Guard -> <[i := p]> (threads m) !! j = Some Guard) as Hkeep
    by (intros; by rewrite list_lookup_insert_ne).
  assert (forall c, spin_loop c <> Guard) as Hsl by (intros c; unfold spin_loop; by destruct (_ =? _)).
  assert (forall p, p <> Guard -> pc <> Guard ->
    guarded {| is_locked := is_locked m; threads := <[i := p]> (threads m) |}) as Hsame.
  { intros p Hp Hpc. split_and!; cbn.
    - intros j [[_ ?]|[_ ?]]%Hins; [done|eauto].
    - intros j k [[_ ?]|[_ ?]]%Hins [[_ ?]|[_ ?]]%Hins; try done. eauto.
    - intros [j Hj]%H3. exists j. apply Hkeep; [|done]. intros ->. rewrite Hi in Hj. by injection Hj. }
  destruct pc as [|c|c| |]; cbn [act fst snd].
  - by apply Hsame.
  - destruct seen; cbn; by apply Hsame.
  - destruct (is_locked m) eqn:El; cbn; [by apply Hsame|].
    split_and!; cbn; [done| |by eauto].
    intros j k [[-> _]|[_ ?%H1]]%Hins [[-> _]|[_ ?%H1]]%Hins; try done; congruence.
  - split_and!; cbn; [|..|done].
    + intros j [[_ ?]|[Hne Hj]]%Hins; [done|]. by destruct Hne; eapply H2.
    + intros j k [[_ ?]|[Hne Hj]]%Hins; [done|]. by destruct Hne; eapply H2.
  - by apply Hsame.
Qed.

(** The spin lock excludes: in every interleaving of any number of
    threads, whatever the relaxed loads return, at most one thread holds the
    guard, and the lock word is set exactly when one does. *)
Theorem spin_mutual_exclusion n m : rtc step (new n) m ->
  (forall i j, threads m !! i = Some Guard -> threads m !! j = Some Guard -> i = j) /\
  (is_locked m = true <-> exists i, threads m !! i = Some Guard).
Proof.
  intros Hr. assert (guarded m) as (H1 & H2 & H3); [|by split; [|split; [|intros [i Hi]]; eauto]].
  remember (new n) as m0 eqn:E. assert (guarded m0) as H0.
  { subst. split_and!; cbn; [intros i0|intros i0 j0|done]; by intros [[=] _]%lookup_replicate. }
  clear E. induction Hr; eauto using step_guarded.
Qed.
Lemma spin_mutual_exclusion_witness :
  is_locked {| is_locked := true; threads := [Spin SPIN_COUNT; Guard] |} = true <->
  exists i, [Spin SPIN_COUNT; Guard] !! i = Some Guard.
Proof.
  apply (spin_mutual_exclusion 2 {| is_locked := true; threads := [Spin SPIN_COUNT; Guard] |}).
  apply (rtc_l _ _ {| is_locked := false; threads := [Idle; Spin SPIN_COUNT] |}).
  { exact (step_act (new 2) 1 Idle false eq_refl). }
  apply (rtc_l _ _ {| is_locked := false; threads := [Idle; Try SPIN_COUNT] |}).
  { exact (step_act {| is_locked := false; threads := [Idle; Spin SPIN_COUNT] |} 1 (Spin SPIN_COUNT) false eq_refl). }
  apply (rtc_l _ _ {| is_locked := true; threads := [Idle; Guard] |}).
  { exact (step_act {| is_locked := false; threads := [Idle; Try SPIN_COUNT] |} 1 (Try SPIN_COUNT) false eq_refl). }
  apply rtc_once. exact (step_act {| is_locked := true; threads := [Idle; Guard] |} 0 Idle false eq_refl).
Defined.
End Spin.

(** ** mutex.rs *)
Module AsyncMutex.

(** The address of a node is the identity of the future that contains it,
    and its waker wakes that future's task. *)
Abbreviation addr := nat.
Record MutexWakerNode := { next : option addr; prev : option addr; waker : addr }.

(** The list fields of [Mutex] and the memory its pointers point into *)
Record WakerList := {
  wakers_list_head : option addr;
  wakers_list_tail : option addr;
  nodes : gmap addr MutexWakerNode;
}.
Definition empty_list : WakerList := {| wakers_list_head := None; wakers_list_tail := None; nodes := ∅ |}.

(** Stores to the [prev] and the [next] of the node behind a pointer *)
Definition set_prev (p v : option addr) (h : gmap addr MutexWakerNode) : res never (gmap addr MutexWakerNode) :=
  a ← expect p; n ← expect (h !! a);
  Ok (<[a := {| next := next n; prev := v; waker := waker n |}]> h).
Definition set_next (p v : option addr) (h : gmap addr MutexWakerNode) : res never (gmap addr MutexWakerNode) :=
  a ← expect p; n ← expect (h !! a);
  Ok (<[a := {| next := v; prev := prev n; waker := waker n |}]> h).

(** The critical section of [MutexFuture::poll]: the future's own node is
    [Some] exactly when its address holds a node. *)
Definition register (f : addr) (l : WakerList) : res never WakerList :=
  match nodes l !! f with
  | Some _ => Ok l
  | None =>
      match wakers_list_head l, wakers_list_tail l with
      | Some hd, Some tl =>
          let h := <[f := {| next := Some hd; prev := Some tl; waker := f |}]> (nodes l) in
          h ← set_prev (Some hd) (Some f) h;
          h ← set_next (Some tl) (Some f) h;
          Ok {| wakers_list_head := Some f; wakers_list_tail := Some tl; nodes := h |}
      | _, _ =>
          Ok {| wakers_list_head := Some f; wakers_list_tail := Some f;
                nodes := <[f := {| next := Some f; prev := Some f; waker := f |}]> (nodes l) |}
      end
  end.

(** The critical section of [MutexGuard::drop]: unlink the tail and wake it *)
Definition wake_tail (l : WakerList) : res never (option addr * WakerList) :=
  match wakers_list_tail l, wakers_list_head l with
  | Some tl, Some hd =>
      n ← expect (nodes l !! tl);
      if bool_decide (prev n = Some tl) then
        Ok (Some (waker n), {| wakers_list_head := None; wakers_list_tail := None; nodes := nodes l |})
      else
        h ← set_next (prev n) (Some hd) (nodes l);
        h ← set_prev (Some hd) (prev n) h;
        Ok (Some (waker n), {| wakers_list_head := Some hd; wakers_list_tail := prev n; nodes := h |})
  | _, _ => Ok (None, l)
  end.

(** Where a future, and then its guard, is in its life *)
Inductive Pc :=
| Idle      (* not polled yet *)
| Failed    (* [try_lock] failed, before the list's critical section *)
| Waiting   (* pending *)
| Guard     (* ready, the guard is alive *)
| Unlocked  (* the guard's drop has stored [Unlocked], before waking *)
| Done.

#[export] Instance Pc_eq_dec : EqDecision Pc.
Proof. solve_decision. Defined.

Record Mutex := {
  state : bool;                (* [MutexState], locked or not *)
  wakers_list : WakerList;
  futures : gmap addr Pc;
  woken : list addr;           (* woken and not polled since *)
}.
Definition new (fs : list addr) : Mutex :=
  {| state := false; wakers_list := empty_list; futures := list_to_map ((fun f => (f, Idle)) <$> fs); woken := [] |}.

Definition try_lock (m : Mutex) : bool * bool := if state m then (false, true) else (true, true).

(** The next action of future [f] *)
Definition act (f : addr) (pc : Pc) (m : Mutex) : res never Mutex :=
  match pc with
  | Idle | Waiting =>
      let '(ok, st) := try_lock m in
      Ok {| state := st; wakers_list := wakers_list m;
            futures := <[f := if (ok : bool) then Guard else Failed]> (futures m);
            woken := filter (fun g => g <> f) (woken m) |}
  | Failed =>
      l ← register f (wakers_list m);
      Ok {| state := state m; wakers_list := l; futures := <[f := Waiting]> (futures m); woken := woken m |}
  | Guard =>
      Ok {| state := false; wakers_list := wakers_list m; futures := <[f := Unlocked]> (futures m); woken := woken m |}
  | Unlocked =>
      '(o, l) ← wake_tail (wakers_list m);
      Ok {| state := state m; wakers_list := l; futures := <[f := Done]> (futures m);
            woken := option_list o ++ woken m |}
  | Done => Ok m
  end.

(** Any future may be polled at any time. *)
Inductive step : Mutex -> Mutex -> Prop :=
| step_act m f pc m' : futures m !! f = Some pc -> act f pc m = Ok m' -> step m m'.

(** A schedule in which a waiting future is polled only after it was woken *)
Definition sched_act (f : addr) (m : Mutex) : option Mutex :=
  match futures m !! f with
  | Some pc =>
      if bool_decide (pc = Waiting -> f ∈ woken m) then
        match act f pc m with Ok m => Some m | _ => None end
      else None
  | None => None
  end.
Definition sched (fs : list addr) (m : Mutex) : option Mutex :=
  foldl (fun om f => om ≫= sched_act f) (Some m) fs.

(** The addresses from head to tail; each node's [next] is the following
    address and its [prev] the one before, around the circle. *)
Definition linked (h : gmap addr MutexWakerNode) (l : list addr) : Prop :=
  forall i x, l !! i = Some x -> exists n, h !! x = Some n /\ waker n = x /\
    next n = (if decide (S i = length l) then head l else l !! S i) /\
    prev n = (match i with O => last l | S j => l !! j end).
Record queue (w : WakerList) (l : list addr) : Prop := {
  q_head : wakers_list_head w = head l;
  q_tail : wakers_list_tail w = last l;
  q_nodup : NoDup l;
  q_linked : linked (nodes w) l;
}.

Lemma queue_empty : queue empty_list [].
Proof. split; [done..|constructor|]. intros i x [=]. Qed.

Lemma queue_dom w l x : queue w l -> x ∈ l -> is_Some (nodes w !! x).
Proof. intros Hq [i Hi]%list_elem_of_lookup. destruct (q_linked _ _ Hq i x Hi) as (n & -> & _). by eexists. Qed.

Definition with_prev (v : option addr) (n : MutexWakerNode) : MutexWakerNode :=
  {| next := next n; prev := v; waker := waker n |}.
Definition with_next (v : option addr) (n : MutexWakerNode) : MutexWakerNode :=
  {| next := v; prev := prev n; waker := waker n |}.
Lemma set_prev_ok a v h : is_Some (h !! a) -> set_prev (Some a) v h = Ok (alter (with_prev v) a h).
Proof. intros [n Hn]. unfold set_prev. cbn. rewrite Hn. cbn. by erewrite alter_alt_Some. Qed.
Lemma set_next_ok a v h : is_Some (h !! a) -> set_next (Some a) v h = Ok (alter (with_next v) a h).
Proof. intros [n Hn]. unfold set_next. cbn. rewrite Hn. cbn. by erewrite alter_alt_Some. Qed.
Lemma alter_some {B} (f : B -> B) a x (h : gmap addr B) : is_Some (h !! x) -> is_Some (alter f a h !! x).
Proof.
  destruct (decide (a = x)) as [->|Hne]; [rewrite lookup_alter_eq|by rewrite lookup_alter_ne].
  by rewrite fmap_is_Some.
Qed.

(** A node of a circle whose first node's [prev] becomes [pv] and whose last
    node's [next] becomes [nx] *)
Definition relink (hd tl : addr) (nx pv : option addr) (x : addr) (n : MutexWakerNode) : MutexWakerNode :=
  {| next := if decide (x = tl) then nx else next n;
     prev := if decide (x = hd) then pv else prev n; waker := waker n |}.
Lemma lookup_relink (h : gmap addr MutexWakerNode) hd tl nx pv x :
  alter (with_next nx) tl (alter (with_prev pv) hd h) !! x = relink hd tl nx pv x <$> h !! x /\
  alter (with_prev pv) hd (alter (with_next nx) tl h) !! x = relink hd tl nx pv x <$> h !! x.
Proof.
  unfold relink. rewrite !lookup_alter.
  repeat destruct (decide _); subst; try done; split; by destruct (h !! x) as [[]|].
Qed.

Lemma register_queue f w l : queue w l -> nodes w !! f = None ->
  exists w', register f w = Ok w' /\ queue w' (f :: l) /\
    forall x, is_Some (nodes w' !! x) <-> x = f \/ is_Some (nodes w !! x).
Proof.
  intros [Hhd Htl Hnd Hl] Hf. unfold register. rewrite Hf, Hhd, Htl.
  assert (forall i x, l !! i = Some x -> x <> f) as Hne.
  { intros i x Hi ->. destruct (Hl i f Hi) as (n & Hn & _). congruence. }
  destruct l as [|hd l]; cbn [head].
  { eexists. split; [done|]. split; [split; cbn; [done..|apply NoDup_singleton|]|].
    - intros [|i] x [= <-]. exists {| next := Some f; prev := Some f; waker := f |}.
      cbn. rewrite lookup_insert_eq. done.
    - intros x. cbn. rewrite lookup_insert_is_Some'. split; intros [?|?]; auto. }
  destruct (last (hd :: l)) as [tl|] eqn:Etl; [|by apply last_None in Etl].
  rewrite last_lookup in Etl. set (L := hd :: l) in *.
  assert (is_Some (nodes w !! hd)) as Shd by (destruct (Hl 0%nat hd eq_refl) as (n & -> & _); by eexists).
  assert (is_Some (nodes w !! tl)) as Stl by (destruct (Hl _ tl Etl) as (n & -> & _); by eexists).
  pose proof (Hne _ _ Etl) as Ntl. pose proof (Hne 0%nat hd eq_refl) as Nhd.
  rewrite set_prev_ok by by rewrite lookup_insert_ne. rsimpl.
  rewrite set_next_ok by by apply alter_some; rewrite lookup_insert_ne. rsimpl.
  eexists. split; [done|]. split.
  2:{ intros x. cbn. rewrite (proj1 (lookup_relink _ _ _ _ _ _)), fmap_is_Some, lookup_insert_is_Some'. split; intros [?|?]; auto. }
  split; cbn [wakers_list_head wakers_list_tail nodes]; [done| | |].
  { by rewrite last_cons, last_lookup, Etl. }
  { apply NoDup_cons. split; [|done]. intros [i Hi]%list_elem_of_lookup. by eapply Hne. }
  intros i x Hx. rewrite (proj1 (lookup_relink _ _ _ _ _ _)). destruct i as [|i]; cbn in Hx.
  - injection Hx as <-. rewrite lookup_insert_eq. eexists. split; [done|]. unfold relink. cbn [waker next prev].
    rewrite !decide_False by done. by rewrite last_cons, last_lookup, Etl.
  - change (L !! i = Some x) in Hx. destruct (Hl i x Hx) as (n & Hn & Hw & Hnx & Hpv). pose proof (Hne _ _ Hx).
    rewrite lookup_insert_ne, Hn by done. eexists. split; [done|]. unfold relink. cbn [waker next prev].
    split; [done|]. split.
    + destruct (decide (x = tl)) as [->|Hnt].
      * assert (i = pred (length L)) as -> by by eapply NoDup_lookup. by rewrite decide_True by done.
      * assert (S i <> length L) as Hlast by (intros E; rewrite <- E in Etl; change (L !! i = Some tl) in Etl; congruence).
        rewrite Hnx, !decide_False; [done|cbn [length]; lia|done].
    + destruct (decide (x = hd)) as [->|Hnh].
      * assert (i = 0%nat) as -> by by eapply NoDup_lookup. done.
      * destruct i as [|i]; [|done]. cbn in Hx. by injection Hx as ->.
Qed.

Lemma wake_tail_empty w : queue w [] -> wake_tail w = Ok (None, w).
Proof. intros [Hhd Htl _ _]. unfold wake_tail. by rewrite Htl. Qed.

Lemma wake_tail_queue w l f : queue w (l ++ [f]) ->
  exists w', wake_tail w = Ok (Some f, w') /\ queue w' l /\ forall x, is_Some (nodes w' !! x) <-> is_Some (nodes w !! x).
Proof.
  intros [Hhd Htl Hnd Hl]. unfold wake_tail. rewrite Htl, last_snoc, Hhd.
  destruct (Hl (length l) f) as (n & Hn & Hw & Hnx & Hpv); [by rewrite list_lookup_middle|].
  destruct l as [|hd l]; cbn [app head].
  { cbn [app length last] in *. rewrite Hn. cbn [expect]. rsimpl. rewrite bool_decide_eq_true_2 by done. rewrite Hw.
    eexists. split; [done|]. split; [|done]. split; [done..|constructor|]. intros i x [=]. }
  set (L := hd :: l) in *. cbn [length] in Hpv. subst L. rewrite Hn. cbn [expect]. rsimpl.
  set (L := hd :: l) in *. destruct (L !! length l) as [tl|] eqn:Etl.
  2:{ apply lookup_ge_None in Etl. cbn in Etl. lia. }
  assert ((L ++ [f]) !! length l = Some tl) as Etl' by by apply lookup_app_l_Some.
  assert ((L ++ [f]) !! length L = Some f) as Ef by by rewrite list_lookup_middle.
  change (prev n = (L ++ [f]) !! length l) in Hpv. rewrite Etl' in Hpv.
  assert (tl <> f) as Hne. { intros ->. assert (length l = length L); [by eapply NoDup_lookup|cbn in *; lia]. }
  rewrite Hpv, bool_decide_eq_false_2 by congruence.
  assert (is_Some (nodes w !! hd)) as Shd by (destruct (Hl 0%nat hd eq_refl) as (m & -> & _); by eexists).
  assert (is_Some (nodes w !! tl)) as Stl by (destruct (Hl _ tl Etl') as (m & -> & _); by eexists).
  rewrite set_next_ok by done. rsimpl. rewrite set_prev_ok by by apply alter_some. rsimpl. rewrite Hw.
  eexists. split; [done|]. split.
  2:{ intros x. cbn. by rewrite (proj2 (lookup_relink _ _ _ _ _ _)), fmap_is_Some. }
  split; cbn [wakers_list_head wakers_list_tail nodes]; [done| |by apply NoDup_app in Hnd as (? & _)|].
  { by rewrite last_lookup. }
  intros i x Hx. rewrite (proj2 (lookup_relink _ _ _ _ _ _)).
  assert ((L ++ [f]) !! i = Some x) as Hx' by by apply lookup_app_l_Some.
  pose proof (lookup_lt_Some _ _ _ Hx) as Hlt. assert (length L = S (length l)) as HL by done.
  destruct (Hl i x Hx') as (m & -> & Hwm & Hnm & Hpm). eexists. split; [done|]. unfold relink. cbn [waker next prev].
  split; [done|]. split.
  - destruct (decide (x = tl)) as [->|Hnt].
    + assert (i = length l) as -> by by eapply NoDup_lookup. by rewrite decide_True.
    + assert (i <> length l) by (intros ->; congruence). rewrite Hnm, length_app.
      change (length [f]) with 1%nat. rewrite !decide_False by lia. rewrite lookup_app_l; [done|lia].
  - destruct (decide (x = hd)) as [->|Hnh].
    + assert (i = 0%nat) as -> by (eapply NoDup_lookup; [exact Hnd|done..]). by rewrite last_lookup.
    + destruct i as [|i]; [by injection Hx as ->|]. rewrite Hpm, lookup_app_l; [done|lia].
Qed.

Definition guarded (m : Mutex) : Prop :=
  (forall f, futures m !! f = Some Guard -> state m = true) /\
  (forall f g, futures m !! f = Some Guard -> futures m !! g = Some Guard -> f = g).
Record inv (m : Mutex) : Prop := {
  i_guard : guarded m;
  i_queue : exists l, queue (wakers_list m) l;
}.

Lemma guarded_insert m f pc st l w : guarded m -> futures m !! f <> Some Guard ->
  (pc = Guard -> state m = false) -> st = bool_decide (pc = Guard) || state m ->
  guarded {| state := st; wakers_list := l; futures := <[f := pc]> (futures m); woken := w |}.
Proof.
  intros [H1 H2] Hf Hpc Hst.
  assert (forall g, <[f := pc]> (futures m) !! g = Some Guard ->
    (g = f /\ pc = Guard) \/ futures m !! g = Some Guard) as Hins.
  { intros g. destruct (decide (g = f)) as [->|]; [rewrite lookup_insert_eq|rewrite lookup_insert_ne by done]; [|by auto].
    intros [= ->]. by left. }
  split; cbn.
  - intros g [[-> ->]|Hg]%Hins; subst st; [done|]. rewrite (H1 g Hg). apply orb_true_r.
  - intros g k [[-> ->]|Hg]%Hins [[-> E]|Hk]%Hins; [done|exfalso; by rewrite (H1 k Hk) in Hpc; specialize (Hpc eq_refl)
      |exfalso; by rewrite (H1 g Hg) in Hpc; specialize (Hpc E)|by apply H2].
Qed.

Lemma register_ok f w l : queue w l -> exists w', register f w = Ok w' /\
  queue w' (match nodes w !! f with Some _ => l | None => f :: l end).
Proof.
  intros Hq. destruct (nodes w !! f) eqn:E.
  - exists w. unfold register. by rewrite E.
  - destruct (register_queue f w l Hq E) as (w' & ? & ? & _). eauto.
Qed.
Lemma wake_tail_ok w l : queue w l -> exists w', wake_tail w = Ok (last l, w') /\ queue w' (removelast l).
Proof.
  intros Hq. destruct l as [|f l _] using rev_ind.
  - exists w. by rewrite (wake_tail_empty w Hq).
  - destruct (wake_tail_queue w l f Hq) as (w' & -> & Hq' & _). exists w'.
    by rewrite last_snoc, removelast_last.
Qed.

Lemma step_inv m m' : inv m -> step m m' -> inv m'.
Proof.
  intros Hi Hs. destruct Hs as [m0 f pc m1 Hf Ha], Hi as [Hg [l Hq]]. pose proof Hg as [H1 H2]. destruct pc; cbn [act] in Ha.
  1,3: unfold try_lock in Ha; destruct (state m0) eqn:Es; injection Ha as <-;
    (split; [apply (guarded_insert m0); [done|congruence|intros; congruence|by rewrite Es]|by exists l]).
  - destruct (register_ok f _ l Hq) as (w' & Hr & Hq'). rewrite Hr in Ha. cbn in Ha. injection Ha as <-.
    split; [apply (guarded_insert m0); [done|congruence|done|done]|by eexists].
  - injection Ha as <-. split; [|by exists l]. split; cbn; intros g.
    + destruct (decide (g = f)) as [->|Hne]; [by rewrite lookup_insert_eq|]. rewrite lookup_insert_ne by done.
      intros Hk. by destruct Hne; apply H2.
    + intros k. destruct (decide (g = f)) as [->|Hne]; [by rewrite lookup_insert_eq|]. rewrite lookup_insert_ne by done.
      intros Hk. by destruct Hne; apply H2.
  - destruct (wake_tail_ok _ l Hq) as (w' & Hr & Hq'). rewrite Hr in Ha. cbn in Ha. injection Ha as <-.
    split; [apply (guarded_insert m0); [done|congruence|done|done]|by eexists].
  - injection Ha as <-. split; [done|by exists l].
Qed.
Lemma new_inv fs : inv (new fs).
Proof.
  split; [|by exists []; apply queue_empty]. split; cbn; intros f *;
    intros Hf%elem_of_list_to_map_2; by apply list_elem_of_fmap in Hf as (? & [= ] & _).
Qed.
Lemma reach_inv fs m : rtc step (new fs) m -> inv m.
Proof. intros Hr. pose proof (new_inv fs) as Hi. induction Hr; eauto using step_inv. Qed.

(** A schedule is an interleaving. *)
Lemma sched_reach fs m m' : sched fs m = Some m' -> rtc step m m'.
Proof.
  unfold sched. revert m. induction fs as [|f fs IH]; intros m; cbn; [by intros [= ->]|].
  destruct (sched_act f m) as [m1|] eqn:E.
  - intros Hm. apply (rtc_l _ _ m1); [|by apply IH].
    unfold sched_act in E. destruct (futures m !! f) as [pc|] eqn:Ef; [|done].
    destruct (bool_decide _); [|done]. destruct (act f pc m) eqn:Ea; try done. injection E as <-.
    by econstructor.
  - assert (forall l, foldl (fun om f => om ≫= sched_act f) (None : option Mutex) l = None) as Hn.
    { induction l; done. }
    by rewrite Hn.
Qed.

(** C28: the asynchronous mutex excludes: in every interleaving of polls,
    registrations, unlocks and wake-ups of any number of lock futures, at most
    one of them has the guard, and the mutex is locked while one does. *)
Theorem async_mutual_exclusion fs m f g : rtc step (new fs) m ->
  futures m !! f = Some Guard -> futures m !! g = Some Guard -> f = g /\ state m = true.
Proof. intros Hr Hf Hg. destruct (reach_inv fs m Hr) as [[H1 H2] _]. eauto. Qed.

Lemma async_mutual_exclusion_witness : exists m,
  sched [3; 4]%nat (new [3; 4]%nat) = Some m /\ 3%nat = 3%nat /\ state m = true.
Proof.
  eexists. split; [vm_compute; reflexivity|].
  apply (async_mutual_exclusion [3; 4]%nat _ 3%nat 3%nat); [|reflexivity..].
  apply (sched_reach [3; 4]%nat). vm_compute. reflexivity.
Defined.

(** In every reachable state the circular pointer list of waiting tasks is
    a queue: registering a future that has no node puts it at the head and
    dropping a guard removes and wakes the tail, the one that waited longest;
    neither dereferences a pointer without a node, as long as no future is
    dropped while its node is linked. *)
Theorem waker_list_is_queue fs m : rtc step (new fs) m ->
  exists l, queue (wakers_list m) l /\
    (forall f, exists w, register f (wakers_list m) = Ok w /\
       queue w (match nodes (wakers_list m) !! f with Some _ => l | None => f :: l end)) /\
    (exists w, wake_tail (wakers_list m) = Ok (last l, w) /\ queue w (removelast l)).
Proof.
  intros Hr. destruct (reach_inv fs m Hr) as [_ [l Hq]]. exists l. eauto using register_ok, wake_tail_ok.
Qed.

Lemma waker_list_is_queue_witness : exists l, queue empty_list l.
Proof.
  destruct (waker_list_is_queue [3; 4]%nat (new [3; 4]%nat) (rtc_refl _ _)) as (l & Hq & _). exists l. exact Hq.
Defined.

(** A wake-up can be lost: three futures, each polled only when new or
    woken, reach a state where the mutex is free, nobody holds or is about to
    release or register, no waker is linked or pending, and the second future
    waits forever: it was woken, the third took the lock first, and its second
    failed poll did not link its node again. *)
Theorem async_lost_wakeup : exists m,
  sched [0; 1; 1; 0; 0; 2; 1; 1; 2; 2]%nat (new [0; 1; 2]%nat) = Some m /\
  state m = false /\ futures m = list_to_map [(0%nat, Done); (1%nat, Waiting); (2%nat, Done)] /\ woken m = [] /\
  wakers_list_head (wakers_list m) = None.
Proof.
  eexists. split; [vm_compute; reflexivity|]. by split_and!.
Qed.

(** A future dropped while its node is linked leaves a dangling pointer. *)
Example dropped_future_dangles : exists m,
  sched [0; 1; 1; 2; 2]%nat (new [0; 1; 2]%nat) = Some m /\
  wake_tail {| wakers_list_head := wakers_list_head (wakers_list m);
               wakers_list_tail := wakers_list_tail (wakers_list m);
               nodes := delete 1%nat (nodes (wakers_list m)) |} = Panic.
Proof. eexists. split; [vm_compute; reflexivity|reflexivity]. Qed.
End AsyncMutex.
