(* ===== verification/Executor.v ===== *)
(** * Executor

    src/kernel/src/ejcineque/executor.rs and the futures of
    ejcineque/{futures,time}: task identifiers, the spawner's load balancing,
    one executor context per processor with its run queue, task map and
    wakers, and the combinators [yield_now], [Race], [MultiRace] and [wait].

    A future is a state with a [poll] function; what it computes is a
    parameter.  A context runs one iteration of its loop at a time; a waker
    pushes its task's identifier onto the run queue.

    Shown here: the spawner picks a least loaded context and gives fresh
    identifiers; with every spawn complete before the context runs, each live
    task is queued or was polled since it was last woken; a context that pops
    an identifier between the spawner's two locks loses the task. *)

From S2P Require Import Prelude Channels.
From stdpp Require Import sorting gmap.
#[local] Open Scope Z_scope.

(** ** futures/mod.rs, race.rs, multi_race.rs, time/mod.rs *)
Module Futures.

(** [YieldFuture]: the state is [yielded]; the last component is whether the
    task's own waker was called. *)
Definition yield_poll (yielded : bool) : Poll unit * bool * bool :=
  if yielded then (Ready tt, true, false) else (Pending, true, true).

Section race.
Context {L R T D : Type} (poll_left : L -> Poll T * L) (poll_right : R -> Poll D * R).

Definition race_poll (st : L * R) : Poll (T + D) * (L * R) :=
  let '(l, r) := st in
  match poll_left l with
  | (Ready res, l) => (Ready (inl res), (l, r))
  | (Pending, l) =>
      match poll_right r with
      | (Ready res, r) => (Ready (inr res), (l, r))
      | (Pending, r) => (Pending, (l, r))
      end
  end.
End race.

Section multi_race.
Context {F T : Type} (poll_future : F -> Poll T * F).

Fixpoint multi_race_poll (futures : list F) : Poll T * list F :=
  match futures with
  | [] => (Pending, [])
  | f :: fs =>
      match poll_future f with
      | (Ready res, f) => (Ready res, f :: fs)
      | (Pending, f) => let '(p, fs) := multi_race_poll fs in (p, f :: fs)
      end
  end.
End multi_race.

(** [WaitFuture]: the state is [tick_count]; a pending poll registers with the
    timer. *)
Definition wait_int `{Build} (tick_count : Z) : res never Z := uadd 32 tick_count 1.
Definition wait_poll `{Build} (tick_count : Z) : res never (Poll unit * Z) :=
  tick_count ← usub 32 tick_count 1;
  Ok (if tick_count <=? 0 then Ready tt else Pending, tick_count).
Fixpoint wait_polls `{Build} (n : nat) (tick_count : Z) : res never (list (Poll unit) * Z) :=
  match n with
  | O => Ok ([], tick_count)
  | S n =>
      '(p, t) ← wait_poll tick_count;
      '(ps, t) ← wait_polls n t;
      Ok (p :: ps, t)
  end.

Lemma wait_polls_pending `{Build} n t : Z.of_nat n < t < 2 ^ 32 ->
  wait_polls n t = Ok (replicate n Pending, t - Z.of_nat n).
Proof.
  revert t. induction n as [|n IH]; intros t Ht; cbn [wait_polls]; [by rewrite Z.sub_0_r|].
  unfold wait_poll. rewrite usub_ok by lia. rsimpl. rewrite IH by lia. rsimpl.
  bfalse (t - 1 <=? 0). cbn [replicate]. do 2 f_equal. lia.
Qed.

(** [wait t] is pending for exactly [t] polls (one per timer interrupt)
    and ready at the next, for every [t] below 2^32 - 1. *)
Theorem wait_exactly `{Build} t : 0 <= t < 2 ^ 32 - 1 ->
  (st ← wait_int t;
   '(ps, st) ← wait_polls (Z.to_nat t) st;
   '(p, _) ← wait_poll st;
   Ok (ps, p)) = Ok (replicate (Z.to_nat t) Pending, Ready tt).
Proof.
  intros Ht. unfold wait_int. rewrite uadd_ok by lia. rsimpl. rewrite wait_polls_pending by lia. rsimpl.
  unfold wait_poll. rewrite usub_ok by lia. rsimpl. by btrue (t + 1 - Z.of_nat (Z.to_nat t) - 1 <=? 0).
Qed.
Lemma wait_exactly_witness :
  (st ← @wait_int dev_build 2;
   '(ps, st) ← @wait_polls dev_build (Z.to_nat 2) st;
   '(p, _) ← @wait_poll dev_build st;
   Ok (E:=never) (ps, p)) = Ok ([Pending; Pending], Ready tt).
Proof. apply (@wait_exactly dev_build 2). lia. Defined.
End Futures.

(** ** executor.rs *)
Module Exec.

Abbreviation TaskID := Z.

Section executor.
Context {Future : Type} (poll_future : TaskID -> Future -> Poll unit * Future).

Record Task := { id : TaskID; queue_id : Z; future : Future }.

Record ExecutorContext := {
  tasks : list TaskID;
  tasks_map : gmap TaskID Task;
  wakers : gmap TaskID TaskID;     (* [TaskWaker] is its task's identifier *)
}.
Definition default_context : ExecutorContext := {| tasks := []; tasks_map := ∅; wakers := ∅ |}.

(** The contexts in the order of the [BTreeMap]'s keys *)
Record Executor := { counter : Z; contexts : list (Z * ExecutorContext) }.
Definition Executor_new (cpus : list Z) : Executor :=
  {| counter := 0; contexts := (fun c => (c, default_context)) <$> merge_sort Z.le (remove_dups cpus) |}.

(** [TaskWaker::wake] *)
Definition wake (i : TaskID) (c : ExecutorContext) : ExecutorContext :=
  {| tasks := tasks c ++ [i]; tasks_map := tasks_map c; wakers := wakers c |}.

(** The identifier and the counter's next value *)
Definition next_id (counter : Z) : TaskID * Z :=
  (counter, if counter =? 2 ^ 64 - 1 then 0 else counter + 1).

(** [Iterator::min_by] on the queue lengths: the first of the least ones *)
Definition min_context (cs : list (Z * ExecutorContext)) : option (Z * ExecutorContext) :=
  match cs with
  | [] => None
  | c :: cs =>
      Some (foldl (fun best c => if (length (tasks (snd c)) <? length (tasks (snd best)))%nat then c else best) c cs)
  end.

(** The two halves of the spawner's last step, each under its own lock *)
Definition spawn_push (i : TaskID) (c : ExecutorContext) : ExecutorContext :=
  {| tasks := tasks c ++ [i]; tasks_map := tasks_map c; wakers := wakers c |}.
Definition spawn_insert (t : Task) (c : ExecutorContext) : ExecutorContext :=
  {| tasks := tasks c; tasks_map := <[id t := t]> (tasks_map c); wakers := wakers c |}.

Definition update_context (q : Z) (g : ExecutorContext -> ExecutorContext) (cs : list (Z * ExecutorContext)) :=
  (fun qc => if fst qc =? q then (fst qc, g (snd qc)) else qc) <$> cs.

Definition spawn (f : Future) (e : Executor) : res never Executor :=
  let '(i, n) := next_id (counter e) in
  '(q, _) ← expect (min_context (contexts e));
  let task := {| id := i; queue_id := q; future := f |} in
  Ok {| counter := n;
        contexts := update_context q (fun c => spawn_insert task (spawn_push i c)) (contexts e) |}.

(** One iteration of [ExecutorContext::run] (with an empty queue the processor
    halts); also the task polled and whether it is done. *)
Definition run_once (c : ExecutorContext) : ExecutorContext * option (TaskID * bool) :=
  match tasks c with
  | [] => (c, None)
  | i :: q =>
      match tasks_map c !! i with
      | None => ({| tasks := q; tasks_map := tasks_map c; wakers := wakers c |}, None)
      | Some t =>
          let ws := match wakers c !! i with Some _ => wakers c | None => <[i := i]> (wakers c) end in
          match poll_future i (future t) with
          | (Ready _, _) =>
              ({| tasks := q; tasks_map := delete i (tasks_map c); wakers := delete i ws |}, Some (i, true))
          | (Pending, f) =>
              ({| tasks := q; tasks_map := <[i := {| id := id t; queue_id := queue_id t; future := f |}]> (tasks_map c);
                  wakers := ws |}, Some (i, false))
          end
      end
  end.

(** What may happen to one context: a complete spawn, a wake-up, an
    iteration of its loop.  [asleep] is ghost state: the tasks whose last poll
    was pending and which were not woken since. *)
Record World := { ctx : ExecutorContext; next : Z; asleep : gset TaskID }.
Definition world0 : World := {| ctx := default_context; next := 0; asleep := ∅ |}.
Inductive Event := Spawn (q : Z) (f : Future) | Wake (i : TaskID) | Run.

Definition event (ev : Event) (w : World) : World :=
  match ev with
  | Spawn q f =>
      let '(i, n) := next_id (next w) in
      {| ctx := spawn_insert {| id := i; queue_id := q; future := f |} (spawn_push i (ctx w)); next := n;
         asleep := asleep w |}
  | Wake i => {| ctx := wake i (ctx w); next := next w; asleep := asleep w ∖ {[i]} |}
  | Run =>
      let '(c, o) := run_once (ctx w) in
      {| ctx := c; next := next w;
         asleep := match o with
                   | Some (i, false) => {[i]} ∪ asleep w
                   | Some (i, true) => asleep w ∖ {[i]}
                   | None => asleep w
                   end |}
  end.
Definition events (evs : list Event) (w : World) : World := foldl (fun w ev => event ev w) w evs.

Definition accounted (w : World) : Prop :=
  forall i, is_Some (tasks_map (ctx w) !! i) -> i ∈ tasks (ctx w) \/ i ∈ asleep w.

Lemma event_accounted ev w : accounted w -> accounted (event ev w).
Proof.
  intros Ha. destruct ev as [q f|j|]; cbn [event].
  - intros i. cbn. rewrite lookup_insert_is_Some', elem_of_app, list_elem_of_singleton.
    intros [->|[?|?]%Ha]; auto.
  - intros i [?|?]%Ha; cbn; rewrite elem_of_app, list_elem_of_singleton; [by auto|].
    destruct (decide (i = j)) as [->|]; [by auto|]. right. apply elem_of_difference.
    rewrite elem_of_singleton. done.
  - unfold run_once. destruct (tasks (ctx w)) as [|j q] eqn:Eq; [done|].
    destruct (tasks_map (ctx w) !! j) as [t|] eqn:Ej.
    2:{ intros i Hi. cbn in *. destruct (Ha i Hi) as [Hin|?]; [|by right]. rewrite Eq in Hin.
        apply elem_of_cons in Hin as [->|?]; [|by left]. rewrite Ej in Hi. by destruct Hi. }
    assert (forall i, i <> j -> is_Some (tasks_map (ctx w) !! i) -> i ∈ q \/ i ∈ asleep w) as Hrest.
    { intros i Hne Hi. destruct (Ha i Hi) as [Hin|?]; [|by right]. rewrite Eq in Hin.
      apply elem_of_cons in Hin as [->|?]; [done|by left]. }
    destruct (poll_future j (future t)) as [[u|] f]; intros i; cbn.
    + intros [Hne Hi]%lookup_delete_is_Some. destruct (Hrest i) as [?|?]; [done..|by left|].
      right. apply elem_of_difference. rewrite elem_of_singleton. done.
    + rewrite lookup_insert_is_Some'. intros Hi. destruct (decide (i = j)) as [->|Hne].
      * right. apply elem_of_union. left. by apply elem_of_singleton.
      * destruct Hi as [->|Hi]; [done|]. destruct (Hrest i Hne Hi); [by left|].
        right. apply elem_of_union. by right.
Qed.

Lemma min_context_spec cs : cs <> [] -> exists best, min_context cs = Some best /\ best ∈ cs /\
  Forall (fun c : Z * ExecutorContext => (length (tasks (snd best)) <= length (tasks (snd c)))%nat) cs.
Proof.
  destruct cs as [|c cs]; [done|]. intros _. cbn [min_context]. eexists. split; [done|].
  revert c. induction cs as [|d cs IH]; intros c; cbn [foldl].
  { split; [by left|]. by rewrite Forall_singleton. }
  destruct (_ <? _)%nat eqn:E.
  - apply Nat.ltb_lt in E. destruct (IH d) as [Hin Hall]. split; [by right|].
    constructor; [|done]. apply Forall_cons in Hall as [? _]. lia.
  - apply Nat.ltb_ge in E. destruct (IH c) as [Hin Hall]. apply Forall_cons in Hall as [Hc Hall].
    split; [|by repeat constructor; try lia].
    apply elem_of_cons in Hin as [->|Hin]; [by left|by right; right].
Qed.
End executor.
Arguments Task : clear implicits.
Arguments ExecutorContext : clear implicits.
Arguments Executor : clear implicits.
Arguments World : clear implicits.
Arguments Event : clear implicits.

(** C39: no task is lost by a context that runs between complete spawns: after
    any sequence of spawns, wake-ups and loop iterations, with any futures,
    every task in the map is in the run queue or was polled, was pending, and
    has not been woken since. *)
Theorem executor_accounts_for_tasks {F} (poll_future : TaskID -> F -> Poll unit * F) evs :
  accounted (events poll_future evs world0).
Proof.
  assert (accounted (@world0 F)) as H0 by (intros i [t Ht]; cbn in Ht; by rewrite lookup_empty in Ht).
  unfold events. revert H0. generalize (@world0 F). induction evs; cbn; eauto using event_accounted.
Qed.

(** The spawner balances the load: with at least one context, with
    distinct identifiers, the task gets the counter as its identifier and is
    queued last, and put in the map, in one context whose run queue is no
    longer than any other's; the other contexts do not change. *)
Theorem spawn_balances {F} (f : F) e : contexts e <> [] -> NoDup (contexts e).*1 ->
  exists q c cs1 cs2, contexts e = cs1 ++ (q, c) :: cs2 /\
    Forall (fun qc : Z * ExecutorContext F => (length (tasks c) <= length (tasks (snd qc)))%nat) (contexts e) /\
    spawn f e = Ok {| counter := if counter e =? 2 ^ 64 - 1 then 0 else counter e + 1;
      contexts := cs1 ++ (q, {| tasks := tasks c ++ [counter e];
                                tasks_map := <[counter e := {| id := counter e; queue_id := q; future := f |}]> (tasks_map c);
                                wakers := wakers c |}) :: cs2 |}.
Proof.
  intros Hne Hnd. destruct (min_context_spec (contexts e) Hne) as ([q c] & Hmin & Hin & Hall).
  apply list_elem_of_split in Hin as (cs1 & cs2 & Hcs). exists q, c, cs1, cs2. split; [done|].
  split; [done|]. unfold spawn, next_id. rewrite Hmin. cbn [expect]. rsimpl. do 2 f_equal.
  rewrite Hcs in Hnd |- *. rewrite fmap_app, fmap_cons in Hnd. apply NoDup_app in Hnd as (_ & H1 & H2).
  apply NoDup_cons in H2 as [H2 _].
  assert (forall g (cs : list (Z * ExecutorContext F)), q ∉ cs.*1 -> update_context q g cs = cs) as Hid.
  { intros g cs Hq. unfold update_context. induction cs as [|[q' c'] cs IH]; [done|].
    cbn in *. apply not_elem_of_cons in Hq as [? ?]. bfalse (q' =? q). by rewrite IH. }
  match goal with |- update_context q ?g _ = _ => set (G := g) end.
  assert (update_context q G (cs1 ++ (q, c) :: cs2) = update_context q G cs1 ++ (q, G c) :: update_context q G cs2) as ->.
  { unfold update_context. rewrite fmap_app, fmap_cons. cbn [fst snd]. by rewrite Z.eqb_refl. }
  rewrite !Hid; [done|done|]. intros Hq. eapply H1; [done|]. by left.
Qed.

Lemma spawn_balances_witness : exists q c cs1 cs2,
  contexts (Executor_new (Future:=nat) [1; 0]) = cs1 ++ (q, c) :: cs2 /\
  Forall (fun qc : Z * ExecutorContext nat => (length (tasks c) <= length (tasks (snd qc)))%nat)
    (contexts (Executor_new (Future:=nat) [1; 0])).
Proof.
  destruct (spawn_balances 7%nat (Executor_new [1; 0])) as (q & c & cs1 & cs2 & H1 & H2 & _).
  - vm_compute. discriminate.
  - apply (bool_decide_unpack _). vm_compute. exact I.
  - exists q, c, cs1, cs2. split; [exact H1|exact H2].
Defined.

(** A spawn is not atomic: another processor that runs the chosen context
    between the push and the insertion discards the identifier, and the task
    is left in the map, neither queued nor polled nor with any waker. *)
Theorem spawn_race_loses_task {F} (poll_future : TaskID -> F -> Poll unit * F) (f : F) :
  let c := spawn_insert {| id := 0; queue_id := 0; future := f |}
             (fst (run_once poll_future (spawn_push 0 default_context))) in
  tasks_map c !! 0 = Some {| id := 0; queue_id := 0; future := f |} /\ tasks c = [] /\ wakers c = ∅ /\
  run_once poll_future c = (c, None).
Proof. by cbn. Qed.
End Exec.
