(* ===== verification/Disk.v ===== *)
(** * Block devices

    The storage interface the file systems are written against
    (src/kernel/src/hal/storage.rs: [read_sectors_by_guid],
    [write_sectors_by_guid]) and the errors of src/kernel/src/hal/fs.rs.

    The drive behind the interface is hardware; it is a parameter: a class of
    states with a read and a write, and a law class that states what a
    working drive does.  [MemDisk] is a drive held in memory, which discharges
    the laws and lets the definitions be evaluated. *)

From S2P Require Import Prelude Bytes Serialize.

(** The strings of the error values, which are only displayed, are left out. *)
Inductive HalStorageOperationErr :=
| DriveDidntRespond
| DriveErr
| NoEnoughSpace
| StorageInternal (a b : Z).

Inductive HalFsIOErr :=
| HalErr (e : HalStorageOperationErr)
| DeserializationErr (e : DvDeErr)
| SerializationErr (e : DvSerErr)
| DirectoryNotEmpty
| Corrupted
| NoPermsProvided
| FileTooLarge
| BadPath
| NameTooLong
| BufTooSmall
| IsDirectory
| Internal
| NoSpaceLeft
| NoSuchFileOrDirectory
| NotADirectory
| NoAvailableInode
| FileExists
| Unsupported.

Definition SECTOR_SIZE : Z := 512.

(** A drive: reading [n] bytes from a sector on, and writing bytes from a
    sector on. *)
Class BlockDev (D : Type) := {
  bd_read : D -> Z -> Z -> res HalStorageOperationErr (list Z);
  bd_write : D -> Z -> list Z -> res HalStorageOperationErr D;
}.

(** The bytes of the drive, [bd_size] of them; whole-sector transfers inside
    the drive succeed and a write changes exactly the bytes it covers. *)
Definition bd_valid (sz lba n : Z) : Prop := 0 <= lba /\ 0 <= n /\ n mod SECTOR_SIZE = 0 /\ SECTOR_SIZE * lba + n <= sz.
Class BlockDevLaws (D : Type) `{BlockDev D} := {
  bd_size : D -> Z;
  bd_byte : D -> Z -> Z;
  bd_is_byte d i : is_byte (bd_byte d i);
  bd_read_ok d lba n : bd_valid (bd_size d) lba n ->
    bd_read d lba n = Ok ((fun i => bd_byte d (SECTOR_SIZE * lba + i)) <$> seqZ 0 n);
  bd_write_ok d lba bs : bd_valid (bd_size d) lba (zlen bs) -> bytes bs ->
    exists d', bd_write d lba bs = Ok d' /\ bd_size d' = bd_size d /\
      forall i, bd_byte d' i =
        if (SECTOR_SIZE * lba <=? i) && (i <? SECTOR_SIZE * lba + zlen bs)
        then nth (Z.to_nat (i - SECTOR_SIZE * lba)) bs 0 else bd_byte d i;
}.

(** ** A drive in memory *)
Definition MemDisk : Type := list Z.
#[global] Instance mem_disk : BlockDev MemDisk := {
  bd_read d lba n :=
    if (0 <=? lba) && (0 <=? n) && (SECTOR_SIZE * lba + n <=? zlen d)
    then Ok (wrap 8 <$> take (Z.to_nat n) (drop (Z.to_nat (SECTOR_SIZE * lba)) d)) else Err DriveDidntRespond;
  bd_write d lba bs :=
    if (0 <=? lba) && (SECTOR_SIZE * lba + zlen bs <=? zlen d)
    then Ok (take (Z.to_nat (SECTOR_SIZE * lba)) d ++ bs ++ drop (Z.to_nat (SECTOR_SIZE * lba) + length bs) d)
    else Err DriveDidntRespond;
}.

#[global, program] Instance mem_disk_laws : BlockDevLaws MemDisk := {
  bd_size d := zlen d;
  bd_byte d i := if 0 <=? i then wrap 8 (nth (Z.to_nat i) d 0) else 0;
}.
Next Obligation.
  intros d i. unfold is_byte. destruct (0 <=? i); [apply (wrap_range 8); lia|lia].
Qed.
Next Obligation.
  intros d lba n (Hl & Hn & _ & Hs). cbn [bd_read mem_disk]. unfold MemDisk in *.
  btrue ((0 <=? lba) && (0 <=? n) && (SECTOR_SIZE * lba + n <=? zlen d)). f_equal.
  unfold zlen, SECTOR_SIZE in *. apply list_eq_same_length with (n := Z.to_nat n).
  - by rewrite length_fmap, length_seqZ.
  - rewrite length_fmap, length_take, length_drop. lia.
  - intros i x y Hi. rewrite !list_lookup_fmap, lookup_seqZ_lt, lookup_take_lt, lookup_drop by lia.
    cbn. btrue (0 <=? 512 * lba + (0 + Z.of_nat i)).
    replace (Z.to_nat (512 * lba + (0 + Z.of_nat i))) with (Z.to_nat (512 * lba) + i)%nat by lia.
    destruct (d !! (Z.to_nat (512 * lba) + i)%nat) as [z|] eqn:E; [|intros; simplify_eq].
    rewrite (nth_lookup_Some _ _ _ _ E). cbn. congruence.
Qed.
Next Obligation.
  intros d lba bs (Hl & _ & _ & Hs) Hb. cbn [bd_write mem_disk]. unfold MemDisk in *.
  btrue ((0 <=? lba) && (SECTOR_SIZE * lba + zlen bs <=? zlen d)).
  eexists. split; [done|]. unfold SECTOR_SIZE in *. cbn in *. split.
  { unfold zlen in *. rewrite !length_app, length_take, length_drop. lia. }
  intros i. destruct (0 <=? i) eqn:Ei; boom; [|by bfalse ((512 * lba <=? i) && (i <? 512 * lba + zlen bs))].
  unfold zlen in *. rewrite !nth_lookup.
  destruct ((512 * lba <=? i) && (i <? 512 * lba + Z.of_nat (length bs))) eqn:E; boom.
  - rewrite lookup_app_r by (rewrite length_take; lia). rewrite length_take, lookup_app_l by lia.
    replace (Z.to_nat i - Z.to_nat (512 * lba) `min` length d)%nat with (Z.to_nat (i - 512 * lba)) by lia.
    destruct (lookup_lt_is_Some_2 bs (Z.to_nat (i - 512 * lba))) as [b Hbs]; [lia|]. rewrite Hbs. cbn.
    apply (Forall_lookup_1 _ _ _ _ Hb) in Hbs. by apply wrap_small.
  - do 2 f_equal. destruct (Z.lt_ge_cases i (512 * lba)).
    + rewrite lookup_app_l, lookup_take_lt; [done|lia|rewrite length_take; lia].
    + apply andb_false_iff in E as [E|E]; boom; [lia|].
      rewrite lookup_app_r, lookup_app_r, lookup_drop, length_take by (rewrite ?length_take; lia). f_equal. lia.
Qed.

Section contents.
Context {D : Type} `{BlockDevLaws D}.

(** [n] bytes from byte [off] on *)
Definition content (d : D) (off n : Z) : list Z := (fun i => bd_byte d (off + i)) <$> seqZ 0 n.

Lemma zlen_content d off n : 0 <= n -> zlen (content d off n) = n.
Proof. intros Hn. unfold content, zlen. rewrite length_fmap, length_seqZ. lia. Qed.
Lemma length_content d off n : length (content d off n) = Z.to_nat n.
Proof. unfold content. by rewrite length_fmap, length_seqZ. Qed.
Lemma content_bytes d off n : bytes (content d off n).
Proof. apply Forall_fmap, Forall_true. intros i. apply bd_is_byte. Qed.
Lemma lookup_content d off n i : 0 <= i < n -> content d off n !! Z.to_nat i = Some (bd_byte d (off + i)).
Proof.
  intros Hi. unfold content. rewrite list_lookup_fmap, lookup_seqZ_lt by lia. cbn. do 2 f_equal. lia.
Qed.
Lemma content_ext d d' off off' n : (forall i, 0 <= i < n -> bd_byte d (off + i) = bd_byte d' (off' + i)) ->
  content d off n = content d' off' n.
Proof.
  intros He. apply list_fmap_ext. intros k i Hi. apply lookup_seqZ in Hi as [-> ?]. apply He. lia.
Qed.
Lemma content_slice d off n a m : 0 <= a -> 0 <= m -> a + m <= n ->
  take (Z.to_nat m) (drop (Z.to_nat a) (content d off n)) = content d (off + a) m.
Proof.
  intros Ha Hm Hn. unfold content. apply list_eq_same_length with (n := Z.to_nat m).
  - by rewrite length_fmap, length_seqZ.
  - rewrite length_take, length_drop, length_fmap, length_seqZ. lia.
  - intros i x y Hi. rewrite lookup_take_lt, lookup_drop, !list_lookup_fmap, !lookup_seqZ_lt by lia.
    cbn. intros [= <-] [= <-]. f_equal. lia.
Qed.
Lemma content_app d off n m : 0 <= n -> 0 <= m -> content d off (n + m) = content d off n ++ content d (off + n) m.
Proof.
  intros Hn Hm. unfold content. rewrite seqZ_app, fmap_app by lia. f_equal.
  change (0 + n) with n. rewrite <- (Z.add_0_r n) at 1. rewrite <- fmap_add_seqZ, <- list_fmap_compose.
  apply list_fmap_ext. intros _ i _. cbn. f_equal. lia.
Qed.
Lemma content_list d off bs : (forall i, 0 <= i < zlen bs -> bd_byte d (off + i) = nth (Z.to_nat i) bs 0) ->
  content d off (zlen bs) = bs.
Proof.
  intros He. apply list_eq_same_length with (n := length bs).
  - done.
  - rewrite length_content. unfold zlen. lia.
  - intros i x y Hi. unfold content. rewrite list_lookup_fmap, lookup_seqZ_lt by (unfold zlen; lia).
    intros [= <-] Hy. rewrite He by (unfold zlen; lia).
    erewrite nth_lookup_Some; [done|]. by replace (Z.to_nat (0 + Z.of_nat i)) with i by lia.
Qed.
End contents.
