(* ===== verification/Gpt.v ===== *)
(** * GUID partition tables

    src/kernel/src/hal/gpt.rs: the header and entries of a GPT, and the reader
    that checks and decodes the primary table, and the backup at the end of
    the drive.

    The header and the entries are [Pod] structs, so byte lists with fields at
    their packed offsets.  The drive is the [BlockDev] interface of Disk.v; a
    negative block address counts from the end of the drive, which is the
    drive's business.  The pooled sector buffer of a read is its 512 bytes:
    the pool is the subject of Pools.v.  Log messages and the texts of errors
    are left out.

    Shown here: a table written with right checksums is read back, entry by
    entry; a header with a burst of up to four wrong bytes is refused; which
    of the two copies is returned; and how many entries are read. *)

From S2P Require Import Prelude Bytes Serialize Crypto Disk.

(** ** [GPTHeader] *)
Abbreviation GPTHeader := (list Z) (only parsing).
Definition GPT_HEADER_BYTES : Z := 92.
Definition header_crc32 : GPTHeader -> Z := u_at 4 16.
Definition set_header_crc32 (v : Z) : GPTHeader -> GPTHeader := u_put 4 16 v.
Definition header_guid_bytes (h : GPTHeader) : list Z := take 16 (drop 56 h).
Definition array_start : GPTHeader -> Z := u_at 8 72.
Definition entry_num : GPTHeader -> Z := u_at 4 80.
Definition entry_size : GPTHeader -> Z := u_at 4 84.
Definition array_crc32 : GPTHeader -> Z := u_at 4 88.
Definition header_guid (h : GPTHeader) : res never Guid.t := Guid.from_bytes (header_guid_bytes h).

(** ** [GPTEntry] *)
Abbreviation GPTEntry := (list Z) (only parsing).
Definition GPT_ENTRY_BYTES : Z := 128.
Definition gpt_start_lba : GPTEntry -> Z := u_at 8 32.
Definition gpt_end_lba : GPTEntry -> Z := u_at 8 40.
Definition gpt_flags : GPTEntry -> Z := u_at 8 48.
(** The 32 characters of [name1] and the 4 of [name2] *)
Definition gpt_name (e : GPTEntry) : list Z := (fun i => u_at 2 (56 + 2 * i) e) <$> seqZ 0 36.
Definition entry_is_empty (e : GPTEntry) : bool := gpt_start_lba e =? 0.
Definition type_guid (e : GPTEntry) : res never Guid.t := Guid.from_bytes (take 16 e).
Definition unique_guid (e : GPTEntry) : res never Guid.t := Guid.from_bytes (take 16 (drop 16 e)).
(** [char::from_u32(c).unwrap_or(' ')]: a surrogate is no character. *)
Definition char_or_space (c : Z) : Z := if (0xD800 <=? c) && (c <=? 0xDFFF) then 32 else c.
Definition get_name (e : GPTEntry) : list Z := char_or_space <$> filter (fun c => c <> 0) (gpt_name e).

Inductive GPTErr :=
| BufferTooSmall | GPTAlreadyExist | GPTNonExist | GPTCorrupted | BadArrayEntrySize | NoFreeSlot
| OverlappingPartition | InvalidLBARange | InvalidEntryIndex | EntryAlreadyEmpty | GptNameTooLong
| GptSerializationErr | Io | GptDriveDidntRespond.

(** ** [GptReader] *)
Definition SIGNATURE : list Z := str "EFI PART".
Definition starts_with (buf pre : list Z) : bool := bool_decide (take (length pre) buf = pre).

Section reader.
Context `{Build} {D : Type} `{BlockDev D} (d : D).

(** The checksum field is zeroed in the caller's buffer. *)
Definition is_valid_header (buf : list Z) : res GPTErr (bool * list Z) :=
  header ← slice buf 0 GPT_HEADER_BYTES;
  let crc := header_crc32 header in
  let header := set_header_crc32 0 header in
  ok ← from_never (Crc32.is_verified_crc32 header crc);
  buf ← splice buf 0 header;
  Ok (ok, buf).

Definition signature_at (lba : Z) : res GPTErr bool :=
  r ← attempt (bd_read d lba SECTOR_SIZE);
  Ok (match r with inl _ => false | inr buf => starts_with buf SIGNATURE end).
Definition is_normal_present : res GPTErr bool := signature_at 1.
Definition is_backup_present : res GPTErr bool := signature_at (-1).
Definition is_gpt_present : res GPTErr bool :=
  normal ← is_normal_present;
  if (normal : bool) then Ok true else
  backup ← is_backup_present;
  Ok (normal || backup).

Definition entry_of_chunk (c : list Z) : res GPTErr GPTEntry := slice c 0 GPT_ENTRY_BYTES.
Fixpoint entries_of (cs : list (list Z)) : res GPTErr (list GPTEntry) :=
  match cs with
  | [] => Ok []
  | c :: cs => e ← entry_of_chunk c; es ← entries_of cs; Ok (e :: es)
  end.

Definition get_table (lba : Z) (is_backup : bool) : res GPTErr (GPTHeader * list GPTEntry) :=
  header_buf ← map_err (fun _ => Io) (bd_read d lba SECTOR_SIZE);
  '(valid, header_buf) ← is_valid_header header_buf;
  if negb valid then Err GPTCorrupted else
  header ← slice header_buf 0 GPT_HEADER_BYTES;
  if negb (is_power_of_two (entry_size header / 128)) then Err BadArrayEntrySize else
  size ← umul 32 (entry_num header) (entry_size header);
  count ← uadd 32 (size / 512) (if size mod 512 =? 0 then 0 else 1);
  let arr_lba := if is_backup then -1 - count else swrap 64 (array_start header) in
  let arr_sectors := wrap 16 (size / 512) in
  buffer ← map_err (fun _ => Io) (bd_read d arr_lba (arr_sectors * 512 / 4 * 4));
  ok ← from_never (Crc32.is_verified_crc32 buffer (array_crc32 header));
  if negb ok then Err GPTCorrupted else
  cs ← chunks (entry_size header) buffer;
  array ← entries_of cs;
  Ok (header, array).

Definition read_gpt : res GPTErr (GPTHeader * list GPTEntry) :=
  present ← is_gpt_present;
  if negb present then Err GPTNonExist else
  primary ← attempt (get_table 1 false);
  backup ← attempt (get_table (-1) true);
  match primary, backup with
  | inr t, inr _ => Ok t
  | inr t, inl _ => Ok t
  | inl _, inr t => Ok t
  | inl _, inl _ => Err GPTCorrupted
  end.
End reader.

(** ** Reading a table *)
Section tables.
Context `{Build} {D : Type} `{BlockDev D} (d : D).

(** The checksum of a header that is right *)
Definition header_sealed (h : GPTHeader) : Prop := header_crc32 h = Crc32.crc32_spec (set_header_crc32 0 h).

Lemma is_verified_ok bs c : bytes bs -> Crc32.is_verified_crc32 bs c = Ok (c =? Crc32.crc32_spec bs).
Proof. intros Hb. unfold Crc32.is_verified_crc32. by rewrite Crc32.full_crc_ok. Qed.
Lemma is_valid_header_ok h rest : bytes h -> zlen h = 92 ->
  is_valid_header (h ++ rest) =
    Ok (header_crc32 h =? Crc32.crc32_spec (set_header_crc32 0 h), set_header_crc32 0 h ++ rest).
Proof.
  intros Hb Hl. unfold is_valid_header, GPT_HEADER_BYTES. unfold zlen in Hl.
  rewrite slice_ok by (unfold zlen; rewrite ?length_app; lia). rsimpl.
  rewrite drop_0, take_app_length' by lia. rewrite is_verified_ok by by apply u_put_bytes. unfold from_never. cbn [map_err].
  assert (length (set_header_crc32 0 h) = length h) as Hs by (apply length_u_put; unfold zlen; lia).
  rewrite splice_ok by (unfold zlen; rewrite ?length_app; lia). rsimpl.
  by rewrite take_0, Hs, drop_app_length' by lia.
Qed.
Lemma entries_of_ok cs : Forall (fun c => 128 <= zlen c) cs -> entries_of cs = Ok (take 128 <$> cs).
Proof.
  induction 1 as [|c cs Hc _ IH]; [done|]. cbn [entries_of]. unfold entry_of_chunk, GPT_ENTRY_BYTES.
  rewrite slice_ok by lia. rsimpl. by rewrite IH, drop_0.
Qed.
Lemma fields_unsealed n off h : 0 <= off -> zlen h = 92 -> off + Z.of_nat n <= 16 \/ 20 <= off ->
  u_at n off (set_header_crc32 0 h) = u_at n off h.
Proof. intros Ho Hl Hd. apply u_at_put_ne; lia. Qed.

(** The parts of a table: the sector of its header [h], and the array of
    [entry_num h] slots [cs], on whole sectors *)
Record table_on (lba : Z) (is_backup : bool) (h rest : list Z) (cs : list (list Z)) : Prop := {
  t_header : bd_read d lba SECTOR_SIZE = Ok (h ++ rest);
  t_bytes : bytes h /\ zlen h = 92;
  t_size : is_power_of_two (entry_size h / 128) = true;
  t_slots : Forall (fun c => zlen c = entry_size h) cs /\ zlen cs = entry_num h;
  t_whole : (zlen cs * entry_size h) mod 512 = 0 /\ zlen cs * entry_size h < 2 ^ 16 * 512;
  t_array : bd_read d (if is_backup then -1 - zlen cs * entry_size h / 512 else swrap 64 (array_start h))
              (zlen cs * entry_size h) = Ok (concat cs);
  t_data : Forall bytes cs;
}.
Lemma table_size lba b h rest cs : table_on lba b h rest cs -> 128 <= entry_size h.
Proof.
  intros Ht. pose proof (t_size _ _ _ _ _ Ht) as Hp. unfold is_power_of_two in Hp. boom.
  destruct (Z.lt_ge_cases (entry_size h) 128); [|done].
  pose proof (Z.div_lt_upper_bound (entry_size h) 128 1). lia.
Qed.

Lemma get_table_ok lba b h rest cs : table_on lba b h rest cs -> header_sealed h ->
  array_crc32 h = Crc32.crc32_spec (concat cs) ->
  get_table d lba b = Ok (set_header_crc32 0 h, take 128 <$> cs).
Proof.
  intros Ht Hs Hc. pose proof (table_size _ _ _ _ _ Ht) as Hsz.
  destruct Ht as [Hr [Hb Hl] Hp [Hcs Hn] [Hw Hmax] Ha Hd]. unfold header_sealed in Hs.
  pose proof (zlen_nonneg cs). unfold get_table. rewrite Hr. cbn [map_err]. rsimpl. rewrite is_valid_header_ok by done. rsimpl.
  btrue (header_crc32 h =? Crc32.crc32_spec (set_header_crc32 0 h)). cbn [negb].
  assert (zlen (set_header_crc32 0 h) = 92) as Hl0 by (unfold set_header_crc32; rewrite zlen_u_put; lia).
  unfold GPT_HEADER_BYTES. rewrite slice_ok by (rewrite ?zlen_app; pose proof (zlen_nonneg rest); lia). rsimpl.
  rewrite drop_0, take_app_length' by (unfold zlen in *; lia).
  unfold entry_size, entry_num, array_start, array_crc32 in *. rewrite !fields_unsealed by lia. rewrite Hp. cbn [negb].
  rewrite <- Hn. rewrite umul_ok by lia. rsimpl. rewrite Hw. cbn [Z.eqb].
  assert (0 <= zlen cs * u_at 4 84 h / 512 < 2 ^ 16) by (split; [apply Z.div_pos|apply Z.div_lt_upper_bound]; nia).
  rewrite uadd_ok by lia. rsimpl. rewrite Z.add_0_r, wrap_small by lia.
  assert (zlen cs * u_at 4 84 h / 512 * 512 = zlen cs * u_at 4 84 h) as He
    by (pose proof (Z.div_mod (zlen cs * u_at 4 84 h) 512); lia).
  replace (zlen cs * u_at 4 84 h / 512 * 512 / 4 * 4) with (zlen cs * u_at 4 84 h)
    by (rewrite (Z.mul_assoc _ 128 4 : _ * 512 = _), Z.div_mul; lia).
  rewrite Ha. cbn [map_err]. rsimpl. rewrite is_verified_ok by by apply Forall_concat. unfold from_never. cbn [map_err].
  rsimpl. btrue (u_at 4 88 h =? Crc32.crc32_spec (concat cs)). cbn [negb].
  rewrite chunks_concat by (done || lia). rsimpl. rewrite entries_of_ok; [done|].
  eapply Forall_impl; [exact Hcs|]. intros c Hcl. cbn in Hcl. lia.
Qed.
End tables.

(** A header whose checksum field is right for other contents is refused. *)
Section corruption.
Context `{Build} {D : Type} `{BlockDev D} (d : D).

Lemma unsealed_refused lba b h rest : bd_read d lba SECTOR_SIZE = Ok (h ++ rest) -> bytes h -> zlen h = 92 ->
  ~ header_sealed h -> get_table d lba b = Err GPTCorrupted.
Proof.
  intros Hr Hb Hl Hs. unfold get_table. rewrite Hr. cbn [map_err]. rsimpl. rewrite is_valid_header_ok by done. rsimpl.
  destruct (Z.eqb_spec (header_crc32 h) (Crc32.crc32_spec (set_header_crc32 0 h))); done.
Qed.
(** Replacing up to four bytes in a row outside the checksum field breaks the seal. *)
Lemma burst_unseals p m m' s : bytes (p ++ m ++ s) -> zlen (p ++ m ++ s) = 92 -> bytes m' ->
  length m = length m' -> (length m <= 4)%nat -> m <> m' -> zlen p + zlen m <= 16 \/ 20 <= zlen p ->
  header_sealed (p ++ m ++ s) -> ~ header_sealed (p ++ m' ++ s).
Proof.
  intros Hb Hl Hm' Hmm H4 Hne Hd Hs Hs'. unfold header_sealed, header_crc32, set_header_crc32 in *.
  assert (zlen m = zlen m') as Hz by (unfold zlen; lia). rewrite !zlen_app in Hl.
  pose proof (zlen_nonneg m). pose proof (zlen_nonneg p). pose proof (zlen_nonneg s).
  apply Forall_app in Hb as [Hp Hb]. apply Forall_app in Hb as [Hm Hsb].
  destruct Hd.
  - rewrite !u_put_app_r, !u_at_app_r, Hz in * by lia.
    eapply Crc32.burst_differs; [|exact Hm'|exact Hmm|exact H4|exact Hne|by rewrite <- Hs, <- Hs'].
    rewrite !Forall_app. split_and!; [done..|]. by apply u_put_bytes.
  - rewrite !(u_put_app_l 4 16 0), !(u_at_app_l 4 16) in * by lia.
    eapply Crc32.burst_differs; [|exact Hm'|exact Hmm|exact H4|exact Hne|by rewrite <- Hs, <- Hs'].
    rewrite !Forall_app. split_and!; [by apply u_put_bytes|done..].
Qed.

(** A damaged primary table.  If the header at block 1 is a right one in
    which up to four bytes in a row outside its checksum field were replaced,
    and the backup table is intact, the reader finds the partitions in the
    backup: it returns the backup's header, checksum field zeroed, and each of
    its entries. *)
Theorem gpt_backup_recovers p m m' s rest h2 rest2 cs :
  bytes (p ++ m ++ s) -> zlen (p ++ m ++ s) = 92 -> header_sealed (p ++ m ++ s) ->
  bytes m' -> length m = length m' -> (length m <= 4)%nat -> m <> m' -> zlen p + zlen m <= 16 \/ 20 <= zlen p ->
  bd_read d 1 SECTOR_SIZE = Ok ((p ++ m' ++ s) ++ rest) ->
  table_on d (-1) true h2 rest2 cs -> header_sealed h2 -> array_crc32 h2 = Crc32.crc32_spec (concat cs) ->
  take 8 h2 = SIGNATURE ->
  read_gpt d = Ok (set_header_crc32 0 h2, take 128 <$> cs).
Proof.
  intros Hb Hl Hs Hm' Hmm H4 Hne Hd Hr Ht Hs2 Hc2 Hsig.
  assert (bytes (p ++ m' ++ s) /\ zlen (p ++ m' ++ s) = 92) as [Hb' Hl'].
  { rewrite !Forall_app in Hb. rewrite !Forall_app. rewrite !zlen_app in *. unfold zlen in *. split; [tauto|lia]. }
  pose proof (unsealed_refused 1 false _ rest Hr Hb' Hl' (burst_unseals p m m' s Hb Hl Hm' Hmm H4 Hne Hd Hs)) as H1.
  pose proof (get_table_ok d (-1) true h2 rest2 cs Ht Hs2 Hc2) as H2.
  assert (is_gpt_present d = Ok true) as Hp.
  { unfold is_gpt_present, is_normal_present, is_backup_present, signature_at. rewrite Hr, (t_header _ _ _ _ _ _ Ht).
    cbn [attempt]. rsimpl. destruct (starts_with _ _); [done|]. unfold starts_with. f_equal. cbn [orb].
    apply bool_decide_eq_true. destruct (t_bytes _ _ _ _ _ _ Ht) as [_ Hl2]. unfold zlen in Hl2.
    change (length SIGNATURE) with 8%nat. by rewrite take_app_le by lia. }
  unfold read_gpt. rewrite Hp. rsimpl. cbn [negb]. by rewrite H1, H2.
Qed.
End corruption.

(** C38: reading a table back.  On a working drive, a header with a right
    checksum at block [lba], whose array of slots lies on whole sectors with a
    right checksum, is read as that header, its checksum field zeroed, and the
    first 128 bytes of every slot, in order. *)
Theorem gpt_table_roundtrip `{Build} {D} `{BlockDevLaws D} (d : D) lba h cs :
  0 <= lba -> 512 * lba + 512 <= bd_size d -> zlen h = 92 -> content d (512 * lba) 92 = h -> header_sealed h ->
  is_power_of_two (entry_size h / 128) = true ->
  Forall (fun c => zlen c = entry_size h) cs -> zlen cs = entry_num h ->
  (zlen cs * entry_size h) mod 512 = 0 -> zlen cs * entry_size h < 2 ^ 16 * 512 ->
  array_start h < 2 ^ 63 -> 512 * array_start h + zlen cs * entry_size h <= bd_size d ->
  content d (512 * array_start h) (zlen cs * entry_size h) = concat cs ->
  array_crc32 h = Crc32.crc32_spec (concat cs) ->
  get_table d lba false = Ok (set_header_crc32 0 h, take 128 <$> cs).
Proof.
  intros Hl Hsz Hh Hc Hs Hp Hcs Hn Hw Hmax Hst Hasz Hac Hcrc.
  assert (bytes h) as Hb by (rewrite <- Hc; apply content_bytes).
  assert (0 <= entry_size h < 2 ^ 32) by (apply (u_at_range 4); [done|lia|lia]).
  assert (0 <= array_start h < 2 ^ 64) by (apply (u_at_range 8); [done|lia|lia]). pose proof (zlen_nonneg cs).
  apply (get_table_ok d lba false h (content d (512 * lba + 92) 420) cs); [|done|done]. split; try done.
  - rewrite bd_read_ok by (unfold bd_valid, SECTOR_SIZE; split_and!; [lia|lia|done|lia]). f_equal. rewrite <- Hc.
    by rewrite <- content_app by lia.
  - rewrite swrap_small by lia. rewrite bd_read_ok by (unfold bd_valid, SECTOR_SIZE; split_and!; [lia|nia|done|lia]).
    f_equal. exact Hac.
  - apply Forall_concat. rewrite <- Hac. apply content_bytes.
Qed.

(** ** What a table that was read looks like *)
Section shape.
Context `{Build} {D : Type} `{BlockDev D} (d : D).
(** A read that succeeds fills its buffer. *)
Definition reads_exact : Prop := forall lba n bs, bd_read d lba n = Ok bs -> zlen bs = Z.max 0 n /\ bytes bs.

Lemma chunks_fuel_bound {A} fuel n (l : list A) : (0 < n)%nat ->
  zlen (chunks_fuel fuel n l) * Z.of_nat n < zlen l + Z.of_nat n.
Proof.
  intros Hn. revert l. induction fuel as [|fuel IH]; intros l; [unfold zlen; cbn; lia|].
  destruct l as [|x l]; [unfold zlen; cbn; lia|]. cbn [chunks_fuel]. rewrite zlen_cons.
  specialize (IH (drop n (x :: l))). rewrite zlen_drop in IH. pose proof (zlen_cons x l). pose proof (zlen_nonneg l).
  destruct (Z.le_gt_cases (Z.of_nat n) (zlen (x :: l))); [lia|].
  rewrite (drop_ge (x :: l) n) by (unfold zlen in *; lia). destruct fuel; unfold zlen in *; cbn in *; lia.
Qed.
Lemma entries_of_inv cs es : entries_of cs = Ok es -> zlen es = zlen cs /\ Forall (fun e => zlen e = 128) es.
Proof.
  revert es. induction cs as [|c cs IH]; intros es He; cbn [entries_of] in He; [by simplify_eq|].
  apply res_bind_ok in He as (e & He & Hes). apply res_bind_ok in Hes as (es' & Hes & [= <-]).
  apply IH in Hes as [Hl Hf]. rewrite !zlen_cons. split; [lia|]. constructor; [|done].
  unfold entry_of_chunk, slice in He. destruct (_ && _) eqn:E in He; [|done]. boom. simplify_eq.
  unfold GPT_ENTRY_BYTES in *. rewrite zlen_take, zlen_drop. lia.
Qed.
Lemma map_err_ok {E F A} (f : E -> F) (m : res E A) a : map_err f m = Ok a -> m = Ok a.
Proof. destruct m; intros; by simplify_eq/=. Qed.
Lemma chunks_count {E A} n (l : list A) cs : 0 <= n -> chunks (E:=E) n l = Ok cs -> zlen cs * n < zlen l + n.
Proof.
  intros Hn Hc. unfold chunks in Hc. destruct (Z.eqb_spec n 0); [done|]. injection Hc as <-.
  pose proof (chunks_fuel_bound (length l) (Z.to_nat n) l). lia.
Qed.
Lemma umul_le {E} w a b c : 0 <= w -> 0 <= a -> 0 <= b -> umul (E:=E) w a b = Ok c -> 0 <= c <= a * b.
Proof.
  intros Hw Ha Hb. unfold umul, unum. destruct (fits w (a * b)); [intros [= <-]; nia|].
  destruct overflow_checks; [done|]. intros [= <-]. unfold wrap.
  pose proof (Z.mod_pos_bound (a * b) (2 ^ w) ltac:(apply Z.pow_pos_nonneg; lia)). pose proof (Z.mod_le (a * b) (2 ^ w)).
  assert (0 < 2 ^ w) by (apply Z.pow_pos_nonneg; lia). nia.
Qed.

(** The part of [get_table] after the header was accepted *)
Lemma bounds_of_rest h0 (lba : Z) (b : bool) h es : reads_exact -> bytes h0 -> zlen h0 = 92 ->
  (if negb (is_power_of_two (entry_size h0 / 128)) then Err BadArrayEntrySize else
   size ← umul 32 (entry_num h0) (entry_size h0);
   count ← uadd 32 (size / 512) (if size mod 512 =? 0 then 0 else 1);
   buffer ← map_err (fun _ => Io) (bd_read d (if b then -1 - count else swrap 64 (array_start h0))
     (wrap 16 (size / 512) * 512 / 4 * 4));
   ok ← from_never (Crc32.is_verified_crc32 buffer (array_crc32 h0));
   if negb ok then Err GPTCorrupted else
   cs ← chunks (entry_size h0) buffer;
   array ← entries_of cs;
   Ok (h0, array)) = Ok (h, es) ->
  h = h0 /\ Forall (fun e => zlen e = 128) es /\ zlen es <= entry_num h.
Proof.
  intros Hx Hb Hl Hg.
  assert (0 <= entry_size h0 < 2 ^ 32) as Hsz by (apply (u_at_range 4); [done|lia|lia]).
  assert (0 <= entry_num h0 < 2 ^ 32) as Hnum by (apply (u_at_range 4); [done|lia|lia]).
  destruct (is_power_of_two (entry_size h0 / 128)) eqn:Hp; [|done]. cbn [negb] in Hg.
  apply res_bind_ok in Hg as (size & Hs%umul_le & Hg); [|lia..].
  apply res_bind_ok in Hg as (count & _ & Hg). apply res_bind_ok in Hg as (buf & Hbuf%map_err_ok & Hg).
  apply res_bind_ok in Hg as (ok & _ & Hg). destruct ok; [|done]. cbn [negb] in Hg.
  apply res_bind_ok in Hg as (cs & Hcs%chunks_count & Hg); [|lia].
  apply res_bind_ok in Hg as (es' & [He Hf]%entries_of_inv & Hg). injection Hg as <- <-.
  split_and!; [done|done|]. destruct (Hx _ _ _ Hbuf) as [Hlen _].
  assert (wrap 16 (size / 512) <= size / 512) by (apply Z.mod_le; [apply Z.div_pos|]; lia).
  pose proof (Z.div_mod size 512 ltac:(lia)). pose proof (Z.mod_pos_bound size 512 ltac:(lia)).
  pose proof (wrap_range 16 (size / 512) ltac:(lia)).
  assert (wrap 16 (size / 512) * 512 / 4 * 4 = wrap 16 (size / 512) * 512) as Hq
    by (rewrite (Z.mul_assoc _ 128 4 : _ * 512 = _), Z.div_mul; lia).
  rewrite He. assert (zlen cs * entry_size h0 < entry_num h0 * entry_size h0 + entry_size h0) by lia. nia.
Qed.

(** The shape of a table.  Whatever the drive holds, a table that is
    returned has a 92-byte header with its checksum field zeroed, entries of
    exactly 128 bytes, and never more of them than the header announces. *)
Theorem gpt_table_bounds lba b h es : reads_exact -> get_table d lba b = Ok (h, es) ->
  zlen h = 92 /\ header_crc32 h = 0 /\ Forall (fun e => zlen e = 128) es /\ zlen es <= entry_num h.
Proof.
  intros Hx Hg. unfold get_table in Hg. apply res_bind_ok in Hg as (buf & Hbuf%map_err_ok & Hg).
  destruct (Hx _ _ _ Hbuf) as [Hl Hb]. unfold SECTOR_SIZE in Hl.
  rewrite <- (take_drop 92 buf) in Hg.
  assert (zlen (take 92 buf) = 92) as Hh by (rewrite zlen_take; lia).
  rewrite is_valid_header_ok in Hg by (done || by apply Forall_take). cbn [mbind res_bind] in Hg.
  set (h0 := set_header_crc32 0 (take 92 buf)) in *. assert (zlen h0 = 92) as Hh0 by (subst h0; unfold set_header_crc32; rewrite zlen_u_put; lia).
  assert (bytes h0) as Hb0 by by apply u_put_bytes, Forall_take.
  destruct (header_crc32 (take 92 buf) =? _); [|done]. cbn [negb] in Hg.
  apply res_bind_ok in Hg as (h' & Hh' & Hg). unfold GPT_HEADER_BYTES in Hh'.
  rewrite slice_ok in Hh' by (rewrite ?zlen_app; pose proof (zlen_nonneg (drop 92 buf)); lia).
  injection Hh' as Hh'. rewrite drop_0, take_app_length' in Hh' by (unfold zlen in *; lia). subst h'.
  apply (bounds_of_rest h0 lba b) in Hg; [|done..]. destruct Hg as (-> & Hes & Hn).
  split_and!; [done| |done|done]. apply (u_at_put 4 16 0); lia.
Qed.
End shape.

(** ** A small drive with a table
    Six blocks: the primary header in block 1 and its four entries in block 2,
    the backup's entries in block 4 and its header in block 5. *)
Definition sample_entry (n : Z) : GPTEntry := u_put 8 40 (10 * n + 9) (u_put 8 32 (10 * n) (replicate 128 0)).
Definition sample_entries : list GPTEntry := sample_entry <$> [1; 2; 3; 4].
Definition seal (h : GPTHeader) : GPTHeader := set_header_crc32 (Crc32.crc32_spec h) h.
(** The header of a table whose array starts at block [start] *)
Definition sample_header (start : Z) : GPTHeader :=
  seal (u_put 8 72 start (u_put 4 88 (Crc32.crc32_spec (concat sample_entries)) (u_put 4 84 128 (u_put 4 80 4
    (SIGNATURE ++ replicate 84 0))))).
Definition primary_header : GPTHeader := Eval vm_compute in sample_header 2.
Definition backup_header : GPTHeader := Eval vm_compute in sample_header 4.
Definition pad512 (l : list Z) : list Z := l ++ replicate (512 - length l) 0.
Definition gpt_disk (h1 : GPTHeader) : MemDisk :=
  replicate 512 0 ++ pad512 h1 ++ concat sample_entries ++ replicate 512 0 ++ concat sample_entries ++
  pad512 backup_header.

(** A drive that counts negative addresses from its end *)
Record EndDisk := { ed : MemDisk }.
#[global] Instance end_disk : BlockDev EndDisk := {
  bd_read d lba n := bd_read (ed d) (if lba <? 0 then zlen (ed d) / 512 + lba else lba) n;
  bd_write d lba bs := d' ← bd_write (ed d) (if lba <? 0 then zlen (ed d) / 512 + lba else lba) bs; Ok {| ed := d' |};
}.

Lemma sample_slots h : h = primary_header \/ h = backup_header ->
  Forall (fun c => zlen c = entry_size h) sample_entries /\ Forall bytes sample_entries.
Proof. intros [-> | ->]; split; apply Forall_forall; intros c Hc; revert c Hc; apply Forall_forall;
  repeat constructor; by vm_compute. Qed.
Lemma gpt_table_roundtrip_witness :
  @get_table dev_build _ _ (gpt_disk primary_header) 1 false = Ok (set_header_crc32 0 primary_header, sample_entries).
Proof.
  destruct (sample_slots primary_header) as [Hs _]; [by left|].
  apply (@gpt_table_roundtrip dev_build MemDisk _ _ (gpt_disk primary_header) 1 primary_header sample_entries);
    first [exact Hs | lia | vm_compute; reflexivity | vm_compute; congruence].
Defined.

(** Byte 24 of the primary header is damaged. *)
Definition damaged_header : GPTHeader := Eval vm_compute in take 24 primary_header ++ [99] ++ drop 25 primary_header.
Definition damaged : EndDisk := {| ed := gpt_disk damaged_header |}.
Lemma damaged_backup : @table_on EndDisk _ damaged (-1) true backup_header (replicate 420 0) sample_entries.
Proof.
  destruct (sample_slots backup_header) as [Hs Hb]; [by right|].
  split; [vm_compute; reflexivity| |vm_compute; reflexivity|split; [exact Hs|reflexivity]| |vm_compute; reflexivity|exact Hb].
  - split; [|reflexivity]. apply bytes_check. vm_compute. reflexivity.
  - split; reflexivity.
Qed.
Lemma gpt_backup_recovers_witness :
  @read_gpt dev_build _ _ damaged = Ok (set_header_crc32 0 backup_header, sample_entries).
Proof.
  apply (@gpt_backup_recovers dev_build EndDisk _ damaged (take 24 primary_header) [0] [99] (drop 25 primary_header)
    (replicate 420 0) backup_header (replicate 420 0) sample_entries);
    first [exact damaged_backup | vm_compute; reflexivity | done | idtac].
  all: try (vm_compute; congruence).
  - apply bytes_check. vm_compute. reflexivity.
  - apply bytes_check. vm_compute. reflexivity.
  - cbn. lia.
  - right. vm_compute. congruence.
Defined.
Lemma mem_reads_exact (d : MemDisk) : reads_exact d.
Proof.
  intros lba n bs Hr. cbn [bd_read mem_disk] in Hr. destruct (_ && _) eqn:E in Hr; [|done]. boom. injection Hr as <-.
  unfold zlen, SECTOR_SIZE in *. rewrite length_fmap, length_take, length_drop. split; [lia|].
  apply Forall_fmap, Forall_true. intros x. apply (wrap_range 8). lia.
Qed.
Lemma gpt_table_bounds_witness : let h := set_header_crc32 0 primary_header in
  zlen h = 92 /\ header_crc32 h = 0 /\ Forall (fun e => zlen e = 128) sample_entries /\ zlen sample_entries <= entry_num h.
Proof.
  apply (@gpt_table_bounds dev_build MemDisk _ (gpt_disk primary_header) 1 false _ _ (mem_reads_exact _)).
  vm_compute. reflexivity.
Defined.
