(* ===== verification/Storage.v ===== *)
(** * The registry of drives, and the kernel's arguments

    src/kernel/src/hal/storage.rs and src/kernel/src/args.rs.

    A request to a drive is a message to the drive's task, which carries the
    setter of a one-shot cell; the caller waits for the cell.  The task takes
    the messages in the order they were sent (Channels.v), so a request and
    its answer are a call of the drive, the [BlockDev] interface of Disk.v.
    The map from indices to drives has the keys 0, 1, 2 and so on and is a
    list.  The map from GUIDs to indices orders its keys by the whole value of
    the GUID and is a finite map from that.

    How the drives are found and set up is in Hba.v; the command line is a
    parameter. *)

From stdpp Require Import gmap.
From S2P Require Import Prelude Bytes Serialize Crypto Disk Gpt.

(** The two cells are empty until they are set, once. *)
Record Storage (D : Type) := { by_idx : option (list D); by_guid : option (gmap Z Z) }.
Arguments Build_Storage {D} _ _.
Arguments by_idx {D} _.
Arguments by_guid {D} _.
Definition once_set {A} (cell : option A) (v : A) : option A := match cell with Some _ => cell | None => Some v end.

Section storage.
Context `{Build} {D : Type} `{BlockDev D}.
Abbreviation SErr := HalStorageOperationErr.

Definition drive (st : Storage D) (index : Z) : res SErr D :=
  l ← expect (by_idx st);
  ok_or DriveDidntRespond (l !! Z.to_nat index).
Definition drive_index (st : Storage D) (guid : Guid.t) : res SErr Z :=
  m ← expect (by_guid st);
  ok_or DriveDidntRespond (m !! Guid.whole guid).
Definition read_sectors_by_idx (st : Storage D) (index n lba : Z) : res SErr (list Z) :=
  d ← drive st index; bd_read d lba n.
Definition read_sectors_by_guid (st : Storage D) (guid : Guid.t) (n lba : Z) : res SErr (list Z) :=
  i ← drive_index st guid; read_sectors_by_idx st i n lba.
Definition write_sectors_by_idx (st : Storage D) (index : Z) (buffer : list Z) (lba : Z) : res SErr (Storage D) :=
  d ← drive st index;
  d ← bd_write d lba buffer;
  Ok {| by_idx := insert (Z.to_nat index) d <$> by_idx st; by_guid := by_guid st |}.
Definition write_sectors_by_guid (st : Storage D) (guid : Guid.t) (buffer : list Z) (lba : Z) : res SErr (Storage D) :=
  i ← drive_index st guid; write_sectors_by_idx st i buffer lba.

(** The loop of [run_storage_devices]: a drive whose table cannot be read is
    passed over. *)
Fixpoint register (idx : Z) (devices : list D) (m : gmap Z Z) : res never (gmap Z Z) :=
  match devices with
  | [] => Ok m
  | d :: devices =>
      o ← attempt (read_gpt d);
      m ← match o with
          | inl _ => Ok m
          | inr (header, _) => g ← header_guid header; Ok (<[Guid.whole g := idx]> m)
          end;
      register (idx + 1) devices m
  end.
(** The end of [identify_storage_devices], for the list of drives found *)
Definition set_devices (st : Storage D) (storage_devices_list : list D) : Storage D :=
  {| by_idx := once_set (by_idx st) storage_devices_list; by_guid := by_guid st |}.
Definition run_storage_devices (st : Storage D) : res never (Storage D) :=
  devices ← expect (by_idx st);
  m ← register 0 devices ∅;
  Ok {| by_idx := by_idx st; by_guid := once_set (by_guid st) m |}.
End storage.

(** ** args.rs *)
Record ArgsRes := { root_drive : Guid.t; root_entry : Guid.t }.
Definition Guid_default : Guid.t := Guid.mk 0 0 0 0 (replicate 8 0).
Definition SPACE : Z := 32.
Definition EQUALS : Z := 61.
(** [s.split(c)] and [s.split_once(c)] *)
Fixpoint split_on (c : Z) (cur s : list Z) : list (list Z) :=
  match s with
  | [] => [cur]
  | x :: s => if x =? c then cur :: split_on c [] s else split_on c (cur ++ [x]) s
  end.
Fixpoint split_once (c : Z) (cur s : list Z) : option (list Z * list Z) :=
  match s with
  | [] => None
  | x :: s => if x =? c then Some (cur, s) else split_once c (cur ++ [x]) s
  end.
Definition parse_arg (r : ArgsRes) (kv : list Z * list Z) : ArgsRes :=
  let '(key, val) := kv in
  let g := default Guid_default (Guid.from_str val) in
  if bool_decide (key = str "root_drive_guid") then {| root_drive := g; root_entry := root_entry r |}
  else if bool_decide (key = str "root_partition_guid") then {| root_drive := root_drive r; root_entry := g |}
  else r.
Definition parse_args (cmdline : list Z) : ArgsRes :=
  foldl parse_arg {| root_drive := Guid_default; root_entry := Guid_default |} (omap (split_once EQUALS []) (split_on SPACE [] cmdline)).

(** ** Requests reach the drive they name *)
Section routing.
Context `{Build} {D : Type} `{BlockDev D}.

(** The GUID of the table a drive has, if one can be read *)
Definition table_guid (d : D) : option Z :=
  match read_gpt d with
  | Ok (h, _) => match header_guid h with Ok g => Some (Guid.whole g) | _ => None end
  | _ => None
  end.

(** The last of the drives with the GUID is the one the map names. *)
Lemma register_last devices idx m m' w : register idx devices m = Ok m' ->
  (exists k d, devices !! k = Some d /\ table_guid d = Some w /\ m' !! w = Some (idx + Z.of_nat k) /\
     forall j d', (k < j)%nat -> devices !! j = Some d' -> table_guid d' <> Some w) \/
  ((forall j d', devices !! j = Some d' -> table_guid d' <> Some w) /\ m' !! w = m !! w).
Proof.
  revert idx m. induction devices as [|d devices IH]; intros idx m Hr; cbn [register] in Hr.
  { injection Hr as ->. right. by split. }
  apply res_bind_ok in Hr as (o & Ho & Hr). apply res_bind_ok in Hr as (m1 & Hm & Hr).
  assert (m1 !! w = if decide (table_guid d = Some w) then Some idx else m !! w) as Hw.
  { unfold table_guid. destruct (read_gpt d) as [[h es]|e| |]; simplify_eq/=; [|done].
    apply res_bind_ok in Hm as (g & -> & [= <-]). destruct (decide (Guid.whole g = w)) as [->|Hne].
    - by rewrite lookup_insert_eq, decide_True.
    - rewrite lookup_insert_ne, decide_False by congruence. done. }
  destruct (IH _ _ Hr) as [(k & d1 & Hk & Hg & Hl & Hlast)|[Hnone Hl]].
  - left. exists (S k), d1. split_and!; [done..|rewrite Hl; f_equal; lia|].
    intros [|j] d' Hj Hd; [lia|]. apply (Hlast j); [lia|done].
  - destruct (decide (table_guid d = Some w)) as [Hd|Hd].
    + left. exists 0%nat, d. split_and!; [done..|rewrite Hl, Hw; f_equal; lia|].
      intros [|j] d' Hj Hd'; [lia|]. by apply (Hnone j).
    + right. split; [|by rewrite Hl]. intros [|j] d' Hd'; [by simplify_eq/=|by apply (Hnone j)].
Qed.

(** After [run_storage_devices], a request that names a GUID goes to the
    last drive whose partition table carries it: a read is that drive's read,
    a write is that drive's write and leaves every other drive and both maps
    as they are; a GUID no readable table carries is refused. *)
Theorem guid_requests_routed st devices st' g : by_idx st = Some devices -> by_guid st = None ->
  run_storage_devices st = Ok st' ->
  (exists k d, devices !! k = Some d /\ table_guid d = Some (Guid.whole g) /\
     (forall j d', (k < j)%nat -> devices !! j = Some d' -> table_guid d' <> Some (Guid.whole g)) /\
     (forall n lba, read_sectors_by_guid st' g n lba = bd_read d lba n) /\
     (forall bs lba, write_sectors_by_guid st' g bs lba =
        d' ← bd_write d lba bs; Ok {| by_idx := Some (<[k := d']> devices); by_guid := by_guid st' |})) \/
  ((forall j d', devices !! j = Some d' -> table_guid d' <> Some (Guid.whole g)) /\
     (forall n lba, read_sectors_by_guid st' g n lba = Err DriveDidntRespond) /\
     (forall bs lba, write_sectors_by_guid st' g bs lba = Err DriveDidntRespond)).
Proof.
  intros Hi Hg Hr. unfold run_storage_devices in Hr. rewrite Hi in Hr. cbn [expect mbind res_bind] in Hr.
  apply res_bind_ok in Hr as (m & Hm & [= <-]). rewrite Hg. cbn [once_set].
  unfold read_sectors_by_guid, write_sectors_by_guid, drive_index. cbn [by_guid expect]. rsimpl.
  destruct (register_last _ _ _ _ (Guid.whole g) Hm) as [(k & d & Hk & Hd & Hl & Hlast)|[Hnone Hl]].
  - left. exists k, d. rewrite Hl. cbn [ok_or]. rsimpl.
    unfold read_sectors_by_idx, write_sectors_by_idx, drive. cbn [by_idx by_guid expect]. rsimpl.
    rewrite Z.add_0_l, Nat2Z.id, Hk. done.
  - right. rewrite Hl, lookup_empty. done.
Qed.
End routing.

(** Two drives, the first of which has no partition table *)
Definition blank : EndDisk := {| ed := replicate 1024 0 |}.
Definition two_drives : Storage EndDisk := {| by_idx := Some [blank; damaged]; by_guid := None |}.
Definition two_running : Storage EndDisk := {| by_idx := Some [blank; damaged]; by_guid := Some {[0 := 1]} |}.
Lemma blank_guid : @table_guid dev_build _ _ blank = None.
Proof. vm_compute. reflexivity. Qed.
Lemma damaged_guid : @table_guid dev_build _ _ damaged = Some 0.
Proof. vm_compute. reflexivity. Qed.
Lemma two_drives_run : @run_storage_devices dev_build _ _ two_drives = Ok two_running.
Proof. vm_compute. reflexivity. Qed.
Lemma guid_requests_routed_witness :
  @read_sectors_by_guid EndDisk _ two_running Guid_default 512 1 = bd_read damaged 1 512.
Proof.
  destruct (@guid_requests_routed dev_build EndDisk _ two_drives [blank; damaged] two_running Guid_default
    eq_refl eq_refl two_drives_run) as [(k & d & Hk & Hd & _ & Hr & _)|[Hn _]].
  - rewrite Hr. destruct k as [|[|k]]; [|by injection Hk as <-|discriminate Hk].
    injection Hk as <-. rewrite blank_guid in Hd. discriminate Hd.
  - exfalso. exact (Hn 1%nat damaged eq_refl damaged_guid).
Defined.

(** ** The command line *)
Ltac by_dec := apply (bool_decide_eq_true_1 _); vm_compute; reflexivity.
Section cmdline.
(** Arguments [key=value] with a space between them *)
Definition render_arg (kv : list Z * list Z) : list Z := kv.1 ++ EQUALS :: kv.2.
Fixpoint render (kvs : list (list Z * list Z)) : list Z :=
  match kvs with [] => [] | [kv] => render_arg kv | kv :: kvs => render_arg kv ++ SPACE :: render kvs end.
Definition arg_ok (kv : list Z * list Z) : Prop := (EQUALS ∉ kv.1) /\ (SPACE ∉ kv.1) /\ (SPACE ∉ kv.2).

Lemma split_on_part c cur a s : c ∉ a -> split_on c cur (a ++ c :: s) = (cur ++ a) :: split_on c [] s.
Proof.
  revert cur. induction a as [|x a IH]; intros cur Hn; cbn [app split_on].
  - by rewrite Z.eqb_refl, app_nil_r.
  - apply not_elem_of_cons in Hn as [Hx Hn]. bfalse (x =? c). by rewrite IH, <- app_assoc by done.
Qed.
Lemma split_on_last c cur a : c ∉ a -> split_on c cur a = [cur ++ a].
Proof.
  revert cur. induction a as [|x a IH]; intros cur Hn; cbn [split_on]; [by rewrite app_nil_r|].
  apply not_elem_of_cons in Hn as [Hx Hn]. bfalse (x =? c). by rewrite IH, <- app_assoc by done.
Qed.
Lemma split_once_part c cur a s : c ∉ a -> split_once c cur (a ++ c :: s) = Some (cur ++ a, s).
Proof.
  revert cur. induction a as [|x a IH]; intros cur Hn; cbn [app split_once].
  - by rewrite Z.eqb_refl, app_nil_r.
  - apply not_elem_of_cons in Hn as [Hx Hn]. bfalse (x =? c). by rewrite IH, <- app_assoc by done.
Qed.
Lemma render_arg_no_space kv : arg_ok kv -> SPACE ∉ render_arg kv.
Proof. intros (_ & H1 & H2). unfold render_arg. rewrite elem_of_app, elem_of_cons. intros [?|[?|?]]; done. Qed.
Lemma split_args kvs : kvs <> [] -> Forall arg_ok kvs -> omap (split_once EQUALS []) (split_on SPACE [] (render kvs)) = kvs.
Proof.
  intros Hne Hok. induction Hok as [|[key val] kvs Hkv Hok IH]; [done|]. pose proof (render_arg_no_space _ Hkv) as Hs.
  destruct Hkv as [He _]. destruct kvs as [|kv kvs]; cbn [render].
  - rewrite split_on_last by done. cbn. unfold render_arg. cbn. by rewrite split_once_part.
  - rewrite split_on_part by done. cbn [omap list_omap app]. unfold render_arg at 1. cbn [fst snd].
    rewrite split_once_part by done. cbn. f_equal. by apply IH.
Qed.

Definition drive_key : list Z := str "root_drive_guid".
Definition partition_key : list Z := str "root_partition_guid".
Lemma parse_arg_other r k v : k <> drive_key -> k <> partition_key -> parse_arg r (k, v) = r.
Proof. intros H1 H2. unfold parse_arg. by rewrite !bool_decide_eq_false_2. Qed.
Lemma parse_others r kvs : Forall (fun kv => kv.1 <> drive_key /\ kv.1 <> partition_key) kvs -> foldl parse_arg r kvs = r.
Proof.
  intros Hk. revert r. induction Hk as [|[k v] kvs [H1 H2] _ IH]; intros r; [done|]. cbn [foldl].
  by rewrite parse_arg_other.
Qed.
Lemma hex_no_space l : Forall Guid.hexchar l -> SPACE ∉ l.
Proof. intros Hc Hin. apply (proj1 (Forall_forall _ _) Hc) in Hin. unfold Guid.hexchar, SPACE in Hin. lia. Qed.
Lemma guid_text_no_space g s : Guid.wf g -> Guid.to_string g = Ok s -> SPACE ∉ s.
Proof.
  destruct g as [w d1 d2 d3 d4]. intros [H1 H2 H3 [H4 L4] _]; cbn [Guid.data1 Guid.data2 Guid.data3 Guid.data4] in *.
  do 9 (destruct d4 as [|? d4]; try discriminate L4). intros [= <-].
  assert (forall n d, (1 <= n <= 32)%nat -> 0 <= d < 16 ^ Z.of_nat n -> SPACE ∉ Guid.fmt_hex n d) as Hx.
  { intros n d Hn Hd. apply hex_no_space. by destruct (Guid.fmt_hex_spec n d Hn Hd) as (_ & ? & _). }
  unfold is_byte in *. repeat match goal with H : Forall _ (_ :: _) |- _ => apply Forall_cons_1 in H as [? H] end.
  repeat first [ apply Hx; [lia|cbn; lia] | apply not_elem_of_app; split | apply not_elem_of_cons; split; [done|]
    | apply not_elem_of_nil].
Qed.

(** The GUIDs given to the kernel are the ones it starts from: on a
    command line that has, in this order, the drive's GUID and the
    partition's, each printed by [to_string], and any other [key=value]
    arguments around them, [parse_args] returns the two GUIDs. *)
Theorem args_roundtrip before between after g h s t :
  Forall (fun kv => arg_ok kv /\ kv.1 <> drive_key /\ kv.1 <> partition_key) (before ++ between ++ after) ->
  Guid.wf g -> Guid.wf h -> Guid.to_string g = Ok s -> Guid.to_string h = Ok t ->
  parse_args (render (before ++ (drive_key, s) :: between ++ (partition_key, t) :: after)) =
    {| root_drive := g; root_entry := h |}.
Proof.
  intros Hk Hg Hh Hs Ht. rewrite !Forall_app in Hk. destruct Hk as (Hb & Hm & Ha).
  assert (forall kvs, Forall (fun kv => arg_ok kv /\ kv.1 <> drive_key /\ kv.1 <> partition_key) kvs ->
    Forall arg_ok kvs /\ forall r, foldl parse_arg r kvs = r) as Hf.
  { intros kvs Hf. apply Forall_and in Hf as [? ?]. split; [done|]. intros r. by apply parse_others. }
  destruct (Hf _ Hb) as [Ob Fb], (Hf _ Hm) as [Om Fm], (Hf _ Ha) as [Oa Fa].
  pose proof (guid_text_no_space g s Hg Hs) as Ns. pose proof (guid_text_no_space h t Hh Ht) as Nt.
  unfold parse_args. rewrite split_args.
  - rewrite foldl_app, Fb. cbn [foldl]. rewrite foldl_app, Fm. cbn [foldl]. rewrite Fa.
    destruct (Guid.from_str_to_string g Hg) as (s' & Hs' & _ & Pg), (Guid.from_str_to_string h Hh) as (t' & Ht' & _ & Ph).
    rewrite Hs in Hs'. rewrite Ht in Ht'. injection Hs' as <-. injection Ht' as <-.
    unfold parse_arg. rewrite Pg, Ph. done.
  - by destruct before.
  - repeat (apply Forall_app_2 || apply Forall_cons_2); try done; by split_and!; [by_dec|by_dec|].
Qed.
End cmdline.

Definition linux_guid : Guid.t := Guid.mk 0xE47D47D8693D798E477284830FC63DAF 0x0fc63daf 0x8483 0x4772 [0x8e;0x79;0x3d;0x69;0xd8;0x47;0x7d;0xe4].
Lemma linux_guid_wf : Guid.wf linux_guid.
Proof. split; [cbn; lia..|split; [repeat constructor; done|done]|vm_compute; reflexivity]. Qed.
Lemma args_roundtrip_witness :
  parse_args (str "quiet=1 root_drive_guid=0fc63daf-8483-4772-8e79-3d69d8477de4 root_partition_guid=0fc63daf-8483-4772-8e79-3d69d8477de4")
    = {| root_drive := linux_guid; root_entry := linux_guid |}.
Proof.
  apply (args_roundtrip [(str "quiet", str "1")] [] [] linux_guid linux_guid (str "0fc63daf-8483-4772-8e79-3d69d8477de4")
    (str "0fc63daf-8483-4772-8e79-3d69d8477de4")); [|apply linux_guid_wf..|vm_compute; reflexivity|vm_compute; reflexivity].
  apply Forall_singleton. split_and!; by_dec.
Defined.
