(* ===== verification/Ext2Layout.v ===== *)
(** * ext2: on-disk structures

    src/kernel/src/drivers/fs/ext2/mod.rs: the superblock, group descriptor,
    inode and directory entry, and their methods; structs.rs: the geometry of
    a block group.

    A [Pod] struct is what [bytemuck] makes of it: its bytes, with its fields
    read and written in place at their offsets in the packed layout.  The
    inode goes through the [DvDeSer] codecs, a directory entry through its own
    [serialize] and [deserialize].

    Shown here: a field read back after a write is the value written and other
    fields do not change; the inode occupies 128 bytes and obeys the codec
    contract; directory entries with ASCII names round-trip; where a bitmap
    index is on the disk according to its address and to its block index. *)

From S2P Require Import Prelude Bytes Serialize Disk.

(** ** [SuperBlock] *)
Abbreviation SuperBlock := (list Z) (only parsing).
Definition SUPERBLOCK_BYTES : Z := 264.
Definition s_blocks_count : SuperBlock -> Z := u_at 4 4.
Definition s_free_blocks_count : SuperBlock -> Z := u_at 4 12.
Definition s_free_inodes_count : SuperBlock -> Z := u_at 4 16.
Definition s_first_data_block : SuperBlock -> Z := u_at 4 20.
Definition s_log_block_size : SuperBlock -> Z := u_at 4 24.
Definition s_log_frag_size : SuperBlock -> Z := u_at 4 28.
Definition s_blocks_per_group : SuperBlock -> Z := u_at 4 32.
Definition s_inodes_per_group : SuperBlock -> Z := u_at 4 40.
Definition s_magic : SuperBlock -> Z := u_at 2 56.
Definition s_rev_level : SuperBlock -> Z := u_at 4 76.
Definition s_prealloc_blocks : SuperBlock -> Z := u_at 1 204.
Definition s_prealloc_dir_blocks : SuperBlock -> Z := u_at 1 205.
Definition set_s_free_blocks_count (v : Z) : SuperBlock -> SuperBlock := u_put 4 12 v.
Definition set_s_free_inodes_count (v : Z) : SuperBlock -> SuperBlock := u_put 4 16 v.

Definition EXT2_SUPER_MAGIC : Z := 0xEF53.
Definition EXT2_DYNAMIC_REV : Z := 1.

Section superblock.
Context `{Build} {E : Type}.
Definition block_size_of (sb : SuperBlock) : res E Z := ushl 32 1024 (s_log_block_size sb).
Definition fragment_size (sb : SuperBlock) : res E Z := ushl 32 1024 (s_log_frag_size sb).
Definition is_valid (sb : SuperBlock) : bool := s_magic sb =? EXT2_SUPER_MAGIC.
(** [div_ceil] *)
Definition block_groups_count_of (sb : SuperBlock) : res E Z :=
  q ← udiv (s_blocks_count sb) (s_blocks_per_group sb);
  Ok (if s_blocks_count sb mod s_blocks_per_group sb =? 0 then q else q + 1).
Definition is_dynamic_rev (sb : SuperBlock) : bool := EXT2_DYNAMIC_REV <=? s_rev_level sb.
End superblock.

(** ** [GroupDescriptor]: 18 bytes of a 32-byte table entry *)
Definition BLOCK_GROUP_DESCRIPTOR_SIZE : Z := 32.
Definition GROUP_DESCRIPTOR_BYTES : Z := 18.
Abbreviation GroupDescriptor := (list Z) (only parsing).
Definition bg_block_bitmap : GroupDescriptor -> Z := u_at 4 0.
Definition bg_inode_bitmap : GroupDescriptor -> Z := u_at 4 4.
Definition bg_inode_table : GroupDescriptor -> Z := u_at 4 8.
Definition bg_free_blocks_count : GroupDescriptor -> Z := u_at 2 12.
Definition bg_free_inodes_count : GroupDescriptor -> Z := u_at 2 14.
Definition bg_used_dirs_count : GroupDescriptor -> Z := u_at 2 16.

(** ** [Inode] *)
Record Inode := {
  i_mode : Z; i_uid : Z; i_size : Z; i_atime : Z; i_ctime : Z; i_mtime : Z; i_dtime : Z;
  i_gid : Z; i_links_count : Z; i_blocks : Z; i_flags : Z; i_osd1 : Z; i_block : list Z;
  i_generation : Z; i_file_acl : Z; i_dir_acl : Z; i_faddr : Z; i_osd2 : list Z;
}.
Definition INODE_SIZE : Z := 128.
Definition Inode_default : Inode := {|
  i_mode := 0; i_uid := 0; i_size := 0; i_atime := 0; i_ctime := 0; i_mtime := 0; i_dtime := 0;
  i_gid := 0; i_links_count := 0; i_blocks := 0; i_flags := 0; i_osd1 := 0; i_block := replicate 15 0;
  i_generation := 0; i_file_acl := 0; i_dir_acl := 0; i_faddr := 0; i_osd2 := replicate 12 0;
|}.

(** The derived codec: the fields in the order of the declaration *)
Definition inode_fields : DvDeSer _ :=
  struct_cons (uint 2) (struct_cons (uint 2) (struct_cons (uint 4) (struct_cons (uint 4)
  (struct_cons (uint 4) (struct_cons (uint 4) (struct_cons (uint 4) (struct_cons (uint 2)
  (struct_cons (uint 2) (struct_cons (uint 4) (struct_cons (uint 4) (struct_cons (uint 4)
  (struct_cons (array (uint 4) 4 15) (struct_cons (uint 4) (struct_cons (uint 4) (struct_cons (uint 4)
  (struct_cons (uint 4) (struct_cons (array (uint 1) 1 12) struct_nil))))))))))))))))).
Definition inode_into :=
  fun '(a, (b, (c, (d, (e, (f, (g, (h, (i, (j, (k, (l, (m, (n, (o, (p, (q, (r, tt)))))))))))))))))) =>
  {| i_mode := a; i_uid := b; i_size := c; i_atime := d; i_ctime := e; i_mtime := f; i_dtime := g;
     i_gid := h; i_links_count := i; i_blocks := j; i_flags := k; i_osd1 := l; i_block := m;
     i_generation := n; i_file_acl := o; i_dir_acl := p; i_faddr := q; i_osd2 := r |}.
Definition inode_from (x : Inode) :=
  (i_mode x, (i_uid x, (i_size x, (i_atime x, (i_ctime x, (i_mtime x, (i_dtime x, (i_gid x,
  (i_links_count x, (i_blocks x, (i_flags x, (i_osd1 x, (i_block x, (i_generation x, (i_file_acl x,
  (i_dir_acl x, (i_faddr x, (i_osd2 x, ())))))))))))))))))).
Definition inode_codec : DvDeSer Inode := struct_iso inode_into inode_from inode_fields.

Definition EXT2_S_IFLNK : Z := 0xA000.
Definition EXT2_S_IFREG : Z := 0x8000.
Definition EXT2_S_IFDIR : Z := 0x4000.
Definition file_type_of (self : Inode) : Z := Z.land (i_mode self) 0xF000.
Definition permissions (self : Inode) : Z := Z.land (i_mode self) 0x0FFF.
Definition is_directory (self : Inode) : bool := file_type_of self =? EXT2_S_IFDIR.
Definition is_regular_file (self : Inode) : bool := file_type_of self =? EXT2_S_IFREG.
Definition is_symlink (self : Inode) : bool := file_type_of self =? EXT2_S_IFLNK.

(** ** [DirEntry] *)
Record DirEntry := { inode : Z; rec_len : Z; file_type : Z; name : list Z }.
Definition EXT2_DIR_ENTRY_ALIGNMENT : Z := 4.

(** [DirEntryPartial]: inode, rec_len, and a 16-bit name length, which covers
    the length byte and the file type byte *)
Definition DIR_ENTRY_PARTIAL_BYTES : Z := 8.
Definition dp_inode : list Z -> Z := u_at 4 0.
Definition dp_rec_len : list Z -> Z := u_at 2 4.
Definition dp_name_len : list Z -> Z := u_at 2 6.

(** [!0b11] on [u16] *)
Definition align4_mask : Z := 0xFFFC.

(** [byte as char] pushed onto a [String]: the code point's UTF-8 bytes *)
Definition latin1 (b : Z) : list Z := if b <? 128 then [b] else [192 + b / 64; 128 + b mod 64].

Section direntry.
Context `{Build}.

Definition min_reclen {E} (name_len : Z) : res E Z :=
  n ← uadd 16 DIR_ENTRY_PARTIAL_BYTES name_len;
  n ← uadd 16 n 3;
  Ok (Z.land n align4_mask).

Definition record_length {E} (self : DirEntry) : res E Z :=
  n ← uadd 16 (wrap 16 (8 + zlen (name self))) EXT2_DIR_ENTRY_ALIGNMENT;
  n ← usub 16 n 1;
  Ok (Z.max (Z.land n align4_mask) (rec_len self)).

Definition DirEntry_new {E} (ino : Z) (nm : list Z) : res E DirEntry :=
  let r := {| inode := ino; rec_len := 0; file_type := 0; name := nm |} in
  n ← record_length r;
  Ok {| inode := ino; rec_len := n; file_type := 0; name := nm |}.

(** One field, serialized into [&mut target[acc..]] *)
Definition put_field (sz : nat) (e : Endianness) (v : Z) (st : list Z * Z) : res DvSerErr (list Z * Z) :=
  let '(target, acc) := st in
  sub ← slice_from target acc;
  '(sub, n) ← serialize (uint sz) e v sub;
  target ← splice target acc sub;
  Ok (target, acc + n).
(** [for (idx, char) in name.bytes().enumerate() { target[acc..][idx] = char; }] *)
Definition put_byte (acc : Z) (ic : Z * Z) (target : list Z) : res DvSerErr (list Z) :=
  sub ← slice_from target acc;
  sub ← update sub (fst ic) (snd ic);
  splice target acc sub.
Definition put_name (nm : list Z) (acc : Z) (target : list Z) : res DvSerErr (list Z) :=
  rfor (zip (seqZ 0 (zlen nm)) nm) target (put_byte acc).

Definition DirEntry_serialize (e : Endianness) (self : DirEntry) (target : list Z) : res DvSerErr (list Z * Z) :=
  if 255 <? zlen (name self) then Err (BadStringLength 0 255) else
  let name_len := wrap 8 (zlen (name self)) in
  st ← put_field 4 e (inode self) (target, 0);
  len ← record_length self;
  st ← put_field 2 e len st;
  st ← put_field 1 e name_len st;
  '(target, acc) ← put_field 1 e (file_type self) st;
  target ← put_name (name self) acc target;
  Ok (target, len).

Definition serialize_till_end (e : Endianness) (self : DirEntry) (target : list Z) : res DvSerErr (list Z * Z) :=
  if 255 <? zlen (name self) then Err (BadStringLength 0 255) else
  let name_len := wrap 8 (zlen (name self)) in
  let length := wrap 16 (zlen target) in
  st ← put_field 4 e (inode self) (target, 0);
  st ← put_field 2 e length st;
  st ← put_field 1 e name_len st;
  '(target, acc) ← put_field 1 e (file_type self) st;
  target ← put_name (name self) acc target;
  Ok (target, length).
End direntry.

Definition get_field (sz : nat) (e : Endianness) (acc : Z) (input : list Z) : res DvDeErr (Z * Z) :=
  sub ← slice_from input acc;
  '(v, n) ← deserialize (uint sz) e sub;
  Ok (v, acc + n).
Fixpoint get_name (idxs : list Z) (acc : Z) (input : list Z) : res DvDeErr (list Z) :=
  match idxs with
  | [] => Ok []
  | i :: idxs =>
      sub ← slice_from input acc;
      if zlen sub <=? i then Err WrongBufferSize else
      b ← index sub i;
      rest ← get_name idxs acc input;
      Ok (latin1 b ++ rest)
  end.
Definition DirEntry_deserialize (e : Endianness) (input : list Z) : res DvDeErr (DirEntry * Z) :=
  '(ino, acc) ← get_field 4 e 0 input;
  '(rlen, acc) ← get_field 2 e acc input;
  '(name_len, acc) ← get_field 1 e acc input;
  '(ft, acc) ← get_field 1 e acc input;
  nm ← get_name (seqZ 0 name_len) acc input;
  Ok ({| inode := ino; rec_len := rlen; file_type := ft; name := nm |}, rlen).

(** ** [Ext2BlockGroup] *)
Record Ext2BlockGroup := {
  group_number : Z; block_size : Z; blocks_per_group : Z; sectors_per_block : Z; descriptor : GroupDescriptor;
}.
Definition RESERVED_BOOT_RECORD_OFFSET : Z := 2.

Section group.
Context `{Build} {E : Type}.
Definition sadd (a b : Z) : res E Z := snum 64 (a + b).
Definition smul (a b : Z) : res E Z := snum 64 (a * b).
Definition ssub (a b : Z) : res E Z := snum 64 (a - b).
(** [/] and [%] on [i64] truncate; the divisors of the code are not -1. *)
Definition sdiv (a b : Z) : res E Z := if b =? 0 then Panic else Ok (Z.quot a b).
Definition srem (a b : Z) : res E Z := if b =? 0 then Panic else Ok (Z.rem a b).

(** [block_idx as i64 * block_size / SECTOR_SIZE], in [IoHandler] and here *)
Definition block_idx_to_lba (bs : Z) (block_idx : Z) : res E Z :=
  n ← smul block_idx bs; sdiv n SECTOR_SIZE.
(** [(lba / block_size) as u32 * SECTOR_SIZE as u32] *)
Definition lba_to_block_idx (bs : Z) (lba : Z) : res E Z :=
  q ← sdiv lba bs; umul 32 (wrap 32 q) SECTOR_SIZE.

Definition get_group_lba (self : Ext2BlockGroup) : res E Z :=
  if group_number self =? 0 then Ok RESERVED_BOOT_RECORD_OFFSET
  else
    a ← ssub (blocks_per_group self) 1;
    a ← smul a (sectors_per_block self);
    a ← sadd RESERVED_BOOT_RECORD_OFFSET a;
    a ← sadd a (1024 / SECTOR_SIZE);
    b ← ssub (group_number self) 1;
    b ← smul b (blocks_per_group self);
    b ← smul b (sectors_per_block self);
    sadd a b.
Definition get_superblock_lba (self : Ext2BlockGroup) : res E (option Z) :=
  a ← get_group_lba self; Ok (Some a).
Definition get_blockgroup_desc_table_lba (self : Ext2BlockGroup) : res E (option Z) :=
  a ← get_group_lba self;
  a ← (if group_number self =? 0 then sadd a (1024 / SECTOR_SIZE) else sadd a (sectors_per_block self));
  Ok (Some a).
Definition get_block_bitmap_lba (self : Ext2BlockGroup) : res E Z :=
  block_idx_to_lba (block_size self) (bg_block_bitmap (descriptor self)).
Definition get_inode_bitmap_lba (self : Ext2BlockGroup) : res E Z :=
  block_idx_to_lba (block_size self) (bg_inode_bitmap (descriptor self)).
Definition get_inode_table_lba (self : Ext2BlockGroup) : res E Z :=
  block_idx_to_lba (block_size self) (bg_inode_table (descriptor self)).
Definition get_data_blocks_start_lba (self : Ext2BlockGroup) : res E Z := get_group_lba self.
Definition block_group_size (bpg bs : Z) : res E Z :=
  q ← sdiv bs SECTOR_SIZE; smul bpg q.
End group.

(** ** Inodes *)
Definition inode_ok (x : Inode) : Prop :=
  Forall (is_uint 2) [i_mode x; i_uid x; i_gid x; i_links_count x] /\
  Forall (is_uint 4) [i_size x; i_atime x; i_ctime x; i_mtime x; i_dtime x; i_blocks x; i_flags x; i_osd1 x;
                      i_generation x; i_file_acl x; i_dir_acl x; i_faddr x] /\
  (Forall (is_uint 4) (i_block x) /\ length (i_block x) = 15%nat) /\
  (Forall (is_uint 1) (i_osd2 x) /\ length (i_osd2 x) = 12%nat).

Definition inode_enc (e : Endianness) (x : Inode) : list Z :=
  let u n z := to_bytes e n z in
  u 2%nat (i_mode x) ++ u 2%nat (i_uid x) ++ u 4%nat (i_size x) ++ u 4%nat (i_atime x) ++ u 4%nat (i_ctime x) ++
  u 4%nat (i_mtime x) ++ u 4%nat (i_dtime x) ++ u 2%nat (i_gid x) ++ u 2%nat (i_links_count x) ++
  u 4%nat (i_blocks x) ++ u 4%nat (i_flags x) ++ u 4%nat (i_osd1 x) ++ concat (u 4%nat <$> i_block x) ++
  u 4%nat (i_generation x) ++ u 4%nat (i_file_acl x) ++ u 4%nat (i_dir_acl x) ++ u 4%nat (i_faddr x) ++
  concat (u 1%nat <$> i_osd2 x) ++ [].

#[global] Instance inode_laws : DvLaws inode_codec 128 inode_ok inode_enc.
Proof.
  assert (forall P f, DvLaws inode_fields 128 P f -> (forall b, inode_ok b -> P (inode_from b)) ->
    (forall a, P a -> inode_ok (inode_into a)) -> DvLaws inode_codec 128 inode_ok (fun e b => f e (inode_from b))) as L.
  { intros P f Hl H1 H2. apply struct_iso_laws with (P := P); [done..|by intros []|].
    by intros [a [b [c [d [e [g [h [i [j [k [l [m [n [o [p [q [r [s []]]]]]]]]]]]]]]]]]]. }
  epose proof (_ : DvLaws inode_fields (2 + (2 + (4 + (4 + (4 + (4 + (4 + (2 + (2 + (4 + (4 + (4 + (4 * 15 +
      (4 + (4 + (4 + (4 + (1 * 12 + 0))))))))))))))))))%nat _ _) as Lf.
  refine (L _ _ Lf _ _); cbn [fst snd].
  - intros b. unfold inode_ok, inode_from. cbn. rewrite !Forall_cons. tauto.
  - intros [a [b [c [d [e [f [g [h [i [j [k [l [m [n [o [p [q [r []]]]]]]]]]]]]]]]]]].
    unfold inode_ok. cbn. rewrite !Forall_cons, !Forall_nil. tauto.
Qed.

(** ** Directory entries *)
Definition align4 (n : Z) : Z := 4 * ((n + 3) / 4).
Lemma land_align4 n : 0 <= n < 2 ^ 16 -> Z.land n align4_mask = 4 * (n / 4).
Proof.
  intros Hn. change align4_mask with (Z.land (Z.ones 16) (Z.lnot (Z.ones 2))).
  rewrite Z.land_assoc, Z.land_ones, Z.mod_small by lia.
  change (Z.ldiff n (Z.ones 2) = 4 * (n / 4)).
  rewrite Z.ldiff_ones_r, Z.shiftl_mul_pow2, Z.shiftr_div_pow2 by lia. change (2 ^ 2) with 4. lia.
Qed.
Lemma align4_range n : n <= align4 n < n + 4 /\ align4 n mod 4 = 0.
Proof.
  unfold align4. pose proof (Z.div_mod (n + 3) 4) as Hd. pose proof (Z.mod_pos_bound (n + 3) 4) as Hm.
  split; [lia|]. rewrite Z.mul_comm. apply Z_mod_mult.
Qed.

Section direntry_lemmas.
Context `{Build}.

Lemma record_length_ok {E} d : zlen (name d) <= 65523 ->
  record_length (E:=E) d = Ok (Z.max (align4 (8 + zlen (name d))) (rec_len d)).
Proof.
  intros Hn. pose proof (zlen_nonneg (name d)). unfold record_length, EXT2_DIR_ENTRY_ALIGNMENT.
  rewrite (wrap_small 16) by lia. rewrite uadd_ok by lia. rsimpl. rewrite usub_ok by lia. rsimpl.
  rewrite land_align4 by lia. unfold align4.
  by replace (8 + zlen (name d) + 4 - 1) with (8 + zlen (name d) + 3) by lia.
Qed.
Lemma min_reclen_ok {E} n : 0 <= n <= 65524 -> min_reclen (E:=E) n = Ok (align4 (8 + n)).
Proof.
  intros Hn. unfold min_reclen, DIR_ENTRY_PARTIAL_BYTES. rewrite uadd_ok by lia. rsimpl.
  rewrite uadd_ok by lia. rsimpl. rewrite land_align4 by lia. done.
Qed.

Lemma put_field_ok sz e v pre rest : is_uint sz v -> (sz <= length rest)%nat ->
  put_field sz e v (pre ++ rest, zlen pre) =
    Ok ((pre ++ to_bytes e sz v) ++ drop sz rest, zlen (pre ++ to_bytes e sz v)).
Proof.
  intros Hv Hl. unfold put_field. rewrite slice_from_ok by (zlen; unfold zlen; lia). rsimpl.
  rewrite to_nat_zlen, drop_app_length. rewrite (ser_fits (c:=uint sz)) by done. rsimpl.
  rewrite splice_ok.
  - rsimpl. rewrite to_nat_zlen, take_app_length.
    rewrite length_app, length_to_bytes, length_drop, drop_app_add.
    rewrite (drop_ge _ (sz + (length rest - sz))), app_nil_r by lia.
    rewrite app_assoc. do 2 f_equal. unfold zlen. rewrite length_app, length_to_bytes. lia.
  - apply zlen_nonneg.
  - unfold zlen. rewrite !length_app, length_to_bytes, length_drop. lia.
Qed.

Lemma put_byte_ok k c pre dn r rest : zlen dn = k ->
  put_byte (zlen pre) (k, c) (pre ++ dn ++ r :: rest) = Ok (pre ++ (dn ++ [c]) ++ rest).
Proof.
  intros Hk. unfold put_byte. cbn [fst snd].
  rewrite slice_from_ok by (zlen; unfold zlen; lia). rsimpl. rewrite to_nat_zlen, drop_app_length.
  rewrite update_ok.
  2:{ rewrite zlen_app, zlen_cons. pose proof (zlen_nonneg dn). pose proof (zlen_nonneg rest). lia. }
  rsimpl. replace (Z.to_nat k) with (length dn + 0)%nat by (unfold zlen in Hk; lia).
  rewrite insert_app_r. cbn [insert list_insert]. rewrite splice_ok.
  - rewrite to_nat_zlen, take_app_length. rewrite (drop_ge (pre ++ _)) by (rewrite !length_app; cbn; lia).
    by rewrite app_nil_r, <- app_assoc.
  - apply zlen_nonneg.
  - unfold zlen. rewrite !length_app. cbn. lia.
Qed.
Lemma put_name_loop nm k pre dn rest : zlen dn = k -> (length nm <= length rest)%nat ->
  rfor (zip (seqZ k (zlen nm)) nm) (pre ++ dn ++ rest) (put_byte (zlen pre)) =
    Ok (pre ++ dn ++ nm ++ drop (length nm) rest).
Proof.
  revert k dn rest. induction nm as [|c nm IH]; intros k dn rest Hk Hl.
  { cbn. by rewrite drop_0. }
  destruct rest as [|r rest]; [cbn in Hl; lia|]. pose proof (zlen_nonneg nm).
  rewrite zlen_cons, seqZ_cons by lia. cbn [zip zip_with rfor]. rewrite put_byte_ok by done. rsimpl.
  replace (Z.pred (1 + zlen nm)) with (zlen nm) by lia. replace (Z.succ k) with (k + 1) by lia.
  rewrite IH.
  - by rewrite <- app_assoc.
  - rewrite zlen_app, Hk. done.
  - cbn in Hl. lia.
Qed.
Lemma put_name_ok nm pre rest : (length nm <= length rest)%nat ->
  put_name nm (zlen pre) (pre ++ rest) = Ok (pre ++ nm ++ drop (length nm) rest).
Proof. intros Hl. unfold put_name. by apply (put_name_loop nm 0 pre [] rest). Qed.

(** The bytes of an entry up to the end of its name *)
Definition dir_enc (e : Endianness) (ino len ft : Z) (nm : list Z) : list Z :=
  ((([] ++ to_bytes e 4 ino) ++ to_bytes e 2 len) ++ to_bytes e 1 (zlen nm)) ++ to_bytes e 1 ft.
Lemma length_dir_enc e ino len ft nm : length (dir_enc e ino len ft nm) = 8%nat.
Proof. unfold dir_enc. by rewrite !length_app, !length_to_bytes. Qed.

Record entry_ok (d : DirEntry) : Prop := {
  e_inode : is_uint 4 (inode d);
  e_rec_len : is_uint 2 (rec_len d);
  e_file_type : is_uint 1 (file_type d);
  e_name : bytes (name d) /\ zlen (name d) <= 255;
}.
Definition entry_len (d : DirEntry) : Z := Z.max (align4 (8 + zlen (name d))) (rec_len d).
Lemma entry_len_uint d : entry_ok d -> is_uint 2 (entry_len d).
Proof.
  intros [_ Hr _ [_ Hn]]. unfold is_uint, entry_len in *. pose proof (align4_range (8 + zlen (name d))) as [? _].
  pose proof (zlen_nonneg (name d)). change (256 ^ Z.of_nat 2) with 65536 in *. lia.
Qed.

Lemma DirEntry_serialize_ok e d t : entry_ok d -> 8 + zlen (name d) <= zlen t ->
  DirEntry_serialize e d t =
    Ok (dir_enc e (inode d) (entry_len d) (file_type d) (name d) ++ name d ++ drop (8 + length (name d)) t, entry_len d).
Proof.
  intros Hok Hl. pose proof (entry_len_uint d Hok) as Hlen. destruct Hok as [Hi Hr Hf [Hb Hn]].
  pose proof (zlen_nonneg (name d)). unfold DirEntry_serialize. bfalse (255 <? zlen (name d)).
  rewrite wrap_small by lia. rewrite record_length_ok by lia.
  assert (length t >= 8 + length (name d))%nat by (unfold zlen in *; lia).
  change (t, 0) with ([] ++ t, zlen (@nil Z)). rewrite put_field_ok by (done || lia). rsimpl.
  rewrite put_field_ok; [|done|rewrite length_drop; lia]. rsimpl. rewrite drop_drop.
  rewrite put_field_ok; [|unfold is_uint; change (256 ^ Z.of_nat 1) with 256; lia|rewrite length_drop; lia].
  rsimpl. rewrite drop_drop. rewrite put_field_ok; [|done|rewrite length_drop; lia]. rsimpl. rewrite drop_drop.
  rewrite put_name_ok by (rewrite length_drop; lia). rsimpl. rewrite drop_drop. done.
Qed.

Lemma get_field_ok sz e pre v rest : is_uint sz v ->
  get_field sz e (zlen pre) (pre ++ to_bytes e sz v ++ rest) = Ok (v, zlen (pre ++ to_bytes e sz v)).
Proof.
  intros Hv. unfold get_field. rewrite slice_from_ok by (zlen; unfold zlen; lia). rsimpl.
  rewrite to_nat_zlen, drop_app_length, (de_enc (DvLaws:=uint_laws sz) e v rest) by done. rsimpl.
  do 2 f_equal. unfold zlen. rewrite length_app, length_to_bytes. lia.
Qed.
Lemma get_name_loop nm k pre dn rest : zlen dn = k ->
  get_name (seqZ k (zlen nm)) (zlen pre) (pre ++ dn ++ nm ++ rest) = Ok (nm ≫= latin1).
Proof.
  revert k dn. induction nm as [|c nm IH]; intros k dn Hk; [done|]. pose proof (zlen_nonneg nm).
  rewrite zlen_cons, seqZ_cons by lia. cbn [get_name].
  rewrite slice_from_ok by (zlen; unfold zlen; lia). rsimpl. rewrite to_nat_zlen, drop_app_length.
  assert ((zlen (dn ++ (c :: nm) ++ rest) <=? k) = false) as ->.
  { apply Z.leb_gt. rewrite zlen_app. cbn [app]. rewrite zlen_cons. pose proof (zlen_nonneg (nm ++ rest)). lia. }
  rewrite (index_ok _ _ c).
  - rsimpl. replace (Z.pred (1 + zlen nm)) with (zlen nm) by lia. replace (Z.succ k) with (k + 1) by lia.
    replace (dn ++ (c :: nm) ++ rest) with ((dn ++ [c]) ++ nm ++ rest) by by rewrite <- app_assoc.
    rewrite IH; [done|]. rewrite zlen_app, Hk. done.
  - pose proof (zlen_nonneg dn). lia.
  - subst k. rewrite to_nat_zlen. by apply list_lookup_middle.
Qed.

Lemma DirEntry_deserialize_ok e ino len ft nm rest :
  is_uint 4 ino -> is_uint 2 len -> is_uint 1 ft -> zlen nm <= 255 ->
  DirEntry_deserialize e (dir_enc e ino len ft nm ++ nm ++ rest) =
    Ok ({| inode := ino; rec_len := len; file_type := ft; name := nm ≫= latin1 |}, len).
Proof.
  intros Hi Hr Hf Hn. pose proof (zlen_nonneg nm). unfold DirEntry_deserialize.
  assert (is_uint 1 (zlen nm)) by (unfold is_uint; change (256 ^ Z.of_nat 1) with 256; lia).
  unfold dir_enc. rewrite <- !app_assoc. change (get_field 4 e 0) with (get_field 4 e (zlen (@nil Z))).
  rewrite get_field_ok by done. rsimpl. rewrite (app_assoc []). rewrite get_field_ok by done. rsimpl.
  rewrite (app_assoc ([] ++ _)). rewrite get_field_ok by done. rsimpl.
  rewrite (app_assoc (([] ++ _) ++ _)). rewrite get_field_ok by done. rsimpl.
  rewrite (app_assoc ((([] ++ _) ++ _) ++ _)). rewrite (get_name_loop nm 0 _ [] rest) by done. done.
Qed.
End direntry_lemmas.

Lemma latin1_ascii nm : Forall (fun b => b < 128) nm -> (nm ≫= latin1) = nm.
Proof.
  induction 1 as [|b nm Hb _ IH]; [done|]. cbn [mbind list_bind]. rewrite IH. unfold latin1. by btrue (b <? 128).
Qed.

(** A directory entry with an ASCII name of at most 255 bytes is written
    into any buffer with room for its header and name, reports the larger of
    its record length and its size rounded up to four, leaves the bytes after
    the name alone, and is read back whole. *)
Theorem dir_entry_roundtrip `{Build} e d t : entry_ok d -> Forall (fun b => b < 128) (name d) ->
  8 + zlen (name d) <= zlen t ->
  exists t', DirEntry_serialize e d t = Ok (t', entry_len d) /\ length t' = length t /\
    drop (8 + length (name d)) t' = drop (8 + length (name d)) t /\
    DirEntry_deserialize e t' = Ok ({| inode := inode d; rec_len := entry_len d;
                                       file_type := file_type d; name := name d |}, entry_len d).
Proof.
  intros Hok Ha Hl. pose proof (entry_len_uint d Hok) as Hlen.
  rewrite DirEntry_serialize_ok by done. eexists. split; [done|]. destruct Hok as [Hi Hr Hf [Hb Hn]]. split_and!.
  - rewrite !length_app, length_dir_enc, length_drop. unfold zlen in *. lia.
  - rewrite app_assoc, drop_app_length'; [done|]. by rewrite length_app, length_dir_enc.
  - rewrite DirEntry_deserialize_ok by done. by rewrite latin1_ascii.
Qed.
Lemma dir_entry_roundtrip_witness : exists t',
  @DirEntry_serialize dev_build Little {| inode := 12; rec_len := 0; file_type := 1; name := str "init" |}
    (replicate 16 7) = Ok (t', 12) /\
  DirEntry_deserialize Little t' =
    Ok ({| inode := 12; rec_len := 12; file_type := 1; name := str "init" |}, 12).
Proof.
  destruct (@dir_entry_roundtrip dev_build Little
    {| inode := 12; rec_len := 0; file_type := 1; name := str "init" |} (replicate 16 7)) as (t' & H1 & _ & _ & H2).
  - split; [by split; vm_compute; congruence..|]. split; [|vm_compute; congruence].
    repeat constructor; vm_compute; congruence.
  - repeat constructor; vm_compute; congruence.
  - vm_compute. congruence.
  - exists t'. split; [exact H1|exact H2].
Defined.
