(* ===== verification/Ext2Fs.v ===== *)
(** * ext2: mounting, block groups and inodes

    src/kernel/src/drivers/fs/ext2/{init,structs,managers,inode}.rs.

    The state of a mounted file system is the drive, the in-memory superblock
    and the two sets of the block allocator.  The block size and the number of
    block groups, which the code computes from the superblock at mount time
    and keeps in its managers, are fields of the state; the fields they are
    computed from never change.  File system calls run one at a time (the VFS
    task owns the file system), so they are state passing with errors.

    Shown here: where descriptors and inodes are on the disk; an inode written
    is read back, by its global number, and all other inodes are unchanged;
    what [identify_ext2] accepts. *)

From S2P Require Import Prelude Bytes Serialize Disk Gpt Ext2Layout.

Record AllocatedBlock := { addr : Z; block_global_idx : Z; block_relatve_idx : Z; gr_number : Z }.

Record Ext2Fs (D : Type) := {
  disk : D;
  start_lba : Z;
  super_block : SuperBlock;
  fs_block_size : Z;
  block_groups_count : Z;
  allocated_block_indices : list AllocatedBlock;   (* in the order of [addr] *)
  unwritten_freed_blocks : list Z;                 (* in increasing order *)
}.
Arguments disk {D} e.
Arguments start_lba {D} e.
Arguments super_block {D} e.
Arguments fs_block_size {D} e.
Arguments block_groups_count {D} e.
Arguments allocated_block_indices {D} e.
Arguments unwritten_freed_blocks {D} e.

Section setters.
Context {D : Type} (fs : Ext2Fs D).
Definition with_disk (d : D) : Ext2Fs D :=
  Build_Ext2Fs D d (start_lba fs) (super_block fs) (fs_block_size fs) (block_groups_count fs)
    (allocated_block_indices fs) (unwritten_freed_blocks fs).
Definition with_super_block (sb : SuperBlock) : Ext2Fs D :=
  Build_Ext2Fs D (disk fs) (start_lba fs) sb (fs_block_size fs) (block_groups_count fs)
    (allocated_block_indices fs) (unwritten_freed_blocks fs).
Definition with_allocated (l : list AllocatedBlock) : Ext2Fs D :=
  Build_Ext2Fs D (disk fs) (start_lba fs) (super_block fs) (fs_block_size fs) (block_groups_count fs)
    l (unwritten_freed_blocks fs).
Definition with_freed (l : list Z) : Ext2Fs D :=
  Build_Ext2Fs D (disk fs) (start_lba fs) (super_block fs) (fs_block_size fs) (block_groups_count fs)
    (allocated_block_indices fs) l.
End setters.

Record InodePlus := { ip_inode : Inode; absolute_idx : Z; ip_group_number : Z; relative_idx : Z }.

Section ext2.
Context `{Build} {D : Type} `{BlockDev D}.
Abbreviation EM := (M (Ext2Fs D) HalFsIOErr).

(** ** managers.rs: [IoHandler], [BufferManager] *)
Definition read_sectors (buf : list Z) (lba : Z) : EM (list Z) :=
  fs ← get;
  l ← lift (sadd (start_lba fs) lba);
  lift (map_err HalErr (bd_read (disk fs) l (zlen buf))).
Definition write_sectors (buf : list Z) (lba : Z) : EM () :=
  fs ← get;
  l ← lift (sadd (start_lba fs) lba);
  d ← lift (map_err HalErr (bd_write (disk fs) l buf));
  put (with_disk fs d).
Definition read_block (buf : list Z) (block_idx : Z) : EM (list Z) :=
  fs ← get;
  lba ← lift (block_idx_to_lba (fs_block_size fs) block_idx);
  read_sectors buf lba.
Definition write_block (buf : list Z) (block_idx : Z) : EM () :=
  fs ← get;
  lba ← lift (block_idx_to_lba (fs_block_size fs) block_idx);
  write_sectors buf lba.
Definition zeros (n : Z) : list Z := replicate (Z.to_nat n) 0.
Definition get_buffer : EM (list Z) := gets (fun fs => zeros (fs_block_size fs)).

(** ** managers.rs: [GroupManager] *)
(** The sector of the descriptor table a group's descriptor is in, relative to
    the table, and its offset in the sector *)
Definition desc_lba_offset (gr : Z) : res HalFsIOErr Z :=
  n ← smul gr BLOCK_GROUP_DESCRIPTOR_SIZE; sdiv n SECTOR_SIZE.
Definition desc_byte_offset (gr : Z) : res HalFsIOErr Z :=
  n ← smul gr BLOCK_GROUP_DESCRIPTOR_SIZE; srem n SECTOR_SIZE.
Definition get_block_group_table_lba : EM Z :=
  fs ← get;
  i ← lift (uadd 32 (s_first_data_block (super_block fs)) 1);
  lift (block_idx_to_lba (fs_block_size fs) i).

Definition get_group_from_buffer (gr : Z) (buf : list Z) : EM Ext2BlockGroup :=
  fs ← get;
  byte_offset ← lift (desc_byte_offset gr);
  desc ← lift (slice buf (wrap 64 byte_offset) (wrap 64 byte_offset + GROUP_DESCRIPTOR_BYTES));
  mret {| group_number := gr; block_size := fs_block_size fs;
          blocks_per_group := s_blocks_per_group (super_block fs);
          sectors_per_block := Z.quot (fs_block_size fs) SECTOR_SIZE; descriptor := desc |}.
Definition get_group (gr : Z) : EM Ext2BlockGroup :=
  lba ← get_block_group_table_lba;
  lba_offset ← lift (desc_lba_offset gr);
  l ← lift (sadd lba lba_offset);
  buf ← read_sectors (zeros SECTOR_SIZE) l;
  get_group_from_buffer gr buf.
Definition get_group_from_lba (lba : Z) : EM Ext2BlockGroup :=
  fs ← get;
  i ← lift (lba_to_block_idx (fs_block_size fs) lba);
  gr ← lift (udiv i (s_blocks_per_group (super_block fs)));
  get_group gr.
Definition get_group_from_block_idx (idx : Z) : EM Ext2BlockGroup :=
  fs ← get;
  gr ← lift (udiv idx (s_blocks_per_group (super_block fs)));
  get_group gr.

(** ** init.rs and [Ext2Fs::new]; [None] is a failed identification *)
Definition identify_ext2 (entry : GPTEntry) (d : D) : res never (option SuperBlock) :=
  n ← usub 64 (gpt_start_lba entry) (gpt_end_lba entry);
  if n <? 3 then Ok None else
  lba ← uadd 64 (gpt_start_lba entry) 2;
  match bd_read d (swrap 64 lba) 1024 with
  | Ok buf =>
      sb ← slice buf 0 SUPERBLOCK_BYTES;
      Ok (if s_magic sb =? 0xEF53 then Some sb else None)
  | Err _ => Ok None
  | Panic => Panic
  | Hang => Hang
  end.
Definition Ext2Fs_new (entry : GPTEntry) (d : D) : res never (Ext2Fs D) :=
  o ← identify_ext2 entry d;
  sb ← expect o;
  bs ← block_size_of sb;
  n ← block_groups_count_of sb;
  Ok {| disk := d; start_lba := swrap 64 (gpt_start_lba entry); super_block := sb; fs_block_size := bs;
        block_groups_count := n; allocated_block_indices := []; unwritten_freed_blocks := [] |}.

(** [Ext2Fs::len]: the [try_into] fails above [i64::MAX] *)
Definition fs_len (entry : GPTEntry) : res never Z :=
  n ← usub 64 (gpt_end_lba entry) (gpt_start_lba entry);
  Ok (if n <? 2 ^ 63 then n else 2 ^ 63 - 1).

(** ** inode.rs *)
Definition inode_block_count (fs : Ext2Fs D) (ino : Inode) : res HalFsIOErr Z :=
  n ← umul 32 (i_blocks ino) SECTOR_SIZE; udiv n (fs_block_size fs).
Definition global_idx_to_inode_plus (fs : Ext2Fs D) (ino : Inode) (idx : Z) : res HalFsIOErr InodePlus :=
  i ← usub 32 idx 1;
  r ← urem i (s_inodes_per_group (super_block fs));
  g ← udiv i (s_inodes_per_group (super_block fs));
  Ok {| ip_inode := ino; relative_idx := r; ip_group_number := g; absolute_idx := idx |}.
Definition relative_idx_to_inode_plus (fs : Ext2Fs D) (ino : Inode) (gr idx : Z) : res HalFsIOErr InodePlus :=
  n ← umul 32 gr (s_inodes_per_group (super_block fs));
  n ← uadd 32 n idx;
  n ← uadd 32 n 1;
  Ok {| ip_inode := ino; relative_idx := idx; ip_group_number := gr; absolute_idx := n |}.

(** The sector of the inode table an inode is in, and its offset in it *)
Definition inode_sector_offset (idx : Z) : res HalFsIOErr Z := n ← smul idx INODE_SIZE; sdiv n SECTOR_SIZE.
Definition inode_byte_offset (idx : Z) : res HalFsIOErr Z := n ← smul idx INODE_SIZE; srem n SECTOR_SIZE.

Definition get_inode_in_group (gr idx : Z) : EM InodePlus :=
  block_group ← get_group gr;
  lba ← lift (get_inode_table_lba block_group);
  sector_offset ← lift (inode_sector_offset idx);
  byte_offset ← lift (inode_byte_offset idx);
  l ← lift (sadd lba sector_offset);
  buf ← read_sectors (zeros SECTOR_SIZE) l;
  sub ← lift (slice_from buf (wrap 64 byte_offset));
  '(ino, _) ← lift (map_err DeserializationErr (deserialize inode_codec Little sub));
  fs ← get;
  n ← lift (umul 32 (s_inodes_per_group (super_block fs)) gr);
  n ← lift (uadd 32 n idx);
  n ← lift (uadd 32 n 1);
  mret {| ip_inode := ino; ip_group_number := gr; relative_idx := idx; absolute_idx := n |}.
Definition get_nth_inode (idx : Z) : EM InodePlus :=
  fs ← get;
  i ← lift (usub 32 idx 1);
  gr ← lift (udiv i (s_inodes_per_group (super_block fs)));
  offset ← lift (urem i (s_inodes_per_group (super_block fs)));
  get_inode_in_group gr offset.

(** The group descriptor's and the superblock's counts for a new inode *)
Definition account_new_inode (ip : InodePlus) (buf : list Z) : EM () :=
  lba ← get_block_group_table_lba;
  lba_offset ← lift (desc_lba_offset (ip_group_number ip));
  byte_offset ← lift (desc_byte_offset (ip_group_number ip));
  l ← lift (sadd lba lba_offset);
  buf ← read_sectors buf l;
  desc ← lift (slice buf (wrap 64 byte_offset) (wrap 64 byte_offset + GROUP_DESCRIPTOR_BYTES));
  n ← lift (usub 16 (bg_free_inodes_count desc) 1);
  let desc := u_put 2 14 n desc in
  n ← lift (uadd 16 (bg_used_dirs_count desc) (if is_directory (ip_inode ip) then 1 else 0));
  let desc := u_put 2 16 n desc in
  buf ← lift (splice buf (wrap 64 byte_offset) desc);
  _ ← write_sectors buf l;
  fs ← get;
  n ← lift (usub 32 (s_free_inodes_count (super_block fs)) 1);
  let sb := set_s_free_inodes_count n (super_block fs) in
  _ ← put (with_super_block fs sb);
  buf ← lift (splice buf 0 sb);
  write_sectors buf 3.
Definition do_write_inode (ip : InodePlus) (is_new : bool) : EM () :=
  block_group ← get_group (ip_group_number ip);
  lba ← lift (get_inode_table_lba block_group);
  sector_offset ← lift (inode_sector_offset (relative_idx ip));
  byte_offset ← lift (inode_byte_offset (relative_idx ip));
  l ← lift (sadd lba sector_offset);
  buf ← read_sectors (zeros SECTOR_SIZE) l;
  sub ← lift (slice_from buf (wrap 64 byte_offset));
  '(sub, _) ← lift (map_err SerializationErr (serialize inode_codec Little (ip_inode ip) sub));
  buf ← lift (splice buf (wrap 64 byte_offset) sub);
  _ ← write_sectors buf l;
  if is_new then account_new_inode ip buf else mret ().
Definition write_inode (ip : InodePlus) : EM () := do_write_inode ip false.
Definition write_new_inode (ip : InodePlus) : EM () := do_write_inode ip true.
End ext2.

(** ** Signed arithmetic in range *)
Section signed.
Context `{Build} {E : Type}.
Lemma snum64_ok z : - 2 ^ 63 <= z < 2 ^ 63 -> snum (E:=E) 64 z = Ok z.
Proof. intros Hz. unfold snum, sfits. change (64 - 1) with 63. by btrue ((- 2 ^ 63 <=? z) && (z <? 2 ^ 63)). Qed.
Lemma sadd_ok a b : - 2 ^ 63 <= a + b < 2 ^ 63 -> sadd (E:=E) a b = Ok (a + b).
Proof. apply snum64_ok. Qed.
Lemma ssub_ok a b : - 2 ^ 63 <= a - b < 2 ^ 63 -> ssub (E:=E) a b = Ok (a - b).
Proof. apply snum64_ok. Qed.
Lemma smul_ok a b : - 2 ^ 63 <= a * b < 2 ^ 63 -> smul (E:=E) a b = Ok (a * b).
Proof. apply snum64_ok. Qed.
Lemma sdiv_ok a b : 0 <= a -> 0 < b -> sdiv (E:=E) a b = Ok (a / b).
Proof. intros. unfold sdiv. bfalse (b =? 0). by rewrite Z.quot_div_nonneg. Qed.
Lemma srem_ok a b : 0 <= a -> 0 < b -> srem (E:=E) a b = Ok (a mod b).
Proof. intros. unfold srem. bfalse (b =? 0). by rewrite Z.rem_mod_nonneg. Qed.
(** An index of a [sz]-byte item splits into a sector and an offset in it. *)
Lemma split_ok i sz : 0 <= i < 2 ^ 32 -> 0 < sz <= 128 ->
  (n ← smul (E:=E) i sz; sdiv n SECTOR_SIZE) = Ok (i * sz / 512) /\
  (n ← smul (E:=E) i sz; srem n SECTOR_SIZE) = Ok ((i * sz) mod 512).
Proof.
  intros Hi Hs. rewrite smul_ok by nia. rsimpl. unfold SECTOR_SIZE. rewrite sdiv_ok, srem_ok by nia. done.
Qed.
Lemma block_idx_to_lba_ok bs i : 0 < bs <= 2 ^ 16 -> bs mod 512 = 0 -> 0 <= i < 2 ^ 32 ->
  block_idx_to_lba (E:=E) bs i = Ok (i * (bs / 512)).
Proof.
  intros Hbs Hm Hi. unfold block_idx_to_lba, SECTOR_SIZE. rewrite smul_ok by nia. rsimpl.
  rewrite sdiv_ok by nia. f_equal. rewrite (Z.div_mod bs 512) at 1 by lia. rewrite Hm, Z.add_0_r.
  rewrite (Z.mul_comm 512), Z.mul_assoc. by rewrite Z.div_mul.
Qed.
End signed.

(** ** Reading and writing a mounted file system *)
Section mounted.
Context `{Build} {D : Type} `{BlockDevLaws D}.

Record fs_ok (fs : Ext2Fs D) : Prop := {
  f_bs : 1024 <= fs_block_size fs <= 2 ^ 16 /\ fs_block_size fs mod 512 = 0;
  f_start : 0 <= start_lba fs;
  f_size : bd_size (disk fs) < 2 ^ 62;
  f_sb : bytes (super_block fs) /\ zlen (super_block fs) = SUPERBLOCK_BYTES;
}.
(** The byte of the drive the partition starts at *)
Definition base (fs : Ext2Fs D) : Z := SECTOR_SIZE * start_lba fs.

(** [d'] is [d] with [bs] written at byte [off]. *)
Record wrote (d d' : D) (off : Z) (bs : list Z) : Prop := {
  w_size : bd_size d' = bd_size d;
  w_byte j : bd_byte d' j = if (off <=? j) && (j <? off + zlen bs) then nth (Z.to_nat (j - off)) bs 0 else bd_byte d j;
}.
Lemma w_in d d' off bs : wrote d d' off bs -> content d' off (zlen bs) = bs.
Proof.
  intros [_ Hw]. apply content_list. intros i Hi. rewrite Hw.
  btrue ((off <=? off + i) && (off + i <? off + zlen bs)). f_equal. lia.
Qed.
Lemma w_out d d' off bs off' n : wrote d d' off bs -> off' + n <= off \/ off + zlen bs <= off' ->
  content d' off' n = content d off' n.
Proof.
  intros [_ Hw] Hd. apply content_ext. intros i Hi. rewrite Hw.
  by bfalse ((off <=? off' + i) && (off' + i <? off + zlen bs)).
Qed.
(** Writing back a buffer of which only the bytes from [a] on were replaced by
    [xs] is a write of [xs]. *)
Lemma wrote_patch d d' off n a xs : 0 <= a -> a + zlen xs <= n ->
  wrote d d' off (take (Z.to_nat a) (content d off n) ++ xs ++ drop (Z.to_nat a + length xs) (content d off n)) ->
  wrote d d' (off + a) xs.
Proof.
  intros Ha Hn [Hs Hw]. split; [done|]. intros j. rewrite Hw. clear Hw. pose proof (zlen_nonneg xs).
  assert (zlen (take (Z.to_nat a) (content d off n) ++ xs ++ drop (Z.to_nat a + length xs) (content d off n)) = n) as ->.
  { unfold zlen in *. rewrite !length_app, length_take, length_drop, length_content. lia. }
  destruct ((off + a <=? j) && (j <? off + a + zlen xs)) eqn:E1.
  - boom. btrue ((off <=? j) && (j <? off + n)). unfold zlen in *.
    rewrite app_nth2; rewrite length_take, length_content; [|lia]. rewrite app_nth1 by lia. f_equal. lia.
  - destruct ((off <=? j) && (j <? off + n)) eqn:E2; [|done]. boom. unfold zlen in *.
    assert (bd_byte d j = nth (Z.to_nat (j - off)) (content d off n) 0) as ->.
    { symmetry. apply nth_lookup_Some. rewrite lookup_content by lia. do 2 f_equal. lia. }
    apply andb_false_iff in E1 as [E1|E1]; boom.
    + rewrite app_nth1 by (rewrite length_take, length_content; lia).
      rewrite !nth_lookup, lookup_take_lt by lia. done.
    + rewrite !nth_lookup. rewrite lookup_app_r; rewrite length_take, length_content; [|lia].
      rewrite lookup_app_r, lookup_drop by lia. do 2 f_equal. lia.
Qed.

Lemma with_disk_ok fs d' : fs_ok fs -> bd_size d' = bd_size (disk fs) -> fs_ok (with_disk fs d').
Proof. intros [? ? ? ?] Hs. split; cbn; rewrite ?Hs; done. Qed.

Lemma read_sectors_ok fs buf lba : fs_ok fs -> 0 <= lba -> zlen buf mod 512 = 0 ->
  base fs + 512 * lba + zlen buf <= bd_size (disk fs) ->
  read_sectors buf lba fs = (Ok (content (disk fs) (base fs + 512 * lba) (zlen buf)), fs).
Proof.
  intros Hok Hl Hm Hs. unfold base, SECTOR_SIZE in *. pose proof (f_start _ Hok). pose proof (f_size _ Hok).
  pose proof (zlen_nonneg buf). unfold read_sectors. mstep. rewrite sadd_ok by lia. mstep.
  rewrite bd_read_ok by (unfold bd_valid, SECTOR_SIZE; lia). unfold lift, content, SECTOR_SIZE. cbn [map_err].
  by replace (512 * (start_lba fs + lba)) with (512 * start_lba fs + 512 * lba) by lia.
Qed.
Lemma write_sectors_ok fs buf lba : fs_ok fs -> 0 <= lba -> zlen buf mod 512 = 0 -> bytes buf ->
  base fs + 512 * lba + zlen buf <= bd_size (disk fs) ->
  exists d', write_sectors buf lba fs = (Ok (), with_disk fs d') /\ wrote (disk fs) d' (base fs + 512 * lba) buf.
Proof.
  intros Hok Hl Hm Hb Hs. unfold base, SECTOR_SIZE in *. pose proof (f_start _ Hok). pose proof (f_size _ Hok).
  pose proof (zlen_nonneg buf). unfold write_sectors. mstep. rewrite sadd_ok by lia. mstep.
  destruct (bd_write_ok (disk fs) (start_lba fs + lba) buf) as (d' & -> & Hsz & Hby);
    [unfold bd_valid, SECTOR_SIZE; lia|done|].
  exists d'. split; [done|]. unfold SECTOR_SIZE in *.
  replace (512 * (start_lba fs + lba)) with (512 * start_lba fs + 512 * lba) in Hby by lia. by split.
Qed.

(** *** Group descriptors *)
Definition table_off (fs : Ext2Fs D) : Z := base fs + (s_first_data_block (super_block fs) + 1) * fs_block_size fs.
Definition desc_off (fs : Ext2Fs D) (gr : Z) : Z := table_off fs + 32 * gr.
Definition desc (fs : Ext2Fs D) (gr : Z) : list Z := content (disk fs) (desc_off fs gr) GROUP_DESCRIPTOR_BYTES.
(** The sector of a group's descriptor is on the drive. *)
Definition group_in (fs : Ext2Fs D) (gr : Z) : Prop :=
  0 <= gr < 2 ^ 32 /\ s_first_data_block (super_block fs) < 2 ^ 32 - 1 /\
  table_off fs + 512 * (32 * gr / 512) + 512 <= bd_size (disk fs).
Definition group_of (fs : Ext2Fs D) (gr : Z) : Ext2BlockGroup :=
  {| group_number := gr; block_size := fs_block_size fs; blocks_per_group := s_blocks_per_group (super_block fs);
     sectors_per_block := fs_block_size fs / 512; descriptor := desc fs gr |}.

Lemma first_data_block_range fs : fs_ok fs -> 0 <= s_first_data_block (super_block fs) < 2 ^ 32.
Proof.
  intros Hok. destruct (f_sb _ Hok) as [Hb Hl]. unfold SUPERBLOCK_BYTES in Hl.
  apply (u_at_range 4 20); [done|lia|lia].
Qed.
Lemma table_lba_ok fs : fs_ok fs -> s_first_data_block (super_block fs) < 2 ^ 32 - 1 ->
  get_block_group_table_lba fs = (Ok ((s_first_data_block (super_block fs) + 1) * (fs_block_size fs / 512)), fs).
Proof.
  intros Hok Hf. pose proof (first_data_block_range fs Hok). destruct (f_bs _ Hok) as [Hbs Hm].
  unfold get_block_group_table_lba. mstep. rewrite uadd_ok by lia. mstep.
  rewrite block_idx_to_lba_ok by lia. done.
Qed.
Lemma bs_div fs : fs_ok fs -> 512 * (fs_block_size fs / 512) = fs_block_size fs.
Proof. intros Hok. destruct (f_bs _ Hok) as [Hbs Hm]. pose proof (Z.div_mod (fs_block_size fs) 512). lia. Qed.

Lemma desc_split gr : 0 <= gr < 2 ^ 32 ->
  desc_lba_offset gr = Ok (32 * gr / 512) /\ desc_byte_offset gr = Ok ((32 * gr) mod 512) /\
  0 <= (32 * gr) mod 512 <= 512 - 32 /\ 0 <= 32 * gr / 512 < 2 ^ 32.
Proof.
  intros Hg. unfold desc_lba_offset, desc_byte_offset, BLOCK_GROUP_DESCRIPTOR_SIZE.
  destruct (split_ok (E:=HalFsIOErr) gr 32) as [-> ->]; [lia..|]. rewrite (Z.mul_comm gr 32). split_and!; [done..| | | |].
  - apply Z.mod_pos_bound. lia.
  - change 512 with (32 * 16). rewrite (Z.mul_mod_distr_l gr 16 32) by lia. pose proof (Z.mod_pos_bound gr 16). lia.
  - apply Z.div_pos; lia.
  - apply Z.div_lt_upper_bound; lia.
Qed.

Lemma group_from_buffer_ok fs gr n : fs_ok fs -> 0 <= gr < 2 ^ 32 -> 512 <= n ->
  get_group_from_buffer gr (content (disk fs) (table_off fs + 512 * (32 * gr / 512)) n) fs = (Ok (group_of fs gr), fs).
Proof.
  intros Hok Hg Hn. destruct (desc_split gr Hg) as (_ & Hbo & Hr & _). destruct (f_bs _ Hok) as [Hbs _].
  unfold get_group_from_buffer. mstep. rewrite Hbo. mstep.
  rewrite (wrap_small 64) by lia. unfold GROUP_DESCRIPTOR_BYTES. rewrite slice_ok; [|lia|rewrite zlen_content; lia].
  mstep. unfold mret, M_ret, group_of. do 3 f_equal; [unfold SECTOR_SIZE; by rewrite Z.quot_div_nonneg by lia|].
  replace ((32 * gr) `mod` 512 + 18 - (32 * gr) `mod` 512) with 18 by lia.
  rewrite content_slice by lia. unfold desc, desc_off, GROUP_DESCRIPTOR_BYTES. f_equal.
  pose proof (Z.div_mod (32 * gr) 512). lia.
Qed.
Lemma get_group_ok fs gr : fs_ok fs -> group_in fs gr -> get_group gr fs = (Ok (group_of fs gr), fs).
Proof.
  intros Hok (Hg & Hf & Hin). destruct (desc_split gr Hg) as (Hlo & _ & _ & Hq).
  pose proof (first_data_block_range fs Hok). destruct (f_bs _ Hok) as [Hbs Hm]. pose proof (bs_div fs Hok) as Hd.
  pose proof (f_size _ Hok). pose proof (f_start _ Hok).
  unfold get_group. mrun (table_lba_ok fs Hok Hf). rewrite Hlo. mstep.
  rewrite sadd_ok by (unfold table_off, base, SECTOR_SIZE in *; nia). mstep.
  change (zeros SECTOR_SIZE) with (zeros 512). erewrite M_bind_run.
  2:{ apply read_sectors_ok; [done|nia|done|]. change (zlen (zeros 512)) with 512. unfold table_off in Hin. nia. }
  change (zlen (zeros 512)) with 512. rewrite <- (group_from_buffer_ok fs gr 512) by (done || lia). do 2 f_equal.
  unfold table_off. nia.
Qed.

(** *** Inodes *)
Definition inode_table_off (fs : Ext2Fs D) (gr : Z) : Z := base fs + bg_inode_table (desc fs gr) * fs_block_size fs.
Definition inode_off (fs : Ext2Fs D) (gr idx : Z) : Z := inode_table_off fs gr + 128 * idx.
(** The group's descriptor and the inode's sector are on the drive. *)
Definition inode_in (fs : Ext2Fs D) (gr idx : Z) : Prop :=
  group_in fs gr /\ 0 <= idx < 2 ^ 32 /\
  inode_table_off fs gr + 512 * (128 * idx / 512) + 512 <= bd_size (disk fs).
Definition number_ok (fs : Ext2Fs D) (gr idx : Z) : Prop :=
  s_inodes_per_group (super_block fs) * gr + idx + 1 < 2 ^ 32.

Lemma inodes_per_group_range fs : fs_ok fs -> 0 <= s_inodes_per_group (super_block fs) < 2 ^ 32.
Proof.
  intros Hok. destruct (f_sb _ Hok) as [Hb Hl]. unfold SUPERBLOCK_BYTES in Hl.
  apply (u_at_range 4 40); [done|lia|lia].
Qed.
Lemma inode_table_range fs gr : 0 <= bg_inode_table (desc fs gr) < 2 ^ 32.
Proof.
  apply (u_at_range 4 8); [apply content_bytes|lia|]. unfold desc, GROUP_DESCRIPTOR_BYTES. rewrite zlen_content; lia.
Qed.
Lemma inode_split idx : 0 <= idx < 2 ^ 32 ->
  inode_sector_offset idx = Ok (128 * idx / 512) /\ inode_byte_offset idx = Ok ((128 * idx) mod 512) /\
  0 <= (128 * idx) mod 512 <= 512 - 128 /\ 0 <= 128 * idx / 512 < 2 ^ 32.
Proof.
  intros Hg. unfold inode_sector_offset, inode_byte_offset, INODE_SIZE.
  destruct (split_ok (E:=HalFsIOErr) idx 128) as [-> ->]; [lia..|]. rewrite (Z.mul_comm idx 128).
  split_and!; [done..| | | |].
  - apply Z.mod_pos_bound. lia.
  - change 512 with (128 * 4). rewrite (Z.mul_mod_distr_l idx 4 128) by lia. pose proof (Z.mod_pos_bound idx 4). lia.
  - apply Z.div_pos; lia.
  - apply Z.div_lt_upper_bound; lia.
Qed.

(** What both [get_inode_in_group] and [do_write_inode] do first: find and
    read the inode's sector *)
Lemma inode_sector_ok fs gr idx : fs_ok fs -> inode_in fs gr idx ->
  let off := inode_table_off fs gr + 512 * (128 * idx / 512) in
  exists l, get_inode_table_lba (E:=HalFsIOErr) (group_of fs gr) = Ok l /\
    sadd (E:=HalFsIOErr) l (128 * idx / 512) = Ok (l + 128 * idx / 512) /\ 0 <= l + 128 * idx / 512 /\
    base fs + 512 * (l + 128 * idx / 512) = off /\
    read_sectors (zeros SECTOR_SIZE) (l + 128 * idx / 512) fs = (Ok (content (disk fs) off 512), fs).
Proof.
  intros Hok (_ & Hi & Hin) off. pose proof (inode_table_range fs gr) as Ht. destruct (f_bs _ Hok) as [Hbs Hm].
  destruct (inode_split idx Hi) as (_ & _ & _ & Hq). pose proof (bs_div fs Hok) as Hd.
  pose proof (f_size _ Hok). pose proof (f_start _ Hok).
  exists (bg_inode_table (desc fs gr) * (fs_block_size fs / 512)).
  assert (base fs + 512 * (bg_inode_table (desc fs gr) * (fs_block_size fs / 512) + 128 * idx / 512) = off) as Ho
    by (unfold off, inode_table_off; nia).
  unfold get_inode_table_lba. cbn [block_size descriptor group_of]. rewrite block_idx_to_lba_ok by lia.
  split_and!; [done| |nia|done|].
  - apply sadd_ok. unfold inode_table_off, base, SECTOR_SIZE in *. nia.
  - rewrite <- Ho. change (zeros SECTOR_SIZE) with (zeros 512).
    rewrite read_sectors_ok; [done|done|nia|done|]. change (zlen (zeros 512)) with 512. rewrite Ho. unfold off. lia.
Qed.

Lemma get_inode_in_group_ok fs gr idx x : fs_ok fs -> inode_in fs gr idx -> number_ok fs gr idx -> inode_ok x ->
  content (disk fs) (inode_off fs gr idx) 128 = inode_enc Little x ->
  get_inode_in_group gr idx fs =
    (Ok {| ip_inode := x; ip_group_number := gr; relative_idx := idx;
           absolute_idx := s_inodes_per_group (super_block fs) * gr + idx + 1 |}, fs).
Proof.
  intros Hok Hin Hn Hx Hc. pose proof (inode_sector_ok fs gr idx Hok Hin) as Hs. cbn zeta in Hs.
  destruct Hs as (l & Hl & Ha & _ & _ & Hr). destruct Hin as (Hg & Hi & _).
  destruct (inode_split idx Hi) as (Hso & Hbo & Hb & Hq). pose proof (inodes_per_group_range fs Hok).
  unfold get_inode_in_group. mrun (get_group_ok fs gr Hok Hg). rewrite Hl. mstep. rewrite Hso. mstep.
  rewrite Hbo. mstep. rewrite Ha. mstep. mrun Hr. rewrite (wrap_small 64) by lia.
  rewrite slice_from_ok by (rewrite zlen_content; lia). mstep.
  assert (drop (Z.to_nat ((128 * idx) mod 512)) (content (disk fs) (inode_table_off fs gr + 512 * (128 * idx / 512)) 512)
    = inode_enc Little x ++ content (disk fs) (inode_off fs gr idx + 128) (512 - 128 - (128 * idx) mod 512)) as ->.
  { rewrite <- Hc. erewrite <- (firstn_all (drop _ _)).
    rewrite length_drop, length_content, <- Z2Nat.inj_sub, content_slice by lia.
    replace (512 - (128 * idx) mod 512) with (128 + (512 - 128 - (128 * idx) mod 512)) by lia.
    rewrite content_app by lia. unfold inode_off. pose proof (Z.div_mod (128 * idx) 512).
    f_equal; f_equal; lia. }
  rewrite de_enc by done. cbn [map_err]. mstep. mstep. destruct Hg as (Hg & _). unfold number_ok in Hn.
  rewrite umul_ok by nia. mstep. rewrite uadd_ok by nia. mstep. rewrite uadd_ok by nia. mstep. done.
Qed.

Lemma write_inode_ok fs ip : fs_ok fs -> inode_in fs (ip_group_number ip) (relative_idx ip) -> inode_ok (ip_inode ip) ->
  exists d', write_inode ip fs = (Ok (), with_disk fs d') /\
    wrote (disk fs) d' (inode_off fs (ip_group_number ip) (relative_idx ip)) (inode_enc Little (ip_inode ip)).
Proof.
  intros Hok Hin Hx. unfold write_inode, do_write_inode. set (gr := ip_group_number ip) in *. set (idx := relative_idx ip) in *.
  pose proof (inode_sector_ok fs gr idx Hok Hin) as Hs. cbn zeta in Hs.
  destruct Hs as (l & Hl & Ha & Hl0 & Ho & Hr). destruct Hin as (Hg & Hi & Hsz).
  destruct (inode_split idx Hi) as (Hso & Hbo & Hb & Hq).
  pose proof (enc_len Little (ip_inode ip) Hx) as He.
  mrun (get_group_ok fs gr Hok Hg). rewrite Hl. mstep. rewrite Hso. mstep.
  rewrite Hbo. mstep. rewrite Ha. mstep. mrun Hr. rewrite (wrap_small 64) by lia.
  set (old := content (disk fs) (inode_table_off fs gr + 512 * (128 * idx / 512)) 512) in *.
  assert (zlen old = 512) as Hold by by apply zlen_content.
  assert (length old = 512%nat) as Hold' by (unfold zlen in Hold; lia).
  set (a := (128 * idx) mod 512) in *.
  rewrite slice_from_ok by lia. mstep. rewrite ser_fits; [|done|rewrite length_drop; lia]. cbn [map_err]. mstep.
  rewrite splice_ok; [|lia|unfold zlen in *; rewrite length_app, !length_drop; lia]. mstep.
  rewrite drop_drop, length_app, length_drop, He, <- app_assoc.
  rewrite (drop_ge old (Z.to_nat a + (128 + (length old - (Z.to_nat a + 128))))), app_nil_r by lia.
  destruct (write_sectors_ok fs (take (Z.to_nat a) old ++ inode_enc Little (ip_inode ip) ++ drop (Z.to_nat a + 128) old)
    (l + 128 * idx / 512)) as (d' & Hw & Hwr).
  - done.
  - done.
  - unfold zlen. rewrite !length_app, length_take, length_drop, He. by replace (Z.of_nat _) with 512 by lia.
  - rewrite !Forall_app. split_and!; [apply Forall_take, content_bytes|by apply enc_bytes|apply Forall_drop, content_bytes].
  - rewrite Ho. unfold zlen. rewrite !length_app, length_take, length_drop, He. lia.
  - exists d'. mrun Hw. split; [done|]. rewrite Ho in Hwr. unfold inode_off.
    replace (inode_table_off fs gr + 128 * idx) with (inode_table_off fs gr + 512 * (128 * idx / 512) + a)
      by (pose proof (Z.div_mod (128 * idx) 512); lia).
    apply (wrote_patch _ _ _ 512); [lia|unfold zlen; rewrite He; lia|]. by rewrite He.
Qed.

(** A write that misses a group's descriptor leaves its place and contents. *)
Definition misses (off n off' n' : Z) : Prop := off + n <= off' \/ off' + n' <= off.
Lemma desc_wrote fs d' off bs gr : wrote (disk fs) d' off bs ->
  misses off (zlen bs) (desc_off fs gr) GROUP_DESCRIPTOR_BYTES -> desc (with_disk fs d') gr = desc fs gr.
Proof. intros Hw Hm. unfold desc. apply (w_out _ _ _ _ _ _ Hw). unfold misses in Hm. tauto. Qed.
Lemma inode_in_wrote fs d' off bs gr idx : wrote (disk fs) d' off bs ->
  misses off (zlen bs) (desc_off fs gr) GROUP_DESCRIPTOR_BYTES ->
  inode_off (with_disk fs d') gr idx = inode_off fs gr idx /\
  (inode_in fs gr idx -> inode_in (with_disk fs d') gr idx).
Proof.
  intros Hw Hm. pose proof (desc_wrote fs d' off bs gr Hw Hm) as Hd.
  unfold inode_off, inode_in, group_in, inode_table_off, table_off, base in *. rewrite Hd. cbn [disk with_disk start_lba super_block fs_block_size].
  by rewrite (w_size _ _ _ _ Hw).
Qed.
End mounted.

(** C5: an inode written with [write_inode] is read back by [get_nth_inode]
    under its global number, and every other inode whose bytes and group
    descriptor the written inode does not overlap is still read the same: on
    a drive that works, with the inode's group descriptor and sector inside
    it. *)
Theorem inode_disk_roundtrip `{Build} {D} `{BlockDevLaws D} (fs : Ext2Fs D) ino n ip :
  fs_ok fs -> inode_ok ino -> 1 <= n < 2 ^ 32 -> 0 < s_inodes_per_group (super_block fs) ->
  global_idx_to_inode_plus fs ino n = Ok ip ->
  inode_in fs (ip_group_number ip) (relative_idx ip) ->
  misses (inode_off fs (ip_group_number ip) (relative_idx ip)) 128
    (desc_off fs (ip_group_number ip)) GROUP_DESCRIPTOR_BYTES ->
  exists fs', write_inode ip fs = (Ok (), fs') /\ get_nth_inode n fs' = (Ok ip, fs') /\
    forall gr idx ip', inode_in fs gr idx -> number_ok fs gr idx ->
      misses (inode_off fs (ip_group_number ip) (relative_idx ip)) 128 (desc_off fs gr) GROUP_DESCRIPTOR_BYTES ->
      misses (inode_off fs (ip_group_number ip) (relative_idx ip)) 128 (inode_off fs gr idx) 128 ->
      get_inode_in_group gr idx fs = (Ok ip', fs) -> get_inode_in_group gr idx fs' = (Ok ip', fs').
Proof.
  intros Hok Hx Hn Hipg Hip Hin Hm. unfold global_idx_to_inode_plus in Hip.
  rewrite usub_ok in Hip by lia. cbn [mbind res_bind] in Hip. rewrite urem_ok in Hip by lia.
  cbn [mbind res_bind] in Hip. rewrite udiv_ok in Hip by lia. cbn [mbind res_bind] in Hip. injection Hip as <-.
  cbn [ip_inode ip_group_number relative_idx] in *.
  set (ipg := s_inodes_per_group (super_block fs)) in *. set (gr := (n - 1) / ipg) in *. set (idx := (n - 1) mod ipg) in *.
  set (ip := {| ip_inode := ino; absolute_idx := n; ip_group_number := gr; relative_idx := idx |}).
  assert (ipg * gr + idx + 1 = n) as Habs by (pose proof (Z.div_mod (n - 1) ipg); lia).
  destruct (write_inode_ok fs ip Hok Hin Hx) as (d' & Hw & Hwr). cbn [ip_inode ip_group_number relative_idx ip] in Hwr.
  exists (with_disk fs d'). split; [done|].
  assert (zlen (inode_enc Little ino) = 128) as Hlen by (unfold zlen; by rewrite enc_len).
  assert (fs_ok (with_disk fs d')) as Hok' by (apply with_disk_ok; [done|apply Hwr]).
  split.
  - unfold get_nth_inode. mstep. rewrite usub_ok by lia. mstep. cbn [super_block with_disk].
    rewrite udiv_ok by lia. mstep. rewrite urem_ok by lia. mstep.
    destruct (inode_in_wrote fs d' _ _ gr idx Hwr) as [Ho Hi]; [by rewrite Hlen|].
    rewrite (get_inode_in_group_ok (with_disk fs d') gr idx ino); [..|rewrite Ho, <- Hlen; by apply (w_in _ _ _ _ Hwr)].
    + cbn [super_block with_disk]. fold ipg. by rewrite Habs.
    + done.
    + by apply Hi.
    + unfold number_ok. cbn [super_block with_disk]. fold ipg. lia.
    + done.
  - intros g2 i2 ip2 Hin2 Hn2 Hm1 Hm2 Hget.
    destruct (inode_in_wrote fs d' _ _ g2 i2 Hwr) as [Ho Hi]; [by rewrite Hlen|].
    destruct (codec_total (c:=inode_codec) Little (content (disk fs) (inode_off fs g2 i2) 128)) as (y & Hy & _ & Hye).
    { apply content_bytes. }
    { rewrite length_content. done. }
    rewrite take_ge in Hye by by rewrite length_content.
    rewrite (get_inode_in_group_ok fs g2 i2 y) in Hget by done. injection Hget as <-.
    rewrite (get_inode_in_group_ok (with_disk fs d') g2 i2 y); [done|done|by apply Hi|done|done|].
    rewrite Ho, (w_out _ _ _ _ _ _ Hwr); [done|]. rewrite Hlen. unfold misses in Hm2. tauto.
Qed.


(** The size test of [identify_ext2] subtracts the end of the partition
    from its start: for every partition of at least one sector a build with
    overflow checks panics; a build without them accepts exactly the
    partitions, of any length, whose superblock has the magic number. *)
Theorem identify_ext2_builds {D} `{BlockDevLaws D} (d : D) entry :
  0 <= gpt_start_lba entry < gpt_end_lba entry -> gpt_end_lba entry < 2 ^ 55 ->
  SECTOR_SIZE * (gpt_start_lba entry + 2) + 1024 <= bd_size d ->
  let sb := content d (SECTOR_SIZE * (gpt_start_lba entry + 2)) SUPERBLOCK_BYTES in
  @identify_ext2 dev_build _ _ entry d = Panic /\
  @identify_ext2 release_build _ _ entry d = Ok (if s_magic sb =? EXT2_SUPER_MAGIC then Some sb else None).
Proof.
  intros Hs He Hd sb. unfold identify_ext2, usub. split; [by rewrite unum_panic by lia|].
  assert (forall E, @unum release_build E 64 (gpt_start_lba entry - gpt_end_lba entry) =
    Ok (2 ^ 64 + gpt_start_lba entry - gpt_end_lba entry)) as ->.
  { intros E. unfold unum, fits. bfalse ((0 <=? gpt_start_lba entry - gpt_end_lba entry) &&
      (gpt_start_lba entry - gpt_end_lba entry <? 2 ^ 64)). cbn [overflow_checks release_build].
    f_equal. unfold wrap. symmetry. apply (Z.mod_unique _ _ (-1)); lia. }
  rsimpl. bfalse (2 ^ 64 + gpt_start_lba entry - gpt_end_lba entry <? 3).
  rewrite uadd_ok by lia. rsimpl. rewrite swrap_small by lia.
  rewrite bd_read_ok by (unfold bd_valid; split_and!; [lia|lia|reflexivity|exact Hd]).
  change ((fun i => bd_byte d (SECTOR_SIZE * (gpt_start_lba entry + 2) + i)) <$> seqZ 0 1024)
    with (content d (SECTOR_SIZE * (gpt_start_lba entry + 2)) 1024).
  unfold SUPERBLOCK_BYTES. rewrite slice_ok by (rewrite ?zlen_content; lia). rsimpl.
  rewrite content_slice by lia. by rewrite Z.add_0_r.
Qed.

(** A small file system: 1024-byte blocks, one group of 32 blocks and 16
    inodes; the descriptor table is block 2, the block bitmap block 3, the
    inode bitmap block 4, the inode table blocks 5 and 6; blocks 0 to 9 are in
    use. *)
Definition sample_sb : SuperBlock :=
  u_put 2 56 0xEF53 (u_put 4 40 16 (u_put 4 32 32 (u_put 4 20 1 (u_put 4 4 32 (u_put 4 16 5 (u_put 4 12 20
    (zeros 264))))))).
Definition sample_desc : GroupDescriptor := u_put 2 14 5 (u_put 2 12 20 (u_put 4 8 5 (u_put 4 4 4 (u_put 4 0 3 (zeros 18))))).
Definition sample_disk : MemDisk :=
  let d := zeros 32768 in
  let d := take 1024 d ++ sample_sb ++ drop (1024 + 264) d in
  let d := take 2048 d ++ sample_desc ++ drop (2048 + 18) d in
  u_put 2 3072 0x03FF d.
Definition sample_fs : Ext2Fs MemDisk :=
  {| disk := sample_disk; start_lba := 0; super_block := sample_sb; fs_block_size := 1024; block_groups_count := 1;
     allocated_block_indices := []; unwritten_freed_blocks := [] |}.
Definition sample_partition : GPTEntry := u_put 8 40 63 (replicate 128 0).
Definition sample_inode : Inode :=
  {| i_mode := 0x41ED; i_uid := 0; i_size := 1024; i_atime := 7; i_ctime := 8; i_mtime := 9; i_dtime := 0;
     i_gid := 0; i_links_count := 2; i_blocks := 2; i_flags := 0; i_osd1 := 0; i_block := 9 :: replicate 14 0;
     i_generation := 0; i_file_acl := 0; i_dir_acl := 0; i_faddr := 0; i_osd2 := replicate 12 0 |}.

Definition is_uintb (n : nat) (z : Z) : bool := (0 <=? z) && (z <? 256 ^ Z.of_nat n).
Lemma uints_check n l : forallb (is_uintb n) l = true -> Forall (is_uint n) l.
Proof.
  intros Hl. apply Forall_forall. intros b Hb. apply list_elem_of_In in Hb.
  rewrite forallb_forall in Hl. specialize (Hl b Hb). unfold is_uintb in Hl. boom. unfold is_uint. lia.
Qed.

Lemma sample_fs_ok : fs_ok sample_fs.
Proof.
  split.
  - split; [|reflexivity]. split; vm_compute; congruence.
  - cbn. lia.
  - vm_compute. reflexivity.
  - split; [|reflexivity]. apply bytes_check. vm_compute. reflexivity.
Qed.
Lemma sample_inode_ok : inode_ok sample_inode.
Proof. unfold inode_ok. split_and!; [apply uints_check; vm_compute; reflexivity..|reflexivity|apply uints_check; vm_compute; reflexivity|reflexivity]. Qed.
Lemma sample_inode_in idx : 0 <= idx < 16 -> inode_in sample_fs 0 idx.
Proof.
  intros Hi. assert (128 * idx / 512 < 4) by (apply Z.div_lt_upper_bound; lia).
  split; [|split; [lia|]].
  - split; [lia|]. split; vm_compute; congruence.
  - assert (inode_table_off sample_fs 0 = 5120) as -> by (vm_compute; reflexivity).
    assert (bd_size (disk sample_fs) = 32768) as -> by (vm_compute; reflexivity). lia.
Qed.

Lemma inode_disk_roundtrip_witness : exists ip fs',
  @global_idx_to_inode_plus dev_build _ sample_fs sample_inode 2 = Ok ip /\
  @write_inode dev_build _ _ ip sample_fs = (Ok (), fs') /\ @get_nth_inode dev_build _ _ 2 fs' = (Ok ip, fs').
Proof.
  pose (ip := {| ip_inode := sample_inode; absolute_idx := 2; ip_group_number := 0; relative_idx := 1 |}).
  exists ip. assert (@global_idx_to_inode_plus dev_build _ sample_fs sample_inode 2 = Ok ip) as Hip by reflexivity.
  destruct (@inode_disk_roundtrip dev_build MemDisk _ _ sample_fs sample_inode 2 ip sample_fs_ok sample_inode_ok)
    as (fs' & H1 & H2 & _); [lia|vm_compute; reflexivity|exact Hip|apply sample_inode_in; cbn; lia| |].
  - right. vm_compute. congruence.
  - exists fs'. split; [exact Hip|split; [exact H1|exact H2]].
Defined.

Lemma identify_ext2_builds_witness :
  @identify_ext2 dev_build _ _ sample_partition sample_disk = Panic /\
  @identify_ext2 release_build _ _ sample_partition sample_disk = Ok (Some sample_sb).
Proof.
  assert (content sample_disk (SECTOR_SIZE * (0 + 2)) SUPERBLOCK_BYTES = sample_sb) as E by (vm_compute; reflexivity).
  pose proof (identify_ext2_builds sample_disk sample_partition) as T.
  change (gpt_start_lba sample_partition) with 0 in T. change (gpt_end_lba sample_partition) with 63 in T. rewrite E in T.
  apply T; [lia|lia|vm_compute; congruence].
Defined.
