(* ===== verification/Ext2Alloc.v ===== *)
(** * ext2: the block allocator

    src/kernel/src/drivers/fs/ext2/allocator.rs.

    A block is taken by a scan of the bitmaps on the drive, skipping the
    blocks taken before and not yet written: the set
    [allocated_block_indices], a [BTreeSet] ordered by address, is a list
    sorted by address.  [write_newly_allocated_blocks] then sets the bits and
    lowers the groups' free counts.

    Shown here: an allocation returns the first free blocks of the group, no
    block twice, and fails only when too few are free; writing the pending
    blocks of the first group sets exactly their bits and clears the set;
    pending blocks of later groups make it panic; the address and the block
    index recorded for a block name different blocks. *)

From S2P Require Import Prelude Bytes Serialize Crypto Disk Ext2Layout Ext2Fs.
Import Iterators.

(** ** [BTreeSet] *)
Definition set_contains (b : AllocatedBlock) (l : list AllocatedBlock) : bool :=
  existsb (fun x => addr x =? addr b) l.
Fixpoint set_insert (b : AllocatedBlock) (l : list AllocatedBlock) : list AllocatedBlock :=
  match l with
  | [] => [b]
  | x :: l => if addr b <? addr x then b :: x :: l else if addr b =? addr x then x :: l else x :: set_insert b l
  end.
Fixpoint zset_insert (b : Z) (l : list Z) : list Z :=
  match l with
  | [] => [b]
  | x :: l => if b <? x then b :: x :: l else if b =? x then x :: l else x :: zset_insert b l
  end.
(** The [BTreeMap] from group to number of blocks: [and_modify(+1).or_insert(1)] *)
Fixpoint count_group (g : Z) (m : list (Z * Z)) : list (Z * Z) :=
  match m with
  | [] => [(g, 1)]
  | (k, n) :: m => if g <? k then (g, 1) :: (k, n) :: m else if g =? k then (k, n + 1) :: m else (k, n) :: count_group g m
  end.

Section alloc.
Context `{Build} {D : Type} `{BlockDev D}.
Abbreviation EM := (M (Ext2Fs D) HalFsIOErr).


(** The block of bitmap index [idx] of a group *)
Definition block_at {E} (gm_blocks_per_group : Z) (group : Ext2BlockGroup) (gr idx : Z) : res E AllocatedBlock :=
  lba ← get_group_lba group;
  n ← smul idx (sectors_per_block group);
  block_lba ← sadd lba n;
  n ← umul 32 (wrap 32 gr) gm_blocks_per_group;
  global_idx ← uadd 32 n (wrap 32 idx);
  Ok {| addr := block_lba; block_relatve_idx := wrap 32 idx; gr_number := gr; block_global_idx := global_idx |}.

(** The loop over the bits of a group's bitmap *)
Fixpoint scan_bits (group : Ext2BlockGroup) (gr : Z) (bits : list (Z * Bit)) (remaining : Z)
    (blocks : list AllocatedBlock) : EM (Z * list AllocatedBlock) :=
  match bits with
  | [] => mret (remaining, blocks)
  | (idx, bit) :: bits =>
      if remaining =? 0 then mret (remaining, blocks) else
      match bit with
      | One => scan_bits group gr bits remaining blocks
      | Zero =>
          fs ← get;
          b ← lift (block_at (s_blocks_per_group (super_block fs)) group gr idx);
          if set_contains b (allocated_block_indices fs) then scan_bits group gr bits remaining blocks
          else
            _ ← put (with_allocated fs (set_insert b (allocated_block_indices fs)));
            scan_bits group gr bits (remaining - 1) (blocks ++ [b])
      end
  end.
(** Read a group's bitmap and scan it *)
Definition scan_group (gr remaining : Z) (blocks : list AllocatedBlock) : EM (Z * list AllocatedBlock) :=
  group ← get_group gr;
  buf ← get_buffer;
  lba ← lift (get_block_bitmap_lba group);
  buf ← read_sectors buf lba;
  bits ← lift (from_never (collect 8 (S (8 * length buf)) (new buf)));
  scan_bits group gr (zip (seqZ 0 (zlen bits)) bits) remaining blocks.

Fixpoint scan_groups (groups : list Z) (exclude remaining : Z) (blocks : list AllocatedBlock) :
    EM (Z * list AllocatedBlock) :=
  match groups with
  | [] => mret (remaining, blocks)
  | gr :: groups =>
      if gr =? exclude then scan_groups groups exclude remaining blocks else
      if remaining =? 0 then mret (remaining, blocks) else
      '(remaining, blocks) ← scan_group gr remaining blocks;
      scan_groups groups exclude remaining blocks
  end.
Definition allocate_n_blocks (exclude remaining : Z) : EM (list AllocatedBlock) :=
  fs ← get;
  '(remaining, blocks) ← scan_groups (seqZ 0 (block_groups_count fs)) exclude remaining [];
  if 0 <? remaining then throw NoSpaceLeft else mret blocks.
Definition allocate_n_blocks_in_group (gr num : Z) : EM (list AllocatedBlock) :=
  '(num, blocks) ← scan_group gr num [];
  if num =? 0 then mret blocks
  else more ← allocate_n_blocks gr num; mret (blocks ++ more).

(** ** Writing the pending blocks *)
(** One pending block: switch to its group's bitmap if needed and set its bit *)
Definition mark_block (b : AllocatedBlock) (st : Z * list Z * list (Z * Z)) : EM (Z * list Z * list (Z * Z)) :=
  let '(cur, buf, counts) := st in
  let counts := count_group (gr_number b) counts in
  group ← get_group (gr_number b);
  lba ← lift (get_block_bitmap_lba group);
  '(cur, buf) ← (if cur =? lba then mret (cur, buf)
                 else
                   _ ← (if cur =? -1 then mret () else write_sectors buf cur);
                   buf ← read_sectors buf lba;
                   mret (lba, buf));
  buf ← lift (bit_set buf (block_global_idx b));
  mret (cur, buf, counts).
(** One group: switch to its descriptor's sector if needed and lower its count *)
Definition account_group (gn : Z * Z) (st : Z * list Z) : EM (Z * list Z) :=
  let '(gr, n) := gn in
  let '(cur, buf) := st in
  lba ← get_block_group_table_lba;
  lba_offset ← lift (desc_lba_offset gr);
  byte_offset ← lift (desc_byte_offset gr);
  l ← lift (sadd lba lba_offset);
  '(cur, buf) ← (if l =? cur then mret (cur, buf)
                 else
                   _ ← (if cur =? -1 then mret () else write_sectors buf cur);
                   buf ← read_sectors buf l;
                   mret (l, buf));
  desc ← lift (slice buf (wrap 64 byte_offset) (wrap 64 byte_offset + GROUP_DESCRIPTOR_BYTES));
  c ← lift (usub 16 (bg_free_blocks_count desc) (wrap 16 n));
  buf ← lift (splice buf (wrap 64 byte_offset) (u_put 2 12 c desc));
  mret (cur, buf).

Definition write_newly_allocated_blocks (buf : list Z) : EM () :=
  fs ← get;
  '(cur, buf, counts) ← for_each (allocated_block_indices fs) (-1, buf, []) mark_block;
  _ ← write_sectors buf cur;
  '(cur, buf) ← for_each counts (-1, buf) account_group;
  _ ← write_sectors buf cur;
  fs ← get;
  put (with_allocated fs []).

Definition add_freed_block (block : Z) : EM () :=
  fs ← get; put (with_freed fs (zset_insert block (unwritten_freed_blocks fs))).
(** The descriptors of the freed blocks' groups: the last buffer is not
    written back. *)
Definition write_freed_blocks : EM () :=
  buf ← get_buffer;
  fs ← get;
  '(_, _) ← for_each (unwritten_freed_blocks fs) (-1, buf) (fun e st =>
    gr ← lift (sdiv e (s_blocks_per_group (super_block fs)));
    account_group (gr, 1) st);
  fs ← get;
  put (with_freed fs []).
End alloc.

(** ** The set of pending blocks *)
Lemma set_contains_insert b x l : set_contains b (set_insert x l) = (addr x =? addr b) || set_contains b l.
Proof.
  induction l as [|y l IH]; cbn [set_insert set_contains existsb]; [done|].
  destruct (addr x <? addr y); [done|]. destruct (addr x =? addr y) eqn:E; boom.
  - cbn [existsb]. rewrite E. destruct (addr y =? addr b); done.
  - cbn [existsb]. fold (set_contains b (set_insert x l)). rewrite IH. fold (set_contains b l).
    by destruct (addr y =? addr b), (addr x =? addr b).
Qed.
Lemma set_contains_true b l : set_contains b l = true <-> addr b ∈ addr <$> l.
Proof.
  unfold set_contains. rewrite existsb_exists, list_elem_of_fmap. split.
  - intros (x & Hx & E). boom. exists x. split; [done|]. by apply list_elem_of_In.
  - intros (x & E & Hx). exists x. split; [by apply list_elem_of_In|]. by apply Z.eqb_eq.
Qed.
Lemma set_insert_perm b l : set_contains b l = false -> set_insert b l ≡ₚ b :: l.
Proof.
  induction l as [|y l IH]; cbn [set_contains set_insert existsb]; [done|].
  intros [E1 E2]%orb_false_iff. destruct (addr b <? addr y); [done|].
  rewrite Z.eqb_sym, E1. rewrite IH by done. constructor.
Qed.

(** ** The bits of a bitmap in order *)
Lemma bit_at_cons x xs i : 0 <= i -> bit_at (x :: xs) i = if i <? 8 then Z.testbit x i else bit_at xs (i - 8).
Proof.
  intros Hi. unfold bit_at. destruct (i <? 8) eqn:E; boom.
  - rewrite Z.div_small, Z.mod_small by lia. done.
  - replace i with ((i - 8) + 1 * 8) at 1 2 by lia. rewrite Z.div_add, Z.mod_add by lia.
    assert (0 <= (i - 8) / 8) by (apply Z.div_pos; lia).
    replace (Z.to_nat ((i - 8) / 8 + 1)) with (S (Z.to_nat ((i - 8) / 8))) by lia. done.
Qed.
Lemma all_bits_eq bs : all_bits 8 bs = (fun i => bit_of (bit_at bs i)) <$> seqZ 0 (8 * zlen bs).
Proof.
  induction bs as [|x bs IH]; [done|]. pose proof (zlen_nonneg bs).
  rewrite zlen_cons. replace (8 * (1 + zlen bs)) with (8 + 8 * zlen bs) by lia.
  rewrite seqZ_app, fmap_app by lia. unfold all_bits in *. cbn [fmap list_fmap concat].
  change (concat (list_fmap _ _ (word_bits 8) bs)) with (concat (word_bits 8 <$> bs)). rewrite IH. f_equal.
  replace (0 + 8) with (8 + 0) by lia. rewrite <- fmap_add_seqZ, <- list_fmap_compose.
  apply list_fmap_ext. intros k i Hi. apply lookup_seqZ in Hi as [-> ?]. cbn [compose].
  rewrite bit_at_cons by lia. bfalse (8 + (0 + Z.of_nat k) <? 8). do 2 f_equal. lia.
Qed.
Lemma zip_bits {A} (f : Z -> A) n : zip (seqZ 0 (zlen (f <$> seqZ 0 n))) (f <$> seqZ 0 n) = (fun i => (i, f i)) <$> seqZ 0 n.
Proof.
  assert (zlen (f <$> seqZ 0 n) = Z.max 0 n) as -> by (unfold zlen; rewrite length_fmap, length_seqZ; lia).
  replace (seqZ 0 (Z.max 0 n)) with (seqZ 0 n).
  - generalize (seqZ 0 n). induction l as [|z l IH]; cbn; [done|]. f_equal. exact IH.
  - destruct (Z.le_gt_cases 0 n); [by rewrite Z.max_r|]. rewrite Z.max_l, !seqZ_nil by lia. done.
Qed.

Section alloc_spec.
Context `{Build} {D : Type} `{BlockDevLaws D}.
Implicit Types fs : Ext2Fs D.

(** ** The geometry of a group, without overflow *)
Definition bpg fs : Z := s_blocks_per_group (super_block fs).
Definition spb fs : Z := fs_block_size fs / 512.
Definition group_start fs (gr : Z) : Z :=
  if gr =? 0 then 2 else 2 + (bpg fs - 1) * spb fs + 2 + (gr - 1) * bpg fs * spb fs.
Definition block_of fs (gr idx : Z) : AllocatedBlock :=
  {| addr := group_start fs gr + idx * spb fs; block_global_idx := gr * bpg fs + idx;
     block_relatve_idx := idx; gr_number := gr |}.
Definition bitmap_off fs (gr : Z) : Z := base fs + bg_block_bitmap (desc fs gr) * fs_block_size fs.
Definition bitmap fs (gr : Z) : list Z := content (disk fs) (bitmap_off fs gr) (fs_block_size fs).
Definition bits_per_group fs : Z := 8 * fs_block_size fs.
(** The group's descriptor and bitmap are on the drive, and its block numbers
    fit in 32 bits. *)
Record group_ok fs (gr : Z) : Prop := {
  g_in : group_in fs gr;
  g_bitmap : bitmap_off fs gr + fs_block_size fs <= bd_size (disk fs);
  g_fits : 1 <= bpg fs /\ gr * bpg fs + bits_per_group fs < 2 ^ 32;
}.

Lemma spb_range fs : fs_ok fs -> 2 <= spb fs <= 128.
Proof.
  intros Hok. destruct (f_bs _ Hok) as [Hbs _]. unfold spb. split.
  - apply Z.div_le_lower_bound; lia.
  - apply Z.div_le_upper_bound; lia.
Qed.
Lemma bpg_range fs : fs_ok fs -> 0 <= bpg fs < 2 ^ 32.
Proof.
  intros Hok. destruct (f_sb _ Hok) as [Hb Hl]. unfold SUPERBLOCK_BYTES in Hl.
  apply (u_at_range 4 32); [done|lia|lia].
Qed.
Lemma get_group_lba_ok {E} fs gr : fs_ok fs -> group_ok fs gr ->
  get_group_lba (E:=E) (group_of fs gr) = Ok (group_start fs gr).
Proof.
  intros Hok [[Hg _] _ [Hb1 Hf]]. pose proof (spb_range fs Hok). pose proof (bpg_range fs Hok).
  destruct (f_bs _ Hok) as [Hbs _]. unfold bits_per_group in Hf.
  unfold get_group_lba, group_start, RESERVED_BOOT_RECORD_OFFSET. cbn [group_of group_number blocks_per_group sectors_per_block].
  fold (bpg fs) (spb fs). change (1024 / SECTOR_SIZE) with 2.
  destruct (gr =? 0) eqn:E0; [done|]. boom. assert ((gr - 1) * bpg fs < 2 ^ 32) by nia.
  rewrite (ssub_ok (bpg fs)) by lia. rsimpl. rewrite (smul_ok (bpg fs - 1)) by nia. rsimpl.
  rewrite (sadd_ok 2) by nia. rsimpl. rewrite (sadd_ok _ 2) by nia. rsimpl. rewrite ssub_ok by lia. rsimpl.
  rewrite smul_ok by nia. rsimpl. rewrite smul_ok by nia. rsimpl. apply sadd_ok. nia.
Qed.
Lemma block_at_ok {E} fs gr idx : fs_ok fs -> group_ok fs gr -> 0 <= idx < bits_per_group fs ->
  block_at (E:=E) (bpg fs) (group_of fs gr) gr idx = Ok (block_of fs gr idx).
Proof.
  intros Hok Hg Hi. pose proof (get_group_lba_ok (E:=E) fs gr Hok Hg) as Hl.
  destruct Hg as [[Hg _] _ [Hb1 Hf]]. pose proof (spb_range fs Hok). pose proof (bpg_range fs Hok).
  destruct (f_bs _ Hok) as [Hbs _]. unfold bits_per_group in *.
  unfold block_at. rewrite Hl. rsimpl. cbn [group_of sectors_per_block]. fold (spb fs).
  assert (0 <= gr * bpg fs < 2 ^ 32) by nia.
  assert (0 <= group_start fs gr < 2 ^ 41) by (unfold group_start; destruct (gr =? 0) eqn:?; boom; nia).
  rewrite smul_ok by nia. rsimpl. rewrite sadd_ok by nia. rsimpl. rewrite !(wrap_small 32) by lia.
  rewrite umul_ok by lia. rsimpl. rewrite uadd_ok by lia. done.
Qed.

(** The blocks an allocation may take from a group: the free ones that are not
    pending, in order *)
Definition cands fs (gr : Z) (pend : list AllocatedBlock) (idxs : list Z) : list AllocatedBlock :=
  filter (fun b => set_contains b pend = false)
    (block_of fs gr <$> filter (fun i => bit_at (bitmap fs gr) i = false) idxs).
Definition available fs (gr : Z) : list AllocatedBlock :=
  cands fs gr (allocated_block_indices fs) (seqZ 0 (bits_per_group fs)).
Definition insert_all (bs pend : list AllocatedBlock) : list AllocatedBlock := foldl (fun l b => set_insert b l) pend bs.

Lemma addr_inj fs gr i j : fs_ok fs -> addr (block_of fs gr i) = addr (block_of fs gr j) -> i = j.
Proof. intros Hok. pose proof (spb_range fs Hok). cbn. intros Ha. nia. Qed.
Lemma cands_insert fs gr pend idxs i : fs_ok fs -> i ∉ idxs ->
  cands fs gr (set_insert (block_of fs gr i) pend) idxs = cands fs gr pend idxs.
Proof.
  intros Hok Hi. unfold cands. apply filter_ext_Forall. apply Forall_fmap, Forall_forall. intros j Hj. cbn [compose].
  rewrite set_contains_insert, orb_false_iff. apply list_elem_of_filter in Hj as [_ Hj].
  assert ((addr (block_of fs gr i) =? addr (block_of fs gr j)) = false) as ->; [|tauto].
  apply Z.eqb_neq. intros E. apply addr_inj in E; [|done]. by subst.
Qed.

Lemma scan_bits_ok fs gr idxs n acc pend : fs_ok fs -> group_ok fs gr -> NoDup idxs ->
  Forall (fun i => 0 <= i < bits_per_group fs) idxs -> 0 <= n ->
  let got := take (Z.to_nat n) (cands fs gr pend idxs) in
  scan_bits (group_of fs gr) gr ((fun i => (i, bit_of (bit_at (bitmap fs gr) i))) <$> idxs) n acc
    (with_allocated fs pend) =
    (Ok (n - zlen got, acc ++ got), with_allocated fs (insert_all got pend)).
Proof.
  intros Hok Hg Hnd Hr. revert n acc pend. induction idxs as [|i idxs IH]; intros n acc pend Hn got; unfold got; clear got.
  { cbn [fmap list_fmap scan_bits]. unfold cands. cbn [filter list_filter fmap list_fmap]. rewrite take_nil.
    unfold mret, M_ret. do 3 f_equal; [change (zlen []) with 0; lia|by rewrite app_nil_r]. }
  apply NoDup_cons in Hnd as [Hni Hnd]. apply Forall_cons in Hr as [Hi Hr].
  cbn [fmap list_fmap scan_bits]. change (list_fmap _ _ ?f idxs) with (f <$> idxs).
  destruct (n =? 0) eqn:En; boom.
  { subst n. cbn [Z.to_nat take]. unfold mret, M_ret. do 3 f_equal. by rewrite app_nil_r. }
  unfold cands. rewrite filter_cons. destruct (bit_at (bitmap fs gr) i) eqn:Eb; cbn [bit_of].
  { rewrite decide_False by done. by apply IH. }
  rewrite decide_True by done. cbn [fmap list_fmap]. change (list_fmap _ _ ?f ?l) with (f <$> l). rewrite filter_cons.
  mstep. cbn [super_block with_allocated allocated_block_indices]. fold (bpg fs). rewrite block_at_ok by done. mstep.
  destruct (set_contains (block_of fs gr i) pend) eqn:Ec.
  { rewrite decide_False by done. by apply IH. }
  rewrite decide_True by done. mstep.
  change (with_allocated (with_allocated fs pend) ?l) with (with_allocated fs l).
  rewrite IH by (done || lia). rewrite cands_insert by done. fold (cands fs gr pend idxs).
  replace (Z.to_nat n) with (S (Z.to_nat (n - 1))) by lia. cbn [take]. rewrite zlen_cons.
  do 3 f_equal; [lia|]. by rewrite <- app_assoc.
Qed.

Lemma bitmap_read_ok fs gr : fs_ok fs -> group_ok fs gr ->
  exists lba, get_block_bitmap_lba (E:=HalFsIOErr) (group_of fs gr) = Ok lba /\ 0 <= lba /\
    base fs + 512 * lba = bitmap_off fs gr /\
    forall buf, zlen buf = fs_block_size fs -> read_sectors buf lba fs = (Ok (bitmap fs gr), fs).
Proof.
  intros Hok [_ Hb _]. destruct (f_bs _ Hok) as [Hbs Hm]. pose proof (bs_div fs Hok) as Hd.
  assert (0 <= bg_block_bitmap (desc fs gr) < 2 ^ 32) as Hr.
  { apply (u_at_range 4 0); [apply content_bytes|lia|]. unfold desc, GROUP_DESCRIPTOR_BYTES. rewrite zlen_content; lia. }
  exists (bg_block_bitmap (desc fs gr) * (fs_block_size fs / 512)).
  assert (base fs + 512 * (bg_block_bitmap (desc fs gr) * (fs_block_size fs / 512)) = bitmap_off fs gr) as Ho
    by (unfold bitmap_off; rewrite <- Hd at 2; lia).
  unfold get_block_bitmap_lba. cbn [group_of block_size descriptor]. rewrite block_idx_to_lba_ok by lia.
  assert (0 <= bg_block_bitmap (desc fs gr) * (fs_block_size fs / 512)) by nia.
  split_and!; [done..|]. intros buf Hl. rewrite read_sectors_ok; rewrite ?Ho, ?Hl; done.
Qed.
Lemma zlen_zeros n : 0 <= n -> zlen (zeros n) = n.
Proof. intros. unfold zeros. rewrite zlen_replicate. lia. Qed.

Lemma scan_group_ok fs gr n acc : fs_ok fs -> group_ok fs gr -> 0 <= n ->
  let got := take (Z.to_nat n) (available fs gr) in
  scan_group gr n acc fs =
    (Ok (n - zlen got, acc ++ got), with_allocated fs (insert_all got (allocated_block_indices fs))).
Proof.
  intros Hok Hg Hn got. destruct (bitmap_read_ok fs gr Hok Hg) as (lba & Hl & _ & _ & Hr).
  destruct (f_bs _ Hok) as [Hbs _]. unfold scan_group. mrun (get_group_ok fs gr Hok (g_in _ _ Hg)).
  unfold get_buffer. mstep. rewrite Hl. mstep. mrun (Hr (zeros (fs_block_size fs)) (zlen_zeros (fs_block_size fs) ltac:(lia))).
  assert (zlen (bitmap fs gr) = fs_block_size fs) as Hbm by (apply zlen_content; lia).
  unfold from_never, new. replace (S (8 * length (bitmap fs gr))) with (Z.to_nat 8 * length (bitmap fs gr) + 1)%nat by lia.
  rewrite (collect_all 8 ltac:(lia) (bitmap fs gr) [] 0) by (cbn [app]; lia). cbn [map_err]. mstep.
  rewrite all_bits_eq, Hbm. fold (bits_per_group fs). rewrite zip_bits.
  pose proof (scan_bits_ok fs gr (seqZ 0 (bits_per_group fs)) n acc (allocated_block_indices fs)) as Hs. cbn zeta in Hs.
  replace (with_allocated fs (allocated_block_indices fs)) with fs in Hs by by destruct fs.
  apply Hs; [done..| | |done].
  - apply NoDup_seqZ.
  - apply Forall_forall. intros j Hj. apply elem_of_seqZ in Hj. lia.
Qed.

(** ** Soundness and completeness over all groups *)
Definition free_block fs (b : AllocatedBlock) : Prop :=
  exists gr idx, b = block_of fs gr idx /\ 0 <= idx < bits_per_group fs /\ bit_at (bitmap fs gr) idx = false.
Record sound fs (pend blocks : list AllocatedBlock) : Prop := {
  s_free : Forall (fun b => free_block fs b /\ set_contains b pend = false) blocks;
  s_distinct : NoDup (addr <$> blocks);
}.
Definition exhausted fs (gr : Z) (pend : list AllocatedBlock) : Prop :=
  forall idx, 0 <= idx < bits_per_group fs -> bit_at (bitmap fs gr) idx = false ->
    set_contains (block_of fs gr idx) pend = true.

Lemma insert_all_contains b bs pend :
  set_contains b (insert_all bs pend) = set_contains b bs || set_contains b pend.
Proof.
  unfold insert_all. revert pend. induction bs as [|x bs IH]; intros pend; cbn [foldl]; [done|].
  rewrite IH, set_contains_insert. cbn [set_contains existsb]. fold (set_contains b bs).
  by destruct (set_contains b bs), (addr x =? addr b).
Qed.
Lemma sound_nil fs pend : sound fs pend [].
Proof. split; constructor. Qed.
Lemma sound_app fs pend a b : sound fs pend a -> sound fs (insert_all a pend) b -> sound fs pend (a ++ b).
Proof.
  intros [Ha Hda] [Hb Hdb]. assert (Forall (fun x => set_contains x a = false /\ set_contains x pend = false) b) as Hc.
  { eapply Forall_impl; [exact Hb|]. cbn. intros x [_ Hx]. by rewrite insert_all_contains, orb_false_iff in Hx. }
  split.
  - apply Forall_app. split; [done|]. rewrite Forall_forall in Hb, Hc |- *. intros x Hx.
    split; [by apply Hb|by apply Hc].
  - rewrite fmap_app, NoDup_app. split_and!; [done| |done]. intros y Hy Hyb.
    apply list_elem_of_fmap in Hyb as (x & -> & Hx). rewrite Forall_forall in Hc. destruct (Hc x Hx) as [Hxa _].
    apply set_contains_true in Hy. congruence.
Qed.
Lemma sound_take fs pend l n : sound fs pend l -> sound fs pend (take n l).
Proof.
  intros [Hf Hd]. split; [by apply Forall_take|]. eapply sublist_NoDup; [exact Hd|]. apply fmap_sublist, sublist_take.
Qed.
Lemma available_sound fs gr : fs_ok fs -> sound fs (allocated_block_indices fs) (available fs gr).
Proof.
  intros Hok. unfold available, cands. split.
  - apply Forall_forall. intros b Hb. apply list_elem_of_filter in Hb as [Hp Hb].
    apply list_elem_of_fmap in Hb as (i & -> & Hi). apply list_elem_of_filter in Hi as [Hbit Hi].
    apply elem_of_seqZ in Hi. split; [|done]. exists gr, i. split_and!; [done|lia..|done].
  - assert (NoDup (addr <$> (block_of fs gr <$> filter (fun i => bit_at (bitmap fs gr) i = false) (seqZ 0 (bits_per_group fs))))) as Hn.
    { rewrite <- list_fmap_compose. apply NoDup_fmap_2_strong; [|apply NoDup_filter, NoDup_seqZ].
      intros x y _ _ Hxy. by eapply addr_inj. }
    revert Hn. generalize (block_of fs gr <$> filter (fun i => bit_at (bitmap fs gr) i = false) (seqZ 0 (bits_per_group fs))).
    intros l Hn. eapply sublist_NoDup; [exact Hn|]. apply fmap_sublist, sublist_filter.
Qed.

Lemma with_allocated_ok fs p : fs_ok fs -> fs_ok (with_allocated fs p).
Proof. intros [? ? ? ?]. by split. Qed.
Lemma group_ok_allocated fs p gr : group_ok fs gr -> group_ok (with_allocated fs p) gr.
Proof. intros [? ? ?]. by split. Qed.
Lemma sound_allocated fs p q l : sound (with_allocated fs p) q l -> sound fs q l.
Proof. intros [? ?]. by split. Qed.
Lemma exhausted_mono fs gr p bs : exhausted fs gr p -> exhausted fs gr (insert_all bs p).
Proof. intros He idx Hi Hb. rewrite insert_all_contains, (He idx Hi Hb). apply orb_true_r. Qed.
Lemma insert_all_app a b p : insert_all (a ++ b) p = insert_all b (insert_all a p).
Proof. apply foldl_app. Qed.

Lemma scan_group_exhausts fs gr n : 0 <= n -> 0 < n - zlen (take (Z.to_nat n) (available fs gr)) ->
  exhausted fs gr (insert_all (take (Z.to_nat n) (available fs gr)) (allocated_block_indices fs)).
Proof.
  intros Hn Hr idx Hi Hb.
  rewrite take_ge by (unfold zlen in Hr; rewrite length_take in Hr; lia).
  rewrite insert_all_contains. destruct (set_contains (block_of fs gr idx) (allocated_block_indices fs)) eqn:E;
    [apply orb_true_r|]. rewrite orb_false_r. apply set_contains_true, list_elem_of_fmap. eexists. split; [done|].
  unfold available, cands. apply list_elem_of_filter. split; [done|]. apply list_elem_of_fmap. exists idx.
  split; [done|]. apply list_elem_of_filter. split; [done|]. apply elem_of_seqZ. lia.
Qed.

Lemma scan_groups_ok groups ex n acc fs : fs_ok fs -> Forall (group_ok fs) groups -> 0 <= n ->
  exists got, let pend' := insert_all got (allocated_block_indices fs) in
    scan_groups groups ex n acc fs = (Ok (n - zlen got, acc ++ got), with_allocated fs pend') /\
    zlen got <= n /\ sound fs (allocated_block_indices fs) got /\
    (zlen got < n -> Forall (fun gr => gr <> ex -> exhausted fs gr pend') groups).
Proof.
  revert n acc fs. induction groups as [|gr groups IH]; intros n acc fs Hok Hg Hn; cbn [scan_groups].
  { exists []. change (zlen []) with 0. rewrite Z.sub_0_r, app_nil_r. cbn.
    split_and!; [by destruct fs|done|apply sound_nil|by constructor]. }
  apply Forall_cons in Hg as [Hgr Hg]. destruct (gr =? ex) eqn:Ex; boom.
  { destruct (IH n acc fs Hok Hg Hn) as (got & -> & Hl & Hs & He). exists got. split_and!; [done..|].
    intros Hr. constructor; [done|by apply He]. }
  destruct (n =? 0) eqn:E0; boom.
  { subst. exists []. change (zlen []) with 0. rewrite app_nil_r. cbn.
    split_and!; [by destruct fs|done|apply sound_nil|lia]. }
  pose proof (scan_group_ok fs gr n acc Hok Hgr Hn) as Hsg. cbn zeta in Hsg. mrun Hsg. clear Hsg.
  pose proof (scan_group_exhausts fs gr n Hn) as Hex.
  pose proof (sound_take fs _ _ (Z.to_nat n) (available_sound fs gr Hok)) as Hsd.
  assert (zlen (take (Z.to_nat n) (available fs gr)) <= n) as Hle by (rewrite zlen_take; lia).
  revert Hex Hsd Hle. generalize (take (Z.to_nat n) (available fs gr)). intros got Hex Hsd Hle.
  destruct (IH (n - zlen got) (acc ++ got) (with_allocated fs (insert_all got (allocated_block_indices fs))))
    as (more & Hm & Hl & Hs & He); [by apply with_allocated_ok| |lia|].
  { eapply Forall_impl; [exact Hg|]. intros. by apply group_ok_allocated. }
  exists (got ++ more). cbn zeta. rewrite insert_all_app, zlen_app. cbn in Hm, Hs, He. split_and!.
  - rewrite Hm. rewrite <- app_assoc. do 3 f_equal; lia.
  - lia.
  - apply sound_app; [done|]. by eapply sound_allocated.
  - intros Hr. pose proof (zlen_nonneg more). constructor; [|by apply He; lia].
    intros _. apply exhausted_mono, Hex. lia.
Qed.
End alloc_spec.

(** C7: allocating [n] blocks near a group, on a file system whose groups are
    all on the drive: either [n] blocks are returned, each free in its group's
    bitmap, none pending before, no two with the same address, and exactly
    they become pending; or the result is [NoSpaceLeft], fewer than [n] blocks
    became pending, and every block of every group is in use or pending.  The
    drive does not change and nothing panics. *)
Theorem allocate_sound_complete `{Build} {D} `{BlockDevLaws D} (fs : Ext2Fs D) gr n :
  fs_ok fs -> 0 <= gr < block_groups_count fs -> 0 <= n ->
  (forall g, 0 <= g < block_groups_count fs -> group_ok fs g) ->
  exists got, sound fs (allocated_block_indices fs) got /\
    let pend' := insert_all got (allocated_block_indices fs) in
    (zlen got = n /\ allocate_n_blocks_in_group gr n fs = (Ok got, with_allocated fs pend')) \/
    (zlen got < n /\ allocate_n_blocks_in_group gr n fs = (Err NoSpaceLeft, with_allocated fs pend') /\
     forall g, 0 <= g < block_groups_count fs -> exhausted fs g pend').
Proof.
  intros Hok Hgr Hn Hgs. unfold allocate_n_blocks_in_group.
  pose proof (scan_group_ok fs gr n [] Hok (Hgs gr Hgr) Hn) as Hsg. cbn zeta in Hsg. mrun Hsg. clear Hsg. cbn [app].
  pose proof (scan_group_exhausts fs gr n Hn) as Hex.
  pose proof (sound_take fs _ _ (Z.to_nat n) (available_sound fs gr Hok)) as Hsd.
  assert (zlen (take (Z.to_nat n) (available fs gr)) <= n) as Hle by (rewrite zlen_take; lia).
  revert Hex Hsd Hle. generalize (take (Z.to_nat n) (available fs gr)). intros got Hex Hsd Hle.
  destruct (n - zlen got =? 0) eqn:E; boom.
  { exists got. split; [done|]. left. split; [lia|done]. }
  unfold allocate_n_blocks. rewrite M_assoc. mstep. rewrite M_assoc.
  set (fs1 := with_allocated fs (insert_all got (allocated_block_indices fs))).
  destruct (scan_groups_ok (seqZ 0 (block_groups_count fs1)) gr (n - zlen got) [] fs1)
    as (more & Hm & Hl & Hs & He); [by apply with_allocated_ok| |lia|].
  { apply Forall_forall. intros g Hg%elem_of_seqZ. apply group_ok_allocated, Hgs. cbn in Hg. lia. }
  cbn zeta in Hm. mrun Hm. cbn [app]. exists (got ++ more). split; [apply sound_app; [done|by eapply sound_allocated]|].
  cbn zeta. rewrite insert_all_app, zlen_app. destruct (0 <? n - zlen got - zlen more) eqn:Er; boom.
  - right. split_and!; [lia|done|]. intros g Hg. destruct (decide (g = gr)) as [->|Hne].
    + apply exhausted_mono, Hex. lia.
    + specialize (He ltac:(lia)). rewrite Forall_forall in He. apply He; [|done]. apply elem_of_seqZ. cbn. lia.
  - left. split; [lia|done].
Qed.

Lemma sample_group_ok : group_ok sample_fs 0.
Proof.
  split.
  - destruct (sample_inode_in 0) as [Hg _]; [lia|exact Hg].
  - vm_compute. congruence.
  - split; vm_compute; congruence.
Qed.
Lemma allocate_sound_complete_witness : exists got, sound sample_fs [] got /\
  let pend' := insert_all got [] in
  (zlen got = 3 /\ @allocate_n_blocks_in_group dev_build _ _ 0 3 sample_fs = (Ok got, with_allocated sample_fs pend')) \/
  (zlen got < 3 /\ @allocate_n_blocks_in_group dev_build _ _ 0 3 sample_fs = (Err NoSpaceLeft, with_allocated sample_fs pend') /\
   forall g, 0 <= g < 1 -> exhausted sample_fs g pend').
Proof.
  apply (@allocate_sound_complete dev_build MemDisk _ _ sample_fs 0 3); [exact sample_fs_ok|cbn; lia|lia|].
  intros g Hg. cbn in Hg. replace g with 0 by lia. exact sample_group_ok.
Defined.

(** The address and the block index recorded for one allocated block name
    different places: the address is that of the sector group the bitmap index
    stands for, and the sector of the block index is two sectors lower in the
    first group and [block_size / 512 - 4] sectors higher in the others.  With
    the 1024-byte blocks the kernel is written for, the two differ by one
    block everywhere. *)
Theorem block_index_misses_address `{Build} {D} `{BlockDevLaws D} (fs : Ext2Fs D) gr idx b l :
  fs_ok fs -> group_ok fs gr -> 0 <= idx < bits_per_group fs ->
  block_at (E:=HalFsIOErr) (bpg fs) (group_of fs gr) gr idx = Ok b ->
  block_idx_to_lba (E:=HalFsIOErr) (fs_block_size fs) (block_global_idx b) = Ok l ->
  addr b = l + (if gr =? 0 then 2 else 4 - fs_block_size fs / 512) /\
  (fs_block_size fs = 1024 -> addr b = l + 2).
Proof.
  intros Hok Hg Hi Hb Hl. rewrite (block_at_ok fs gr idx Hok Hg Hi) in Hb. injection Hb as <-.
  destruct Hg as [[Hg _] _ [Hb1 Hf]]. destruct (f_bs _ Hok) as [Hbs Hm]. pose proof (bpg_range fs Hok).
  cbn [block_global_idx block_of] in Hl. rewrite block_idx_to_lba_ok in Hl by (unfold bits_per_group in *; nia).
  injection Hl as <-. cbn [addr block_of]. unfold group_start. fold (spb fs).
  split; [destruct (gr =? 0) eqn:E; boom; subst; lia|]. intros Ebs.
  assert (spb fs = 2) as -> by (unfold spb; by rewrite Ebs). destruct (gr =? 0) eqn:E; boom; subst; lia.
Qed.
Lemma block_index_misses_address_witness : exists b, @block_at dev_build HalFsIOErr (bpg sample_fs) (group_of sample_fs 0) 0 10 = Ok b /\
  addr b = 20 + 2.
Proof.
  eexists. split; [vm_compute; reflexivity|].
  apply (@block_index_misses_address dev_build MemDisk _ _ sample_fs 0 10 _ 20 sample_fs_ok sample_group_ok);
    [vm_compute; split; congruence|vm_compute; reflexivity..].
Defined.

Section commit.
Context `{Build} {D : Type} `{BlockDevLaws D}.
Implicit Types fs : Ext2Fs D.

(** The bits of [idxs] set *)
Fixpoint set_bits (idxs : list Z) (bm : list Z) : list Z :=
  match idxs with
  | [] => bm
  | i :: idxs => set_bits idxs (match bit_set (E:=never) bm i with Ok bm => bm | _ => bm end)
  end.
Lemma set_bits_spec idxs bm : bytes bm -> Forall (fun i => 0 <= i < 8 * zlen bm) idxs ->
  length (set_bits idxs bm) = length bm /\ bytes (set_bits idxs bm) /\
  forall j, 0 <= j -> bit_at (set_bits idxs bm) j = existsb (Z.eqb j) idxs || bit_at bm j.
Proof.
  intros Hb Hr. revert bm Hb Hr. induction idxs as [|i idxs IH]; intros bm Hb Hr; cbn [set_bits existsb]; [done|].
  apply Forall_cons in Hr as [Hi Hr]. destruct (bit_set_spec (E:=never) bm i Hi Hb) as (bm' & -> & Hl & Hb' & Hbit).
  destruct (IH bm' Hb') as (Hl2 & Hb2 & Hbit2); [by unfold zlen in *; rewrite Hl|].
  split_and!; [lia|done|]. intros j Hj. rewrite Hbit2, Hbit by done. rewrite (Z.eqb_sym i j).
  by destruct (existsb _ idxs), (j =? i).
Qed.
Lemma bit_set_run {E} i bm : 0 <= i < 8 * zlen bm -> bytes bm -> bit_set (E:=E) bm i = Ok (set_bits [i] bm).
Proof.
  intros Hi Hb. cbn [set_bits]. destruct (bit_set_spec (E:=E) bm i Hi Hb) as (bm1 & E1 & Hl1 & Hb1 & H1').
  destruct (bit_set_spec (E:=never) bm i Hi Hb) as (bm2 & E2 & Hl2 & Hb2 & H2'). rewrite E1, E2. f_equal.
  apply bits_eq; [done..|congruence|]. intros j Hj. rewrite H1', H2' by lia. done.
Qed.

Definition first_group fs (b : AllocatedBlock) : Prop := gr_number b = 0 /\ 0 <= block_global_idx b < bits_per_group fs.

Lemma mark_loop fs lba bm k bs : fs_ok fs -> group_ok fs 0 ->
  get_block_bitmap_lba (E:=HalFsIOErr) (group_of fs 0) = Ok lba ->
  bytes bm -> zlen bm = fs_block_size fs -> Forall (first_group fs) bs ->
  for_each bs (lba, bm, [(0, k)]) mark_block fs =
    (Ok (lba, set_bits (block_global_idx <$> bs) bm, [(0, k + zlen bs)]), fs).
Proof.
  intros Hok Hg Hl. revert k bm. induction bs as [|b bs IH]; intros k bm Hb Hlen Hf.
  { cbn. change (zlen []) with 0. by rewrite Z.add_0_r. }
  apply Forall_cons in Hf as [[Hgr Hi] Hf]. unfold bits_per_group in Hi. cbn [for_each]. rewrite zlen_cons.
  erewrite M_bind_run.
  2:{ unfold mark_block. rewrite Hgr. cbn [count_group]. bfalse (0 <? 0). btrue (0 =? 0).
      mrun (get_group_ok fs 0 Hok (g_in _ _ Hg)). rewrite Hl. mstep. rewrite Z.eqb_refl. mstep.
      rewrite bit_set_run by (done || lia). mstep. reflexivity. }
  destruct (set_bits_spec [block_global_idx b] bm) as (Hl1 & Hb1 & _); [done|by repeat constructor; lia|].
  rewrite IH; [|done|unfold zlen in *; lia|done].
  by replace (k + 1 + zlen bs) with (k + (1 + zlen bs)) by lia.
Qed.

Lemma mark_first fs lba buf b bs : fs_ok fs -> group_ok fs 0 ->
  get_block_bitmap_lba (E:=HalFsIOErr) (group_of fs 0) = Ok lba -> 0 <= lba ->
  (forall buf, zlen buf = fs_block_size fs -> read_sectors buf lba fs = (Ok (bitmap fs 0), fs)) ->
  zlen buf = fs_block_size fs -> Forall (first_group fs) (b :: bs) ->
  for_each (b :: bs) (-1, buf, []) mark_block fs =
    (Ok (lba, set_bits (block_global_idx <$> b :: bs) (bitmap fs 0), [(0, zlen (b :: bs))]), fs).
Proof.
  intros Hok Hg Hl Hl0 Hr Hlen Hf. apply Forall_cons in Hf as [[Hgr Hi] Hf]. unfold bits_per_group in Hi.
  destruct (f_bs _ Hok) as [Hbs _].
  assert (zlen (bitmap fs 0) = fs_block_size fs) as Hbm by (apply zlen_content; lia).
  assert (bytes (bitmap fs 0)) as Hbb by apply content_bytes.
  cbn [for_each]. erewrite M_bind_run.
  2:{ unfold mark_block. rewrite Hgr. cbn [count_group].
      mrun (get_group_ok fs 0 Hok (g_in _ _ Hg)). rewrite Hl. mstep. bfalse (-1 =? lba). btrue (-1 =? -1).
      rewrite M_assoc. mstep. rewrite M_assoc. mrun (Hr buf Hlen). mstep.
      rewrite bit_set_run by (done || lia). mstep. reflexivity. }
  destruct (set_bits_spec [block_global_idx b] (bitmap fs 0)) as (Hl1 & Hb1 & _); [done|by repeat constructor; lia|].
  rewrite (mark_loop fs lba _ 1 bs); [|done..|unfold zlen in *; lia|done]. by rewrite zlen_cons.
Qed.

(** Reading the block the descriptor table starts with and lowering the first
    descriptor's count *)
Lemma account_first fs n buf : fs_ok fs -> s_first_data_block (super_block fs) < 2 ^ 32 - 1 ->
  table_off fs + fs_block_size fs <= bd_size (disk fs) -> zlen buf = fs_block_size fs ->
  0 <= n <= bg_free_blocks_count (desc fs 0) ->
  exists l, 0 <= l /\ base fs + 512 * l = table_off fs /\
    account_group (0, n) (-1, buf) fs =
      (Ok (l, u_put 2 12 (bg_free_blocks_count (desc fs 0) - n) (desc fs 0) ++
              drop 18 (content (disk fs) (table_off fs) (fs_block_size fs))), fs).
Proof.
  intros Hok Hf Hin Hlen Hn. destruct (f_bs _ Hok) as [Hbs Hm]. pose proof (bs_div fs Hok) as Hd.
  pose proof (first_data_block_range fs Hok).
  set (l := (s_first_data_block (super_block fs) + 1) * (fs_block_size fs / 512)).
  assert (base fs + 512 * l = table_off fs) as Ho by (unfold table_off, l; nia).
  assert (0 <= l < 2 ^ 62) as Hl by (unfold l; nia).
  assert (zlen (desc fs 0) = 18) as Hdl by (apply zlen_content; unfold GROUP_DESCRIPTOR_BYTES; lia).
  assert (0 <= bg_free_blocks_count (desc fs 0) < 2 ^ 16) as Hc by (apply (u_at_range 2 12); [apply content_bytes|lia..]).
  exists l. split; [lia|]. split; [done|]. unfold account_group. mrun (table_lba_ok fs Hok Hf). fold l.
  destruct (desc_split 0) as (-> & -> & _); [lia|]. change (32 * 0 / 512) with 0. change ((32 * 0) mod 512) with 0.
  mstep. mstep. rewrite sadd_ok by lia. mstep. rewrite Z.add_0_r. bfalse (l =? -1). btrue (-1 =? -1).
  rewrite M_assoc. mstep. rewrite M_assoc. erewrite M_bind_run by (apply read_sectors_ok; [done|lia|by rewrite Hlen|rewrite Ho, Hlen; lia]).
  mstep. rewrite Ho, Hlen. change (wrap 64 0) with 0. unfold GROUP_DESCRIPTOR_BYTES.
  assert (zlen (content (disk fs) (table_off fs) (fs_block_size fs)) = fs_block_size fs) as Hcl by (apply zlen_content; lia).
  rewrite slice_ok by lia. mstep. rewrite content_slice by lia.
  change (content (disk fs) (table_off fs + 0) (0 + 18 - 0)) with (content (disk fs) (desc_off fs 0) GROUP_DESCRIPTOR_BYTES).
  fold (desc fs 0). rewrite (wrap_small 16) by lia. rewrite usub_ok by lia. mstep.
  assert (zlen (u_put 2 12 (bg_free_blocks_count (desc fs 0) - n) (desc fs 0)) = 18) as Hul by (rewrite zlen_u_put; lia).
  rewrite splice_ok by lia. mstep. unfold mret, M_ret. cbn [Z.to_nat take app].
  replace (0 + length _)%nat with 18%nat by (unfold zlen in Hul; lia). done.
Qed.
End commit.

(** Writing the pending blocks back, when they are all in the first group
    and the group's bitmap and descriptor table are on the drive and do not
    overlap: exactly the pending blocks' bits are set in the bitmap, the
    group's free count drops by their number, the set is empty afterwards, and
    no byte outside the bitmap and the descriptor changes. *)
Theorem commit_first_group `{Build} {D} `{BlockDevLaws D} (fs : Ext2Fs D) buf :
  let pend := allocated_block_indices fs in
  fs_ok fs -> group_ok fs 0 -> pend <> [] -> Forall (first_group fs) pend -> zlen buf = fs_block_size fs ->
  table_off fs + fs_block_size fs <= bd_size (disk fs) ->
  misses (bitmap_off fs 0) (fs_block_size fs) (table_off fs) (fs_block_size fs) ->
  zlen pend <= bg_free_blocks_count (desc fs 0) ->
  exists fs', write_newly_allocated_blocks buf fs = (Ok (), fs') /\ allocated_block_indices fs' = [] /\
    (forall j, 0 <= j < bits_per_group fs ->
      bit_at (bitmap fs' 0) j = existsb (Z.eqb j) (block_global_idx <$> pend) || bit_at (bitmap fs 0) j) /\
    bg_free_blocks_count (desc fs' 0) = bg_free_blocks_count (desc fs 0) - zlen pend /\
    (forall off n, misses (bitmap_off fs 0) (fs_block_size fs) off n -> misses (table_off fs) GROUP_DESCRIPTOR_BYTES off n ->
      content (disk fs') off n = content (disk fs) off n).
Proof.
  intros pend Hok Hg Hne Hf Hlen Htab Hmiss Hcount. unfold pend in *. clear pend.
  destruct (allocated_block_indices fs) as [|b bs] eqn:Ep; [done|]. set (pend := b :: bs) in *.
  destruct (bitmap_read_ok fs 0 Hok Hg) as (lba & Hl & Hl0 & Ho & Hr). destruct (f_bs _ Hok) as [Hbs Hm].
  unfold write_newly_allocated_blocks. mstep. rewrite Ep. mrun (mark_first fs lba buf b bs Hok Hg Hl Hl0 Hr Hlen Hf).
  fold pend. destruct (set_bits_spec (block_global_idx <$> pend) (bitmap fs 0)) as (Hsl & Hsb & Hbit).
  { apply content_bytes. }
  { apply Forall_fmap. eapply Forall_impl; [exact Hf|]. intros x [_ Hx]. cbn. unfold bitmap. rewrite zlen_content by lia. done. }
  set (bm' := set_bits (block_global_idx <$> pend) (bitmap fs 0)) in *.
  assert (zlen bm' = fs_block_size fs) as Hbl by (unfold zlen; rewrite Hsl; apply zlen_content; lia).
  destruct (write_sectors_ok fs bm' lba) as (d1 & Hw1 & Hwr1); [done..|by rewrite Hbl|done| |].
  { rewrite Ho, Hbl. apply Hg. }
  mrun Hw1. rewrite Ho in Hwr1. set (fs1 := with_disk fs d1).
  assert (fs_ok fs1) as Hok1 by (apply with_disk_ok; [done|apply Hwr1]).
  assert (misses (bitmap_off fs 0) (zlen bm') (desc_off fs 0) GROUP_DESCRIPTOR_BYTES) as Hmd.
  { unfold misses, desc_off, GROUP_DESCRIPTOR_BYTES in *. lia. }
  assert (desc fs1 0 = desc fs 0) as Hd1 by by apply (desc_wrote fs d1 _ _ 0 Hwr1).
  destruct (account_first fs1 (zlen pend) bm' Hok1) as (l & Hl1 & Ho1 & Hacc);
    [apply Hg|cbn; rewrite (w_size _ _ _ _ Hwr1); done|done|rewrite Hd1; split; [apply zlen_nonneg|done]|].
  cbn [for_each]. rewrite M_assoc. mrun Hacc. mstep. rewrite Hd1.
  set (d' := u_put 2 12 (bg_free_blocks_count (desc fs 0) - zlen pend) (desc fs 0)).
  assert (zlen (desc fs 0) = 18) as Hdl by (apply zlen_content; unfold GROUP_DESCRIPTOR_BYTES; lia).
  assert (zlen d' = 18) as Hdl' by (unfold d'; rewrite zlen_u_put; lia).
  assert (zlen (d' ++ drop 18 (content (disk fs1) (table_off fs1) (fs_block_size fs1))) = fs_block_size fs) as Hblen.
  { rewrite zlen_app, zlen_drop, zlen_content; cbn; lia. }
  destruct (write_sectors_ok fs1 (d' ++ drop 18 (content (disk fs1) (table_off fs1) (fs_block_size fs1))) l)
    as (d2 & Hw2 & Hwr2); [done..|by rewrite Hblen| | |].
  { apply Forall_app. split; [apply u_put_bytes, content_bytes|apply Forall_drop, content_bytes]. }
  { rewrite Ho1, Hblen. cbn. by rewrite (w_size _ _ _ _ Hwr1). }
  mrun Hw2. mstep. rewrite Ho1 in Hwr2. set (fs2 := with_disk fs1 d2).
  assert (wrote d1 d2 (table_off fs) d') as Hwr3.
  { replace (table_off fs) with (table_off fs1 + 0) by (rewrite Z.add_0_r; done).
    apply (wrote_patch d1 d2 (table_off fs1) (fs_block_size fs) 0 d'); [lia|lia|].
    replace (Z.to_nat 0 + length d')%nat with 18%nat by (unfold zlen in Hdl'; lia). exact Hwr2. }
  eexists. split; [reflexivity|]. cbn [allocated_block_indices with_allocated disk with_disk].
  assert (desc fs2 0 = d') as Hd2.
  { unfold desc, desc_off. change (table_off fs2 + 32 * 0) with (table_off fs + 32 * 0). rewrite Z.mul_0_r, Z.add_0_r.
    change GROUP_DESCRIPTOR_BYTES with 18. rewrite <- Hdl'. apply (w_in _ _ _ _ Hwr3). }
  assert (0 <= bg_free_blocks_count (desc fs 0) < 2 ^ 16) as Hc by (apply (u_at_range 2 12); [apply content_bytes|lia..]).
  pose proof (zlen_nonneg pend).
  split; [done|]. split; [|split].
  - intros j Hj. rewrite <- Hbit by lia. f_equal.
    assert (bitmap_off fs2 0 = bitmap_off fs 0) as Hbo.
    { unfold bitmap_off. rewrite Hd2. unfold d', bg_block_bitmap. by rewrite u_at_put_ne by lia. }
    change (content d2 (bitmap_off fs2 0) (fs_block_size fs) = bm'). rewrite Hbo.
    rewrite (w_out _ _ _ _ _ _ Hwr3) by (unfold misses in Hmiss; lia).
    rewrite <- Hbl. apply (w_in _ _ _ _ Hwr1).
  - change (desc (with_allocated fs2 []) 0) with (desc fs2 0). rewrite Hd2. unfold d', bg_free_blocks_count at 1.
    rewrite u_at_put; [done|lia..|]. change (256 ^ Z.of_nat 2) with (2 ^ 16). lia.
  - intros off n Hm1 Hm2. change (disk fs2) with d2. rewrite (w_out _ _ _ _ _ _ Hwr3), (w_out _ _ _ _ _ _ Hwr1); [done|..];
      unfold misses, GROUP_DESCRIPTOR_BYTES in *; lia.
Qed.

Definition sample_pending : Ext2Fs MemDisk :=
  with_allocated sample_fs [block_of sample_fs 0 10; block_of sample_fs 0 12].
Lemma commit_first_group_witness : exists fs', @write_newly_allocated_blocks dev_build _ _ (zeros 1024) sample_pending = (Ok (), fs') /\
  allocated_block_indices fs' = [] /\ bit_at (bitmap fs' 0) 10 = true /\ bit_at (bitmap fs' 0) 11 = false.
Proof.
  destruct (@commit_first_group dev_build MemDisk _ _ sample_pending (zeros 1024)) as (fs' & H1 & H2 & H3 & _).
  - apply with_allocated_ok. exact sample_fs_ok.
  - apply group_ok_allocated. exact sample_group_ok.
  - discriminate.
  - repeat constructor; vm_compute; congruence.
  - reflexivity.
  - vm_compute. congruence.
  - right. vm_compute. congruence.
  - vm_compute. congruence.
  - exists fs'. split; [exact H1|]. split; [exact H2|]. rewrite !H3 by (vm_compute; split; congruence).
    split; vm_compute; reflexivity.
Defined.

(** A pending block of any group but the first makes
    [write_newly_allocated_blocks] panic when groups have at least one block
    per bitmap bit: the bit is looked up in the group's own bitmap by the
    block's index in the whole file system. *)
Theorem commit_later_group_panics `{Build} {D} `{BlockDevLaws D} (fs : Ext2Fs D) buf gr idx bs :
  fs_ok fs -> group_ok fs gr -> 1 <= gr -> 0 <= idx < bits_per_group fs -> bits_per_group fs <= bpg fs ->
  allocated_block_indices fs = block_of fs gr idx :: bs -> zlen buf = fs_block_size fs ->
  write_newly_allocated_blocks buf fs = (Panic, fs).
Proof.
  intros Hok Hg Hgr Hi Hbpg Hp Hlen. destruct (bitmap_read_ok fs gr Hok Hg) as (lba & Hl & Hl0 & _ & Hr).
  destruct (f_bs _ Hok) as [Hbs _].
  assert (mark_block (block_of fs gr idx) (-1, buf, []) fs = (Panic, fs)) as Hm.
  { unfold mark_block. cbn [block_of gr_number block_global_idx]. mrun (get_group_ok fs gr Hok (g_in _ _ Hg)).
    rewrite Hl. mstep. bfalse (-1 =? lba). btrue (-1 =? -1). rewrite M_assoc. mstep. rewrite M_assoc.
    mrun (Hr buf Hlen). mstep. rewrite bit_set_panic; [done|]. unfold bitmap, bits_per_group in *. rewrite zlen_content; nia. }
  unfold write_newly_allocated_blocks. mstep. rewrite Hp. cbn [for_each]. rewrite !M_assoc.
  unfold mbind at 1, M_bind. by rewrite Hm.
Qed.

(** Two groups of 8192 blocks *)
Definition sample_sb2 : SuperBlock := u_put 4 32 8192 (u_put 4 4 16384 sample_sb).
Definition sample_fs2 : Ext2Fs MemDisk :=
  {| disk := u_put 4 2080 3 sample_disk; start_lba := 0; super_block := sample_sb2; fs_block_size := 1024;
     block_groups_count := 2; allocated_block_indices := []; unwritten_freed_blocks := [] |}.
Lemma commit_later_group_panics_witness :
  fst (@write_newly_allocated_blocks dev_build _ _ (zeros 1024)
    (with_allocated sample_fs2 [block_of sample_fs2 1 20])) = Panic.
Proof.
  refine (f_equal fst (@commit_later_group_panics dev_build MemDisk _ _
    (with_allocated sample_fs2 [block_of sample_fs2 1 20]) (zeros 1024) 1 20 [] _ _ _ _ _ eq_refl eq_refl)).
  - split.
    + split; [split; vm_compute; congruence|reflexivity].
    + cbn. lia.
    + vm_compute. reflexivity.
    + split; [apply bytes_check; vm_compute; reflexivity|reflexivity].
  - split; [split; [lia|split; vm_compute; congruence]|vm_compute; congruence|split; vm_compute; congruence].
  - lia.
  - vm_compute. split; congruence.
  - vm_compute. congruence.
Defined.

(** ** Committing when nothing is pending *)
Section nothing.
Context `{Build} {D : Type} `{BlockDevLaws D}.
Lemma write_before_ok (fs : Ext2Fs D) buf : fs_ok fs -> 1 <= start_lba fs -> zlen buf mod 512 = 0 -> bytes buf ->
  base fs - 512 + zlen buf <= bd_size (disk fs) ->
  exists d', write_sectors buf (-1) fs = (Ok (), with_disk fs d') /\ wrote (disk fs) d' (base fs - 512) buf.
Proof.
  intros Hok Hs Hm Hb Hsz. pose proof (f_size _ Hok). pose proof (zlen_nonneg buf). unfold base, SECTOR_SIZE in *.
  unfold write_sectors. mstep. rewrite sadd_ok by lia. mstep.
  destruct (bd_write_ok (disk fs) (start_lba fs + -1) buf) as (d' & -> & Hsize & Hby);
    [unfold bd_valid, SECTOR_SIZE; split_and!; [lia|lia|done|lia]|done|].
  exists d'. split; [done|]. unfold SECTOR_SIZE in *.
  replace (512 * (start_lba fs + -1)) with (512 * start_lba fs - 512) in Hby by lia. by split.
Qed.
Lemma wrote_again (d d1 d2 : D) off bs : wrote d d1 off bs -> wrote d1 d2 off bs -> wrote d d2 off bs.
Proof.
  intros [S1 B1] [S2 B2]. split; [congruence|]. intros j. rewrite B2. destruct (_ && _) eqn:E; [done|]. by rewrite B1, E.
Qed.

(** Committing the pending blocks when there are none writes the buffer
    over the last sector before the partition, and over the partition's first
    ones: the address is still the initial -1.  [write] commits after every
    call, also one that allocated nothing, with a buffer of zeros. *)
Theorem commit_nothing_overwrites (fs : Ext2Fs D) buf : fs_ok fs -> 1 <= start_lba fs -> zlen buf mod 512 = 0 -> bytes buf ->
  base fs - 512 + zlen buf <= bd_size (disk fs) -> allocated_block_indices fs = [] ->
  exists d', write_newly_allocated_blocks buf fs = (Ok (), with_allocated (with_disk fs d') []) /\
    wrote (disk fs) d' (base fs - 512) buf.
Proof.
  intros Hok Hs Hm Hb Hsz Hp.
  destruct (write_before_ok fs buf Hok Hs Hm Hb Hsz) as (d1 & R1 & W1).
  destruct (write_before_ok (with_disk fs d1) buf) as (d2 & R2 & W2); try done.
  { apply with_disk_ok; [done|]. apply (w_size _ _ _ _ W1). }
  { cbn. rewrite (w_size _ _ _ _ W1). exact Hsz. }
  exists d2. split; [|by eapply wrote_again]. unfold write_newly_allocated_blocks. mstep. rewrite Hp. cbn [for_each].
  mstep. cbv beta iota. mrun R1. cbn [for_each]. mstep. cbv beta iota. mrun R2. by mstep.
Qed.
End nothing.
Definition shifted_fs : Ext2Fs MemDisk :=
  {| disk := zeros 512 ++ sample_disk; start_lba := 1; super_block := sample_sb; fs_block_size := 1024;
     block_groups_count := 1; allocated_block_indices := []; unwritten_freed_blocks := [] |}.
Lemma commit_nothing_overwrites_witness : exists d',
  @write_newly_allocated_blocks dev_build _ _ (zeros 1024) shifted_fs = (Ok (), with_allocated (with_disk shifted_fs d') []) /\
  wrote (disk shifted_fs) d' 0 (zeros 1024).
Proof.
  apply (@commit_nothing_overwrites dev_build MemDisk _ _ shifted_fs (zeros 1024)).
  - split; [split; [|reflexivity]; split; vm_compute; congruence|cbn; lia|vm_compute; reflexivity|].
    split; [|reflexivity]. apply bytes_check. vm_compute. reflexivity.
  - cbn. lia.
  - reflexivity.
  - apply bytes_check. reflexivity.
  - vm_compute. congruence.
  - reflexivity.
Defined.
