(* ===== verification/Ext2Iter.v ===== *)
(** * ext2: the blocks of an inode

    src/kernel/src/drivers/fs/ext2/block_iterator.rs: the iterator over the
    blocks of an inode through its direct, indirect, doubly and triply
    indirect pointers, with one cached block per level, for reading ([get],
    [next]) and for allocating missing blocks ([set], [next_set]).

    [bytemuck] refuses a reference to a [u32] that is not aligned; heap buffers
    are taken to start at an aligned address, so exactly the offsets that are
    not multiples of four panic.

    The iterator's clone of the block allocator shares the two pending sets
    with the file system (they are behind an [Arc]), so allocating through the
    iterator is allocating in the file system.  An iterator is a local of its
    callers, which leave on an error: no iterator is returned with one. *)

From S2P Require Import Prelude Bytes Serialize Crypto Disk Ext2Layout Ext2Fs Ext2Alloc.

(** The limits of read.rs, for blocks of [BLOCK_SIZE] bytes *)
Definition BLOCK_SIZE : Z := 1024.
Definition INODE_BLOCK_LIMIT : Z := 12.
Definition IND_BLOCK_ADDR_COUNT : Z := BLOCK_SIZE / 4.
Definition INODE_IND_BLOCK_LIMIT : Z := INODE_BLOCK_LIMIT + IND_BLOCK_ADDR_COUNT.
Definition INODE_DOUBLE_IND_BLOCK_LIMIT : Z := INODE_IND_BLOCK_LIMIT + IND_BLOCK_ADDR_COUNT * IND_BLOCK_ADDR_COUNT.
Definition INODE_TRIPLE_IND_BLOCK_LIMIT : Z :=
  INODE_DOUBLE_IND_BLOCK_LIMIT + IND_BLOCK_ADDR_COUNT * IND_BLOCK_ADDR_COUNT * IND_BLOCK_ADDR_COUNT.
Definition ADDR_PER_BLOCK : Z := BLOCK_SIZE / 4.

(** A cached block: its contents, if read, and the index it was read from *)
Record Cache := { cbuf : option (list Z); cidx : Z }.

Record InodeBlockIterator := {
  blocks : list Z;
  it_group_number : Z;
  it_block_size : Z;
  cur_ind : Cache;
  cur_double_ind : Cache;
  cur_triple_ind : Cache;
  blocks_limit : Z;
  cur_idx : Z;
  cur_block_idx : Z;
}.
Record BlockIterElement := { el_buf : list Z; is_terminated : bool; el_block_idx : Z }.
Record BlockIterSetRes := { allocated_blocks : list AllocatedBlock; set_block_idx : Z }.

Section setters.
Context (it : InodeBlockIterator).
Definition with_blocks (b : list Z) : InodeBlockIterator :=
  Build_InodeBlockIterator b (it_group_number it) (it_block_size it) (cur_ind it) (cur_double_ind it)
    (cur_triple_ind it) (blocks_limit it) (cur_idx it) (cur_block_idx it).
Definition with_ind (c : Cache) : InodeBlockIterator :=
  Build_InodeBlockIterator (blocks it) (it_group_number it) (it_block_size it) c (cur_double_ind it)
    (cur_triple_ind it) (blocks_limit it) (cur_idx it) (cur_block_idx it).
Definition with_double (c : Cache) : InodeBlockIterator :=
  Build_InodeBlockIterator (blocks it) (it_group_number it) (it_block_size it) (cur_ind it) c
    (cur_triple_ind it) (blocks_limit it) (cur_idx it) (cur_block_idx it).
Definition with_triple (c : Cache) : InodeBlockIterator :=
  Build_InodeBlockIterator (blocks it) (it_group_number it) (it_block_size it) (cur_ind it) (cur_double_ind it)
    c (blocks_limit it) (cur_idx it) (cur_block_idx it).
Definition with_cur_idx (i : Z) : InodeBlockIterator :=
  Build_InodeBlockIterator (blocks it) (it_group_number it) (it_block_size it) (cur_ind it) (cur_double_ind it)
    (cur_triple_ind it) (blocks_limit it) i (cur_block_idx it).
Definition with_cur_block_idx (i : Z) : InodeBlockIterator :=
  Build_InodeBlockIterator (blocks it) (it_group_number it) (it_block_size it) (cur_ind it) (cur_double_ind it)
    (cur_triple_ind it) (blocks_limit it) (cur_idx it) i.
End setters.

(** [*bytemuck::from_bytes::<u32>(&buf[off..off + 4])], and the store to it *)
Definition u32_at {E} (buf : list Z) (off : Z) : res E Z :=
  s ← slice buf off (off + 4);
  if off mod 4 =? 0 then Ok (le_num s) else Panic.
Definition put_u32 {E} (buf : list Z) (off v : Z) : res E (list Z) := splice buf off (le_bytes 4 v).

Section iter.
Context `{Build} {D : Type} `{BlockDev D}.
Abbreviation EM := (M (Ext2Fs D) HalFsIOErr).

(** [u32::div_ceil] *)
Definition div_ceil {E} (a b : Z) : res E Z :=
  d ← udiv a b; r ← urem a b; Ok (if 0 <? r then d + 1 else d).
Definition create_block_iterator {E} (fs : Ext2Fs D) (ino : Inode) (gr : Z) : res E InodeBlockIterator :=
  bs ← block_size_of (super_block fs);
  limit ← div_ceil (i_size ino) bs;
  Ok {| blocks := i_block ino; it_group_number := gr; it_block_size := bs;
        cur_ind := {| cbuf := None; cidx := 0 |}; cur_double_ind := {| cbuf := None; cidx := 0 |};
        cur_triple_ind := {| cbuf := None; cidx := 0 |};
        blocks_limit := limit; cur_idx := 0; cur_block_idx := 0 |}.
Definition get_blocks_array (it : InodeBlockIterator) : list Z := blocks it.

Definition fill0 (buf : list Z) : list Z := replicate (length buf) 0.

(** ** Reading *)
Definition handle_block (it : InodeBlockIterator) (buf : list Z) (block_idx : Z) : EM (list Z * InodeBlockIterator) :=
  let it := with_cur_block_idx it block_idx in
  if block_idx =? 0 then mret (fill0 buf, it)
  else buf ← read_block buf block_idx; mret (buf, it).

(** Make a level's cache hold block [idx]: on first use block [first] of the
    inode is read, then block [idx] if that is another one *)
Definition load (it : InodeBlockIterator) (c : Cache) (first idx : Z) : EM Cache :=
  c ← (match cbuf c with
       | None => b ← read_block (zeros (it_block_size it)) first; mret {| cbuf := Some b; cidx := first |}
       | Some _ => mret c
       end);
  if idx =? cidx c then mret c
  else
    b ← lift (expect (cbuf c));
    b ← read_block b idx;
    mret {| cbuf := Some b; cidx := idx |}.

Definition handle_ind_block (it : InodeBlockIterator) (buf : list Z) (offset_in_ind_block ind_block_idx : Z) :
    EM (list Z * InodeBlockIterator) :=
  if ind_block_idx =? 0 then mret (fill0 buf, it)
  else
    first ← lift (index (blocks it) INODE_BLOCK_LIMIT);
    c ← load it (cur_ind it) first ind_block_idx;
    ind_buf ← lift (expect (cbuf c));
    block_idx ← lift (u32_at ind_buf offset_in_ind_block);
    handle_block (with_ind it c) buf block_idx.

Definition handle_double_ind_block (it : InodeBlockIterator) (buf : list Z)
    (offset_in_double_ind_block offset_in_ind_block double_ind_block_idx : Z) : EM (list Z * InodeBlockIterator) :=
  if double_ind_block_idx =? 0 then mret (fill0 buf, it)
  else
    first ← lift (index (blocks it) (INODE_BLOCK_LIMIT + 1));
    c ← load it (cur_double_ind it) first double_ind_block_idx;
    double_ind_buf ← lift (expect (cbuf c));
    ind_block_idx ← lift (u32_at double_ind_buf offset_in_double_ind_block);
    handle_ind_block (with_double it c) buf offset_in_ind_block ind_block_idx.

Definition handle_triple_ind_block (it : InodeBlockIterator) (buf : list Z) : EM (list Z * InodeBlockIterator) :=
  let n := it_block_size it / 4 in
  p ← lift (index (blocks it) (INODE_BLOCK_LIMIT + 2));
  if p =? 0 then mret (fill0 buf, it)
  else
    c ← (match cbuf (cur_triple_ind it) with
         | None => b ← read_block (zeros (it_block_size it)) p;
                   mret {| cbuf := Some b; cidx := cidx (cur_triple_ind it) |}
         | Some _ => mret (cur_triple_ind it)
         end);
    triple_ind_buf ← lift (expect (cbuf c));
    k ← lift (usub 64 (cur_idx it) INODE_DOUBLE_IND_BLOCK_LIMIT);
    r ← lift (urem k n);
    q ← lift (udiv k n);
    d ← lift (urem q n);
    t ← lift (udiv k (n * n));
    double_ind_block_idx ← lift (u32_at triple_ind_buf (t * 4));
    handle_double_ind_block (with_triple it c) buf (d * 4) (r * 4) double_ind_block_idx.

Definition element (r : list Z * InodeBlockIterator) : EM (BlockIterElement * InodeBlockIterator) :=
  let '(buf, it) := r in
  mret ({| el_buf := buf; is_terminated := false; el_block_idx := cur_block_idx it |}, it).
Definition get_block (it : InodeBlockIterator) (buf : list Z) : EM (BlockIterElement * InodeBlockIterator) :=
  let n := it_block_size it / 4 in
  if wrap 32 (cur_idx it) <? INODE_BLOCK_LIMIT then
    p ← lift (index (blocks it) (cur_idx it));
    r ← handle_block it buf p; element r
  else if wrap 32 (cur_idx it) <? INODE_IND_BLOCK_LIMIT then
    o ← lift (usub 64 (cur_idx it) INODE_BLOCK_LIMIT);
    p ← lift (index (blocks it) INODE_BLOCK_LIMIT);
    r ← handle_ind_block it buf o p; element r
  else if wrap 32 (cur_idx it) <? INODE_DOUBLE_IND_BLOCK_LIMIT then
    k ← lift (usub 64 (cur_idx it) INODE_IND_BLOCK_LIMIT);
    r ← lift (urem k n);
    q ← lift (udiv k n);
    p ← lift (index (blocks it) (INODE_BLOCK_LIMIT + 1));
    r ← handle_double_ind_block it buf (q * 4) (r * 4) p; element r
  else if wrap 32 (cur_idx it) <? INODE_TRIPLE_IND_BLOCK_LIMIT then
    r ← handle_triple_ind_block it buf; element r
  else mret ({| el_buf := buf; is_terminated := true; el_block_idx := 0 |}, it).

Definition next_block (it : InodeBlockIterator) (buf : list Z) : EM (BlockIterElement * InodeBlockIterator) :=
  if blocks_limit it <=? cur_idx it then
    mret ({| el_buf := buf; is_terminated := true; el_block_idx := 0 |}, it)
  else
    '(e, it) ← get_block it buf;
    i ← lift (uadd 64 (cur_idx it) 1);
    mret (e, with_cur_idx it i).
Definition skip {E} (it : InodeBlockIterator) (count : Z) : res E InodeBlockIterator :=
  i ← uadd 64 (cur_idx it) count; Ok (with_cur_idx it i).
Definition skip_to_end (it : InodeBlockIterator) : InodeBlockIterator := with_cur_idx it (blocks_limit it).

(** ** Allocating *)
Definition clear_block (it : InodeBlockIterator) (block_idx : Z) : EM () :=
  write_block (zeros (it_block_size it)) block_idx.
(** [allocate_n_blocks_in_group(group, 1).await?.remove(0)] *)
Definition allocate_one (it : InodeBlockIterator) : EM AllocatedBlock :=
  bs ← allocate_n_blocks_in_group (it_group_number it) 1;
  lift (expect (head bs)).
(** Make a level's cache hold block [idx] *)
Definition reload (it : InodeBlockIterator) (c : Cache) (idx : Z) : EM Cache :=
  if cidx c =? idx then mret c
  else b ← read_block (zeros (it_block_size it)) idx; mret {| cbuf := Some b; cidx := idx |}.
(** On first use of a level, read the inode's own block of it *)
Definition load_first (it : InodeBlockIterator) (c : Cache) (first : Z) : EM Cache :=
  match cbuf c with
  | None => b ← read_block (zeros (it_block_size it)) first; mret {| cbuf := Some b; cidx := first |}
  | Some _ => mret c
  end.
(** The pointer at slot [off] of a cached block, allocated if it is missing *)
Definition pointer_in (it : InodeBlockIterator) (c : Cache) (off : Z) (clear : bool) (new : list AllocatedBlock) :
    EM (Z * Cache * list AllocatedBlock) :=
  buf ← lift (expect (cbuf c));
  num ← lift (u32_at buf (off * 4));
  if num =? 0 then
    b ← allocate_one it;
    buf ← lift (put_u32 buf (off * 4) (block_global_idx b));
    _ ← write_block buf (cidx c);
    _ ← (if clear then clear_block it (block_global_idx b) else mret ());
    mret (block_global_idx b, {| cbuf := Some buf; cidx := cidx c |}, new ++ [b])
  else mret (num, c, new).

Definition handle_set_block (it : InodeBlockIterator) (ind_block_idx offset_in_ind_block : Z)
    (new : list AllocatedBlock) : EM (InodeBlockIterator * list AllocatedBlock) :=
  c ← reload it (cur_ind it) ind_block_idx;
  '(res, c, new) ← pointer_in it c offset_in_ind_block false new;
  mret (with_cur_block_idx (with_ind it c) res, new).
Definition handle_set_indirect_block (it : InodeBlockIterator)
    (double_ind_block_idx offset_in_double_ind_block offset_in_ind_block : Z)
    (new : list AllocatedBlock) : EM (InodeBlockIterator * list AllocatedBlock) :=
  c ← reload it (cur_double_ind it) double_ind_block_idx;
  '(ind_block_idx, c, new) ← pointer_in it c offset_in_double_ind_block true new;
  handle_set_block (with_double it c) ind_block_idx offset_in_ind_block new.
Definition handle_set_double_indirect_block (it : InodeBlockIterator)
    (offset_in_triple_ind_block offset_in_double_ind_block offset_in_ind_block : Z)
    (new : list AllocatedBlock) : EM (InodeBlockIterator * list AllocatedBlock) :=
  '(double_ind_block_idx, c, new) ← pointer_in it (cur_triple_ind it) offset_in_triple_ind_block true new;
  handle_set_indirect_block (with_triple it c) double_ind_block_idx offset_in_double_ind_block offset_in_ind_block new.
Definition handle_block_in_blocks_array (it : InodeBlockIterator) (idx : Z) (new : list AllocatedBlock) :
    EM (InodeBlockIterator * list AllocatedBlock) :=
  p ← lift (index (blocks it) idx);
  if p =? 0 then
    b ← allocate_one it;
    bl ← lift (update (blocks it) idx (block_global_idx b));
    _ ← clear_block it (block_global_idx b);
    mret (with_blocks it bl, new ++ [b])
  else mret (it, new).

Definition set_direct (it : InodeBlockIterator) : EM (InodeBlockIterator * list AllocatedBlock) :=
  p ← lift (index (blocks it) (cur_idx it));
  '(it, new) ← (if p =? 0 then
                  b ← allocate_one it;
                  bl ← lift (update (blocks it) (cur_idx it) (block_global_idx b));
                  mret (with_blocks it bl, [b])
                else mret (it, []));
  p ← lift (index (blocks it) (cur_idx it));
  mret (with_cur_block_idx it p, new).
Definition set_block (it : InodeBlockIterator) : EM (BlockIterSetRes * InodeBlockIterator) :=
  let n := it_block_size it / 4 in
  '(it, new) ← (
    if cur_idx it <? INODE_BLOCK_LIMIT then set_direct it
    else if cur_idx it <? INODE_IND_BLOCK_LIMIT then
      '(it, new) ← handle_block_in_blocks_array it INODE_BLOCK_LIMIT [];
      p ← lift (index (blocks it) INODE_BLOCK_LIMIT);
      c ← load_first it (cur_ind it) p;
      o ← lift (usub 64 (cur_idx it) INODE_BLOCK_LIMIT);
      handle_set_block (with_ind it c) p o new
    else if cur_idx it <? INODE_DOUBLE_IND_BLOCK_LIMIT then
      '(it, new) ← handle_block_in_blocks_array it (INODE_BLOCK_LIMIT + 1) [];
      p ← lift (index (blocks it) (INODE_BLOCK_LIMIT + 1));
      c ← load_first it (cur_double_ind it) p;
      k ← lift (usub 64 (cur_idx it) INODE_IND_BLOCK_LIMIT);
      q ← lift (udiv k n);
      r ← lift (urem k n);
      handle_set_indirect_block (with_double it c) p q r new
    else
      '(it, new) ← handle_block_in_blocks_array it (INODE_BLOCK_LIMIT + 2) [];
      p ← lift (index (blocks it) (INODE_BLOCK_LIMIT + 2));
      c ← load_first it (cur_triple_ind it) p;
      k ← lift (usub 64 (cur_idx it) INODE_DOUBLE_IND_BLOCK_LIMIT);
      t ← lift (udiv k (n * n));
      q ← lift (udiv k n);
      d ← lift (urem q n);
      r ← lift (urem k n);
      handle_set_double_indirect_block (with_triple it c) t d r new);
  mret ({| allocated_blocks := new; set_block_idx := cur_block_idx it |}, it).
Definition next_set (it : InodeBlockIterator) : EM (BlockIterSetRes * InodeBlockIterator) :=
  '(r, it) ← set_block it;
  i ← lift (uadd 64 (cur_idx it) 1);
  mret (r, with_cur_idx it i).
End iter.

(** ** The pointer tree *)
Section tree.
Context `{Build} {D : Type} `{BlockDevLaws D}.
Implicit Types fs : Ext2Fs D.

(** Block [b] is on the drive, its contents, and pointer [k] of it. *)
Definition in_disk fs (b : Z) : Prop :=
  0 <= b < 2 ^ 32 /\ base fs + (b + 1) * fs_block_size fs <= bd_size (disk fs).
Definition block_bytes fs (b : Z) : list Z := content (disk fs) (base fs + b * fs_block_size fs) (fs_block_size fs).
Definition entry fs (b k : Z) : Z := u_at 4 (4 * k) (block_bytes fs b).

(** Following a pointer; a missing block has only missing pointers. *)
Definition child fs (p k : Z) : Z := if p =? 0 then 0 else entry fs p k.
(** The pointers followed from the inode to block [i] of the file, the block
    itself last, where blocks have [n] pointers *)
Definition tree_path fs (ps : list Z) (n i : Z) : list Z :=
  let slot k := nth (Z.to_nat k) ps 0 in
  if i <? 12 then [slot i]
  else if i <? 12 + n then let p := slot 12 in [p; child fs p (i - 12)]
  else if i <? 12 + n + n * n then
    let k := i - (12 + n) in
    let p := slot 13 in let q := child fs p (k / n) in [p; q; child fs q (k mod n)]
  else
    let k := i - (12 + n + n * n) in
    let p := slot 14 in let q := child fs p (k / (n * n)) in
    let r := child fs q (k / n mod n) in [p; q; r; child fs r (k mod n)].
Definition tree_block fs ps n i : Z := List.last (tree_path fs ps n i) 0.
(** The contents of a block of the file: zeros where it is missing *)
Definition file_block fs (b : Z) : list Z := if b =? 0 then zeros (fs_block_size fs) else block_bytes fs b.

Lemma read_block_ok fs buf b : fs_ok fs -> in_disk fs b -> zlen buf = fs_block_size fs ->
  read_block buf b fs = (Ok (block_bytes fs b), fs).
Proof.
  intros Hok [Hb Hd] Hl. destruct (f_bs _ Hok) as [Hbs Hm]. pose proof (bs_div fs Hok).
  unfold read_block. mstep. rewrite block_idx_to_lba_ok by lia. mstep.
  rewrite read_sectors_ok by first [done | rewrite ?Hl; nia]. rewrite Hl. unfold block_bytes. do 3 f_equal. nia.
Qed.
Lemma zlen_block fs b : fs_ok fs -> zlen (block_bytes fs b) = fs_block_size fs.
Proof. intros Hok. destruct (f_bs _ Hok). apply zlen_content. lia. Qed.
Lemma u32_at_ok {E} fs b k : fs_ok fs -> 0 <= k -> 4 * k + 4 <= fs_block_size fs ->
  u32_at (E:=E) (block_bytes fs b) (k * 4) = Ok (entry fs b k).
Proof.
  intros Hok Hk Hs. pose proof (zlen_block fs b Hok). unfold u32_at.
  rewrite slice_ok by lia. rsimpl. rewrite Z.mod_mul by lia. cbn [Z.eqb].
  unfold entry, u_at. do 2 f_equal. rewrite (Z.mul_comm k 4). f_equal. lia.
Qed.

(** ** Coherent iterators *)
Definition coherent fs (c : Cache) : Prop :=
  match cbuf c with Some b => b = block_bytes fs (cidx c) | None => True end.
(** The caches hold what the drive has; the triple cache, whose index reading
    does not record, holds the block of slot 14. *)
Record it_ok fs (it : InodeBlockIterator) : Prop := {
  ito_bs : it_block_size it = fs_block_size fs;
  ito_blocks : length (blocks it) = 15%nat /\ Forall (in_disk fs) (blocks it);
  ito_ind : coherent fs (cur_ind it);
  ito_double : coherent fs (cur_double_ind it);
  ito_triple : forall b, cbuf (cur_triple_ind it) = Some b -> b = block_bytes fs (nth 14 (blocks it) 0);
}.
Lemma slot_ok {E} fs it k : it_ok fs it -> 0 <= k < 15 ->
  index (E:=E) (blocks it) k = Ok (nth (Z.to_nat k) (blocks it) 0) /\ in_disk fs (nth (Z.to_nat k) (blocks it) 0).
Proof.
  intros [_ [Hl Hf] _ _ _] Hk. destruct (lookup_lt_is_Some_2 (blocks it) (Z.to_nat k)) as [p Hp]; [lia|].
  unfold index. btrue (0 <=? k). rewrite Hp. rewrite (nth_lookup_Some _ _ _ _ Hp).
  split; [done|]. by eapply Forall_lookup_1.
Qed.
Lemma load_ok fs it c first idx : fs_ok fs -> it_block_size it = fs_block_size fs -> coherent fs c ->
  in_disk fs first -> in_disk fs idx ->
  load it c first idx fs = (Ok {| cbuf := Some (block_bytes fs idx); cidx := idx |}, fs).
Proof.
  intros Hok Hb Hc Hf Hi. destruct (f_bs _ Hok). unfold load.
  assert (zlen (zeros (it_block_size it)) = fs_block_size fs) as Hz by (rewrite Hb; apply zlen_zeros; lia).
  assert (forall b, zlen b = fs_block_size fs -> read_block b idx fs = (Ok (block_bytes fs idx), fs)) as Hr
    by (intros; by apply read_block_ok).
  destruct c as [[b|] i]; cbn [cbuf cidx coherent] in *.
  - mstep. cbn [cbuf cidx]. destruct (Z.eqb_spec idx i) as [->|]; [by rewrite Hc|].
    cbn [expect]. mstep. mrun (Hr b ltac:(rewrite Hc; by apply zlen_block)). done.
  - rewrite M_assoc. mrun (read_block_ok fs _ first Hok Hf Hz). mstep. cbn [cbuf cidx].
    destruct (Z.eqb_spec idx first) as [->|]; [done|]. cbn [expect]. mstep.
    mrun (Hr (block_bytes fs first) (zlen_block _ _ Hok)). done.
Qed.

(** [m] reads block [b] of the file: its contents or zeros, the index of a
    block that is there recorded, the iterator otherwise where it was. *)
Definition reads fs it (m : M (Ext2Fs D) HalFsIOErr (list Z * InodeBlockIterator)) (b : Z) : Prop :=
  exists it', m fs = (Ok (file_block fs b, it'), fs) /\ it_ok fs it' /\
    blocks it' = blocks it /\ cur_idx it' = cur_idx it /\ blocks_limit it' = blocks_limit it /\
    (b <> 0 -> cur_block_idx it' = b).

Lemma child_some fs p k : p <> 0 -> child fs p k = entry fs p k.
Proof. intros Hp. unfold child. by bfalse (p =? 0). Qed.
Lemma fill0_ok fs buf : zlen buf = fs_block_size fs -> fill0 buf = file_block fs 0.
Proof. intros Hl. unfold fill0, file_block, zeros, zlen in *. cbn. f_equal. lia. Qed.
Lemma handle_block_ok fs it buf b : fs_ok fs -> it_ok fs it -> zlen buf = fs_block_size fs -> in_disk fs b ->
  reads fs it (handle_block it buf b) b.
Proof.
  intros Hok Hi Hl Hb. exists (with_cur_block_idx it b).
  split; [|split; [destruct Hi; by split|by split_and!]]. unfold handle_block, file_block.
  destruct (Z.eqb_spec b 0) as [->|Hn]; [by rewrite (fill0_ok fs)|]. by mrun (read_block_ok fs buf b Hok Hb Hl).
Qed.
Lemma reads_hole fs it buf : it_ok fs it -> zlen buf = fs_block_size fs -> reads fs it (mret (fill0 buf, it)) 0.
Proof. intros Hi Hl. exists it. rewrite (fill0_ok fs) by done. by split_and!. Qed.
Section levels.
Context (fs : Ext2Fs D) (it : InodeBlockIterator) (buf : list Z).
Context (Hok : fs_ok fs) (Hi : it_ok fs it) (Hl : zlen buf = fs_block_size fs).

Lemma handle_ind_block_ok k p : 0 <= k -> 4 * k + 4 <= fs_block_size fs ->
  in_disk fs p -> in_disk fs (child fs p k) ->
  reads fs it (handle_ind_block it buf (k * 4) p) (child fs p k).
Proof using All.
  intros Hk Hs Hp Hc. unfold handle_ind_block, child in *. destruct (Z.eqb_spec p 0); [by apply reads_hole|].
  destruct (slot_ok (E:=HalFsIOErr) fs it 12 Hi ltac:(lia)) as [H12 Hd12].
  destruct (handle_block_ok fs (with_ind it {| cbuf := Some (block_bytes fs p); cidx := p |}) buf (entry fs p k))
    as (it' & Hr & Hrest); [done|destruct Hi; by split|done|done|].
  exists it'. split; [|exact Hrest]. unfold INODE_BLOCK_LIMIT. rewrite H12. mstep.
  mrun (load_ok fs it (cur_ind it) _ p Hok (ito_bs _ _ Hi) (ito_ind _ _ Hi) Hd12 Hp). cbn [cbuf expect]. mstep.
  rewrite u32_at_ok by done. mstep. exact Hr.
Qed.
End levels.

Section double.
Context (fs : Ext2Fs D) (it : InodeBlockIterator) (buf : list Z).
Context (Hok : fs_ok fs) (Hi : it_ok fs it) (Hl : zlen buf = fs_block_size fs).

Lemma handle_double_ind_block_ok j k p : 0 <= j -> 4 * j + 4 <= fs_block_size fs ->
  0 <= k -> 4 * k + 4 <= fs_block_size fs -> in_disk fs p -> in_disk fs (child fs p j) ->
  in_disk fs (child fs (child fs p j) k) ->
  reads fs it (handle_double_ind_block it buf (j * 4) (k * 4) p) (child fs (child fs p j) k).
Proof using All.
  intros Hj Hjs Hk Hks Hp Hc Hcc. unfold handle_double_ind_block.
  destruct (Z.eqb_spec p 0) as [->|Hn]; [by apply reads_hole|]. rewrite (child_some fs p j Hn) in Hc, Hcc |- *.
  destruct (slot_ok (E:=HalFsIOErr) fs it 13 Hi ltac:(lia)) as [H13 Hd13].
  destruct (handle_ind_block_ok fs (with_double it {| cbuf := Some (block_bytes fs p); cidx := p |}) buf) with
    (k := k) (p := entry fs p j) as (it' & Hr & Hrest); [done|destruct Hi; by split|done..|].
  exists it'. split; [|exact Hrest]. change (INODE_BLOCK_LIMIT + 1) with 13. rewrite H13. mstep.
  mrun (load_ok fs it (cur_double_ind it) _ p Hok (ito_bs _ _ Hi) (ito_double _ _ Hi) Hd13 Hp). cbn [cbuf expect]. mstep.
  rewrite u32_at_ok by done. mstep. exact Hr.
Qed.
End double.

Section triple.
Context (fs : Ext2Fs D) (it : InodeBlockIterator) (buf : list Z).
Context (Hok : fs_ok fs) (Hi : it_ok fs it) (Hl : zlen buf = fs_block_size fs) (Hbs : fs_block_size fs = BLOCK_SIZE).

(** On first use the triple cache is filled from slot 14, and its index kept. *)
Lemma load_triple_ok : let p := nth 14 (blocks it) 0 in
  exists c, cbuf c = Some (block_bytes fs p) /\ it_ok fs (with_triple it c) /\
    (match cbuf (cur_triple_ind it) with
     | None => b ← read_block (zeros (it_block_size it)) p; mret {| cbuf := Some b; cidx := cidx (cur_triple_ind it) |}
     | Some _ => mret (cur_triple_ind it)
     end) fs = (Ok c, fs).
Proof using All.
  intros p. destruct (slot_ok (E:=HalFsIOErr) fs it 14 Hi ltac:(lia)) as [_ Hd]. destruct (f_bs _ Hok).
  exists {| cbuf := Some (block_bytes fs p); cidx := cidx (cur_triple_ind it) |}.
  split; [done|]. split.
  - destruct Hi as [? ? ? ? Ht]. split; try done. cbn. by intros b [= <-].
  - destruct (cbuf (cur_triple_ind it)) as [b|] eqn:Ec.
    + pose proof (ito_triple _ _ Hi b Ec) as Hb. subst p. destruct (cur_triple_ind it); cbn in *. by subst.
    + rewrite (ito_bs _ _ Hi). by mrun (read_block_ok fs (zeros (fs_block_size fs)) p Hok Hd (zlen_zeros (fs_block_size fs) ltac:(lia))).
Qed.
Lemma handle_triple_ind_block_ok : let k := cur_idx it - INODE_DOUBLE_IND_BLOCK_LIMIT in
  0 <= k < 256 * 256 * 256 ->
  let p := nth 14 (blocks it) 0 in let q := child fs p (k / (256 * 256)) in
  let r := child fs q (k / 256 mod 256) in
  in_disk fs q -> in_disk fs r -> in_disk fs (child fs r (k mod 256)) ->
  reads fs it (handle_triple_ind_block it buf) (child fs r (k mod 256)).
Proof using All.
  intros k Hk p q r Hq Hr Hb. unfold handle_triple_ind_block.
  assert (it_block_size it / 4 = 256) as -> by by rewrite (ito_bs _ _ Hi), Hbs.
  destruct (slot_ok (E:=HalFsIOErr) fs it 14 Hi ltac:(lia)) as [H14 _].
  change (INODE_BLOCK_LIMIT + 2) with 14. change (nth (Z.to_nat 14) (blocks it) 0) with p in H14.
  destruct (Z.eqb_spec p 0) as [Hp|Hp].
  { exists it. rewrite H14. mstep. rewrite Hp. cbn [Z.eqb]. subst r q. rewrite Hp. rewrite (fill0_ok fs) by done. by split_and!. }
  destruct load_triple_ok as (c & Hc & Hic & Hload). fold p in Hc, Hload.
  assert (0 <= k / (256 * 256) < 256) by (split; [apply Z.div_pos|apply Z.div_lt_upper_bound]; lia).
  pose proof (Z.mod_pos_bound k 256 ltac:(lia)). pose proof (Z.mod_pos_bound (k / 256) 256 ltac:(lia)).
  unfold BLOCK_SIZE in Hbs.
  destruct (handle_double_ind_block_ok fs (with_triple it c) buf Hok Hic Hl (k / 256 mod 256) (k mod 256) q)
    as (it' & Hrun & Hrest); [lia..|done|done|done|].
  exists it'. split; [|exact Hrest]. rewrite H14. mstep. bfalse (p =? 0).
  mrun Hload. rewrite Hc. cbn [expect]. mstep. rewrite usub_ok by lia. fold k. mstep.
  rewrite (urem_ok k) by lia. mstep. rewrite (udiv_ok k 256) by lia. mstep. rewrite urem_ok by lia. mstep.
  rewrite udiv_ok by lia. mstep. rewrite u32_at_ok by (done || lia). mstep.
  rewrite <- (child_some fs p _ Hp). exact Hrun.
Qed.
End triple.

(** What [get] returns for block [b] of the file *)
Definition got_block fs it (m : M (Ext2Fs D) HalFsIOErr (BlockIterElement * InodeBlockIterator)) (b : Z) : Prop :=
  exists e it', m fs = (Ok (e, it'), fs) /\
    el_buf e = file_block fs b /\ is_terminated e = false /\ (b <> 0 -> el_block_idx e = b) /\
    it_ok fs it' /\ blocks it' = blocks it /\ cur_idx it' = cur_idx it /\ blocks_limit it' = blocks_limit it.
Lemma reads_element fs it m b : reads fs it m b -> got_block fs it (r ← m; element r) b.
Proof.
  intros (it' & Hm & Hok & Hb & Hc & Hlim & Hi). eexists _, it'. split; [by mrun Hm|]. by split_and!.
Qed.
Lemma got_block_run fs it m m' b : m fs = m' fs -> got_block fs it m' b -> got_block fs it m b.
Proof. unfold got_block. by intros ->. Qed.
Lemma get_block_tree fs it buf : fs_ok fs -> it_ok fs it -> fs_block_size fs = BLOCK_SIZE ->
  zlen buf = BLOCK_SIZE -> let i := cur_idx it in
  0 <= i < 12 \/ 268 <= i < INODE_TRIPLE_IND_BLOCK_LIMIT ->
  Forall (in_disk fs) (tree_path fs (blocks it) 256 i) ->
  let b := tree_block fs (blocks it) 256 i in
  got_block fs it (get_block it buf) b.
Proof.
  intros Hok Hi Hbs Hl i Hr Hp b. subst b. unfold tree_block, tree_path in *. rewrite <- Hbs in Hl.
  assert (BLOCK_SIZE = 1024) as Hk by done. rewrite Hk in Hbs.
  unfold get_block. assert (it_block_size it / 4 = 256) as -> by by rewrite (ito_bs _ _ Hi), Hbs.
  ev INODE_TRIPLE_IND_BLOCK_LIMIT. ev INODE_DOUBLE_IND_BLOCK_LIMIT. ev INODE_IND_BLOCK_LIMIT. ev_in INODE_TRIPLE_IND_BLOCK_LIMIT Hr.
  unfold wrap. rewrite Z.mod_small by lia. fold i. unfold INODE_BLOCK_LIMIT.
  ev (12 + 256 + 256 * 256). ev (12 + 256). ev_in (12 + 256 + 256 * 256) Hp. ev_in (12 + 256) Hp.
  destruct (i <? 12) eqn:E1; boom.
  { destruct (slot_ok (E:=HalFsIOErr) fs it i Hi ltac:(lia)) as [Hs Hd]. eapply got_block_run.
    - rewrite Hs. by mstep.
    - by apply reads_element, handle_block_ok. }
  assert ((i <? 268) = false) as E3 by lia. rewrite E3 in Hp |- *.
  destruct (i <? 65804) eqn:E2; boom.
  - destruct (slot_ok (E:=HalFsIOErr) fs it 13 Hi ltac:(lia)) as [Hs Hd].
    inversion_clear Hp as [|? ? _ Hp']. inversion_clear Hp' as [|? ? Hq Hp'']. inversion_clear Hp'' as [|? ? Hb _].
    assert (0 <= (i - 268) / 256 < 256) by (split; [apply Z.div_pos|apply Z.div_lt_upper_bound]; lia).
    pose proof (Z.mod_pos_bound (i - 268) 256 ltac:(lia)). eapply got_block_run.
    + rewrite usub_ok by lia. mstep. rewrite urem_ok by lia. mstep. rewrite udiv_ok by lia. mstep.
      change (12 + 1) with 13. rewrite Hs. by mstep.
    + apply reads_element. by apply handle_double_ind_block_ok; try lia.
  - inversion_clear Hp as [|? ? _ Hp']. inversion_clear Hp' as [|? ? Hq Hp'']. inversion_clear Hp'' as [|? ? Hb Hp3].
    inversion_clear Hp3 as [|? ? Hc _]. btrue (i <? 16843020). apply reads_element.
    apply handle_triple_ind_block_ok; try done. ev INODE_DOUBLE_IND_BLOCK_LIMIT. fold i. lia.
Qed.
(** C10: block [i] of an inode.  On a file system with blocks of 1024 bytes,
    and with coherent caches, [get] at a direct, doubly or triply indirect
    index returns the contents of the block the pointer tree has there, or
    zeros if one of the pointers on the way is missing, and leaves the file
    system and the position alone and the caches coherent; the block's index
    is returned if the block is there. *)
Theorem get_reads_tree fs it buf : fs_ok fs -> it_ok fs it -> fs_block_size fs = BLOCK_SIZE ->
  zlen buf = BLOCK_SIZE -> let i := cur_idx it in
  0 <= i < 12 \/ 268 <= i < INODE_TRIPLE_IND_BLOCK_LIMIT ->
  Forall (in_disk fs) (tree_path fs (blocks it) 256 i) ->
  let b := tree_block fs (blocks it) 256 i in
  got_block fs it (get_block it buf) b.
Proof. apply get_block_tree. Qed.
End tree.

(** ** Singly indirect indices, and direct slots *)
Section single.
Context `{Build} {D : Type} `{BlockDevLaws D}.
Implicit Types fs : Ext2Fs D.

(** The singly indirect range.  At index [12 + k] the byte offset into the
    pointer block is [k], not [4 * k]: [get] panics unless [k] is a multiple
    of four, and then returns block [12 + k / 4] of the file, so that only the
    first of the 256 singly indirect blocks is read at its own index. *)
Theorem get_single_indirect fs it buf k : fs_ok fs -> it_ok fs it -> fs_block_size fs = BLOCK_SIZE ->
  zlen buf = BLOCK_SIZE -> cur_idx it = 12 + k -> 0 <= k < 256 -> nth 12 (blocks it) 0 <> 0 ->
  in_disk fs (tree_block fs (blocks it) 256 (12 + k / 4)) ->
  (k mod 4 <> 0 -> get_block it buf fs = (Panic, fs)) /\
  (k mod 4 = 0 -> got_block fs it (get_block it buf) (tree_block fs (blocks it) 256 (12 + k / 4))).
Proof.
  intros Hok Hi Hbs Hl Hc Hk Hp Hd. rewrite <- Hbs in Hl. assert (0 <= k / 4 < 64) as Hq
    by (split; [apply Z.div_pos|apply Z.div_lt_upper_bound]; lia).
  destruct (slot_ok (E:=HalFsIOErr) fs it 12 Hi ltac:(lia)) as [Hs Hd12].
  change (nth (Z.to_nat 12) (blocks it) 0) with (nth 12 (blocks it) 0) in Hs, Hd12.
  set (p := nth 12 (blocks it) 0) in *.
  assert (tree_block fs (blocks it) 256 (12 + k / 4) = child fs p (k / 4)) as Ht.
  { unfold tree_block, tree_path. bfalse (12 + k / 4 <? 12). btrue (12 + k / 4 <? 12 + 256). cbn [List.last].
    change (nth (Z.to_nat 12) (blocks it) 0) with p. f_equal. lia. }
  rewrite Ht in *.
  assert (get_block it buf fs = (r ← handle_ind_block it buf k p; element r) fs) as Hg.
  { unfold get_block, wrap. rewrite Hc, Z.mod_small by lia. ev INODE_IND_BLOCK_LIMIT. unfold INODE_BLOCK_LIMIT.
    bfalse (12 + k <? 12). btrue (12 + k <? 268). rewrite usub_ok by lia. mstep. rewrite Hs. mstep.
    by replace (12 + k - 12) with k by lia. }
  split; intros Hm.
  - rewrite Hg. unfold handle_ind_block. bfalse (p =? 0). unfold INODE_BLOCK_LIMIT. rewrite M_assoc, Hs. mstep.
    rewrite M_assoc. mrun (load_ok fs it (cur_ind it) p p Hok (ito_bs _ _ Hi) (ito_ind _ _ Hi) Hd12 Hd12).
    cbn [cbuf expect]. rewrite M_assoc. mstep. rewrite M_assoc. unfold u32_at.
    rewrite slice_ok by (rewrite ?zlen_block, ?Hbs; unfold BLOCK_SIZE; done || lia). rsimpl. by bfalse (k mod 4 =? 0).
  - eapply got_block_run; [exact Hg|]. apply reads_element. pose proof (Z.div_mod k 4 ltac:(lia)).
    assert (k / 4 * 4 = k) as Hkk by lia. rewrite <- Hkk at 1.
    apply handle_ind_block_ok; try done; rewrite ?Hbs; unfold BLOCK_SIZE; lia.
Qed.

Lemma allocate_one_ok fs it b rest : fs_ok fs -> group_ok fs (it_group_number it) ->
  available fs (it_group_number it) = b :: rest ->
  allocate_one it fs = (Ok b, with_allocated fs (set_insert b (allocated_block_indices fs))).
Proof.
  intros Hok Hg Ha. unfold allocate_one, allocate_n_blocks_in_group. rewrite M_assoc.
  pose proof (scan_group_ok fs (it_group_number it) 1 [] Hok Hg ltac:(lia)) as Hsg. cbn zeta in Hsg. rewrite Ha in Hsg.
  mrun Hsg. done.
Qed.

(** [set] at a direct index.  A slot that has a block keeps it and nothing
    is allocated.  An empty slot gets the first block of the inode's group
    that is free and not pending, which becomes pending and is the one block
    reported as allocated; the other slots and the drive do not change. *)
Theorem set_direct_slot fs it : fs_ok fs -> it_ok fs it -> 0 <= cur_idx it < 12 -> group_ok fs (it_group_number it) ->
  let i := Z.to_nat (cur_idx it) in let p := nth i (blocks it) 0 in
  (p <> 0 -> exists it', set_block it fs = (Ok ({| allocated_blocks := []; set_block_idx := p |}, it'), fs) /\
     blocks it' = blocks it) /\
  (p = 0 -> forall b rest, available fs (it_group_number it) = b :: rest ->
     exists it', set_block it fs =
         (Ok ({| allocated_blocks := [b]; set_block_idx := block_global_idx b |}, it'),
          with_allocated fs (set_insert b (allocated_block_indices fs))) /\
       blocks it' = <[i := block_global_idx b]> (blocks it)).
Proof.
  intros Hok Hi Hc Hg i p. destruct (slot_ok (E:=HalFsIOErr) fs it (cur_idx it) Hi ltac:(lia)) as [Hs _].
  fold i p in Hs. destruct (ito_blocks _ _ Hi) as [Hlen _].
  unfold set_block, INODE_BLOCK_LIMIT. btrue (cur_idx it <? 12). split; intros Hp.
  - exists (with_cur_block_idx it p). split; [|done].
    assert (set_direct it fs = (Ok (with_cur_block_idx it p, []), fs)) as Hd; [|by mrun Hd].
    unfold set_direct. rewrite Hs. mstep. bfalse (p =? 0). mstep. rewrite Hs. by mstep.
  - intros b rest Ha. set (bl := <[i := block_global_idx b]> (blocks it)).
    set (it' := with_cur_block_idx (with_blocks it bl) (block_global_idx b)). exists it'. split; [|done].
    assert (set_direct it fs = (Ok (it', [b]), with_allocated fs (set_insert b (allocated_block_indices fs)))) as Hd;
      [|by mrun Hd].
    unfold set_direct. rewrite Hs. mstep. rewrite Hp. cbn [Z.eqb]. rewrite M_assoc.
    mrun (allocate_one_ok fs it b rest Hok Hg Ha). rewrite M_assoc, update_ok by (unfold zlen; lia). mstep. mstep.
    unfold index. cbn [with_blocks blocks cur_idx]. btrue (0 <=? cur_idx it). fold i bl.
    subst bl. rewrite list_lookup_insert_eq by lia. cbn [expect]. by mstep.
Qed.
End single.

(** ** A file with indirect blocks *)
(** Slot 12 leads to block 23, whose first pointers are 24 and 25; slot 13 to
    block 20, then 21, whose pointer 5 is block 22. *)
Definition tree_disk : MemDisk :=
  u_put 4 (22 * 1024) 77 (u_put 4 (21 * 1024 + 20) 22 (u_put 4 (20 * 1024) 21
    (u_put 4 (23 * 1024 + 4) 25 (u_put 4 (23 * 1024) 24 sample_disk)))).
Definition tree_fs : Ext2Fs MemDisk := with_disk sample_fs tree_disk.
Definition tree_iter (i : Z) : InodeBlockIterator :=
  {| blocks := 9 :: replicate 11 0 ++ [23; 20; 0]; it_group_number := 0; it_block_size := 1024;
     cur_ind := {| cbuf := None; cidx := 0 |}; cur_double_ind := {| cbuf := None; cidx := 0 |};
     cur_triple_ind := {| cbuf := None; cidx := 0 |}; blocks_limit := 300; cur_idx := i; cur_block_idx := 0 |}.

Definition in_diskb {D} `{BlockDevLaws D} (fs : Ext2Fs D) (b : Z) : bool :=
  (0 <=? b) && (b <? 2 ^ 32) && (base fs + (b + 1) * fs_block_size fs <=? bd_size (disk fs)).
Lemma in_disk_check {D} `{BlockDevLaws D} (fs : Ext2Fs D) l : forallb (in_diskb fs) l = true -> Forall (in_disk fs) l.
Proof.
  intros Hl. apply Forall_forall. intros b Hb. apply list_elem_of_In in Hb.
  rewrite forallb_forall in Hl. specialize (Hl b Hb). unfold in_diskb in Hl. boom. unfold in_disk. lia.
Qed.
Lemma tree_fs_ok : fs_ok tree_fs.
Proof. apply with_disk_ok; [exact sample_fs_ok|vm_compute; reflexivity]. Qed.
Lemma tree_iter_ok i : it_ok tree_fs (tree_iter i).
Proof. split; try done. split; [done|]. apply in_disk_check. vm_compute. reflexivity. Qed.

Lemma get_reads_tree_witness : tree_block tree_fs (blocks (tree_iter 273)) 256 273 = 22 /\
  got_block tree_fs (tree_iter 273) (@get_block dev_build _ _ (tree_iter 273) (zeros 1024)) 22.
Proof.
  assert (tree_block tree_fs (blocks (tree_iter 273)) 256 273 = 22) as E by (vm_compute; reflexivity).
  split; [exact E|]. rewrite <- E.
  apply (@get_reads_tree dev_build MemDisk _ _ tree_fs (tree_iter 273) (zeros 1024) tree_fs_ok (tree_iter_ok 273));
    [reflexivity|reflexivity|right; vm_compute; split; congruence|].
  apply in_disk_check. vm_compute. reflexivity.
Defined.
Lemma get_single_indirect_witness :
  @get_block dev_build _ _ (tree_iter 13) (zeros 1024) tree_fs = (Panic, tree_fs).
Proof.
  apply (@get_single_indirect dev_build MemDisk _ _ tree_fs (tree_iter 13) (zeros 1024) 1 tree_fs_ok (tree_iter_ok 13));
    [reflexivity|reflexivity|reflexivity|lia|cbn; lia| |vm_compute; congruence].
  pose proof (in_disk_check tree_fs [tree_block tree_fs (blocks (tree_iter 13)) 256 (12 + 1 / 4)]) as T.
  rewrite Forall_singleton in T. apply T. vm_compute. reflexivity.
Defined.
(** The first eleven bits of the bitmap settle what is allocated first. *)
Lemma tree_available : available tree_fs 0 =
  block_of tree_fs 0 10 :: cands tree_fs 0 [] (seqZ 11 8181).
Proof.
  unfold available. change (bits_per_group tree_fs) with (11 + 8181). rewrite seqZ_app by lia.
  unfold cands. rewrite filter_app, fmap_app, filter_app. change (0 + 11) with 11.
  change (allocated_block_indices tree_fs) with (@nil AllocatedBlock).
  assert (cands tree_fs 0 [] (seqZ 0 11) = [block_of tree_fs 0 10]) as E by (vm_compute; reflexivity).
  unfold cands in E. by rewrite E.
Qed.
Lemma set_direct_slot_witness : let b := block_of tree_fs 0 10 in
  (exists it', @set_block dev_build _ _ (tree_iter 0) tree_fs =
     (Ok ({| allocated_blocks := []; set_block_idx := 9 |}, it'), tree_fs)) /\
  (exists it', @set_block dev_build _ _ (tree_iter 1) tree_fs =
     (Ok ({| allocated_blocks := [b]; set_block_idx := block_global_idx b |}, it'), with_allocated tree_fs [b])).
Proof.
  intros b. assert (group_ok tree_fs 0) as Hg
    by (split; [split; [lia|split; vm_compute; congruence]|vm_compute; congruence|split; vm_compute; congruence]).
  split.
  - destruct (@set_direct_slot dev_build MemDisk _ _ tree_fs (tree_iter 0) tree_fs_ok (tree_iter_ok 0)) as [T _];
      [cbn; lia|exact Hg|]. destruct T as (it' & Hr & _); [vm_compute; congruence|]. exists it'. exact Hr.
  - destruct (@set_direct_slot dev_build MemDisk _ _ tree_fs (tree_iter 1) tree_fs_ok (tree_iter_ok 1)) as [_ T];
      [cbn; lia|exact Hg|].
    destruct (T eq_refl b _ tree_available) as (it' & Hr & _). exists it'. exact Hr.
Defined.
