(* ===== verification/Ext2File.v ===== *)
(** * ext2: reading and writing files

    src/kernel/src/drivers/fs/ext2/read.rs and write.rs, with the I/O context
    of src/kernel/src/hal/fs.rs.  A call that fails drops its buffer and
    context, so an error carries neither.  The time of day is a parameter: the
    clock and its conversion are in RtcTime.v. *)

From S2P Require Import Prelude Bytes Serialize Crypto Disk Ext2Layout Ext2Fs Ext2Alloc Ext2Iter.

(** [HalIOCtx] *)
Record HalIOCtx := { head : Z }.
Definition HalIOCtx_new : HalIOCtx := {| head := 0 |}.

Record Progress := { p_block_idx : Z; p_offset : Z; bytes_written : Z }.

(** Assignments to the fields of an inode *)
Section setters.
Context (x : Inode).
Definition set_i_size (v : Z) : Inode :=
  {| i_mode := i_mode x; i_uid := i_uid x; i_size := v; i_atime := i_atime x; i_ctime := i_ctime x;
     i_mtime := i_mtime x; i_dtime := i_dtime x; i_gid := i_gid x; i_links_count := i_links_count x;
     i_blocks := i_blocks x; i_flags := i_flags x; i_osd1 := i_osd1 x; i_block := i_block x;
     i_generation := i_generation x; i_file_acl := i_file_acl x; i_dir_acl := i_dir_acl x;
     i_faddr := i_faddr x; i_osd2 := i_osd2 x |}.
Definition set_times (m d : Z) : Inode :=
  {| i_mode := i_mode x; i_uid := i_uid x; i_size := i_size x; i_atime := i_atime x; i_ctime := i_ctime x;
     i_mtime := m; i_dtime := d; i_gid := i_gid x; i_links_count := i_links_count x;
     i_blocks := i_blocks x; i_flags := i_flags x; i_osd1 := i_osd1 x; i_block := i_block x;
     i_generation := i_generation x; i_file_acl := i_file_acl x; i_dir_acl := i_dir_acl x;
     i_faddr := i_faddr x; i_osd2 := i_osd2 x |}.
Definition set_block_map (bl : list Z) (n : Z) : Inode :=
  {| i_mode := i_mode x; i_uid := i_uid x; i_size := i_size x; i_atime := i_atime x; i_ctime := i_ctime x;
     i_mtime := i_mtime x; i_dtime := i_dtime x; i_gid := i_gid x; i_links_count := i_links_count x;
     i_blocks := n; i_flags := i_flags x; i_osd1 := i_osd1 x; i_block := bl;
     i_generation := i_generation x; i_file_acl := i_file_acl x; i_dir_acl := i_dir_acl x;
     i_faddr := i_faddr x; i_osd2 := i_osd2 x |}.
Definition set_i_mtime (t : Z) : Inode := set_times t (i_dtime x).
Definition set_i_links_count (v : Z) : Inode :=
  {| i_mode := i_mode x; i_uid := i_uid x; i_size := i_size x; i_atime := i_atime x; i_ctime := i_ctime x;
     i_mtime := i_mtime x; i_dtime := i_dtime x; i_gid := i_gid x; i_links_count := v;
     i_blocks := i_blocks x; i_flags := i_flags x; i_osd1 := i_osd1 x; i_block := i_block x;
     i_generation := i_generation x; i_file_acl := i_file_acl x; i_dir_acl := i_dir_acl x;
     i_faddr := i_faddr x; i_osd2 := i_osd2 x |}.
End setters.
Definition with_inode (ip : InodePlus) (x : Inode) : InodePlus :=
  {| ip_inode := x; absolute_idx := absolute_idx ip; ip_group_number := ip_group_number ip; relative_idx := relative_idx ip |}.

Section file.
Context `{Build} {D : Type} `{BlockDev D}.
Abbreviation EM := (M (Ext2Fs D) HalFsIOErr).

(** ** read.rs *)
(** The loop of [read_till_next_block]: [true] when it ran to the end of the
    block, [false] when it returned from inside. *)
Fixpoint copy_out (idxs : list Z) (size : Z) (buf : list Z) (st : list Z * Z * Z) :
    res HalFsIOErr (bool * (list Z * Z * Z)) :=
  let '(target, hd, written) := st in
  match idxs with
  | [] => Ok (true, st)
  | i :: idxs =>
      if size <=? wrap 32 hd then Ok (false, st) else
      if zlen target <=? written then Ok (false, st) else
      b ← index buf i;
      target ← update target written b;
      written ← uadd 64 written 1;
      hd ← uadd 64 hd 1;
      copy_out idxs size buf (target, hd, written)
  end.
Definition read_till_next_block (ino : Inode) (target : list Z) (ctx : HalIOCtx) (progress : Progress) (buf : list Z) :
    EM (list Z * HalIOCtx * Progress) :=
  fs ← get;
  bs ← lift (block_size_of (super_block fs));
  '(through, (target, hd, written)) ←
    lift (copy_out (seqZ (p_offset progress) (bs - p_offset progress)) (i_size ino) buf
            (target, head ctx, bytes_written progress));
  if (through : bool) then
    n ← lift (uadd 32 (p_block_idx progress) 1);
    mret (target, {| head := hd |}, {| p_block_idx := n; p_offset := 0; bytes_written := written |})
  else
    mret (target, {| head := hd |},
          {| p_block_idx := p_block_idx progress; p_offset := p_offset progress; bytes_written := written |}).

(** The loop of [read]; every round but the last takes a block from the
    iterator, so as many rounds as it has blocks, and one, are enough. *)
Fixpoint read_loop (fuel : nat) (ino : Inode) (it : InodeBlockIterator) (block_buf target : list Z)
    (ctx : HalIOCtx) (progress : Progress) : EM (list Z * HalIOCtx * Progress) :=
  if (wrap 32 (head ctx) <? i_size ino) && (bytes_written progress <? zlen target) then
    match fuel with
    | O => lift Hang
    | S fuel =>
        '(e, it) ← next_block it block_buf;
        if is_terminated e then mret (target, ctx, progress) else
        '(target, ctx, progress) ← read_till_next_block ino target ctx progress (el_buf e);
        read_loop fuel ino it (el_buf e) target ctx progress
    end
  else mret (target, ctx, progress).

(** The position of a head: its block and the offset in it *)
Definition progress_at (hd bs : Z) : res HalFsIOErr Progress :=
  b ← udiv (wrap 32 hd) bs;
  o ← urem (wrap 32 hd) bs;
  Ok {| p_block_idx := b; p_offset := o; bytes_written := 0 |}.

Definition read (victim : InodePlus) (buf : list Z) (ctx : HalIOCtx) : EM (Z * list Z * HalIOCtx) :=
  let ino := ip_inode victim in
  if is_directory ino then throw IsDirectory else
  let remaining := Z.max 0 (i_size ino - head ctx) in
  if Z.min (zlen buf) remaining =? 0 then mret (0, buf, ctx) else
  fs ← get;
  bs ← lift (block_size_of (super_block fs));
  progress ← lift (progress_at (head ctx) bs);
  it ← lift (create_block_iterator fs ino (ip_group_number victim));
  block_buf ← get_buffer;
  '(buf, ctx, progress) ← read_loop (S (Z.to_nat (blocks_limit it))) ino it block_buf buf ctx progress;
  mret (bytes_written progress, buf, ctx).

(** [*bytemuck::from_bytes::<u32>(s)] of a whole slice, which must have the
    size of the integer *)
Definition u32_whole (s : list Z) : res HalFsIOErr Z := if zlen s =? 4 then Ok (le_num s) else Panic.
(** [u32::deserialize] at slot [k] of a block, and the same with [bytemuck] *)
Definition de_slot (buf : list Z) (k : Z) : res HalFsIOErr Z :=
  sub ← slice_from buf (k * 4);
  '(v, _) ← map_err DeserializationErr (deserialize (uint 4) Little sub);
  Ok v.
Definition cast_slot (buf : list Z) (k : Z) : res HalFsIOErr Z :=
  sub ← slice_from buf (k * 4); u32_whole sub.
(** [self.block_idx_to_lba(i) as u32] *)
Definition lba_of (i : Z) : EM Z :=
  fs ← get; l ← lift (block_idx_to_lba (fs_block_size fs) i); mret (wrap 32 l).
Definition get_block_lba (ino : Inode) (idx : Z) : EM Z :=
  if idx <? INODE_BLOCK_LIMIT then lift (index (i_block ino) idx) else
  let buf := zeros BLOCK_SIZE in
  if idx <? INODE_IND_BLOCK_LIMIT then
    let idx := idx - INODE_BLOCK_LIMIT in
    p ← lift (index (i_block ino) 12);
    buf ← read_sectors buf p;
    b ← lift (cast_slot buf idx);
    lba_of b
  else if idx <? INODE_DOUBLE_IND_BLOCK_LIMIT then
    let idx := idx - INODE_IND_BLOCK_LIMIT in
    p ← lift (index (i_block ino) 14);
    buf ← read_sectors buf p;
    ind ← lift (de_slot buf (idx / ADDR_PER_BLOCK));
    buf ← read_sectors buf ind;
    b ← lift (cast_slot buf (idx mod ADDR_PER_BLOCK));
    lba_of b
  else if idx <? INODE_TRIPLE_IND_BLOCK_LIMIT then
    let idx := idx - INODE_DOUBLE_IND_BLOCK_LIMIT in
    p ← lift (index (i_block ino) 13);
    buf ← read_sectors buf p;
    double ← lift (de_slot buf (idx / ADDR_PER_BLOCK / ADDR_PER_BLOCK));
    buf ← read_sectors buf double;
    ind ← lift (de_slot buf (idx mod (ADDR_PER_BLOCK * ADDR_PER_BLOCK) / ADDR_PER_BLOCK));
    buf ← read_sectors buf ind;
    b ← lift (cast_slot buf (idx mod (ADDR_PER_BLOCK * ADDR_PER_BLOCK) mod ADDR_PER_BLOCK));
    lba_of b
  else throw FileTooLarge.

(** ** write.rs *)
(** The loop of [write_till_next_block]: the size grows before the test
    whether there is input left. *)
Fixpoint copy_in (idxs : list Z) (input : list Z) (st : list Z * Z * Z * Z) : res HalFsIOErr (list Z * Z * Z * Z) :=
  let '(buf, size, hd, written) := st in
  match idxs with
  | [] => Ok st
  | i :: idxs =>
      size ← (if size <=? wrap 32 hd then uadd 32 size 1 else Ok size);
      if zlen input <=? written then Ok (buf, size, hd, written) else
      b ← index input written;
      buf ← update buf i b;
      written ← uadd 64 written 1;
      hd ← uadd 64 hd 1;
      copy_in idxs input (buf, size, hd, written)
  end.
Definition write_till_next_block (ino : Inode) (input : list Z) (ctx : HalIOCtx) (block_idx : Z) (progress : Progress) :
    EM (Inode * HalIOCtx * Progress) :=
  buf ← (if p_offset progress =? 0 then mret (zeros BLOCK_SIZE) else read_block (zeros BLOCK_SIZE) block_idx);
  fs ← get;
  bs ← lift (block_size_of (super_block fs));
  '(buf, size, hd, written) ←
    lift (copy_in (seqZ (p_offset progress) (bs - p_offset progress)) input
            (buf, i_size ino, head ctx, bytes_written progress));
  _ ← write_block buf block_idx;
  n ← lift (uadd 32 (p_block_idx progress) 1);
  mret (set_i_size ino size, {| head := hd |}, {| p_block_idx := n; p_offset := 0; bytes_written := written |}).

(** The loop of [write]: every round writes at least one byte. *)
Fixpoint write_loop (fuel : nat) (ino : Inode) (it : InodeBlockIterator) (input : list Z) (ctx : HalIOCtx)
    (progress : Progress) (count : Z) : EM (Inode * InodeBlockIterator * HalIOCtx * Progress * Z) :=
  if bytes_written progress <? zlen input then
    match fuel with
    | O => lift Hang
    | S fuel =>
        '(r, it) ← next_set it;
        count ← lift (uadd 64 count (zlen (allocated_blocks r)));
        '(ino, ctx, progress) ← write_till_next_block ino input ctx (set_block_idx r) progress;
        write_loop fuel ino it input ctx progress count
    end
  else mret (ino, it, ctx, progress, count).

(** [now]: the clock in seconds, if it can be read *)
Definition write (now : option Z) (victim : InodePlus) (buf : list Z) (ctx : HalIOCtx) : EM (Z * InodePlus * HalIOCtx) :=
  let ino := ip_inode victim in
  if is_directory ino then throw IsDirectory else
  fs ← get;
  bs ← lift (block_size_of (super_block fs));
  progress ← lift (progress_at (head ctx) bs);
  it ← lift (create_block_iterator fs ino (ip_group_number victim));
  it ← lift (skip it (p_block_idx progress));
  '(ino, it, ctx, progress, count) ← write_loop (length buf) ino it buf ctx progress 0;
  time ← lift (expect now);
  fs ← get;
  bs ← lift (block_size_of (super_block fs));
  n ← lift (umul 32 (wrap 32 count) bs);
  n ← lift (uadd 32 (i_blocks ino) n);
  let victim := with_inode victim (set_block_map (set_i_mtime ino time) (get_blocks_array it) n) in
  _ ← write_inode victim;
  buf ← get_buffer;
  _ ← write_newly_allocated_blocks buf;
  mret (bytes_written progress, victim, ctx).
End file.

(** ** Copying between a block and a buffer *)
(** [target] with [xs] at [w] *)
Definition patch (target : list Z) (w : Z) (xs : list Z) : list Z :=
  take (Z.to_nat w) target ++ xs ++ drop (Z.to_nat w + length xs) target.
Lemma patch_nil target w : patch target w [] = target.
Proof. unfold patch. cbn. rewrite Nat.add_0_r. apply take_drop. Qed.
Lemma zlen_patch target w xs : 0 <= w -> w + zlen xs <= zlen target -> zlen (patch target w xs) = zlen target.
Proof. intros. unfold patch, zlen in *. rewrite !length_app, length_take, length_drop. lia. Qed.
(** Writing one element and then the rest is writing them all. *)
Lemma patch_cons target w x xs : 0 <= w < zlen target ->
  patch (<[Z.to_nat w := x]> target) (w + 1) xs = patch target w (x :: xs).
Proof.
  unfold zlen. intros Hw. unfold patch. replace (Z.to_nat (w + 1)) with (S (Z.to_nat w)) by lia.
  rewrite (take_S_r _ _ x) by (apply list_lookup_insert_eq; lia).
  rewrite take_insert_ge, drop_insert_lt by lia. rewrite <- app_assoc. cbn. do 4 f_equal. lia.
Qed.
Lemma patch_app target w xs ys : 0 <= w -> w + zlen xs <= zlen target ->
  patch (patch target w xs) (w + zlen xs) ys = patch target w (xs ++ ys).
Proof.
  revert target w. induction xs as [|x xs IH]; intros target w Hw Hl.
  - rewrite patch_nil. unfold zlen. cbn. by rewrite Z.add_0_r.
  - rewrite zlen_cons in *. pose proof (zlen_nonneg xs). cbn [app]. rewrite <- !patch_cons by lia.
    replace (w + (1 + zlen xs)) with (w + 1 + zlen xs) by lia. apply IH; rewrite ?zlen_insert; lia.
Qed.
(** [m] elements of a list from [o] on *)
Definition piece (l : list Z) (o m : Z) : list Z := take (Z.to_nat m) (drop (Z.to_nat o) l).
Lemma piece_0 l o m : m <= 0 -> piece l o m = [].
Proof. intros. unfold piece. by replace (Z.to_nat m) with 0%nat by lia. Qed.
Lemma zlen_piece l o m : 0 <= o -> 0 <= m -> o + m <= zlen l -> zlen (piece l o m) = m.
Proof. intros. unfold piece. rewrite zlen_take, zlen_drop. lia. Qed.
Lemma piece_S l o m x : 0 <= o -> 0 <= m -> l !! Z.to_nat o = Some x -> piece l o (m + 1) = x :: piece l (o + 1) m.
Proof.
  intros Ho Hm Hx. unfold piece. rewrite (drop_S l x) by done.
  replace (Z.to_nat (m + 1)) with (S (Z.to_nat m)) by lia. cbn. by replace (Z.to_nat (o + 1)) with (S (Z.to_nat o)) by lia.
Qed.
Lemma piece_app l o m k : 0 <= o -> 0 <= m -> 0 <= k -> piece l o (m + k) = piece l o m ++ piece l (o + m) k.
Proof.
  intros. unfold piece. rewrite Z2Nat.inj_add, <- take_take_drop, drop_drop by lia. do 3 f_equal. lia.
Qed.

Section copies.
Context `{Build}.
Lemma copy_out_ok size buf n : forall k o target hd w, Z.to_nat k = n -> 0 <= k ->
  0 <= o -> o + k <= zlen buf -> 0 <= w <= zlen target -> zlen target < 2 ^ 63 -> 0 <= hd <= size -> size < 2 ^ 32 ->
  let m := Z.min k (Z.min (size - hd) (zlen target - w)) in
  copy_out (seqZ o k) size buf (target, hd, w) = Ok (m =? k, (patch target w (piece buf o m), hd + m, w + m)).
Proof.
  induction n as [|n IH]; intros k o target hd w Hn Hk Ho Hb Hw Ht Hh Hs m.
  - assert (k = 0) as -> by lia. subst m. rewrite piece_0, patch_nil by lia. change (seqZ o 0) with (@nil Z). cbn [copy_out]. parts.
  - rewrite seqZ_cons by lia. cbn [copy_out]. rewrite wrap_small by lia.
    destruct (size <=? hd) eqn:E1; boom.
    { assert (m = 0) as -> by lia. rewrite piece_0, patch_nil by lia. bfalse (0 =? k). parts. }
    destruct (zlen target <=? w) eqn:E2; boom.
    { assert (m = 0) as -> by lia. rewrite piece_0, patch_nil by lia. bfalse (0 =? k). parts. }
    destruct (index_total (E:=HalFsIOErr) buf o) as [b Hx]; [lia|]. rewrite Hx. rsimpl. apply index_inv in Hx as [_ Hx].
    rewrite update_ok by lia. rsimpl. rewrite (uadd_ok 64 w) by lia. rsimpl. rewrite (uadd_ok 64 hd) by lia. rsimpl.
    replace (Z.succ o) with (o + 1) by lia. replace (Z.pred k) with (k - 1) by lia.
    rewrite IH by (rewrite ?zlen_insert; lia). rewrite zlen_insert.
    replace (Z.min (k - 1) (Z.min (size - (hd + 1)) (zlen target - (w + 1)))) with (m - 1) by lia.
    rewrite patch_cons by lia. rewrite <- (piece_S buf o (m - 1) b) by (done || lia).
    replace (m - 1 + 1) with m by lia. parts.
Qed.

(** What one block's worth of input does: the size ends one past the head if
    the input ran out inside the block at the end of the file. *)
Lemma copy_in_ok input n : forall k o buf size hd w, Z.to_nat k = n -> 0 <= k ->
  0 <= o -> o + k <= zlen buf -> 0 <= w <= zlen input -> zlen input < 2 ^ 63 -> 0 <= hd <= size ->
  size + k < 2 ^ 32 - 1 ->
  let m := Z.min k (zlen input - w) in
  copy_in (seqZ o k) input (buf, size, hd, w) =
    Ok (patch buf o (piece input w m), Z.max size (if m <? k then hd + m + 1 else hd + m), hd + m, w + m).
Proof.
  induction n as [|n IH]; intros k o buf size hd w Hn Hk Ho Hb Hw Hi Hh Hs m.
  - assert (k = 0) as -> by lia. subst m. rewrite piece_0, patch_nil by lia. cbn.
    replace (Z.min 0 (zlen input - w)) with 0 by lia. change (seqZ o 0) with (@nil Z). cbn [copy_in Z.ltb Z.compare]. parts.
  - rewrite seqZ_cons by lia. cbn [copy_in]. rewrite wrap_small by lia.
    assert ((if size <=? hd then uadd 32 size 1 else Ok size) = Ok (E:=HalFsIOErr) (Z.max size (hd + 1))) as ->.
    { destruct (size <=? hd) eqn:E; boom; [rewrite uadd_ok by lia|]; f_equal; lia. }
    rsimpl. destruct (zlen input <=? w) eqn:E2; boom.
    { assert (m = 0) as -> by lia. rewrite piece_0, patch_nil by lia. btrue (0 <? k). parts. }
    destruct (index_total (E:=HalFsIOErr) input w) as [b Hx]; [lia|]. rewrite Hx. rsimpl. apply index_inv in Hx as [_ Hx].
    rewrite update_ok by lia. rsimpl. rewrite (uadd_ok 64 w) by lia. rsimpl. rewrite (uadd_ok 64 hd) by lia. rsimpl.
    replace (Z.succ o) with (o + 1) by lia. replace (Z.pred k) with (k - 1) by lia.
    rewrite IH by (rewrite ?zlen_insert; lia).
    replace (Z.min (k - 1) (zlen input - (w + 1))) with (m - 1) by lia.
    rewrite patch_cons by lia. rewrite <- (piece_S input w (m - 1) b) by (done || lia).
    replace (m - 1 + 1) with m by lia. replace (m - 1 <? k - 1) with (m <? k) by lia. assert (1 <= m) by lia.
    destruct (m <? k); parts.
Qed.
End copies.

(** ** The contents of a file *)
Lemma concat_piece (ls : list (list Z)) bs j b o m : Forall (fun l => zlen l = bs) ls -> 0 <= j ->
  ls !! Z.to_nat j = Some b -> 0 <= o -> 0 <= m -> o + m <= bs -> piece (concat ls) (bs * j + o) m = piece b o m.
Proof.
  intros Hls Hj Hb Ho Hm Hom. remember (Z.to_nat j) as n eqn:Hn. revert j Hj Hn.
  induction Hls as [|l ls Hl Hls IH] in n, Hb |- *; intros j Hj Hn; [done|]. unfold zlen in Hl. cbn [concat].
  destruct n as [|n]; cbn in Hb.
  - injection Hb as ->. assert (j = 0) as -> by lia. unfold piece. rewrite drop_app_le, take_app_le; [|rewrite ?length_drop; lia..].
    do 2 f_equal. lia.
  - rewrite <- (IH n Hb (j - 1)) by lia. unfold piece. rewrite drop_app_ge by nia. do 2 f_equal. nia.
Qed.
Lemma zlen_concat (ls : list (list Z)) bs : Forall (fun l => zlen l = bs) ls -> zlen (concat ls) = bs * zlen ls.
Proof. induction 1 as [|l ls Hl _ IH]; [unfold zlen; cbn; lia|]. cbn [concat]. rewrite zlen_app, zlen_cons. lia. Qed.

Section reading.
Context `{Build} {D : Type} `{BlockDevLaws D} (fs : Ext2Fs D).

(** A file system with blocks of 1024 bytes *)
Record fs_1k : Prop := {
  k_ok : fs_ok fs;
  k_log : s_log_block_size (super_block fs) = 0;
  k_bs : fs_block_size fs = BLOCK_SIZE;
}.
Lemma block_size_1k {E} : fs_1k -> block_size_of (E:=E) (super_block fs) = Ok 1024.
Proof. intros [_ Hl _]. unfold block_size_of. by rewrite Hl. Qed.

(** A file that only uses the twelve direct slots *)
Record small_file (ino : Inode) : Prop := {
  sf_size : 0 <= i_size ino <= 12 * 1024;
  sf_blocks : length (i_block ino) = 15%nat /\ Forall (in_disk fs) (i_block ino);
}.
Definition block_count (ino : Inode) : Z := (i_size ino + 1023) / 1024.
Definition nth_block (ino : Inode) (i : Z) : list Z := file_block fs (nth (Z.to_nat i) (i_block ino) 0).
Definition contents (ino : Inode) : list Z := concat (nth_block ino <$> seqZ 0 (block_count ino)).

Lemma zlen_file_block b : fs_1k -> zlen (file_block fs b) = 1024.
Proof.
  intros [Hok _ Hbs]. unfold file_block. destruct (b =? 0); [rewrite zlen_zeros|rewrite zlen_block]; rewrite ?Hbs; done.
Qed.
Lemma blocks_1k ino : fs_1k -> Forall (fun l => zlen l = 1024) (nth_block ino <$> seqZ 0 (block_count ino)).
Proof. intros Hk. apply Forall_fmap, Forall_true. intros i. by apply zlen_file_block. Qed.
Lemma block_count_range ino : small_file ino ->
  0 <= block_count ino <= 12 /\ i_size ino <= 1024 * block_count ino < i_size ino + 1024.
Proof.
  intros [Hs _]. unfold block_count. pose proof (Z.div_mod (i_size ino + 1023) 1024 ltac:(lia)).
  pose proof (Z.mod_pos_bound (i_size ino + 1023) 1024 ltac:(lia)). lia.
Qed.
Lemma contents_piece ino j o m : fs_1k -> 0 <= j < block_count ino -> 0 <= o -> 0 <= m -> o + m <= 1024 ->
  piece (contents ino) (1024 * j + o) m = piece (nth_block ino j) o m.
Proof.
  intros Hk Hj Ho Hm Hom. apply concat_piece; [by apply blocks_1k|lia| |lia..].
  rewrite list_lookup_fmap, lookup_seqZ_lt by lia. cbn. do 2 f_equal. lia.
Qed.
Lemma zlen_contents ino : fs_1k -> small_file ino -> zlen (contents ino) = 1024 * block_count ino.
Proof.
  intros Hk Hf. pose proof (block_count_range _ Hf). unfold contents. rewrite (zlen_concat _ 1024) by by apply blocks_1k.
  f_equal. unfold zlen. rewrite length_fmap, length_seqZ. lia.
Qed.

Lemma iterator_1k {E} ino gr : fs_1k -> small_file ino -> exists it,
  create_block_iterator (E:=E) fs ino gr = Ok it /\ it_ok fs it /\ blocks it = i_block ino /\ cur_idx it = 0 /\
  blocks_limit it = block_count ino.
Proof.
  intros Hk Hf. pose proof (sf_size _ Hf). unfold create_block_iterator. rewrite block_size_1k by done. rsimpl.
  unfold div_ceil. rewrite udiv_ok, urem_ok by lia. rsimpl. eexists. split; [done|]. split_and!; try done.
  - destruct Hk as [? ? Hbs]. destruct Hf as [? Hb]. split; cbn; rewrite ?Hbs; done.
  - cbn. unfold block_count. pose proof (Z.div_mod (i_size ino) 1024 ltac:(lia)).
    pose proof (Z.mod_pos_bound (i_size ino) 1024 ltac:(lia)).
    destruct (0 <? i_size ino mod 1024) eqn:E0; boom; [apply (Z.div_unique _ _ _ (i_size ino mod 1024 - 1))|
      apply (Z.div_unique _ _ _ (i_size ino mod 1024 + 1023))]; lia.
Qed.
Lemma next_block_1k it buf : fs_1k -> it_ok fs it -> 0 <= cur_idx it < 12 -> cur_idx it < blocks_limit it ->
  zlen buf = 1024 -> exists e it', next_block it buf fs = (Ok (e, it'), fs) /\ is_terminated e = false /\
    el_buf e = file_block fs (nth (Z.to_nat (cur_idx it)) (blocks it) 0) /\
    it_ok fs it' /\ blocks it' = blocks it /\ cur_idx it' = cur_idx it + 1 /\ blocks_limit it' = blocks_limit it /\
    (nth (Z.to_nat (cur_idx it)) (blocks it) 0 <> 0 -> el_block_idx e = nth (Z.to_nat (cur_idx it)) (blocks it) 0).
Proof.
  intros [Hok _ Hbs] Hi Hc Hlim Hl. pose proof (get_block_tree fs it buf Hok Hi Hbs Hl) as Hg. cbn zeta in Hg.
  unfold tree_block, tree_path in Hg. replace (cur_idx it <? 12) with true in Hg by lia. cbn [List.last] in Hg.
  destruct (slot_ok (E:=HalFsIOErr) fs it (cur_idx it) Hi ltac:(lia)) as [_ Hd].
  destruct Hg as (e & it' & Hr & Hb & Ht & Hn & Hi' & Hbl & Hci & Hbm); [by left|by constructor|].
  exists e, (with_cur_idx it' (cur_idx it + 1)). unfold next_block. bfalse (blocks_limit it <=? cur_idx it).
  mrun Hr. cbv beta iota. rewrite Hci, uadd_ok by lia. mstep. split_and!; try done. by destruct Hi'; split.
Qed.
End reading.

(** One round of the loop of [read] *)
Lemma read_loop_round `{Build} {D} `{BlockDev D} fuel ino it buf target ctx progress :
  read_loop (D:=D) (S fuel) ino it buf target ctx progress =
  if (wrap 32 (head ctx) <? i_size ino) && (bytes_written progress <? zlen target) then
    '(e, it) ← next_block it buf;
    if is_terminated e then mret (target, ctx, progress) else
    '(target, ctx, progress) ← read_till_next_block ino target ctx progress (el_buf e);
    read_loop fuel ino it (el_buf e) target ctx progress
  else mret (target, ctx, progress).
Proof. done. Qed.

(** ** What [read] returns *)
Section read_spec.
Context `{Build} {D : Type} `{BlockDevLaws D} (fs : Ext2Fs D) (ino : Inode) (h : Z) (target0 : list Z).
Context (Hk : fs_1k fs) (Hf : small_file fs ino) (Hh : 0 <= h <= i_size ino) (Ht : zlen target0 < 2 ^ 63).
(** How many bytes there are to read, and where in the contents the copy begins *)
Let total : Z := Z.min (zlen target0) (i_size ino - h).
Let off : Z := h mod 1024.
Let filled (w : Z) : list Z := patch target0 0 (piece (contents fs ino) off w).

Lemma off_le : 0 <= off < 1024 /\ off <= h.
Proof using All. unfold off. pose proof (Z.mod_pos_bound h 1024 ltac:(lia)). pose proof (Z.mod_le h 1024). lia. Qed.
Lemma zlen_filled w : 0 <= w <= total -> zlen (filled w) = zlen target0.
Proof using All.
  intros Hw. pose proof off_le. pose proof (zlen_contents fs ino Hk Hf). pose proof (block_count_range fs ino Hf).
  unfold filled. apply zlen_patch; [lia|]. rewrite zlen_piece; unfold total in *; lia.
Qed.
Lemma filled_add w m : 0 <= w -> 0 <= m -> w + m <= total ->
  patch (filled w) w (piece (contents fs ino) (off + w) m) = filled (w + m).
Proof using All.
  intros Hw Hm Hs. pose proof off_le. pose proof (zlen_contents fs ino Hk Hf). pose proof (block_count_range fs ino Hf).
  assert (zlen (piece (contents fs ino) off w) = w) as Hz by (apply zlen_piece; unfold total in *; lia).
  unfold filled. rewrite piece_app by lia. rewrite <- patch_app by (rewrite ?Hz; unfold total in *; lia).
  by rewrite Hz.
Qed.
Lemma read_loop_done fuel it buf p : bytes_written p = total ->
  read_loop fuel ino it buf (filled total) {| head := h + total |} p fs = (Ok (filled total, {| head := h + total |}, p), fs).
Proof using All.
  intros Hw. pose proof (zlen_nonneg target0). pose proof (sf_size _ _ Hf).
  destruct fuel; cbn [read_loop]; rewrite Hw, zlen_filled by (unfold total; lia); cbn [head];
    rewrite wrap_small by (unfold total; lia);
    by replace ((h + total <? i_size ino) && (total <? zlen target0)) with false by (unfold total; lia).
Qed.

Lemma read_loop_ok n : forall j w o blk it buf, Z.of_nat n = block_count ino - j -> 0 <= j ->
  it_ok fs it -> blocks it = i_block ino -> cur_idx it = j -> blocks_limit it = block_count ino -> zlen buf = 1024 ->
  0 <= w <= total -> off + w = 1024 * j + o -> 0 <= o < 1024 -> 0 <= blk -> blk + Z.of_nat n < 2 ^ 32 ->
  exists p, read_loop (S n) ino it buf (filled w) {| head := h + w |} {| p_block_idx := blk; p_offset := o; bytes_written := w |} fs =
    (Ok (filled total, {| head := h + total |}, p), fs) /\ bytes_written p = total.
Proof using All.
  pose proof off_le as Hoff. pose proof (zlen_nonneg target0). pose proof (sf_size _ _ Hf) as Hsz.
  pose proof (block_count_range fs ino Hf) as Hbc.
  induction n as [|n IH]; intros j w o blk it buf Hn Hj Hi Hb Hc Hlim Hl Hw Hpos Ho Hblk Hblkn;
    (destruct (Z.eq_dec w total) as [->|Hne]; [eexists; split; [by apply read_loop_done|done]|]).
  { exfalso. unfold total in *. lia. }
  assert (w < zlen target0 /\ h + w < i_size ino) as [Hw1 Hw2] by (unfold total in *; lia).
  rewrite read_loop_round. cbn [head bytes_written]. rewrite zlen_filled, wrap_small by lia.
  btrue ((h + w <? i_size ino) && (w <? zlen target0)).
  destruct (next_block_1k fs it buf Hk Hi) as (e & it' & Hr & Hterm & Hbuf & Hi' & Hb' & Hc' & Hlim' & _); [lia..|].
  mrun Hr. cbv beta iota. rewrite Hterm. unfold read_till_next_block. rewrite M_assoc. mstep. rewrite M_assoc, (block_size_1k fs Hk). mstep.
  cbn [p_offset head bytes_written]. rewrite Hb, Hc in Hbuf. fold (nth_block fs ino j) in Hbuf.
  assert (zlen (el_buf e) = 1024) as Hle by (rewrite Hbuf; by apply zlen_file_block).
  rewrite (copy_out_ok (i_size ino) (el_buf e) _ (1024 - o) o (filled w) (h + w) w eq_refl) by (rewrite ?zlen_filled; lia).
  rewrite zlen_filled by lia. rewrite M_assoc. mstep. cbv beta iota.
  set (m := Z.min (1024 - o) (Z.min (i_size ino - (h + w)) (zlen target0 - w))).
  assert (m = Z.min (1024 - o) (total - w)) as Hm by (unfold m, total; lia).
  rewrite Hbuf, <- (contents_piece fs ino j o m Hk) by lia. rewrite <- Hpos, filled_add by lia.
  replace (h + w + m) with (h + (w + m)) by lia.
  destruct (Z.eqb_spec m (1024 - o)) as [Hfull|Hpart].
  - cbn [p_block_idx]. rewrite M_assoc, uadd_ok by lia. mstep. mstep. cbv beta iota.
    apply (IH (j + 1)); first [done | lia | congruence | by apply zlen_file_block].
  - mstep. cbv beta iota. assert (w + m = total) as -> by lia. eexists. split; [by apply read_loop_done|done].
Qed.
End read_spec.

Lemma read_small_file `{Build} {D} `{BlockDevLaws D} (fs : Ext2Fs D) victim buf ctx :
  fs_1k fs -> small_file fs (ip_inode victim) -> is_directory (ip_inode victim) = false ->
  0 <= head ctx <= i_size (ip_inode victim) -> zlen buf < 2 ^ 63 ->
  let n := Z.min (zlen buf) (i_size (ip_inode victim) - head ctx) in
  read victim buf ctx fs =
    (Ok (n, patch buf 0 (piece (contents fs (ip_inode victim)) (head ctx mod 1024) n), {| head := head ctx + n |}), fs).
Proof.
  intros Hk Hf Hd Hh Hb n. destruct ctx as [h]. cbn [head] in *. pose proof (sf_size _ _ Hf) as Hsz. unfold read. cbn [head].
  rewrite Hd. replace (Z.min (zlen buf) (Z.max 0 (i_size (ip_inode victim) - h))) with n by lia.
  destruct (Z.eqb_spec n 0) as [Hn|Hn].
  { rewrite Hn, piece_0, patch_nil, Z.add_0_r by lia. done. }
  mstep. rewrite (block_size_1k fs Hk). mstep. unfold progress_at. rewrite wrap_small by lia.
  rewrite udiv_ok, urem_ok by lia. rsimpl. mstep.
  destruct (iterator_1k (E:=HalFsIOErr) fs (ip_inode victim) (ip_group_number victim) Hk Hf) as (it & Hit & Hi & Hbl & Hc & Hlim).
  rewrite Hit. mstep. unfold get_buffer. mstep. rewrite Hlim.
  pose proof (block_count_range fs _ Hf) as Hbc. pose proof (Z.mod_pos_bound h 1024 ltac:(lia)). pose proof (zlen_nonneg buf).
  destruct (read_loop_ok fs (ip_inode victim) h buf Hk Hf Hh Hb (Z.to_nat (block_count (ip_inode victim))) 0 0 (h mod 1024)
    (h / 1024) it (zeros (fs_block_size fs))) as (p & Hr & Hw); try done; try lia.
  - rewrite (k_bs _ Hk). by rewrite zlen_zeros.
  - apply Z.div_pos; lia.
  - assert (h / 1024 < 2 ^ 22) by (apply Z.div_lt_upper_bound; lia). lia.
  - rewrite piece_0, patch_nil, Z.add_0_r in Hr by lia. mrun Hr. cbv beta iota. rewrite Hw. done.
Qed.

(** C11: reading a file that fits the twelve direct blocks, at a head inside
    it.  [read] copies as many bytes as the buffer holds and the file has left
    into the start of the buffer, reports their number and moves the head by
    it; nothing else changes.  The bytes are those of the file from offset
    [head mod 1024] on: those at the head if it is in the first block, and
    those of an earlier place otherwise, since the block iterator is never
    moved to the head's block. *)
Theorem read_contents `{Build} {D} `{BlockDevLaws D} (fs : Ext2Fs D) victim buf ctx :
  fs_1k fs -> small_file fs (ip_inode victim) -> is_directory (ip_inode victim) = false ->
  0 <= head ctx <= i_size (ip_inode victim) -> zlen buf < 2 ^ 63 ->
  let n := Z.min (zlen buf) (i_size (ip_inode victim) - head ctx) in
  read victim buf ctx fs =
    (Ok (n, patch buf 0 (piece (contents fs (ip_inode victim)) (head ctx mod 1024) n), {| head := head ctx + n |}), fs).
Proof. intros. by apply read_small_file. Qed.

(** Two blocks of a file: block 10 and block 11 of the sample file system *)
Definition file_disk : MemDisk := u_put 4 (11 * 1024) 0x11111111 (u_put 4 (10 * 1024) 0x22222222 sample_disk).
Definition file_fs : Ext2Fs MemDisk := with_disk sample_fs file_disk.
Definition file_inode : Inode :=
  {| i_mode := 0x81A4; i_uid := 0; i_size := 1030; i_atime := 0; i_ctime := 0; i_mtime := 0; i_dtime := 0;
     i_gid := 0; i_links_count := 1; i_blocks := 4; i_flags := 0; i_osd1 := 0; i_block := 10 :: 11 :: replicate 13 0;
     i_generation := 0; i_file_acl := 0; i_dir_acl := 0; i_faddr := 0; i_osd2 := replicate 12 0 |}.
Definition file_ip : InodePlus := {| ip_inode := file_inode; absolute_idx := 3; ip_group_number := 0; relative_idx := 2 |}.
Lemma file_fs_1k : fs_1k file_fs.
Proof. split; [apply with_disk_ok; [exact sample_fs_ok|]|..]; vm_compute; reflexivity. Qed.
Lemma file_small : small_file file_fs file_inode.
Proof. split; [cbn; lia|split; [done|]]. apply in_disk_check. vm_compute. reflexivity. Qed.
(** At head 1024 the four bytes read are those of the first block. *)
Lemma read_contents_witness :
  @read dev_build _ _ file_ip (zeros 4) {| head := 0 |} file_fs =
    (Ok (4, [0x22; 0x22; 0x22; 0x22], {| head := 4 |}), file_fs) /\
  @read dev_build _ _ file_ip (zeros 4) {| head := 1024 |} file_fs =
    (Ok (4, [0x22; 0x22; 0x22; 0x22], {| head := 1028 |}), file_fs).
Proof.
  assert (piece (contents file_fs file_inode) 0 4 = [0x22; 0x22; 0x22; 0x22]) as Hp by (vm_compute; reflexivity).
  pose proof (@read_contents dev_build MemDisk _ _ file_fs file_ip (zeros 4) {| head := 0 |} file_fs_1k file_small
    eq_refl ltac:(cbn; lia) ltac:(reflexivity)) as H0.
  pose proof (@read_contents dev_build MemDisk _ _ file_fs file_ip (zeros 4) {| head := 1024 |} file_fs_1k file_small
    eq_refl ltac:(cbn; lia) ltac:(reflexivity)) as H1.
  cbn [head ip_inode file_ip] in H0, H1. change (Z.min (zlen (zeros 4)) (i_size file_inode - 0)) with 4 in H0.
  change (Z.min (zlen (zeros 4)) (i_size file_inode - 1024)) with 4 in H1.
  change (0 mod 1024) with 0 in H0. change (1024 mod 1024) with 0 in H1. cbn zeta in H0, H1. rewrite Hp in H0, H1.
  split; [exact H0|exact H1].
Defined.

(** ** What [write] does to a block *)
Section write_spec.
Context `{Build} {D : Type} `{BlockDevLaws D} (fs : Ext2Fs D).
Lemma write_block_ok buf b : fs_ok fs -> in_disk fs b -> zlen buf = fs_block_size fs -> bytes buf ->
  exists d', write_block buf b fs = (Ok (), with_disk fs d') /\ wrote (disk fs) d' (base fs + b * fs_block_size fs) buf.
Proof.
  intros Hok [Hb Hd] Hl Hby. destruct (f_bs _ Hok) as [Hbs Hm]. pose proof (bs_div fs Hok).
  destruct (write_sectors_ok fs buf (b * (fs_block_size fs / 512)) Hok) as (d' & Hw & Hwr); [nia|by rewrite Hl|done|rewrite Hl; nia|].
  exists d'. unfold write_block. mstep. rewrite block_idx_to_lba_ok by lia. mstep. split; [done|].
  by replace (base fs + b * fs_block_size fs) with (base fs + 512 * (b * (fs_block_size fs / 512))) by nia.
Qed.
Lemma patch_bytes l w xs : bytes l -> bytes xs -> bytes (patch l w xs).
Proof. intros. unfold patch. rewrite !Forall_app. split_and!; [by apply Forall_take|done|by apply Forall_drop]. Qed.
Lemma piece_bytes l o m : bytes l -> bytes (piece l o m).
Proof. intros. unfold piece. by apply Forall_take, Forall_drop. Qed.

(** C30: writing into one block, at offset [o] with [m] bytes of input for it.
    The block on the drive gets the input at the offset, no other byte of the
    drive changes, and the head and the count advance by [m].  The rest of the
    block keeps its contents only if the offset is not zero: a write from the
    start of a block clears what follows the input in it.  The size grows to
    the new head, and to one more if the block was not filled: a write that
    ends at the end of the file, inside a block, makes it one byte longer. *)
Theorem write_one_block ino input ctx b progress : fs_1k fs -> in_disk fs b -> bytes input -> zlen input < 2 ^ 63 ->
  0 <= p_offset progress < 1024 -> 0 <= p_block_idx progress < 2 ^ 31 -> 0 <= bytes_written progress <= zlen input ->
  0 <= head ctx <= i_size ino -> i_size ino < 2 ^ 31 ->
  let o := p_offset progress in
  let m := Z.min (1024 - o) (zlen input - bytes_written progress) in
  let old := if o =? 0 then zeros 1024 else block_bytes fs b in
  let size := Z.max (i_size ino) (if m <? 1024 - o then head ctx + m + 1 else head ctx + m) in
  exists d', write_till_next_block ino input ctx b progress fs =
      (Ok (set_i_size ino size, {| head := head ctx + m |},
           {| p_block_idx := p_block_idx progress + 1; p_offset := 0; bytes_written := bytes_written progress + m |}),
       with_disk fs d') /\
    wrote (disk fs) d' (base fs + b * 1024) (patch old o (piece input (bytes_written progress) m)).
Proof.
  intros Hk Hb Hin Hlen Ho Hblk Hw Hh Hs o m old size. pose proof (k_bs _ Hk) as Hbs. unfold BLOCK_SIZE in Hbs.
  pose proof (k_ok _ Hk) as Hok.
  assert (zlen old = 1024 /\ bytes old) as [Hol Hob].
  { unfold old. destruct (o =? 0); split; [reflexivity|apply bytes_check; reflexivity|by rewrite zlen_block|apply content_bytes]. }
  assert (zlen (piece input (bytes_written progress) m) = m) as Hm by (apply zlen_piece; lia).
  destruct (write_block_ok (patch old o (piece input (bytes_written progress) m)) b Hok Hb) as (d' & Hwb & Hwr).
  { rewrite zlen_patch; lia. }
  { apply patch_bytes; [done|by apply piece_bytes]. }
  exists d'. rewrite Hbs in Hwr. split; [|done]. unfold write_till_next_block. fold o.
  assert ((if o =? 0 then mret (zeros BLOCK_SIZE) else read_block (zeros BLOCK_SIZE) b) fs = (Ok (E:=HalFsIOErr) old, fs)) as Hrd.
  { unfold old. destruct (o =? 0); [done|]. apply read_block_ok; [done|done|]. by rewrite Hbs. }
  mrun Hrd. mstep. rewrite (block_size_1k fs Hk). mstep.
  rewrite (copy_in_ok input _ (1024 - o) o old (i_size ino) (head ctx) (bytes_written progress) eq_refl) by lia.
  mstep. cbv beta iota. mrun Hwb. rewrite uadd_ok by lia. mstep. done.
Qed.
End write_spec.
(** Two bytes over the start of the first block of the sample file: the rest
    of the block is cleared. *)
Lemma write_one_block_witness : exists d',
  @write_till_next_block dev_build _ _ file_inode [7; 8] {| head := 0 |} 10
    {| p_block_idx := 0; p_offset := 0; bytes_written := 0 |} file_fs =
    (Ok (set_i_size file_inode 1030, {| head := 2 |}, {| p_block_idx := 1; p_offset := 0; bytes_written := 2 |}),
     with_disk file_fs d') /\
  wrote file_disk d' (10 * 1024) (7 :: 8 :: zeros 1022).
Proof.
  destruct (@write_one_block dev_build MemDisk _ _ file_fs file_inode [7; 8] {| head := 0 |} 10
    {| p_block_idx := 0; p_offset := 0; bytes_written := 0 |} file_fs_1k) as (d' & Hr & Hw).
  - pose proof (in_disk_check file_fs [10]) as T. rewrite Forall_singleton in T. apply T. vm_compute. reflexivity.
  - apply bytes_check. reflexivity.
  - reflexivity.
  - split; vm_compute; congruence.
  - split; vm_compute; congruence.
  - split; vm_compute; congruence.
  - split; vm_compute; congruence.
  - reflexivity.
  - exists d'. split; [exact Hr|exact Hw].
Defined.

(** ** [read] returns on every drive that answers *)
Section termination.
Context `{Build} {D : Type} `{BlockDev D} (answers : forall (d : D) lba n, returns (bd_read d lba n)).
#[local] Hint Resolve answers : nohang.

Lemma read_block_nohang buf b : no_hang (read_block (D:=D) buf b).
Proof using answers. unfold read_block, read_sectors, block_idx_to_lba, sadd, smul, sdiv. nohang. Qed.
#[local] Hint Resolve read_block_nohang : nohang.
Lemma u32_at_nohang {E} buf off : returns (u32_at (E:=E) buf off).
Proof using. unfold u32_at. nohang. Qed.
#[local] Hint Resolve u32_at_nohang : nohang.
Lemma handle_block_nohang it buf b : no_hang (handle_block (D:=D) it buf b).
Proof using answers. unfold handle_block. nohang. Qed.
#[local] Hint Resolve handle_block_nohang : nohang.
Lemma load_nohang it c first idx : no_hang (load (D:=D) it c first idx).
Proof using answers. unfold load. nohang. Qed.
#[local] Hint Resolve load_nohang : nohang.
Lemma handle_ind_nohang it buf o p : no_hang (handle_ind_block (D:=D) it buf o p).
Proof using answers. unfold handle_ind_block. nohang. Qed.
#[local] Hint Resolve handle_ind_nohang : nohang.
Lemma handle_double_nohang it buf o o' p : no_hang (handle_double_ind_block (D:=D) it buf o o' p).
Proof using answers. unfold handle_double_ind_block. nohang. Qed.
#[local] Hint Resolve handle_double_nohang : nohang.
Lemma handle_triple_nohang it buf : no_hang (handle_triple_ind_block (D:=D) it buf).
Proof using answers. unfold handle_triple_ind_block, usub. nohang. Qed.
#[local] Hint Resolve handle_triple_nohang : nohang.
Lemma next_block_nohang it buf : no_hang (next_block (D:=D) it buf).
Proof using answers. unfold next_block, get_block, element, usub, uadd. nohang. Qed.

(** [m] returns an iterator at the position of [it]. *)
Definition keeps {A} (it : InodeBlockIterator) (m : M (Ext2Fs D) HalFsIOErr (A * InodeBlockIterator)) : Prop :=
  forall s a it' s', m s = (Ok (a, it'), s') -> cur_idx it' = cur_idx it /\ blocks_limit it' = blocks_limit it.
Lemma keeps_bind {A B} it (m : M (Ext2Fs D) HalFsIOErr B) (f : B -> M (Ext2Fs D) HalFsIOErr (A * InodeBlockIterator)) :
  (forall b, keeps it (f b)) -> keeps it (m ≫= f).
Proof. intros Hf s a it' s' Hr. apply M_bind_ok in Hr as (b & s1 & _ & Hr). by eapply Hf. Qed.
Lemma keeps_then {A B} it (m : M (Ext2Fs D) HalFsIOErr (B * InodeBlockIterator))
    (f : B * InodeBlockIterator -> M (Ext2Fs D) HalFsIOErr (A * InodeBlockIterator)) :
  keeps it m -> (forall b it', cur_idx it' = cur_idx it -> blocks_limit it' = blocks_limit it -> keeps it (f (b, it'))) ->
  keeps it (m ≫= f).
Proof.
  intros Hm Hf s a it' s' Hr. apply M_bind_ok in Hr as ([b it1] & s1 & Hm' & Hr).
  destruct (Hm _ _ _ _ Hm') as [H1 H2]. by eapply Hf.
Qed.
Lemma keeps_ret {A} it (a : A) it' : cur_idx it' = cur_idx it -> blocks_limit it' = blocks_limit it ->
  keeps it (mret (a, it')).
Proof. intros H1 H2 s a' it1 s' Hr. unfold mret, M_ret in Hr. by simplify_eq. Qed.
Lemma keeps_from {A} it it1 (m : M (Ext2Fs D) HalFsIOErr (A * InodeBlockIterator)) :
  cur_idx it1 = cur_idx it -> blocks_limit it1 = blocks_limit it -> keeps it1 m -> keeps it m.
Proof. intros H1 H2 Hm s a it' s' Hr. destruct (Hm _ _ _ _ Hr). split; congruence. Qed.
Ltac keeps := repeat first
  [ done | apply keeps_ret; done | eassumption
  | match goal with |- keeps _ (if ?b then _ else _) => destruct b | |- keeps _ (_ ≫= _) => apply keeps_bind; intros end ].

Lemma handle_block_keeps it buf b : keeps it (handle_block it buf b).
Proof using. unfold handle_block. keeps. Qed.
Lemma handle_ind_keeps it buf o p : keeps it (handle_ind_block it buf o p).
Proof using. unfold handle_ind_block. keeps. by eapply keeps_from; [..|apply handle_block_keeps]. Qed.
Lemma handle_double_keeps it buf o o' p : keeps it (handle_double_ind_block it buf o o' p).
Proof using. unfold handle_double_ind_block. keeps. by eapply keeps_from; [..|apply handle_ind_keeps]. Qed.
Lemma handle_triple_keeps it buf : keeps it (handle_triple_ind_block it buf).
Proof using. unfold handle_triple_ind_block. keeps. by eapply keeps_from; [..|apply handle_double_keeps]. Qed.
Lemma element_keeps it m : keeps it m -> keeps it (r ← m; element r).
Proof using. intros Hm. apply keeps_then; [done|]. intros b it' H1 H2. by apply keeps_ret. Qed.
Lemma get_block_keeps it buf : keeps it (get_block it buf).
Proof using.
  unfold get_block. repeat first
    [ apply element_keeps; first [apply handle_block_keeps | apply handle_ind_keeps | apply handle_double_keeps | apply handle_triple_keeps]
    | apply keeps_ret; done
    | match goal with |- keeps _ (if ?b then _ else _) => destruct b | |- keeps _ (_ ≫= _) => apply keeps_bind; intros end ].
Qed.
Lemma next_block_advances it buf s e it' s' : 0 <= cur_idx it < 2 ^ 63 ->
  next_block it buf s = (Ok (e, it'), s') -> is_terminated e = false ->
  cur_idx it < blocks_limit it /\ cur_idx it' = cur_idx it + 1 /\ blocks_limit it' = blocks_limit it.
Proof using.
  intros Hc Hr Ht. unfold next_block in Hr. destruct (blocks_limit it <=? cur_idx it) eqn:E; boom.
  { unfold mret, M_ret in Hr. by simplify_eq/=. }
  apply M_bind_ok in Hr as ([e1 it1] & s1 & Hg & Hr). destruct (get_block_keeps _ _ _ _ _ _ Hg) as [H1 H2].
  rewrite H1, uadd_ok in Hr by lia. rewrite run_lift in Hr. unfold mret, M_ret in Hr. simplify_eq/=. split_and!; done.
Qed.

Lemma copy_out_nohang idxs size buf : forall st, returns (copy_out idxs size buf st).
Proof using. induction idxs as [|i idxs IH]; intros [[target hd] written]; cbn [copy_out]; unfold uadd; nohang. Qed.
Lemma returns_run {S E A B} (m : M S E A) (f : A -> M S E B) s : returns (fst (m s)) ->
  (forall a s', m s = (Ok a, s') -> returns (fst (f a s'))) -> returns (fst ((m ≫= f) s)).
Proof using. intros Hm Hf. unfold mbind, M_bind. destruct (m s) as [[a|e| |] s'] eqn:E1; cbn in *; try done. by apply Hf. Qed.
Lemma read_till_nohang ino target ctx progress buf : no_hang (read_till_next_block (D:=D) ino target ctx progress buf).
Proof using. unfold read_till_next_block, block_size_of, uadd. pose proof copy_out_nohang. nohang. Qed.
Lemma read_loop_nohang fuel : forall ino it buf target ctx progress, 0 <= cur_idx it <= blocks_limit it ->
  blocks_limit it < 2 ^ 63 -> blocks_limit it - cur_idx it < Z.of_nat fuel ->
  no_hang (read_loop (D:=D) fuel ino it buf target ctx progress).
Proof using answers.
  induction fuel as [|fuel IH]; intros ino it buf target ctx progress Hc Hl Hf s; [lia|]. rewrite read_loop_round.
  destruct (_ && _); [|done]. apply returns_run; [apply next_block_nohang|]. intros [e it'] s1 Hr.
  destruct (is_terminated e) eqn:Ht; [done|]. destruct (next_block_advances it buf s e it' s1 ltac:(lia) Hr Ht) as (H1 & H2 & H3).
  apply returns_run; [apply read_till_nohang|]. intros [[target' ctx'] progress'] s2 _. apply IH; lia.
Qed.
Lemma create_iterator_limit {E} (fs : Ext2Fs D) ino gr it : 0 <= i_size ino ->
  create_block_iterator (E:=E) fs ino gr = Ok it -> cur_idx it = 0 /\ 0 <= blocks_limit it <= i_size ino + 1.
Proof using.
  intros Hs Hit. unfold create_block_iterator in Hit. apply res_bind_ok in Hit as (bs & Hbs & Hit).
  apply res_bind_ok in Hit as (lim & Hlim & [= <-]). cbn. split; [done|].
  assert (0 <= bs).
  { unfold block_size_of, ushl in Hbs. destruct (_ && _); [|destruct overflow_checks]; try done; injection Hbs as <-;
      apply wrap_range; lia. }
  unfold div_ceil, udiv, urem in Hlim. destruct (Z.eqb_spec bs 0); [done|]. cbn in Hlim. injection Hlim as <-.
  assert (0 <= i_size ino / bs <= i_size ino) by (split; [apply Z.div_pos; lia|apply Z.div_le_upper_bound; nia]).
  destruct (0 <? i_size ino mod bs); lia.
Qed.

(** On every drive that answers its requests, whatever is on it, [read]
    returns: with a count, an error or a panic, after at most as many rounds as
    the file has blocks, and one. *)
Theorem read_terminates fs victim buf ctx : 0 <= i_size (ip_inode victim) < 2 ^ 32 ->
  returns (fst (read victim buf ctx fs)).
Proof using answers.
  intros Hs. unfold read. destruct (is_directory _); [done|]. destruct (_ =? 0); [done|].
  apply returns_run; [done|]. intros fs' s1 _. apply returns_run; [unfold block_size_of; apply no_hang_lift; nohang|]. intros bs s2 _.
  apply returns_run; [unfold progress_at; apply no_hang_lift; nohang|]. intros progress s3 _.
  apply returns_run; [unfold create_block_iterator, block_size_of, div_ceil; apply no_hang_lift; nohang|]. intros it s4 Hit.
  unfold lift in Hit. assert (create_block_iterator fs' (ip_inode victim) (ip_group_number victim) = Ok (E:=HalFsIOErr) it) as Hit' by congruence.
  apply create_iterator_limit in Hit' as [Hc Hlim]; [|lia].
  apply returns_run; [done|]. intros block_buf s5 _. apply returns_run; [apply read_loop_nohang; lia|]. by intros [[? ?] ?] s6 _.
Qed.
End termination.
Lemma mem_disk_answers (d : MemDisk) lba n : returns (bd_read d lba n).
Proof. cbn [bd_read mem_disk]. by destruct (_ && _). Qed.
Lemma read_terminates_witness : returns (fst (@read dev_build _ _ file_ip (zeros 4) {| head := 1024 |} file_fs)).
Proof. apply (@read_terminates dev_build MemDisk _ mem_disk_answers). cbn. lia. Defined.
