(* ===== verification/Ext2Dir.v ===== *)
(** * ext2: directories

    src/kernel/src/drivers/fs/ext2/open.rs: searching a directory for a name,
    with the deletion of the entry found, and walking a path.

    A directory block is searched entry by entry.  Every entry moves on by its
    record length, so a block has at most as many rounds as bytes as long as
    record lengths are positive; with a record length of zero the loop repeats
    the same round for ever, and the fuel of one more than the block size is
    used up exactly then. *)

From S2P Require Import Path Prelude Bytes Serialize Crypto Disk Ext2Layout Ext2Fs Ext2Alloc Ext2Iter Ext2File.

(** The state of a search in a block *)
Record FindState := { progr : Z; this_entry_idx : Z; last_entry_idx : Z; remaining_size : Z; sbuf : list Z }.

Section dir.
Context `{Build} {D : Type} `{BlockDev D}.
Abbreviation EM := (M (Ext2Fs D) HalFsIOErr).

(** Removing the entry found: the first one of a block becomes padding, another
    one is joined to the one before it. *)
Definition delete_entry (entry : DirEntry) (this last : Z) (buf : list Z) (lba : Z) : EM (list Z) :=
  buf ← (if this =? last then
           raw ← lift (slice buf 0 DIR_ENTRY_PARTIAL_BYTES);
           n ← lift (record_length entry);
           lift (splice buf 0 (u_put 2 6 0 (u_put 2 4 n (u_put 4 0 0 raw))))
         else
           this_raw ← lift (slice buf this (this + DIR_ENTRY_PARTIAL_BYTES));
           last_raw ← lift (slice buf last (last + DIR_ENTRY_PARTIAL_BYTES));
           n ← lift (uadd 16 (dp_rec_len last_raw) (dp_rec_len this_raw));
           lift (splice buf last (u_put 2 4 n last_raw)));
  _ ← write_sectors buf lba;
  mret buf.

Definition is_special (nm : list Z) : bool := bool_decide (nm = str ".") || bool_decide (nm = str "..").

(** One entry at a time; the result is what was found, whether the directory
    ended, the buffer and the size that remains. *)
Fixpoint find_loop (fuel : nat) (nm : list Z) (lba : Z) (delete find_is_empty : bool) (s : FindState) :
    EM (option Z * bool * list Z * Z) :=
  fs ← get;
  bs ← lift (block_size_of (super_block fs));
  if progr s <? bs then
    match fuel with
    | O => lift Hang
    | S fuel =>
        sub ← lift (slice_from (sbuf s) (progr s));
        '(entry, bytes_read) ← lift (map_err DeserializationErr (DirEntry_deserialize Little sub));
        p ← lift (uadd 32 (progr s) (wrap 32 bytes_read));
        rem ← lift (usub 32 (remaining_size s) (wrap 32 bytes_read));
        let terminated := rem <=? 0 in
        let continue :=
          this ← lift (uadd 64 (this_entry_idx s) bytes_read);
          find_loop fuel nm lba delete find_is_empty
            {| progr := p; this_entry_idx := this; last_entry_idx := this_entry_idx s;
               remaining_size := rem; sbuf := sbuf s |} in
        if is_special (name entry) then
          if terminated then mret (None, true, sbuf s, rem)
          else continue
        else if negb (inode entry =? 0) && bool_decide (nm = name entry) && negb find_is_empty then
          buf ← (if delete then delete_entry entry (this_entry_idx s) (last_entry_idx s) (sbuf s) lba
                 else mret (sbuf s));
          mret (Some (inode entry), terminated, buf, rem)
        else if terminated then mret (None, false, sbuf s, rem)
        else continue
    end
  else mret (None, false, sbuf s, remaining_size s).
Definition find_entry_by_name_in_block (nm buf : list Z) (lba : Z) (delete find_is_empty : bool) (remaining : Z) :
    EM (option Z * bool * list Z * Z) :=
  fs ← get;
  bs ← lift (block_size_of (super_block fs));
  find_loop (S (Z.to_nat bs)) nm lba delete find_is_empty
    {| progr := 0; this_entry_idx := 0; last_entry_idx := 0; remaining_size := remaining; sbuf := buf |}.

(** Block by block; every round but the last takes a block of the iterator. *)
Fixpoint find_blocks (fuel : nat) (nm : list Z) (delete find_is_empty : bool) (it : InodeBlockIterator)
    (buf : list Z) (remaining : Z) : EM (option Z) :=
  match fuel with
  | O => lift Hang
  | S fuel =>
      '(e, it) ← next_block it buf;
      if is_terminated e then mret None else
      fs ← get;
      lba ← lift (block_idx_to_lba (fs_block_size fs) (el_block_idx e));
      '(found, terminated, buf, remaining) ←
        find_entry_by_name_in_block nm (el_buf e) lba delete find_is_empty remaining;
      if (terminated : bool) then mret (if find_is_empty then None else found)
      else match found with
           | Some i => mret (Some i)
           | None => find_blocks fuel nm delete find_is_empty it buf remaining
           end
  end.
Definition do_find_entry_by_name (nm : list Z) (victim : InodePlus) (delete find_is_empty : bool) : EM (option Z) :=
  let ino := ip_inode victim in
  if negb (is_directory ino) then throw NotADirectory else
  buf ← get_buffer;
  fs ← get;
  it ← lift (create_block_iterator fs ino (ip_group_number victim));
  find_blocks (S (Z.to_nat (blocks_limit it))) nm delete find_is_empty it buf (i_size ino).
Definition find_entry_by_name (nm : list Z) (ip : InodePlus) : EM (option Z) := do_find_entry_by_name nm ip false false.
Definition find_entry_by_name_and_delete (nm : list Z) (ip : InodePlus) : EM (option Z) :=
  do_find_entry_by_name nm ip true false.
Definition is_dir_empty (ip : InodePlus) : EM bool :=
  o ← do_find_entry_by_name [] ip false false;
  mret (match o with None => true | Some _ => false end).

(** ** Walking a path

    The source takes the components one at a time and peeks at the next one;
    the components of a normalized path are a list, taken at once here. *)
Definition ROOT_DIRECTORY_INODE_IDX : Z := 2.
Fixpoint walk (cs : list (list Z)) (ino : InodePlus) (dir : Z) : EM (Z * option InodePlus) :=
  match cs with
  | [] => mret (dir, None)
  | c :: cs =>
      found ← find_entry_by_name c ino;
      match found, cs with
      | Some i, [] => f ← get_nth_inode (wrap 32 i); mret (dir, Some f)
      | Some i, _ :: _ => ino ← get_nth_inode (wrap 32 i); walk cs ino (wrap 32 i)
      | None, [] => mret (dir, None)
      | None, _ :: _ => throw NoSuchFileOrDirectory
      end
  end.
Definition walk_path (path : Path.Path) : EM (InodePlus * option InodePlus) :=
  group ← get_group 0;
  lba ← lift (get_inode_table_lba group);
  _ ← read_sectors (zeros SECTOR_SIZE) lba;
  root ← get_nth_inode 2;
  q ← lift (from_never (Path.normalize path));
  cs ← lift (from_never (Path.collect (S (length (Path.raw q))) (Path.components q)));
  '(dir, file) ← walk cs root ROOT_DIRECTORY_INODE_IDX;
  d ← get_nth_inode dir;
  mret (d, file).
End dir.

(** ** A directory block as a list of entries *)
(** The name as [DirEntry_deserialize] gives it *)
Definition dname (e : DirEntry) : list Z := name e ≫= latin1.
(** What a search for [nm] stops at *)
Definition hit (nm : list Z) (e : DirEntry) : bool :=
  negb (is_special (dname e)) && (negb (inode e =? 0) && bool_decide (nm = dname e)).
Fixpoint lookup_name (nm : list Z) (es : list DirEntry) : option Z :=
  match es with
  | [] => None
  | e :: es => if hit nm e then Some (inode e) else lookup_name nm es
  end.
(** Header, name and padding of each entry, one after the other *)
Inductive lays : list DirEntry -> list Z -> Prop :=
| lays_nil : lays [] []
| lays_cons e es pad rest : is_uint 4 (inode e) -> is_uint 2 (rec_len e) -> is_uint 1 (file_type e) ->
    zlen (name e) <= 255 -> 8 + zlen (name e) + zlen pad = rec_len e -> lays es rest ->
    lays (e :: es) (dir_enc Little (inode e) (rec_len e) (file_type e) (name e) ++ name e ++ pad ++ rest).

Lemma lookup_name_app nm es es' :
  lookup_name nm (es ++ es') = match lookup_name nm es with Some i => Some i | None => lookup_name nm es' end.
Proof. induction es as [|e es IH]; [done|]. cbn. by destruct (hit nm e). Qed.
Lemma zlen_dir_enc e ino len ft nm : zlen (dir_enc e ino len ft nm) = 8.
Proof. unfold zlen. by rewrite length_dir_enc. Qed.
Lemma lays_length es buf : lays es buf -> 8 * zlen es <= zlen buf.
Proof.
  induction 1 as [|e es pad rest _ _ _ _ Hr _ IH]; [done|]. rewrite !zlen_app, zlen_cons, zlen_dir_enc.
  pose proof (zlen_nonneg (name e)). pose proof (zlen_nonneg pad). lia.
Qed.
Lemma lays_nil_inv es : lays es [] -> es = [].
Proof. intros Hl. apply lays_length in Hl. destruct es; [done|]. rewrite zlen_cons in Hl. pose proof (zlen_nonneg es). change (zlen []) with 0 in Hl. lia. Qed.

Section lookup.
Context `{Build} {D : Type} `{BlockDevLaws D} (fs : Ext2Fs D) (Hk : fs_1k fs).

(** The entry as the loop sees it *)
Definition seen (e : DirEntry) : DirEntry :=
  {| inode := inode e; rec_len := rec_len e; file_type := file_type e; name := dname e |}.
(** One round of the loop, at an entry *)
Lemma find_loop_round nm lba del fuel pre e tail last rem :
  let buf := pre ++ dir_enc Little (inode e) (rec_len e) (file_type e) (name e) ++ name e ++ tail in
  is_uint 4 (inode e) -> is_uint 2 (rec_len e) -> is_uint 1 (file_type e) -> zlen (name e) <= 255 ->
  zlen pre < 1024 -> rec_len e <= rem < 2 ^ 32 ->
  find_loop (S fuel) nm lba del false
    {| progr := zlen pre; this_entry_idx := zlen pre; last_entry_idx := last; remaining_size := rem; sbuf := buf |} fs =
  if hit nm e then
    (b ← (if del then delete_entry (seen e) (zlen pre) last buf lba else mret buf);
     mret (Some (inode e), rem - rec_len e <=? 0, b, rem - rec_len e)) fs
  else if rem - rec_len e <=? 0 then (Ok (None, is_special (dname e), buf, rem - rec_len e), fs)
  else find_loop fuel nm lba del false
    {| progr := zlen pre + rec_len e; this_entry_idx := zlen pre + rec_len e; last_entry_idx := zlen pre;
       remaining_size := rem - rec_len e; sbuf := buf |} fs.
Proof using All.
  intros buf Hi Hr Hf Hn Hp Hrem. pose proof (zlen_nonneg pre). pose proof Hr as [Hr0 Hr1]. change (256 ^ Z.of_nat 2) with 65536 in Hr1.
  cbn [find_loop]. mstep. rewrite (block_size_1k fs Hk). mstep. cbn [progr sbuf remaining_size this_entry_idx last_entry_idx].
  btrue (zlen pre <? 1024).
  assert (slice_from buf (zlen pre) = Ok (E:=HalFsIOErr) (dir_enc Little (inode e) (rec_len e) (file_type e) (name e) ++ name e ++ tail)) as ->.
  { unfold buf. rewrite slice_from_ok by (rewrite zlen_app; pose proof (zlen_nonneg (dir_enc Little (inode e) (rec_len e) (file_type e) (name e) ++ name e ++ tail)); lia).
    by rewrite to_nat_zlen, drop_app_length. }
  mstep. rewrite DirEntry_deserialize_ok by done. cbn [map_err]. mstep. cbv beta iota. rewrite (wrap_small 32) by lia.
  rewrite (uadd_ok 32) by lia. mstep. rewrite usub_ok by lia. mstep. cbn [name inode]. fold (dname e). unfold hit.
  assert (forall E, uadd 64 (zlen pre) (rec_len e) = Ok (E:=E) (zlen pre + rec_len e)) as Hu by (intros; apply uadd_ok; lia).
  destruct (is_special (dname e)) eqn:Es; cbn [negb andb].
  - destruct (rem - rec_len e <=? 0); [done|]. rewrite Hu. by mstep.
  - rewrite andb_true_r. destruct (negb (inode e =? 0) && bool_decide (nm = dname e)); [done|].
    destruct (rem - rec_len e <=? 0); [done|]. rewrite Hu. by mstep.
Qed.

Lemma find_loop_lookup nm lba es rest : lays es rest -> forall fuel pre last rem,
  zlen (pre ++ rest) = 1024 -> zlen rest <= rem < 2 ^ 32 -> (length es <= fuel)%nat ->
  exists t rem', find_loop fuel nm lba false false
      {| progr := zlen pre; this_entry_idx := zlen pre; last_entry_idx := last; remaining_size := rem; sbuf := pre ++ rest |} fs =
    (Ok (lookup_name nm es, t, pre ++ rest, rem'), fs) /\
    (lookup_name nm es = None -> rem' = rem - zlen rest /\ (t = true -> rem' = 0)).
Proof using All.
  induction 1 as [|e es pad rest Hi Hr Hf Hn Hlen Hl IH]; intros fuel pre last rem Hz Hrem Hfuel.
  - rewrite app_nil_r in *. exists false, rem. change (zlen []) with 0.
    split; [|by rewrite Z.sub_0_r]. destruct fuel; cbn [find_loop]; mstep; rewrite (block_size_1k fs Hk); mstep;
      cbn [progr]; by bfalse (zlen pre <? 1024).
  - destruct fuel as [|fuel]; [cbn in Hfuel; lia|].
    pose proof (zlen_nonneg (name e)). pose proof (zlen_nonneg pad). pose proof (zlen_nonneg rest). pose proof (zlen_nonneg pre).
    set (enc := dir_enc _ _ _ _ _) in *. assert (zlen enc = 8) as He by apply zlen_dir_enc.
    assert (zlen (enc ++ name e ++ pad ++ rest) = rec_len e + zlen rest) as Hzr by (rewrite !zlen_app; lia).
    rewrite zlen_app in Hz. rewrite Hzr in *. unfold enc. rewrite find_loop_round by (done || lia). fold enc. cbn [lookup_name].
    destruct (hit nm e); [by eexists _, _|]. destruct (rem - rec_len e <=? 0) eqn:Et; boom.
    + assert (rest = []) as -> by (apply length_zero_iff_nil; unfold zlen in *; lia).
      apply lays_nil_inv in Hl as ->. eexists _, _. split; [done|]. change (zlen []) with 0. lia.
    + destruct (IH fuel (pre ++ enc ++ name e ++ pad) (zlen pre) (rem - rec_len e)) as (t & rem' & Hr' & Hlast);
        [rewrite !zlen_app; lia|lia|cbn in Hfuel; lia|].
      rewrite <- !app_assoc in Hr'. rewrite !zlen_app, He in Hr'. replace (zlen pre + (8 + (zlen (name e) + zlen pad))) with (zlen pre + rec_len e) in Hr' by lia.
      exists t, rem'. split; [exact Hr'|]. intros Hno. specialize (Hlast Hno). lia.
Qed.

(** A directory whose direct blocks hold the lists of entries [ess] *)
Record dir_ok (ino : Inode) (ess : list (list DirEntry)) : Prop := {
  d_dir : is_directory ino = true;
  d_small : small_file fs ino;
  d_size : i_size ino = 1024 * zlen ess;
  d_blocks : forall j es, ess !! j = Some es -> nth j (i_block ino) 0 <> 0 /\ lays es (file_block fs (nth j (i_block ino) 0));
}.
Lemma dir_block_count ino ess : dir_ok ino ess -> block_count ino = zlen ess /\ zlen ess <= 12.
Proof using All.
  intros [_ Hf Hs _]. unfold block_count. rewrite Hs. destruct (sf_size _ _ Hf).
  split; [symmetry; apply (Z.div_unique _ _ _ 1023); lia|lia].
Qed.
Lemma find_block_lookup nm lba es buf rem : lays es buf -> zlen buf = 1024 -> 1024 <= rem < 2 ^ 32 ->
  exists t rem', find_entry_by_name_in_block nm buf lba false false rem fs = (Ok (lookup_name nm es, t, buf, rem'), fs) /\
    (lookup_name nm es = None -> rem' = rem - 1024 /\ (t = true -> rem' = 0)).
Proof using All.
  intros Hl Hz Hr. unfold find_entry_by_name_in_block. mstep. rewrite (block_size_1k fs Hk). mstep.
  rewrite <- Hz in *. apply (find_loop_lookup nm lba es buf Hl _ [] 0 rem); [done|lia|].
  apply lays_length in Hl. unfold zlen in *. lia.
Qed.

Lemma find_blocks_ok nm ino ess : dir_ok ino ess -> forall rest j it buf,
  drop (Z.to_nat j) ess = rest -> 0 <= j <= zlen ess -> it_ok fs it -> blocks it = i_block ino -> cur_idx it = j ->
  blocks_limit it = zlen ess -> zlen buf = 1024 ->
  find_blocks (S (length rest)) nm false false it buf (1024 * zlen rest) fs = (Ok (lookup_name nm (concat rest)), fs).
Proof using All.
  intros Hd. destruct (dir_block_count _ _ Hd) as [_ H12].
  induction rest as [|es rest IH]; intros j it buf Hdrop Hj Hi Hb Hc Hlim Hz; cbn [length find_blocks].
  - assert (zlen ess <= j) by (apply (f_equal length) in Hdrop; rewrite length_drop in Hdrop; unfold zlen in *; cbn in Hdrop; lia).
    unfold next_block. btrue (blocks_limit it <=? cur_idx it). done.
  - assert (ess !! Z.to_nat j = Some es) as He by (by rewrite <- (Nat.add_0_r (Z.to_nat j)), <- lookup_drop, Hdrop).
    pose proof (lookup_lt_Some _ _ _ He) as Hlt. destruct (d_blocks _ _ Hd _ _ He) as [Hnz Hl].
    destruct (next_block_1k fs it buf Hk Hi) as (e & it' & Hr & Ht & Hbuf & Hi' & Hb' & Hc' & Hlim' & Hidx); [unfold zlen in *; lia..|].
    rewrite Hb, Hc in *. mrun Hr. cbv beta iota. rewrite Ht. mstep.
    destruct (sf_blocks _ _ (d_small _ _ Hd)) as [H15 Hin].
    assert (in_disk fs (nth (Z.to_nat j) (i_block ino) 0)) as [Hbr _].
    { rewrite Forall_forall in Hin. apply Hin, list_elem_of_In, nth_In. unfold zlen in *. lia. }
    pose proof (k_bs _ Hk) as Hbs. unfold BLOCK_SIZE in Hbs.
    rewrite (Hidx Hnz), Hbs, block_idx_to_lba_ok by (done || lia). mstep. rewrite Hbuf. rewrite zlen_cons. pose proof (zlen_nonneg rest).
    assert (1 + zlen rest = zlen ess - j) as Hrl.
    { apply (f_equal length) in Hdrop. rewrite length_drop in Hdrop. unfold zlen in *. cbn in Hdrop. lia. }
    edestruct (find_block_lookup nm) as (t & rem' & Hfind & Hlast); [exact Hl|by apply zlen_file_block|
      |mrun Hfind]; [lia|]. cbv beta iota. cbn [concat]. rewrite lookup_name_app.
    destruct (lookup_name nm es) as [i|] eqn:El; [by destruct t|]. destruct (Hlast eq_refl) as [-> Hz0]. destruct t.
    + assert (zlen rest = 0) as Hr0 by (specialize (Hz0 eq_refl); lia). destruct rest; [done|].
      rewrite zlen_cons in Hr0. pose proof (zlen_nonneg rest). lia.
    + replace (1024 * (1 + zlen rest) - 1024) with (1024 * zlen rest) by lia. apply (IH (j + 1)); try done; try lia.
      * rewrite Z2Nat.inj_add, <- drop_drop, Hdrop by lia. done.
      * by apply zlen_file_block.
Qed.
Lemma lookup_dir nm ip ess : dir_ok (ip_inode ip) ess ->
  find_entry_by_name nm ip fs = (Ok (lookup_name nm (concat ess)), fs).
Proof using All.
  intros Hd. destruct (dir_block_count _ _ Hd) as [Hcount H12]. unfold find_entry_by_name, do_find_entry_by_name.
  rewrite (d_dir _ _ Hd). cbn [negb]. unfold get_buffer. mstep. mstep.
  destruct (iterator_1k (E:=HalFsIOErr) fs (ip_inode ip) (ip_group_number ip) Hk (d_small _ _ Hd)) as (it & Hit & Hi & Hbl & Hc & Hlim).
  rewrite Hit. mstep. rewrite Hlim, Hcount, (d_size _ _ Hd), to_nat_zlen.
  apply (find_blocks_ok nm (ip_inode ip) ess Hd ess 0); try done; try congruence.
  - pose proof (zlen_nonneg ess). lia.
  - rewrite (k_bs _ Hk). by rewrite zlen_zeros.
Qed.
End lookup.

(** ** Walking refines resolving in a tree *)
Inductive node := Dir (ess : list (list DirEntry)) | File.
(** What the inode numbers in use stand for *)
Definition tree := Z -> option (InodePlus * node).
Fixpoint resolve (t : tree) (dir : Z) (cs : list (list Z)) : res HalFsIOErr (Z * option Z) :=
  match cs with
  | [] => Ok (dir, None)
  | c :: cs =>
      match t dir with
      | Some (_, Dir ess) =>
          match lookup_name c (concat ess), cs with
          | o, [] => Ok (dir, o)
          | Some i, _ :: _ => resolve t i cs
          | None, _ :: _ => Err NoSuchFileOrDirectory
          end
      | _ => Err NotADirectory
      end
  end.
Lemma resolve_errors t cs : forall dir e, resolve t dir cs = Err e -> e = NoSuchFileOrDirectory \/ e = NotADirectory.
Proof.
  induction cs as [|c cs IH]; intros dir e; cbn [resolve]; [done|].
  destruct (t dir) as [[? [ess|]]|]; [|intros [= <-]; by right..].
  destruct (lookup_name _ _), cs; try done; [apply IH|intros [= <-]; by left].
Qed.
Definition inode_at (t : tree) (i : Z) : option InodePlus := fst <$> t i.

Section walking.
Context `{Build} {D : Type} `{BlockDevLaws D} (fs : Ext2Fs D) (Hk : fs_1k fs).
Record tree_ok (t : tree) : Prop := {
  t_root : is_Some (t ROOT_DIRECTORY_INODE_IDX);
  t_node : forall i ip nd, t i = Some (ip, nd) -> 0 <= i < 2 ^ 32 /\ get_nth_inode i fs = (Ok ip, fs) /\
    match nd with Dir ess => dir_ok fs (ip_inode ip) ess | File => is_directory (ip_inode ip) = false end;
  t_closed : forall i ip ess nm j, t i = Some (ip, Dir ess) -> lookup_name nm (concat ess) = Some j -> is_Some (t j);
}.
Lemma walk_ok t : tree_ok t -> forall cs i ip nd, t i = Some (ip, nd) ->
  match resolve t i cs with
  | Ok (d, o) => is_Some (t d) /\ walk cs ip i fs = (Ok (d, o ≫= inode_at t), fs)
  | Err e => walk cs ip i fs = (Err e, fs)
  | _ => False
  end.
Proof using All.
  intros Ht. induction cs as [|c cs IH]; intros i ip nd Hi; cbn [resolve walk]; [by eauto|].
  rewrite Hi. destruct (t_node _ Ht _ _ _ Hi) as (_ & _ & Hnd). destruct nd as [ess|].
  2:{ unfold find_entry_by_name, do_find_entry_by_name. by rewrite Hnd. }
  mrun (lookup_dir fs Hk c ip ess Hnd). destruct (lookup_name c (concat ess)) as [j|] eqn:El; [|by destruct cs; eauto].
  destruct (t_closed _ Ht _ _ _ _ _ Hi El) as [[jp nd'] Hj]. destruct (t_node _ Ht _ _ _ Hj) as (Hr & Hg & _).
  rewrite wrap_small by lia. destruct cs as [|c' cs].
  - mrun Hg. split; [by eauto|]. cbn. unfold inode_at. by rewrite Hj.
  - mrun Hg. by apply (IH j jp nd').
Qed.
Lemma walk_path_ok t p : tree_ok t -> inode_in fs 0 0 -> Path.absolute p ->
  match resolve t ROOT_DIRECTORY_INODE_IDX (foldl Path.normalize_step [] (Path.pieces (Path.raw p))) with
  | Ok (d, o) => exists dip, inode_at t d = Some dip /\ walk_path p fs = (Ok (dip, o ≫= inode_at t), fs)
  | Err e => walk_path p fs = (Err e, fs)
  | _ => False
  end.
Proof using All.
  intros Ht Hin Ha. pose proof (k_ok _ Hk) as Hok. destruct (t_root _ Ht) as [[ip nd] Hroot].
  destruct (t_node _ Ht _ _ _ Hroot) as (_ & Hg & _). pose proof (walk_ok t Ht (foldl Path.normalize_step [] (Path.pieces (Path.raw p))) _ _ _ Hroot) as Hw.
  pose proof (inode_sector_ok fs 0 0 Hok Hin) as Hs. cbn zeta in Hs. destruct Hs as (l & Hl & Hadd & _ & _ & Hr).
  change (128 * 0 / 512) with 0 in *. rewrite Z.add_0_r in Hr. destruct (Path.collect_normalized p Ha) as (q & Hq & Hc).
  assert (walk_path p fs = ('(dir, file) ← walk (foldl Path.normalize_step [] (Path.pieces (Path.raw p))) ip ROOT_DIRECTORY_INODE_IDX;
    d ← get_nth_inode dir; mret (d, file)) fs) as ->.
  { unfold walk_path. mrun (get_group_ok fs 0 Hok (proj1 Hin)). rewrite Hl. mstep. mrun Hr. mrun Hg.
    rewrite Hq. unfold from_never. cbn [map_err]. mstep. rewrite Hc. cbn [map_err]. mstep. done. }
  destruct (resolve _ _ _) as [[d o]|e| |]; try done.
  - destruct Hw as [[[dip nd'] Hd] Hw]. destruct (t_node _ Ht _ _ _ Hd) as (_ & Hgd & _).
    exists dip. unfold inode_at at 1. rewrite Hd. split; [done|]. mrun Hw. cbv beta iota. mrun Hgd. done.
  - unfold mbind, M_bind. by rewrite Hw.
Qed.
End walking.

(** ** Deleting an entry *)
Lemma lays_app es es' a b : lays es a -> lays es' b -> lays (es ++ es') (a ++ b).
Proof.
  intros Ha Hb. induction Ha as [|e es pad rest Hi Hr Hf Hn Hlen _ IH]; [done|].
  rewrite <- !app_assoc. by constructor.
Qed.
Lemma lays_split es es' buf : lays (es ++ es') buf -> exists a b, buf = a ++ b /\ lays es a /\ lays es' b.
Proof.
  revert buf. induction es as [|e es IH]; intros buf Hl; [exists [], buf; split_and!; [done|constructor|done]|].
  inversion Hl as [|? ? pad rest Hi Hr Hf Hn Hlen Hl']; subst. destruct (IH _ Hl') as (a & b & -> & Ha & Hb).
  eexists _, b. split_and!; [|by apply (lays_cons e es pad a)|done]. by rewrite <- !app_assoc.
Qed.
Lemma dir_enc_rec_len ino len ft nm : is_uint 2 len -> dp_rec_len (dir_enc Little ino len ft nm) = len.
Proof. intros Hl. unfold dp_rec_len. change (le_num (le_bytes 2 len) = len). by apply le_num_bytes. Qed.
Lemma dir_enc_bytes e ino len ft nm : bytes (dir_enc e ino len ft nm).
Proof. unfold dir_enc. rewrite !Forall_app. split_and!; auto using to_bytes_bytes. Qed.

Section deleting.
Context `{Build} {D : Type} `{BlockDevLaws D} (fs : Ext2Fs D) (Hk : fs_1k fs) (lba : Z) (Hlba : 0 <= lba)
  (Hin : base fs + 512 * lba + 1024 <= bd_size (disk fs)).

(** The first entry of a block becomes padding of the same length. *)
Lemma delete_first_ok e tail : entry_len (seen e) = rec_len e -> zlen (dname e) <= 65523 ->
  let buf := dir_enc Little (inode e) (rec_len e) (file_type e) (name e) ++ tail in
  let buf' := dir_enc Little 0 (rec_len e) 0 [] ++ tail in
  zlen buf = 1024 -> bytes buf ->
  exists d', delete_entry (seen e) 0 0 buf lba fs = (Ok buf', with_disk fs d') /\ wrote (disk fs) d' (base fs + 512 * lba) buf'.
Proof using All.
  intros Hlen Hd buf buf' Hz Hb. apply Forall_app in Hb as [_ Hb].
  destruct (write_sectors_ok fs buf' lba (k_ok _ Hk) Hlba) as (d' & Hw & Hwr).
  { unfold buf, buf' in *. rewrite zlen_app, zlen_dir_enc in *. by rewrite Hz. }
  { apply Forall_app. split; [apply dir_enc_bytes|done]. }
  { unfold buf, buf' in *. rewrite zlen_app, zlen_dir_enc in *. lia. }
  exists d'. split; [|done]. unfold delete_entry. cbn [Z.eqb].
  pose proof (fun E => slice_mid (E:=E) [] (dir_enc Little (inode e) (rec_len e) (file_type e) (name e)) tail) as Hs.
  rewrite zlen_dir_enc in Hs. cbn [app] in Hs. change (zlen [] + 8) with DIR_ENTRY_PARTIAL_BYTES in Hs. change (zlen []) with 0 in Hs.
  unfold buf. rewrite M_assoc, Hs. mstep. rewrite M_assoc, record_length_ok by done. mstep.
  change (Z.max (align4 (8 + zlen (name (seen e)))) (rec_len (seen e))) with (entry_len (seen e)). rewrite Hlen.
  change (u_put 2 6 0 _) with (dir_enc Little 0 (rec_len e) 0 []).
  pose proof (fun E => splice_mid (E:=E) [] (dir_enc Little (inode e) (rec_len e) (file_type e) (name e)) (dir_enc Little 0 (rec_len e) 0 []) tail) as Hp.
  cbn [app] in Hp. change (zlen []) with 0 in Hp. rewrite Hp by (by rewrite !zlen_dir_enc). mstep. fold buf'. mrun Hw. done.
Qed.
(** A later one is joined to the entry before it. *)
Lemma delete_joined_ok pre p mid e tail : is_uint 2 (rec_len p) -> is_uint 2 (rec_len e) -> rec_len p + rec_len e < 2 ^ 16 ->
  8 + zlen mid = rec_len p ->
  let penc n := dir_enc Little (inode p) n (file_type p) (name p) in
  let rest := mid ++ dir_enc Little (inode e) (rec_len e) (file_type e) (name e) ++ tail in
  let buf := pre ++ penc (rec_len p) ++ rest in
  let buf' := pre ++ penc (rec_len p + rec_len e) ++ rest in
  zlen buf = 1024 -> bytes buf ->
  exists d', delete_entry (seen e) (zlen pre + rec_len p) (zlen pre) buf lba fs = (Ok buf', with_disk fs d') /\
    wrote (disk fs) d' (base fs + 512 * lba) buf'.
Proof using All.
  intros Hp He Hsum Hmid penc rest buf buf' Hz Hb. pose proof (zlen_nonneg mid). pose proof (zlen_nonneg pre).
  assert (forall n, zlen (penc n) = 8) as Hpe by (intros; apply zlen_dir_enc).
  assert (zlen buf' = 1024) as Hz' by (unfold buf, buf' in *; rewrite !zlen_app, !Hpe in *; lia).
  destruct (write_sectors_ok fs buf' lba (k_ok _ Hk) Hlba) as (d' & Hw & Hwr); [by rewrite Hz'| |lia|].
  { unfold buf, buf' in *. rewrite !Forall_app in *. split_and!; try tauto. apply dir_enc_bytes. }
  exists d'. split; [|done]. unfold delete_entry. bfalse (zlen pre + rec_len p =? zlen pre). unfold DIR_ENTRY_PARTIAL_BYTES.
  assert (forall E, slice buf (zlen pre + rec_len p) (zlen pre + rec_len p + 8) =
    Ok (E:=E) (dir_enc Little (inode e) (rec_len e) (file_type e) (name e))) as Hs.
  { intros E. pose proof (slice_mid (E:=E) (pre ++ penc (rec_len p) ++ mid) (dir_enc Little (inode e) (rec_len e) (file_type e) (name e)) tail) as T.
    rewrite !zlen_app, Hpe, zlen_dir_enc, <- !app_assoc in T. by replace (zlen pre + (8 + zlen mid)) with (zlen pre + rec_len p) in T by lia. }
  rewrite M_assoc, Hs. mstep. pose proof (slice_mid (E:=HalFsIOErr) pre (penc (rec_len p)) rest) as Hs'. rewrite Hpe in Hs'. fold buf in Hs'.
  rewrite M_assoc, Hs'. mstep. change (dp_rec_len (penc (rec_len p))) with (dp_rec_len (dir_enc Little (inode p) (rec_len p) (file_type p) (name p))).
  rewrite !dir_enc_rec_len by done. destruct Hp, He. rewrite M_assoc, uadd_ok by lia. mstep.
  change (u_put 2 4 (rec_len p + rec_len e) (penc (rec_len p))) with (penc (rec_len p + rec_len e)). unfold buf. rewrite splice_mid by (by rewrite !Hpe). mstep. mrun Hw. done.
Qed.

(** Entries that are not looked for are passed over. *)
Lemma find_loop_skip nm del es a : lays es a -> forall fuel pre b last rem, Forall (fun e => hit nm e = false) es ->
  zlen (pre ++ a ++ b) = 1024 -> 0 < zlen b -> zlen a + zlen b <= rem < 2 ^ 32 ->
  exists last', find_loop (length es + fuel) nm lba del false
      {| progr := zlen pre; this_entry_idx := zlen pre; last_entry_idx := last; remaining_size := rem; sbuf := pre ++ a ++ b |} fs =
    find_loop fuel nm lba del false
      {| progr := zlen (pre ++ a); this_entry_idx := zlen (pre ++ a); last_entry_idx := last'; remaining_size := rem - zlen a;
         sbuf := pre ++ a ++ b |} fs /\ (es = [] -> last' = last).
Proof using All.
  induction 1 as [|e es pad rest Hi Hr Hf Hn Hlen Hl IH]; intros fuel pre b last rem Hno Hz Hb Hrem.
  - exists last. rewrite app_nil_r, Z.sub_0_r. done.
  - apply Forall_cons in Hno as [Hne Hno]. cbn [length Nat.add].
    pose proof (zlen_nonneg (name e)). pose proof (zlen_nonneg pad). pose proof (zlen_nonneg rest). pose proof (zlen_nonneg pre).
    set (enc := dir_enc _ _ _ _ _) in *. assert (zlen enc = 8) as He by apply zlen_dir_enc.
    assert (zlen (enc ++ name e ++ pad ++ rest) = rec_len e + zlen rest) as Hzr by (rewrite !zlen_app; lia).
    rewrite (zlen_app pre), (zlen_app (enc ++ _)), Hzr in Hz. rewrite Hzr in Hrem |- *.
    replace (pre ++ (enc ++ name e ++ pad ++ rest) ++ b) with (pre ++ enc ++ name e ++ (pad ++ rest ++ b)) by (by rewrite <- !app_assoc).
    unfold enc at 1. rewrite find_loop_round by (done || lia). fold enc. rewrite Hne. bfalse (rem - rec_len e <=? 0).
    destruct (IH fuel (pre ++ enc ++ name e ++ pad) b (zlen pre) (rem - rec_len e) Hno) as (last' & Hr' & _);
      [rewrite !zlen_app; lia|done|lia|].
    exists last'. split; [|done]. rewrite !zlen_app, He in Hr'. rewrite <- !app_assoc in Hr'.
    replace (zlen pre + (8 + (zlen (name e) + zlen pad))) with (zlen pre + rec_len e) in Hr' by lia.
    rewrite (zlen_app pre), Hzr. rewrite Hr'. do 2 f_equal; lia.
Qed.

(** The entry [e] is gone and every other one is still found. *)
Definition deleted (es1 es2 : list DirEntry) (d' : D) (buf' : list Z) : Prop :=
  wrote (disk fs) d' (base fs + 512 * lba) buf' /\
  exists es', lays es' buf' /\ forall nm, lookup_name nm es' = lookup_name nm (es1 ++ es2).
Lemma lays_cons_inv e es buf : lays (e :: es) buf -> exists pad rest,
  buf = dir_enc Little (inode e) (rec_len e) (file_type e) (name e) ++ name e ++ pad ++ rest /\
  (is_uint 4 (inode e) /\ is_uint 2 (rec_len e) /\ is_uint 1 (file_type e) /\ zlen (name e) <= 255) /\
  8 + zlen (name e) + zlen pad = rec_len e /\ lays es rest.
Proof using. inversion 1; subst. by eexists _, _. Qed.
Lemma delete_first_block nm e es2 buf rem fuel : lays (e :: es2) buf -> zlen buf = 1024 -> bytes buf ->
  1024 <= rem < 2 ^ 32 -> hit nm e = true -> entry_len (seen e) = rec_len e ->
  exists d' buf' t rem', find_loop (S fuel) nm lba true false
      {| progr := 0; this_entry_idx := 0; last_entry_idx := 0; remaining_size := rem; sbuf := buf |} fs =
    (Ok (Some (inode e), t, buf', rem'), with_disk fs d') /\ deleted [] es2 d' buf'.
Proof using All.
  intros Hl Hz Hb Hrem Hhit Hlen. apply lays_cons_inv in Hl as (pad & rest & -> & (Hi & Hr & Hf & Hn) & Hrl & Hl).
  pose proof (zlen_nonneg rest). pose proof (zlen_nonneg (dname e)). pose proof (align4_range (8 + zlen (dname e))) as Hal.
  rewrite !zlen_app, zlen_dir_enc in Hz.
  assert (zlen (dname e) <= 65523) as Hd by (unfold entry_len in Hlen; change (name (seen e)) with (dname e) in Hlen; lia).
  destruct (delete_first_ok e (name e ++ pad ++ rest) Hlen Hd) as (d' & Hdel & Hw); [rewrite !zlen_app, zlen_dir_enc; lia|done|].
  eexists d', _, _, _. split.
  - pose proof (find_loop_round fs Hk nm lba true fuel [] e (pad ++ rest) 0 rem Hi Hr Hf Hn) as Hround. cbn zeta in Hround.
    change (zlen []) with 0 in Hround. cbn [app] in Hround. rewrite Hround, Hhit by lia. mrun Hdel. done.
  - split; [exact Hw|]. exists ({| inode := 0; rec_len := rec_len e; file_type := 0; name := [] |} :: es2). split.
    + rewrite (app_assoc (name e)). apply (lays_cons {| inode := 0; rec_len := rec_len e; file_type := 0; name := [] |} es2 (name e ++ pad) rest);
        cbn; try done. change (zlen []) with 0. rewrite zlen_app. lia.
    + intros nm'. cbn [lookup_name app]. unfold hit. cbn [inode Z.eqb negb andb]. by rewrite andb_false_r.
Qed.
Lemma delete_later_block nm es0 p e es2 buf rem fuel : lays ((es0 ++ [p]) ++ e :: es2) buf -> zlen buf = 1024 -> bytes buf ->
  1024 <= rem < 2 ^ 32 -> Forall (fun e => hit nm e = false) (es0 ++ [p]) -> hit nm e = true ->
  exists d' buf' t rem', find_loop (length es0 + S (S fuel)) nm lba true false
      {| progr := 0; this_entry_idx := 0; last_entry_idx := 0; remaining_size := rem; sbuf := buf |} fs =
    (Ok (Some (inode e), t, buf', rem'), with_disk fs d') /\ deleted (es0 ++ [p]) es2 d' buf'.
Proof using All.
  intros Hl Hz Hb Hrem Hno Hhit. rewrite <- app_assoc in Hl. cbn [app] in Hl. apply lays_split in Hl as (a & b & -> & Ha & Hl).
  apply lays_cons_inv in Hl as (padp & restp & -> & (Hip & Hrp & Hfp & Hnp) & Hlp & Hl).
  apply lays_cons_inv in Hl as (pad & rest & -> & (Hi & Hr & Hf & Hn) & Hrl & Hl).
  apply Forall_app in Hno as [Hno Hp]. rewrite Forall_singleton in Hp.
  set (encp := dir_enc Little (inode p) (rec_len p) (file_type p) (name p)) in *. set (ence := dir_enc Little (inode e) (rec_len e) (file_type e) (name e)) in *.
  pose proof (zlen_nonneg a). pose proof (zlen_nonneg rest). pose proof (zlen_nonneg padp). pose proof (zlen_nonneg pad).
  pose proof (zlen_nonneg (name p)). pose proof (zlen_nonneg (name e)).
  assert (zlen encp = 8 /\ zlen ence = 8) as [Hzp Hze] by (split; apply zlen_dir_enc).
  assert (zlen a + rec_len p + rec_len e + zlen rest = 1024) as Htot by (rewrite !zlen_app in Hz; lia).
  destruct (find_loop_skip nm true es0 a Ha (S (S fuel)) [] (encp ++ name p ++ padp ++ ence ++ name e ++ pad ++ rest) 0 rem Hno) as (last' & Hskip & _);
    [exact Hz|rewrite !zlen_app; lia|rewrite !zlen_app; lia|].
  destruct (delete_joined_ok a p (name p ++ padp) e (name e ++ pad ++ rest) Hrp Hr) as (d' & Hdel & Hw);
    [lia|rewrite zlen_app; lia|rewrite <- !app_assoc; exact Hz|rewrite <- !app_assoc; exact Hb|].
  rewrite <- !app_assoc in Hdel, Hw. fold encp in Hdel. fold ence in Hdel, Hw. eexists d', _, _, _. split.
  - cbn [app] in Hskip. change (zlen []) with 0 in Hskip. rewrite Hskip. unfold encp at 1. rewrite find_loop_round by (done || lia).
    fold encp. rewrite Hp. bfalse (rem - zlen a - rec_len p <=? 0).
    pose proof (find_loop_round fs Hk nm lba true fuel (a ++ encp ++ name p ++ padp) e (pad ++ rest) (zlen a) (rem - zlen a - rec_len p) Hi Hr Hf Hn) as Hround.
    cbn zeta in Hround. rewrite !zlen_app, Hzp, <- !app_assoc in Hround.
    replace (zlen a + (8 + (zlen (name p) + zlen padp))) with (zlen a + rec_len p) in Hround by lia.
    fold ence in Hround. rewrite Hround, Hhit by lia. mrun Hdel. done.
  - split; [exact Hw|]. set (p' := {| inode := inode p; rec_len := rec_len p + rec_len e; file_type := file_type p; name := name p |}).
    exists (es0 ++ p' :: es2). split.
    + apply lays_app; [done|]. replace (name p ++ padp ++ ence ++ name e ++ pad ++ rest) with (name p ++ (padp ++ ence ++ name e ++ pad) ++ rest) by (by rewrite <- !app_assoc).
      apply (lays_cons p' es2 (padp ++ ence ++ name e ++ pad) rest); try done; cbn [p' rec_len name];
        [unfold is_uint; change (256 ^ Z.of_nat 2) with 65536; lia|rewrite !zlen_app; lia].
    + intros nm'. rewrite <- app_assoc. by rewrite !(lookup_name_app _ es0).
Qed.
End deleting.

(** ** The properties *)
(** Searching a directory of direct blocks for a name.  If the blocks hold
    lists of entries, the search returns the inode of the first entry with the
    name, in the order of the blocks, that is in use and is not ["."] or
    [".."], and reports that there is none otherwise; it changes nothing. *)
Theorem lookup_first_match `{Build} {D} `{BlockDevLaws D} (fs : Ext2Fs D) nm ip ess : fs_1k fs -> dir_ok fs (ip_inode ip) ess ->
  find_entry_by_name nm ip fs = (Ok (lookup_name nm (concat ess)), fs).
Proof. intros Hk Hd. by apply lookup_dir. Qed.

(** C2: walking a path refines resolving it in the tree of directories.  If
    the inodes in use and the entries of the directories are those of the tree
    [t], the result is the inode of the directory the last component is looked
    up in and that of the file, if there is one; a component before the last
    that is missing or that is not a directory gives the error for it. *)
Theorem walk_path_resolves `{Build} {D} `{BlockDevLaws D} (fs : Ext2Fs D) t p : fs_1k fs -> tree_ok fs t -> inode_in fs 0 0 ->
  Path.absolute p ->
  match resolve t ROOT_DIRECTORY_INODE_IDX (foldl Path.normalize_step [] (Path.pieces (Path.raw p))) with
  | Ok (d, o) => exists dip, inode_at t d = Some dip /\ walk_path p fs = (Ok (dip, o ≫= inode_at t), fs)
  | Err e => walk_path p fs = (Err e, fs)
  | _ => False
  end.
Proof. intros Hk Ht Hin Ha. by apply walk_path_ok. Qed.

(** C9: deleting an entry from a block.  The block written back is again a
    list of entries, in which the deleted one is not found and every other one
    still is.  The record length of the entry must cover its size rounded up
    to four: a shorter one in first place is written back longer. *)
Theorem delete_keeps_others `{Build} {D} `{BlockDevLaws D} (fs : Ext2Fs D) lba nm es1 e es2 buf rem : fs_1k fs -> 0 <= lba ->
  base fs + 512 * lba + 1024 <= bd_size (disk fs) -> lays (es1 ++ e :: es2) buf -> zlen buf = 1024 -> bytes buf ->
  1024 <= rem < 2 ^ 32 -> Forall (fun e => hit nm e = false) es1 -> hit nm e = true -> entry_len (seen e) = rec_len e ->
  exists d' buf' t rem', find_entry_by_name_in_block nm buf lba true false rem fs =
      (Ok (Some (inode e), t, buf', rem'), with_disk fs d') /\ deleted fs lba es1 es2 d' buf'.
Proof.
  intros Hk Hlba Hin Hl Hz Hb Hrem Hno Hhit Hlen. unfold find_entry_by_name_in_block. mstep. rewrite (block_size_1k fs Hk). mstep.
  pose proof (lays_length _ _ Hl) as Hn. rewrite zlen_app, zlen_cons in Hn. pose proof (zlen_nonneg es2).
  destruct es1 as [|p es0 _] using rev_ind; [by apply delete_first_block|].
  rewrite zlen_app in Hn. change (zlen [p]) with 1 in Hn. pose proof (zlen_nonneg es0).
  replace (S (Z.to_nat 1024)) with (length es0 + S (S (1023 - length es0)))%nat by (unfold zlen in *; lia).
  by apply delete_later_block.
Qed.

(** [is_dir_empty] answers that a directory is empty whatever is in it,
    as long as no name in it is empty: it searches for the empty name, with
    the flag for its purpose off. *)
Theorem is_dir_empty_blind `{Build} {D} `{BlockDevLaws D} (fs : Ext2Fs D) ip ess : fs_1k fs -> dir_ok fs (ip_inode ip) ess ->
  Forall (fun e => dname e <> []) (concat ess) -> is_dir_empty ip fs = (Ok true, fs).
Proof.
  intros Hk Hd Hne. assert (lookup_name [] (concat ess) = None) as Hno.
  { induction Hne as [|e es He _ IH]; [done|]. cbn. unfold hit. rewrite (bool_decide_eq_false_2 ([] = dname e)) by congruence.
    by rewrite !andb_false_r. }
  pose proof (lookup_dir fs Hk [] ip ess Hd) as Hl. unfold find_entry_by_name in Hl. rewrite Hno in Hl.
  unfold is_dir_empty. by mrun Hl.
Qed.

(** An entry of record length zero stops the search for ever: whatever
    the number of rounds, the loop is not done after it.  A block of zeros, as
    a hole in the directory or a new block has, is such a block. *)
Theorem zero_record_hangs `{Build} {D} `{BlockDevLaws D} (fs : Ext2Fs D) nm lba del pre e tail last rem fuel : fs_1k fs ->
  is_uint 4 (inode e) -> is_uint 1 (file_type e) -> zlen (name e) <= 255 -> rec_len e = 0 -> hit nm e = false ->
  zlen pre < 1024 -> 0 < rem < 2 ^ 32 ->
  find_loop fuel nm lba del false {| progr := zlen pre; this_entry_idx := zlen pre; last_entry_idx := last; remaining_size := rem;
    sbuf := pre ++ dir_enc Little (inode e) (rec_len e) (file_type e) (name e) ++ name e ++ tail |} fs = (Hang, fs).
Proof.
  intros Hk Hi Hf Hn Hr Hhit Hp Hrem. revert last. induction fuel as [|fuel IH]; intros last.
  - cbn [find_loop]. mstep. rewrite (block_size_1k fs Hk). mstep. cbn [progr]. by btrue (zlen pre <? 1024).
  - rewrite find_loop_round; [|done|done|rewrite Hr; by split|done|done|done|lia].
    rewrite Hhit. bfalse (rem - rec_len e <=? 0). replace (zlen pre + rec_len e) with (zlen pre) by lia.
    replace (rem - rec_len e) with rem by lia. apply IH.
Qed.

(** ** A root directory with a file and a subdirectory *)
Definition enc_entry (e : DirEntry) : list Z :=
  dir_enc Little (inode e) (rec_len e) (file_type e) (name e) ++ name e ++ zeros (rec_len e - 8 - zlen (name e)).
Definition enc_dir (es : list DirEntry) : list Z := es ≫= enc_entry.
Definition entry_fits (e : DirEntry) : bool :=
  is_uintb 4 (inode e) && is_uintb 2 (rec_len e) && is_uintb 1 (file_type e) && (zlen (name e) <=? 255) &&
  (8 + zlen (name e) <=? rec_len e).
Lemma is_uintb_ok n z : is_uintb n z = true -> is_uint n z.
Proof. unfold is_uintb, is_uint. intros. boom. lia. Qed.
Lemma lays_enc es : forallb entry_fits es = true -> lays es (enc_dir es).
Proof.
  induction es as [|e es IH]; [constructor|]. cbn [forallb]. intros Hes. apply andb_true_iff in Hes as [He Hes]. unfold entry_fits in He. boom.
  change (enc_dir (e :: es)) with (enc_entry e ++ enc_dir es). unfold enc_entry. rewrite <- !app_assoc.
  constructor; auto using is_uintb_ok. rewrite zlen_zeros; lia.
Qed.
Lemma lookup_name_in nm es j : lookup_name nm es = Some j -> exists e, e ∈ es /\ inode e = j.
Proof.
  induction es as [|e es IH]; [done|]. cbn. destruct (hit nm e); [intros [= <-]; exists e; split; [left|done]|].
  intros Hj. destruct (IH Hj) as (e' & Hin & He). exists e'. split; [by right|done].
Qed.

Definition dirent (ino len : Z) (nm : list Z) : DirEntry := {| inode := ino; rec_len := len; file_type := 0; name := nm |}.
Definition root_es : list DirEntry := [dirent 2 12 (str "."); dirent 2 12 (str ".."); dirent 11 12 (str "etc"); dirent 12 988 (str "motd")].
Definition etc_es : list DirEntry := [dirent 11 12 (str "."); dirent 2 12 (str ".."); dirent 13 1000 (str "init")].
Definition etc_inode : Inode := set_block_map sample_inode (10 :: replicate 14 0) 2.
Definition dir_disk : MemDisk :=
  patch (patch (patch (patch (patch (patch sample_disk 5248 (inode_enc Little sample_inode)) 6400 (inode_enc Little etc_inode))
    6528 (inode_enc Little file_inode)) 6656 (inode_enc Little file_inode)) 9216 (enc_dir root_es)) 10240 (enc_dir etc_es).
Definition dir_fs : Ext2Fs MemDisk := with_disk sample_fs dir_disk.
Definition ip_at (x : Inode) (i : Z) : InodePlus := {| ip_inode := x; absolute_idx := i; ip_group_number := 0; relative_idx := i - 1 |}.
Definition sample_tree : tree := fun i =>
  if i =? 2 then Some (ip_at sample_inode 2, Dir [root_es]) else if i =? 11 then Some (ip_at etc_inode 11, Dir [etc_es])
  else if i =? 12 then Some (ip_at file_inode 12, File) else if i =? 13 then Some (ip_at file_inode 13, File) else None.
Lemma dir_fs_1k : fs_1k dir_fs.
Proof. split; [apply with_disk_ok; [exact sample_fs_ok|]|..]; vm_compute; reflexivity. Qed.
Lemma dir_small x : i_size x = 1024 -> length (i_block x) = 15%nat -> forallb (in_diskb dir_fs) (i_block x) = true -> small_file dir_fs x.
Proof. intros Hs Hl Hb. split; [lia|split; [done|]]. by apply in_disk_check. Qed.
Lemma dir_one x es : i_size x = 1024 -> length (i_block x) = 15%nat -> forallb (in_diskb dir_fs) (i_block x) = true ->
  is_directory x = true -> forallb entry_fits es = true -> nth 0 (i_block x) 0 <> 0 ->
  file_block dir_fs (nth 0 (i_block x) 0) = enc_dir es -> dir_ok dir_fs x [es].
Proof.
  intros Hs Hl Hb Hd He Hnz Hf. split; [done|by apply dir_small|by rewrite Hs|].
  intros [|j] es' Hj; [|by destruct j]. injection Hj as <-. split; [done|]. rewrite Hf. by apply lays_enc.
Qed.
Lemma root_ok : dir_ok dir_fs sample_inode [root_es].
Proof. apply dir_one; vm_compute; first [reflexivity|congruence]. Qed.
Lemma etc_ok : dir_ok dir_fs etc_inode [etc_es].
Proof. apply dir_one; vm_compute; first [reflexivity|congruence]. Qed.
Ltac inode_check :=
  unfold inode_ok; split_and!; [apply uints_check; vm_compute; reflexivity..|reflexivity|apply uints_check; vm_compute; reflexivity|reflexivity].
Lemma sample_tree_inv i ip nd : sample_tree i = Some (ip, nd) ->
  (i = 2 /\ ip = ip_at sample_inode 2 /\ nd = Dir [root_es]) \/ (i = 11 /\ ip = ip_at etc_inode 11 /\ nd = Dir [etc_es]) \/
  ((i = 12 \/ i = 13) /\ ip = ip_at file_inode i /\ nd = File).
Proof.
  unfold sample_tree. destruct (Z.eqb_spec i 2) as [->|_]; [intros [= <- <-]; tauto|].
  destruct (Z.eqb_spec i 11) as [->|_]; [intros [= <- <-]; tauto|]. destruct (Z.eqb_spec i 12) as [->|_]; [intros [= <- <-]; tauto|].
  destruct (Z.eqb_spec i 13) as [->|_]; [intros [= <- <-]; tauto|done].
Qed.
Lemma dir_inode_in idx : 0 <= idx < 16 -> inode_in dir_fs 0 idx.
Proof.
  intros Hi. assert (128 * idx / 512 < 4) by (apply Z.div_lt_upper_bound; lia). split; [split; [lia|split; vm_compute; congruence]|split; [lia|]].
  assert (inode_table_off dir_fs 0 = 5120) as -> by (vm_compute; reflexivity).
  assert (bd_size (disk dir_fs) = 32768) as -> by (vm_compute; reflexivity). lia.
Qed.
Lemma dir_get_inode i x : 1 <= i <= 16 -> inode_ok x ->
  content (disk dir_fs) (5120 + 128 * (i - 1)) 128 = inode_enc Little x ->
  @get_nth_inode dev_build _ _ i dir_fs = (Ok (ip_at x i), dir_fs).
Proof.
  intros Hi Hx Hc. unfold get_nth_inode. mstep. assert (s_inodes_per_group (super_block dir_fs) = 16) as Hn by (vm_compute; reflexivity).
  rewrite Hn. rewrite usub_ok by lia. mstep. rewrite udiv_ok by lia. mstep. rewrite urem_ok by lia. mstep.
  rewrite (Z.div_small (i - 1)), (Z.mod_small (i - 1)) by lia.
  rewrite (get_inode_in_group_ok dir_fs 0 (i - 1) x (k_ok _ dir_fs_1k)).
  - unfold ip_at. rewrite Hn. do 3 f_equal. lia.
  - apply dir_inode_in. lia.
  - unfold number_ok. rewrite Hn. lia.
  - done.
  - rewrite <- Hc. unfold inode_off. assert (inode_table_off dir_fs 0 = 5120) as -> by (vm_compute; reflexivity). done.
Qed.
Lemma sample_tree_ok : @tree_ok dev_build _ _ _ dir_fs sample_tree.
Proof.
  split; [by eexists| |].
  - intros i ip nd Hi. apply sample_tree_inv in Hi as [(-> & -> & ->)|[(-> & -> & ->)|([-> | ->] & -> & ->)]];
      (split; [lia|split; [apply dir_get_inode; [lia|inode_check|vm_compute; reflexivity]|]]); [exact root_ok|exact etc_ok|done|done].
  - intros i ip ess nm j Hi Hl. apply lookup_name_in in Hl as (e & He & <-).
    apply sample_tree_inv in Hi as [(_ & _ & [= ->])|[(_ & _ & [= ->])|(_ & _ & [=])]]; cbn in He; set_unfold in He;
      destruct_or?; subst; done || by eexists.
Qed.

Lemma lookup_first_match_witness :
  @find_entry_by_name dev_build _ _ (str "etc") (ip_at sample_inode 2) dir_fs = (Ok (Some 11), dir_fs).
Proof. exact (@lookup_first_match dev_build _ _ _ dir_fs (str "etc") (ip_at sample_inode 2) [root_es] dir_fs_1k root_ok). Defined.
Lemma walk_path_resolves_witness :
  @walk_path dev_build _ _ {| Path.raw := str "/etc/../etc/./init" |} dir_fs =
    (Ok (ip_at etc_inode 11, Some (ip_at file_inode 13)), dir_fs) /\
  @walk_path dev_build _ _ {| Path.raw := str "/motd/init" |} dir_fs = (Err NotADirectory, dir_fs).
Proof.
  assert (inode_in dir_fs 0 0) as Hin by (apply dir_inode_in; lia).
  pose proof (@walk_path_resolves dev_build _ _ _ dir_fs sample_tree {| Path.raw := str "/etc/../etc/./init" |}
    dir_fs_1k sample_tree_ok Hin eq_refl) as (dip & Hd & Hw).
  pose proof (@walk_path_resolves dev_build _ _ _ dir_fs sample_tree {| Path.raw := str "/motd/init" |}
    dir_fs_1k sample_tree_ok Hin eq_refl) as He.
  split; [|exact He]. injection Hd as <-. exact Hw.
Defined.
Lemma delete_keeps_others_witness : exists d' buf' t rem',
  @find_entry_by_name_in_block dev_build _ _ (str "etc") (enc_dir root_es) 18 true false 1024 dir_fs =
    (Ok (Some 11, t, buf', rem'), with_disk dir_fs d') /\
  deleted dir_fs 18 [dirent 2 12 (str "."); dirent 2 12 (str "..")] [dirent 12 988 (str "motd")] d' buf'.
Proof.
  apply (@delete_keeps_others dev_build _ _ _ dir_fs 18 (str "etc") [dirent 2 12 (str "."); dirent 2 12 (str "..")] (dirent 11 12 (str "etc"))
    [dirent 12 988 (str "motd")] (enc_dir root_es) 1024 dir_fs_1k);
    [lia|vm_compute; congruence|apply lays_enc; reflexivity|reflexivity|apply bytes_check; vm_compute; reflexivity|lia| |reflexivity|reflexivity].
  repeat constructor.
Defined.
Lemma is_dir_empty_blind_witness : @is_dir_empty dev_build _ _ (ip_at sample_inode 2) dir_fs = (Ok true, dir_fs).
Proof.
  apply (@is_dir_empty_blind dev_build _ _ _ dir_fs (ip_at sample_inode 2) [root_es] dir_fs_1k root_ok). repeat constructor; done.
Defined.
Lemma zero_record_hangs_witness : @find_loop dev_build _ _ 1025 (str "init") 18 false false
  {| progr := 0; this_entry_idx := 0; last_entry_idx := 0; remaining_size := 1024; sbuf := zeros 1024 |} dir_fs = (Hang, dir_fs).
Proof.
  apply (@zero_record_hangs dev_build _ _ _ dir_fs (str "init") 18 false [] (dirent 0 0 []) (zeros 1016) 0 1024 1025 dir_fs_1k);
    done || (split; vm_compute; congruence).
Defined.
