(* ===== verification/Ext2Create.v ===== *)
(** * ext2: creating files and directories

    src/kernel/src/drivers/fs/ext2/create_file.rs, the creating half of dirs.rs
    and [open_file] of open.rs.

    An inode passed by [&mut] is passed and returned; after an error the
    callers drop it.  Every reading of the clock is a parameter, [None] when
    the clock cannot be read.

    A directory block is walked by record lengths, so [S] of its length rounds
    are enough unless a record length is zero, which repeats for ever. *)

From S2P Require Import Path Prelude Bytes Serialize Crypto Disk Ext2Layout Ext2Fs Ext2Alloc Ext2Iter Ext2File Ext2Dir.

(** ** hal/fs.rs: how a file is opened *)
Inductive OpenAccessMode := ReadOnly | WriteOnly | ReadNWrite | Search | ExecuteOnly.
Record OpenFlags := { access_mode : OpenAccessMode; flags : Z; perms : option Z }.
Definition CreateIfNotExist : Z := Z.shiftl 1 2.
Definition ErrorIfCreateFileExists : Z := Z.shiftl 1 4.
Inductive HalInode := HalInode_Ext2 (ip : InodePlus).

Section create.
Context `{Build} {D : Type} `{BlockDev D}.
Abbreviation EM := (M (Ext2Fs D) HalFsIOErr).

(** ** Adding an entry to a directory *)
Definition set_rec_len (e : DirEntry) (n : Z) : DirEntry :=
  {| inode := inode e; rec_len := n; file_type := file_type e; name := name e |}.
(** The entries of one block; [true] when the new entry was put into it *)
Fixpoint add_in_block (fuel : nat) (buf : list Z) (block_idx progr : Z) (entry : DirEntry) : EM bool :=
  if progr <? zlen buf then
    match fuel with
    | O => lift Hang
    | S fuel =>
        partial ← lift (slice buf progr (progr + DIR_ENTRY_PARTIAL_BYTES));
        fs ← get;
        n ← lift (uadd 16 (dp_rec_len partial) (wrap 16 progr));
        bs ← lift (block_size_of (super_block fs));
        if wrap 16 bs <? n then throw Corrupted else
        least ← lift (min_reclen (dp_name_len partial));
        left ← lift (usub 16 (dp_rec_len partial) least);
        want ← lift (record_length entry);
        if want <=? left then
          let entry := set_rec_len entry left in
          buf ← lift (splice buf progr (u_put 2 4 least partial));
          sub ← lift (slice_from buf (progr + least));
          '(sub, _) ← lift (map_err SerializationErr (DirEntry_serialize Little entry sub));
          buf ← lift (splice buf (progr + least) sub);
          _ ← write_block buf block_idx;
          mret true
        else
          progr ← lift (uadd 64 progr (dp_rec_len partial));
          add_in_block fuel buf block_idx progr entry
    end
  else mret false.
(** The blocks of the directory, up to the end of the iterator, which is
    returned with the buffer when no block has room *)
Fixpoint add_in_blocks (fuel : nat) (it : InodeBlockIterator) (buf : list Z) (entry : DirEntry) :
    EM (option (InodeBlockIterator * list Z)) :=
  match fuel with
  | O => lift Hang
  | S fuel =>
      '(e, it) ← next_block it buf;
      if is_terminated e then mret (Some (it, el_buf e)) else
      don ← add_in_block (S (length (el_buf e))) (el_buf e) (el_block_idx e) 0 entry;
      if (don : bool) then mret None else add_in_blocks fuel it (el_buf e) entry
  end.
Definition add_dir_entry (now : option Z) (ip : InodePlus) (child : Z) (nm : list Z) : EM InodePlus :=
  buf ← get_buffer;
  time ← lift (expect now);
  fs ← get;
  it ← lift (create_block_iterator fs (ip_inode ip) (ip_group_number ip));
  entry ← lift (DirEntry_new child nm);
  full ← add_in_blocks (S (Z.to_nat (blocks_limit it))) it buf entry;
  match full with
  | None => mret (with_inode ip (set_i_mtime (ip_inode ip) time))
  | Some (it, buf) =>
      '(r, _) ← set_block it;
      fs ← get;
      bs ← lift (block_size_of (super_block fs));
      let entry := set_rec_len entry (wrap 16 bs) in
      buf ← read_block buf (set_block_idx r);
      '(buf, _) ← lift (map_err SerializationErr (DirEntry_serialize Little entry (fill0 buf)));
      size ← lift (uadd 32 (i_size (ip_inode ip)) bs);
      _ ← write_block buf (set_block_idx r);
      _ ← write_newly_allocated_blocks buf;
      mret (with_inode ip (set_i_size (ip_inode ip) size))
  end.

(** ** Finding an inode *)
Fixpoint first_clear (idxs : list Z) (bitmap : list Z) : res HalFsIOErr (option Z) :=
  match idxs with
  | [] => Ok None
  | idx :: idxs =>
      b ← index bitmap (idx / 8);
      if tstbit b (idx mod 8) then first_clear idxs bitmap else Ok (Some idx)
  end.
Fixpoint find_in_groups (groups : list Z) (table_lba : Z) (buf : list Z) : EM InodePlus :=
  match groups with
  | [] => throw NoAvailableInode
  | gr :: groups =>
      lba_offset ← lift (desc_lba_offset gr);
      lba ← lift (sadd table_lba lba_offset);
      buf ← (if lba =? 0 then mret buf else read_sectors buf lba);
      group ← get_group_from_buffer gr buf;
      if bg_free_inodes_count (descriptor group) =? 0 then find_in_groups groups table_lba buf else
      bitmap ← get_buffer;
      lba ← lift (get_inode_bitmap_lba group);
      bitmap ← read_sectors bitmap lba;
      fs ← get;
      o ← lift (first_clear (seqZ 0 (s_inodes_per_group (super_block fs))) bitmap);
      match o with
      | Some idx => lift (relative_idx_to_inode_plus fs Inode_default gr (wrap 32 idx))
      | None => find_in_groups groups table_lba buf
      end
  end.
Definition find_available_inode : EM InodePlus :=
  fs ← get;
  group_count ← lift (block_groups_count_of (super_block fs));
  buf ← get_buffer;
  table_lba ← get_block_group_table_lba;
  find_in_groups (seqZ 0 group_count) table_lba buf.

(** ** Making an inode *)
Definition fs_block_group_size : EM Z :=
  fs ← get;
  bs ← lift (block_size_of (super_block fs));
  lift (block_group_size (s_blocks_per_group (super_block fs)) bs).
(** [for (idx, block) in blocks.iter().enumerate()] *)
Fixpoint put_addrs (idx : Z) (bs : list AllocatedBlock) (slots : list Z) : res HalFsIOErr (list Z) :=
  match bs with
  | [] => Ok slots
  | b :: bs => slots ← update slots idx (wrap 32 (addr b)); put_addrs (idx + 1) bs slots
  end.
Definition allocated_blocks_for_new_inode (ino : Inode) (gr num : Z) : EM (Inode * list AllocatedBlock) :=
  if 12 <? num then throw Unsupported else
  bs ← allocate_n_blocks_in_group gr num;
  slots ← lift (put_addrs 0 bs (i_block ino));
  n ← lift (umul 32 (wrap 32 (zlen bs)) BLOCK_SIZE);
  n ← lift (udiv n SECTOR_SIZE);
  n ← lift (uadd 32 (i_blocks ino) n);
  mret (set_block_map ino slots n, bs).
Definition fs_write_newly_allocated_blocks (buf : list Z) (blocks : list AllocatedBlock) : EM () :=
  write_newly_allocated_blocks buf.
Definition write_changes (ip : InodePlus) (blocks : list AllocatedBlock) : EM () :=
  buf ← get_buffer;
  _ ← fs_write_newly_allocated_blocks buf blocks;
  write_new_inode ip.
Definition new_inode (is_dir : bool) (perms time : Z) : Inode :=
  {| i_mode := Z.lor (wrap 16 perms) (if is_dir then EXT2_S_IFDIR else EXT2_S_IFREG);
     i_uid := 0; i_size := 0; i_atime := time; i_ctime := time; i_mtime := time; i_dtime := 0; i_gid := 0;
     i_links_count := (if is_dir then 2 else 1); i_blocks := 0; i_flags := 0; i_osd1 := 0; i_block := replicate 15 0;
     i_generation := 0; i_file_acl := 0; i_dir_acl := 0; i_faddr := 0; i_osd2 := replicate 12 0 |}.
(** [t0] is read for the inode, [t1], [t2] and [t3] for the entries; the
    directory is returned with the new inode. *)
Definition create_inode (t0 t1 t2 t3 : option Z) (dir : InodePlus) (nm : list Z) (is_dir : bool) (perms : Z) :
    EM (InodePlus * InodePlus) :=
  if 255 <? zlen nm then throw NameTooLong else
  if negb (is_directory (ip_inode dir)) then throw NotADirectory else
  let time := default 0 t0 in
  new ← find_available_inode;
  fs ← get;
  '(ino, blocks) ← allocated_blocks_for_new_inode (new_inode is_dir perms time) (ip_group_number new)
    (if is_dir then s_prealloc_dir_blocks (super_block fs) else s_prealloc_blocks (super_block fs));
  let new := with_inode new ino in
  dir ← add_dir_entry t1 dir (absolute_idx new) nm;
  '(new, dir) ← (if is_dir then
      new ← add_dir_entry t2 new (absolute_idx new) (str ".");
      new ← add_dir_entry t3 new (absolute_idx dir) (str "..");
      let dir := with_inode dir (set_i_links_count (ip_inode dir) (Z.min (i_links_count (ip_inode dir) + 1) 65535)) in
      _ ← write_inode dir;
      mret (new, dir)
    else mret (new, dir));
  _ ← write_changes new blocks;
  _ ← write_inode dir;
  mret (new, dir).
Definition create_file (t0 t1 t2 t3 : option Z) (dir : InodePlus) (nm : list Z) (perms : Z) : EM (InodePlus * InodePlus) :=
  create_inode t0 t1 t2 t3 dir nm false perms.

Definition mkdir (t0 t1 t2 t3 : option Z) (path : Path.Path) (perms : Z) : EM InodePlus :=
  '(dir, file) ← walk_path path;
  match file with
  | Some _ => throw FileExists
  | None =>
      o ← lift (from_never (Path.file_name path));
      nm ← lift (match o with Some nm => Ok nm | None => Err BadPath end);
      '(new, _) ← create_inode t0 t1 t2 t3 dir nm true perms;
      mret new
  end.
Definition open_file (t0 t1 t2 t3 : option Z) (path : Path.Path) (fl : OpenFlags) : EM HalInode :=
  '(dir, file) ← walk_path path;
  ip ← (match file with
        | Some ip => mret ip
        | None =>
            if negb (Z.land (flags fl) CreateIfNotExist =? 0) then
              o ← lift (from_never (Path.file_name path));
              nm ← lift (match o with Some nm => Ok nm | None => Err BadPath end);
              p ← lift (match perms fl with Some p => Ok p | None => Err NoPermsProvided end);
              '(new, _) ← create_file t0 t1 t2 t3 dir nm p;
              mret new
            else throw NoSuchFileOrDirectory
        end);
  if (match file with Some _ => true | None => false end) && negb (Z.land (flags fl) ErrorIfCreateFileExists =? 0)
  then throw FileExists else mret (HalInode_Ext2 ip).
End create.

(** ** Adding an entry to a block *)
Definition least (e : DirEntry) : Z := align4 (8 + zlen (name e)).
Definition room (e : DirEntry) : Z := rec_len e - least e.
Lemma dir_enc_name_len ino len nm : zlen nm <= 255 -> dp_name_len (dir_enc Little ino len 0 nm) = zlen nm.
Proof.
  intros Hn. pose proof (zlen_nonneg nm). unfold dp_name_len. change (zlen nm mod 256 + 256 * (0 + 256 * 0) = zlen nm).
  rewrite Z.mod_small; lia.
Qed.

Section adding.
Context `{Build} {D : Type} `{BlockDevLaws D} (fs : Ext2Fs D) (Hk : fs_1k fs) (b : Z) (Hb : in_disk fs b)
  (new : DirEntry) (Hnew : entry_ok new) (Hft : file_type new = 0).
(** An entry as the driver makes them: with file type 0 and room for its name *)
Definition own (e : DirEntry) : Prop := file_type e = 0 /\ 0 <= room e.

Lemma add_round fuel pre e tail : own e -> is_uint 2 (rec_len e) -> zlen (name e) <= 255 -> zlen pre + rec_len e <= 1024 ->
  let header n := dir_enc Little (inode e) n (file_type e) (name e) in
  let buf := pre ++ header (rec_len e) ++ tail in
  zlen buf = 1024 ->
  add_in_block (S fuel) buf b (zlen pre) new fs =
  if entry_len new <=? room e then
    (let entry := set_rec_len new (room e) in
     buf ← lift (splice buf (zlen pre) (header (least e)));
     sub ← lift (slice_from buf (zlen pre + least e));
     '(sub, _) ← lift (map_err SerializationErr (DirEntry_serialize Little entry sub));
     buf ← lift (splice buf (zlen pre + least e) sub);
     _ ← write_block buf b;
     mret true) fs
  else add_in_block fuel buf b (zlen pre + rec_len e) new fs.
Proof using All.
  intros [Hf Hroom] Hr Hn Hfit header buf Hz. pose proof (zlen_nonneg pre). pose proof (zlen_nonneg (name e)). pose proof (zlen_nonneg tail).
  unfold room, least in *. pose proof (align4_range (8 + zlen (name e))) as [Hal _]. destruct (e_name _ Hnew) as [_ Hnn].
  assert (zlen pre < 1024) by (unfold buf in Hz; rewrite !zlen_app in Hz; unfold header in Hz; rewrite zlen_dir_enc in Hz; lia).
  assert (zlen (header (rec_len e)) = 8) as Hh8 by apply zlen_dir_enc.
  assert (dp_rec_len (header (rec_len e)) = rec_len e) as Hrl by by apply dir_enc_rec_len.
  assert (dp_name_len (header (rec_len e)) = zlen (name e)) as Hnl by (unfold header; rewrite Hf; by apply dir_enc_name_len).
  cbn [add_in_block]. rewrite Hz. btrue (zlen pre <? 1024).
  pose proof (slice_mid (E:=HalFsIOErr) pre (header (rec_len e)) tail) as Hs. rewrite Hh8 in Hs. fold buf in Hs.
  unfold DIR_ENTRY_PARTIAL_BYTES. rewrite Hs. mstep. mstep. rewrite Hrl, Hnl.
  rewrite (wrap_small 16) by lia. rewrite (uadd_ok 16) by lia. mstep. rewrite (block_size_1k fs Hk). mstep.
  change (wrap 16 1024) with 1024. bfalse (1024 <? rec_len e + zlen pre).
  rewrite min_reclen_ok by lia. mstep. rewrite usub_ok by lia. mstep. rewrite record_length_ok by lia. mstep. fold (entry_len new).
  destruct (entry_len new <=? _); [done|]. rewrite uadd_ok by lia. by mstep.
Qed.

(** The entry found, cut short, and the new one behind it *)
Definition cut (e : DirEntry) : list DirEntry := [set_rec_len e (least e); set_rec_len new (room e)].
Lemma split_entry e es rest : lays (e :: es) rest -> own e -> exists pad1 pad2 tail,
  rest = dir_enc Little (inode e) (rec_len e) (file_type e) (name e) ++ name e ++ pad1 ++ pad2 ++ tail /\
  zlen pad1 = least e - 8 - zlen (name e) /\ zlen pad2 = room e /\ lays es tail /\
  is_uint 4 (inode e) /\ is_uint 2 (rec_len e) /\ zlen (name e) <= 255.
Proof using.
  intros Hl [_ Hroom]. apply lays_cons_inv in Hl as (pad & tail & -> & (Hi & Hr & _ & Hn) & Hrl & Hl).
  pose proof (align4_range (8 + zlen (name e))) as [Hal _]. set (k := Z.to_nat (least e - 8 - zlen (name e))).
  exists (take k pad), (drop k pad), tail. pose proof (zlen_nonneg pad). unfold room, least in *.
  split_and!; try done; [by rewrite (app_assoc (take k pad)), take_drop|rewrite zlen_take|rewrite zlen_drop]; unfold k; lia.
Qed.
Lemma cut_lays e es pad1 pad3 tail : own e -> is_uint 4 (inode e) -> is_uint 2 (rec_len e) -> zlen (name e) <= 255 ->
  zlen pad1 = least e - 8 - zlen (name e) -> zlen pad3 = room e - 8 - zlen (name new) -> lays es tail ->
  lays (cut e ++ es) (dir_enc Little (inode e) (least e) (file_type e) (name e) ++ name e ++ pad1 ++
    dir_enc Little (inode new) (room e) (file_type new) (name new) ++ name new ++ pad3 ++ tail).
Proof using Hnew Hft.
  intros [Hf Hroom] Hi [_ Hr] Hn Hz1 Hz3 Hl. destruct Hnew as [Hni _ Hnf [_ Hnn]]. pose proof (zlen_nonneg (name e)).
  pose proof (align4_range (8 + zlen (name e))) as [Hal _]. change (256 ^ Z.of_nat 2) with 65536 in Hr.
  assert (0 <= least e <= rec_len e) by (unfold room, least in *; lia).
  assert (forall n, 0 <= n <= rec_len e -> is_uint 2 n) as Hu by (intros n ?; unfold is_uint; change (256 ^ Z.of_nat 2) with 65536; lia).
  apply (lays_cons (set_rec_len e (least e)) _ pad1); cbn; [done|apply Hu; lia|rewrite Hf; by split|done|lia|].
  apply (lays_cons (set_rec_len new (room e)) _ pad3); cbn; [done|apply Hu; unfold room in *; lia|done|done|lia|done].
Qed.
Lemma add_here fuel pre e es2 rest : lays (e :: es2) rest -> own e -> entry_len new <= room e -> zlen (pre ++ rest) = 1024 ->
  bytes (pre ++ rest) -> exists d' rest', add_in_block (S fuel) (pre ++ rest) b (zlen pre) new fs = (Ok true, with_disk fs d') /\
    lays (cut e ++ es2) rest' /\ wrote (disk fs) d' (base fs + b * 1024) (pre ++ rest').
Proof using All.
  intros Hl Hown Hfit Hz Hby. apply split_entry in Hl as (pad1 & pad2 & tail & -> & Hz1 & Hz2 & Hl & Hi & Hr & Hn); [|done].
  pose proof (zlen_nonneg pre). pose proof (zlen_nonneg tail). pose proof (zlen_nonneg (name new)). destruct (e_name _ Hnew) as [Hnb Hnn].
  set (header n := dir_enc Little (inode e) n (file_type e) (name e)) in *. assert (forall n, zlen (header n) = 8) as Hz8 by (intros; apply zlen_dir_enc).
  change (dir_enc Little (inode e) (rec_len e) (file_type e) (name e)) with (header (rec_len e)) in *.
  assert (zlen pre + rec_len e + zlen tail = 1024) as Htot by (rewrite !zlen_app, Hz8 in Hz; unfold room in *; lia).
  assert (entry_len (set_rec_len new (room e)) = room e /\ 8 + zlen (name new) <= room e) as [Hlen Hsz].
  { pose proof (align4_range (8 + zlen (name new))) as [? _]. unfold entry_len in *. cbn [set_rec_len name rec_len] in *. lia. }
  assert (entry_ok (set_rec_len new (room e))) as Hne.
  { destruct Hnew as [? _ ? ?]. split; cbn; try done. destruct Hown, Hr. pose proof (align4_range (8 + zlen (name e))).
    pose proof (zlen_nonneg (name e)). unfold is_uint, room, least in *. change (256 ^ Z.of_nat 2) with 65536 in *. lia. }
  set (pad3 := drop (8 + length (name new)) pad2).
  set (rest' := header (least e) ++ name e ++ pad1 ++ dir_enc Little (inode new) (room e) (file_type new) (name new) ++ name new ++ pad3 ++ tail).
  assert (zlen pad3 = room e - 8 - zlen (name new)) as Hz3 by (unfold pad3; rewrite zlen_drop; unfold zlen in *; lia).
  assert (lays (cut e ++ es2) rest') as Hl' by (by apply cut_lays).
  assert (zlen (pre ++ rest') = 1024) as Hz' by (unfold rest'; rewrite !zlen_app, Hz8, zlen_dir_enc; unfold room in *; lia).
  assert (bytes (pre ++ rest')) as Hby'.
  { unfold rest'. rewrite !Forall_app in *. split_and!; try tauto; [apply dir_enc_bytes..|]. apply Forall_drop. tauto. }
  destruct (write_block_ok fs (pre ++ rest') b (k_ok _ Hk) Hb) as (d' & Hw & Hwr); [by rewrite (k_bs _ Hk)|done|].
  rewrite (k_bs _ Hk) in Hwr. exists d', rest'. split_and!; [|exact Hl'|exact Hwr].
  unfold header. rewrite add_round by (fold header; first [done | rewrite !zlen_app, Hz8 in *; unfold room in *; lia]). fold header.
  btrue (entry_len new <=? room e). cbn zeta. rewrite splice_mid by (by rewrite !zlen_dir_enc). mstep. change (dir_enc Little (inode e) (least e) (file_type e) (name e)) with (header (least e)).
  set (whole := pre ++ header (least e) ++ name e ++ pad1 ++ pad2 ++ tail).
  assert (whole = (pre ++ header (least e) ++ name e ++ pad1) ++ (pad2 ++ tail) ++ []) as Hw2 by (unfold whole; by rewrite app_nil_r, <- !app_assoc).
  assert (zlen (pre ++ header (least e) ++ name e ++ pad1) = zlen pre + least e) as Hp by (rewrite !zlen_app, Hz8; lia).
  assert (slice_from whole (zlen pre + least e) = Ok (E:=HalFsIOErr) (pad2 ++ tail)) as ->.
  { rewrite Hw2, app_nil_r, <- Hp. set (P := pre ++ header (least e) ++ name e ++ pad1).
    pose proof (zlen_nonneg P). pose proof (zlen_nonneg (pad2 ++ tail)).
    rewrite slice_from_ok by (rewrite (zlen_app P); lia). by rewrite to_nat_zlen, drop_app_length. }
  mstep. rewrite DirEntry_serialize_ok by (done || (cbn; rewrite zlen_app; lia)). cbn [map_err]. mstep. rewrite Hlen. cbn [set_rec_len inode file_type name].
  rewrite drop_app_le by (unfold zlen in *; lia). fold pad3. rewrite Hw2, <- Hp, splice_mid by (rewrite !zlen_app, zlen_dir_enc; lia). mstep.
  rewrite app_nil_r, <- !app_assoc. fold rest'. mrun Hw. done.
Qed.

(** The block is walked to the first entry with room, if there is one. *)
Lemma add_loop es rest : lays es rest -> forall fuel pre, Forall own es -> (length es <= fuel)%nat ->
  zlen (pre ++ rest) = 1024 -> bytes (pre ++ rest) ->
  (Forall (fun e => room e < entry_len new) es /\ add_in_block fuel (pre ++ rest) b (zlen pre) new fs = (Ok false, fs)) \/
  exists es1 e es2 d' rest', es = es1 ++ e :: es2 /\ entry_len new <= room e /\
    add_in_block fuel (pre ++ rest) b (zlen pre) new fs = (Ok true, with_disk fs d') /\
    lays (es1 ++ cut e ++ es2) rest' /\ wrote (disk fs) d' (base fs + b * 1024) (pre ++ rest').
Proof using All.
  induction 1 as [|e es pad rest Hi Hr Hf Hn Hrl Hl IH]; intros fuel pre Hown Hfuel Hz Hby.
  - left. split; [constructor|]. rewrite app_nil_r in *. destruct fuel; cbn [add_in_block]; by bfalse (zlen pre <? zlen pre).
  - destruct fuel as [|fuel]; [cbn in Hfuel; lia|]. apply Forall_cons in Hown as [Ho Hown].
    destruct (Z.leb_spec (entry_len new) (room e)) as [Hfit|Hfit].
    { right. destruct (add_here fuel pre e es (dir_enc Little (inode e) (rec_len e) (file_type e) (name e) ++ name e ++ pad ++ rest))
        as (d' & rest' & Hadd & Hl' & Hw); [by constructor|done..|]. by exists [], e, es, d', rest'. }
    set (enc := dir_enc _ _ _ _ _) in *. assert (zlen enc = 8) as He by apply zlen_dir_enc.
    assert (pre ++ enc ++ name e ++ pad ++ rest = (pre ++ enc ++ name e ++ pad) ++ rest) as Hw by (by rewrite <- !app_assoc).
    assert (zlen (pre ++ enc ++ name e ++ pad) = zlen pre + rec_len e) as Hp by (rewrite !zlen_app; lia).
    assert (add_in_block (S fuel) (pre ++ enc ++ name e ++ pad ++ rest) b (zlen pre) new fs =
      add_in_block fuel ((pre ++ enc ++ name e ++ pad) ++ rest) b (zlen (pre ++ enc ++ name e ++ pad)) new fs) as ->.
    { rewrite <- Hw, Hp. unfold enc. rewrite add_round; [by bfalse (entry_len new <=? room e)|done|done|done| |done].
      rewrite Hw, zlen_app, Hp in Hz. pose proof (zlen_nonneg rest). lia. }
    rewrite Hw in Hz, Hby. destruct (IH fuel (pre ++ enc ++ name e ++ pad) Hown) as [[Hno Hadd]|(es1 & e' & es2 & d' & rest' & -> & Hfit' & Hadd & Hl' & Hwr)];
      [cbn in Hfuel; lia|done|done|left; split; [by constructor|done]|].
    right. exists (e :: es1), e', es2, d', (enc ++ name e ++ pad ++ rest'). split_and!; try done.
    + cbn [app]. by constructor.
    + rewrite <- !app_assoc in Hwr. exact Hwr.
Qed.
End adding.

Lemma hit_set_rec_len nm e n : hit nm (set_rec_len e n) = hit nm e.
Proof. done. Qed.
Lemma lookup_cut new nm es1 e es2 : lookup_name nm (es1 ++ cut new e ++ es2) =
  match lookup_name nm (es1 ++ [e]) with Some i => Some i | None => if hit nm new then Some (inode new) else lookup_name nm es2 end.
Proof.
  rewrite (lookup_name_app _ es1 (cut new e ++ es2)), (lookup_name_app _ es1 [e]). destruct (lookup_name nm es1); [done|].
  cbn [cut app lookup_name]. rewrite !hit_set_rec_len.
  by destruct (hit nm e).
Qed.
Lemma lookup_insert_fresh new es1 e es2 nm : lookup_name (name new) (es1 ++ e :: es2) = None ->
  hit (name new) new = true -> dname new = name new ->
  lookup_name nm (es1 ++ cut new e ++ es2) = if decide (nm = name new) then Some (inode new) else lookup_name nm (es1 ++ e :: es2).
Proof.
  intros Hno Hhit Hd. rewrite lookup_cut. assert (es1 ++ e :: es2 = (es1 ++ [e]) ++ es2) as Hes by (by rewrite <- app_assoc). rewrite Hes in Hno |- *.
  rewrite (lookup_name_app (name new) (es1 ++ [e]) es2) in Hno. rewrite (lookup_name_app nm (es1 ++ [e]) es2). destruct (decide (nm = name new)) as [->|Hne].
  - destruct (lookup_name (name new) (es1 ++ [e])); [done|]. by rewrite Hhit.
  - assert (hit nm new = false) as ->; [|done]. unfold hit. rewrite Hd. rewrite bool_decide_eq_false_2 by done. by rewrite !andb_false_r.
Qed.

(** C8: adding an entry to a directory block with room.  If the entries are as
    the driver makes them (file type 0) and one of them has room behind it,
    the block is written back as a list of such entries in which the new name
    leads to the new inode and every other name to what it led to before. *)
Theorem add_entry_found `{Build} {D} `{BlockDevLaws D} (fs : Ext2Fs D) b new es buf : fs_1k fs -> in_disk fs b ->
  entry_ok new -> file_type new = 0 -> Forall (fun c => c < 128) (name new) -> is_special (name new) = false -> inode new <> 0 ->
  lays es buf -> Forall own es -> zlen buf = 1024 -> bytes buf -> lookup_name (name new) es = None ->
  Exists (fun e => entry_len new <= room e) es ->
  exists d' buf' es', add_in_block (S (length buf)) buf b 0 new fs = (Ok true, with_disk fs d') /\
    wrote (disk fs) d' (base fs + b * 1024) buf' /\ lays es' buf' /\
    forall nm, lookup_name nm es' = if decide (nm = name new) then Some (inode new) else lookup_name nm es.
Proof.
  intros Hk Hb Hnew Hft Ha Hsp Hi Hl Hown Hz Hby Hno Hex. assert (dname new = name new) as Hd by (by apply latin1_ascii).
  assert (hit (name new) new = true) as Hhit.
  { unfold hit. rewrite Hd, Hsp, bool_decide_eq_true_2 by done. by destruct (Z.eqb_spec (inode new) 0). }
  destruct (add_loop fs Hk b Hb new Hnew Hft es buf Hl (S (length buf)) [] Hown) as [[Hfull _]|(es1 & e & es2 & d' & buf' & -> & _ & Hadd & Hl' & Hw)];
    [apply lays_length in Hl; unfold zlen in *; lia|done|done| |].
  - exfalso. apply Exists_exists in Hex as (e & He & Hroom). rewrite Forall_forall in Hfull. specialize (Hfull e He). lia.
  - exists d', buf', (es1 ++ cut new e ++ es2). split_and!; [done..|]. intros nm. by apply lookup_insert_fresh.
Qed.

(** An entry made by another system makes adding to its block panic.
    Where the file type is recorded, as mke2fs does, it is read as the high
    byte of the name length, and the length subtracted exceeds the record;
    with overflow checks that is a panic, at the first entry of the block. *)
Theorem foreign_entry_panics {D} `{BlockDevLaws D} (fs : Ext2Fs D) b new e tail : fs_1k fs ->
  let buf := dir_enc Little (inode e) (rec_len e) (file_type e) (name e) ++ tail in
  zlen buf = 1024 -> zlen (name e) <= 255 -> 8 <= rec_len e <= 1024 -> rec_len e < 256 * file_type e -> file_type e < 16 ->
  add_in_block (H:=dev_build) (S (length buf)) buf b 0 new fs = (Panic, fs).
Proof.
  intros Hk buf Hz Hn Hr Hft H16. pose proof (zlen_nonneg (name e)). set (header := dir_enc _ _ _ _ _) in *.
  assert (zlen header = 8) as H8 by apply zlen_dir_enc.
  assert (dp_rec_len header = rec_len e) as Hrl by (apply dir_enc_rec_len; unfold is_uint; change (256 ^ Z.of_nat 2) with 65536; lia).
  assert (dp_name_len header = zlen (name e) + 256 * file_type e) as Hnl.
  { change (dp_name_len header) with (zlen (name e) mod 256 + 256 * (file_type e mod 256 + 256 * 0)). rewrite !Z.mod_small; lia. }
  cbn [add_in_block]. rewrite Hz. cbn [Z.ltb Z.compare]. pose proof (slice_mid (E:=HalFsIOErr) [] header tail) as Hs.
  rewrite H8 in Hs. change ([] ++ header ++ tail) with buf in Hs. change (zlen []) with 0 in Hs.
  change (slice buf 0 (0 + DIR_ENTRY_PARTIAL_BYTES)) with (slice (E:=HalFsIOErr) buf 0 (0 + 8)). rewrite Hs. mstep. mstep. rewrite Hrl, Hnl.
  change (wrap 16 0) with 0. rewrite (uadd_ok 16) by lia. mstep. rewrite (block_size_1k fs Hk). mstep.
  change (wrap 16 1024) with 1024. bfalse (1024 <? rec_len e + 0). rewrite min_reclen_ok by lia. mstep.
  pose proof (align4_range (8 + (zlen (name e) + 256 * file_type e))) as [Hal _]. unfold usub, unum, fits. cbn [overflow_checks dev_build].
  by bfalse (0 <=? rec_len e - align4 (8 + (zlen (name e) + 256 * file_type e))).
Qed.

(** ** The inode found *)
Section finding.
Context `{Build} {D : Type} `{BlockDevLaws D} (fs : Ext2Fs D).
Let ipg : Z := s_inodes_per_group (super_block fs).
Definition inode_bitmap (g : Z) : list Z :=
  content (disk fs) (base fs + bg_inode_bitmap (desc fs g) * fs_block_size fs) (fs_block_size fs).
Definition inode_used (g idx : Z) : bool := Z.testbit (nth (Z.to_nat (idx / 8)) (inode_bitmap g) 0) (idx mod 8).
Fixpoint first_unused (g : Z) (idxs : list Z) : option Z :=
  match idxs with [] => None | i :: idxs => if inode_used g i then first_unused g idxs else Some i end.
(** The first free inode of the first group that counts one and has one *)
Fixpoint unused_inode (groups : list Z) : option (Z * Z) :=
  match groups with
  | [] => None
  | g :: groups =>
      if bg_free_inodes_count (desc fs g) =? 0 then unused_inode groups
      else match first_unused g (seqZ 0 ipg) with Some i => Some (g, i) | None => unused_inode groups end
  end.
(** The sectors read for a group are on the drive and its bitmap has a bit for each inode. *)
Record inodes_ok (g : Z) : Prop := {
  io_group : group_in fs g;
  io_table : table_off fs + 512 * (32 * g / 512) + fs_block_size fs <= bd_size (disk fs);
  io_bitmap : base fs + (bg_inode_bitmap (desc fs g) + 1) * fs_block_size fs <= bd_size (disk fs);
  io_bits : ipg <= 8 * fs_block_size fs;
  io_number : ipg * (g + 1) < 2 ^ 32;
}.
Lemma first_clear_ok g idxs : fs_ok fs -> Forall (fun i => 0 <= i < 8 * fs_block_size fs) idxs ->
  first_clear idxs (inode_bitmap g) = Ok (first_unused g idxs).
Proof using All.
  intros Hok. destruct (f_bs _ Hok) as [Hbs _]. induction 1 as [|i idxs Hi _ IH]; [done|]. cbn [first_clear first_unused].
  assert (0 <= i / 8 < fs_block_size fs) as Hq by (split; [apply Z.div_pos; lia|apply Z.div_lt_upper_bound; lia]).
  destruct (index_total (E:=HalFsIOErr) (inode_bitmap g) (i / 8)) as [x Hx]; [unfold inode_bitmap; rewrite zlen_content; lia|].
  rewrite Hx. rsimpl. apply index_inv in Hx as [_ Hx]. pose proof (Z.mod_pos_bound i 8 ltac:(lia)).
  rewrite tstbit_spec by lia. unfold inode_used. rewrite (nth_lookup_Some _ _ _ _ Hx). by destruct (Z.testbit x (i mod 8)).
Qed.
Lemma first_unused_range g idxs i : first_unused g idxs = Some i -> i ∈ idxs.
Proof using. induction idxs as [|x idxs IH]; [done|]. cbn. destruct (inode_used g x); [right; auto|]. intros [= ->]. by left. Qed.

Definition found (o : option (Z * Z)) : res HalFsIOErr InodePlus :=
  match o with
  | Some (g, i) => Ok {| ip_inode := Inode_default; absolute_idx := g * ipg + i + 1; ip_group_number := g; relative_idx := i |}
  | None => Err NoAvailableInode
  end.
Lemma find_in_groups_ok groups : fs_ok fs -> Forall inodes_ok groups -> forall buf, zlen buf = fs_block_size fs ->
  find_in_groups groups ((s_first_data_block (super_block fs) + 1) * (fs_block_size fs / 512)) buf fs =
    (found (unused_inode groups), fs).
Proof using All.
  intros Hok. destruct (f_bs _ Hok) as [Hbs Hm]. pose proof (bs_div fs Hok) as Hd. pose proof (f_size _ Hok). pose proof (f_start _ Hok).
  pose proof (first_data_block_range fs Hok). pose proof (inodes_per_group_range fs Hok) as Hipg. fold ipg in Hipg.
  set (T := (s_first_data_block (super_block fs) + 1) * (fs_block_size fs / 512)).
  assert (base fs + 512 * T = table_off fs) as HT by (unfold T, table_off; nia).
  induction 1 as [|g groups Hg Hgs IH]; intros buf Hz; [done|]. destruct (io_group _ Hg) as (Hgr & Hf & Hin). pose proof (io_table _ Hg) as Htab.
  destruct (desc_split g Hgr) as (Hlo & _ & _ & Hq). cbn [find_in_groups unused_inode]. rewrite Hlo. mstep.
  rewrite sadd_ok by (unfold base, SECTOR_SIZE in *; nia). mstep. bfalse (T + 32 * g / 512 =? 0).
  mrun (read_sectors_ok fs buf (T + 32 * g / 512) Hok ltac:(nia) ltac:(by rewrite Hz) ltac:(rewrite Hz; lia)).
  replace (base fs + 512 * (T + 32 * g / 512)) with (table_off fs + 512 * (32 * g / 512)) by lia. rewrite Hz.
  mrun (group_from_buffer_ok fs g (fs_block_size fs) Hok Hgr ltac:(lia)). cbn [descriptor group_of].
  destruct (bg_free_inodes_count (desc fs g) =? 0); [by apply IH; apply zlen_content; lia|]. unfold get_buffer. mstep.
  pose proof (io_bitmap _ Hg) as Hbm. assert (0 <= bg_inode_bitmap (desc fs g) < 2 ^ 32) as Hbr.
  { apply (u_at_range 4 4); [apply content_bytes|lia|]. unfold desc, GROUP_DESCRIPTOR_BYTES. rewrite zlen_content; lia. }
  unfold get_inode_bitmap_lba. cbn [block_size descriptor group_of]. rewrite block_idx_to_lba_ok by lia. mstep.
  assert (zlen (zeros (fs_block_size fs)) = fs_block_size fs) as Hzz by (rewrite zlen_zeros; lia).
  assert (0 <= bg_inode_bitmap (desc fs g) * (fs_block_size fs / 512)) as Hpos by (apply Z.mul_nonneg_nonneg; lia).
  assert (512 * (bg_inode_bitmap (desc fs g) * (fs_block_size fs / 512)) = bg_inode_bitmap (desc fs g) * fs_block_size fs) as Hmul
    by (rewrite <- Hd at 2; ring).
  mrun (read_sectors_ok fs (zeros (fs_block_size fs)) (bg_inode_bitmap (desc fs g) * (fs_block_size fs / 512)) Hok Hpos
    ltac:(by rewrite Hzz) ltac:(rewrite Hzz, Hmul; lia)).
  rewrite Hzz, Hmul. fold (inode_bitmap g). mstep.
  pose proof (io_bits _ Hg) as Hbits. rewrite first_clear_ok; [|done|apply Forall_forall; intros i Hi; apply elem_of_seqZ in Hi; fold ipg in Hi; lia].
  mstep. fold ipg. destruct (first_unused g (seqZ 0 ipg)) as [i|] eqn:Ei; [|by apply IH; apply zlen_content; lia].
  apply first_unused_range, elem_of_seqZ in Ei. pose proof (io_number _ Hg). unfold relative_idx_to_inode_plus. fold ipg.
  rewrite (wrap_small 32) by lia. rewrite umul_ok by nia. rsimpl. rewrite uadd_ok by nia. rsimpl. rewrite uadd_ok by nia. done.
Qed.
End finding.

(** The inode for a new file is the first one of the first group whose
    descriptor counts a free one and whose bitmap has one, and its number is
    counted from 1; with none, the error says so.  Nothing is written: until
    the bitmap changes, which creating a file does not do, every call returns
    the same inode. *)
Theorem available_inode_first `{Build} {D} `{BlockDevLaws D} (fs : Ext2Fs D) count : fs_ok fs ->
  block_groups_count_of (E:=HalFsIOErr) (super_block fs) = Ok count -> s_first_data_block (super_block fs) < 2 ^ 32 - 1 ->
  Forall (inodes_ok fs) (seqZ 0 count) ->
  find_available_inode fs = (found fs (unused_inode fs (seqZ 0 count)), fs).
Proof.
  intros Hok Hc Hf Hg. destruct (f_bs _ Hok). unfold find_available_inode. mstep. rewrite Hc. mstep. unfold get_buffer. mstep.
  mrun (table_lba_ok fs Hok Hf). apply find_in_groups_ok; [done|done|]. rewrite zlen_zeros; lia.
Qed.

(** ** On the sample file system *)
(** The sample directories in a partition that starts at sector 1 *)
Definition part_fs : Ext2Fs MemDisk :=
  {| disk := zeros 512 ++ dir_disk; start_lba := 1; super_block := sample_sb; fs_block_size := 1024; block_groups_count := 1;
     allocated_block_indices := []; unwritten_freed_blocks := [] |}.
Definition create_in (fs : Ext2Fs MemDisk) (path : list Z) : res HalFsIOErr HalInode * Ext2Fs MemDisk :=
  open_file (H:=dev_build) (Some 5) (Some 5) (Some 5) (Some 5) {| Path.raw := path |}
    {| access_mode := ReadNWrite; flags := CreateIfNotExist; perms := Some 420 |} fs.
Definition number_of (r : res HalFsIOErr HalInode) : res HalFsIOErr Z := '(HalInode_Ext2 ip) ← r; Ok (absolute_idx ip).
Definition lookup_in (fs : Ext2Fs MemDisk) (nm : list Z) : res HalFsIOErr (option Z) :=
  fst (find_entry_by_name (H:=dev_build) nm (ip_at sample_inode 2) fs).
(** Two files created one after the other have the same inode: creating
    a file does not set its bit in the inode bitmap.  Both names are then in
    the directory and lead to inode 1. *)
Theorem create_twice_same_inode :
  let a := create_in part_fs (str "/a") in
  let b := create_in (snd a) (str "/b") in
  (number_of (fst a), number_of (fst b), lookup_in (snd b) (str "a"), lookup_in (snd b) (str "b")) =
    (Ok 1, Ok 1, Ok (Some 1), Ok (Some 1)).
Proof. vm_compute. reflexivity. Qed.

Lemma add_entry_found_witness : exists d' buf' es',
  @add_in_block dev_build _ _ (S (length (enc_dir root_es))) (enc_dir root_es) 9 0 (dirent 14 12 (str "tmp")) dir_fs = (Ok true, with_disk dir_fs d') /\
  wrote (disk dir_fs) d' (base dir_fs + 9 * 1024) buf' /\ lays es' buf' /\
  forall nm, lookup_name nm es' = if decide (nm = str "tmp") then Some 14 else lookup_name nm root_es.
Proof.
  apply (@add_entry_found dev_build _ _ _ dir_fs 9 (dirent 14 12 (str "tmp")) root_es (enc_dir root_es) dir_fs_1k).
  - pose proof (in_disk_check dir_fs [9]) as T. rewrite Forall_singleton in T. apply T. vm_compute. reflexivity.
  - split; [split; vm_compute; congruence..|]. split; [apply bytes_check; reflexivity|vm_compute; congruence].
  - reflexivity.
  - repeat constructor.
  - reflexivity.
  - discriminate.
  - apply lays_enc. reflexivity.
  - repeat constructor; vm_compute; congruence.
  - reflexivity.
  - apply bytes_check. vm_compute. reflexivity.
  - reflexivity.
  - do 3 right. left. vm_compute. congruence.
Defined.
(** The first entry of a directory made by mke2fs *)
Lemma foreign_entry_panics_witness :
  @add_in_block dev_build MemDisk _ 1025 (dir_enc Little 2 12 2 (str ".") ++ zeros 1016) 9 0 (dirent 14 12 (str "tmp")) dir_fs =
    (Panic, dir_fs).
Proof.
  exact (foreign_entry_panics dir_fs 9 (dirent 14 12 (str "tmp")) {| inode := 2; rec_len := 12; file_type := 2; name := str "." |}
    (zeros 1016) dir_fs_1k eq_refl ltac:(vm_compute; congruence) ltac:(cbn; lia) ltac:(cbn; lia) ltac:(cbn; lia)).
Defined.
Lemma available_inode_first_witness : exists ip, @find_available_inode dev_build _ _ dir_fs = (Ok ip, dir_fs) /\ absolute_idx ip = 1.
Proof.
  eexists. split; [apply (@available_inode_first dev_build _ _ _ dir_fs 1 (k_ok _ dir_fs_1k)); [vm_compute; reflexivity|vm_compute; reflexivity|]|].
  - apply Forall_singleton. split; [exact (proj1 (dir_inode_in 0 ltac:(lia)))|vm_compute; congruence|vm_compute; congruence|vm_compute; congruence|vm_compute; reflexivity].
  - vm_compute. reflexivity.
Defined.
