(* ===== verification/Ext2Delete.v ===== *)
(** * ext2: deleting files and directories

    src/kernel/src/drivers/fs/ext2/delete.rs and [rmdir] of dirs.rs.

    The bitmap buffer and the address it was read from, passed around by
    [&mut], are a pair that every step takes and returns. *)

From S2P Require Import Path Prelude Bytes Serialize Crypto Disk Ext2Layout Ext2Fs Ext2Alloc Ext2Iter Ext2File Ext2Dir.

Section delete.
Context `{Build} {D : Type} `{BlockDev D}.
Abbreviation EM := (M (Ext2Fs D) HalFsIOErr).
(** The address of the bitmap in the buffer, and the buffer *)
Abbreviation Bitmap := (Z * list Z)%type.

Definition free_block (block_lba : Z) (cur : Bitmap) : EM Bitmap :=
  block_group ← get_group_from_block_idx block_lba;
  bitmap_lba ← lift (get_block_bitmap_lba block_group);
  '(cur_lba, buf) ← (if fst cur =? bitmap_lba then mret cur
                     else buf ← read_sectors (snd cur) bitmap_lba; mret (bitmap_lba, buf));
  fs ← get;
  block_rel_idx ← lift (urem block_lba (s_blocks_per_group (super_block fs)));
  buf ← lift (bit_clear buf block_rel_idx);
  _ ← write_sectors buf bitmap_lba;
  _ ← add_freed_block block_lba;
  mret (cur_lba, buf).

(** [for i in (0..BLOCK_SIZE).step_by(4)]: the pointers of a block up to the
    first that is zero, each given to [f] *)
Fixpoint for_pointers (offs : list Z) (buf : list Z) (f : Z -> Bitmap -> EM Bitmap) (cur : Bitmap) : EM Bitmap :=
  match offs with
  | [] => mret cur
  | i :: offs =>
      sub ← lift (slice_from buf i);
      '(p, _) ← lift (map_err DeserializationErr (deserialize (uint 4) Little sub));
      if p =? 0 then mret cur else
      cur ← f p cur;
      for_pointers offs buf f cur
  end.
Definition step_by_4 : list Z := (fun k => 4 * k) <$> seqZ 0 (BLOCK_SIZE / 4).
Definition free_indirect_block (block_idx : Z) (cur : Bitmap) : EM Bitmap :=
  buf ← read_block (zeros BLOCK_SIZE) block_idx;
  cur ← for_pointers step_by_4 buf (fun idx cur => free_block idx cur) cur;
  free_block block_idx cur.
(** The block freed as an indirect one is the double indirect block itself. *)
Definition free_double_indirect_block (block_idx : Z) (cur : Bitmap) : EM Bitmap :=
  buf ← read_block (zeros BLOCK_SIZE) block_idx;
  cur ← for_pointers step_by_4 buf (fun lba cur => free_indirect_block block_idx cur) cur;
  free_block block_idx cur.
Definition free_triple_indirect_block (block_idx : Z) (cur : Bitmap) : EM Bitmap :=
  buf ← read_block (zeros BLOCK_SIZE) block_idx;
  cur ← for_pointers step_by_4 buf (fun block_idx cur => free_double_indirect_block block_idx cur) cur;
  free_block block_idx cur.

(** The direct slots; [None] at the first empty one, where [free_blocks] returns *)
Fixpoint free_direct (idxs : list Z) (slots : list Z) (cur : Bitmap) : EM (option Bitmap) :=
  match idxs with
  | [] => mret (Some cur)
  | i :: idxs =>
      p ← lift (index slots i);
      if p =? 0 then mret None else
      cur ← free_block p cur;
      free_direct idxs slots cur
  end.
Definition free_blocks (ip : InodePlus) : EM () :=
  let ino := ip_inode ip in
  o ← free_direct (seqZ 0 INODE_BLOCK_LIMIT) (i_block ino) (0, zeros BLOCK_SIZE);
  match o with
  | None => mret ()
  | Some cur =>
      cur ← (if INODE_BLOCK_LIMIT <? i_blocks ino then
               p ← lift (index (i_block ino) INODE_BLOCK_LIMIT); free_indirect_block p cur
             else mret cur);
      cur ← (if INODE_IND_BLOCK_LIMIT <? i_blocks ino then
               p ← lift (index (i_block ino) (INODE_BLOCK_LIMIT + 1)); free_double_indirect_block p cur
             else mret cur);
      cur ← (if INODE_DOUBLE_IND_BLOCK_LIMIT <? i_blocks ino then
               p ← lift (index (i_block ino) (INODE_BLOCK_LIMIT + 2)); free_triple_indirect_block p cur
             else mret cur);
      fs ← get;
      bs ← lift (block_size_of (super_block fs));
      q ← lift (udiv (i_blocks ino) bs);
      n ← lift (uadd 32 (s_free_blocks_count (super_block fs)) q);
      put (with_super_block fs (set_s_free_blocks_count n (super_block fs)))
  end.

Definition free_inode (now : option Z) (ip : InodePlus) : EM InodePlus :=
  _ ← free_blocks ip;
  time ← lift (expect now);
  let ino := ip_inode ip in
  let ip := with_inode ip (set_block_map (set_times ino (i_mtime ino) time) (i_block ino) 0) in
  _ ← write_inode ip;
  group ← get_group (ip_group_number ip);
  inode_bitmap_lba ← lift (get_inode_bitmap_lba group);
  buf ← read_sectors (zeros BLOCK_SIZE) inode_bitmap_lba;
  buf ← lift (bit_clear buf (relative_idx ip));
  _ ← write_sectors buf inode_bitmap_lba;
  fs ← get;
  n ← lift (uadd 32 (s_free_inodes_count (super_block fs)) 1);
  let sb := set_s_free_inodes_count n (super_block fs) in
  _ ← put (with_super_block fs sb);
  buf ← lift (splice (fill0 buf) 0 sb);
  _ ← write_sectors buf RESERVED_BOOT_RECORD_OFFSET;
  _ ← write_freed_blocks;
  mret ip.

Definition delete_file (now : option Z) (path : Path.Path) : EM () :=
  '(dir, file) ← walk_path path;
  o ← lift (from_never (Path.file_name path));
  nm ← lift (match o with Some nm => Ok nm | None => Err BadPath end);
  _ ← find_entry_by_name_and_delete nm dir;
  match file with
  | None => throw NoSuchFileOrDirectory
  | Some ip =>
      n ← lift (usub 16 (i_links_count (ip_inode ip)) 1);
      let ip := with_inode ip (set_i_links_count (ip_inode ip) n) in
      if n =? 0 then _ ← free_inode now ip; mret () else mret ()
  end.
(** The directory checked and freed is the one that holds the entry. *)
Definition rmdir (now : option Z) (path : Path.Path) : EM () :=
  '(dir, file) ← walk_path path;
  match file with
  | None => throw NoSuchFileOrDirectory
  | Some ip =>
      if negb (is_directory (ip_inode ip)) then throw NotADirectory else
      e ← is_dir_empty dir;
      if negb e then throw DirectoryNotEmpty else
      _ ← free_inode now dir;
      mret ()
  end.
End delete.

(** ** Freeing a block *)
(** C32: freeing a block clears its bit in the bitmap of its group, on the
    drive and in the buffer, and no other bit; no byte outside the bitmap
    changes, and the block joins the set of freed ones.  The buffer passed on
    may hold that bitmap already. *)
Theorem free_block_clears `{Build} {D} `{BlockDevLaws D} (fs : Ext2Fs D) b cur : fs_1k fs -> 0 <= b < 2 ^ 32 ->
  let g := b / bpg fs in
  group_ok fs g -> b mod bpg fs < bits_per_group fs -> zlen (snd cur) = 1024 ->
  (get_block_bitmap_lba (E:=HalFsIOErr) (group_of fs g) = Ok (fst cur) -> snd cur = bitmap fs g) ->
  exists lba bm d', free_block b cur fs = (Ok (lba, bm), with_freed (with_disk fs d') (zset_insert b (unwritten_freed_blocks fs))) /\
    get_block_bitmap_lba (E:=HalFsIOErr) (group_of fs g) = Ok lba /\ wrote (disk fs) d' (bitmap_off fs g) bm /\
    forall j, 0 <= j -> bit_at bm j = negb (b mod bpg fs =? j) && bit_at (bitmap fs g) j.
Proof.
  intros Hk Hb g Hg Hrel Hz Hcur. pose proof (k_ok _ Hk) as Hok. pose proof (k_bs _ Hk) as Hbs. unfold BLOCK_SIZE in Hbs.
  destruct (g_fits _ _ Hg) as [Hb1 _]. pose proof (Z.mod_pos_bound b (bpg fs) ltac:(lia)) as Hm. unfold bits_per_group in Hrel.
  destruct (bitmap_read_ok fs g Hok Hg) as (lba & Hlba & Hl0 & Ho & Hread).
  assert (zlen (bitmap fs g) = 1024 /\ bytes (bitmap fs g)) as [Hzb Hbb] by (unfold bitmap; rewrite Hbs; split; [by apply zlen_content|apply content_bytes]).
  destruct (bit_clear_spec (E:=HalFsIOErr) (bitmap fs g) (b mod bpg fs)) as (bm & Hclear & Hlen & Hby & Hbits); [lia|done|].
  assert (zlen bm = 1024) as Hzm by (unfold zlen in *; lia).
  destruct (write_sectors_ok fs bm lba Hok Hl0) as (d' & Hw & Hwr); [by rewrite Hzm|done|rewrite Ho, Hzm; pose proof (g_bitmap _ _ Hg); lia|].
  rewrite Ho in Hwr. exists lba, bm, d'. split_and!; [|done..].
  unfold free_block, get_group_from_block_idx. rewrite M_assoc. mstep. fold (bpg fs). rewrite M_assoc, udiv_ok by lia. mstep. fold g.
  mrun (get_group_ok fs g Hok (g_in _ _ Hg)). rewrite Hlba. mstep.
  assert ((if fst cur =? lba then mret cur else buf ← read_sectors (snd cur) lba; mret (lba, buf)) fs = (Ok (E:=HalFsIOErr) (lba, bitmap fs g), fs)) as Hget.
  { destruct (Z.eqb_spec (fst cur) lba) as [E|_].
    - rewrite <- Hcur by (by rewrite E). rewrite <- E. by destruct cur.
    - mrun (Hread (snd cur) ltac:(by rewrite Hbs)). done. }
  mrun Hget. cbv beta iota. mstep. fold (bpg fs). rewrite urem_ok by lia. mstep. rewrite Hclear. mstep. mrun Hw. done.
Qed.

(** ** The superblock's count *)
Section counts.
Context `{Build} {D : Type} `{BlockDev D}.
Definition keeps_sb {A} (m : M (Ext2Fs D) HalFsIOErr A) : Prop := forall s a s', m s = (Ok a, s') -> super_block s' = super_block s.
Lemma keeps_sb_bind {A B} (m : M (Ext2Fs D) HalFsIOErr A) (f : A -> M (Ext2Fs D) HalFsIOErr B) :
  keeps_sb m -> (forall a, keeps_sb (f a)) -> keeps_sb (m ≫= f).
Proof using. intros Hm Hf s b s' Hr. apply M_bind_ok in Hr as (a & s1 & R1 & R2). by rewrite (Hf _ _ _ _ R2), (Hm _ _ _ R1). Qed.
Lemma keeps_sb_lift {A} (r : res HalFsIOErr A) : keeps_sb (lift r).
Proof using. intros s a s' Hr. unfold lift in Hr. congruence. Qed.
Lemma keeps_sb_ret {A} (a : A) : keeps_sb (mret a).
Proof using. intros s b s' Hr. unfold mret, M_ret in Hr. congruence. Qed.
Lemma keeps_sb_get : keeps_sb get.
Proof using. intros s a s' Hr. unfold get in Hr. congruence. Qed.
Lemma keeps_sb_put (f : Ext2Fs D -> Ext2Fs D) : (forall fs, super_block (f fs) = super_block fs) -> keeps_sb (fs ← get; put (f fs)).
Proof using. intros Hf s a s' Hr. apply M_bind_ok in Hr as (fs & s1 & R1 & R2). unfold get in R1. unfold put in R2. injection R1 as <- <-. injection R2 as _ <-. apply Hf. Qed.
Lemma keeps_sb_write buf lba : keeps_sb (write_sectors buf lba).
Proof using.
  intros s a s' Hr. unfold write_sectors in Hr. apply M_bind_ok in Hr as (fs & s1 & R1 & R2). unfold get in R1. injection R1 as <- <-.
  apply M_bind_ok in R2 as (l & s2 & R2 & R3). apply keeps_sb_lift in R2.
  apply M_bind_ok in R3 as (d & s3 & R3 & R4). unfold put in R4. injection R4 as _ <-. done.
Qed.
Lemma keeps_sb_add_freed b : keeps_sb (add_freed_block b).
Proof using. by apply (keeps_sb_put (fun fs => with_freed fs (zset_insert b (unwritten_freed_blocks fs)))). Qed.
#[local] Hint Resolve keeps_sb_lift keeps_sb_ret keeps_sb_get keeps_sb_write keeps_sb_add_freed : core.
Ltac keep_sb := repeat first [progress intros | solve [auto] | apply keeps_sb_bind
  | match goal with |- keeps_sb (if ?b then _ else _) => destruct b | |- keeps_sb (match ?x with _ => _ end) => destruct x end].
Lemma keeps_sb_free_block b cur : keeps_sb (free_block b cur).
Proof using.
  unfold free_block, get_group_from_block_idx, get_group, get_block_group_table_lba, read_sectors, get_group_from_buffer.
  keep_sb.
Qed.
Lemma free_direct_stops idxs slots : forall cur s o s', free_direct idxs slots cur s = (Ok o, s') ->
  Exists (fun i => index (E:=HalFsIOErr) slots i = Ok 0) idxs -> o = None /\ super_block s' = super_block s.
Proof using.
  induction idxs as [|i idxs IH]; intros cur s o s' Hr Hex; [by inversion Hex|]. cbn [free_direct] in Hr.
  apply M_bind_ok in Hr as (p & s1 & R1 & R2). unfold lift in R1. injection R1 as R1 <-.
  destruct (Z.eqb_spec p 0) as [->|Hp]; [unfold mret, M_ret in R2; by simplify_eq|].
  apply M_bind_ok in R2 as (cur' & s2 & R2 & R3). apply keeps_sb_free_block in R2. rewrite <- R2.
  eapply IH; [exact R3|]. inversion Hex as [? ? E|? ? E]; [congruence|exact E].
Qed.
End counts.

(** Freeing the blocks of an inode that has an empty direct slot, as every
    file of fewer than twelve blocks does, leaves the superblock's count of
    free blocks as it was: the loop over the slots returns at the first empty
    one, before the count is raised. *)
Theorem small_file_count_kept `{Build} {D} `{BlockDev D} (fs fs' : Ext2Fs D) ip i : 0 <= i < 12 ->
  index (E:=HalFsIOErr) (i_block (ip_inode ip)) i = Ok 0 -> free_blocks ip fs = (Ok (), fs') ->
  s_free_blocks_count (super_block fs') = s_free_blocks_count (super_block fs).
Proof.
  intros Hi Hslot Hr. unfold free_blocks in Hr. apply M_bind_ok in Hr as (o & s1 & R1 & R2).
  apply free_direct_stops in R1 as [-> Hs].
  - unfold mret, M_ret in R2. injection R2 as <-. by rewrite Hs.
  - apply Exists_exists. exists i. split; [|done]. apply elem_of_seqZ. unfold INODE_BLOCK_LIMIT. lia.
Qed.

(** ** On the sample file system *)
(** Deletion time and bitmap bit of an inode of group 0 *)
Definition inode_state (fs : Ext2Fs MemDisk) (i : Z) : res HalFsIOErr Z * bool :=
  (ip ← fst (get_nth_inode (H:=dev_build) i fs); Ok (i_dtime (ip_inode ip)),
   bit_at (content (disk fs) (base fs + bg_inode_bitmap (desc fs 0) * 1024) 1024) (i - 1)).
(** The sample directories, with the bits of the inodes in use set *)
Definition used_fs : Ext2Fs MemDisk := with_disk dir_fs (u_put 2 4096 0x1C02 dir_disk).
(** Removing the directory /etc deletes the root directory: the inode
    marked as deleted, and whose bit and blocks are freed, is that of the
    parent, and /etc is still there.  It is neither checked to be empty, nor
    is its entry removed. *)
Theorem rmdir_frees_parent :
  let r := rmdir (H:=dev_build) (Some 5) {| Path.raw := str "/etc" |} used_fs in
  (fst r, inode_state used_fs 2, inode_state (snd r) 2, inode_state (snd r) 11,
   fst (find_entry_by_name (H:=dev_build) (str "etc") (ip_at sample_inode 2) (snd r))) =
  (Ok (), (Ok 0, true), (Ok 5, false), (Ok 0, true), Ok (Some 11)).
Proof. vm_compute. reflexivity. Qed.

Lemma free_block_clears_witness : exists lba bm d',
  @free_block dev_build _ _ 9 (0, zeros 1024) file_fs =
    (Ok (lba, bm), with_freed (with_disk file_fs d') [9]) /\
  @get_block_bitmap_lba dev_build HalFsIOErr (group_of file_fs 0) = Ok lba /\ wrote (disk file_fs) d' (bitmap_off file_fs 0) bm /\
  forall j, 0 <= j -> bit_at bm j = negb (9 =? j) && bit_at (bitmap file_fs 0) j.
Proof.
  apply (@free_block_clears dev_build _ _ _ file_fs 9 (0, zeros 1024) file_fs_1k); [lia| | |reflexivity|].
  - split; [split; [vm_compute; split; congruence|split; vm_compute; congruence]|vm_compute; congruence|split; vm_compute; congruence].
  - vm_compute. reflexivity.
  - intros E. exfalso. vm_compute in E. discriminate E.
Defined.
Lemma small_file_count_kept_witness :
  let fs' := snd (@free_blocks dev_build _ _ file_ip file_fs) in
  s_free_blocks_count (super_block fs') = s_free_blocks_count (super_block file_fs).
Proof.
  apply (@small_file_count_kept dev_build _ _ file_fs _ file_ip 2); [lia|reflexivity|].
  assert (fst (@free_blocks dev_build _ _ file_ip file_fs) = Ok ()) as E by (vm_compute; reflexivity).
  destruct (@free_blocks dev_build _ _ file_ip file_fs) as [r s]. cbn in *. by rewrite E.
Defined.
