(* ===== verification/Ext2List.v ===== *)
(** * Listing a directory

    [DirEnt64] of src/kernel/src/hal/fs.rs, and [iter_dir] with its helper of
    src/kernel/src/drivers/fs/ext2/dirs.rs.

    In a block every round either moves on, or writes a record into the
    buffer, or repeats itself for ever: as many rounds as both have bytes are
    enough.  Every block but the first and the last raises the offset. *)

From S2P Require Import Prelude Bytes Serialize Crypto Disk Ext2Layout Ext2Fs Ext2Alloc Ext2Iter Ext2File Ext2Dir.

(** ** [DirEnt64] *)
Record DirEnt64 := { inode_idx : Z; de_offset : Z; de_file_type : Z; de_name : list Z }.
(** [(length + 8) & !7] *)
Definition de_rec_len (self : DirEnt64) : Z := Z.ldiff (8 + 8 + 2 + 1 + zlen (de_name self) + 1 + 8) 7.
Definition put_with (c : DvDeSer Z) (e : Endianness) (v : Z) (st : list Z * Z) : res DvSerErr (list Z * Z) :=
  let '(target, progress) := st in
  sub ← slice_from target progress;
  '(sub, n) ← serialize c e v sub;
  target ← splice target progress sub;
  Ok (target, progress + n).
(** [for byte in name.as_bytes() { target[progress] = *byte; progress += 1; }] *)
Fixpoint put_name_bytes (nm : list Z) (st : list Z * Z) : res DvSerErr (list Z * Z) :=
  let '(target, progress) := st in
  match nm with
  | [] => Ok st
  | c :: nm => target ← update target progress c; put_name_bytes nm (target, progress + 1)
  end.
Definition DirEnt64_serialize (e : Endianness) (self : DirEnt64) (target : list Z) : res DvSerErr (list Z * Z) :=
  let length := de_rec_len self in
  if zlen target <? length then Err BufferTooSmall else
  st ← put_with (uint 8) e (inode_idx self) (target, 0);
  st ← put_with (sint 8) e (de_offset self) st;
  st ← put_with (uint 2) e (wrap 16 length) st;
  st ← put_with (uint 1) e (de_file_type self) st;
  '(target, progress) ← put_name_bytes (de_name self) st;
  target ← update target progress 0;
  Ok (target, length).

Section list.
Context `{Build} {D : Type} `{BlockDev D}.
Abbreviation EM := (M (Ext2Fs D) HalFsIOErr).

(** The entries of a block: the buffer, the offset and the bytes written
    after it; [true] if the buffer is full *)
Fixpoint list_loop (fuel : nat) (buf target : list Z) (offset written bytes : Z) : res HalFsIOErr (bool * list Z * Z * Z) :=
  match fuel with
  | O => Hang
  | S fuel =>
      sub ← slice_from buf bytes;
      o ← attempt (DirEntry_deserialize Little sub);
      match o with
      | inl _ => Ok (false, target, offset, written)
      | inr (entry, bytes_read) =>
          r ← (if negb (inode entry =? 0) then
                 off ← sadd offset bytes_read;
                 let ent := {| inode_idx := inode entry; de_offset := off; de_file_type := file_type entry; de_name := name entry |} in
                 n ← uadd 64 (de_rec_len ent) written;
                 if zlen target <=? n then Ok None else
                 sub ← slice_from target written;
                 '(sub, n) ← map_err SerializationErr (DirEnt64_serialize Little ent sub);
                 target ← splice target written sub;
                 written ← uadd 64 written n;
                 Ok (Some (target, written))
               else Ok (Some (target, written)));
          match r with
          | None => Ok (true, target, offset, written)
          | Some (target, written) =>
              offset ← sadd offset bytes_read;
              bytes ← uadd 64 bytes bytes_read;
              list_loop fuel buf target offset written bytes
          end
      end
  end.
(** Whether the entries ended, whether to stop, and what was changed *)
Definition read_entries_till_next_block (ino : Inode) (target : list Z) (offset : Z) (progress : Progress) :
    EM (bool * bool * list Z * Z * Progress) :=
  lba ← get_block_lba ino (p_block_idx progress);
  buf ← read_sectors (zeros BLOCK_SIZE) lba;
  '(full, target, offset, written) ← lift (list_loop (S (length buf + length target)) buf target offset
    (bytes_written progress) (p_offset progress));
  if (full : bool) then
    i ← lift (uadd 32 (p_block_idx progress) 1);
    mret (false, true, target, offset, {| p_block_idx := i; p_offset := 0; bytes_written := written |})
  else if i_size ino <=? offset then
    mret (true, true, target, offset, {| p_block_idx := p_block_idx progress; p_offset := p_offset progress; bytes_written := written |})
  else
    i ← lift (uadd 32 (p_block_idx progress) 1);
    mret (false, false, target, offset, {| p_block_idx := i; p_offset := 0; bytes_written := written |}).

Fixpoint iter_loop (fuel : nat) (ino : Inode) (target : list Z) (offset : Z) (progress : Progress) : EM (bool * Z) :=
  match fuel with
  | O => lift Hang
  | S fuel =>
      '(reached_end, finished, target, offset, progress) ← read_entries_till_next_block ino target offset progress;
      if (reached_end : bool) then mret (true, offset)
      else if (finished : bool) then mret (false, offset)
      else iter_loop fuel ino target offset progress
  end.
(** The buffer is the function's own: only the flag and the offset come back. *)
Definition iter_dir (offset : Z) (buf : list Z) (ip : InodePlus) : EM (bool * Z) :=
  let ino := ip_inode ip in
  if negb (is_directory ino) then throw NotADirectory else
  fs ← get;
  bs ← lift (block_size_of (super_block fs));
  progress ← lift (progress_at offset bs);
  iter_loop (S (S (Z.to_nat (i_size ino - offset)))) ino buf offset progress.
End list.

(** ** The bytes of a record *)
Definition record (d : DirEnt64) : list Z :=
  to_bytes Little 8 (inode_idx d) ++ to_bytes Little 8 (wrap 64 (de_offset d)) ++ to_bytes Little 2 (wrap 16 (de_rec_len d)) ++
  to_bytes Little 1 (de_file_type d) ++ de_name d ++ [0].
Lemma zlen_record d : zlen (record d) = 20 + zlen (de_name d).
Proof. unfold record, zlen. rewrite !length_app, !length_to_bytes. cbn [length]. lia. Qed.
Lemma de_rec_len_eq d : de_rec_len d = 8 * ((28 + zlen (de_name d)) / 8).
Proof.
  unfold de_rec_len. change 7 with (Z.ones 3). rewrite Z.ldiff_ones_r, Z.shiftl_mul_pow2, Z.shiftr_div_pow2 by lia.
  change (2 ^ 3) with 8. replace (8 + 8 + 2 + 1 + zlen (de_name d) + 1 + 8) with (28 + zlen (de_name d)) by lia. lia.
Qed.
Lemma de_rec_len_range d : 20 + zlen (de_name d) < de_rec_len d <= 28 + zlen (de_name d).
Proof.
  rewrite de_rec_len_eq. pose proof (Z.div_mod (28 + zlen (de_name d)) 8 ltac:(lia)).
  pose proof (Z.mod_pos_bound (28 + zlen (de_name d)) 8 ltac:(lia)). lia.
Qed.
Record ent_ok (d : DirEnt64) : Prop := {
  en_inode : is_uint 8 (inode_idx d); en_offset : is_sint 8 (de_offset d); en_type : is_uint 1 (de_file_type d);
}.

Lemma put_with_ok (c : DvDeSer Z) n ok enc `{L : !DvLaws c n ok enc} e v pre rest : ok v -> (n <= length rest)%nat ->
  put_with c e v (pre ++ rest, zlen pre) = Ok ((pre ++ enc e v) ++ drop n rest, zlen (pre ++ enc e v)).
Proof.
  intros Hv Hl. pose proof (enc_len e v Hv) as He. unfold put_with. pose proof (zlen_nonneg pre). pose proof (zlen_nonneg rest).
  rewrite slice_from_ok by (rewrite zlen_app; lia). rsimpl. rewrite to_nat_zlen, drop_app_length.
  rewrite (ser_fits e v rest) by done. rsimpl.
  pose proof (splice_mid (E:=DvSerErr) pre rest (enc e v ++ drop n rest) []) as Hs. rewrite !app_nil_r in Hs. rewrite Hs.
  - rsimpl. rewrite app_assoc. do 2 f_equal. unfold zlen. rewrite length_app. lia.
  - unfold zlen. rewrite length_app, length_drop. lia.
Qed.
Lemma put_name_bytes_ok nm pre rest : (length nm <= length rest)%nat ->
  put_name_bytes nm (pre ++ rest, zlen pre) = Ok ((pre ++ nm) ++ drop (length nm) rest, zlen (pre ++ nm)).
Proof.
  revert pre rest. induction nm as [|c nm IH]; intros pre rest Hl; [by rewrite app_nil_r|].
  destruct rest as [|r rest]; [cbn in Hl; lia|]. cbn [put_name_bytes]. pose proof (zlen_nonneg pre). pose proof (zlen_nonneg rest).
  rewrite update_ok by (rewrite zlen_app, zlen_cons; lia). rsimpl. rewrite to_nat_zlen.
  rewrite <- (Nat.add_0_r (length pre)), insert_app_r. cbn [insert list_insert].
  replace (pre ++ c :: rest) with ((pre ++ [c]) ++ rest) by (by rewrite <- app_assoc).
  replace (zlen pre + 1) with (zlen (pre ++ [c])) by (by rewrite zlen_app). rewrite IH by (cbn in Hl; lia).
  by rewrite <- !app_assoc.
Qed.
(** A record is written over the start of a buffer with room for it. *)
Lemma serialize_record d target : ent_ok d -> de_rec_len d <= zlen target ->
  DirEnt64_serialize Little d target = Ok (record d ++ drop (length (record d)) target, de_rec_len d).
Proof.
  intros [Hi Ho Ht] Hl. pose proof (de_rec_len_range d) as Hr. pose proof (zlen_nonneg (de_name d)). pose proof (zlen_record d) as Hz.
  unfold DirEnt64_serialize. bfalse (zlen target <? de_rec_len d). unfold zlen in Hl, Hr, Hz.
  change (target, 0) with ([] ++ target, zlen (@nil Z)).
  rewrite (put_with_ok (uint 8) 8 _ _) by (done || lia). rsimpl.
  rewrite (put_with_ok (sint 8) 8 _ _) by (done || rewrite length_drop; lia). rsimpl. rewrite drop_drop.
  rewrite (put_with_ok (uint 2) 2 _ _); [|apply (wrap_range 16); lia|rewrite length_drop; lia]. rsimpl. rewrite drop_drop.
  rewrite (put_with_ok (uint 1) 1 _ _) by (done || rewrite length_drop; lia). rsimpl. rewrite drop_drop.
  rewrite put_name_bytes_ok by (rewrite length_drop; lia). rsimpl. rewrite drop_drop.
  set (pre := (_ ++ de_name d)). set (k := (8 + 8 + 2 + 1 + length (de_name d))%nat).
  assert (length (record d) = S k) as Hk by (unfold k; lia). rewrite Hk.
  assert (record d = pre ++ [0]) as -> by (unfold pre, record; by rewrite <- !app_assoc).
  destruct (drop k target) as [|r rest] eqn:Ed.
  { apply (f_equal length) in Ed. rewrite length_drop in Ed. cbn in Ed. lia. }
  pose proof (zlen_nonneg pre). pose proof (zlen_nonneg rest). rewrite update_ok by (rewrite zlen_app, zlen_cons; lia). rsimpl.
  rewrite to_nat_zlen, <- (Nat.add_0_r (length pre)), insert_app_r. cbn [insert list_insert]. rewrite <- app_assoc. cbn [app].
  do 4 f_equal. replace (S k) with (k + 1)%nat by lia. by rewrite <- drop_drop, Ed.
Qed.

(** ** The records of a block *)
Definition ent_at (offset : Z) (e : DirEntry) : DirEnt64 :=
  {| inode_idx := inode e; de_offset := offset + rec_len e; de_file_type := file_type e; de_name := dname e |}.
(** The records of the entries in use, each with the offset of the next entry *)
Fixpoint listing (offset : Z) (es : list DirEntry) : list DirEnt64 :=
  match es with
  | [] => []
  | e :: es => (if inode e =? 0 then [] else [ent_at offset e]) ++ listing (offset + rec_len e) es
  end.
Definition padded (d : DirEnt64) : list Z := record d ++ zeros (de_rec_len d - zlen (record d)).
Definition total (ds : list DirEnt64) : Z := zlen (concat (padded <$> ds)).
Lemma zlen_padded d : zlen (padded d) = de_rec_len d.
Proof.
  pose proof (de_rec_len_range d). pose proof (zlen_record d). unfold padded. rewrite zlen_app, zlen_zeros; lia.
Qed.
Lemma drop_zeros n k : drop n (zeros k) = zeros (k - Z.of_nat n).
Proof. unfold zeros. rewrite drop_replicate. f_equal. lia. Qed.
Lemma zeros_app a b : 0 <= a -> 0 <= b -> zeros a ++ zeros b = zeros (a + b).
Proof. intros. unfold zeros. rewrite <- replicate_add. f_equal. lia. Qed.
Lemma total_cons d ds : total (d :: ds) = de_rec_len d + total ds.
Proof. unfold total. cbn [fmap list_fmap concat]. by rewrite zlen_app, zlen_padded. Qed.

Section listing.
Context `{Build}.
(** Writing one record into a buffer of zeros *)
Lemma put_record d tpre k : ent_ok d -> de_rec_len d <= k -> 0 <= k -> zlen tpre + k < 2 ^ 62 ->
  (sub ← slice_from (tpre ++ zeros k) (zlen tpre);
   '(sub, n) ← map_err SerializationErr (DirEnt64_serialize Little d sub);
   target ← splice (tpre ++ zeros k) (zlen tpre) sub;
   written ← uadd 64 (zlen tpre) n;
   Ok (Some (target, written))) =
  Ok (E:=HalFsIOErr) (Some ((tpre ++ padded d) ++ zeros (k - de_rec_len d), zlen (tpre ++ padded d))).
Proof using.
  intros Hd Hk H0 Hb. pose proof (de_rec_len_range d). pose proof (zlen_record d). pose proof (zlen_nonneg (de_name d)). pose proof (zlen_nonneg tpre).
  rewrite slice_from_ok by (rewrite zlen_app, zlen_zeros; lia). rsimpl. rewrite to_nat_zlen, drop_app_length.
  rewrite serialize_record by (done || rewrite zlen_zeros; lia). cbn [map_err]. rsimpl. rewrite drop_zeros.
  pose proof (splice_mid (E:=HalFsIOErr) tpre (zeros k) (record d ++ zeros (k - Z.of_nat (length (record d)))) []) as Hs.
  fold (zlen (record d)) in *. rewrite !app_nil_r in Hs. rewrite Hs by (rewrite zlen_app, !zlen_zeros; lia). rsimpl.
  rewrite uadd_ok by lia. rsimpl. rewrite (zlen_app tpre (padded d)), zlen_padded. unfold padded. rewrite <- !app_assoc, zeros_app by lia. parts.
Qed.
Lemma list_loop_ok es rest : lays es rest -> forall fuel pre tpre k offset, (length es < fuel)%nat ->
  - 2 ^ 62 <= offset -> offset + zlen rest < 2 ^ 62 -> zlen pre + zlen rest < 2 ^ 32 -> zlen tpre + k < 2 ^ 62 ->
  total (listing offset es) < k ->
  list_loop fuel (pre ++ rest) (tpre ++ zeros k) offset (zlen tpre) (zlen pre) =
    Ok (false, tpre ++ concat (padded <$> listing offset es) ++ zeros (k - total (listing offset es)),
        offset + zlen rest, zlen tpre + total (listing offset es)).
Proof using.
  induction 1 as [|e es pad rest Hi Hr Hf Hn Hlen Hl IH]; intros fuel pre tpre k offset Hfuel Ho1 Ho2 Hp Ht Hk;
    (destruct fuel as [|fuel]; [cbn in Hfuel; lia|]); cbn [list_loop].
  - rewrite app_nil_r, (slice_from_ok pre (zlen pre)) by (pose proof (zlen_nonneg pre); lia). rsimpl. rewrite to_nat_zlen, drop_all.
    change (attempt (DirEntry_deserialize Little [])) with (Ok (E:=HalFsIOErr) (A:=DvDeErr + DirEntry * Z) (inl WrongBufferSize)). rsimpl.
    cbn [listing fmap list_fmap concat app]. change (total []) with 0. change (zlen []) with 0. parts.
  - pose proof (zlen_nonneg rest). pose proof (zlen_nonneg pre). pose proof (zlen_nonneg tpre). pose proof (zlen_nonneg (name e)). pose proof (zlen_nonneg pad).
    set (enc := dir_enc _ _ _ _ _) in *. assert (zlen enc = 8) as He by apply zlen_dir_enc.
    assert (zlen (enc ++ name e ++ pad ++ rest) = rec_len e + zlen rest) as Hzr by (rewrite !zlen_app; lia).
    rewrite (slice_from_ok (pre ++ enc ++ name e ++ pad ++ rest) (zlen pre)) by (rewrite zlen_app; lia). rsimpl.
    rewrite to_nat_zlen, drop_app_length.
    pose proof (DirEntry_deserialize_ok Little (inode e) (rec_len e) (file_type e) (name e) (pad ++ rest) Hi Hr Hf Hn) as Hde. fold enc in Hde.
    rewrite Hde. cbn [attempt]. rsimpl. cbn [inode file_type name]. fold (dname e). fold (ent_at offset e).
    assert (pre ++ enc ++ name e ++ pad ++ rest = (pre ++ enc ++ name e ++ pad) ++ rest) as Hw by (by rewrite <- !app_assoc).
    assert (zlen pre + rec_len e = zlen (pre ++ enc ++ name e ++ pad)) as Hpe by (rewrite !zlen_app; lia).
    rewrite Hzr in *. cbn [listing] in *. destruct (inode e =? 0) eqn:Ei; cbn [negb app] in *; boom.
    + rsimpl. rewrite sadd_ok by lia. rsimpl. rewrite uadd_ok by lia. rsimpl. rewrite Hw, Hpe, IH by (rewrite <- ?Hpe; cbn in Hfuel; lia). parts.
    + rewrite total_cons in *. pose proof (zlen_nonneg (concat (padded <$> listing (offset + rec_len e) es))) as Ht0. fold (total (listing (offset + rec_len e) es)) in Ht0.
      pose proof (de_rec_len_range (ent_at offset e)). pose proof (zlen_nonneg (de_name (ent_at offset e))).
      assert (ent_ok (ent_at offset e)) as Hent.
      { split; [unfold is_uint in *; change (256 ^ Z.of_nat 4) with (2 ^ 32) in Hi; change (256 ^ Z.of_nat 8) with (2 ^ 64)|
          unfold is_sint; change (8 * Z.of_nat 8 - 1) with 63|exact Hf]; cbn [ent_at inode_idx de_offset]; lia. }
      rewrite (sadd_ok offset) by lia. rsimpl. change {| inode_idx := inode e; de_offset := offset + rec_len e; de_file_type := file_type e; de_name := dname e |} with (ent_at offset e).
      rewrite (uadd_ok 64 (de_rec_len (ent_at offset e))) by lia. rsimpl. rewrite (zlen_app tpre), zlen_zeros by lia.
      bfalse (zlen tpre + k <=? de_rec_len (ent_at offset e) + zlen tpre).
      rewrite put_record by (done || lia). rsimpl. rewrite (uadd_ok 64 (zlen pre)) by lia. rsimpl.
      assert (zlen (tpre ++ padded (ent_at offset e)) = zlen tpre + de_rec_len (ent_at offset e)) as Htp by (by rewrite zlen_app, zlen_padded).
      rewrite Hw, Hpe, IH by (rewrite <- ?Hpe, ?Htp; cbn in Hfuel; lia). cbn [fmap list_fmap concat]. rewrite <- !app_assoc, Htp. parts.
Qed.
End listing.

(** Listing a directory block into an empty buffer with room for it
    writes, in order, one record for each entry in use: inode, offset of the
    next entry, record length, type, name and a zero byte, padded to a
    multiple of eight.  It stops at the end of the block and moves the offset
    by its size. *)
Theorem list_block_records `{Build} es buf k offset : lays es buf -> zlen buf = 1024 -> 0 <= offset < 2 ^ 61 -> k < 2 ^ 61 ->
  total (listing offset es) < k ->
  list_loop (S (length buf + length (zeros k))) buf (zeros k) offset 0 0 =
    Ok (false, concat (padded <$> listing offset es) ++ zeros (k - total (listing offset es)), offset + 1024, total (listing offset es)).
Proof.
  intros Hl Hz Ho Hk Ht. pose proof (lays_length _ _ Hl). pose proof (zlen_nonneg es).
  pose proof (list_loop_ok es buf Hl (S (length buf + length (zeros k))) [] [] k offset) as L.
  cbn [app] in L. change (zlen []) with 0 in L. rewrite Hz, Z.add_0_l in L. apply L; unfold zlen in *; lia.
Qed.
Lemma list_block_records_witness :
  @list_loop dev_build (S (length (enc_dir etc_es) + length (zeros 512))) (enc_dir etc_es) (zeros 512) 0 0 0 =
    Ok (false, concat (padded <$> listing 0 etc_es) ++ zeros (512 - total (listing 0 etc_es)), 1024, 80) /\
  Forall (fun d => zlen (padded d) mod 8 = 0) (listing 0 etc_es).
Proof.
  split; [|repeat constructor].
  exact (@list_block_records dev_build etc_es (enc_dir etc_es) 512 0 (lays_enc etc_es eq_refl) eq_refl ltac:(lia) ltac:(lia) ltac:(vm_compute; reflexivity)).
Defined.

Lemma put_with_len c e v st st' : put_with c e v st = Ok st' -> length (fst st') = length (fst st).
Proof.
  destruct st as [t p]. unfold put_with. intros Hr. apply res_bind_ok in Hr as (sub & _ & Hr). apply res_bind_ok in Hr as ([s n] & _ & Hr).
  apply res_bind_ok in Hr as (t' & Hs & Hr). injection Hr as <-. by apply splice_len in Hs.
Qed.
Lemma put_name_bytes_len nm : forall st st', put_name_bytes nm st = Ok st' -> length (fst st') = length (fst st).
Proof.
  induction nm as [|c nm IH]; intros [t p] st' Hr; cbn [put_name_bytes] in Hr; [by injection Hr as <-|].
  apply res_bind_ok in Hr as (t' & Hu & Hr). apply IH in Hr. rewrite Hr. cbn [fst].
  unfold update in Hu. destruct (_ && _); [|done]. injection Hu as <-. by rewrite length_insert.
Qed.
Lemma serialize_len e d t t' n : DirEnt64_serialize e d t = Ok (t', n) -> length t' = length t /\ n = de_rec_len d /\ n <= zlen t.
Proof.
  unfold DirEnt64_serialize. destruct (Z.ltb_spec (zlen t) (de_rec_len d)) as [|Hl]; [done|]. intros Hr.
  apply res_bind_ok in Hr as (s1 & R1 & Hr). apply res_bind_ok in Hr as (s2 & R2 & Hr). apply res_bind_ok in Hr as (s3 & R3 & Hr).
  apply res_bind_ok in Hr as (s4 & R4 & Hr). apply res_bind_ok in Hr as ([t5 p5] & R5 & Hr). apply res_bind_ok in Hr as (t6 & R6 & Hr).
  injection Hr as <- <-. apply put_with_len in R1, R2, R3, R4. apply put_name_bytes_len in R5. cbn [fst] in *.
  unfold update in R6. destruct (_ && _); [|done]. injection R6 as <-. rewrite length_insert. split_and!; [congruence|done|done].
Qed.
(** Listing stays inside the buffer, whatever is in the block: the buffer
    keeps its length, and the bytes counted as written never exceed it and
    never shrink. *)
Theorem list_stays_in_bounds `{Build} fuel buf target offset written pos full target' offset' written' :
  0 <= written <= zlen target -> zlen target < 2 ^ 63 ->
  list_loop fuel buf target offset written pos = Ok (full, target', offset', written') ->
  zlen target' = zlen target /\ written <= written' <= zlen target.
Proof.
  revert target offset written pos. induction fuel as [|fuel IH]; intros target offset written pos Hw Ht Hr; [done|]. cbn [list_loop] in Hr.
  apply res_bind_ok in Hr as (sub & _ & Hr). apply res_bind_ok in Hr as (o & _ & Hr). destruct o as [|[entry n]]; [injection Hr as _ <- _ <-; lia|].
  apply res_bind_ok in Hr as (r & Hrec & Hr).
  assert (match r with Some (t, w) => zlen t = zlen target /\ written <= w <= zlen target | None => True end) as Hstep.
  { destruct (negb (inode entry =? 0)); [|injection Hrec as <-; lia]. apply res_bind_ok in Hrec as (off & _ & Hrec).
    apply res_bind_ok in Hrec as (m & _ & Hrec). destruct (zlen target <=? m); [by injection Hrec as <-|].
    apply res_bind_ok in Hrec as (s & Hs & Hrec). apply res_bind_ok in Hrec as ([s' n'] & Hser & Hrec).
    apply res_bind_ok in Hrec as (t & Hsp & Hrec). apply res_bind_ok in Hrec as (w & Hadd & Hrec). injection Hrec as <-.
    rewrite slice_from_ok in Hs by lia. injection Hs as <-. apply splice_len in Hsp.
    destruct (DirEnt64_serialize _ _ _) as [[s1 n1]| | |] eqn:Es; try done. injection Hser as -> ->.
    pose proof (serialize_len _ _ _ _ _ Es) as (_ & Hn & Hle). rewrite zlen_drop in Hle.
    match type of Hn with _ = de_rec_len ?d => pose proof (de_rec_len_range d); pose proof (zlen_nonneg (de_name d)) end.
    rewrite uadd_ok in Hadd by lia. injection Hadd as <-. unfold zlen in *. lia. }
  destruct r as [[t w]|]; [|injection Hr as _ <- _ <-; lia]. destruct Hstep as [Hz Hw'].
  apply res_bind_ok in Hr as (off & _ & Hr). apply res_bind_ok in Hr as (p & _ & Hr). apply IH in Hr; lia.
Qed.
(** A buffer too small for the records *)
Lemma list_stays_in_bounds_witness : exists t o w,
  @list_loop dev_build 1200 (enc_dir etc_es) (zeros 50) 0 0 0 = Ok (true, t, o, w) /\ zlen t = 50 /\ 0 <= w <= 50.
Proof.
  eexists _, _, _. split; [vm_compute; reflexivity|].
  apply (@list_stays_in_bounds dev_build 1200 (enc_dir etc_es) (zeros 50) 0 0 0 true _ 24 48); [vm_compute; split; congruence|reflexivity|vm_compute; reflexivity].
Defined.
