(* ===== verification/Vfs.v ===== *)
(** * The virtual file system

    src/kernel/src/hal/vfs.rs, the types of hal/fs.rs it uses and
    arch/x86_64/err.rs.

    The server is a task that takes operations from a channel, one at a time
    (Channels.v); [vfs_step] is one turn of its loop.  The answer to an
    operation is the value put into its one-shot cell, [None] when the turn
    ends without setting it, and the caller then waits for ever.

    The file system behind a mount point is the interface [FileImpl], whose
    operations return what they leave behind also when they fail;
    [ext2_impl] is the driver.  A buffer is shared memory: a turn returns its
    bytes. *)

From stdpp Require Import gmap.
From S2P Require Import Path Prelude Bytes Serialize Crypto Disk Gpt Storage Ext2Layout Ext2Fs Ext2Alloc Ext2Iter Ext2File Ext2Dir Ext2Create.

(** ** err.rs *)
Inductive ErrNo :=
| OperationNotPermitted | ENoSuchFileOrDirectory | InputOrOutputErr | BadFd | PermissionDenied | EFileExists
| ENotADirectory | IsADirectory | InvalidArgument | TooManyOpenFiles | ENoSpaceLeft | OperationNotSupported
| EDirectoryNotEmpty.
Definition errno (e : ErrNo) : Z :=
  match e with
  | OperationNotPermitted => -0x1 | ENoSuchFileOrDirectory => -0x2 | InputOrOutputErr => -0x3 | BadFd => -0x9
  | PermissionDenied => -0xd | EFileExists => -0x11 | ENotADirectory => -0x14 | IsADirectory => -0x15
  | InvalidArgument => -0x16 | TooManyOpenFiles => -0x18 | ENoSpaceLeft => -0x1c | OperationNotSupported => -0x2d
  | EDirectoryNotEmpty => -0x42
  end.
Definition ErrNo_from (value : HalFsIOErr) : ErrNo :=
  match value with
  | HalErr _ | DeserializationErr _ | Internal | SerializationErr _ | FileTooLarge | Corrupted => InputOrOutputErr
  | BadPath | NameTooLong | NoSuchFileOrDirectory => ENoSuchFileOrDirectory
  | FileExists => EFileExists
  | DirectoryNotEmpty => EDirectoryNotEmpty
  | NoPermsProvided => OperationNotPermitted
  | BufTooSmall => InvalidArgument
  | IsDirectory => IsADirectory
  | NoSpaceLeft | NoAvailableInode => ENoSpaceLeft
  | NotADirectory => ENotADirectory
  | Unsupported => OperationNotSupported
  end.

(** ** Operations *)
Inductive Whence := SeekSet | SeekCur | SeekEnd | SeekData | SeekHole.
Inductive VfsOperationType :=
| Open (path : Path.Path) (flags : OpenFlags)
| Read (inode_id : Z) (buffer : list Z)
| Write (inode_id : Z) (buffer : list Z)
| Lseek (inode_id : Z) (whence : Whence) (offset : Z)
| Close (inode_id : Z).

(** A call of a file system: its [Result] and what it leaves behind *)
Class FileImpl (D F I : Type) := {
  fi_new : GPTEntry -> D -> res never F;
  fi_open : Path.Path -> OpenFlags -> F -> res never ((HalFsIOErr + I) * F);
  fi_read : I -> list Z -> HalIOCtx -> F -> res never ((HalFsIOErr + Z) * (I * list Z * HalIOCtx * F));
  fi_write : I -> list Z -> HalIOCtx -> F -> res never ((HalFsIOErr + Z) * (I * HalIOCtx * F));
}.

(** ** State *)
Inductive HalFs (F : Type) := Unidentified | HalFs_Ext2 (fs : F).
Arguments Unidentified {F}.
Arguments HalFs_Ext2 {F} fs.
Record FileSystem (F : Type) := {
  drive_id : Guid.t;
  fs_entry : GPTEntry;
  fs_opened_inodes : gset Z;
  fs_impl : HalFs F;
  mounted_at : Path.Path;
}.
Arguments Build_FileSystem {F} _ _ _ _ _.
Arguments drive_id {F} _.
Arguments fs_entry {F} _.
Arguments fs_opened_inodes {F} _.
Arguments fs_impl {F} _.
Arguments mounted_at {F} _.
Record HalOpenedInode (I : Type) := { oi_inode : I; oi_ctx : HalIOCtx; oi_count : Z; mount_point_id : Z }.
Arguments Build_HalOpenedInode {I} _ _ _ _.
Arguments oi_inode {I} _.
Arguments oi_ctx {I} _.
Arguments oi_count {I} _.
Arguments mount_point_id {I} _.
Definition from_inode {I} (ino : I) (id : Z) : HalOpenedInode I :=
  {| oi_inode := ino; oi_ctx := HalIOCtx_new; oi_count := 1; mount_point_id := id |}.

(** Paths in the order of the map, that of their bytes *)
Fixpoint bytes_cmp (a b : list Z) : comparison :=
  match a, b with
  | [], [] => Eq
  | [], _ => Lt
  | _, [] => Gt
  | x :: a, y :: b => match x ?= y with Eq => bytes_cmp a b | c => c end
  end.
Fixpoint path_insert (p : Path.Path) (id : Z) (m : list (Path.Path * Z)) : list (Path.Path * Z) :=
  match m with
  | [] => [(p, id)]
  | (q, i) :: m =>
      match bytes_cmp (Path.raw p) (Path.raw q) with
      | Lt => (p, id) :: (q, i) :: m
      | Eq => (q, id) :: m
      | Gt => (q, i) :: path_insert p id m
      end
  end.
Fixpoint path_get (p : Path.Path) (m : list (Path.Path * Z)) : option Z :=
  match m with
  | [] => None
  | (q, i) :: m => match bytes_cmp (Path.raw p) (Path.raw q) with Eq => Some i | _ => path_get p m end
  end.

Record MountPointArray (F : Type) := {
  mount_points : gmap Z (FileSystem F);
  path_to_id_map : list (Path.Path * Z);
  counter : Z;
}.
Arguments Build_MountPointArray {F} _ _ _.
Arguments mount_points {F} _.
Arguments path_to_id_map {F} _.
Arguments counter {F} _.
Record Vfs (F I : Type) := {
  opened_inodes : gmap Z (HalOpenedInode I);
  inode_idx_counter : Z;
  mounts : MountPointArray F;
}.
Arguments Build_Vfs {F I} _ _ _.
Arguments opened_inodes {F I} _.
Arguments inode_idx_counter {F I} _.
Arguments mounts {F I} _.

(** ** Strings: [starts_with] and [trim_start_matches] with a string *)
Fixpoint is_prefix (p s : list Z) : bool :=
  match p, s with
  | [], _ => true
  | x :: p, y :: s => (x =? y) && is_prefix p s
  | _ :: _, [] => false
  end.
(** An empty pattern matches without taking anything. *)
Fixpoint trim_start (fuel : nat) (p s : list Z) : list Z :=
  match fuel with
  | O => s
  | S fuel => if is_prefix p s && negb (zlen p =? 0) then trim_start fuel p (drop (length p) s) else s
  end.
Definition trim_start_matches (p s : list Z) : list Z := trim_start (length s) p s.

Section mount_points.
Context `{Build} {F : Type}.
Definition MountPointArray_new : MountPointArray F := {| mount_points := ∅; path_to_id_map := []; counter := 0 |}.
Definition mpa_insert (self : MountPointArray F) (path : Path.Path) (fs : FileSystem F) : res never (MountPointArray F) :=
  c ← snum 64 (counter self + 1);
  Ok {| mount_points := <[counter self := fs]> (mount_points self);
        path_to_id_map := path_insert path (counter self) (path_to_id_map self);
        counter := c |}.
Definition get_mount_point_by_id (self : MountPointArray F) (id : Z) : option (FileSystem F) := mount_points self !! id.
Definition get_mount_point_by_path (self : MountPointArray F) (path : Path.Path) : option (FileSystem F) :=
  match path_get path (path_to_id_map self) with Some id => mount_points self !! id | None => None end.
Definition contains_path (self : MountPointArray F) (path : Path.Path) : bool :=
  match path_get path (path_to_id_map self) with
  | Some id => match mount_points self !! id with Some _ => true | None => false end
  | None => false
  end.
(** What a change through [&mut FileSystem] does *)
Definition put_mount (self : MountPointArray F) (id : Z) (fs : FileSystem F) : MountPointArray F :=
  {| mount_points := <[id := fs]> (mount_points self); path_to_id_map := path_to_id_map self; counter := counter self |}.
Definition with_impl (fs : FileSystem F) (impl : F) : FileSystem F :=
  {| drive_id := drive_id fs; fs_entry := fs_entry fs; fs_opened_inodes := fs_opened_inodes fs;
     fs_impl := HalFs_Ext2 impl; mounted_at := mounted_at fs |}.
Definition add_opened (fs : FileSystem F) (id : Z) : FileSystem F :=
  {| drive_id := drive_id fs; fs_entry := fs_entry fs; fs_opened_inodes := {[id]} ∪ fs_opened_inodes fs;
     fs_impl := fs_impl fs; mounted_at := mounted_at fs |}.
(** The mount point a path is in: the fold over the paths of the map *)
Definition USIZE_MAX : Z := 2 ^ 64 - 1.
Definition find_mount (path : Path.Path) (m : list (Path.Path * Z)) : option Z :=
  snd (foldl (fun '(acc, res) '(p, id) =>
    if is_prefix (Path.raw p) (Path.raw path) && (zlen (Path.raw p) <? acc) then (zlen (Path.raw p), Some id) else (acc, res))
    (USIZE_MAX, None) m).
End mount_points.

(** ** The server *)
Section server.
Context `{Build} {D F I : Type} `{BlockDev D} `{FileImpl D F I}.

#[local] Instance guid_eq_dec : EqDecision Guid.t.
Proof. solve_decision. Defined.
(** The last entry with the GUID *)
Definition find_entry (entries : list GPTEntry) (entry_id : Guid.t) : res never (option GPTEntry) :=
  rfor entries None (fun ent res => g ← unique_guid ent; Ok (if decide (g = entry_id) then Some ent else res)).
(** [spawn_vfs_task] up to its loop *)
Definition vfs_start (st : Storage D) (drive_id entry_id : Guid.t) : res never (Vfs F I) :=
  m ← expect (by_guid st);
  idx ← expect (m !! Guid.whole drive_id);
  devices ← expect (by_idx st);
  d ← expect (devices !! Z.to_nat idx);
  o ← attempt (read_gpt d);
  '(_, entries) ← (match o with inr t => Ok t | inl _ => Panic end);
  o ← find_entry entries entry_id;
  entry ← expect o;
  impl ← fi_new entry d;
  mounts ← mpa_insert MountPointArray_new (Path.new_appended [Path.SLASH])
    {| drive_id := drive_id; fs_entry := entry; fs_opened_inodes := ∅; fs_impl := HalFs_Ext2 impl;
       mounted_at := Path.new_appended [Path.SLASH] |};
  Ok {| opened_inodes := ∅; inode_idx_counter := 0; mounts := mounts |}.

(** What a turn puts into the cell, the bytes of the buffer after it, and the
    server's state *)
Definition Turn : Type := option (ErrNo + Z) * list Z * Vfs F I.
Definition answer (r : ErrNo + Z) (st : Vfs F I) : res never Turn := Ok (Some r, [], st).
Definition result_of (r : HalFsIOErr + Z) : ErrNo + Z :=
  match r with inr n => inr (swrap 64 n) | inl e => inl (ErrNo_from e) end.

Definition vfs_do_open (path : Path.Path) (flags : OpenFlags) (st : Vfs F I) : res never Turn :=
  path ← Path.normalize path;
  match find_mount path (path_to_id_map (mounts st)) with
  | None => answer (inl ENoSuchFileOrDirectory) st
  | Some id =>
      match get_mount_point_by_id (mounts st) id with
      | None => answer (inl ENoSuchFileOrDirectory) st
      | Some fs =>
          let path := Path.new_appended (trim_start_matches (Path.raw (mounted_at fs)) (Path.raw path)) in
          match fs_impl fs with
          | HalFs_Ext2 ext2 =>
              '(r, ext2) ← fi_open path flags ext2;
              let fs := with_impl fs ext2 in
              match r with
              | inr inode =>
                  let fd := inode_idx_counter st in
                  c ← snum 64 (fd + 1);
                  answer (inr fd)
                    {| opened_inodes := <[fd := from_inode inode id]> (opened_inodes st); inode_idx_counter := c;
                       mounts := put_mount (mounts st) id (add_opened fs fd) |}
              | inl e =>
                  answer (inl (ErrNo_from e))
                    {| opened_inodes := opened_inodes st; inode_idx_counter := inode_idx_counter st;
                       mounts := put_mount (mounts st) id fs |}
              end
          | Unidentified => Panic
          end
      end
  end.

(** [find_inode_and_process!] *)
Definition find_inode_and_process (inode_id : Z) (buffer : list Z) (st : Vfs F I)
    (handle : HalOpenedInode I -> FileSystem F -> F -> res never Turn) : res never Turn :=
  match opened_inodes st !! inode_id with
  | None => Ok (Some (inl BadFd), buffer, st)
  | Some inode =>
      match get_mount_point_by_id (mounts st) (mount_point_id inode) with
      | None => Ok (Some (inl BadFd), buffer, st)
      | Some fs => match fs_impl fs with HalFs_Ext2 ext2 => handle inode fs ext2 | Unidentified => Panic end
      end
  end.
(** The state after the descriptor's inode and head, and the file system under it, have changed *)
Definition commit (st : Vfs F I) (inode_id : Z) (inode : HalOpenedInode I) (fs : FileSystem F) (ino : I) (ctx : HalIOCtx)
    (ext2 : F) : Vfs F I :=
  {| opened_inodes := <[inode_id := {| oi_inode := ino; oi_ctx := ctx; oi_count := oi_count inode;
                                      mount_point_id := mount_point_id inode |}]> (opened_inodes st);
     inode_idx_counter := inode_idx_counter st;
     mounts := put_mount (mounts st) (mount_point_id inode) (with_impl fs ext2) |}.
Definition vfs_do_read (inode_id : Z) (buffer : list Z) (st : Vfs F I) : res never Turn :=
  find_inode_and_process inode_id buffer st (fun inode fs ext2 =>
    '(r, (ino, buffer, ctx, ext2)) ← fi_read (oi_inode inode) buffer (oi_ctx inode) ext2;
    Ok (Some (result_of r), buffer, commit st inode_id inode fs ino ctx ext2)).
Definition vfs_do_write (inode_id : Z) (buffer : list Z) (st : Vfs F I) : res never Turn :=
  find_inode_and_process inode_id buffer st (fun inode fs ext2 =>
    '(r, (ino, ctx, ext2)) ← fi_write (oi_inode inode) buffer (oi_ctx inode) ext2;
    Ok (Some (result_of r), buffer, commit st inode_id inode fs ino ctx ext2)).
Definition seek (whence : Whence) (offset hd : Z) : res never (option Z) :=
  match whence with
  | SeekSet => Ok (Some (wrap 64 offset))
  | SeekCur =>
      if offset <? 0 then n ← snum 64 (offset * -1); h ← usub 64 hd (wrap 64 n); Ok (Some h)
      else h ← uadd 64 hd (wrap 64 offset); Ok (Some h)
  | SeekEnd | SeekData | SeekHole => Ok None
  end.
Definition vfs_do_lseek (inode_id : Z) (whence : Whence) (offset : Z) (st : Vfs F I) : res never Turn :=
  find_inode_and_process inode_id [] st (fun inode fs ext2 =>
    o ← seek whence offset (head (oi_ctx inode));
    match o with
    | Some hd => answer (inr (swrap 64 hd)) (commit st inode_id inode fs (oi_inode inode) {| head := hd |} ext2)
    | None => Ok (None, [], st)
    end).
(** One turn of the loop *)
Definition vfs_step (op : VfsOperationType) (st : Vfs F I) : res never Turn :=
  match op with
  | Open path flags => vfs_do_open path flags st
  | Read inode_id buffer => vfs_do_read inode_id buffer st
  | Write inode_id buffer => vfs_do_write inode_id buffer st
  | Lseek inode_id whence offset => vfs_do_lseek inode_id whence offset st
  | Close _ => Panic
  end.
(** The loop on the operations sent to it; the answers in their order *)
Fixpoint vfs_run (ops : list VfsOperationType) (st : Vfs F I) : res never (list (option (ErrNo + Z)) * Vfs F I) :=
  match ops with
  | [] => Ok ([], st)
  | op :: ops => '(r, _, st) ← vfs_step op st; '(rs, st) ← vfs_run ops st; Ok (r :: rs, st)
  end.

(** The calls of other tasks: an operation is sent and its cell waited for.
    The bytes of the buffer are returned with the answer. *)
Definition ask {E} (op : VfsOperationType) : M (Vfs F I) E ((ErrNo + Z) * list Z) := fun st =>
  match vfs_step op st with
  | Ok (Some r, buffer, st) => (Ok (r, buffer), st)
  | Ok (None, _, st) => (Hang, st)
  | Panic => (Panic, st)
  | _ => (Hang, st)
  end.
Definition vfs_open {E} (path : Path.Path) (flags : OpenFlags) : M (Vfs F I) E (ErrNo + Z) := '(r, _) ← ask (Open path flags); mret r.
Definition vfs_read {E} (fd : Z) (buf : list Z) : M (Vfs F I) E ((ErrNo + Z) * list Z) := ask (Read fd buf).
Definition vfs_write {E} (fd : Z) (buf : list Z) : M (Vfs F I) E (ErrNo + Z) := '(r, _) ← ask (Write fd buf); mret r.
Definition vfs_lseek {E} (fd : Z) (whence : Whence) (offset : Z) : M (Vfs F I) E (ErrNo + Z) := '(r, _) ← ask (Lseek fd whence offset); mret r.
End server.

(** ** The ext2 driver behind the interface

    [failed_read] and [failed_write] are what a call that fails leaves in the
    buffer, the inode and the head, which Ext2File.v does not keep; [now] is the
    clock during the call. *)
Section ext2.
Context `{Build} {D : Type} `{BlockDev D} (now : option Z).
Context (failed_read : InodePlus -> list Z -> HalIOCtx -> list Z * HalIOCtx).
Context (failed_write : InodePlus -> list Z -> HalIOCtx -> InodePlus * HalIOCtx).
Definition ext2_open (path : Path.Path) (flags : OpenFlags) (fs : Ext2Fs D) : res never ((HalFsIOErr + HalInode) * Ext2Fs D) :=
  let '(r, fs) := open_file now now now now path flags fs in o ← attempt r; Ok (o, fs).
Definition ext2_read (ino : HalInode) (buf : list Z) (ctx : HalIOCtx) (fs : Ext2Fs D) :
    res never ((HalFsIOErr + Z) * (HalInode * list Z * HalIOCtx * Ext2Fs D)) :=
  let '(HalInode_Ext2 ip) := ino in
  let '(r, fs) := read ip buf ctx fs in
  o ← attempt r;
  Ok match o with
     | inr (n, buf, ctx) => (inr n, (ino, buf, ctx, fs))
     | inl e => (inl e, (ino, (failed_read ip buf ctx).1, (failed_read ip buf ctx).2, fs))
     end.
Definition ext2_write (ino : HalInode) (buf : list Z) (ctx : HalIOCtx) (fs : Ext2Fs D) :
    res never ((HalFsIOErr + Z) * (HalInode * HalIOCtx * Ext2Fs D)) :=
  let '(HalInode_Ext2 ip) := ino in
  let '(r, fs) := write now ip buf ctx fs in
  o ← attempt r;
  Ok match o with
     | inr (n, ip, ctx) => (inr n, (HalInode_Ext2 ip, ctx, fs))
     | inl e => (inl e, (HalInode_Ext2 (failed_write ip buf ctx).1, (failed_write ip buf ctx).2, fs))
     end.
#[local] Instance ext2_impl : FileImpl D (Ext2Fs D) HalInode := {
  fi_new := Ext2Fs_new; fi_open := ext2_open; fi_read := ext2_read; fi_write := ext2_write }.
End ext2.

(** ** The invariant of the server *)
Section invariant.
Context `{Build} {D F I : Type} `{BlockDev D} `{FileImpl D F I}.

(** Descriptors are below the counter, each is open at a mounted file system
    that lists it, and a file system lists no others; every mount point has a
    file system behind it and every path of the map a mount point. *)
Record vfs_ok (st : Vfs F I) : Prop := {
  v_counter : 0 <= inode_idx_counter st < 2 ^ 63;
  v_fd fd o : opened_inodes st !! fd = Some o -> 0 <= fd < inode_idx_counter st /\
    exists fs, mount_points (mounts st) !! mount_point_id o = Some fs /\ fd ∈ fs_opened_inodes fs;
  v_listed id fs fd : mount_points (mounts st) !! id = Some fs -> fd ∈ fs_opened_inodes fs ->
    exists o, opened_inodes st !! fd = Some o /\ mount_point_id o = id;
  v_impl id fs : mount_points (mounts st) !! id = Some fs -> exists f, fs_impl fs = HalFs_Ext2 f;
  v_paths p id : (p, id) ∈ path_to_id_map (mounts st) -> is_Some (mount_points (mounts st) !! id);
}.

Lemma find_mount_in path m id : find_mount path m = Some id -> exists p, (p, id) ∈ m.
Proof.
  unfold find_mount. generalize USIZE_MAX as acc. intros acc.
  enough (forall res, snd (foldl (fun '(acc, res) '(p, id) =>
    if is_prefix (Path.raw p) (Path.raw path) && (zlen (Path.raw p) <? acc) then (zlen (Path.raw p), Some id) else (acc, res))
    (acc, res) m) = Some id -> res = Some id \/ exists p, (p, id) ∈ m) as Hg by (intros Hf; by destruct (Hg None Hf)).
  revert acc. induction m as [|[q i] m IH]; intros acc res; cbn [foldl]; [by left|].
  intros Hf. destruct (_ && _) in Hf; apply IH in Hf as [Hf|[p Hp]]; simplify_eq/=; eauto using list_elem_of_here, list_elem_of_further.
Qed.

(** Changing a descriptor's inode and head and the driver's state *)
Lemma commit_ok st fd o fs ino ctx f : vfs_ok st -> opened_inodes st !! fd = Some o ->
  mount_points (mounts st) !! mount_point_id o = Some fs -> vfs_ok (commit st fd o fs ino ctx f).
Proof.
  intros [Hc Hfd Hl Hi Hp] Ho Hfs. split; cbn [commit inode_idx_counter opened_inodes mounts put_mount mount_points path_to_id_map]; [done|..].
  - intros fd' o' Hlk. assert (exists o1, opened_inodes st !! fd' = Some o1 /\ mount_point_id o1 = mount_point_id o') as (o1 & Ho1 & <-).
    { apply lookup_insert_Some in Hlk as [[<- <-]|[_ ?]]; eauto. }
    destruct (Hfd _ _ Ho1) as (? & fs1 & Hm & Hin). split; [done|].
    destruct (decide (mount_point_id o = mount_point_id o1)) as [He|]; [|rewrite lookup_insert_ne by done; eauto].
    rewrite He, lookup_insert_eq. rewrite <- He, Hfs in Hm. injection Hm as <-. by eexists.
  - intros id fs' fd' Hlk Hin. assert (exists fs1, mount_points (mounts st) !! id = Some fs1 /\ fd' ∈ fs_opened_inodes fs1) as (fs1 & Hm & Hin1).
    { apply lookup_insert_Some in Hlk as [[<- <-]|[_ ?]]; eauto. }
    destruct (Hl _ _ _ Hm Hin1) as (o1 & Ho1 & <-). destruct (decide (fd = fd')) as [<-|]; [|rewrite lookup_insert_ne by done; eauto].
    rewrite lookup_insert_eq. simplify_eq. by eexists.
  - intros id fs' [[<- <-]|[_ ?]]%lookup_insert_Some; [by eexists|eauto].
  - intros p id Hin. apply lookup_insert_is_Some'. right. eauto.
Qed.
(** The driver's state alone *)
Lemma put_impl_ok st id fs f : vfs_ok st -> mount_points (mounts st) !! id = Some fs ->
  vfs_ok {| opened_inodes := opened_inodes st; inode_idx_counter := inode_idx_counter st;
            mounts := put_mount (mounts st) id (with_impl fs f) |}.
Proof.
  intros [Hc Hfd Hl Hi Hp] Hfs. split; cbn [inode_idx_counter opened_inodes mounts put_mount mount_points path_to_id_map]; [done|..].
  - intros fd o Ho. destruct (Hfd _ _ Ho) as (? & fs1 & Hm & Hin). split; [done|].
    destruct (decide (id = mount_point_id o)) as [->|]; [|rewrite lookup_insert_ne by done; eauto].
    rewrite lookup_insert_eq. simplify_eq. by eexists.
  - intros id' fs' fd [[<- <-]|[_ ?]]%lookup_insert_Some Hin; eauto.
  - intros id' fs' [[<- <-]|[_ ?]]%lookup_insert_Some; [by eexists|eauto].
  - intros p id' Hin. apply lookup_insert_is_Some'. right. eauto.
Qed.
(** A new descriptor *)
Lemma open_ok st id fs f ino : vfs_ok st -> inode_idx_counter st + 1 < 2 ^ 63 -> mount_points (mounts st) !! id = Some fs ->
  vfs_ok {| opened_inodes := <[inode_idx_counter st := from_inode ino id]> (opened_inodes st);
            inode_idx_counter := inode_idx_counter st + 1;
            mounts := put_mount (mounts st) id (add_opened (with_impl fs f) (inode_idx_counter st)) |}.
Proof.
  intros [Hc Hfd Hl Hi Hp] Hmax Hfs. split; cbn [inode_idx_counter opened_inodes mounts put_mount mount_points path_to_id_map]; [lia|..].
  - intros fd o [[<- <-]|[Hne Ho]]%lookup_insert_Some.
    + split; [lia|]. cbn [from_inode mount_point_id]. rewrite lookup_insert_eq. eexists. split; [done|]. cbn. set_solver.
    + destruct (Hfd _ _ Ho) as (? & fs1 & Hm & Hin). split; [lia|].
      destruct (decide (id = mount_point_id o)) as [->|]; [|rewrite lookup_insert_ne by done; eauto].
      rewrite lookup_insert_eq. simplify_eq. eexists. split; [done|]. cbn. set_solver.
  - intros id' fs' fd [[<- <-]|[Hne Hm]]%lookup_insert_Some Hin.
    + cbn in Hin. apply elem_of_union in Hin as [->%elem_of_singleton|Hin]; [rewrite lookup_insert_eq; by eexists|].
      destruct (Hl _ _ _ Hfs Hin) as (o & Ho & <-). destruct (Hfd _ _ Ho) as [? _]. rewrite lookup_insert_ne by lia. eauto.
    + destruct (Hl _ _ _ Hm Hin) as (o & Ho & <-). destruct (Hfd _ _ Ho) as [? _]. rewrite lookup_insert_ne by lia. eauto.
  - intros id' fs' [[<- <-]|[_ ?]]%lookup_insert_Some; [by eexists|eauto].
  - intros p id' Hin. apply lookup_insert_is_Some'. right. eauto.
Qed.

(** *** The turns of the loop as a relation *)
Definition op_target (op : VfsOperationType) : option Z :=
  match op with Open _ _ => None | Read fd _ | Write fd _ | Lseek fd _ _ | Close fd => Some fd end.
Inductive stepped (op : VfsOperationType) (st : Vfs F I) : option (ErrNo + Z) -> Vfs F I -> Prop :=
| stepped_same r : op_target op <> None \/ (exists e, r = Some (inl e)) -> stepped op st r st
| stepped_commit fd o fs ino ctx f r : op_target op = Some fd -> opened_inodes st !! fd = Some o ->
    mount_points (mounts st) !! mount_point_id o = Some fs -> stepped op st r (commit st fd o fs ino ctx f)
| stepped_refused id fs f e : op_target op = None -> mount_points (mounts st) !! id = Some fs ->
    stepped op st (Some (inl e)) {| opened_inodes := opened_inodes st; inode_idx_counter := inode_idx_counter st;
                                    mounts := put_mount (mounts st) id (with_impl fs f) |}
| stepped_open id fs f ino c : op_target op = None -> mount_points (mounts st) !! id = Some fs ->
    snum (E:=never) 64 (inode_idx_counter st + 1) = Ok c ->
    stepped op st (Some (inr (inode_idx_counter st)))
      {| opened_inodes := <[inode_idx_counter st := from_inode ino id]> (opened_inodes st); inode_idx_counter := c;
         mounts := put_mount (mounts st) id (add_opened (with_impl fs f) (inode_idx_counter st)) |}.

Lemma process_stepped op fd buffer st handle r b st' : op_target op = Some fd ->
  (forall o fs f, opened_inodes st !! fd = Some o -> mount_points (mounts st) !! mount_point_id o = Some fs ->
     handle o fs f = Ok (r, b, st') -> stepped op st r st') ->
  find_inode_and_process fd buffer st handle = Ok (r, b, st') -> stepped op st r st'.
Proof.
  intros Ht Hh Hf. unfold find_inode_and_process, get_mount_point_by_id in Hf.
  assert (op_target op <> None) by congruence.
  repeat case_match; simplify_eq; [by eapply Hh|apply stepped_same; tauto..].
Qed.
Lemma step_cases op st r b st' : vfs_step op st = Ok (r, b, st') -> stepped op st r st'.
Proof.
  destruct op as [path flags|fd buffer|fd buffer|fd whence offset|fd]; cbn [vfs_step]; [| | | |done].
  - unfold vfs_do_open, get_mount_point_by_id, answer. intros Ho. apply res_bind_ok in Ho as (q & _ & Ho).
    destruct (find_mount _ _) as [id|]; [|simplify_eq; apply stepped_same; eauto].
    destruct (mount_points _ !! id) as [fs|] eqn:Hm; [|simplify_eq; apply stepped_same; eauto].
    destruct (fs_impl fs) as [|f]; [done|]. apply res_bind_ok in Ho as ([[e|ino] f'] & _ & Ho).
    + simplify_eq. by apply stepped_refused.
    + apply res_bind_ok in Ho as (c & Hc & Ho). simplify_eq. by apply stepped_open.
  - apply process_stepped; [done|]. intros o fs f Ho Hm Hr. apply res_bind_ok in Hr as ([r' [[[ino buf] ctx] f']] & _ & Hr).
    simplify_eq. by eapply stepped_commit.
  - apply process_stepped; [done|]. intros o fs f Ho Hm Hr. apply res_bind_ok in Hr as ([r' [[ino ctx] f']] & _ & Hr).
    simplify_eq. by eapply stepped_commit.
  - apply process_stepped; [done|]. intros o fs f Ho Hm Hr. unfold answer in Hr. apply res_bind_ok in Hr as ([hd|] & _ & Hr); simplify_eq.
    + by eapply stepped_commit.
    + apply stepped_same. by left.
Qed.
Lemma stepped_keeps op st r st' : stepped op st r st' -> vfs_ok st -> inode_idx_counter st + 1 < 2 ^ 63 ->
  vfs_ok st' /\ inode_idx_counter st <= inode_idx_counter st' <= inode_idx_counter st + 1.
Proof.
  intros Hs Hok Hmax. pose proof (v_counter _ Hok).
  destruct Hs as [| | |id fs f ino c _ Hm Hc]; [split; [done|lia]|split; [by apply commit_ok|cbn; lia]|
    split; [by apply put_impl_ok|cbn; lia]|].
  rewrite snum_ok in Hc by lia. injection Hc as <-. split; [by apply open_ok|cbn; lia].
Qed.
(** The descriptor a turn opened *)
Definition opened_fd (or : VfsOperationType * option (ErrNo + Z)) : option Z :=
  match or with (Open _ _, Some (inr fd)) => Some fd | _ => None end.
Lemma stepped_fd op st r st' : stepped op st r st' -> inode_idx_counter st + 1 < 2 ^ 63 -> 0 <= inode_idx_counter st ->
  (opened_fd (op, r) = None /\ inode_idx_counter st' = inode_idx_counter st) \/
  (opened_fd (op, r) = Some (inode_idx_counter st) /\ inode_idx_counter st' = inode_idx_counter st + 1).
Proof.
  intros Hs Hmax Hpos. destruct Hs as [r Hr|fd o fs ino ctx f r Ht|id fs f e Ht|id fs f ino c Ht Hm Hc].
  - left. split; [|done]. destruct op; try done. destruct Hr as [?|[e ->]]; done.
  - left. split; [|done]. by destruct op.
  - left. split; [|done]. by destruct op.
  - right. rewrite snum_ok in Hc by lia. injection Hc as <-. by destruct op.
Qed.
Lemma stepped_others op st r st' fd : stepped op st r st' -> vfs_ok st -> op_target op <> Some fd -> fd <> inode_idx_counter st ->
  opened_inodes st' !! fd = opened_inodes st !! fd.
Proof.
  intros Hs Hok Ht Hc. destruct Hs; cbn [commit opened_inodes]; [done|rewrite lookup_insert_ne by congruence; done|done|].
  by rewrite lookup_insert_ne by congruence.
Qed.
End invariant.


Section runs.
Context `{Build} {D F I : Type} `{BlockDev D} `{FileImpl D F I}.
Lemma run_keeps ops (st : Vfs F I) rs st' : vfs_ok st -> inode_idx_counter st + zlen ops < 2 ^ 63 ->
  vfs_run ops st = Ok (rs, st') ->
  vfs_ok st' /\ length rs = length ops /\ inode_idx_counter st <= inode_idx_counter st' /\
  omap opened_fd (zip ops rs) = seqZ (inode_idx_counter st) (inode_idx_counter st' - inode_idx_counter st).
Proof.
  revert st rs. induction ops as [|op ops IH]; intros st rs Hok Hmax Hr; cbn [vfs_run] in Hr.
  { simplify_eq. split_and!; [done|done|lia|]. by rewrite Z.sub_diag. }
  rewrite zlen_cons in Hmax. pose proof (zlen_nonneg ops). pose proof (v_counter _ Hok).
  apply res_bind_ok in Hr as ([[r b] st1] & Hs%step_cases & Hr). apply res_bind_ok in Hr as ([rs1 st2] & Hr & ?). simplify_eq.
  destruct (stepped_keeps _ _ _ _ Hs Hok) as [Hok1 Hc1]; [lia|].
  destruct (IH st1 rs1 Hok1) as (Hok' & Hl & Hle & Hf); [lia|done|]. split_and!; [done|cbn; by f_equal|lia|].
  cbn [zip zip_with omap list_omap]. change (zip_with pair ops rs1) with (zip ops rs1).
  change (list_omap _ _ opened_fd (zip ops rs1)) with (omap opened_fd (zip ops rs1)). rewrite Hf.
  destruct (stepped_fd _ _ _ _ Hs) as [[-> ->]|[-> Hc]]; [lia|lia|done|].
  rewrite (seqZ_cons (inode_idx_counter st)) by lia. rewrite Hc. f_equal. f_equal; lia.
Qed.
Lemma start_ok st0 drive_id entry_id (st : Vfs F I) : vfs_start st0 drive_id entry_id = Ok st ->
  vfs_ok st /\ inode_idx_counter st = 0.
Proof.
  intros Hs. unfold vfs_start in Hs. repeat (apply res_bind_ok in Hs as (? & ? & Hs)).
  destruct x4 as [? ?]. repeat (apply res_bind_ok in Hs as (? & ? & Hs)). injection Hs as <-.
  unfold mpa_insert in *. rewrite snum_ok in * by (cbn; lia). simplify_eq/=. split; [|done].
  split; cbn; [lia|..].
  - intros fd o Ho. by rewrite lookup_empty in Ho.
  - intros id fs fd [[<- <-]|[_ Hm]]%lookup_insert_Some Hin; [cbn in Hin; set_solver|by rewrite lookup_empty in Hm].
  - intros id fs [[<- <-]|[_ Hm]]%lookup_insert_Some; [by eexists|by rewrite lookup_empty in Hm].
  - intros p id [= -> ->]%list_elem_of_singleton. by rewrite lookup_insert_eq.
Qed.

(** C6: the server's data stays well formed.  Whatever operations it is sent
    after it has started, as long as it is running: every descriptor it knows
    is below the counter and open at a mounted file system, which lists the
    descriptors open at it and no others, so that neither the lookups of a
    mount point nor the test for an unidentified file system can fail; and the
    descriptors it has handed out are 0, 1, 2 and so on, in that order. *)
Theorem vfs_invariant st0 drive_id entry_id (st : Vfs F I) ops rs st' : vfs_start st0 drive_id entry_id = Ok st ->
  zlen ops < 2 ^ 63 -> vfs_run ops st = Ok (rs, st') ->
  vfs_ok st' /\ length rs = length ops /\ omap opened_fd (zip ops rs) = seqZ 0 (inode_idx_counter st').
Proof.
  intros [Hok Hc]%start_ok Hl Hr. destruct (run_keeps ops st rs st' Hok) as (? & ? & _ & Hf); [lia|done|].
  by rewrite Hc, Z.sub_0_r in Hf.
Qed.

(** C31: descriptors are independent.  Operations on other descriptors, and
    opening files, also the same file, leave the inode and the head a
    descriptor has as they are.  The inode is a copy made when the file was
    opened: what other descriptors write does not change the size and the
    blocks this one sees. *)
Theorem descriptors_isolated (st : Vfs F I) ops rs st' fd o : vfs_ok st -> inode_idx_counter st + zlen ops < 2 ^ 63 ->
  opened_inodes st !! fd = Some o -> Forall (fun op => op_target op <> Some fd) ops -> vfs_run ops st = Ok (rs, st') ->
  opened_inodes st' !! fd = Some o.
Proof.
  intros Hok Hmax Ho Hf. revert st rs Hok Hmax Ho. induction Hf as [|op ops Hop Hf IH]; intros st rs Hok Hmax Ho Hr; cbn [vfs_run] in Hr.
  { by simplify_eq. }
  rewrite zlen_cons in Hmax. pose proof (zlen_nonneg ops). pose proof (v_fd _ Hok _ _ Ho) as [? _].
  apply res_bind_ok in Hr as ([[r b] st1] & Hs%step_cases & Hr). apply res_bind_ok in Hr as ([rs1 st2] & Hr & ?). simplify_eq.
  destruct (stepped_keeps _ _ _ _ Hs Hok) as [Hok1 Hc1]; [lia|].
  apply (IH st1 rs1 Hok1); [lia| |done]. by rewrite (stepped_others _ _ _ _ fd Hs Hok) by (done || lia).
Qed.
End runs.

(** ** Routing *)
Definition root_path : Path.Path := Path.new_appended [Path.SLASH].
Lemma bytes_cmp_eq a b : bytes_cmp a b = Eq <-> a = b.
Proof.
  revert b. induction a as [|x a IH]; intros [|y b]; cbn; try done. destruct (Z.compare_spec x y) as [->|?|?]; [|naive_solver lia..].
  rewrite IH. naive_solver.
Qed.
Lemma path_insert_elem p id m x : x ∈ path_insert p id m -> x.2 = id \/ x ∈ m.
Proof.
  induction m as [|[q i] m IH]; cbn [path_insert]; [intros ->%list_elem_of_singleton; by left|].
  destruct (bytes_cmp _ _); rewrite ?elem_of_cons; [|by intros [->|?]; [left|right]|].
  - intros [->|?]; [by left|tauto].
  - intros [->|Hx]; [tauto|]. apply IH in Hx. tauto.
Qed.
(** Another path with the prefix is longer than the root. *)
Definition longer (x : Path.Path * Z) : Prop := 1 < zlen (Path.raw x.1).
Lemma path_insert_longer p id m : 1 < zlen (Path.raw p) -> Forall longer m -> Forall longer (path_insert p id m).
Proof.
  intros Hp Hm. induction Hm as [|[q i] m Hq Hm IH]; cbn [path_insert]; [by apply Forall_singleton|].
  destruct (bytes_cmp _ _); repeat (apply Forall_cons_2; [done|]); done.
Qed.
(** The root entry, with longer paths around it *)
Definition rooted (id : Z) (m : list (Path.Path * Z)) : Prop :=
  exists l r, m = l ++ (root_path, id) :: r /\ Forall longer l /\ Forall longer r.
Lemma path_insert_rooted p i id m : 1 < zlen (Path.raw p) -> rooted id m -> rooted id (path_insert p i m).
Proof.
  intros Hp (l & r & -> & Hl & Hr). assert (bytes_cmp (Path.raw p) (Path.raw root_path) <> Eq) as Hne.
  { rewrite bytes_cmp_eq. intros He. rewrite He in Hp. done. }
  induction Hl as [|[q j] l Hq Hl IH]; cbn [app path_insert].
  - destruct (bytes_cmp _ _); [done|exists [(p, i)], r|exists [], (path_insert p i r)]; (split_and!; [done|..]);
      rewrite ?Forall_singleton; auto using path_insert_longer, Forall_nil_2.
  - destruct IH as (l' & r' & He & Hl' & Hr'). destruct (bytes_cmp (Path.raw p) (Path.raw q)).
    + exists ((q, i) :: l), r. split_and!; [done|by apply Forall_cons_2|done].
    + exists ((p, i) :: (q, j) :: l), r. split_and!; [done|by repeat apply Forall_cons_2|done].
    + exists ((q, j) :: l'), r'. split_and!; [by rewrite He|by apply Forall_cons_2|done].
Qed.
Lemma find_mount_rooted path id m : Path.absolute path -> rooted id m -> find_mount path m = Some id.
Proof.
  intros Ha (l & r & -> & Hl & Hr). unfold find_mount. rewrite foldl_app. cbn [foldl].
  destruct (Path.raw path) as [|c s] eqn:Hraw; unfold Path.absolute in Ha; rewrite Hraw in Ha; [done|].
  cbn in Ha. apply Z.eqb_eq in Ha as ->. assert (is_prefix (Path.raw root_path) (Path.SLASH :: s) = true) as Hpre by done.
  match goal with |- snd (foldl ?f ?z r) = _ => enough (exists acc, z = (acc, Some id) /\ acc <= 1) as (acc & -> & Hacc) end.
  - clear Hl. induction Hr as [|[q j] r Hq Hr IH] in acc, Hacc |- *; [done|]. cbn [foldl]. unfold longer in Hq. cbn [fst] in Hq.
    bfalse (zlen (Path.raw q) <? acc). rewrite andb_false_r. by apply IH.
  - match goal with |- context [foldl ?f ?z l] => assert (1 < (foldl f z l).1) as Hgt; [|destruct (foldl f z l) as [acc res]] end.
    + assert (1 < USIZE_MAX) as Hz by done. generalize (@None Z) as res. revert Hz. generalize USIZE_MAX as acc.
      induction Hl as [|[q j] l Hq Hl IH]; intros acc Hz res; [done|]. cbn [foldl].
      destruct (_ && _); [by apply IH|by apply IH].
    + rewrite Hpre. change (zlen (Path.raw root_path)) with 1. cbn [fst] in Hgt. btrue (1 <? acc). exists 1. split; [done|lia].
Qed.

Lemma trim_one fuel c s : c <> Path.SLASH -> trim_start (S (S fuel)) (Path.raw root_path) (Path.SLASH :: c :: s) = c :: s.
Proof.
  intros Hc. change (trim_start (S fuel) [Path.SLASH] (c :: s) = c :: s). cbn [trim_start is_prefix].
  by rewrite (proj2 (Z.eqb_neq Path.SLASH c)) by congruence.
Qed.
(** A normalized path below the root mount reaches the driver as it is. *)
Lemma trim_root p q : Path.absolute p -> Path.normalize p = Ok q ->
  Path.new_appended (trim_start_matches (Path.raw root_path) (Path.raw q)) = q.
Proof.
  intros Ha Hq. rewrite Path.normalize_ok in Hq by done. injection Hq as <-. cbn [Path.raw].
  pose proof (Path.resolve_plain (Path.pieces (Path.raw p)) [] (Path.pieces_words _) (Forall_nil_2 _)) as Hpl.
  rewrite Path.push_all_eq. destruct Hpl as [|w ws [[Hns Hw] _] _]; [done|].
  destruct w as [|c w]; [done|]. apply Forall_cons_1 in Hns as [Hc _].
  assert (c =? Path.SLASH = false) as Hf by (by apply Z.eqb_neq).
  rewrite <- app_comm_cons. unfold trim_start_matches. cbn [length]. rewrite trim_one by done.
  unfold Path.new_appended. cbn [Path.starts_with]. by rewrite Hf.
Qed.
Lemma normalize_again p q : Path.absolute p -> Path.normalize p = Ok q ->
  Path.absolute q /\
  foldl Path.normalize_step [] (Path.pieces (Path.raw q)) = foldl Path.normalize_step [] (Path.pieces (Path.raw p)).
Proof.
  intros Ha Hq. rewrite Path.normalize_ok in Hq by done. injection Hq as <-. split; [apply Path.push_all_absolute|]. cbn [Path.raw].
  pose proof (Path.resolve_plain (Path.pieces (Path.raw p)) [] (Path.pieces_words _) (Forall_nil_2 _)) as Hpl.
  rewrite Path.push_all_pieces; [by rewrite Path.resolve_fix|]. eapply Forall_impl; [exact Hpl|by intros w [? _]].
Qed.

Section routing.
Context `{Build} {D F I : Type} `{BlockDev D} `{FileImpl D F I}.
Lemma find_mount_normalized (st : Vfs F I) id p q : Path.absolute p -> Path.normalize p = Ok q ->
  rooted id (path_to_id_map (mounts st)) -> find_mount q (path_to_id_map (mounts st)) = Some id.
Proof. intros Ha Hq Hr. apply find_mount_rooted; [|done]. by destruct (normalize_again p q Ha Hq). Qed.
Lemma open_rooted (st : Vfs F I) p flags id fs f : Path.absolute p -> rooted id (path_to_id_map (mounts st)) ->
  mount_points (mounts st) !! id = Some fs -> fs_impl fs = HalFs_Ext2 f -> mounted_at fs = root_path ->
  exists q, Path.normalize p = Ok q /\ vfs_step (Open p flags) st =
    '(r, f') ← fi_open q flags f;
    match r with
    | inr ino =>
        c ← snum 64 (inode_idx_counter st + 1);
        answer (inr (inode_idx_counter st))
          {| opened_inodes := <[inode_idx_counter st := from_inode ino id]> (opened_inodes st); inode_idx_counter := c;
             mounts := put_mount (mounts st) id (add_opened (with_impl fs f') (inode_idx_counter st)) |}
    | inl e =>
        answer (inl (ErrNo_from e))
          {| opened_inodes := opened_inodes st; inode_idx_counter := inode_idx_counter st;
             mounts := put_mount (mounts st) id (with_impl fs f') |}
    end.
Proof.
  intros Ha Hr Hm Hf Hat. destruct (Path.collect_normalized p Ha) as (q & Hq & _). exists q. split; [done|].
  cbn [vfs_step]. unfold vfs_do_open, get_mount_point_by_id. rewrite Hq. rsimpl.
  rewrite (find_mount_normalized st id p q Ha Hq Hr), Hm, Hf, Hat, (trim_root p q Ha Hq). done.
Qed.
Lemma more_mounts_rooted id more (m m' : MountPointArray F) : Forall (fun qg => 1 < zlen (Path.raw qg.1)) more ->
  rfor more m (fun '(q, g) m => mpa_insert m q g) = Ok m' -> rooted id (path_to_id_map m) -> rooted id (path_to_id_map m').
Proof.
  intros Hmore. revert m. induction Hmore as [|[q g] more Hq _ IH]; intros m Hf Hr; cbn [rfor] in Hf; [by simplify_eq|].
  apply res_bind_ok in Hf as (m1 & Hm & Hf). unfold mpa_insert in Hm. apply res_bind_ok in Hm as (c & _ & [= <-]).
  apply (IH _ Hf). by apply path_insert_rooted.
Qed.

(** With a file system at the root, mount points elsewhere cannot be
    reached.  Whatever is mounted after the root, and whatever absolute path is
    opened, the file system asked is the one at the root: no other mounted file
    system changes and a new descriptor is one at the root.  The search keeps
    the shortest mount path that is a prefix, not the longest. *)
Theorem other_mounts_unreachable (st : Vfs F I) id more m' p flags r b st' :
  rooted id (path_to_id_map (mounts st)) -> Forall (fun qg => 1 < zlen (Path.raw qg.1)) more ->
  rfor more (mounts st) (fun '(q, g) m => mpa_insert m q g) = Ok m' -> Path.absolute p ->
  vfs_step (Open p flags)
    {| opened_inodes := opened_inodes st; inode_idx_counter := inode_idx_counter st; mounts := m' |} = Ok (r, b, st') ->
  (forall j, j <> id -> mount_points (mounts st') !! j = mount_points m' !! j) /\
  (forall fd o, opened_inodes st' !! fd = Some o -> opened_inodes st !! fd = Some o \/ mount_point_id o = id).
Proof.
  intros Hr Hmore Hf Ha Hs. pose proof (more_mounts_rooted id more (mounts st) m' Hmore Hf Hr) as Hr'.
  destruct (Path.collect_normalized p Ha) as (q & Hq & _). cbn [vfs_step] in Hs. unfold vfs_do_open, answer, get_mount_point_by_id in Hs.
  rewrite Hq in Hs. cbn [mbind res_bind mounts opened_inodes inode_idx_counter] in Hs.
  rewrite (find_mount_rooted q id _) in Hs; [|by destruct (normalize_again p q Ha Hq)|done].
  destruct (mount_points m' !! id) as [fs|]; [|by simplify_eq/=; eauto].
  destruct (fs_impl fs) as [|f]; [done|]. apply res_bind_ok in Hs as ([[e|ino] f'] & _ & Hs).
  - simplify_eq/=. split; [intros j Hj; by rewrite lookup_insert_ne|eauto].
  - apply res_bind_ok in Hs as (c & _ & Hs). simplify_eq/=. split; [intros j Hj; by rewrite lookup_insert_ne|].
    intros fd o [[<- <-]|[_ ?]]%lookup_insert_Some; [by right|by left].
Qed.
End routing.

(** ** The server over the ext2 driver *)
Section over_ext2.
Context `{Build} {D : Type} `{BlockDevLaws D} (now : option Z).
Context (failed_read : InodePlus -> list Z -> HalIOCtx -> list Z * HalIOCtx).
Context (failed_write : InodePlus -> list Z -> HalIOCtx -> InodePlus * HalIOCtx).
#[local] Instance over : FileImpl D (Ext2Fs D) HalInode := ext2_impl now failed_read failed_write.

(** The server has the file system [f] at the root, as mount point [id]. *)
Record at_root (st : Vfs (Ext2Fs D) HalInode) (id : Z) (fs : FileSystem (Ext2Fs D)) (f : Ext2Fs D) : Prop := {
  r_paths : rooted id (path_to_id_map (mounts st));
  r_mount : mount_points (mounts st) !! id = Some fs;
  r_impl : fs_impl fs = HalFs_Ext2 f;
  r_at : mounted_at fs = root_path;
  r_counter : 0 <= inode_idx_counter st < 2 ^ 63 - 1;
}.
Definition no_create (fl : OpenFlags) : Prop :=
  Z.land (Ext2Create.flags fl) CreateIfNotExist = 0 /\ Z.land (Ext2Create.flags fl) ErrorIfCreateFileExists = 0.
Lemma ext2_open_resolves f t q fl : fs_1k f -> tree_ok f t -> inode_in f 0 0 -> Path.absolute q -> no_create fl ->
  ext2_open now q fl f = Ok (
    match resolve t ROOT_DIRECTORY_INODE_IDX (foldl Path.normalize_step [] (Path.pieces (Path.raw q))) with
    | Ok (_, o) => match o ≫= inode_at t with Some ip => inr (HalInode_Ext2 ip) | None => inl NoSuchFileOrDirectory end
    | Err e => inl e
    | _ => inl Internal
    end, f).
Proof.
  intros Hk Ht Hin Ha [Hc He]. pose proof (walk_path_ok f Hk t q Ht Hin Ha) as Hw. unfold ext2_open, open_file.
  destruct (resolve _ _ _) as [[d o]|e| |]; [| |done|done].
  - destruct Hw as (dip & _ & Hw). mrun Hw. cbv beta iota. rewrite Hc, He. destruct (o ≫= inode_at t); done.
  - unfold mbind, M_bind. by rewrite Hw.
Qed.

(** The answer to an [Open] that creates nothing *)
Lemma open_answers st id fs f t p fl : at_root st id fs f -> fs_1k f -> tree_ok f t -> inode_in f 0 0 -> Path.absolute p ->
  no_create fl ->
  let found := resolve t ROOT_DIRECTORY_INODE_IDX (foldl Path.normalize_step [] (Path.pieces (Path.raw p))) in
  let fd := inode_idx_counter st in
  match found with
  | Ok (_, o) =>
      match o ≫= inode_at t with
      | Some ip => vfs_step (Open p fl) st = answer (inr fd)
          {| opened_inodes := <[fd := from_inode (HalInode_Ext2 ip) id]> (opened_inodes st); inode_idx_counter := fd + 1;
             mounts := put_mount (mounts st) id (add_opened (with_impl fs f) fd) |}
      | None => vfs_step (Open p fl) st = answer (inl ENoSuchFileOrDirectory)
          {| opened_inodes := opened_inodes st; inode_idx_counter := fd; mounts := put_mount (mounts st) id (with_impl fs f) |}
      end
  | Err e => vfs_step (Open p fl) st = answer (inl (ErrNo_from e))
          {| opened_inodes := opened_inodes st; inode_idx_counter := fd; mounts := put_mount (mounts st) id (with_impl fs f) |}
  | _ => False
  end.
Proof.
  intros [Hr Hm Hi Hat Hc] Hk Ht Hin Ha Hfl found fd. destruct (open_rooted st p fl id fs f Ha Hr Hm Hi Hat) as (q & Hq & ->).
  destruct (normalize_again p q Ha Hq) as [Hqa Hqs]. change (fi_open q fl f) with (ext2_open now q fl f).
  rewrite (ext2_open_resolves f t q fl Hk Ht Hin Hqa Hfl), Hqs. fold found.
  pose proof (walk_path_ok f Hk t p Ht Hin Ha) as Hw. fold found in Hw.
  destruct found as [[d o]|e| |]; [|done|done|done]. destruct (o ≫= inode_at t); [|done]. rsimpl. by rewrite snum_ok by lia.
Qed.

(** [Open] through the server resolves the path in the tree of
    directories.  If the file system at the root holds the tree [t], opening an
    absolute path without the flags for creating answers with the next
    descriptor, at head 0 of the inode the path names after [.], [..] and
    repeated slashes are resolved; with "no such file" if the last component
    is missing or an earlier one is; and with "not a directory" if an earlier
    one is no directory.  The file system is not changed. *)
Theorem vfs_open_resolves st id fs f t p fl : at_root st id fs f -> fs_1k f -> tree_ok f t -> inode_in f 0 0 ->
  Path.absolute p -> no_create fl ->
  exists r st', vfs_step (Open p fl) st = Ok (Some r, [], st') /\
    (exists fs', mount_points (mounts st') !! id = Some fs' /\ fs_impl fs' = HalFs_Ext2 f) /\
    match resolve t ROOT_DIRECTORY_INODE_IDX (foldl Path.normalize_step [] (Path.pieces (Path.raw p))) with
    | Ok (_, o) =>
        match o ≫= inode_at t with
        | Some ip => r = inr (inode_idx_counter st) /\
            opened_inodes st' = <[inode_idx_counter st := from_inode (HalInode_Ext2 ip) id]> (opened_inodes st)
        | None => r = inl ENoSuchFileOrDirectory /\ opened_inodes st' = opened_inodes st
        end
    | Err e => opened_inodes st' = opened_inodes st /\
        (e = NoSuchFileOrDirectory /\ r = inl ENoSuchFileOrDirectory \/ e = NotADirectory /\ r = inl ENotADirectory)
    | _ => False
    end.
Proof.
  intros Hr Hk Ht Hin Ha Hfl. pose proof (open_answers st id fs f t p fl Hr Hk Ht Hin Ha Hfl) as Ho. cbn zeta in Ho.
  destruct (resolve _ _ _) as [[d o]|e| |] eqn:Hres; [destruct (o ≫= inode_at t)| |done|done];
    (eexists _, _; split; [exact Ho|]; cbn; rewrite lookup_insert_eq; split; [by eexists|]); [done|done|].
  split; [done|]. destruct (resolve_errors _ _ _ _ Hres) as [-> | ->]; [left|right]; done.
Qed.

Lemma ext2_read_small f ip buf ctx : fs_1k f -> small_file f (ip_inode ip) -> is_directory (ip_inode ip) = false ->
  0 <= head ctx <= i_size (ip_inode ip) -> zlen buf < 2 ^ 63 ->
  let n := Z.min (zlen buf) (i_size (ip_inode ip) - head ctx) in
  ext2_read failed_read (HalInode_Ext2 ip) buf ctx f =
    Ok (inr n, (HalInode_Ext2 ip, patch buf 0 (piece (contents f (ip_inode ip)) (head ctx mod 1024) n), {| head := head ctx + n |}, f)).
Proof. intros Hk Hs Hd Hh Hb n. unfold ext2_read. by rewrite (read_small_file f ip buf ctx Hk Hs Hd Hh Hb). Qed.

(** C3: a file opened and read through the server gives its bytes: in the
    setting of the previous property, for a path that names a file of direct
    blocks, [Open] and then [Read] of the descriptor copy the first bytes of
    the file, as many as the buffer holds, to the start of the buffer, answer
    with their number and leave the head after them; the file system is not
    changed. *)
Theorem vfs_open_then_read st id fs f t p fl d i ip buf : at_root st id fs f -> fs_1k f -> tree_ok f t -> inode_in f 0 0 ->
  Path.absolute p -> no_create fl ->
  resolve t ROOT_DIRECTORY_INODE_IDX (foldl Path.normalize_step [] (Path.pieces (Path.raw p))) = Ok (d, Some i) ->
  inode_at t i = Some ip -> small_file f (ip_inode ip) -> is_directory (ip_inode ip) = false -> zlen buf < 2 ^ 63 ->
  let fd := inode_idx_counter st in
  let n := Z.min (zlen buf) (i_size (ip_inode ip)) in
  exists st1 st2 o fs', vfs_step (Open p fl) st = Ok (Some (inr fd), [], st1) /\
    vfs_step (Read fd buf) st1 = Ok (Some (inr n), patch buf 0 (piece (contents f (ip_inode ip)) 0 n), st2) /\
    opened_inodes st2 !! fd = Some o /\ head (oi_ctx o) = n /\
    mount_points (mounts st2) !! id = Some fs' /\ fs_impl fs' = HalFs_Ext2 f.
Proof.
  intros Hr Hk Ht Hin Ha Hfl Hres Hip Hs Hd Hb fd n. pose proof (open_answers st id fs f t p fl Hr Hk Ht Hin Ha Hfl) as Ho.
  cbn zeta in Ho. rewrite Hres in Ho. cbn [mbind option_bind] in Ho. rewrite Hip in Ho. eexists _, _, _, _. split; [exact Ho|].
  pose proof (sf_size _ _ Hs) as Hsz. pose proof (zlen_nonneg buf).
  pose proof (ext2_read_small f ip buf HalIOCtx_new Hk Hs Hd) as Hrd. cbn [HalIOCtx_new head] in Hrd. rewrite Z.sub_0_r in Hrd.
  specialize (Hrd ltac:(lia) Hb). fold n in Hrd. change (0 mod 1024) with 0 in Hrd. rewrite Z.add_0_l in Hrd.
  split.
  - cbn [vfs_step]. unfold vfs_do_read, find_inode_and_process, get_mount_point_by_id.
    cbn [opened_inodes mounts put_mount mount_points]. fold fd. rewrite lookup_insert_eq. cbn [from_inode mount_point_id oi_inode oi_ctx].
    rewrite lookup_insert_eq. cbn [add_opened with_impl fs_impl]. change (fi_read ?a ?b ?c ?e) with (ext2_read failed_read a b c e).
    rewrite Hrd. rsimpl. unfold result_of. rewrite swrap_small by lia. reflexivity.
  - cbn [commit opened_inodes mounts put_mount mount_points from_inode mount_point_id]. rewrite !lookup_insert_eq. done.
Qed.
End over_ext2.

(** ** Which operations are answered *)
Section answers.
Context `{Build} {D F I : Type} `{BlockDev D} `{FileImpl D F I}.
(** The file system's calls return. *)
Definition total_impl : Prop :=
  (forall p fl f, exists r, fi_open p fl f = Ok r) /\ (forall i b c f, exists r, fi_read i b c f = Ok r) /\
  (forall i b c f, exists r, fi_write i b c f = Ok r).
(** An operation as its type allows it *)
Definition op_ok (op : VfsOperationType) : Prop :=
  match op with Open p _ => Path.absolute p | Lseek _ _ off => - 2 ^ 63 <= off < 2 ^ 63 | _ => True end.
Definition answerable (op : VfsOperationType) (st : Vfs F I) : Prop :=
  match op with
  | Open _ _ | Read _ _ | Write _ _ => True
  | Close _ => False
  | Lseek fd whence off =>
      match opened_inodes st !! fd, whence with
      | None, _ | Some _, SeekSet => True
      | Some o, SeekCur => overflow_checks = true -> - 2 ^ 63 < off /\ 0 <= head (oi_ctx o) + off < 2 ^ 64
      | Some _, _ => False
      end
  end.
Lemma unum_answers w z : 0 <= w -> (exists h, unum (E:=never) w z = Ok h) <-> (overflow_checks = true -> 0 <= z < 2 ^ w).
Proof.
  intros Hw. unfold unum. destruct (fits w z) eqn:Hf; [rewrite fits_iff in Hf; split; [done|by eexists]|].
  assert (~ 0 <= z < 2 ^ w) as Hn by (rewrite <- fits_iff; congruence).
  destruct overflow_checks; split; [by intros [? [=]]|intros Hz; by apply Hn in Hz|done|by eexists].
Qed.
Lemma seek_answers whence off hd : - 2 ^ 63 <= off < 2 ^ 63 -> (exists h, seek whence off hd = Ok (Some h)) <->
  match whence with
  | SeekSet => True
  | SeekCur => overflow_checks = true -> - 2 ^ 63 < off /\ 0 <= hd + off < 2 ^ 64
  | _ => False
  end.
Proof.
  intros Ho. destruct whence; cbn [seek]; [split; [done|by eexists]| |by split; [intros [? [=]]|]..].
  assert (forall m : res never Z, (exists h, (h ← m; Ok (Some h)) = Ok (E:=never) (Some h)) <-> exists h, m = Ok h) as Hm.
  { intros m. destruct m; split; intros [h Hh]; simplify_eq/=; by eexists. }
  destruct (Z.ltb_spec off 0) as [Hneg|Hneg].
  - destruct (Z.eq_dec off (- 2 ^ 63)) as [->|Hmin].
    + unfold snum. change (sfits 64 (- 2 ^ 63 * -1)) with false. cbn match.
      destruct overflow_checks eqn:Hoc; [split; [by intros [? [=]]|intros Hc; destruct (Hc eq_refl); lia]|].
      split; [done|]. intros _. rsimpl. unfold usub, unum. rewrite Hoc. destruct (fits _ _); by eexists.
    + rewrite snum_ok by lia. rsimpl. rewrite wrap_small by lia. rewrite Hm. unfold usub. rewrite unum_answers by lia.
      replace (hd - off * -1) with (hd + off) by lia. intuition lia.
  - rewrite wrap_small by lia. rewrite Hm. unfold uadd. rewrite unum_answers by lia. intuition lia.
Qed.

(** Which operations the server answers.  If the calls of the file
    system return, every [Open], [Read] and [Write] is answered, with a value
    or an error; of the seeks on an open descriptor, those from the start are,
    and those from the head unless a build with overflow checks would take the
    head below zero or past its type, which stops the server; a seek from the
    end, or to data or a hole, is never answered and its caller waits for ever;
    a [Close] stops the server. *)
Theorem vfs_answers st op : vfs_ok st -> total_impl -> inode_idx_counter st + 1 < 2 ^ 63 -> op_ok op ->
  (exists r b st', vfs_step op st = Ok (Some r, b, st')) <-> answerable op st.
Proof.
  intros Hok (To & Tr & Tw) Hc Hop. pose proof (v_counter _ Hok).
  assert (forall fd buf h, (exists o, opened_inodes st !! fd = Some o) \/
    find_inode_and_process fd buf st h = Ok (Some (inl BadFd), buf, st)) as Hmiss.
  { intros fd buf h. unfold find_inode_and_process. destruct (opened_inodes st !! fd); eauto. }
  assert (forall fd o buf h, opened_inodes st !! fd = Some o -> exists fs f, find_inode_and_process fd buf st h = h o fs f) as Hhit.
  { intros fd o buf h Ho. destruct (v_fd _ Hok _ _ Ho) as (_ & fs & Hm & _). destruct (v_impl _ Hok _ _ Hm) as [f Hf].
    exists fs, f. unfold find_inode_and_process, get_mount_point_by_id. by rewrite Ho, Hm, Hf. }
  destruct op as [p fl|fd buf|fd buf|fd whence off|fd]; cbn [vfs_step answerable op_ok] in *.
  - split; [done|]. intros _. destruct (Path.collect_normalized p Hop) as (q & Hq & _). unfold vfs_do_open, answer, get_mount_point_by_id.
    rewrite Hq. rsimpl. destruct (find_mount _ _); [|by eauto]. destruct (mount_points _ !! z) as [fs|] eqn:Hm; [|by eauto].
    destruct (v_impl _ Hok _ _ Hm) as [f ->].
    match goal with |- context [fi_open ?a ?b ?c] => destruct (To a b c) as [[[e|ino] f'] ->] end; rsimpl; [by eauto|].
    rewrite snum_ok by lia. rsimpl. eauto.
  - split; [done|]. intros _. unfold vfs_do_read. match goal with |- context [find_inode_and_process _ _ _ ?h] => destruct (Hmiss fd buf h) as [[o Ho]| ->]; [|by eauto];
      destruct (Hhit fd o buf h Ho) as (fs & f & ->) end.
    destruct (Tr (oi_inode o) buf (oi_ctx o) f) as [[r [[[ino b] c] f']] ->]. rsimpl. eauto.
  - split; [done|]. intros _. unfold vfs_do_write. match goal with |- context [find_inode_and_process _ _ _ ?h] => destruct (Hmiss fd buf h) as [[o Ho]| ->]; [|by eauto];
      destruct (Hhit fd o buf h Ho) as (fs & f & ->) end.
    destruct (Tw (oi_inode o) buf (oi_ctx o) f) as [[r [[ino c] f']] ->]. rsimpl. eauto.
  - unfold vfs_do_lseek. destruct (opened_inodes st !! fd) as [o|] eqn:Ho.
    + match goal with |- context [find_inode_and_process _ _ _ ?h] => destruct (Hhit fd o [] h Ho) as (fs & f & ->) end.
      pose proof (seek_answers whence off (head (oi_ctx o)) Hop) as Hsk. transitivity (exists h, seek whence off (head (oi_ctx o)) = Ok (Some h)).
      * destruct (seek _ _ _) as [[h|]| | |]; unfold answer; rsimpl; split; intros Hx; destruct_and?; naive_solver.
      * rewrite Hsk. by destruct whence.
    + unfold find_inode_and_process. rewrite Ho. split; [done|by eauto].
  - split; [|done]. by intros (r & b & st' & [=]).
Qed.
End answers.

(** ** Samples *)
(** Files in memory, each named by its path *)
Module Ram.
Definition Fs : Type := gmap (list Z) (list Z).
Definition open (p : Path.Path) (fl : OpenFlags) (f : Fs) : res never ((HalFsIOErr + list Z) * Fs) :=
  match f !! Path.raw p with
  | Some _ => Ok (inr (Path.raw p), f)
  | None =>
      if Z.land (Ext2Create.flags fl) CreateIfNotExist =? 0 then Ok (inl NoSuchFileOrDirectory, f)
      else Ok (inr (Path.raw p), <[Path.raw p := []]> f)
  end.
Definition read (i buf : list Z) (ctx : HalIOCtx) (f : Fs) : res never ((HalFsIOErr + Z) * (list Z * list Z * HalIOCtx * Fs)) :=
  let got := take (length buf) (drop (Z.to_nat (head ctx)) (default [] (f !! i))) in
  Ok (inr (zlen got), (i, got ++ drop (length got) buf, {| head := head ctx + zlen got |}, f)).
Definition write (i buf : list Z) (ctx : HalIOCtx) (f : Fs) : res never ((HalFsIOErr + Z) * (list Z * HalIOCtx * Fs)) :=
  let old := default [] (f !! i) in
  let h := Z.to_nat (head ctx) in
  Ok (inr (zlen buf), (i, {| head := head ctx + zlen buf |}, <[i := take h old ++ buf ++ drop (h + length buf) old]> f)).
#[global] Instance impl : FileImpl EndDisk Fs (list Z) :=
  { fi_new _ _ := Ok ∅; fi_open := open; fi_read := read; fi_write := write }.
Lemma total : total_impl.
Proof.
  split_and!; [|intros; by eexists..]. intros p fl f. cbn. unfold open. destruct (f !! _); [by eexists|]. destruct (_ =? 0); by eexists.
Qed.
Definition create : OpenFlags := {| access_mode := ReadNWrite; flags := CreateIfNotExist; perms := Some 0 |}.
Definition at_path (p : String.string) : Path.Path := {| Path.raw := str p |}.
Definition fresh : Vfs Fs (list Z) :=
  {| opened_inodes := ∅; inode_idx_counter := 0;
     mounts := {| mount_points := {[0 := {| drive_id := Guid_default; fs_entry := sample_entry 4; fs_opened_inodes := ∅;
                                            fs_impl := HalFs_Ext2 ∅; mounted_at := root_path |}]};
                  path_to_id_map := [(root_path, 0)]; counter := 1 |} |}.
Lemma starts : @vfs_start dev_build _ _ _ _ _ two_running Guid_default Guid_default = Ok fresh.
Proof. vm_compute. reflexivity. Qed.
(** Two descriptors of one file: what the first writes the second reads. *)
Definition ops : list VfsOperationType :=
  [Open (at_path "/a/../b") create; Open (at_path "/b") create; Write 0 [1; 2; 3]; Lseek 0 SeekCur (-1); Read 1 [0; 0]; Read 7 []].
Lemma ran_ok : exists st, @vfs_run dev_build _ _ _ _ ops fresh =
  Ok ([Some (inr 0); Some (inr 1); Some (inr 3); Some (inr 2); Some (inr 2); Some (inl BadFd)], st) /\ inode_idx_counter st = 2.
Proof. eexists. split; [vm_compute; reflexivity|reflexivity]. Qed.
Lemma fresh_ok : vfs_ok fresh.
Proof. exact (proj1 (@start_ok dev_build _ _ _ _ _ _ _ _ _ starts)). Qed.
Definition state_of {A} (r : res never (A * Vfs Fs (list Z))) : Vfs Fs (list Z) := match r with Ok (_, st) => st | _ => fresh end.
Definition one_open : Vfs Fs (list Z) := state_of (@vfs_run dev_build _ _ _ _ (take 1 ops) fresh).
Definition second : list VfsOperationType := [Open (at_path "/b") create; Write 1 [5]].
Definition two_open : Vfs Fs (list Z) := state_of (@vfs_run dev_build _ _ _ _ second one_open).
Lemma one_ok : @vfs_run dev_build _ _ _ _ (take 1 ops) fresh = Ok ([Some (inr 0)], one_open).
Proof. vm_compute. reflexivity. Qed.
Lemma both_run : @vfs_run dev_build _ _ _ _ second one_open = Ok ([Some (inr 1); Some (inr 1)], two_open).
Proof. vm_compute. reflexivity. Qed.
End Ram.

Lemma vfs_invariant_witness : exists st,
  @vfs_run dev_build _ _ _ _ Ram.ops Ram.fresh =
    Ok ([Some (inr 0); Some (inr 1); Some (inr 3); Some (inr 2); Some (inr 2); Some (inl BadFd)], st) /\ vfs_ok st.
Proof.
  destruct Ram.ran_ok as (st & Hr & _). exists st. split; [exact Hr|].
  eapply (@vfs_invariant dev_build _ _ _ _ _ two_running Guid_default Guid_default Ram.fresh Ram.ops);
    [exact Ram.starts|reflexivity|exact Hr].
Defined.
Lemma descriptors_isolated_witness :
  opened_inodes Ram.two_open !! 0 = Some (from_inode (str "/b") 0) /\
  @vfs_run dev_build _ _ _ _ Ram.second Ram.one_open = Ok ([Some (inr 1); Some (inr 1)], Ram.two_open).
Proof.
  split; [|exact Ram.both_run].
  apply (@descriptors_isolated dev_build _ _ _ _ Ram.one_open Ram.second [Some (inr 1); Some (inr 1)] Ram.two_open 0).
  - eapply (run_keeps (take 1 Ram.ops) Ram.fresh); [exact Ram.fresh_ok|reflexivity|exact Ram.one_ok].
  - reflexivity.
  - vm_compute. reflexivity.
  - by repeat constructor.
  - exact Ram.both_run.
Defined.
Lemma vfs_answers_witness :
  (exists r b st', @vfs_step dev_build _ _ _ _ (Read 3 [0]) Ram.fresh = Ok (Some r, b, st')) /\
  ~ (exists r b st', @vfs_step dev_build _ _ _ _ (Close 0) Ram.fresh = Ok (Some r, b, st')).
Proof.
  split; [apply (@vfs_answers dev_build _ _ _ _ Ram.fresh (Read 3 [0]) Ram.fresh_ok Ram.total); done|].
  intros Hc. apply (@vfs_answers dev_build _ _ _ _ Ram.fresh (Close 0) Ram.fresh_ok Ram.total) in Hc; done.
Defined.

(** A second mount point, at [/mnt]: a file opened below it is one at the root. *)
Definition mnt : Path.Path := Ram.at_path "/mnt".
Definition with_mnt : MountPointArray Ram.Fs :=
  match @mpa_insert dev_build _ (mounts Ram.fresh) mnt
    {| drive_id := Guid_default; fs_entry := []; fs_opened_inodes := ∅; fs_impl := HalFs_Ext2 ∅; mounted_at := mnt |} with
  | Ok m => m
  | _ => mounts Ram.fresh
  end.
Definition below_mnt : Vfs Ram.Fs (list Z) :=
  Ram.state_of (@vfs_step dev_build _ _ _ _ (Open (Ram.at_path "/mnt/x") Ram.create)
    {| opened_inodes := ∅; inode_idx_counter := 0; mounts := with_mnt |}).
Lemma other_mounts_unreachable_witness : opened_inodes below_mnt !! 0 = Some (from_inode (str "/mnt/x") 0) /\
  mount_point_id (from_inode (str "/mnt/x") 0) = 0.
Proof.
  assert (opened_inodes below_mnt !! 0 = Some (from_inode (str "/mnt/x") 0)) as Ho by (vm_compute; reflexivity). split; [exact Ho|].
  destruct (@other_mounts_unreachable dev_build _ _ _ _ Ram.fresh 0
    [(mnt, {| drive_id := Guid_default; fs_entry := []; fs_opened_inodes := ∅; fs_impl := HalFs_Ext2 ∅; mounted_at := mnt |})]
    with_mnt (Ram.at_path "/mnt/x") Ram.create (Some (inr 0)) [] below_mnt) as [_ Hop].
  - by exists [], [].
  - by apply Forall_singleton.
  - vm_compute. reflexivity.
  - reflexivity.
  - vm_compute. reflexivity.
  - destruct (Hop 0 _ Ho) as [He|He]; [discriminate He|exact He].
Defined.

(** The sample directories of Ext2Dir.v behind the server *)
Definition dir_mount : FileSystem (Ext2Fs MemDisk) :=
  {| drive_id := Guid_default; fs_entry := sample_partition; fs_opened_inodes := ∅; fs_impl := HalFs_Ext2 dir_fs; mounted_at := root_path |}.
Definition dir_server : Vfs (Ext2Fs MemDisk) HalInode :=
  {| opened_inodes := ∅; inode_idx_counter := 0;
     mounts := {| mount_points := {[0 := dir_mount]}; path_to_id_map := [(root_path, 0)]; counter := 1 |} |}.
Lemma dir_at_root : at_root dir_server 0 dir_mount dir_fs.
Proof. split; [by exists [], []|apply lookup_singleton_eq|done|done|cbn; lia]. Qed.
Definition read_only : OpenFlags := {| access_mode := ReadOnly; flags := 0; perms := None |}.
Abbreviation dir_impl := (@ext2_impl dev_build MemDisk _ None (fun _ buf ctx => (buf, ctx)) (fun ip _ ctx => (ip, ctx))).
Lemma vfs_open_resolves_witness : exists st',
  @vfs_step dev_build _ _ _ dir_impl (Open (Ram.at_path "/motd/init") read_only) dir_server =
    Ok (Some (inl ENotADirectory), [], st') /\ opened_inodes st' = ∅.
Proof.
  destruct (@vfs_open_resolves dev_build MemDisk _ _ None (fun _ buf ctx => (buf, ctx)) (fun ip _ ctx => (ip, ctx))
    dir_server 0 dir_mount dir_fs sample_tree (Ram.at_path "/motd/init") read_only dir_at_root dir_fs_1k sample_tree_ok)
    as (r & st' & Hs & _ & Hr); [apply dir_inode_in; lia|done|done|].
  exists st'. vm_compute resolve in Hr. destruct Hr as [Ho [[He _]|[_ ->]]]; [discriminate He|]. split; [exact Hs|exact Ho].
Defined.
Lemma dir_file_small : small_file dir_fs file_inode.
Proof. split; [cbn; lia|split; [done|]]. apply in_disk_check. vm_compute. reflexivity. Qed.
Lemma vfs_open_then_read_witness : exists st1 st2,
  @vfs_step dev_build _ _ _ dir_impl (Open (Ram.at_path "//etc/../etc/./init") read_only) dir_server = Ok (Some (inr 0), [], st1) /\
  @vfs_step dev_build _ _ _ dir_impl (Read 0 (zeros 4)) st1 = Ok (Some (inr 4), piece (contents dir_fs file_inode) 0 4, st2).
Proof.
  destruct (@vfs_open_then_read dev_build MemDisk _ _ None (fun _ buf ctx => (buf, ctx)) (fun ip _ ctx => (ip, ctx))
    dir_server 0 dir_mount dir_fs sample_tree (Ram.at_path "//etc/../etc/./init") read_only 11 13 (ip_at file_inode 13) (zeros 4)
    dir_at_root dir_fs_1k sample_tree_ok) as (st1 & st2 & o & fs' & Ho & Hr & _);
    [apply dir_inode_in; lia|done|done|vm_compute; reflexivity|reflexivity|exact dir_file_small|reflexivity|reflexivity|].
  exists st1, st2. split; [exact Ho|]. change (Z.min (zlen (zeros 4)) (i_size (ip_inode (ip_at file_inode 13)))) with 4 in Hr.
  assert (patch (zeros 4) 0 (piece (contents dir_fs file_inode) 0 4) = piece (contents dir_fs file_inode) 0 4) as He by (vm_compute; reflexivity).
  rewrite <- He at 1. exact Hr.
Defined.
