(* ===== verification/Scheduler.v ===== *)
(** * Threads and the scheduler

    src/kernel/src/arch/x86_64/scheduler/mod.rs and syscall.rs, the timer
    interrupt of handlers/irq.rs and the clock of timer.rs.

    One processor: its [SchedulerCpuContext], the counter of thread numbers,
    which all processors share, and the lists of frames sent to the task that
    frees them.  A handler ends by resuming a thread, which does not return:
    [Outcome] is what the assembly is given to load.  The wakers and the cursor
    the timer interrupt also serves are not part of this.

    [virt_addr] is [VirtAddr::new] of the x86_64 crate, which panics on
    addresses that are not canonical.  The FPU and SIMD states, always [None],
    are left out. *)

From stdpp Require Import gmap.
From S2P Require Import Prelude Vfs.

(** ** Data *)
Record GPRegisterState := {
  rax : Z; rbx : Z; rcx : Z; rdx : Z; rsi : Z; rdi : Z; rbp : Z;
  r8 : Z; r9 : Z; r10 : Z; r11 : Z; r12 : Z; r13 : Z; r14 : Z; r15 : Z;
}.
Definition GPRegisterState_default : GPRegisterState :=
  {| rax := 0; rbx := 0; rcx := 0; rdx := 0; rsi := 0; rdi := 0; rbp := 0;
     r8 := 0; r9 := 0; r10 := 0; r11 := 0; r12 := 0; r13 := 0; r14 := 0; r15 := 0 |}.
Inductive State := Paused (instruction_pointer rflags : Z) | Waiting | Ready.
Record ThreadState := {
  killed : bool;
  registers : GPRegisterState;
  stack_pointer : Z;
  thread_local_segment : Z;
  page_table_pointer : Z;
  state : State;
  frames : list Z;
}.
Inductive PrivilageLevel := Kernel | User.
Record Thread := { id : Z; tstate : ThreadState; privilage_level : PrivilageLevel; time_left : Z }.
Record SchedulerCpuContext := {
  thread_map : gmap Z Thread;
  thread_queue : list Z;
  current_thread : option Z;
  waiting_threads : gmap Z Z;
  waiting_queue_idx : Z;
}.
Definition SchedulerCpuContext_default : SchedulerCpuContext :=
  {| thread_map := ∅; thread_queue := []; current_thread := None; waiting_threads := ∅; waiting_queue_idx := 0 |}.
(** Durations are in nanoseconds. *)
Definition MILLISECOND_TO_NANO_SECOND : Z := 1000000.
Definition DEFAULT_TICKS_PER_THREAD : Z := 5 * 1000000.

(** The frames the assembly pushes: of a [syscall], of an interrupt, and the
    one [iretq] takes *)
Record SyscallFrame := {
  sf_r15 : Z; sf_r14 : Z; sf_r13 : Z; sf_r12 : Z; sf_r11 : Z; sf_r10 : Z; sf_r9 : Z; sf_r8 : Z; sf_rdi : Z; sf_rsi : Z;
  sf_rdx : Z; sf_rcx : Z; sf_rbx : Z; sf_rax : Z; sf_rbp : Z; sf_rsp : Z;
}.
Record InterruptNoErrcodeFrame := {
  if_rax : Z; if_rbx : Z; if_rcx : Z; if_rdx : Z; if_rdi : Z; if_rsi : Z; if_rbp : Z; if_r8 : Z; if_r9 : Z; if_r10 : Z;
  if_r11 : Z; if_r12 : Z; if_r13 : Z; if_r14 : Z; if_r15 : Z; if_rip : Z; if_cs : Z; if_rflags : Z; if_rsp : Z; if_ss : Z;
}.
Record LongReturnFrame := { lr_ss : Z; lr_rsp : Z; lr_rflags : Z; lr_cs : Z; lr_rip : Z }.
Record Selectors := { kernel_code_selector : Z; kernel_data_selector : Z; user_code_selector : Z; user_data_selector : Z; tss_selector : Z }.

(** [set_registers!], between the three kinds of frame it is used with *)
Definition regs_of_syscall (f : SyscallFrame) : GPRegisterState :=
  {| rax := sf_rax f; rbx := sf_rbx f; rcx := sf_rcx f; rdx := sf_rdx f; rsi := sf_rsi f; rdi := sf_rdi f; rbp := sf_rbp f;
     r8 := sf_r8 f; r9 := sf_r9 f; r10 := sf_r10 f; r11 := sf_r11 f; r12 := sf_r12 f; r13 := sf_r13 f; r14 := sf_r14 f;
     r15 := sf_r15 f |}.
Definition regs_of_interrupt (f : InterruptNoErrcodeFrame) : GPRegisterState :=
  {| rax := if_rax f; rbx := if_rbx f; rcx := if_rcx f; rdx := if_rdx f; rsi := if_rsi f; rdi := if_rdi f; rbp := if_rbp f;
     r8 := if_r8 f; r9 := if_r9 f; r10 := if_r10 f; r11 := if_r11 f; r12 := if_r12 f; r13 := if_r13 f; r14 := if_r14 f;
     r15 := if_r15 f |}.
Definition frame_of_regs (r : GPRegisterState) (rsp : Z) : SyscallFrame :=
  {| sf_r15 := r15 r; sf_r14 := r14 r; sf_r13 := r13 r; sf_r12 := r12 r; sf_r11 := r11 r; sf_r10 := r10 r; sf_r9 := r9 r;
     sf_r8 := r8 r; sf_rdi := rdi r; sf_rsi := rsi r; sf_rdx := rdx r; sf_rcx := rcx r; sf_rbx := rbx r; sf_rax := rax r;
     sf_rbp := rbp r; sf_rsp := rsp |}.
Definition set_rax (r : GPRegisterState) (v : Z) : GPRegisterState :=
  {| rax := v; rbx := rbx r; rcx := rcx r; rdx := rdx r; rsi := rsi r; rdi := rdi r; rbp := rbp r; r8 := r8 r; r9 := r9 r;
     r10 := r10 r; r11 := r11 r; r12 := r12 r; r13 := r13 r; r14 := r14 r; r15 := r15 r |}.

Definition with_state (t : Thread) (r : GPRegisterState) (sp : Z) (s : State) : Thread :=
  {| id := id t; privilage_level := privilage_level t; time_left := time_left t;
     tstate := {| killed := killed (tstate t); registers := r; stack_pointer := sp;
                  thread_local_segment := thread_local_segment (tstate t);
                  page_table_pointer := page_table_pointer (tstate t); state := s; frames := frames (tstate t) |} |}.
Definition with_time (t : Thread) (time : Z) : Thread :=
  {| id := id t; tstate := tstate t; privilage_level := privilage_level t; time_left := time |}.
Definition with_id (t : Thread) (i : Z) : Thread :=
  {| id := i; tstate := tstate t; privilage_level := privilage_level t; time_left := time_left t |}.
Definition with_map (c : SchedulerCpuContext) (m : gmap Z Thread) : SchedulerCpuContext :=
  {| thread_map := m; thread_queue := thread_queue c; current_thread := current_thread c;
     waiting_threads := waiting_threads c; waiting_queue_idx := waiting_queue_idx c |}.
Definition with_queue (c : SchedulerCpuContext) (q : list Z) : SchedulerCpuContext :=
  {| thread_map := thread_map c; thread_queue := q; current_thread := current_thread c;
     waiting_threads := waiting_threads c; waiting_queue_idx := waiting_queue_idx c |}.
Definition with_current (c : SchedulerCpuContext) (o : option Z) : SchedulerCpuContext :=
  {| thread_map := thread_map c; thread_queue := thread_queue c; current_thread := o;
     waiting_threads := waiting_threads c; waiting_queue_idx := waiting_queue_idx c |}.

(** What the processor goes on with: [resume_paused_thread],
    [resume_thread_from_syscall], each with the base of [fs] written before, or
    the interrupted code *)
Inductive Outcome :=
| ResumePaused (fs_base : Z) (frame : SyscallFrame) (page_table : Z) (ret : LongReturnFrame) (is_kernel : Z)
| ResumeSyscall (fs_base : Z) (frame : SyscallFrame) (page_table : Z)
| Return.

Definition WRITE_SYSCALL : Z := 1.
Definition KILL_SYSCALL : Z := 0x3c.

Section scheduler.
Context `{Build} (virt_addr : Z -> res never Z) (selectors : Selectors).

(** ** [SchedulerCpuContext] *)
(** A dropped thread sends its frames to be freed. *)
Definition drop_thread (o : option Thread) (sent : list (list Z)) : list (list Z) :=
  match o with Some t => sent ++ [frames (tstate t)] | None => sent end.
Definition spawn_thread (t : Thread) (c : SchedulerCpuContext) (counter : Z) (sent : list (list Z)) :
    SchedulerCpuContext * Z * list (list Z) :=
  (with_queue (with_map c (<[counter := with_id t counter]> (thread_map c))) (thread_queue c ++ [counter]),
   wrap 64 (counter + 1), drop_thread (thread_map c !! counter) sent).
Definition get_current_thread_ref (c : SchedulerCpuContext) : res never Thread :=
  i ← expect (current_thread c); expect (thread_map c !! i).
(** Each round takes an entry off the queue. *)
Fixpoint switch_loop (queue : list Z) (c : SchedulerCpuContext) (sent : list (list Z)) :
    res never (Thread * SchedulerCpuContext * list (list Z)) :=
  match queue with
  | [] => Panic
  | i :: queue =>
      match thread_map c !! i with
      | Some t =>
          if killed (tstate t) then switch_loop queue (with_map c (delete i (thread_map c))) (drop_thread (Some t) sent)
          else Ok (t, with_current (with_queue c queue) (Some i), sent)
      | None => switch_loop queue c sent
      end
  end.
Definition switch_task (c : SchedulerCpuContext) (sent : list (list Z)) : res never (Thread * SchedulerCpuContext * list (list Z)) :=
  switch_loop (thread_queue c) c sent.

(** ** Resuming *)
Definition return_frame (t : Thread) (ip rflags : Z) : LongReturnFrame :=
  match privilage_level t with
  | User => {| lr_ss := user_data_selector selectors; lr_rsp := stack_pointer (tstate t); lr_rflags := rflags;
               lr_cs := user_code_selector selectors; lr_rip := ip |}
  | Kernel => {| lr_ss := kernel_data_selector selectors; lr_rsp := stack_pointer (tstate t); lr_rflags := rflags;
                 lr_cs := kernel_code_selector selectors; lr_rip := ip |}
  end.
Definition resume_thread (t : Thread) (c : SchedulerCpuContext) : res never (Outcome * SchedulerCpuContext) :=
  let frame := frame_of_regs (registers (tstate t)) (stack_pointer (tstate t)) in
  match state (tstate t) with
  | Paused ip rflags =>
      Ok (ResumePaused (thread_local_segment (tstate t)) frame (page_table_pointer (tstate t)) (return_frame t ip rflags)
            (match privilage_level t with Kernel => 1 | User => 0 end),
          with_current c (Some (id t)))
  | Ready => Ok (ResumeSyscall (thread_local_segment (tstate t)) frame (page_table_pointer (tstate t)), with_current c (Some (id t)))
  | Waiting => Panic
  end.
(** The loop both handlers end with: the first thread of the queue that exists
    is resumed, with a full quantum. *)
Fixpoint resume_loop (queue : list Z) (c : SchedulerCpuContext) : res never (Outcome * SchedulerCpuContext) :=
  match queue with
  | [] => Panic
  | i :: queue =>
      match thread_map c !! i with
      | Some t =>
          let t := with_time t DEFAULT_TICKS_PER_THREAD in
          resume_thread t (with_queue (with_map c (<[i := t]> (thread_map c))) queue)
      | None => resume_loop queue c
      end
  end.
Definition resume_next (c : SchedulerCpuContext) : res never (Outcome * SchedulerCpuContext) := resume_loop (thread_queue c) c.

Definition syscall_handler (f : SyscallFrame) (c : SchedulerCpuContext) : res never (Outcome * SchedulerCpuContext) :=
  current ← expect (current_thread c);
  let c := with_current c None in
  c ← match thread_map c !! current with
      | Some t =>
          sp ← virt_addr (sf_rsp f);
          let t := with_state t (regs_of_syscall f) sp Waiting in
          if sf_rax f =? WRITE_SYSCALL then
            _ ← uadd (E:=never) 64 (waiting_queue_idx c) 1; Panic
          else if sf_rax f =? KILL_SYSCALL then Ok (with_map c (<[current := t]> (thread_map c)))
          else
            let t := with_state t (set_rax (regs_of_syscall f) (wrap 64 (errno OperationNotSupported))) sp Ready in
            Ok (with_queue (with_map c (<[current := t]> (thread_map c))) (thread_queue c ++ [current]))
      | None => Ok c
      end;
  resume_next c.

(** The scheduling part of [timer_handler_inner]; [ticks] is
    [apic_timer_ticks_per_ms]. *)
Definition timer_handler_inner (ticks : Z) (f : InterruptNoErrcodeFrame) (c : SchedulerCpuContext) :
    res never (Outcome * SchedulerCpuContext) :=
  match current_thread c with
  | None => Ok (Return, c)
  | Some current =>
      match thread_map c !! current with
      | None => Ok (Return, c)
      | Some t =>
          tick ← udiv MILLISECOND_TO_NANO_SECOND ticks;
          let left := Z.max 0 (time_left t - tick) in
          if left =? 0 then
            sp ← virt_addr (if_rsp f);
            let t := with_state t (regs_of_interrupt f) sp (Paused (if_rip f) (if_rflags f)) in
            resume_next (with_queue (with_map c (<[current := t]> (thread_map c))) (thread_queue c ++ [current]))
          else Ok (Return, c)
      end
  end.

(** The kernel's own thread is resumed without being in the map. *)
Definition load_kernel_thread (stack page_table entry rflags : Z) (c : SchedulerCpuContext) :
    res never (Outcome * SchedulerCpuContext) :=
  sp ← virt_addr stack;
  tls ← virt_addr 0;
  resume_thread
    {| id := 0; privilage_level := Kernel; time_left := DEFAULT_TICKS_PER_THREAD;
       tstate := {| killed := false; registers := GPRegisterState_default; stack_pointer := sp; thread_local_segment := tls;
                    page_table_pointer := page_table; state := Paused entry rflags; frames := [] |} |} c.
End scheduler.

(** ** The invariant *)
(** What happens to a processor: a thread is spawned here or, with only the
    counter moving, elsewhere; a running thread makes a system call; the timer
    interrupts.  [kernel_runs] is not part of the code's state: it tells the
    kernel thread, which is outside the map and has the number 0, from a thread
    of the map with that number.  The kernel thread makes no system calls. *)
Section runs.
Context `{Build} (virt_addr : Z -> res never Z) (selectors : Selectors) (ticks : Z).
Record Cpu := { ctx : SchedulerCpuContext; counter : Z; sent : list (list Z); kernel_runs : bool }.
(** A thread as the loader makes it *)
Definition new_thread (t : Thread) : Prop :=
  killed (tstate t) = false /\ state (tstate t) <> Waiting /\ time_left t = DEFAULT_TICKS_PER_THREAD.
Inductive Event := Spawn (t : Thread) | SpawnElsewhere (k : Z) | Syscall (f : SyscallFrame) | Timer (f : InterruptNoErrcodeFrame).
Inductive cpu_step : Event -> Cpu -> Cpu -> Prop :=
| step_spawn t s c' n' l' : new_thread t -> counter s + 1 < 2 ^ 64 ->
    spawn_thread t (ctx s) (counter s) (sent s) = (c', n', l') ->
    cpu_step (Spawn t) s {| ctx := c'; counter := n'; sent := l'; kernel_runs := kernel_runs s |}
| step_elsewhere s k : 0 <= k -> counter s + k < 2 ^ 64 ->
    cpu_step (SpawnElsewhere k) s {| ctx := ctx s; counter := counter s + k; sent := sent s; kernel_runs := kernel_runs s |}
| step_syscall f s o c' : kernel_runs s = false -> syscall_handler virt_addr selectors f (ctx s) = Ok (o, c') ->
    cpu_step (Syscall f) s {| ctx := c'; counter := counter s; sent := sent s; kernel_runs := false |}
| step_timer f s o c' : timer_handler_inner virt_addr selectors ticks f (ctx s) = Ok (o, c') ->
    cpu_step (Timer f) s {| ctx := c'; counter := counter s; sent := sent s;
      kernel_runs := match o with Return => kernel_runs s | _ => false end |}.
Definition some_step (s s' : Cpu) : Prop := exists e, cpu_step e s s'.

Definition runnable (t : Thread) : Prop := killed (tstate t) = false /\ state (tstate t) <> Waiting.
(** The threads of the map have their numbers and a full quantum and are not
    marked as killed; the queue has no thread twice, only threads that can be resumed, and not the one that
    is running. *)
Record sched_ok (c : SchedulerCpuContext) (n : Z) : Prop := {
  s_map i t : thread_map c !! i = Some t ->
    id t = i /\ 0 <= i < n /\ time_left t = DEFAULT_TICKS_PER_THREAD /\ killed (tstate t) = false;
  s_nodup : NoDup (thread_queue c);
  s_queue i : i ∈ thread_queue c -> exists t, thread_map c !! i = Some t /\ runnable t;
  s_current i : current_thread c = Some i -> (i ∉ thread_queue c) /\ 0 <= i < n;
  s_counter : 0 <= n;
}.
Lemma with_time_same t : time_left t = DEFAULT_TICKS_PER_THREAD -> with_time t DEFAULT_TICKS_PER_THREAD = t.
Proof. destruct t; cbn. by intros ->. Qed.

(** Resuming takes the head of the queue, which can be resumed. *)
Lemma resume_next_ok c n i q : sched_ok c n -> thread_queue c = i :: q -> exists t o,
  thread_map c !! i = Some t /\ resume_next selectors c = Ok (o, with_current (with_queue c q) (Some i)) /\
  sched_ok (with_current (with_queue c q) (Some i)) n.
Proof.
  intros Hok Hq. assert (i ∈ thread_queue c) as Hin by (rewrite Hq; apply list_elem_of_here).
  destruct (s_queue _ _ Hok i Hin) as (t & Hm & Hk & Hw). destruct (s_map _ _ Hok _ _ Hm) as (Hid & Hr & Ht & _).
  pose proof (s_nodup _ _ Hok) as Hnd. rewrite Hq in Hnd. apply NoDup_cons in Hnd as [Hni Hnd].
  assert (exists o, resume_next selectors c = Ok (o, with_current (with_queue c q) (Some i))) as [o Ho].
  { unfold resume_next. rewrite Hq. cbn [resume_loop]. rewrite Hm, (with_time_same t Ht), insert_id by done.
    replace (with_map c (thread_map c)) with c by (by destruct c). unfold resume_thread. rewrite Hid.
    destruct (state (tstate t)); [by eexists|done|by eexists]. }
  exists t, o. split_and!; [done|done|]. split; cbn.
  - apply (s_map _ _ Hok).
  - done.
  - intros j Hj. apply (s_queue _ _ Hok). rewrite Hq. by apply list_elem_of_further.
  - intros j [= <-]. done.
  - apply (s_counter _ _ Hok).
Qed.
Lemma resume_next_inv c n o c' : sched_ok c n -> resume_next selectors c = Ok (o, c') -> exists i q,
  thread_queue c = i :: q /\ c' = with_current (with_queue c q) (Some i) /\ sched_ok c' n.
Proof.
  intros Hok Hr. destruct (thread_queue c) as [|i q] eqn:Hq; [unfold resume_next in Hr; by rewrite Hq in Hr|].
  destruct (resume_next_ok c n i q Hok Hq) as (t & o' & _ & Ho & Hok'). rewrite Ho in Hr. simplify_eq. eauto.
Qed.

(** The running thread with its registers saved, before the queue is served *)
Definition saved (c : SchedulerCpuContext) (i : Z) (t : Thread) (q : list Z) : SchedulerCpuContext :=
  with_queue (with_map (with_current c None) (<[i := t]> (thread_map c))) q.
Lemma saved_ok c n i t0 t q : sched_ok c n -> current_thread c = Some i -> thread_map c !! i = Some t0 ->
  id t = id t0 -> time_left t = time_left t0 -> killed (tstate t) = killed (tstate t0) -> q = thread_queue c \/ (q = thread_queue c ++ [i] /\ state (tstate t) <> Waiting) ->
  sched_ok (saved c i t q) n.
Proof.
  intros Hok Hc Hm Hid Ht Hk Hq. destruct (s_current _ _ Hok i Hc) as [Hni Hr]. destruct (s_map _ _ Hok _ _ Hm) as (Hi & _ & Ht0 & Hk0).
  assert (forall j, j ∈ thread_queue c -> exists t1, <[i := t]> (thread_map c) !! j = Some t1 /\ runnable t1) as Hold.
  { intros j Hj. rewrite lookup_insert_ne by (intros ->; done). by apply (s_queue _ _ Hok). }
  split; cbn [saved with_queue with_map with_current thread_map thread_queue current_thread].
  - intros j t1 [[<- <-]|[_ Hj]]%lookup_insert_Some; [rewrite Hid, Ht, Hk; done|by apply (s_map _ _ Hok)].
  - destruct Hq as [->|[-> _]]; [apply (s_nodup _ _ Hok)|]. apply NoDup_app. split_and!; [apply (s_nodup _ _ Hok)| |apply NoDup_singleton].
    intros j Hj ->%list_elem_of_singleton. done.
  - intros j Hj. destruct Hq as [->|[-> Hrun]]; [by apply Hold|]. apply elem_of_app in Hj as [Hj| ->%list_elem_of_singleton]; [by apply Hold|].
    rewrite lookup_insert_eq. eexists. split; [done|]. split; [by rewrite Hk|done].
  - done.
  - apply (s_counter _ _ Hok).
Qed.

Lemma spawn_ok c n l t : sched_ok c n -> new_thread t -> n + 1 < 2 ^ 64 ->
  let '(c', n', l') := spawn_thread t c n l in sched_ok c' n' /\ n' = n + 1 /\ l' = l.
Proof.
  intros Hok (Hk & Hw & Ht) Hn. pose proof (s_counter _ _ Hok). cbn [spawn_thread].
  assert (thread_map c !! n = None) as Hnone.
  { destruct (thread_map c !! n) as [t'|] eqn:Hm; [|done]. destruct (s_map _ _ Hok _ _ Hm). lia. }
  assert (n ∉ thread_queue c) as Hni. { intros Hin. destruct (s_queue _ _ Hok _ Hin) as (t' & Hm & _). congruence. }
  rewrite wrap_small by lia. rewrite Hnone. split_and!; [|done|done].
  split; cbn [with_queue with_map thread_map thread_queue current_thread].
  - intros j t1 [[<- <-]|[_ Hj]]%lookup_insert_Some; [cbn; split_and!; [done|lia|lia|done|done]|].
    destruct (s_map _ _ Hok _ _ Hj) as (? & ? & ? & ?). split_and!; [done|lia|lia|done|done].
  - apply NoDup_app. split_and!; [apply (s_nodup _ _ Hok)| |apply NoDup_singleton]. intros j Hj ->%list_elem_of_singleton. done.
  - intros j [Hj| ->%list_elem_of_singleton]%elem_of_app; [|rewrite lookup_insert_eq; by eexists].
    rewrite lookup_insert_ne by (intros ->; done). by apply (s_queue _ _ Hok).
  - intros j Hj. destruct (s_current _ _ Hok j Hj) as [Hjq Hjr]. split; [|lia].
    intros [?| ->%list_elem_of_singleton]%elem_of_app; [done|lia].
  - lia.
Qed.
Lemma elsewhere_ok c n k : sched_ok c n -> 0 <= k -> sched_ok c (n + k).
Proof.
  intros [Hm Hnd Hq Hc Hn] Hk. split; [|done|done| |lia].
  - intros i t Hi. destruct (Hm _ _ Hi) as (? & ? & ? & ?). split_and!; [done|lia|lia|done|done].
  - intros i Hi. destruct (Hc _ Hi). split; [done|lia].
Qed.

(** What a system call leaves before a thread is resumed *)
Inductive syscall_saved (f : SyscallFrame) (c : SchedulerCpuContext) : SchedulerCpuContext -> Prop :=
| syscall_unknown i : current_thread c = Some i -> thread_map c !! i = None -> syscall_saved f c (with_current c None)
| syscall_kill i t sp : current_thread c = Some i -> thread_map c !! i = Some t -> virt_addr (sf_rsp f) = Ok sp ->
    sf_rax f = KILL_SYSCALL -> syscall_saved f c (saved c i (with_state t (regs_of_syscall f) sp Waiting) (thread_queue c))
| syscall_other i t sp : current_thread c = Some i -> thread_map c !! i = Some t -> virt_addr (sf_rsp f) = Ok sp ->
    sf_rax f <> WRITE_SYSCALL -> sf_rax f <> KILL_SYSCALL ->
    syscall_saved f c (saved c i
      (with_state t (set_rax (regs_of_syscall f) (wrap 64 (errno OperationNotSupported))) sp Ready) (thread_queue c ++ [i])).
Lemma syscall_cases f c o c' : syscall_handler virt_addr selectors f c = Ok (o, c') ->
  exists c1, syscall_saved f c c1 /\ resume_next selectors c1 = Ok (o, c').
Proof.
  unfold syscall_handler. intros Hs. apply res_bind_ok in Hs as (i & Hi & Hs). destruct (current_thread c) as [i'|] eqn:Hc; [|done].
  injection Hi as ->. cbn [with_current thread_map] in Hs. apply res_bind_ok in Hs as (c1 & Hc1 & Hs). exists c1. split; [|done].
  destruct (thread_map c !! i) as [t|] eqn:Hm; [|injection Hc1 as <-; by eapply syscall_unknown].
  apply res_bind_ok in Hc1 as (sp & Hsp & Hc1). destruct (Z.eqb_spec (sf_rax f) WRITE_SYSCALL) as [|Hw].
  { apply res_bind_ok in Hc1 as (? & _ & [=]). }
  destruct (Z.eqb_spec (sf_rax f) KILL_SYSCALL); injection Hc1 as <-;
    [exact (syscall_kill f c i t sp Hc Hm Hsp e)|by apply (syscall_other f c i t sp)].
Qed.
Lemma syscall_saved_ok f c c1 n : sched_ok c n -> syscall_saved f c c1 -> sched_ok c1 n.
Proof.
  intros Hok Hs. destruct Hs as [i Hc Hm|i t sp Hc Hm|i t sp Hc Hm].
  - destruct Hok as [Hmap Hnd Hq Hcur Hn]. by split.
  - eapply (saved_ok c n i t); try done. by left.
  - eapply (saved_ok c n i t); try done. by right.
Qed.
(** With a full quantum left, and at least one tick in a millisecond, the
    timer interrupt goes back to what it interrupted. *)
Definition full_quanta (c : SchedulerCpuContext) : Prop :=
  forall i t, thread_map c !! i = Some t -> time_left t = DEFAULT_TICKS_PER_THREAD.
Lemma timer_full f c : full_quanta c -> 1 <= ticks -> timer_handler_inner virt_addr selectors ticks f c = Ok (Return, c).
Proof.
  intros Hfull Hti. unfold timer_handler_inner. destruct (current_thread c) as [i|]; [|done].
  destruct (thread_map c !! i) as [t|] eqn:Hm; [|done]. rewrite (Hfull _ _ Hm).
  rewrite udiv_ok by lia. rsimpl. unfold MILLISECOND_TO_NANO_SECOND, DEFAULT_TICKS_PER_THREAD.
  assert (1000000 / ticks <= 1000000) by (apply Z.div_le_upper_bound; lia). by bfalse (Z.max 0 (5 * 1000000 - 1000000 / ticks) =? 0).
Qed.
Lemma timer_returns f c n : sched_ok c n -> 1 <= ticks -> timer_handler_inner virt_addr selectors ticks f c = Ok (Return, c).
Proof. intros Hok. apply timer_full. intros i t Hm. by destruct (s_map _ _ Hok _ _ Hm) as (_ & _ & ? & _). Qed.
(** The context without the kernel thread: while that runs, no thread of the
    map does, whatever its number. *)
Definition threads_of (s : Cpu) : SchedulerCpuContext := if kernel_runs s then with_current (ctx s) None else ctx s.
Definition cpu_ok (s : Cpu) : Prop := sched_ok (threads_of s) (counter s) /\ (kernel_runs s = true -> current_thread (ctx s) = Some 0).
Lemma threads_map s : thread_map (threads_of s) = thread_map (ctx s).
Proof. unfold threads_of. by destruct (kernel_runs s). Qed.
Lemma cpu_step_ok e s s' : 1 <= ticks -> cpu_step e s s' -> cpu_ok s -> cpu_ok s' /\ sent s' = sent s.
Proof.
  intros Hti Hs [Hok Hk]. destruct Hs as [t s c' n' l' Ht Hn Hsp|s k Hk' Hn|f s o c' Hr Hs|f s o c' Hs]; cbn [ctx counter sent kernel_runs].
  - pose proof (spawn_ok _ _ (sent s) t Hok Ht Hn) as Hx. injection Hsp as <- <- <-. unfold cpu_ok, threads_of in *. cbn [ctx counter kernel_runs] in *.
    destruct (kernel_runs s); destruct Hx as (? & ? & ?); done.
  - split; [|done]. split; [by apply elsewhere_ok|done].
  - split; [|done]. split; [|done]. unfold threads_of in Hok. rewrite Hr in Hok. apply syscall_cases in Hs as (c1 & Hsv & Hn).
    apply (syscall_saved_ok _ _ _ _ Hok) in Hsv. by destruct (resume_next_inv _ _ _ _ Hsv Hn) as (i & q & _ & _ & ?).
  - rewrite timer_full in Hs; [|intros i t Hm; rewrite <- threads_map in Hm; by destruct (s_map _ _ Hok _ _ Hm) as (_ & _ & ? & _)|done].
    by simplify_eq.
Qed.
Lemma cpu_steps_ok s s' : 1 <= ticks -> rtc some_step s s' -> cpu_ok s -> cpu_ok s' /\ sent s' = sent s.
Proof.
  intros Hti Hs. induction Hs as [s|s1 s2 s3 [e He] _ IH]; [done|]. intros Hok. destruct (cpu_step_ok _ _ _ Hti He Hok) as [Hok2 <-]. by apply IH.
Qed.

(** *** A system call that is not known *)
Definition unsupported (f : SyscallFrame) : Prop :=
  sf_rax f <> WRITE_SYSCALL /\ sf_rax f <> KILL_SYSCALL /\ virt_addr (sf_rsp f) = Ok (sf_rsp f).
(** The thread that made it, as it will be resumed *)
Definition answered (t : Thread) (f : SyscallFrame) : Thread :=
  with_state t (set_rax (regs_of_syscall f) (wrap 64 (errno OperationNotSupported))) (sf_rsp f) Ready.
Lemma unsupported_steps c n i t f j q : sched_ok c n -> current_thread c = Some i -> thread_map c !! i = Some t -> unsupported f ->
  thread_queue c ++ [i] = j :: q -> exists o t',
  let c' := with_current (saved c i (answered t f) q) (Some j) in
  syscall_handler virt_addr selectors f c = Ok (o, c') /\ sched_ok c' n /\
  thread_map c' !! j = Some t' /\ resume_thread selectors t' c' = Ok (o, c').
Proof.
  intros Hok Hc Hm (Hw & Hk & Hsp) Hq. assert (sched_ok (saved c i (answered t f) (j :: q)) n) as Hsv.
  { rewrite <- Hq. apply (saved_ok c n i t); try done. by right. }
  destruct (resume_next_ok _ n j q Hsv eq_refl) as (t' & o & Hmj & Hr & Hok').
  exists o, t'. split_and!; [|exact Hok'|exact Hmj|].
  - unfold syscall_handler. rewrite Hc. cbn [expect]. rsimpl. cbn [with_current thread_map]. rewrite Hm, Hsp. rsimpl.
    rewrite (proj2 (Z.eqb_neq _ _) Hw), (proj2 (Z.eqb_neq _ _) Hk). rewrite <- Hq in Hr. exact Hr.
  - unfold resume_next in Hr. cbn [saved with_queue thread_queue resume_loop] in Hr. cbn [saved with_queue thread_map with_map] in Hr, Hmj.
    rewrite Hmj in Hr. destruct (s_map _ _ Hok' j t') as (Hid & _ & Ht & _); [done|]. rewrite (with_time_same t' Ht), insert_id in Hr by done.
    unfold resume_thread in *. destruct (state (tstate t')); by simplify_eq/=.
Qed.
Fixpoint syscalls (fs : list SyscallFrame) (c : SchedulerCpuContext) : res never (list Outcome * SchedulerCpuContext) :=
  match fs with
  | [] => Ok ([], c)
  | f :: fs => '(o, c) ← syscall_handler virt_addr selectors f c; '(os, c) ← syscalls fs c; Ok (o :: os, c)
  end.
(** The thread [i] in the queue is resumed after those before it. *)
Lemma rotate_to n i t q1 : forall fs c j tj q2, sched_ok c n -> current_thread c = Some j -> thread_map c !! j = Some tj ->
  thread_queue c = q1 ++ i :: q2 -> thread_map c !! i = Some t -> Forall unsupported fs -> length fs = S (length q1) ->
  exists os o c', syscalls fs c = Ok (os ++ [o], c') /\ current_thread c' = Some i /\ thread_queue c' = q2 ++ j :: q1 /\
    thread_map c' !! i = Some t /\ resume_thread selectors t c' = Ok (o, c').
Proof.
  induction q1 as [|k q1 IH]; intros fs c j tj q2 Hok Hc Hm Hq Hi Hf Hl; destruct fs as [|f fs]; try done;
    apply Forall_cons_1 in Hf as [Hf Hfs]; cbn in Hl; injection Hl as Hl.
  all: assert (i <> j) as Hij by (intros ->; destruct (s_current _ _ Hok j Hc) as [Hn _]; apply Hn; rewrite Hq; set_solver).
  - destruct (unsupported_steps c n j tj f i (q2 ++ [j]) Hok Hc Hm Hf) as (o & t' & Hs & _ & Ht' & Hr).
    { by rewrite Hq. }
    apply nil_length_inv in Hl as ->. cbn in Ht'. rewrite lookup_insert_ne, Hi in Ht' by done. injection Ht' as <-.
    eexists [], o, _. cbn [syscalls]. rewrite Hs. split_and!; [done|done|done|cbn; by rewrite lookup_insert_ne|exact Hr].
  - destruct (unsupported_steps c n j tj f k (q1 ++ i :: q2 ++ [j]) Hok Hc Hm Hf) as (o & t' & Hs & Hok1 & Ht' & _).
    { rewrite Hq. cbn. by rewrite <- app_assoc. }
    destruct (IH fs _ k t' (q2 ++ [j]) Hok1 eq_refl Ht' eq_refl) as (os & o' & c' & Hss & Hc' & Hq' & Hi' & Hr'); [|done|done|].
    { cbn. by rewrite lookup_insert_ne. }
    exists (o :: os), o', c'. cbn [syscalls]. rewrite Hs. rsimpl. rewrite Hss. split_and!; [done|done|by rewrite Hq', <- app_assoc|done|done].
Qed.

(** *** A thread that ends itself *)
(** The thread [i] is in the map, waiting, and nothing refers to it. *)
Definition parked (i : Z) (t : Thread) (c : SchedulerCpuContext) : Prop :=
  thread_map c !! i = Some t /\ state (tstate t) = Waiting /\ (i ∉ thread_queue c) /\ current_thread c <> Some i.
Lemma parked_step i t e s s' : 1 <= ticks -> cpu_step e s s' -> cpu_ok s -> parked i t (ctx s) -> parked i t (ctx s').
Proof.
  intros Hti Hs [Hok Hrun] (Hm & Hw & Hq & Hc). destruct (s_map _ _ Hok i t) as (_ & Hr & _); [by rewrite threads_map|].
  destruct Hs as [t' s c' n' l' Ht Hn Hsp|s k Hk Hn|f s o c' Hu Hs|f s o c' Hs]; cbn [ctx].
  - injection Hsp as <- <- <-. split_and!; [cbn; by rewrite lookup_insert_ne by lia|done| |done].
    cbn. intros [?| ->%list_elem_of_singleton]%elem_of_app; [done|lia].
  - done.
  - unfold threads_of in Hok. rewrite Hu in Hok. apply syscall_cases in Hs as (c1 & Hsv & Hr1). pose proof (syscall_saved_ok _ _ _ _ Hok Hsv) as Hok1.
    assert (thread_map c1 !! i = Some t /\ (i ∉ thread_queue c1)) as [Hm1 Hq1].
    { destruct Hsv as [j Hj _|j tj sp Hj _|j tj sp Hj _]; (assert (i <> j) by congruence); cbn;
        (split; [by rewrite ?lookup_insert_ne by done|]); try done.
      intros [?| ->%list_elem_of_singleton]%elem_of_app; done. }
    destruct (resume_next_inv _ _ _ _ Hok1 Hr1) as (j & q & Hj & -> & _). rewrite Hj in Hq1. apply not_elem_of_cons in Hq1 as [? ?].
    split_and!; [done|done|done|]. cbn. congruence.
  - rewrite timer_full in Hs; [|intros j tj Hj; rewrite <- threads_map in Hj; by destruct (s_map _ _ Hok _ _ Hj) as (_ & _ & ? & _)|done].
    by simplify_eq.
Qed.
Lemma parked_steps i t s s' : 1 <= ticks -> rtc some_step s s' -> cpu_ok s -> parked i t (ctx s) -> parked i t (ctx s').
Proof.
  intros Hti Hs. induction Hs as [s|s1 s2 s3 [e He] _ IH]; [done|]. intros Hok Hp.
  apply IH; [by apply (cpu_step_ok _ _ _ Hti He)|by eapply parked_step].
Qed.

(** The state of a processor after its kernel thread has been loaded *)
Lemma kernel_loaded stack pt entry rflags o c : load_kernel_thread virt_addr selectors stack pt entry rflags SchedulerCpuContext_default = Ok (o, c) ->
  c = with_current SchedulerCpuContext_default (Some 0).
Proof.
  unfold load_kernel_thread. intros Hl. apply res_bind_ok in Hl as (sp & _ & Hl). apply res_bind_ok in Hl as (tls & _ & Hl).
  unfold resume_thread in Hl. cbn in Hl. by simplify_eq.
Qed.
Lemma kernel_loaded_ok n : 1 <= n -> sched_ok (with_current SchedulerCpuContext_default (Some 0)) n.
Proof.
  intros Hn. split; cbn; [intros i t Hi; by rewrite lookup_empty in Hi|constructor|by intros i Hi%elem_of_nil| |lia].
  intros i [= <-]. split; [apply not_elem_of_nil|lia].
Qed.



(** The frame of a system call with another value in [rax], register by register *)
Definition frame_with_rax (f : SyscallFrame) (v : Z) : SyscallFrame :=
  {| sf_r15 := sf_r15 f; sf_r14 := sf_r14 f; sf_r13 := sf_r13 f; sf_r12 := sf_r12 f; sf_r11 := sf_r11 f; sf_r10 := sf_r10 f;
     sf_r9 := sf_r9 f; sf_r8 := sf_r8 f; sf_rdi := sf_rdi f; sf_rsi := sf_rsi f; sf_rdx := sf_rdx f; sf_rcx := sf_rcx f;
     sf_rbx := sf_rbx f; sf_rax := v; sf_rbp := sf_rbp f; sf_rsp := sf_rsp f |}.

(** C14: system calls that are not known take turns fairly and keep the
    registers.  If the running thread [i] and then each next running thread
    makes such a call, [i] runs again after as many calls as there are threads,
    with the queue as it was; it is given back every register and the stack
    pointer it had, with the error code in [rax]. *)
Theorem syscalls_take_turns c n i t f fs : sched_ok c n -> current_thread c = Some i -> thread_map c !! i = Some t ->
  Forall unsupported (f :: fs) -> length fs = length (thread_queue c) ->
  exists os c', syscalls (f :: fs) c =
      Ok (os ++ [ResumeSyscall (thread_local_segment (tstate t))
                   (frame_with_rax f (2 ^ 64 - 0x2d)) (page_table_pointer (tstate t))], c') /\
    current_thread c' = Some i /\ thread_queue c' = thread_queue c.
Proof.
  intros Hok Hc Hm Hf Hl. apply Forall_cons_1 in Hf as [Hf Hfs]. cbn [syscalls]. destruct (thread_queue c) as [|k q] eqn:Hq.
  - destruct fs; [|done]. destruct (unsupported_steps c n i t f i [] Hok Hc Hm Hf) as (o & t' & Hs & _ & Ht' & Hr); [by rewrite Hq|].
    cbn in Ht'. rewrite lookup_insert_eq in Ht'. injection Ht' as <-. injection Hr as <-.
    eexists [], _. rewrite Hs. done.
  - destruct (unsupported_steps c n i t f k (q ++ [i]) Hok Hc Hm Hf) as (o & t' & Hs & Hok1 & Ht' & _); [by rewrite Hq|].
    destruct (rotate_to n i (answered t f) q fs _ k t' [] Hok1 eq_refl Ht' eq_refl) as (os & o' & c' & Hss & Hc' & Hq' & _ & Hr); [cbn; by rewrite lookup_insert_eq|done|done|].
    exists (o :: os), c'. rewrite Hs. rsimpl. rewrite Hss. split_and!; [|done|done]. rsimpl. cbn in Hr. by injection Hr as <-.
Qed.

(** A thread that ends itself never runs again and is never cleaned up.
    After its call, whatever happens, it is not in the queue and not the
    running thread; but it stays in the map, and the frames of its memory are
    not sent to be freed: nothing sets the mark that [switch_task] looks for. *)
Theorem ended_thread_leaks s i t f o c' s' : 1 <= ticks -> sched_ok (ctx s) (counter s) -> current_thread (ctx s) = Some i ->
  thread_map (ctx s) !! i = Some t -> sf_rax f = KILL_SYSCALL ->
  syscall_handler virt_addr selectors f (ctx s) = Ok (o, c') ->
  rtc some_step {| ctx := c'; counter := counter s; sent := sent s; kernel_runs := false |} s' ->
  current_thread (ctx s') <> Some i /\ (i ∉ thread_queue (ctx s')) /\
  (exists t', thread_map (ctx s') !! i = Some t' /\ frames (tstate t') = frames (tstate t)) /\ sent s' = sent s.
Proof.
  intros Hti Hok Hc Hm Hk Hs Hsteps.
  assert (cpu_ok {| ctx := c'; counter := counter s; sent := sent s; kernel_runs := false |}) as Hok1.
  { set (s0 := {| ctx := ctx s; counter := counter s; sent := sent s; kernel_runs := false |}).
    by apply (cpu_step_ok _ _ _ Hti (step_syscall f s0 o c' eq_refl Hs)). }
  assert (exists t', parked i t' c' /\ frames (tstate t') = frames (tstate t)) as (t' & Hp & Hfr).
  { apply syscall_cases in Hs as (c1 & Hsv & Hr). pose proof (syscall_saved_ok _ _ _ _ Hok Hsv) as Hok2.
    destruct (s_current _ _ Hok i Hc) as [Hni _]. destruct Hsv as [j Hj Hmj|j tj sp Hj Hmj|j tj sp Hj Hmj _ _ Hnk]; [congruence| |done].
    rewrite Hc in Hj. injection Hj as <-. rewrite Hm in Hmj. injection Hmj as <-.
    destruct (resume_next_inv _ _ _ _ Hok2 Hr) as (k & q & Hq & -> & _). cbn in Hq. rewrite Hq in Hni. apply not_elem_of_cons in Hni as [? ?].
    exists (with_state t (regs_of_syscall f) sp Waiting). split; [|done]. split; [apply lookup_insert_eq|]. split_and!; [done|done|]. cbn. congruence. }
  destruct (parked_steps i t' _ _ Hti Hsteps Hok1 Hp) as (Hm' & _ & Hq' & Hc'). split_and!; [done|done|by eexists|].
  by destruct (cpu_steps_ok _ _ Hti Hsteps Hok1).
Qed.

(** *** Without system calls *)
Definition quiet (e : Event) : Prop := match e with Syscall _ => False | _ => True end.
Definition quiet_step (s s' : Cpu) : Prop := exists e, quiet e /\ cpu_step e s s'.
Lemma quiet_keeps s s' : 1 <= ticks -> quiet_step s s' -> full_quanta (ctx s) ->
  full_quanta (ctx s') /\ current_thread (ctx s') = current_thread (ctx s).
Proof.
  intros Hti (e & Hq & Hs) Hfull. destruct Hs as [t s c' n' l' Ht Hn Hsp|s k Hk Hn|f s o c' Hr Hs|f s o c' Hs]; cbn [ctx]; [|done|done|].
  - injection Hsp as <- _ _. split; [|done]. intros i t1 Hi. cbn in Hi.
    apply lookup_insert_Some in Hi as [[<- <-]|[_ Hi]]; [apply Ht|by eapply Hfull].
  - rewrite (timer_full f _ Hfull Hti) in Hs. by simplify_eq.
Qed.

(** The timer does not switch threads.  From the moment the kernel thread
    runs, whatever threads are spawned and however often the timer interrupts,
    the kernel thread goes on running and no thread is started: the time a
    thread has left is computed and not stored, and one tick is never the whole
    quantum.  The numbers of the threads may include the kernel thread's. *)
Theorem timer_never_switches stack pt entry rflags o c0 n s : 1 <= ticks ->
  load_kernel_thread virt_addr selectors stack pt entry rflags SchedulerCpuContext_default = Ok (o, c0) ->
  rtc quiet_step {| ctx := c0; counter := n; sent := []; kernel_runs := true |} s ->
  current_thread (ctx s) = Some 0 /\ forall f, timer_handler_inner virt_addr selectors ticks f (ctx s) = Ok (Return, ctx s).
Proof.
  intros Hti ->%kernel_loaded Hs.
  enough (full_quanta (ctx s) /\ current_thread (ctx s) = Some 0) as [Hfull Hc] by (split; [done|]; intros f; by apply timer_full).
  assert (full_quanta (with_current SchedulerCpuContext_default (Some 0))) as Hf0 by (intros i t Hi; cbn in Hi; by rewrite lookup_empty in Hi).
  remember {| ctx := with_current SchedulerCpuContext_default (Some 0); counter := n; sent := []; kernel_runs := true |} as s0 eqn:Hs0.
  assert (full_quanta (ctx s0) /\ current_thread (ctx s0) = Some 0) as Hp by (subst s0; done). clear Hs0 Hf0.
  induction Hs as [s|s1 s2 s3 H12 _ IH]; [done|]. destruct Hp as [Hf Hc]. apply IH. destruct (quiet_keeps _ _ Hti H12 Hf). split; [done|congruence].
Qed.
End runs.

(** ** [switch_task] *)
Section switching.
(** Entries of the queue that are skipped *)
Definition stale (c : SchedulerCpuContext) (i : Z) : Prop :=
  match thread_map c !! i with Some t => killed (tstate t) = true | None => True end.
Lemma switch_loop_skips q1 : forall c sent i t q2, NoDup (q1 ++ i :: q2) -> Forall (stale c) q1 -> thread_map c !! i = Some t ->
  killed (tstate t) = false -> exists m,
  switch_loop (q1 ++ i :: q2) c sent =
    Ok (t, with_current (with_queue (with_map c m) q2) (Some i),
        sent ++ omap (fun j => (fun t => frames (tstate t)) <$> thread_map c !! j) q1) /\
  (forall j, j ∈ q1 -> m !! j = None) /\ (forall j, j ∉ q1 -> m !! j = thread_map c !! j).
Proof.
  induction q1 as [|k q1 IH]; intros c sent i t q2 Hnd Hst Hi Hk; cbn [app switch_loop].
  - exists (thread_map c). rewrite Hi, Hk, app_nil_r. split_and!; [by destruct c|by intros j ?%elem_of_nil|done].
  - apply Forall_cons_1 in Hst as [Hsk Hst]. cbn in Hnd. apply NoDup_cons in Hnd as [Hni Hnd].
    assert (k <> i) as Hki by (intros ->; apply Hni; set_solver). unfold stale in Hsk. destruct (thread_map c !! k) as [tk|] eqn:Hm.
    + rewrite Hsk. destruct (IH (with_map c (delete k (thread_map c))) (drop_thread (Some tk) sent) i t q2 Hnd) as (m & Hr & Hin & Hout);
        [|cbn; by rewrite lookup_delete_ne|done|].
      { eapply Forall_impl; [exact Hst|]. intros j Hj. unfold stale in *. cbn. destruct (decide (j = k)) as [->|];
          [by rewrite lookup_delete_eq|by rewrite lookup_delete_ne]. }
      exists m. rewrite Hr. cbn [omap list_omap]. rewrite Hm. cbn [fmap option_fmap option_map drop_thread with_map thread_map]. split_and!.
      * f_equal. f_equal. rewrite <- app_assoc. cbn. do 2 f_equal. apply list_omap_ext. apply Forall2_same_length_lookup_2; [done|].
        intros l x y Hx Hy. simplify_eq. rewrite lookup_delete_ne; [done|]. intros ->. apply Hni. apply elem_of_app. left. by eapply list_elem_of_lookup_2.
      * intros j [->|Hj]%elem_of_cons; [|by apply Hin]. destruct (decide (k ∈ q1)); [by apply Hin|]. rewrite Hout by done. apply lookup_delete_eq.
      * intros j [Hjk Hj]%not_elem_of_cons. rewrite Hout by done. by apply lookup_delete_ne.
    + destruct (IH c sent i t q2 Hnd Hst Hi Hk) as (m & Hr & Hin & Hout). exists m. rewrite Hr. cbn [omap list_omap]. rewrite Hm. split_and!; [done| |].
      * intros j [->|Hj]%elem_of_cons; [|by apply Hin]. destruct (decide (k ∈ q1)); [by apply Hin|]. by rewrite Hout.
      * intros j [Hjk Hj]%not_elem_of_cons. by apply Hout.
Qed.
(** [switch_task] runs the first live thread of the queue: the threads
    before it that are marked as killed are removed and their frames sent to be
    freed, in order; entries without a thread are dropped; all other threads
    stay. *)
Lemma switch_task_first_live c sent q1 i t q2 : thread_queue c = q1 ++ i :: q2 -> NoDup (thread_queue c) -> Forall (stale c) q1 ->
  thread_map c !! i = Some t -> killed (tstate t) = false -> exists m,
  switch_task c sent = Ok (t, with_current (with_queue (with_map c m) q2) (Some i),
        sent ++ omap (fun j => (fun t => frames (tstate t)) <$> thread_map c !! j) q1) /\
  (forall j, j ∈ q1 -> m !! j = None) /\ (forall j, j ∉ q1 -> m !! j = thread_map c !! j).
Proof. intros Hq Hnd Hst Hi Hk. unfold switch_task. rewrite Hq in *. by apply switch_loop_skips. Qed.
End switching.

(** ** Samples *)
#[local] Existing Instance dev_build.
Module Sample.
Definition virt_addr (a : Z) : res never Z := if (a <? 2 ^ 47) || (2 ^ 64 - 2 ^ 47 <=? a) then Ok a else Panic.
Definition selectors : Selectors :=
  {| kernel_code_selector := 8; kernel_data_selector := 16; user_code_selector := 27; user_data_selector := 35; tss_selector := 40 |}.
Definition thread (sp fr : Z) : Thread :=
  {| id := 0; privilage_level := User; time_left := DEFAULT_TICKS_PER_THREAD;
     tstate := {| killed := false; registers := GPRegisterState_default; stack_pointer := sp; thread_local_segment := 0;
                  page_table_pointer := 0x5000; state := Paused 0x401000 0x202; frames := [fr] |} |}.
Definition kernel_ctx : SchedulerCpuContext := with_current SchedulerCpuContext_default (Some 0).
Lemma kernel_loads : exists o, load_kernel_thread virt_addr selectors (2 ^ 64 - 4096) 0x1000 0 0x202 SchedulerCpuContext_default = Ok (o, kernel_ctx).
Proof. by eexists. Qed.
(** Threads 1 and 2 have been spawned; thread 1 is running. *)
Definition spawned (c : SchedulerCpuContext) (n : Z) : Cpu :=
  let '(c', n', l') := spawn_thread (thread 0x7000 (8192 * n)) c n [] in {| ctx := c'; counter := n'; sent := l'; kernel_runs := true |}.
Definition one : Cpu := spawned kernel_ctx 1.
Definition two : Cpu := spawned (ctx one) 2.
Lemma thread_new sp fr : new_thread (thread sp fr).
Proof. by split_and!. Qed.
Definition running : SchedulerCpuContext := with_current (with_queue (ctx two) [2]) (Some 1).
Lemma two_ok : sched_ok (ctx two) 3.
Proof.
  destruct (spawn_ok kernel_ctx 1 [] (thread 0x7000 8192) (kernel_loaded_ok 1 ltac:(lia)) (thread_new _ _) ltac:(lia)) as (Hone & _).
  by destruct (spawn_ok (ctx one) 2 [] (thread 0x7000 16384) Hone (thread_new _ _) ltac:(lia)) as (? & _).
Qed.
Lemma running_ok : sched_ok running 3.
Proof. by destruct (resume_next_ok selectors (ctx two) 3 1 [2] two_ok eq_refl) as (_ & _ & _ & _ & ?). Qed.
Definition call (rax : Z) : SyscallFrame := frame_of_regs (set_rax GPRegisterState_default rax) 0x6ff0.
Definition killed_ctx : SchedulerCpuContext := with_current (with_queue (with_map running
  (<[1 := with_state (with_id (thread 0x7000 8192) 1) (regs_of_syscall (call 0x3c)) 0x6ff0 Waiting]> (thread_map running))) []) (Some 2).
Lemma kill_runs : exists o, syscall_handler virt_addr selectors (call 0x3c) running = Ok (o, killed_ctx).
Proof. eexists. vm_compute. reflexivity. Qed.
Lemma lookup_one : exists t, thread_map running !! 1 = Some t /\ frames (tstate t) = [8192].
Proof. eexists. split; vm_compute; reflexivity. Qed.
End Sample.

Lemma timer_never_switches_witness : current_thread (ctx Sample.one) = Some 0.
Proof.
  destruct Sample.kernel_loads as [o Ho].
  apply (timer_never_switches Sample.virt_addr Sample.selectors 1000 _ _ _ _ o _ 1 Sample.one ltac:(lia) Ho).
  eapply rtc_l; [|apply rtc_refl]. exists (Spawn (Sample.thread 0x7000 8192)). split; [done|]. apply step_spawn; [apply Sample.thread_new|done|reflexivity].
Defined.
Lemma syscalls_take_turns_witness : exists os c',
  syscalls Sample.virt_addr Sample.selectors [Sample.call 7; Sample.call 8] Sample.running =
    Ok (os ++ [ResumeSyscall 0 (Sample.call (2 ^ 64 - 0x2d)) 0x5000], c') /\ current_thread c' = Some 1.
Proof.
  destruct (syscalls_take_turns Sample.virt_addr Sample.selectors Sample.running 3 1 (with_id (Sample.thread 0x7000 8192) 1)
    (Sample.call 7) [Sample.call 8] Sample.running_ok) as (os & c' & Hs & Hc & _); [done|vm_compute; reflexivity| |done|].
  - repeat constructor; done.
  - exists os, c'. split; [exact Hs|exact Hc].
Defined.
Lemma ended_thread_leaks_witness : (1 ∉ thread_queue Sample.killed_ctx) /\
  exists t, thread_map Sample.killed_ctx !! 1 = Some t /\ frames (tstate t) = [8192].
Proof.
  destruct Sample.kill_runs as [o Ho], Sample.lookup_one as (t & Ht & Hfr).
  destruct (ended_thread_leaks Sample.virt_addr Sample.selectors 1000 {| ctx := Sample.running; counter := 3; sent := []; kernel_runs := false |} 1 t
    (Sample.call 0x3c) o Sample.killed_ctx {| ctx := Sample.killed_ctx; counter := 3; sent := []; kernel_runs := false |}) as (_ & Hq & (t' & Hm & Hf) & _);
    [lia|exact Sample.running_ok|reflexivity|exact Ht|reflexivity|exact Ho|apply rtc_refl|].
  split; [exact Hq|]. exists t'. split; [exact Hm|]. by rewrite Hf, Hfr.
Defined.
