(* ===== verification/Entry.v ===== *)
(** * Entering and leaving the kernel

    The assembly of src/kernel/src/arch/x86_64/scheduler/syscall_no_comment.s
    (syscall.s is the same text with comments) and of the interrupt wrappers of
    handlers/mod.rs, with what they rely on: the segments of gdt.rs, and
    [enable_syscalls] and [set_per_cpu_data_for_core] of scheduler/syscall.rs.

    A [machine] is what the assembly can see of a processor, and an assembly
    text a list of instructions that [exec] runs.  All jumps are forward, to a
    label further down the text.  Of the arithmetic flags only the zero flag is
    kept, apart from [rflags], which is what an interrupt saves.  Memory is
    addressed as the kernel half of every page table maps it; the assembly
    touches kernel stacks and the data of the processor only. *)

From stdpp Require Import gmap.
From S2P Require Import Prelude Bytes Vfs Scheduler.

(** ** The processor *)
Inductive reg := RAX | RBX | RCX | RDX | RSI | RDI | RBP | RSP | R8 | R9 | R10 | R11 | R12 | R13 | R14 | R15.
#[export] Instance reg_eq_dec : EqDecision reg.
Proof. solve_decision. Defined.
(** An entry of the table of segments: its kind and, for code and data, the
    privilege level it is for.  A descriptor of a task segment has two. *)
Inductive Slot := NullSlot | CodeSlot (dpl : Z) | DataSlot (dpl : Z) | SystemSlot.
Record machine := {
  regs : reg -> Z;
  rip : Z;
  rflags : Z;
  zf : bool;
  cs : Z;
  ss : Z;
  cr3 : Z;
  (* GS_BASE and KERNEL_GS_BASE *)
  gs_base : Z;
  kernel_gs_base : Z;
  (* model-specific registers of the system call instructions *)
  STAR : Z;
  LSTAR : Z;
  FMASK : Z;
  EFER : Z;
  gdtr : list Slot;
  tr : Z;
  ram : Z -> Z;
  (* bytes sent to ports *)
  ports : list (Z * Z);
}.
Definition put_reg (f : reg -> Z) (r : reg) (v : Z) : reg -> Z := fun r' => if bool_decide (r' = r) then v else f r'.
(** Quadwords in memory, low byte first *)
Definition rd64 (ram : Z -> Z) (a : Z) : Z := le_num ((fun i => ram (a + i)) <$> seqZ 0 8).
Definition wr64 (ram : Z -> Z) (a v : Z) : Z -> Z := fun x =>
  if (a <=? x) && (x <? a + 8) then default 0 (le_bytes 8 v !! Z.to_nat (x - a)) else ram x.

Definition with_regs (m : machine) (f : reg -> Z) : machine :=
  {| regs := f; rip := rip m; rflags := rflags m; zf := zf m; cs := cs m; ss := ss m; cr3 := cr3 m; gs_base := gs_base m;
     kernel_gs_base := kernel_gs_base m; STAR := STAR m; LSTAR := LSTAR m; FMASK := FMASK m; EFER := EFER m; gdtr := gdtr m; tr := tr m;
     ram := ram m; ports := ports m |}.
Definition with_ram (m : machine) (f : Z -> Z) : machine :=
  {| regs := regs m; rip := rip m; rflags := rflags m; zf := zf m; cs := cs m; ss := ss m; cr3 := cr3 m; gs_base := gs_base m;
     kernel_gs_base := kernel_gs_base m; STAR := STAR m; LSTAR := LSTAR m; FMASK := FMASK m; EFER := EFER m; gdtr := gdtr m; tr := tr m;
     ram := f; ports := ports m |}.
Definition with_zf (m : machine) (b : bool) : machine :=
  {| regs := regs m; rip := rip m; rflags := rflags m; zf := b; cs := cs m; ss := ss m; cr3 := cr3 m; gs_base := gs_base m;
     kernel_gs_base := kernel_gs_base m; STAR := STAR m; LSTAR := LSTAR m; FMASK := FMASK m; EFER := EFER m; gdtr := gdtr m; tr := tr m;
     ram := ram m; ports := ports m |}.
Definition with_gs (m : machine) (g k : Z) : machine :=
  {| regs := regs m; rip := rip m; rflags := rflags m; zf := zf m; cs := cs m; ss := ss m; cr3 := cr3 m; gs_base := g;
     kernel_gs_base := k; STAR := STAR m; LSTAR := LSTAR m; FMASK := FMASK m; EFER := EFER m; gdtr := gdtr m; tr := tr m;
     ram := ram m; ports := ports m |}.
Definition with_cr3 (m : machine) (v : Z) : machine :=
  {| regs := regs m; rip := rip m; rflags := rflags m; zf := zf m; cs := cs m; ss := ss m; cr3 := v; gs_base := gs_base m;
     kernel_gs_base := kernel_gs_base m; STAR := STAR m; LSTAR := LSTAR m; FMASK := FMASK m; EFER := EFER m; gdtr := gdtr m; tr := tr m;
     ram := ram m; ports := ports m |}.
Definition with_ports (m : machine) (l : list (Z * Z)) : machine :=
  {| regs := regs m; rip := rip m; rflags := rflags m; zf := zf m; cs := cs m; ss := ss m; cr3 := cr3 m; gs_base := gs_base m;
     kernel_gs_base := kernel_gs_base m; STAR := STAR m; LSTAR := LSTAR m; FMASK := FMASK m; EFER := EFER m; gdtr := gdtr m; tr := tr m;
     ram := ram m; ports := l |}.
(** Where the processor goes on, with which flags, code and stack segment *)
Definition goto (m : machine) (ip fl c s : Z) : machine :=
  {| regs := regs m; rip := ip; rflags := fl; zf := zf m; cs := c; ss := s; cr3 := cr3 m; gs_base := gs_base m;
     kernel_gs_base := kernel_gs_base m; STAR := STAR m; LSTAR := LSTAR m; FMASK := FMASK m; EFER := EFER m; gdtr := gdtr m; tr := tr m;
     ram := ram m; ports := ports m |}.

Definition set_reg (r : reg) (v : Z) (m : machine) : machine := with_regs m (put_reg (regs m) r v).
Definition push (v : Z) (m : machine) : machine :=
  let sp := wrap 64 (regs m RSP - 8) in with_ram (set_reg RSP sp m) (wr64 (ram m) sp v).
Definition pop (r : reg) (m : machine) : machine :=
  let sp := regs m RSP in set_reg r (rd64 (ram m) sp) (set_reg RSP (wrap 64 (sp + 8)) m).
Definition swapgs (m : machine) : machine := with_gs m (kernel_gs_base m) (gs_base m).

(** ** Instructions *)
Inductive instr :=
| PUSH (r : reg) | POP (r : reg)
| PUSH_MEM (b : reg) (off : Z)      (* push qword ptr [b + off] *)
| PUSH_GS (off : Z)                 (* push qword ptr gs:[off] *)
| MOV (d s : reg)                   (* mov d, s *)
| LOAD (d b : reg) (off : Z)        (* mov d, qword ptr [b + off] *)
| LOAD_GS (d : reg) (off : Z)       (* mov d, gs:[off] *)
| STORE_GS (off : Z) (s : reg)      (* mov gs:[off], s *)
| MOV_CR3 (s : reg)                 (* mov cr3, s *)
| ADD (d : reg) (k : Z)             (* add d, k *)
| MOV_AL (k : Z)                    (* mov al, k *)
| OUT_AL (port : Z)                 (* out port, al *)
| TEST_AL (k : Z)                   (* test al, k *)
| CMP (r : reg) (k : Z)             (* cmp r, k *)
| JZ (l : Z) | JNE (l : Z) | LABEL (l : Z)
| SWAPGS | CALL | SYSRETQ | IRETQ.

Definition at_ (m : machine) (b : reg) (off : Z) : Z := wrap 64 (regs m b + off).
Definition step (i : instr) (m : machine) : machine :=
  match i with
  | PUSH r => push (regs m r) m
  | POP r => pop r m
  | PUSH_MEM b off => push (rd64 (ram m) (at_ m b off)) m
  | PUSH_GS off => push (rd64 (ram m) (wrap 64 (gs_base m + off))) m
  | MOV d s => set_reg d (regs m s) m
  | LOAD d b off => set_reg d (rd64 (ram m) (at_ m b off)) m
  | LOAD_GS d off => set_reg d (rd64 (ram m) (wrap 64 (gs_base m + off))) m
  | STORE_GS off s => with_ram m (wr64 (ram m) (wrap 64 (gs_base m + off)) (regs m s))
  | MOV_CR3 s => with_cr3 m (regs m s)
  | ADD d k => let v := wrap 64 (regs m d + k) in with_zf (set_reg d v m) (v =? 0)
  | MOV_AL k => set_reg RAX (regs m RAX - regs m RAX mod 256 + k) m
  | OUT_AL port => with_ports m (ports m ++ [(port, regs m RAX mod 256)])
  | TEST_AL k => with_zf m (Z.land (regs m RAX mod 256) k =? 0)
  | CMP r k => with_zf m (regs m r =? k)
  | SWAPGS => swapgs m
  | _ => m
  end.

(** [iretq] refuses a code selector that does not name a code segment of its
    own level, and a stack selector that does not name data of that level; a
    null stack selector is refused in user mode only. *)
Definition slot_at (t : list Slot) (sel : Z) : Slot := default NullSlot (t !! Z.to_nat (sel / 8)).
Definition code_ok (t : list Slot) (c : Z) : bool := match slot_at t c with CodeSlot d => d =? c mod 4 | _ => false end.
Definition stack_ok (t : list Slot) (c s : Z) : bool :=
  if s / 4 =? 0 then negb (c mod 4 =? 3)
  else (s mod 4 =? c mod 4) && match slot_at t s with DataSlot d => d =? c mod 4 | _ => false end.
Definition iret_ok (t : list Slot) (c s : Z) : bool := code_ok t c && stack_ok t c s.
Definition sysret_flags : Z := 0x3C7FD7.
Definition sysretq (m : machine) : machine :=
  let base := Z.shiftr (STAR m) 48 in
  goto m (regs m RCX) (Z.lor (Z.land (regs m R11) sysret_flags) 2) (Z.lor (wrap 16 (base + 16)) 3) (Z.lor (wrap 16 (base + 8)) 3).

(** How a text ends: at a call of the handler, with what follows it; after the
    instruction that leaves the kernel; with that instruction refused; at the
    end of the text. *)
Inductive stop := Calls (m : machine) (rest : list instr) | Leaves (m : machine) | Faults (m : machine) | Falls (m : machine).
Definition iretq (m : machine) : stop :=
  let sp := regs m RSP in
  let word i := rd64 (ram m) (wrap 64 (sp + 8 * i)) in
  if iret_ok (gdtr m) (word 1) (word 4) then Leaves (set_reg RSP (word 3) (goto m (word 0) (word 2) (word 1) (word 4)))
  else Faults m.
Fixpoint exec (skip : option Z) (text : list instr) (m : machine) : stop :=
  match text with
  | [] => Falls m
  | i :: text =>
      match skip, i with
      | Some l, LABEL l' => exec (if l =? l' then None else skip) text m
      | Some l, _ => exec skip text m
      | None, JZ l => exec (if zf m then Some l else None) text m
      | None, JNE l => exec (if zf m then None else Some l) text m
      | None, CALL => Calls m text
      | None, SYSRETQ => Leaves (sysretq m)
      | None, IRETQ => iretq m
      | None, _ => exec None text (step i m)
      end
  end.

(** What the processor does on its own: the [syscall] instruction, with [rip]
    after it, and the delivery of an interrupt, on the stack of the interrupt
    table of the task segment if the gate names one, on [rsp0] from user mode,
    and else on the stack in use *)
Definition syscall (m : machine) : machine :=
  let base := wrap 16 (Z.shiftr (STAR m) 32) in
  goto (set_reg R11 (rflags m) (set_reg RCX (rip m) m)) (LSTAR m) (Z.ldiff (rflags m) (FMASK m)) (Z.ldiff base 3) (base + 8).
(** TF, IF, NT, RF and VM *)
Definition gate_flags : Z := 0x34300.
Definition user_mode (m : machine) : bool := cs m mod 4 =? 3.
Definition interrupt_stack (rsp0 : Z) (ist : option Z) (m : machine) : Z :=
  let sp := match ist with Some top => top | None => if user_mode m then rsp0 else regs m RSP end in
  sp - sp mod 16.
Definition deliver (gate_cs handler rsp0 : Z) (ist err : option Z) (m : machine) : machine :=
  let m1 := set_reg RSP (interrupt_stack rsp0 ist m) m in
  let m1 := push (rip m) (push (cs m) (push (rflags m) (push (regs m RSP) (push (ss m) m1)))) in
  let m1 := match err with Some e => push e m1 | None => m1 end in
  goto m1 handler (Z.ldiff (rflags m) gate_flags) gate_cs (if user_mode m then 0 else ss m).

(** ** The texts *)
(** [handler_wrapper_noerrcode!] *)
Definition handler_wrapper_noerrcode : list instr :=
  [PUSH RAX; LOAD RAX RSP 16; TEST_AL 3;
   JZ 1; SWAPGS;
   LABEL 1; POP RAX;
   PUSH R15; PUSH R14; PUSH R13; PUSH R12; PUSH R11; PUSH R10; PUSH R9; PUSH R8; PUSH RBP; PUSH RSI; PUSH RDI; PUSH RDX;
   PUSH RCX; PUSH RBX; PUSH RAX;
   MOV RDI RSP; CALL;
   POP RAX; POP RBX; POP RCX; POP RDX; POP RDI; POP RSI; POP RBP; POP R8; POP R9; POP R10; POP R11; POP R12; POP R13;
   POP R14; POP R15;
   PUSH RAX; LOAD RAX RSP 16; TEST_AL 3;
   JZ 2; SWAPGS;
   LABEL 2; POP RAX;
   IRETQ].
(** [handler_wrapper_errcode!] *)
Definition handler_wrapper_errcode : list instr :=
  [PUSH RAX; LOAD RAX RSP 24; TEST_AL 3;
   JZ 1; SWAPGS;
   LABEL 1; POP RAX;
   PUSH R15; PUSH R14; PUSH R13; PUSH R12; PUSH R11; PUSH R10; PUSH R9; PUSH R8; PUSH RBP; PUSH RSI; PUSH RDI; PUSH RDX;
   PUSH RCX; PUSH RBX; PUSH RAX;
   MOV RDI RSP; CALL;
   POP RAX; POP RBX; POP RCX; POP RDX; POP RDI; POP RSI; POP RBP; POP R8; POP R9; POP R10; POP R11; POP R12; POP R13;
   POP R14; POP R15;
   PUSH RAX; LOAD RAX RSP 24; TEST_AL 3;
   JZ 2; SWAPGS;
   LABEL 2; POP RAX;
   ADD RSP 8;
   IRETQ].
(** The three entry points of syscall_no_comment.s; the first is followed by
    the second in memory, but the handler it calls does not return. *)
Definition resume_thread_from_syscall : list instr :=
  [MOV RAX RSI; MOV_CR3 RAX;
   LOAD R15 RDI 0; LOAD R14 RDI 0x8; LOAD R13 RDI 0x10; LOAD R12 RDI 0x18; LOAD R11 RDI 0x20; LOAD R10 RDI 0x28;
   LOAD R9 RDI 0x30; LOAD R8 RDI 0x38; LOAD RSI RDI 0x48; LOAD RDX RDI 0x50; LOAD RCX RDI 0x58; LOAD RBX RDI 0x60;
   LOAD RAX RDI 0x68; LOAD RBP RDI 0x70; LOAD RSP RDI 0x78; LOAD RDI RDI 0x40;
   SWAPGS; SYSRETQ].
Definition syscall_handler_wrapper : list instr :=
  [SWAPGS; STORE_GS 0x10 RSP; LOAD_GS RSP 0x8;
   PUSH_GS 0x10; PUSH RBP; PUSH RAX; PUSH RBX; PUSH RCX; PUSH RDX; PUSH RSI; PUSH RDI; PUSH R8; PUSH R9; PUSH R10; PUSH R11;
   PUSH R12; PUSH R13; PUSH R14; PUSH R15;
   MOV RDI RSP; CALL] ++ resume_thread_from_syscall.
Definition resume_paused_thread : list instr :=
  [MOV RAX RSI; MOV_CR3 RAX;
   CMP RCX 0; JNE 1; SWAPGS;
   LABEL 1;
   PUSH_MEM RDX 0; PUSH_MEM RDX 0x8; PUSH_MEM RDX 0x10; PUSH_MEM RDX 0x18; PUSH_MEM RDX 0x20;
   LOAD R15 RDI 0; LOAD R14 RDI 0x8; LOAD R13 RDI 0x10; LOAD R12 RDI 0x18; LOAD R11 RDI 0x20; LOAD R10 RDI 0x28;
   LOAD R9 RDI 0x30; LOAD R8 RDI 0x38; LOAD RSI RDI 0x48; LOAD RDX RDI 0x50; LOAD RCX RDI 0x58; LOAD RBX RDI 0x60;
   LOAD RAX RDI 0x68; LOAD RBP RDI 0x70; LOAD RDI RDI 0x40;
   PUSH RAX; MOV_AL 0x20; OUT_AL 0x20; POP RAX;
   IRETQ].

(** ** The structures the handlers are given, as they lie in memory *)
Definition syscall_frame_at (ram : Z -> Z) (a : Z) : SyscallFrame :=
  let w i := rd64 ram (a + 8 * i) in
  {| sf_r15 := w 0; sf_r14 := w 1; sf_r13 := w 2; sf_r12 := w 3; sf_r11 := w 4; sf_r10 := w 5; sf_r9 := w 6; sf_r8 := w 7;
     sf_rdi := w 8; sf_rsi := w 9; sf_rdx := w 10; sf_rcx := w 11; sf_rbx := w 12; sf_rax := w 13; sf_rbp := w 14; sf_rsp := w 15 |}.
Definition long_return_frame_at (ram : Z -> Z) (a : Z) : LongReturnFrame :=
  let w i := rd64 ram (a + 8 * i) in
  {| lr_ss := w 0; lr_rsp := w 1; lr_rflags := w 2; lr_cs := w 3; lr_rip := w 4 |}.
Definition interrupt_noerrcode_frame_at (ram : Z -> Z) (a : Z) : InterruptNoErrcodeFrame :=
  let w i := rd64 ram (a + 8 * i) in
  {| if_rax := w 0; if_rbx := w 1; if_rcx := w 2; if_rdx := w 3; if_rdi := w 4; if_rsi := w 5; if_rbp := w 6; if_r8 := w 7;
     if_r9 := w 8; if_r10 := w 9; if_r11 := w 10; if_r12 := w 11; if_r13 := w 12; if_r14 := w 13; if_r15 := w 14;
     if_rip := w 15; if_cs := w 16; if_rflags := w 17; if_rsp := w 18; if_ss := w 19 |}.
(** [InterruptErrcodeFrame] has the error code below the instruction pointer. *)
Record InterruptErrcodeFrame := { err_code : Z; interrupted : InterruptNoErrcodeFrame }.
Definition interrupt_errcode_frame_at (ram : Z -> Z) (a : Z) : InterruptErrcodeFrame :=
  let w i := rd64 ram (a + 8 * i) in
  {| err_code := w 15;
     interrupted :=
       {| if_rax := w 0; if_rbx := w 1; if_rcx := w 2; if_rdx := w 3; if_rdi := w 4; if_rsi := w 5; if_rbp := w 6; if_r8 := w 7;
          if_r9 := w 8; if_r10 := w 9; if_r11 := w 10; if_r12 := w 11; if_r13 := w 12; if_r14 := w 13; if_r15 := w 14;
          if_rip := w 16; if_cs := w 17; if_rflags := w 18; if_rsp := w 19; if_ss := w 20 |} |}.

(** ** Segments *)
(** The descriptors of the x86_64 crate, and its table: [append] adds a
    descriptor and returns its selector, and panics when the table is full. *)
Inductive Descriptor := kernel_code_segment | kernel_data_segment | user_code_segment | user_data_segment | tss_segment (tss : Z).
Class GdtCrate := {
  GlobalDescriptorTable : Type;
  gdt_new : GlobalDescriptorTable;
  append : GlobalDescriptorTable -> Descriptor -> option (GlobalDescriptorTable * Z);
  slots : GlobalDescriptorTable -> list Slot;
}.
Definition slots_of (d : Descriptor) : list Slot :=
  match d with
  | kernel_code_segment => [CodeSlot 0] | kernel_data_segment => [DataSlot 0]
  | user_code_segment => [CodeSlot 3] | user_data_segment => [DataSlot 3]
  | tss_segment _ => [SystemSlot; SystemSlot]
  end.
Definition dpl (d : Descriptor) : Z := match d with user_code_segment | user_data_segment => 3 | _ => 0 end.
(** A table has eight entries, the first of which is null. *)
Class GdtLaws `{GdtCrate} := {
  slots_new : slots gdt_new = [NullSlot];
  append_ok g d : zlen (slots g ++ slots_of d) <= 8 -> exists g',
    append g d = Some (g', 8 * zlen (slots g) + dpl d) /\ slots g' = slots g ++ slots_of d;
}.

Section segments.
Context `{GdtCrate}.
Definition create_gdt (tss : Z) : res never (GlobalDescriptorTable * Selectors) :=
  let gdt := gdt_new in
  '(gdt, kernel_code) ← expect (append gdt kernel_code_segment);
  '(gdt, kernel_data) ← expect (append gdt kernel_data_segment);
  '(gdt, user_code) ← expect (append gdt user_code_segment);
  '(gdt, user_data) ← expect (append gdt user_data_segment);
  '(gdt, tss_sel) ← expect (append gdt (tss_segment tss));
  Ok (gdt, {| kernel_code_selector := kernel_code; kernel_data_selector := kernel_data; user_code_selector := user_code;
              user_data_selector := user_data; tss_selector := tss_sel |}).
Definition load_gdt (gdt : GlobalDescriptorTable) (s : Selectors) (m : machine) : machine :=
  {| regs := regs m; rip := rip m; rflags := rflags m; zf := zf m; cs := kernel_code_selector s; ss := kernel_data_selector s; cr3 := cr3 m;
     gs_base := gs_base m; kernel_gs_base := kernel_gs_base m; STAR := STAR m; LSTAR := LSTAR m; FMASK := FMASK m; EFER := EFER m;
     gdtr := slots gdt; tr := tss_selector s; ram := ram m; ports := ports m |}.
End segments.

(** ** System calls and the data of the processor *)
(** [entry] is the address of [syscall_handler_wrapper]. *)
Definition enable_syscalls (entry : Z) (s : Selectors) (m : machine) : machine :=
  (* interrupt, direction, alignment check and trap flags *)
  let mask := Z.lor (Z.lor (Z.lor 0x200 0x400) 0x40000) 0x100 in
  {| regs := regs m; rip := rip m; rflags := rflags m; zf := zf m; cs := cs m; ss := ss m; cr3 := cr3 m; gs_base := gs_base m;
     kernel_gs_base := kernel_gs_base m;
     STAR := Z.lor (Z.shiftl (kernel_code_selector s) 32) (Z.shiftl (user_code_selector s) 48);
     LSTAR := entry; FMASK := mask;
     (* NO_EXECUTE_ENABLE and SYSTEM_CALL_EXTENSIONS *)
     EFER := setbit (setbit (EFER m) 11) 0;
     gdtr := gdtr m; tr := tr m; ram := ram m; ports := ports m |}.
(** [id_register] is the id register of the local APIC of the processor. *)
Definition set_per_cpu_data_for_core (pointers : gmap Z Z) (id_register : Z) (m : machine) : res never machine :=
  let id := Z.land (Z.shiftr id_register 24) 0xFF in
  ptr ← expect (pointers !! id);
  Ok (swapgs (with_gs m (gs_base m) ptr)).
(** [get_per_cpu_data!] reads the base of [gs]. *)
Definition get_per_cpu_data (m : machine) : Z := gs_base m.

(** ** Memory and the stack *)
Definition u64 (v : Z) : Prop := 0 <= v < 2 ^ 64.
Lemma rd64_ext f g a : (forall x, a <= x < a + 8 -> f x = g x) -> rd64 f a = rd64 g a.
Proof. intros He. unfold rd64. f_equal. apply list_fmap_ext. intros k i Hi. apply He. apply lookup_seqZ in Hi. lia. Qed.
Lemma rd_wr f a v : u64 v -> rd64 (wr64 f a v) a = v.
Proof.
  intros Hv. rewrite <- (le_num_bytes 8 v) at 2; [|exact Hv]. unfold rd64. f_equal.
  apply list_eq_same_length with 8%nat; [by rewrite length_le_bytes|by rewrite length_fmap, length_seqZ|].
  intros i x y Hi Hx Hy. apply list_lookup_fmap_Some in Hx as (j & -> & Hx). apply lookup_seqZ in Hx as [-> Hx]. unfold wr64.
  btrue ((a <=? a + (0 + Z.of_nat i)) && (a + (0 + Z.of_nat i) <? a + 8)). replace (Z.to_nat _) with i by lia. by rewrite Hy.
Qed.
Lemma rd_wr_ne f a v b : b + 8 <= a \/ a + 8 <= b -> rd64 (wr64 f a v) b = rd64 f b.
Proof. intros Hb. apply rd64_ext. intros x Hx. unfold wr64. bcase; done. Qed.
Lemma rd64_u64 f a : (forall x, is_byte (f x)) -> u64 (rd64 f a).
Proof.
  intros Hf. unfold rd64, u64. change (2 ^ 64) with (256 ^ Z.of_nat (length ((fun i => f (a + i)) <$> seqZ 0 8))). apply le_num_range.
  apply Forall_fmap, Forall_forall. intros i _. apply Hf.
Qed.
(** Memory is the same outside of [lo, hi). *)
Definition kept (lo hi : Z) (f g : Z -> Z) : Prop := forall x, x < lo \/ hi <= x -> g x = f x.
Lemma kept_rd lo hi f g a : kept lo hi f g -> a + 8 <= lo \/ hi <= a -> rd64 g a = rd64 f a.
Proof. intros Hk Ha. apply rd64_ext. intros x Hx. apply Hk. lia. Qed.
Fixpoint words (f : Z -> Z) (a : Z) (n : nat) : list Z :=
  match n with O => [] | S n => rd64 f a :: words f (a + 8) n end.
Lemma words_app f n k : forall a, words f a (n + k) = words f a n ++ words f (a + 8 * Z.of_nat n) k.
Proof.
  induction n as [|n IH]; intros a; [by rewrite Z.add_0_r|]. cbn. rewrite IH. do 3 f_equal. lia.
Qed.
Lemma words_kept lo hi f g n : forall a, kept lo hi f g -> a + 8 * Z.of_nat n <= lo \/ hi <= a -> words g a n = words f a n.
Proof.
  induction n as [|n IH]; intros a Hk Ha; [done|]. cbn. rewrite IH, (kept_rd lo hi f g) by (done || lia). done.
Qed.
Lemma words_lookup f n i v : forall a, words f a n !! i = Some v -> rd64 f (a + 8 * Z.of_nat i) = v.
Proof.
  revert i. induction n as [|n IH]; intros i a Hi; [done|]. destruct i as [|i]; cbn in Hi.
  - rewrite Z.add_0_r. by injection Hi.
  - apply IH in Hi. rewrite <- Hi. f_equal. lia.
Qed.
Lemma words_at f n a vs i v : words f a n = vs -> vs !! Z.to_nat i = Some v -> 0 <= i -> rd64 f (a + 8 * i) = v.
Proof. intros <- Hv Hi. apply words_lookup in Hv. by rewrite Z2Nat.id in Hv. Qed.

(** What a text that only moves data leaves alone *)
Definition env (m : machine) := (rip m, rflags m, cs m, ss m, cr3 m, (STAR m, LSTAR m, FMASK m, EFER m), gdtr m, tr m, ports m).
Definition gdtr_of_env (e : Z * Z * Z * Z * Z * (Z * Z * Z * Z) * list Slot * Z * list (Z * Z)) : list Slot := e.1.1.2.
Definition rflags_of_env (e : Z * Z * Z * Z * Z * (Z * Z * Z * Z) * list Slot * Z * list (Z * Z)) : Z := e.1.1.1.1.1.1.1.2.
Definition gs (m : machine) : Z * Z := (gs_base m, kernel_gs_base m).
Lemma put_reg_eq f r v : put_reg f r v r = v.
Proof. unfold put_reg. by rewrite bool_decide_eq_true_2. Qed.
Lemma put_reg_ne f r v r' : r' <> r -> put_reg f r v r' = f r'.
Proof. intros Hr. unfold put_reg. by rewrite bool_decide_eq_false_2. Qed.

Definition pushes (vs : list Z) (m : machine) : machine := foldl (fun m v => push v m) m vs.
Definition pops (rs : list reg) (m : machine) : machine := foldl (fun m r => pop r m) m rs.
Lemma push_spec v m : u64 v -> 8 <= regs m RSP < 2 ^ 64 ->
  regs (push v m) RSP = regs m RSP - 8 /\ (forall r, r <> RSP -> regs (push v m) r = regs m r) /\
  rd64 (ram (push v m)) (regs m RSP - 8) = v /\ kept (regs m RSP - 8) (regs m RSP) (ram m) (ram (push v m)).
Proof.
  intros Hv Hsp. unfold push. rewrite wrap_small by lia. cbn. split; [apply put_reg_eq|]. split; [intros r Hr; by apply put_reg_ne|].
  split; [by apply rd_wr|]. intros x Hx. unfold wr64. bcase; done.
Qed.
Lemma pushes_spec vs : forall m, Forall u64 vs -> 8 * zlen vs <= regs m RSP < 2 ^ 64 ->
  let m' := pushes vs m in let sp := regs m RSP - 8 * zlen vs in
  regs m' RSP = sp /\ (forall r, r <> RSP -> regs m' r = regs m r) /\ words (ram m') sp (length vs) = rev vs /\
  kept sp (regs m RSP) (ram m) (ram m') /\ env m' = env m /\ gs m' = gs m /\ zf m' = zf m.
Proof.
  induction vs as [|v vs IH]; intros m Hvs Hsp.
  { cbn. change (zlen (@nil Z)) with 0. split_and!; try done. lia. }
  apply Forall_cons in Hvs as [Hv Hvs]. rewrite zlen_cons in *. pose proof (zlen_nonneg vs) as Hl.
  destruct (push_spec v m Hv ltac:(lia)) as (S1 & R1 & W1 & K1). destruct (IH (push v m) Hvs ltac:(lia)) as (S2 & R2 & W2 & K2 & E2 & G2 & Z2).
  cbn [pushes foldl] in *. fold (pushes vs (push v m)) in *. rewrite S1 in *.
  replace (regs m RSP - 8 * (1 + zlen vs)) with (regs m RSP - 8 - 8 * zlen vs) by lia.
  split_and!; [done|intros r Hr; by rewrite R2, R1| | |by rewrite E2|by rewrite G2|by rewrite Z2].
  - cbn [length rev]. rewrite <- Nat.add_1_r, words_app, W2. f_equal. cbn [words]. f_equal. unfold zlen in *.
    replace (_ + 8 * Z.of_nat (length vs)) with (regs m RSP - 8) by lia. etrans; [|exact W1]. eapply kept_rd; [exact K2|]. lia.
  - intros x Hx. rewrite K2, K1 by lia. done.
Qed.
Lemma pop_spec r m : r <> RSP -> regs m RSP + 8 < 2 ^ 64 -> 0 <= regs m RSP ->
  regs (pop r m) RSP = regs m RSP + 8 /\ regs (pop r m) r = rd64 (ram m) (regs m RSP) /\
  (forall r', r' <> RSP -> r' <> r -> regs (pop r m) r' = regs m r') /\ ram (pop r m) = ram m.
Proof.
  intros Hr Hsp H0. unfold pop. rewrite wrap_small by lia. cbn. split_and!; [|by rewrite put_reg_eq| |done].
  - rewrite put_reg_ne by done. apply put_reg_eq.
  - intros r' H1 H2. by rewrite !put_reg_ne.
Qed.
Lemma pops_spec rs : forall m, RSP ∉ rs -> NoDup rs -> regs m RSP + 8 * zlen rs < 2 ^ 64 -> 0 <= regs m RSP ->
  let m' := pops rs m in
  regs m' RSP = regs m RSP + 8 * zlen rs /\ (regs m' <$> rs) = words (ram m) (regs m RSP) (length rs) /\
  (forall r, r <> RSP -> r ∉ rs -> regs m' r = regs m r) /\ ram m' = ram m /\ env m' = env m /\ gs m' = gs m.
Proof.
  induction rs as [|r rs IH]; intros m Hn Hd Hsp H0.
  { cbn. change (zlen (@nil reg)) with 0. split_and!; try done. lia. }
  apply not_elem_of_cons in Hn as [Hr Hn]. apply NoDup_cons in Hd as [Hf Hd]. rewrite zlen_cons in *. pose proof (zlen_nonneg rs) as Hl.
  destruct (pop_spec r m (not_eq_sym Hr) ltac:(lia) H0) as (S1 & V1 & R1 & M1).
  destruct (IH (pop r m) Hn Hd ltac:(lia) ltac:(lia)) as (S2 & V2 & R2 & M2 & E2 & G2). cbn [pops foldl] in *. fold (pops rs (pop r m)) in *.
  rewrite S1, M1 in *. split_and!; [lia| | |done|by rewrite E2|by rewrite G2].
  - cbn [fmap list_fmap words length]. rewrite V2. f_equal. rewrite R2 by done. done.
  - intros r' H1 H2. apply not_elem_of_cons in H2 as [H2 H3]. rewrite R2, R1 by done. done.
Qed.

(** ** Running the pieces of the texts *)
Lemma exec_pushes rs : forall m t, RSP ∉ rs -> Forall (fun r => u64 (regs m r)) rs -> 8 * zlen rs <= regs m RSP < 2 ^ 64 ->
  exec None ((PUSH <$> rs) ++ t) m = exec None t (pushes (regs m <$> rs) m).
Proof.
  induction rs as [|r rs IH]; intros m t Hn Hu Hsp; [done|]. apply not_elem_of_cons in Hn as [Hr Hn].
  apply Forall_cons in Hu as [Hu Hus]. rewrite zlen_cons in Hsp. pose proof (zlen_nonneg rs) as Hl.
  destruct (push_spec (regs m r) m Hu ltac:(lia)) as (S1 & R1 & _). cbn [fmap list_fmap app exec step pushes foldl].
  assert (regs (push (regs m r) m) <$> rs = (regs m <$> rs)) as He.
  { apply list_fmap_ext. intros i x Hx. apply R1. intros ->. by apply list_elem_of_lookup_2 in Hx. }
  rewrite IH; [by rewrite He|done| |lia]. rewrite Forall_forall in *. intros x Hx. rewrite R1; [by apply Hus|]. by intros ->.
Qed.
Lemma exec_pops rs : forall m t, exec None ((POP <$> rs) ++ t) m = exec None t (pops rs m).
Proof. induction rs as [|r rs IH]; intros m t; [done|]. cbn. by rewrite IH. Qed.

(** The test of the saved code selector: [gs] is swapped if it is not of the
    kernel. *)
Definition check (l off : Z) : list instr := [PUSH RAX; LOAD RAX RSP off; TEST_AL 3; JZ l; SWAPGS; LABEL l; POP RAX].
Lemma test_al c : (Z.land (c mod 256) 3 =? 0) = (c mod 4 =? 0).
Proof.
  change 3 with (Z.ones 2). rewrite Z.land_ones by lia. change (2 ^ 2) with 4. f_equal.
  change 256 with (4 * 64). rewrite Z.rem_mul_r by lia. rewrite Z.mul_comm, Z.mod_add by lia. apply Z.mod_mod. lia.
Qed.
Definition swapped (b : bool) (p : Z * Z) : Z * Z := if b then (p.2, p.1) else p.
Lemma check_spec l off m t c : 8 <= regs m RSP -> 8 <= off -> regs m RSP + off - 8 < 2 ^ 64 -> u64 (regs m RAX) ->
  rd64 (ram m) (regs m RSP + off - 8) = c -> exists m', exec None (check l off ++ t) m = exec None t m' /\
  (forall r, regs m' r = regs m r) /\ kept (regs m RSP - 8) (regs m RSP) (ram m) (ram m') /\ env m' = env m /\
  gs m' = swapped (negb (c mod 4 =? 0)) (gs m).
Proof.
  intros Hsp Ho Hhi Hu Hc. destruct (push_spec (regs m RAX) m Hu ltac:(lia)) as (S1 & R1 & W1 & K1).
  set (m1 := push (regs m RAX) m) in *. assert (rd64 (ram m1) (at_ m1 RSP off) = c) as Hrd.
  { unfold at_. rewrite S1, wrap_small by lia. rewrite <- Hc. replace (_ - 8 + off) with (regs m RSP + off - 8) by lia. eapply kept_rd; [exact K1|lia]. }
  set (m2 := with_zf (set_reg RAX c m1) (c mod 4 =? 0)). set (m3 := if c mod 4 =? 0 then m2 else swapgs m2).
  assert (exec None (check l off ++ t) m = exec None t (pop RAX m3)) as He.
  { cbn [check app exec step]. fold m1. rewrite Hrd. cbn [regs set_reg with_regs]. rewrite put_reg_eq, test_al. cbn [zf with_zf].
    unfold m3. fold m2. destruct (c mod 4 =? 0); [|done]. rewrite Z.eqb_refl. done. }
  assert (regs m3 = put_reg (regs m1) RAX c /\ ram m3 = ram m1 /\ env m3 = env m /\ gs m3 = swapped (negb (c mod 4 =? 0)) (gs m)) as (R3 & M3 & E3 & G3)
    by (unfold m3; by destruct (c mod 4 =? 0)).
  exists (pop RAX m3). split; [exact He|]. assert (regs m3 RSP = regs m RSP - 8) as S3 by (rewrite R3, put_reg_ne by done; exact S1).
  destruct (pop_spec RAX m3 ltac:(done) ltac:(lia) ltac:(lia)) as (S4 & V4 & R4 & M4). rewrite M3 in M4. split_and!.
  - intros r. destruct (decide (r = RSP)) as [-> |]; [lia|]. destruct (decide (r = RAX)) as [-> |].
    + rewrite V4, S3, M3. exact W1.
    + rewrite R4, R3, put_reg_ne, R1 by done. done.
  - by rewrite M4.
  - by rewrite <- E3.
  - by rewrite <- G3.
Qed.

(** ** Interrupts *)
Record machine_ok (m : machine) : Prop := {
  regs_u64 : forall r, u64 (regs m r);
  control_u64 : u64 (rip m) /\ u64 (rflags m) /\ u64 (cs m) /\ u64 (ss m);
  level : cs m mod 4 = 0 \/ cs m mod 4 = 3;
}.
Definition saved_registers : list reg := [R15; R14; R13; R12; R11; R10; R9; R8; RBP; RSI; RDI; RDX; RCX; RBX; RAX].
Definition err_words (err : option Z) : list Z := match err with Some e => [e] | None => [] end.
(** What the processor pushes, lowest address first *)
Definition pushed_words (err : option Z) (m : machine) : list Z := err_words err ++ [rip m; cs m; rflags m; regs m RSP; ss m].
Definition leaving (err : option Z) : list instr := match err with Some _ => [ADD RSP 8; IRETQ] | None => [IRETQ] end.
Definition wrapper_tail (err : option Z) : list instr :=
  (POP <$> rev saved_registers) ++ check 2 (16 + 8 * zlen (err_words err)) ++ leaving err.
Definition wrapper (err : option Z) : list instr :=
  check 1 (16 + 8 * zlen (err_words err)) ++ (PUSH <$> saved_registers) ++ [MOV RDI RSP; CALL] ++ wrapper_tail err.
Lemma wrappers : (wrapper None = handler_wrapper_noerrcode) /\ forall e, wrapper (Some e) = handler_wrapper_errcode.
Proof. done. Qed.

Lemma saved_no_rsp : RSP ∉ saved_registers /\ RSP ∉ rev saved_registers /\ NoDup (rev saved_registers).
Proof. split_and!; apply (bool_decide_unpack _); vm_compute; exact I. Qed.

(** [iretq] takes the five words on top of the stack. *)
Lemma iretq_words m ip c fl sp s : words (ram m) (regs m RSP) 5 = [ip; c; fl; sp; s] -> 0 <= regs m RSP -> regs m RSP + 40 <= 2 ^ 64 ->
  iretq m = if iret_ok (gdtr m) c s then Leaves (set_reg RSP sp (goto m ip fl c s)) else Faults m.
Proof.
  intros Hw H0 Hr. unfold iretq. cbv zeta. rewrite !wrap_small by lia.
  rewrite (words_at _ _ _ _ 0 ip Hw), (words_at _ _ _ _ 1 c Hw), (words_at _ _ _ _ 2 fl Hw), (words_at _ _ _ _ 3 sp Hw), (words_at _ _ _ _ 4 s Hw) by done.
  done.
Qed.
(** The call of a handler, with the frame as its argument *)
Lemma exec_call m t : let mc := set_reg RDI (regs m RSP) m in exec None ([MOV RDI RSP; CALL] ++ t) m = Calls mc t /\
  regs mc RSP = regs m RSP /\ regs mc RDI = regs m RSP /\ (forall r, r <> RDI -> regs mc r = regs m r) /\ ram mc = ram m /\ env mc = env m /\ gs mc = gs m.
Proof.
  split_and!; [done|by apply put_reg_ne|by apply put_reg_eq|intros r Hr; by apply put_reg_ne|done..].
Qed.

(** The handler comes back with its stack and the [n] words of its frame as
    they were, and with [gs] and the table of segments unchanged; registers may
    be different. *)
Definition handler_kept (n : nat) (mc mr : machine) : Prop :=
  regs mr RSP = regs mc RSP /\ words (ram mr) (regs mc RSP) n = words (ram mc) (regs mc RSP) n /\ gs mr = gs mc /\ gdtr mr = gdtr mc.
(** The processor goes on where it was, with the same registers. *)
Definition same_context (m m' : machine) : Prop :=
  (forall r, regs m' r = regs m r) /\ rip m' = rip m /\ rflags m' = rflags m /\ cs m' = cs m /\ ss m' = ss m /\ gs m' = gs m.

Section interrupts.
Context (m : machine) (gate_cs handler rsp0 : Z) (ist err : option Z).
Hypothesis m_ok : machine_ok m.
Hypothesis err_ok : Forall u64 (err_words err).
Abbreviation sp := (interrupt_stack rsp0 ist m).
Hypothesis room : 256 <= sp < 2 ^ 64.
Abbreviation k := (zlen (err_words err)).

Lemma err_count : 0 <= k <= 1.
Proof. unfold zlen. destruct err; cbn; lia. Qed.
Lemma sp_aligned : sp mod 16 = 0.
Proof. unfold interrupt_stack. rewrite Zminus_mod_idemp_r, Z.sub_diag. done. Qed.
Lemma delivered : let m' := deliver gate_cs handler rsp0 ist err m in
  regs m' RSP = sp - 40 - 8 * k /\ (forall r, r <> RSP -> regs m' r = regs m r) /\
  words (ram m') (sp - 40 - 8 * k) (Z.to_nat (5 + k)) = pushed_words err m /\ kept (sp - 48) sp (ram m) (ram m') /\ gs m' = gs m /\
  cs m' = gate_cs /\ rip m' = handler /\ gdtr m' = gdtr m.
Proof.
  destruct m_ok as [Hr (Hip & Hfl & Hcs & Hss) _]. set (m1 := set_reg RSP sp m).
  assert (deliver gate_cs handler rsp0 ist err m =
    goto (pushes ([ss m; regs m RSP; rflags m; cs m; rip m] ++ err_words err) m1) handler (Z.ldiff (rflags m) gate_flags) gate_cs
      (if user_mode m then 0 else ss m)) as -> by (by destruct err).
  assert (regs m1 RSP = sp) as Hsp by apply put_reg_eq. pose proof err_count as Hk.
  assert (zlen ([ss m; regs m RSP; rflags m; cs m; rip m] ++ err_words err) = 5 + k) as Hn by (by rewrite zlen_app).
  destruct (pushes_spec ([ss m; regs m RSP; rflags m; cs m; rip m] ++ err_words err) m1) as (S2 & R2 & W2 & K2 & E2 & G2 & _).
  { apply Forall_app. split; [|done]. repeat (apply Forall_cons_2; [done || apply Hr|]). apply Forall_nil_2. }
  { rewrite Hn, Hsp. lia. }
  rewrite Hn, Hsp in *. replace (sp - 8 * (5 + k)) with (sp - 40 - 8 * k) in * by lia. split_and!.
  - exact S2.
  - intros r Hne. cbn. rewrite R2 by done. by apply put_reg_ne.
  - cbn [ram goto]. rewrite <- Hn, to_nat_zlen, W2. unfold pushed_words. by destruct err.
  - intros x Hx. cbn. rewrite K2 by lia. done.
  - exact G2.
  - done.
  - done.
  - cbn. by injection E2.
Qed.

Lemma swap_cond : negb (cs m mod 4 =? 0) = user_mode m.
Proof. unfold user_mode. destruct (level m m_ok) as [-> | ->]; done. Qed.
Lemma cs_word f : words f (sp - 40 - 8 * k) (Z.to_nat (5 + k)) = pushed_words err m -> rd64 f (sp - 32) = cs m.
Proof.
  intros Hw. replace (sp - 32) with (sp - 40 - 8 * k + 8 * Z.of_nat (Z.to_nat (1 + k))) by (pose proof err_count; lia).
  eapply words_lookup. rewrite Hw. by destruct err.
Qed.
Lemma wrapper_calls : exists mc, exec None (wrapper err) (deliver gate_cs handler rsp0 ist err m) = Calls mc (wrapper_tail err) /\
  regs mc RSP = sp - 160 - 8 * k /\ regs mc RDI = regs mc RSP /\
  words (ram mc) (sp - 160 - 8 * k) 15 = (regs m <$> rev saved_registers) /\
  words (ram mc) (sp - 40 - 8 * k) (Z.to_nat (5 + k)) = pushed_words err m /\
  kept (sp - 168) sp (ram m) (ram mc) /\ gs mc = swapped (user_mode m) (gs m) /\ gdtr mc = gdtr m.
Proof.
  destruct delivered as (S1 & R1 & W1 & K1 & G1 & _ & _ & D1). set (m1 := deliver _ _ _ _ _ _) in *. clearbody m1. pose proof err_count as Hk.
  assert (forall r, u64 (regs m1 r)) as U1.
  { intros r. destruct (decide (r = RSP)) as [-> |]; [unfold u64; lia|]. rewrite R1 by done. apply m_ok. }
  destruct (check_spec 1 (16 + 8 * k) m1 ((PUSH <$> saved_registers) ++ [MOV RDI RSP; CALL] ++ wrapper_tail err) (cs m)) as (m2 & X2 & R2 & K2 & E2 & G2);
    [lia|lia|lia|apply U1|rewrite S1; replace (_ + _ - 8) with (sp - 32) by lia; by apply cs_word|].
  unfold wrapper. rewrite X2. rewrite exec_pushes; [|apply saved_no_rsp|apply Forall_forall; intros r _; rewrite R2; apply U1|change (zlen saved_registers) with 15; rewrite R2; lia].
  assert (forall r, regs m2 r = regs m1 r) as R2' by done. rewrite S1 in K2.
  destruct (pushes_spec (regs m2 <$> saved_registers) m2) as (S3 & R3 & W3 & K3 & E3 & G3 & _).
  { apply Forall_fmap, Forall_forall. intros r _. cbn. rewrite R2. apply U1. }
  { change (zlen _) with 15. rewrite R2. lia. }
  change (zlen (regs m2 <$> saved_registers)) with 15 in *. rewrite R2, S1 in *. replace (sp - 40 - 8 * k - 8 * 15) with (sp - 160 - 8 * k) in * by lia.
  set (m3 := pushes _ _) in *. clearbody m3. destruct (exec_call m3 (wrapper_tail err)) as (X4 & S4 & D4 & _ & M4 & E4 & G4).
  set (mc := set_reg _ _ _) in *. clearbody mc. exists mc. rewrite M4. split_and!.
  - exact X4.
  - by rewrite S4.
  - by rewrite D4.
  - rewrite (W3 : words _ _ 15 = _). cbn [fmap list_fmap rev saved_registers app]. rewrite !R2, !R1 by discriminate. reflexivity.
  - rewrite (words_kept _ _ _ _ _ _ K3), (words_kept _ _ _ _ _ _ K2) by lia. exact W1.
  - intros x Hx. rewrite K3, K2, K1 by lia. done.
  - rewrite G4, G3, G2, G1, swap_cond. done.
  - rewrite <- D1. apply (f_equal gdtr_of_env) in E4, E3, E2. exact (eq_trans E4 (eq_trans E3 E2)).
Qed.

Lemma exec_leaving mr : regs mr RSP = sp - 40 - 8 * k ->
  words (ram mr) (sp - 40 - 8 * k) (Z.to_nat (5 + k)) = pushed_words err m ->
  exists m' mf, exec None (leaving err) mr = (if iret_ok (gdtr mr) (cs m) (ss m) then Leaves m' else Faults mf) /\ regs m' RSP = regs m RSP /\ (forall r, r <> RSP -> regs m' r = regs mr r) /\
    rip m' = rip m /\ rflags m' = rflags m /\ cs m' = cs m /\ ss m' = ss m /\ gs m' = gs mr /\ ram m' = ram mr.
Proof.
  intros Hsp Hw. pose proof err_count as Hk.
  set (ma := match err with Some _ => step (ADD RSP 8) mr | None => mr end).
  assert (exec None (leaving err) mr = iretq ma) as -> by (unfold ma; by destruct err).
  assert (regs ma RSP = sp - 40 /\ (forall r, r <> RSP -> regs ma r = regs mr r) /\ ram ma = ram mr /\ gs ma = gs mr /\ gdtr ma = gdtr mr) as (S1 & R1 & M1 & G1 & D1).
  { unfold ma. destruct err; cbn [step].
    - change (zlen (err_words (Some z))) with 1 in *. split_and!; try done.
      + cbn. rewrite put_reg_eq, Hsp, wrap_small by lia. lia.
      + intros r Hr. cbn. by rewrite put_reg_ne.
    - change (zlen (err_words None)) with 0 in *. split_and!; try done. lia. }
  clearbody ma. rewrite (iretq_words ma (rip m) (cs m) (rflags m) (regs m RSP) (ss m)); [| |lia|lia].
  2: { rewrite M1, S1. replace (Z.to_nat (5 + k)) with (length (err_words err) + 5)%nat in Hw by (unfold zlen in *; lia). rewrite words_app in Hw.
       apply app_inj_1 in Hw as [_ Hw]; [|by destruct err]. rewrite <- Hw. f_equal. unfold zlen. lia. }
  rewrite D1. eexists _, _. split; [reflexivity|]. split_and!; try done.
  intros r Hr. cbn. rewrite put_reg_ne by done. by apply R1.
Qed.

Lemma wrapper_returns mc mr :
  regs mc RSP = sp - 160 - 8 * k -> words (ram mc) (sp - 160 - 8 * k) 15 = (regs m <$> rev saved_registers) ->
  words (ram mc) (sp - 40 - 8 * k) (Z.to_nat (5 + k)) = pushed_words err m -> gs mc = swapped (user_mode m) (gs m) -> gdtr mc = gdtr m ->
  handler_kept (Z.to_nat (20 + k)) mc mr ->
  exists m' mf, exec None (wrapper_tail err) mr = (if iret_ok (gdtr m) (cs m) (ss m) then Leaves m' else Faults mf) /\ same_context m m'.
Proof.
  intros S0 W0 P0 G0 D0 (S1 & W1 & G1 & D1). pose proof err_count as Hk. rewrite S0 in W1.
  replace (Z.to_nat (20 + k)) with (15 + Z.to_nat (5 + k))%nat in W1 by lia. rewrite !words_app, W0 in W1.
  replace (sp - 160 - 8 * k + 8 * Z.of_nat 15) with (sp - 40 - 8 * k) in W1 by lia. rewrite P0 in W1. apply app_inj_1 in W1 as [W1 P1]; [|done].
  unfold wrapper_tail. rewrite exec_pops. destruct saved_no_rsp as (_ & Hn & Hd).
  destruct (pops_spec (rev saved_registers) mr Hn Hd) as (S2 & V2 & R2 & M2 & E2 & G2); change (zlen (rev saved_registers)) with 15 in *; [lia|lia|].
  rewrite S1, S0 in *. rewrite (W1 : words _ _ (length (rev saved_registers)) = _) in V2.
  replace (sp - 160 - 8 * k + 8 * 15) with (sp - 40 - 8 * k) in S2 by lia. set (m2 := pops _ _) in *. clearbody m2.
  assert (forall r, r <> RSP -> regs m2 r = regs m r) as R2'.
  { intros r Hr. cbn in V2. injection V2 as V2. destruct r; first [done|congruence]. }
  destruct (check_spec 2 (16 + 8 * k) m2 (leaving err) (cs m)) as (m3 & X3 & R3 & K3 & E3 & G3);
    [lia|lia|lia|rewrite R2' by done; apply m_ok|rewrite S2, M2; replace (_ + _ - 8) with (sp - 32) by lia; by apply cs_word|]. rewrite S2 in K3.
  rewrite X3. destruct (exec_leaving m3) as (m4 & mf & X4 & S4 & R4 & I4 & F4 & C4 & T4 & G4 & M4).
  { by rewrite R3. }
  { rewrite (words_kept _ _ _ _ _ _ K3) by lia. by rewrite M2. }
  apply (f_equal gdtr_of_env) in E2, E3. rewrite (eq_trans E3 E2 : gdtr m3 = gdtr mr), D1, D0 in X4.
  exists m4, mf. split; [exact X4|]. unfold same_context. split_and!; try done.
  - intros r. destruct (decide (r = RSP)) as [-> |]; [done|]. by rewrite R4, R3, R2'.
  - rewrite G4, G3, G2, G1, G0, swap_cond. unfold swapped. destruct (user_mode m); [by destruct (gs m)|done].
Qed.
End interrupts.

(** ** The theorems on interrupts *)
(** The frame a handler is given: all registers and what the processor saved *)
Definition interrupt_frame (m : machine) : InterruptNoErrcodeFrame :=
  {| if_rax := regs m RAX; if_rbx := regs m RBX; if_rcx := regs m RCX; if_rdx := regs m RDX; if_rdi := regs m RDI; if_rsi := regs m RSI;
     if_rbp := regs m RBP; if_r8 := regs m R8; if_r9 := regs m R9; if_r10 := regs m R10; if_r11 := regs m R11; if_r12 := regs m R12;
     if_r13 := regs m R13; if_r14 := regs m R14; if_r15 := regs m R15; if_rip := rip m; if_cs := cs m; if_rflags := rflags m;
     if_rsp := regs m RSP; if_ss := ss m |}.
(** The base of [gs] the kernel runs with is [ptr]: it is in use in the kernel,
    and the other one of the two in user mode. *)
Definition own_gs (ptr : Z) (m : machine) : Prop := (if user_mode m then kernel_gs_base m else gs_base m) = ptr.
Lemma own_gs_swapped ptr m mc : own_gs ptr m -> gs mc = swapped (user_mode m) (gs m) -> get_per_cpu_data mc = ptr.
Proof. unfold own_gs, get_per_cpu_data, gs, swapped. intros <- Hg. destruct (user_mode m); by injection Hg. Qed.

Lemma wrapper_ok m gate_cs handler rsp0 ist err ptr : machine_ok m -> own_gs ptr m -> Forall u64 (err_words err) ->
  let sp := interrupt_stack rsp0 ist m in let n := 20 + zlen (err_words err) in 256 <= sp < 2 ^ 64 ->
  exists mc, exec None (wrapper err) (deliver gate_cs handler rsp0 ist err m) = Calls mc (wrapper_tail err) /\
    words (ram mc) (regs mc RSP) (Z.to_nat n) = (regs m <$> rev saved_registers) ++ pushed_words err m /\ regs mc RDI = regs mc RSP /\
    regs mc RSP mod 16 = 8 * zlen (err_words err) /\ get_per_cpu_data mc = ptr /\ kept (sp - 168) sp (ram m) (ram mc) /\
    forall mr, handler_kept (Z.to_nat n) mc mr ->
      exists m' mf, exec None (wrapper_tail err) mr = (if iret_ok (gdtr m) (cs m) (ss m) then Leaves m' else Faults mf) /\ same_context m m'.
Proof.
  intros Hm Hg He sp n Hsp. destruct (wrapper_calls m gate_cs handler rsp0 ist err Hm He Hsp) as (mc & X & S' & D & W & P & K & G & T).
  fold sp in S', W, P, K. pose proof (err_count err He) as Hk. exists mc. split_and!; [exact X| |exact D| |by eapply own_gs_swapped|exact K|].
  - rewrite S'. subst n. replace (Z.to_nat (20 + zlen (err_words err))) with (15 + Z.to_nat (5 + zlen (err_words err)))%nat by lia. rewrite words_app, W. f_equal. rewrite <- P. f_equal. lia.
  - rewrite S'. pose proof (sp_aligned m rsp0 ist) as Ha. fold sp in Ha. assert (zlen (err_words err) = 0 \/ zlen (err_words err) = 1) as [-> | ->] by lia;
      Z.to_euclidean_division_equations; lia.
  - intros mr Hr. by eapply (wrapper_returns m rsp0 ist err Hm He Hsp mc mr).
Qed.

(** C15: an interrupt without an error code is transparent.  The wrapper calls
    its handler on an aligned stack with a frame that holds every register of
    the interrupted code and where it was, with [gs] at the data of this
    processor, whether user or kernel code was interrupted, and with nothing
    but the 168 bytes below the top of the stack written; and when the handler
    comes back, [iretq] goes on with every register, the flags, the segments
    and both bases of [gs] as they were. *)
Theorem interrupt_transparent m gate_cs handler rsp0 ist ptr : machine_ok m -> own_gs ptr m ->
  let sp := interrupt_stack rsp0 ist m in 256 <= sp < 2 ^ 64 ->
  exists mc tail, exec None handler_wrapper_noerrcode (deliver gate_cs handler rsp0 ist None m) = Calls mc tail /\
    interrupt_noerrcode_frame_at (ram mc) (regs mc RSP) = interrupt_frame m /\ regs mc RDI = regs mc RSP /\ regs mc RSP mod 16 = 0 /\
    get_per_cpu_data mc = ptr /\ kept (sp - 168) sp (ram m) (ram mc) /\
    forall mr, handler_kept 20 mc mr -> iret_ok (gdtr m) (cs m) (ss m) = true -> exists m', exec None tail mr = Leaves m' /\ same_context m m'.
Proof.
  intros Hm Hg sp Hsp. destruct (wrapper_ok m gate_cs handler rsp0 ist None ptr Hm Hg (Forall_nil_2 _) Hsp) as (mc & X & W & D & A & G & K & R).
  exists mc, (wrapper_tail None). split_and!; [exact X| |exact D|exact A|exact G|exact K|].
  - unfold interrupt_noerrcode_frame_at, interrupt_frame. f_equal; by eapply words_at.
  - intros mr Hr Hok. destruct (R mr Hr) as (m' & mf & Hx & Hc). rewrite Hok in Hx. by exists m'.
Qed.

(** An exception with an error code is transparent in the same way, and its
    handler gets the code; but the wrapper calls the handler with a stack that
    is off by eight from the alignment the C calling convention requires. *)
Theorem exception_misaligned m gate_cs handler rsp0 ist e ptr : machine_ok m -> own_gs ptr m -> u64 e ->
  let sp := interrupt_stack rsp0 ist m in 256 <= sp < 2 ^ 64 ->
  exists mc tail, exec None handler_wrapper_errcode (deliver gate_cs handler rsp0 ist (Some e) m) = Calls mc tail /\
    interrupt_errcode_frame_at (ram mc) (regs mc RSP) = {| err_code := e; interrupted := interrupt_frame m |} /\ regs mc RSP mod 16 = 8 /\
    get_per_cpu_data mc = ptr /\
    forall mr, handler_kept 21 mc mr -> iret_ok (gdtr m) (cs m) (ss m) = true -> exists m', exec None tail mr = Leaves m' /\ same_context m m'.
Proof.
  intros Hm Hg He sp Hsp. destruct (wrapper_ok m gate_cs handler rsp0 ist (Some e) ptr Hm Hg) as (mc & X & W & D & A & G & K & R);
    [by apply Forall_cons_2, Forall_nil_2|exact Hsp|].
  exists mc, (wrapper_tail (Some e)). split_and!; [exact X| |exact A|exact G|].
  - unfold interrupt_errcode_frame_at, interrupt_frame. f_equal; [|f_equal]; by eapply words_at.
  - intros mr Hr Hok. destruct (R mr Hr) as (m' & mf & Hx & Hc). rewrite Hok in Hx. by exists m'.
Qed.

(** ** System calls *)
(** Entering: the order in which the wrapper pushes registers *)
Definition pushed_registers : list reg := [RBP; RAX; RBX; RCX; RDX; RSI; RDI; R8; R9; R10; R11; R12; R13; R14; R15].
Lemma syscall_text : syscall_handler_wrapper =
  [SWAPGS; STORE_GS 0x10 RSP; LOAD_GS RSP 0x8; PUSH_GS 0x10] ++ (PUSH <$> pushed_registers) ++ [MOV RDI RSP; CALL] ++ resume_thread_from_syscall.
Proof. reflexivity. Qed.
Lemma pushed_no_rsp : RSP ∉ pushed_registers.
Proof. apply (bool_decide_unpack _). vm_compute. exact I. Qed.
(** The first four instructions: the stack of the processor, with the stack
    pointer of the caller on it *)
Lemma pivot m t ptr top : kernel_gs_base m = ptr -> 0 <= ptr -> ptr + 0x18 < 2 ^ 64 -> u64 (regs m RSP) ->
  rd64 (ram m) (ptr + 8) = top -> 128 <= top < 2 ^ 64 -> ptr + 0x18 <= top - 8 \/ top <= ptr + 0x10 ->
  exists m', exec None ([SWAPGS; STORE_GS 0x10 RSP; LOAD_GS RSP 0x8; PUSH_GS 0x10] ++ t) m = exec None t m' /\
    regs m' RSP = top - 8 /\ (forall r, r <> RSP -> regs m' r = regs m r) /\ words (ram m') (top - 8) 1 = [regs m RSP] /\
    (forall x, x < ptr + 0x10 \/ ptr + 0x18 <= x -> x < top - 8 \/ top <= x -> ram m' x = ram m x) /\ env m' = env m /\ gs m' = (ptr, gs_base m).
Proof.
  intros Hg H0 Hp Hu Htop Ht Hsep. set (m1 := with_ram (swapgs m) (wr64 (ram m) (ptr + 0x10) (regs m RSP))).
  set (m2 := set_reg RSP top m1).
  assert (exec None ([SWAPGS; STORE_GS 0x10 RSP; LOAD_GS RSP 0x8; PUSH_GS 0x10] ++ t) m = exec None t (push (regs m RSP) m2)) as ->.
  { cbn [app exec step swapgs with_gs gs_base ram regs with_ram]. rewrite Hg, !wrap_small by lia. fold (swapgs m). fold m1.
    rewrite rd_wr_ne, Htop by lia. fold m2. cbn [set_reg with_regs gs_base ram]. change (ram m2) with (wr64 (ram m) (ptr + 0x10) (regs m RSP)).
    change (gs_base m2) with (kernel_gs_base m). rewrite Hg, wrap_small, rd_wr by (done || lia). done. }
  assert (regs m2 RSP = top) as S2 by apply put_reg_eq.
  destruct (push_spec (regs m RSP) m2 Hu ltac:(lia)) as (S3 & R3 & W3 & K3). rewrite S2 in *. eexists. split; [reflexivity|]. split_and!.
  - exact S3.
  - intros r Hr. rewrite R3 by done. cbn. by rewrite put_reg_ne.
  - cbn [words]. by rewrite W3.
  - intros x H1 H2. rewrite K3 by lia. cbn. unfold wr64. bcase; done.
  - done.
  - by rewrite <- Hg.
Qed.
(** The registers of a machine as a frame, and of a frame as registers *)
Definition syscall_frame (m : machine) : SyscallFrame :=
  {| sf_r15 := regs m R15; sf_r14 := regs m R14; sf_r13 := regs m R13; sf_r12 := regs m R12; sf_r11 := regs m R11; sf_r10 := regs m R10;
     sf_r9 := regs m R9; sf_r8 := regs m R8; sf_rdi := regs m RDI; sf_rsi := regs m RSI; sf_rdx := regs m RDX; sf_rcx := regs m RCX;
     sf_rbx := regs m RBX; sf_rax := regs m RAX; sf_rbp := regs m RBP; sf_rsp := regs m RSP |}.
Definition frame_reg (f : SyscallFrame) (r : reg) : Z :=
  match r with
  | RAX => sf_rax f | RBX => sf_rbx f | RCX => sf_rcx f | RDX => sf_rdx f | RSI => sf_rsi f | RDI => sf_rdi f | RBP => sf_rbp f | RSP => sf_rsp f
  | R8 => sf_r8 f | R9 => sf_r9 f | R10 => sf_r10 f | R11 => sf_r11 f | R12 => sf_r12 f | R13 => sf_r13 f | R14 => sf_r14 f | R15 => sf_r15 f
  end.
(** The data of a processor, of which the assembly uses the first 24 bytes, and
    its stack for system calls, below [top], which do not overlap *)
Record cpu_memory (ptr top : Z) (f : Z -> Z) : Prop := {
  ptr_range : 0 <= ptr /\ ptr + 0x18 < 2 ^ 64;
  stack_ptr : rd64 f (ptr + 8) = top;
  stack_range : 128 <= top < 2 ^ 64 /\ top mod 16 = 0;
  stack_apart : ptr + 0x18 <= top - 128 \/ top <= ptr;
}.
Lemma syscall_enters m ptr top : (forall r, u64 (regs m r)) -> kernel_gs_base m = ptr -> cpu_memory ptr top (ram m) ->
  exists mc, exec None syscall_handler_wrapper m = Calls mc resume_thread_from_syscall /\
    syscall_frame_at (ram mc) (regs mc RSP) = syscall_frame m /\ regs mc RSP = top - 128 /\ regs mc RDI = regs mc RSP /\
    gs mc = (ptr, gs_base m) /\ env mc = env m /\
    forall x, x < ptr + 0x10 \/ ptr + 0x18 <= x -> x < top - 128 \/ top <= x -> ram mc x = ram m x.
Proof.
  intros Hu Hg [[H0 Hp] Htop [Ht Hal] Hsep]. rewrite syscall_text.
  destruct (pivot m ((PUSH <$> pushed_registers) ++ [MOV RDI RSP; CALL] ++ resume_thread_from_syscall) ptr top) as (m1 & X1 & S1 & R1 & W1 & K1 & E1 & G1);
    [done|lia|lia|apply Hu|done|lia|lia|].
  assert (Forall (fun r => u64 (regs m1 r)) pushed_registers) as U1.
  { apply Forall_forall. intros r Hr. rewrite R1; [apply Hu|]. intros ->. by apply pushed_no_rsp. }
  rewrite X1, exec_pushes; [|apply pushed_no_rsp|exact U1|change (zlen pushed_registers) with 15; lia].
  destruct (pushes_spec (regs m1 <$> pushed_registers) m1) as (S2 & R2 & W2 & K2 & E2 & G2 & _).
  { by apply Forall_fmap. }
  { change (zlen _) with 15. lia. }
  change (zlen (regs m1 <$> pushed_registers)) with 15 in *. rewrite S1 in *. replace (top - 8 - 8 * 15) with (top - 128) in * by lia.
  set (m2 := pushes _ _) in *. clearbody m2. destruct (exec_call m2 resume_thread_from_syscall) as (X3 & S3 & D3 & _ & M3 & E3 & G3).
  set (mc := set_reg _ _ _) in *. clearbody mc. exists mc. rewrite M3, D3, S3, S2. split_and!.
  - exact X3.
  - assert (words (ram m2) (top - 128) 16 = rev (regs m1 <$> pushed_registers) ++ [regs m RSP]) as HW.
    { change 16%nat with (15 + 1)%nat. rewrite words_app, (W2 : words _ _ 15 = _). f_equal. replace (_ + _) with (top - 8) by lia.
      rewrite (words_kept _ _ _ _ _ _ K2) by lia. exact W1. }
    cbn [fmap list_fmap pushed_registers rev app] in HW. rewrite !R1 in HW by discriminate.
    unfold syscall_frame_at, syscall_frame. f_equal; by eapply words_at.
  - done.
  - done.
  - by rewrite G3, G2.
  - by rewrite E3, E2.
  - intros x H1 H2. rewrite K2 by lia. apply K1; lia.
Qed.

(** ** Resuming *)
Definition load_all (l : list (reg * Z)) : list instr := (fun p => LOAD p.1 RDI p.2) <$> l.
Definition loads (l : list (reg * Z)) (m : machine) : machine := foldl (fun m p => step (LOAD p.1 RDI p.2) m) m l.
Lemma exec_loads l t : forall m, exec None (load_all l ++ t) m = exec None t (loads l m).
Proof. induction l as [|[d o] l IH]; intros m; [done|]. cbn. by rewrite IH. Qed.
Lemma loads_spec l : forall m, RDI ∉ l.*1 -> NoDup (l.*1) -> Forall (fun p => 0 <= p.2 < 0x80) l -> 0 <= regs m RDI -> regs m RDI + 0x80 < 2 ^ 64 ->
  let m' := loads l m in
  (forall d o, (d, o) ∈ l -> regs m' d = rd64 (ram m) (regs m RDI + o)) /\ (forall r, r ∉ l.*1 -> regs m' r = regs m r) /\
  ram m' = ram m /\ env m' = env m /\ gs m' = gs m.
Proof.
  induction l as [|[d o] l IH]; intros m Hn Hd Ho H0 Hr.
  { cbn. split_and!; try done. intros d o Hin. by apply not_elem_of_nil in Hin. }
  cbn [fmap list_fmap fst] in *. apply not_elem_of_cons in Hn as [Hne Hn]. apply NoDup_cons in Hd as [Hf Hd]. apply Forall_cons in Ho as [Ho Hos]. cbn in Ho.
  set (m1 := set_reg d (rd64 (ram m) (regs m RDI + o)) m).
  assert (step (LOAD d RDI o) m = m1) as H1 by (unfold m1; cbn; unfold at_; by rewrite wrap_small by lia).
  assert (forall r, r <> d -> regs m1 r = regs m r) as R1 by (intros r Hne'; by apply put_reg_ne).
  cbn [loads foldl fst snd]. rewrite H1. fold (loads l m1). destruct (IH m1 Hn Hd Hos) as (V & R & M1 & E1 & G1); [by rewrite R1|by rewrite R1|].
  split_and!; [| |by rewrite M1|by rewrite E1|by rewrite G1].
  - intros d' o' Hin. apply elem_of_cons in Hin as [[= -> ->]|Hin].
    + rewrite R by done. apply put_reg_eq.
    + rewrite (V d' o') by done. by rewrite R1.
  - intros r Hr'. apply not_elem_of_cons in Hr' as [Hr1 Hr2]. rewrite R by done. by apply R1.
Qed.
Definition frame_offsets : list (reg * Z) :=
  [(R15, 0); (R14, 0x8); (R13, 0x10); (R12, 0x18); (R11, 0x20); (R10, 0x28); (R9, 0x30); (R8, 0x38); (RSI, 0x48); (RDX, 0x50);
   (RCX, 0x58); (RBX, 0x60); (RAX, 0x68); (RBP, 0x70)].
Lemma resume_text : resume_thread_from_syscall =
  [MOV RAX RSI; MOV_CR3 RAX] ++ load_all (frame_offsets ++ [(RSP, 0x78)]) ++ [LOAD RDI RDI 0x40; SWAPGS; SYSRETQ].
Proof. reflexivity. Qed.
Lemma offsets_ok : RDI ∉ (frame_offsets ++ [(RSP, 0x78)]).*1 /\ NoDup ((frame_offsets ++ [(RSP, 0x78)]).*1) /\
  Forall (fun p => 0 <= p.2 < 0x80) (frame_offsets ++ [(RSP, 0x78)]).
Proof.
  split; [apply (bool_decide_unpack _); vm_compute; exact I|]. split; [apply (bool_decide_unpack _); vm_compute; exact I|].
  repeat (apply Forall_cons_2; [cbn; lia|]). apply Forall_nil_2.
Qed.
Definition offset_of (r : reg) : Z :=
  match r with
  | R15 => 0 | R14 => 0x8 | R13 => 0x10 | R12 => 0x18 | R11 => 0x20 | R10 => 0x28 | R9 => 0x30 | R8 => 0x38 | RDI => 0x40 | RSI => 0x48 | RDX => 0x50
  | RCX => 0x58 | RBX => 0x60 | RAX => 0x68 | RBP => 0x70 | RSP => 0x78
  end.
Lemma offset_listed r : r <> RDI -> r <> RSP -> (r, offset_of r) ∈ frame_offsets.
Proof. intros H1 H2. apply list_elem_of_In. destruct r; first [done|cbn; tauto]. Qed.
Lemma offset_frame f a r : frame_reg (syscall_frame_at f a) r = rd64 f (a + offset_of r).
Proof. by destruct r. Qed.
(** All registers but [rdi], from the frame it points to *)
Lemma frame_loaded (b : bool) m : let l := frame_offsets ++ (if b then [(RSP, 0x78)] else []) in
  0 <= regs m RDI -> regs m RDI + 0x80 < 2 ^ 64 ->
  let f := syscall_frame_at (ram m) (regs m RDI) in let m' := loads l m in
  (forall r, r <> RDI -> r <> RSP -> regs m' r = frame_reg f r) /\ regs m' RDI = regs m RDI /\ regs m' RSP = (if b then frame_reg f RSP else regs m RSP) /\
  ram m' = ram m /\ env m' = env m /\ gs m' = gs m.
Proof.
  intros l H0 Hr f m'. destruct offsets_ok as (O1 & O2 & O3).
  assert (RDI ∉ l.*1 /\ NoDup (l.*1) /\ Forall (fun p => 0 <= p.2 < 0x80) l) as (P1 & P2 & P3).
  { destruct b; [done|]. subst l. rewrite fmap_app in O1, O2. rewrite app_nil_r. apply NoDup_app in O2 as [O2 _]. apply Forall_app in O3 as [O3 _].
    split_and!; [|done..]. intros Hin. apply O1. apply elem_of_app. by left. }
  destruct (loads_spec l m P1 P2 P3 H0 Hr) as (V & R & M1 & E1 & G1). fold m' in V, R, M1, E1, G1. clearbody m'. split_and!; [| | |exact M1|exact E1|exact G1].
  - intros r H1 H2. unfold f. rewrite offset_frame. apply V, elem_of_app. left. by apply offset_listed.
  - by apply R.
  - destruct b.
    + unfold f. rewrite offset_frame. apply V, elem_of_app. right. by apply list_elem_of_singleton.
    + apply R. apply (bool_decide_unpack _). vm_compute. exact I.
Qed.
(** Both texts begin by loading the page table and end with [rdi]. *)
Lemma exec_page_table m t : exists m1, exec None ([MOV RAX RSI; MOV_CR3 RAX] ++ t) m = exec None t m1 /\ cr3 m1 = regs m RSI /\
  (forall r, r <> RAX -> regs m1 r = regs m r) /\ ram m1 = ram m /\ gs m1 = gs m /\ STAR m1 = STAR m /\ gdtr m1 = gdtr m /\ ports m1 = ports m.
Proof.
  exists (with_cr3 (set_reg RAX (regs m RSI) m) (regs m RSI)). split_and!; try done.
  intros r Hr. by apply put_reg_ne.
Qed.
Lemma exec_last m t : 0 <= regs m RDI -> regs m RDI + 0x80 < 2 ^ 64 ->
  exists m1, exec None (LOAD RDI RDI 0x40 :: t) m = exec None t m1 /\ regs m1 RDI = frame_reg (syscall_frame_at (ram m) (regs m RDI)) RDI /\
  (forall r, r <> RDI -> regs m1 r = regs m r) /\ ram m1 = ram m /\ env m1 = env m /\ gs m1 = gs m.
Proof.
  intros H0 Hr. eexists. split; [reflexivity|]. cbn [step]. unfold at_. rewrite wrap_small by lia. split_and!; [|intros r Hne; by apply put_reg_ne|done..].
  rewrite offset_frame. apply put_reg_eq.
Qed.
Lemma sysret_state m : let m' := sysretq (swapgs m) in
  (forall r, regs m' r = regs m r) /\ rip m' = regs m RCX /\ rflags m' = Z.lor (Z.land (regs m R11) sysret_flags) 2 /\ cr3 m' = cr3 m /\
  gs m' = (kernel_gs_base m, gs_base m) /\ cs m' = Z.lor (wrap 16 (Z.shiftr (STAR m) 48 + 16)) 3 /\
  ss m' = Z.lor (wrap 16 (Z.shiftr (STAR m) 48 + 8)) 3 /\ gdtr m' = gdtr m.
Proof. done. Qed.
Lemma resume_syscall_ok m : 0 <= regs m RDI -> regs m RDI + 0x80 < 2 ^ 64 ->
  let f := syscall_frame_at (ram m) (regs m RDI) in
  exists m', exec None resume_thread_from_syscall m = Leaves m' /\ (forall r, regs m' r = frame_reg f r) /\ rip m' = sf_rcx f /\
    rflags m' = Z.lor (Z.land (sf_r11 f) sysret_flags) 2 /\ cr3 m' = regs m RSI /\ gs m' = (kernel_gs_base m, gs_base m) /\
    cs m' = Z.lor (wrap 16 (Z.shiftr (STAR m) 48 + 16)) 3 /\ ss m' = Z.lor (wrap 16 (Z.shiftr (STAR m) 48 + 8)) 3 /\ gdtr m' = gdtr m.
Proof.
  intros H0 Hr f. rewrite resume_text.
  destruct (exec_page_table m (load_all (frame_offsets ++ [(RSP, 0x78)]) ++ [LOAD RDI RDI 0x40; SWAPGS; SYSRETQ])) as (m1 & X1 & C1 & R1 & M1 & G1 & T1 & L1 & _).
  assert (regs m1 RDI = regs m RDI) as D1 by (by apply R1).
  destruct (frame_loaded true m1) as (R2 & D2 & S2 & M2 & E2 & G2); [by rewrite D1|by rewrite D1|]. rewrite D1, M1 in *. fold f in R2, S2.
  rewrite X1, exec_loads. set (m2 := loads _ _) in *. clearbody m2. injection E2 as _ _ _ _ C2 T2 _ _ _ L2 _ _.
  destruct (exec_last m2 [SWAPGS; SYSRETQ]) as (m3 & X3 & D3 & R3 & M3 & E3 & G3); [by rewrite D2|by rewrite D2|].
  rewrite D2, M2 in D3. fold f in D3. rewrite X3. injection E3 as _ _ _ _ C3 T3 _ _ _ L3 _ _.
  assert (forall r, regs m3 r = frame_reg f r) as R.
  { intros r. destruct (decide (r = RDI)) as [-> |]; [done|]. rewrite R3 by done. destruct (decide (r = RSP)) as [-> |]; [exact S2|by apply R2]. }
  rewrite G2, G1 in G3. injection G3 as G3 K3. destruct (sysret_state m3) as (R4 & I4 & F4 & C4 & G4 & S4 & W4 & L4).
  exists (sysretq (swapgs m3)). split; [reflexivity|]. rewrite C4, I4, F4, G4, S4, W4, L4, T3, T2, T1, L3, L2, L1, C3, C2, C1, !R, G3, K3.
  split_and!; try reflexivity. intros r. by rewrite R4.
Qed.
Lemma paused_text : resume_paused_thread =
  [MOV RAX RSI; MOV_CR3 RAX] ++ [CMP RCX 0; JNE 1; SWAPGS; LABEL 1] ++
  [PUSH_MEM RDX 0; PUSH_MEM RDX 0x8; PUSH_MEM RDX 0x10; PUSH_MEM RDX 0x18; PUSH_MEM RDX 0x20] ++ load_all frame_offsets ++
  LOAD RDI RDI 0x40 :: [PUSH RAX; MOV_AL 0x20; OUT_AL 0x20; POP RAX; IRETQ].
Proof. reflexivity. Qed.
Lemma exec_swap m t : exists m1, exec None ([CMP RCX 0; JNE 1; SWAPGS; LABEL 1] ++ t) m = exec None t m1 /\ regs m1 = regs m /\
  ram m1 = ram m /\ env m1 = env m /\ gs m1 = swapped (regs m RCX =? 0) (gs m).
Proof.
  exists (if regs m RCX =? 0 then swapgs (with_zf m true) else with_zf m false).
  cbn [app exec step zf with_zf]. by destruct (regs m RCX =? 0).
Qed.
(** The frame for [iretq], pushed word by word; [rdx] points above the stack. *)
Lemma exec_push_mem offs t : forall m, Forall (fun o => 0 <= o < 0x28) offs -> 8 * zlen offs <= regs m RSP -> regs m RSP <= regs m RDX ->
  regs m RDX + 0x28 < 2 ^ 64 -> (forall x, is_byte (ram m x)) ->
  exec None ((PUSH_MEM RDX <$> offs) ++ t) m = exec None t (pushes ((fun o => rd64 (ram m) (regs m RDX + o)) <$> offs) m).
Proof.
  induction offs as [|o offs IH]; intros m Ho Hsp Hle Hr Hb; [done|]. apply Forall_cons in Ho as [Ho Hos]. rewrite zlen_cons in Hsp.
  pose proof (zlen_nonneg offs) as Hl. set (v := rd64 (ram m) (regs m RDX + o)). assert (u64 v) as Hv by (by apply rd64_u64).
  destruct (push_spec v m Hv ltac:(lia)) as (S1 & R1 & W1 & K1). cbn [fmap list_fmap app exec step]. unfold at_. rewrite wrap_small by lia. fold v.
  assert (forall o', 0 <= o' -> rd64 (ram (push v m)) (regs m RDX + o') = rd64 (ram m) (regs m RDX + o')) as Hrd.
  { intros o' Ho'. eapply kept_rd; [exact K1|lia]. }
  rewrite IH; [|done|lia|rewrite (R1 RDX) by done; lia|by rewrite (R1 RDX)|].
  - rewrite (R1 RDX) by done. replace ((fun o' => rd64 (ram (push v m)) (regs m RDX + o')) <$> offs) with ((fun o' => rd64 (ram m) (regs m RDX + o')) <$> offs); [done|].
    symmetry. apply list_fmap_ext. intros i o' Hi. apply Hrd. rewrite Forall_forall in Hos. apply list_elem_of_lookup_2 in Hi. by apply Hos.
  - intros x. unfold push. cbn. unfold wr64. destruct (_ && _) eqn:Hx; [|apply Hb].
    destruct (le_bytes 8 v !! _) as [b|] eqn:Hlk; cbn; [|by split]. pose proof (le_bytes_bytes 8 v) as Hall. by eapply Forall_lookup_1 in Hall.
Qed.
Lemma exec_eoi m t : u64 (regs m RAX) -> 8 <= regs m RSP < 2 ^ 64 - 8 -> exists m1,
  exec None ([PUSH RAX; MOV_AL 0x20; OUT_AL 0x20; POP RAX] ++ t) m = exec None t m1 /\ (forall r, regs m1 r = regs m r) /\
  kept (regs m RSP - 8) (regs m RSP) (ram m) (ram m1) /\ gs m1 = gs m /\ gdtr m1 = gdtr m /\ cr3 m1 = cr3 m /\ ports m1 = ports m ++ [(0x20, 0x20)].
Proof.
  intros Hu Hsp. destruct (push_spec (regs m RAX) m Hu ltac:(lia)) as (S1 & R1 & W1 & K1). set (m1 := push (regs m RAX) m) in *.
  set (v := regs m1 RAX - regs m1 RAX mod 256 + 0x20). assert (v mod 256 = 0x20) as Hv by (unfold v; Z.to_euclidean_division_equations; lia).
  set (m2 := with_ports (set_reg RAX v m1) (ports m1 ++ [(0x20, v mod 256)])).
  assert (exec None ([PUSH RAX; MOV_AL 0x20; OUT_AL 0x20; POP RAX] ++ t) m = exec None t (pop RAX m2)) as He.
  { cbn [app exec step]. fold m1. fold v. change (regs (set_reg RAX v m1) RAX) with (put_reg (regs m1) RAX v RAX). rewrite put_reg_eq. reflexivity. }
  assert (regs m2 RSP = regs m RSP - 8) as S2 by (cbn; by rewrite put_reg_ne).
  destruct (pop_spec RAX m2 ltac:(done) ltac:(lia) ltac:(lia)) as (S3 & V3 & R3 & M3). exists (pop RAX m2). split; [exact He|].
  split_and!; [| |done|done|done|change (ports m ++ [(0x20, v mod 256)] = ports m ++ [(0x20, 0x20)]); by rewrite Hv].
  - intros r. destruct (decide (r = RSP)) as [-> |]; [lia|]. destruct (decide (r = RAX)) as [-> |].
    + rewrite V3, S2. exact W1.
    + rewrite R3 by done. cbn. rewrite put_reg_ne by done. by apply R1.
  - by rewrite M3.
Qed.

(** What [resume_paused_thread] needs: the two structures above the stack *)
Record paused_ok (m : machine) : Prop := {
  paused_bytes : forall x, is_byte (ram m x);
  paused_stack : 48 <= regs m RSP;
  paused_rdi : regs m RSP <= regs m RDI /\ regs m RDI + 0x80 < 2 ^ 64;
  paused_rdx : regs m RSP <= regs m RDX /\ regs m RDX + 0x28 < 2 ^ 64;
}.
Lemma paused_front m t : paused_ok m -> let l := long_return_frame_at (ram m) (regs m RDX) in
  exists m3, exec None ([MOV RAX RSI; MOV_CR3 RAX] ++ [CMP RCX 0; JNE 1; SWAPGS; LABEL 1] ++ (PUSH_MEM RDX <$> [0; 0x8; 0x10; 0x18; 0x20]) ++ t) m = exec None t m3 /\
    regs m3 RSP = regs m RSP - 40 /\ regs m3 RDI = regs m RDI /\ words (ram m3) (regs m3 RSP) 5 = [lr_rip l; lr_cs l; lr_rflags l; lr_rsp l; lr_ss l] /\
    kept (regs m RSP - 40) (regs m RSP) (ram m) (ram m3) /\ cr3 m3 = regs m RSI /\ gs m3 = swapped (regs m RCX =? 0) (gs m) /\ gdtr m3 = gdtr m /\ ports m3 = ports m.
Proof.
  intros [Hb Hsp [Hdi Hdi'] [Hdx Hdx']] l.
  destruct (exec_page_table m ([CMP RCX 0; JNE 1; SWAPGS; LABEL 1] ++ (PUSH_MEM RDX <$> [0; 0x8; 0x10; 0x18; 0x20]) ++ t)) as (m1 & X1 & C1 & R1 & M1 & G1 & _ & L1 & P1).
  destruct (exec_swap m1 ((PUSH_MEM RDX <$> [0; 0x8; 0x10; 0x18; 0x20]) ++ t)) as (m2 & X2 & R2 & M2 & E2 & G2). injection E2 as _ _ _ _ C2 _ _ _ _ L2 _ P2.
  assert (forall r, r <> RAX -> regs m2 r = regs m r) as R2' by (intros r Hr; rewrite R2; by apply R1). rewrite R1, G1 in G2 by done. rewrite M1 in M2.
  pose proof (R2' RSP ltac:(done)) as HS. pose proof (R2' RDX ltac:(done)) as HD.
  rewrite X1, X2, exec_push_mem; [|repeat (apply Forall_cons_2; [lia|]); apply Forall_nil_2|change (zlen _) with 5; lia|lia|lia|by rewrite M2].
  set (vs := _ <$> _). assert (Forall u64 vs) as Hvs by (apply Forall_fmap, Forall_forall; intros o _; cbn; apply rd64_u64; by rewrite M2).
  destruct (pushes_spec vs m2 Hvs) as (S3 & R3 & W3 & K3 & E3 & G3 & _); [change (zlen vs) with 5; lia|]. change (zlen vs) with 5 in *.
  set (m3 := pushes vs m2) in *. clearbody m3. injection E3 as _ _ _ _ C3 _ _ _ _ L3 _ P3. exists m3. split; [reflexivity|]. rewrite HS, M2 in *.
  rewrite S3. replace (regs m RSP - 8 * 5) with (regs m RSP - 40) in * by lia. split_and!; try congruence.
  - rewrite R3 by done. by apply R2'.
  - rewrite (W3 : words _ _ 5 = _). subst vs. cbn [fmap list_fmap rev app]. rewrite HD, M2. reflexivity.
  - exact K3.
Qed.
Lemma resume_paused_ok m : paused_ok m ->
  let f := syscall_frame_at (ram m) (regs m RDI) in let l := long_return_frame_at (ram m) (regs m RDX) in
  exists m' mf, exec None resume_paused_thread m = (if iret_ok (gdtr m) (lr_cs l) (lr_ss l) then Leaves m' else Faults mf) /\
    (forall r, r <> RSP -> regs m' r = frame_reg f r) /\ regs m' RSP = lr_rsp l /\ rip m' = lr_rip l /\ rflags m' = lr_rflags l /\
    cs m' = lr_cs l /\ ss m' = lr_ss l /\ cr3 m' = regs m RSI /\ gs m' = swapped (regs m RCX =? 0) (gs m) /\ ports m' = ports m ++ [(0x20, 0x20)].
Proof.
  intros Hok f l. destruct (paused_front m (load_all frame_offsets ++ LOAD RDI RDI 0x40 :: [PUSH RAX; MOV_AL 0x20; OUT_AL 0x20; POP RAX; IRETQ]) Hok)
    as (m3 & X3 & S3 & D3 & W3 & K3 & C3 & G3 & L3 & P3). fold l in W3. destruct Hok as [Hb Hsp [Hdi Hdi'] [Hdx Hdx']].
  rewrite paused_text. change ([PUSH_MEM RDX 0; PUSH_MEM RDX 0x8; PUSH_MEM RDX 0x10; PUSH_MEM RDX 0x18; PUSH_MEM RDX 0x20]) with (PUSH_MEM RDX <$> [0; 0x8; 0x10; 0x18; 0x20]).
  rewrite X3, exec_loads. destruct (frame_loaded false m3) as (R4 & D4 & S4 & M4 & E4 & G4); [lia|lia|].
  assert (syscall_frame_at (ram m3) (regs m3 RDI) = f) as Hf.
  { unfold f, syscall_frame_at. cbv zeta. rewrite D3. f_equal; (eapply kept_rd; [exact K3|lia]). }
  rewrite Hf, D3 in *. rewrite app_nil_r in *. set (m4 := loads _ _) in *. clearbody m4. injection E4 as _ _ _ _ C4 _ _ _ _ L4 _ P4.
  destruct (exec_last m4 [PUSH RAX; MOV_AL 0x20; OUT_AL 0x20; POP RAX; IRETQ]) as (m5 & X5 & D5 & R5 & M5 & E5 & G5); [lia|lia|].
  rewrite X5. rewrite M4, D4, Hf in D5. injection E5 as _ _ _ _ C5 _ _ _ _ L5 _ P5.
  assert (forall r, r <> RSP -> regs m5 r = frame_reg f r) as R.
  { intros r Hr. destruct (decide (r = RDI)) as [-> |]; [done|]. rewrite R5 by done. by apply R4. }
  assert (regs m5 RSP = regs m RSP - 40) as S5 by (rewrite R5 by done; lia).
  destruct (exec_eoi m5 [IRETQ]) as (m6 & X6 & R6 & K6 & G6 & L6 & C6 & P6).
  { rewrite R by done. unfold f. rewrite offset_frame. by apply rd64_u64. }
  { lia. }
  change [PUSH RAX; MOV_AL 0x20; OUT_AL 0x20; POP RAX; IRETQ] with ([PUSH RAX; MOV_AL 0x20; OUT_AL 0x20; POP RAX] ++ [IRETQ]). rewrite X6.
  exists (set_reg RSP (lr_rsp l) (goto m6 (lr_rip l) (lr_rflags l) (lr_cs l) (lr_ss l))), m6. split.
  - assert (gdtr m6 = gdtr m) as <- by congruence. apply (iretq_words m6); [|rewrite R6; lia|rewrite R6; lia].
    rewrite R6, S5, <- S3, <- W3. rewrite (words_kept _ _ _ _ _ _ K6) by lia. by rewrite M5, M4.
  - split_and!; [|by apply put_reg_eq|done..|change (cr3 m6 = regs m RSI); congruence| |change (ports m6 = ports m ++ [(0x20, 0x20)]); congruence].
    + intros r Hr. change (put_reg (regs m6) RSP (lr_rsp l) r = frame_reg f r). rewrite put_reg_ne by done. rewrite R6. by apply R.
    + change (gs m6 = swapped (regs m RCX =? 0) (gs m)). congruence.
Qed.

(** ** The table of segments *)
Section gdt.
Context `{GdtLaws}.
Lemma create_gdt_ok tss : exists gdt, create_gdt tss = Ok (gdt,
    {| kernel_code_selector := 8; kernel_data_selector := 16; user_code_selector := 27; user_data_selector := 35; tss_selector := 40 |}) /\
  slots gdt = [NullSlot; CodeSlot 0; DataSlot 0; CodeSlot 3; DataSlot 3; SystemSlot; SystemSlot].
Proof.
  pose proof slots_new as L0. unfold create_gdt.
  destruct (append_ok gdt_new kernel_code_segment) as (g1 & A1 & L1); [by rewrite L0|]. rewrite A1. rewrite L0 in *. cbn [expect]. rsimpl.
  destruct (append_ok g1 kernel_data_segment) as (g2 & A2 & L2); [by rewrite L1|]. rewrite A2. rewrite L1 in *. cbn [expect]. rsimpl.
  destruct (append_ok g2 user_code_segment) as (g3 & A3 & L3); [by rewrite L2|]. rewrite A3. rewrite L2 in *. cbn [expect]. rsimpl.
  destruct (append_ok g3 user_data_segment) as (g4 & A4 & L4); [by rewrite L3|]. rewrite A4. rewrite L3 in *. cbn [expect]. rsimpl.
  destruct (append_ok g4 (tss_segment tss)) as (g5 & A5 & L5); [by rewrite L4|]. rewrite A5. rewrite L4 in *. cbn [expect]. rsimpl.
  exists g5. split; [reflexivity|exact L5].
Qed.
End gdt.
(** The registers [enable_syscalls] sets, in a state reached later *)
Definition syscalls_enabled (entry : Z) (s : Selectors) (m : machine) : Prop :=
  let e := enable_syscalls entry s m in STAR m = STAR e /\ LSTAR m = LSTAR e /\ FMASK m = FMASK e.
Definition segments_loaded `{GdtCrate} (gdt : GlobalDescriptorTable) (s : Selectors) (m : machine) : Prop :=
  let e := load_gdt gdt s m in gdtr m = gdtr e /\ tr m = tr e.

(** ** The theorems on threads *)
Section threads.
Context `{Build} (virt_addr : Z -> res never Z) (selectors : Selectors).

(** C16: a system call comes back.  In user mode, with the data of the
    processor in the inactive base of [gs], the instruction and the wrapper
    call [syscall_handler] with interrupts off, on the aligned stack of the
    processor, with a frame of all registers of the caller and with [gs] at
    the data of the processor; for a call the kernel does not know and with no
    other thread ready, the handler resumes the same thread; and the assembly
    then returns to the instruction after the call with every register as it
    was except [rcx] and [r11], which the instruction uses, and [rax], which
    holds the error code, with the page table of the thread and both bases of
    [gs] as they were. *)
Theorem syscall_roundtrip entry m ptr top c n i t : machine_ok m -> kernel_gs_base m = ptr -> cpu_memory ptr top (ram m) ->
  syscalls_enabled entry selectors m -> sched_ok c n -> current_thread c = Some i -> thread_map c !! i = Some t -> thread_queue c = [] ->
  regs m RAX <> WRITE_SYSCALL -> regs m RAX <> KILL_SYSCALL -> virt_addr (regs m RSP) = Ok (regs m RSP) ->
  exists mc frame c', rip (syscall m) = entry /\ exec None syscall_handler_wrapper (syscall m) = Calls mc resume_thread_from_syscall /\
    Z.testbit (rflags mc) 9 = false /\ regs mc RSP mod 16 = 0 /\ get_per_cpu_data mc = ptr /\
    syscall_handler virt_addr selectors (syscall_frame_at (ram mc) (regs mc RSP)) c =
      Ok (ResumeSyscall (thread_local_segment (tstate t)) frame (page_table_pointer (tstate t)), c') /\
    forall mr, syscall_frame_at (ram mr) (regs mr RDI) = frame -> regs mr RSI = page_table_pointer (tstate t) ->
      0 <= regs mr RDI -> regs mr RDI + 0x80 < 2 ^ 64 -> gs mr = gs mc ->
      exists m', exec None resume_thread_from_syscall mr = Leaves m' /\ rip m' = rip m /\
        (forall r, r <> RAX -> r <> RCX -> r <> R11 -> regs m' r = regs m r) /\ regs m' RAX = 2 ^ 64 - 0x2d /\
        rflags m' = Z.lor (Z.land (rflags m) sysret_flags) 2 /\ cr3 m' = page_table_pointer (tstate t) /\ gs m' = gs m.
Proof.
  intros [Hu (Hip & Hfl & _) _] Hg Hmem (HS & HL & HF) Hok Hc Ht Hq Hw Hk Hva. set (m0 := syscall m).
  assert (regs m0 = put_reg (put_reg (regs m) RCX (rip m)) R11 (rflags m)) as R0 by reflexivity.
  assert (forall r, u64 (regs m0 r)) as U0.
  { intros r. rewrite R0. unfold put_reg. destruct (bool_decide _); [done|]. destruct (bool_decide _); [done|apply Hu]. }
  destruct (syscall_enters m0 ptr top U0 Hg Hmem) as (mc & X & F & S' & D & G & E & _). destruct Hmem as [_ _ [_ Hal] _].
  destruct (unsupported_steps virt_addr selectors c n i t (syscall_frame m0) i [] Hok Hc Ht) as (o & t' & Hs & _ & Ht' & Hr);
    [by split_and!|by rewrite Hq|]. cbn in Ht'. rewrite lookup_insert_eq in Ht'. injection Ht' as <-. injection Hr as <-.
  exists mc, (frame_of_regs (set_rax (regs_of_syscall (syscall_frame m0)) (wrap 64 (errno OperationNotSupported))) (regs m RSP)). eexists.
  split_and!; [exact HL|exact X| | |by injection G|rewrite F; exact Hs|].
  - apply (f_equal rflags_of_env) in E. rewrite (E : rflags mc = rflags m0). change (rflags m0) with (Z.ldiff (rflags m) (FMASK m)). rewrite HF, Z.ldiff_spec. by rewrite andb_comm.
  - rewrite S'. Z.to_euclidean_division_equations. lia.
  - intros mr Hf Hpt Hlo Hhi Hgs. destruct (resume_syscall_ok mr Hlo Hhi) as (m' & X' & R' & I' & F' & C' & G' & _). rewrite Hf in *.
    exists m'. split_and!; [exact X'|exact I'| |by rewrite R'|exact F'|by rewrite C'|].
    + intros r Ha Hcx H11. rewrite R'. destruct r; done.
    + rewrite G', <- Hg in *. rewrite G in Hgs. injection Hgs as -> ->. reflexivity.
Qed.
(** C17: a thread that was preempted goes on as it was.  If an interrupt found
    the processor in [m] and the thread is saved with the registers of the
    interrupt's frame, resuming it and running the assembly on the two
    structures it makes loads every register, the flags, the segments and the
    instruction pointer of [m], with the page table of the thread; [gs] is
    swapped exactly for a user thread. *)
Theorem preemption_roundtrip m t c : cs m = (match privilage_level t with User => user_code_selector | Kernel => kernel_code_selector end) selectors ->
  ss m = (match privilage_level t with User => user_data_selector | Kernel => kernel_data_selector end) selectors ->
  let saved := with_state t (regs_of_interrupt (interrupt_frame m)) (regs m RSP) (Paused (rip m) (rflags m)) in
  exists frame ret k c', resume_thread selectors saved c = Ok (ResumePaused (thread_local_segment (tstate t)) frame (page_table_pointer (tstate t)) ret k, c') /\
    current_thread c' = Some (id t) /\
    forall mr, paused_ok mr -> syscall_frame_at (ram mr) (regs mr RDI) = frame -> long_return_frame_at (ram mr) (regs mr RDX) = ret ->
      regs mr RSI = page_table_pointer (tstate t) -> regs mr RCX = k -> iret_ok (gdtr mr) (cs m) (ss m) = true ->
      exists m', exec None resume_paused_thread mr = Leaves m' /\ (forall r, regs m' r = regs m r) /\ rip m' = rip m /\ rflags m' = rflags m /\
        cs m' = cs m /\ ss m' = ss m /\ cr3 m' = page_table_pointer (tstate t) /\
        gs m' = swapped (match privilage_level t with User => true | Kernel => false end) (gs mr).
Proof.
  intros Hcs Hss saved. unfold saved, resume_thread. cbn [with_state state tstate privilage_level id thread_local_segment page_table_pointer stack_pointer registers].
  eexists _, _, _, _. split; [reflexivity|]. split; [done|]. intros mr Hok Hf Hl Hpt Hk Hi.
  destruct (resume_paused_ok mr Hok) as (m' & mf & X & R & S' & I' & F' & C' & T' & P' & G' & _). rewrite Hf, Hl in *.
  assert (forall l, l = return_frame selectors saved (rip m) (rflags m) ->
    lr_cs l = cs m /\ lr_ss l = ss m /\ lr_rsp l = regs m RSP /\ lr_rip l = rip m /\ lr_rflags l = rflags m) as HL.
  { intros l ->. unfold return_frame. cbn. destruct (privilage_level t); by rewrite Hcs, Hss. }
  destruct (HL _ eq_refl) as (L1 & L2 & L3 & L4 & L5). fold saved in X, S', I', F', C', T'. rewrite L1, L2, Hi in X.
  exists m'. split; [exact X|]. rewrite I', F', C', T', P', G', Hpt, Hk. split_and!; try done.
  - intros r. destruct (decide (r = RSP)) as [-> |]; [by rewrite S'|]. rewrite R by done. by destruct r.
  - cbn. by destruct (privilage_level t).
Qed.
End threads.

(** C18: after a system call the next interrupt cannot return.  [sysretq] takes
    its code selector 16 above the value [enable_syscalls] gives it, which is
    two entries above the user code segment, where the descriptor of the task
    segment is: the thread goes on in user mode, but an interrupt saves that
    selector, and the [iretq] of the wrapper faults on it. *)
Theorem interrupt_after_syscall_faults `{GdtLaws} tss gdt s entry m0 m gate_cs handler rsp0 ist ptr : create_gdt tss = Ok (gdt, s) ->
  syscalls_enabled entry s m0 -> segments_loaded gdt s m -> cs m = cs (sysretq m0) -> ss m = ss (sysretq m0) -> machine_ok m -> own_gs ptr m ->
  256 <= interrupt_stack rsp0 ist m < 2 ^ 64 ->
  cs m = tss_selector s + 3 /\ exists mc tail, exec None handler_wrapper_noerrcode (deliver gate_cs handler rsp0 ist None m) = Calls mc tail /\
    forall mr, handler_kept 20 mc mr -> exists mf, exec None tail mr = Faults mf.
Proof.
  intros Hgdt (HS & _) (HG & _) Hcs Hss Hm Hg Hsp. destruct (create_gdt_ok tss) as (gdt' & Hgdt' & Hsl). rewrite Hgdt in Hgdt'. injection Hgdt' as <- ->.
  assert (cs m = 43) as Hc by (rewrite Hcs; cbn [sysretq goto cs]; rewrite HS; reflexivity). split; [exact Hc|].
  destruct (wrapper_ok m gate_cs handler rsp0 ist None ptr Hm Hg (Forall_nil_2 _) Hsp) as (mc & X & _ & _ & _ & _ & _ & R).
  exists mc, (wrapper_tail None). split; [exact X|]. intros mr Hr. destruct (R mr Hr) as (m' & mf & Hx & _). exists mf.
  rewrite HG in Hx. cbn [load_gdt gdtr] in Hx. rewrite Hsl, Hc in Hx. exact Hx.
Qed.

(** ** Samples *)
Module SampleEntry.
(** Data of the processor at 0x10000, its stack below 0x20000 *)
Definition ptr : Z := 0x10000.
Definition top : Z := 0x20000.
Definition memory : Z -> Z := wr64 (fun _ => 0) (ptr + 8) top.
Definition regs_of (a : Z) (r : reg) : Z := match r with RSP => 0x6ff0 | RAX => a | RBX => 5 | R15 => 15 | _ => 0 end.
Definition segments : list Slot := [NullSlot; CodeSlot 0; DataSlot 0; CodeSlot 3; DataSlot 3; SystemSlot; SystemSlot].
(** User code, with 7 in [rax], in the given segments *)
Definition user (c s : Z) : machine :=
  {| regs := regs_of 7; rip := 0x401000; rflags := 0x202; zf := false; cs := c; ss := s; cr3 := 0x5000; gs_base := 0; kernel_gs_base := ptr;
     STAR := Z.lor (Z.shiftl 8 32) (Z.shiftl 27 48); LSTAR := 0x8000; FMASK := 0x40700; EFER := 0; gdtr := segments; tr := 40;
     ram := memory; ports := [] |}.
Lemma user_ok c s : 0 <= c < 2 ^ 64 -> 0 <= s < 2 ^ 64 -> c mod 4 = 3 -> machine_ok (user c s).
Proof.
  intros Hc Hs H3. split; cbn [user regs rip rflags cs ss]; [|unfold u64; lia|by right]. intros r. unfold u64. destruct r; cbn; lia.
Qed.
Lemma memory_ok : cpu_memory ptr top memory.
Proof. split; unfold ptr, top; [lia|vm_compute; reflexivity|split; [lia|reflexivity]|lia]. Qed.
#[export] Instance table : GdtCrate :=
  { GlobalDescriptorTable := list Slot; gdt_new := [NullSlot];
    append g d := if zlen (g ++ slots_of d) <=? 8 then Some (g ++ slots_of d, 8 * zlen g + dpl d) else None; slots g := g }.
#[export] Instance table_laws : GdtLaws.
Proof. split; [done|]. intros g d Hl. cbn in *. rewrite (proj2 (Z.leb_le _ _) Hl). by eexists. Qed.
(** Thread 1 is running, with no other thread. *)
Definition alone : SchedulerCpuContext := with_current (with_queue (ctx Sample.one) []) (Some 1).
Lemma alone_ok : sched_ok alone 2.
Proof.
  destruct (spawn_ok Sample.kernel_ctx 1 [] (Sample.thread 0x7000 8192) (kernel_loaded_ok 1 ltac:(lia)) (Sample.thread_new _ _) ltac:(lia)) as (Hone & _).
  by destruct (resume_next_ok Sample.selectors (ctx Sample.one) 2 1 [] Hone eq_refl) as (_ & _ & _ & _ & ?).
Qed.
(** A kernel stack below 0x8000 with the structures of a thread at 0x9000 and
    0x9100 *)
Definition write_words (f : Z -> Z) (a : Z) (vs : list Z) : Z -> Z := (foldl (fun p v => (wr64 p.1 p.2 v, p.2 + 8)) (f, a) vs).1.
Definition kernel : machine :=
  {| regs r := match r with RSP => 0x8000 | RDI => 0x9000 | RDX => 0x9100 | RSI => 0x5000 | _ => 0 end;
     rip := 0; rflags := 0x2; zf := false; cs := 8; ss := 16; cr3 := 0x1000; gs_base := ptr; kernel_gs_base := 0;
     STAR := Z.lor (Z.shiftl 8 32) (Z.shiftl 27 48); LSTAR := 0x8000; FMASK := 0x40700; EFER := 0; gdtr := segments; tr := 40;
     ram := write_words (write_words (fun _ => 0) 0x9000 [15; 0; 0; 0; 0; 0; 0; 0; 0; 0; 0; 0; 5; 7; 0; 0x6ff0]) 0x9100 [35; 0x6ff0; 0x202; 27; 0x401000];
     ports := [] |}.
Lemma write_bytes f a v : (forall x, is_byte (f x)) -> forall x, is_byte (wr64 f a v x).
Proof.
  intros Hf x. unfold wr64. destruct (_ && _); [|apply Hf]. destruct (le_bytes 8 v !! _) as [b|] eqn:Hb; cbn; [|by split].
  pose proof (le_bytes_bytes 8 v) as Hall. by eapply Forall_lookup_1 in Hall.
Qed.
Lemma kernel_paused : paused_ok kernel.
Proof.
  split; [|cbn; lia..]. cbn [kernel ram write_words foldl fst snd]. intros x. do 21 (revert x; apply write_bytes; intros x). by split.
Qed.
End SampleEntry.
Import SampleEntry.

Lemma interrupt_transparent_witness : exists mc tail, exec None handler_wrapper_noerrcode (deliver 8 0x8000 top None None (user 27 35)) = Calls mc tail /\
  if_rax (interrupt_noerrcode_frame_at (ram mc) (regs mc RSP)) = 7 /\ get_per_cpu_data mc = ptr /\ exists m', exec None tail mc = Leaves m' /\ rip m' = 0x401000.
Proof.
  destruct (interrupt_transparent (user 27 35) 8 0x8000 top None ptr) as (mc & tail & X & F & _ & _ & G & _ & R);
    [apply user_ok; lia || reflexivity|reflexivity|vm_compute; split; discriminate || reflexivity|].
  exists mc, tail. split; [exact X|]. split; [by rewrite F|]. split; [exact G|].
  destruct (R mc) as (m' & X' & _ & I' & _); [by split_and!|vm_compute; reflexivity|]. exists m'. split; [exact X'|exact I'].
Defined.
Lemma exception_misaligned_witness : exists mc tail, exec None handler_wrapper_errcode (deliver 8 0x8000 top None (Some 4) (user 27 35)) = Calls mc tail /\
  err_code (interrupt_errcode_frame_at (ram mc) (regs mc RSP)) = 4 /\ regs mc RSP mod 16 = 8.
Proof.
  destruct (exception_misaligned (user 27 35) 8 0x8000 top None 4 ptr) as (mc & tail & X & F & A & _);
    [apply user_ok; lia || reflexivity|reflexivity|vm_compute; split; discriminate || reflexivity|vm_compute; split; discriminate || reflexivity|].
  exists mc, tail. split; [exact X|]. split; [by rewrite F|exact A].
Defined.
Lemma syscall_roundtrip_witness : exists mc frame c', exec None syscall_handler_wrapper (syscall (user 27 35)) = Calls mc resume_thread_from_syscall /\
  get_per_cpu_data mc = ptr /\
  @syscall_handler dev_build Sample.virt_addr Sample.selectors (syscall_frame_at (ram mc) (regs mc RSP)) alone = Ok (ResumeSyscall 0 frame 0x5000, c').
Proof.
  destruct (@syscall_roundtrip dev_build Sample.virt_addr Sample.selectors 0x8000 (user 27 35) ptr top alone 2 1 (with_id (Sample.thread 0x7000 8192) 1))
    as (mc & frame & c' & _ & X & _ & _ & G & F & _);
    [apply user_ok; lia || reflexivity|reflexivity|exact memory_ok|by split_and!|exact alone_ok|reflexivity|vm_compute; reflexivity|reflexivity|
     vm_compute; discriminate|vm_compute; discriminate|vm_compute; reflexivity|].
  exists mc, frame, c'. split; [exact X|]. split; [exact G|exact F].
Defined.
Lemma preemption_roundtrip_witness : exists m', exec None resume_paused_thread kernel = Leaves m' /\ rip m' = 0x401000 /\ regs m' RAX = 7 /\ gs m' = (0, ptr).
Proof.
  destruct (preemption_roundtrip Sample.selectors (user 27 35) (Sample.thread 0x7000 8192) alone) as (frame & ret & k & c' & Hr & _ & Hrun);
    [reflexivity|reflexivity|]. injection Hr as <- <- <- _.
  destruct (Hrun kernel kernel_paused) as (m' & X & R & I' & _ & _ & _ & _ & G); [vm_compute; reflexivity..|].
  exists m'. split; [exact X|]. split; [exact I'|]. split; [by rewrite R|exact G].
Defined.
Lemma interrupt_after_syscall_faults_witness : exists mc tail, exec None handler_wrapper_noerrcode (deliver 8 0x8000 top None None (user 43 35)) = Calls mc tail /\
  exists mf, exec None tail mc = Faults mf.
Proof.
  destruct (@interrupt_after_syscall_faults table table_laws 0 segments Sample.selectors 0x8000 (user 27 35) (user 43 35) 8 0x8000 top None ptr) as (_ & mc & tail & X & R);
    [vm_compute; reflexivity|by split_and!|by split_and!|vm_compute; reflexivity|vm_compute; reflexivity|apply user_ok; lia || reflexivity|reflexivity|
     vm_compute; split; discriminate || reflexivity|].
  exists mc, tail. split; [exact X|]. apply (R mc). by split_and!.
Defined.
