(* ===== verification/Elf.v ===== *)
(** * Reading an ELF file

    src/kernel/src/arch/x86_64/scheduler/elf.rs: the header and the two tables
    of a file that is open at a descriptor, read through the server of Vfs.v.

    The packed structures are their bytes, as in Bytes.v.  What is returned has
    been checked, whatever file system is behind the server; what is returned of
    a file on a disk is shown for the ext2 driver, which reads from the first
    block of a file wherever the head is. *)

From stdpp Require Import gmap.
From S2P Require Import Prelude Bytes Disk Gpt Storage Ext2Layout Ext2Fs Ext2Iter Ext2Create Ext2File Vfs.

Definition ELF_MAGIC : list Z := [0x7f; 0x45; 0x4c; 0x46].
Definition LONG_BIT : Z := 2.
Definition SYSTEM_V : Z := 0.
Definition LittleEndian : Z := 1.

(** ** [ElfHeader] *)
Abbreviation ElfHeader := (list Z) (only parsing).
Definition ELF_HEADER_BYTES : Z := 64.
Definition magic (h : ElfHeader) : list Z := take 4 h.
Definition bit : ElfHeader -> Z := u_at 1 4.
Definition encoding : ElfHeader -> Z := u_at 1 5.
Definition abi : ElfHeader -> Z := u_at 1 7.
Definition entry_offset : ElfHeader -> Z := u_at 8 24.
Definition header_table_offset : ElfHeader -> Z := u_at 8 32.
Definition section_header_table_offset : ElfHeader -> Z := u_at 8 40.
Definition program_header_table_entry_size : ElfHeader -> Z := u_at 2 54.
Definition program_header_table_entry_count : ElfHeader -> Z := u_at 2 56.
Definition section_header_table_entry_size : ElfHeader -> Z := u_at 2 58.
Definition section_header_table_entry_count : ElfHeader -> Z := u_at 2 60.

(** ** [ElfProgramHeaderEntry] and [ELFSectionHeaderEntry] *)
Abbreviation ElfProgramHeaderEntry := (list Z) (only parsing).
Definition PROGRAM_HEADER_BYTES : Z := 56.
Definition segment_type : ElfProgramHeaderEntry -> Z := u_at 4 0.
Definition ph_flags : ElfProgramHeaderEntry -> Z := u_at 4 4.
Definition ph_offset : ElfProgramHeaderEntry -> Z := u_at 8 8.
Definition ph_vaddr : ElfProgramHeaderEntry -> Z := u_at 8 16.
Definition size_in_file : ElfProgramHeaderEntry -> Z := u_at 8 32.
Definition size_in_memory : ElfProgramHeaderEntry -> Z := u_at 8 40.
Definition ph_alignment : ElfProgramHeaderEntry -> Z := u_at 8 48.
Abbreviation ELFSectionHeaderEntry := (list Z) (only parsing).
Definition SECTION_HEADER_BYTES : Z := 64.

Record ElfFile := {
  header : ElfHeader;
  program_header_table : list ElfProgramHeaderEntry;
  section_header_table : list ELFSectionHeaderEntry;
}.
Inductive ElfErr := FsErr (e : ErrNo) | NotELF | ElfUnsupported | ElfCorrupted.

Section elf.
Context `{Build} {D F I : Type} `{FileImpl D F I}.
Abbreviation EM := (M (Vfs F I) ElfErr).

(** [r?] on an answer of the server *)
Definition try_fs (r : ErrNo + Z) : EM Z := match r with inr n => mret n | inl e => throw (FsErr e) end.

Definition read_elf_header (fd : Z) : EM ElfHeader :=
  '(r, buf) ← vfs_read fd (zeros 1024);
  bytes_read ← try_fs r;
  if bytes_read <? ELF_HEADER_BYTES then throw NotELF else
  elf_header ← lift (slice buf 0 ELF_HEADER_BYTES);
  if negb (bool_decide (magic elf_header = ELF_MAGIC)) then throw NotELF else
  if negb (bit elf_header =? LONG_BIT) || negb (abi elf_header =? SYSTEM_V) || negb (encoding elf_header =? LittleEndian)
  then throw ElfUnsupported else
  mret elf_header.

(** A table of [count] entries of [entry_size] bytes, read into a buffer *)
Definition read_table (fd offset entry_size count : Z) : EM (list Z) :=
  r ← vfs_lseek fd SeekSet (swrap 64 offset);
  _ ← try_fs r;
  table_size ← lift (umul 16 entry_size count);
  '(r, buf) ← vfs_read fd (zeros table_size);
  bytes_read ← try_fs r;
  if bytes_read <? table_size then throw NotELF else mret buf.
Fixpoint program_entries (buf : list Z) (entry_size : Z) (idxs : list Z) : res ElfErr (list ElfProgramHeaderEntry) :=
  match idxs with
  | [] => Ok []
  | i :: idxs =>
      offset ← umul 16 i entry_size;
      entry ← slice buf offset (offset + PROGRAM_HEADER_BYTES);
      if size_in_memory entry <? size_in_file entry then Err ElfCorrupted else
      rest ← program_entries buf entry_size idxs;
      Ok (entry :: rest)
  end.
Definition read_program_headers (elf_header : ElfHeader) (fd : Z) : EM (list ElfProgramHeaderEntry) :=
  buf ← read_table fd (header_table_offset elf_header) (program_header_table_entry_size elf_header)
          (program_header_table_entry_count elf_header);
  lift (program_entries buf (program_header_table_entry_size elf_header) (seqZ 0 (program_header_table_entry_count elf_header))).
Fixpoint section_entries (buf : list Z) (entry_size : Z) (idxs : list Z) : res ElfErr (list ELFSectionHeaderEntry) :=
  match idxs with
  | [] => Ok []
  | i :: idxs =>
      offset ← umul 16 i entry_size;
      entry ← slice buf offset (offset + SECTION_HEADER_BYTES);
      rest ← section_entries buf entry_size idxs;
      Ok (entry :: rest)
  end.
Definition read_section_headers (elf_header : ElfHeader) (fd : Z) : EM (list ELFSectionHeaderEntry) :=
  buf ← read_table fd (section_header_table_offset elf_header) (section_header_table_entry_size elf_header)
          (section_header_table_entry_count elf_header);
  lift (section_entries buf (section_header_table_entry_size elf_header) (seqZ 0 (section_header_table_entry_count elf_header))).
Definition read_elf (fd : Z) : EM ElfFile :=
  elf_header ← read_elf_header fd;
  program_headers ← read_program_headers elf_header fd;
  section_headers ← read_section_headers elf_header fd;
  mret {| header := elf_header; program_header_table := program_headers; section_header_table := section_headers |}.
End elf.

(** ** What is returned has been checked *)
Section checked.
Context `{Build} {D F I : Type} `{FileImpl D F I}.
(** A header this kernel supports *)
Record supported (h : ElfHeader) : Prop := {
  e_len : zlen h = 64;
  e_magic : magic h = ELF_MAGIC;
  e_bit : bit h = LONG_BIT;
  e_abi : abi h = SYSTEM_V;
  e_encoding : encoding h = LittleEndian;
}.
Lemma slice_zlen {E A} (l s : list A) a b : 0 <= b - a -> slice (E:=E) l a b = Ok s -> zlen s = b - a.
Proof.
  intros Hab. unfold slice. destruct (_ && _) eqn:Hc; [|done]. boom. intros [= <-]. unfold zlen in *. rewrite length_take, length_drop. lia.
Qed.
Lemma program_entries_ok buf esz idxs es : program_entries buf esz idxs = Ok es ->
  zlen es = zlen idxs /\ Forall (fun e => zlen e = 56 /\ size_in_file e <= size_in_memory e) es.
Proof.
  revert es. induction idxs as [|i idxs IH]; intros es He; cbn [program_entries] in He; [by simplify_eq|].
  apply res_bind_ok in He as (off & _ & He). apply res_bind_ok in He as (e & Hs & He).
  destruct (Z.ltb_spec (size_in_memory e) (size_in_file e)); [done|]. apply res_bind_ok in He as (rest & Hr & [= <-]).
  destruct (IH _ Hr) as [Hl Hf]. apply slice_zlen in Hs; [|unfold PROGRAM_HEADER_BYTES; lia]. unfold PROGRAM_HEADER_BYTES in Hs.
  rewrite !zlen_cons. split; [lia|]. constructor; [|done]. split; [lia|done].
Qed.
Lemma section_entries_ok buf esz idxs es : section_entries buf esz idxs = Ok es -> zlen es = zlen idxs /\ Forall (fun e => zlen e = 64) es.
Proof.
  revert es. induction idxs as [|i idxs IH]; intros es He; cbn [section_entries] in He; [by simplify_eq|].
  apply res_bind_ok in He as (off & _ & He). apply res_bind_ok in He as (e & Hs & He). apply res_bind_ok in He as (rest & Hr & [= <-]).
  destruct (IH _ Hr) as [Hl Hf]. apply slice_zlen in Hs; [|unfold SECTION_HEADER_BYTES; lia]. unfold SECTION_HEADER_BYTES in Hs.
  rewrite !zlen_cons. split; [lia|]. constructor; [lia|done].
Qed.
Lemma read_elf_header_supported fd st h st' : read_elf_header fd st = (Ok h, st') -> supported h.
Proof.
  unfold read_elf_header. intros Hr. apply M_bind_ok in Hr as ([r buf] & s1 & _ & Hr). apply M_bind_ok in Hr as (n & s2 & _ & Hr).
  destruct (n <? ELF_HEADER_BYTES); [done|]. apply M_bind_ok in Hr as (h' & s3 & Hs & Hr). injection Hs as Hs _.
  case_bool_decide as Hm; [|done]. cbn [negb] in Hr.
  destruct (bit h' =? LONG_BIT) eqn:E1, (abi h' =? SYSTEM_V) eqn:E2, (encoding h' =? LittleEndian) eqn:E3; try done. boom.
  injection Hr as <- _. apply slice_zlen in Hs; [|done]. split; done.
Qed.

(** An ELF file that is accepted has been checked: whatever the file
    holds and however the file system answers, a header that is returned has
    its 64 bytes, the magic number, and asks for 64 bits, System V and little
    endian; there are as many entries in the tables as the header says; and
    every program header has its 56 bytes and asks for at least as much memory
    as it has in the file. *)
Theorem elf_checked fd st e st' : read_elf fd st = (Ok e, st') ->
  supported (header e) /\
  zlen (program_header_table e) = Z.max 0 (program_header_table_entry_count (header e)) /\
  Forall (fun p => zlen p = 56 /\ size_in_file p <= size_in_memory p) (program_header_table e) /\
  zlen (section_header_table e) = Z.max 0 (section_header_table_entry_count (header e)) /\
  Forall (fun s => zlen s = 64) (section_header_table e).
Proof.
  unfold read_elf. intros Hr. apply M_bind_ok in Hr as (h & s1 & Hh & Hr). apply M_bind_ok in Hr as (ps & s2 & Hp & Hr).
  apply M_bind_ok in Hr as (ss & s3 & Hs & Hr). injection Hr as <- _. cbn [header program_header_table section_header_table].
  unfold read_program_headers in Hp. apply M_bind_ok in Hp as (b1 & s4 & _ & Hp). injection Hp as Hp _.
  unfold read_section_headers in Hs. apply M_bind_ok in Hs as (b2 & s5 & _ & Hs). injection Hs as Hs _.
  apply program_entries_ok in Hp as [Hp1 Hp2]. apply section_entries_ok in Hs as [Hs1 Hs2].
  unfold zlen in Hp1, Hs1. rewrite length_seqZ in Hp1, Hs1. unfold zlen.
  split_and!; [by eapply read_elf_header_supported|lia|done|lia|done].
Qed.
End checked.

(** ** A file is read back *)
(** The server, in the states [P st hd], has at the descriptor a file with the
    bytes [data] and the head at [hd]; a read at the head delivers the bytes
    from the offset [from hd] on. *)
Section view.
Context `{Build} {D F I : Type} `{FileImpl D F I}.
Record file_view (from : Z -> Z) (P : Vfs F I -> Z -> Prop) (fd : Z) (data : list Z) : Prop := {
  view_read st hd buf : P st hd -> 0 <= hd <= zlen data -> zlen buf < 2 ^ 63 ->
    let n := Z.min (zlen buf) (zlen data - hd) in
    exists st', vfs_step (Read fd buf) st = Ok (Some (inr n), patch buf 0 (piece data (from hd) n), st') /\ P st' (hd + n);
  view_seek st hd o : P st hd -> 0 <= o < 2 ^ 63 ->
    exists st' r, vfs_step (Lseek fd SeekSet o) st = Ok (Some (inr r), [], st') /\ P st' o;
}.
(** A table of [n]-byte entries in the file, where [from] leads from the offset
    the header says *)
Definition table_in (from : Z -> Z) (data : list Z) (off n : Z) (es : list (list Z)) : Prop :=
  0 <= off < 2 ^ 63 /\ Forall (fun e => zlen e = n) es /\ piece data (from off) (n * zlen es) = concat es /\
  off + n * zlen es <= zlen data /\ n * zlen es < 2 ^ 16.
Record elf_in (from : Z -> Z) (data : list Z) (e : ElfFile) : Prop := {
  f_header : piece data 0 64 = header e;
  f_supported : supported (header e);
  f_phentsize : program_header_table_entry_size (header e) = 56;
  f_phnum : program_header_table_entry_count (header e) = zlen (program_header_table e);
  f_phs : table_in from data (header_table_offset (header e)) 56 (program_header_table e);
  f_sizes : Forall (fun p => size_in_file p <= size_in_memory p) (program_header_table e);
  f_shentsize : section_header_table_entry_size (header e) = 64;
  f_shnum : section_header_table_entry_count (header e) = zlen (section_header_table e);
  f_shs : table_in from data (section_header_table_offset (header e)) 64 (section_header_table e);
}.
Context (from : Z -> Z) (P : Vfs F I -> Z -> Prop) (fd : Z) (data : list Z) (Hv : file_view from P fd data).
Hypothesis from_ok : from 0 = 0 /\ forall o, 0 <= o -> 0 <= from o <= o.

Lemma ask_ok {E} op st r buf st' : vfs_step op st = Ok (Some r, buf, st') -> ask (E:=E) op st = (Ok (r, buf), st').
Proof. intros Hs. unfold ask. by rewrite Hs. Qed.
Lemma zeros_zlen n : 0 <= n -> zlen (zeros n) = n.
Proof. intros. unfold zeros. rewrite zlen_replicate. lia. Qed.
Lemma read_table_ok st hd off n es : P st hd -> 0 <= n -> table_in from data off n es ->
  exists st' hd', read_table fd off n (zlen es) st = (Ok (concat es), st') /\ P st' hd' /\ 0 <= hd'.
Proof.
  intros Hp Hn (Ho & Hl & Hc & Hd & Hs). pose proof (zlen_nonneg es). unfold read_table, vfs_lseek, vfs_read.
  destruct (view_seek _ _ _ _ Hv st hd off Hp Ho) as (s1 & r & Hsk & Hp1).
  destruct (view_read _ _ _ _ Hv s1 off (zeros (n * zlen es)) Hp1) as (s2 & Hrd & Hp2); [nia|rewrite zeros_zlen; nia|].
  rewrite zeros_zlen in Hrd, Hp2 by nia. replace (Z.min (n * zlen es) (zlen data - off)) with (n * zlen es) in Hrd, Hp2 by nia.
  rewrite Hc in Hrd. exists s2, (off + n * zlen es). split; [|split; [done|nia]].
  rewrite swrap_small by lia. rewrite M_assoc. mrun (ask_ok (E:=ElfErr) _ _ _ _ _ Hsk). cbv beta iota. mstep. cbn [try_fs]. mstep.
  rewrite umul_ok by nia. mstep. mrun (ask_ok (E:=ElfErr) _ _ _ _ _ Hrd). cbv beta iota. cbn [try_fs]. mstep.
  rewrite Z.ltb_irrefl. unfold mret, M_ret. f_equal. f_equal.
  assert (zlen (concat es) = n * zlen es) as Hcl by (rewrite <- Hc; destruct from_ok as [_ Hfr]; specialize (Hfr off ltac:(lia)); apply zlen_piece; nia).
  unfold patch. cbn [Z.to_nat take]. rewrite drop_ge; [by rewrite app_nil_r|]. unfold zlen, zeros in *. rewrite length_replicate. lia.
Qed.

Lemma entry_slice n (pre : list (list Z)) e rest : 0 <= n -> Forall (fun e => zlen e = n) (pre ++ e :: rest) -> n * zlen (pre ++ e :: rest) < 2 ^ 16 ->
  umul (E:=ElfErr) 16 (zlen pre) n = Ok (n * zlen pre) /\
  slice (E:=ElfErr) (concat (pre ++ e :: rest)) (n * zlen pre) (n * zlen pre + n) = Ok e.
Proof.
  intros Hn Hf Hs. apply Forall_app in Hf as [Hpre Hf]. apply Forall_cons_1 in Hf as [He Hrest].
  rewrite zlen_app, zlen_cons in Hs. pose proof (zlen_nonneg pre). pose proof (zlen_nonneg rest). split; [rewrite umul_ok by nia; f_equal; lia|].
  rewrite concat_app. cbn [concat]. rewrite <- (zlen_concat pre n Hpre), <- He. apply slice_mid.
Qed.
Lemma program_entries_all es : Forall (fun e => zlen e = 56) es -> Forall (fun p => size_in_file p <= size_in_memory p) es ->
  56 * zlen es < 2 ^ 16 -> program_entries (concat es) 56 (seqZ 0 (zlen es)) = Ok es.
Proof.
  intros Hl Hsz Hs. enough (forall rest pre, es = pre ++ rest -> program_entries (concat es) 56 (seqZ (zlen pre) (zlen rest)) = Ok rest) as Hg
    by exact (Hg es [] eq_refl).
  induction rest as [|e rest IH]; intros pre ->; [done|]. pose proof (zlen_nonneg rest). pose proof (zlen_nonneg pre).
  rewrite zlen_cons, seqZ_cons by lia. cbn [program_entries]. destruct (entry_slice 56 pre e rest) as [Hu Hsl]; [lia|done|done|].
  rewrite Hu. rsimpl. unfold PROGRAM_HEADER_BYTES. rewrite Hsl. rsimpl. apply Forall_app in Hsz as Hsz'. destruct Hsz' as [_ Hsz'].
  apply Forall_cons_1 in Hsz' as [He _]. bfalse (size_in_memory e <? size_in_file e).
  specialize (IH (pre ++ [e])). rewrite zlen_app, zlen_cons, zlen_nil, Z.add_0_r, <- app_assoc in IH. cbn [app] in IH.
  replace (Z.succ (zlen pre)) with (zlen pre + 1) by lia. replace (Z.pred (1 + zlen rest)) with (zlen rest) by lia.
  by rewrite IH.
Qed.
Lemma section_entries_all es : Forall (fun e => zlen e = 64) es -> 64 * zlen es < 2 ^ 16 ->
  section_entries (concat es) 64 (seqZ 0 (zlen es)) = Ok es.
Proof.
  intros Hl Hs. enough (forall rest pre, es = pre ++ rest -> section_entries (concat es) 64 (seqZ (zlen pre) (zlen rest)) = Ok rest) as Hg
    by exact (Hg es [] eq_refl).
  induction rest as [|e rest IH]; intros pre ->; [done|]. pose proof (zlen_nonneg rest). pose proof (zlen_nonneg pre).
  rewrite zlen_cons, seqZ_cons by lia. cbn [section_entries]. destruct (entry_slice 64 pre e rest) as [Hu Hsl]; [lia|done|done|].
  rewrite Hu. rsimpl. unfold SECTION_HEADER_BYTES. rewrite Hsl. rsimpl.
  specialize (IH (pre ++ [e])). rewrite zlen_app, zlen_cons, zlen_nil, Z.add_0_r, <- app_assoc in IH. cbn [app] in IH.
  replace (Z.succ (zlen pre)) with (zlen pre + 1) by lia. replace (Z.pred (1 + zlen rest)) with (zlen rest) by lia.
  by rewrite IH.
Qed.
Lemma read_elf_header_ok st h : P st 0 -> piece data 0 64 = h -> supported h -> exists st' hd',
  read_elf_header fd st = (Ok h, st') /\ P st' hd' /\ 0 <= hd'.
Proof.
  intros Hp Hh [Hl Hm Hbi Hab Hen]. pose proof (zlen_nonneg data) as Hdn. destruct (view_read _ _ _ _ Hv st 0 (zeros 1024) Hp) as (s1 & Hrd & Hp1); [lia|done|].
  rewrite zeros_zlen, Z.sub_0_r in Hrd, Hp1 by lia. rewrite Z.add_0_l in Hp1. rewrite (proj1 from_ok) in Hrd.
  assert (64 <= zlen data) as Hd by (rewrite <- Hh in Hl; unfold piece in Hl; rewrite zlen_take, zlen_drop in Hl; lia).
  set (n := Z.min 1024 (zlen data)) in *. assert (64 <= n <= zlen data) as Hn64 by lia. clearbody n.
  exists s1, n. split; [|split; [done|lia]].
  unfold read_elf_header, vfs_read. mrun (ask_ok (E:=ElfErr) _ _ _ _ _ Hrd). cbv beta iota. cbn [try_fs]. mstep. unfold ELF_HEADER_BYTES. bfalse (n <? 64).
  assert (slice (E:=ElfErr) (patch (zeros 1024) 0 (piece data 0 n)) 0 64 = Ok h) as Hs.
  { assert (zlen (piece data 0 n) = n) as Hn by (apply zlen_piece; lia).
    unfold patch. change (take (Z.to_nat 0) (zeros 1024)) with (@nil Z). cbn [app]. set (tail := drop _ _). pose proof (zlen_nonneg tail).
    rewrite slice_ok; [|lia|rewrite zlen_app, Hn; lia].
    f_equal. rewrite Z.sub_0_r, drop_0, take_app_le by (unfold zlen in Hn; lia). rewrite <- Hh. unfold piece. rewrite !drop_0, take_take. f_equal. lia. }
  rewrite Hs. mstep. rewrite bool_decide_eq_true_2 by done. cbn [negb]. by rewrite Hbi, Hab, Hen.
Qed.
Lemma elf_roundtrip_ok st e : P st 0 -> elf_in from data e -> exists st' hd', read_elf fd st = (Ok e, st') /\ P st' hd'.
Proof.
  intros Hp [Hh Hsup Hpe Hpn Hps Hsz Hse Hsn Hss]. destruct (read_elf_header_ok st (header e) Hp Hh Hsup) as (s1 & hd1 & Hr1 & Hp1 & _).
  destruct (read_table_ok s1 hd1 _ 56 _ Hp1 ltac:(lia) Hps) as (s2 & hd2 & Hr2 & Hp2 & _).
  destruct (read_table_ok s2 hd2 _ 64 _ Hp2 ltac:(lia) Hss) as (s3 & hd3 & Hr3 & Hp3 & _).
  exists s3, hd3. split; [|done]. unfold read_elf. mrun Hr1. unfold read_program_headers. rewrite Hpe, Hpn, M_assoc. mrun Hr2.
  destruct Hps as (_ & Hpl & _ & _ & Hpb), Hss as (_ & Hsl & _ & _ & Hsb).
  rewrite program_entries_all by done. mstep. unfold read_section_headers. rewrite Hse, Hsn, M_assoc. mrun Hr3.
  rewrite section_entries_all by done. mstep. by destruct e.
Qed.
End view.

(** ** On the ext2 driver *)
Section on_ext2.
Context `{Build} {D : Type} `{BlockDevLaws D} (now : option Z).
Context (failed_read : InodePlus -> list Z -> HalIOCtx -> list Z * HalIOCtx).
Context (failed_write : InodePlus -> list Z -> HalIOCtx -> InodePlus * HalIOCtx).
#[local] Instance driver : FileImpl D (Ext2Fs D) HalInode := ext2_impl now failed_read failed_write.
(** The inode [ip] of the file system [f] is open at the descriptor, with its
    head at [hd]. *)
Definition open_at (fd : Z) (f : Ext2Fs D) (ip : InodePlus) (st : Vfs (Ext2Fs D) HalInode) (hd : Z) : Prop :=
  exists o fs, opened_inodes st !! fd = Some o /\ oi_inode o = HalInode_Ext2 ip /\ oi_ctx o = {| head := hd |} /\
    mount_points (mounts st) !! mount_point_id o = Some fs /\ fs_impl fs = HalFs_Ext2 f.
Definition file_bytes (f : Ext2Fs D) (ip : InodePlus) : list Z := piece (contents f (ip_inode ip)) 0 (i_size (ip_inode ip)).
Lemma file_bytes_len f ip : fs_1k f -> small_file f (ip_inode ip) -> zlen (file_bytes f ip) = i_size (ip_inode ip).
Proof.
  intros Hk Hs. pose proof (block_count_range f _ Hs). pose proof (sf_size _ _ Hs). apply zlen_piece; [lia|lia|]. rewrite (zlen_contents f) by done. lia.
Qed.
(** A read starts at the right place of the first block, whatever block the
    head is in. *)
Lemma ext2_view fd f ip : fs_1k f -> small_file f (ip_inode ip) -> is_directory (ip_inode ip) = false ->
  file_view (fun hd => hd mod 1024) (open_at fd f ip) fd (file_bytes f ip).
Proof.
  intros Hk Hs Hd. pose proof (file_bytes_len f ip Hk Hs) as Hlen. pose proof (sf_size _ _ Hs) as Hsz. split.
  - intros st hd buf (o & fs & Ho & Hi & Hc & Hm & Hf) Hhd Hb. rewrite Hlen in *. intros n. pose proof (zlen_nonneg buf).
    pose proof (ext2_read_small failed_read f ip buf {| head := hd |} Hk Hs Hd Hhd Hb) as Hrd. cbn [head] in Hrd. fold n in Hrd.
    cbn [vfs_step]. unfold vfs_do_read, find_inode_and_process, get_mount_point_by_id. rewrite Ho, Hm, Hf, Hi, Hc.
    change (fi_read ?a ?b ?c ?e) with (ext2_read failed_read a b c e). rewrite Hrd. rsimpl. unfold result_of. rewrite swrap_small by lia.
    assert (piece (file_bytes f ip) (hd mod 1024) n = piece (contents f (ip_inode ip)) (hd mod 1024) n) as ->.
    { unfold file_bytes, piece. rewrite drop_0, skipn_firstn_comm, take_take. f_equal. pose proof (Z.mod_pos_bound hd 1024). pose proof (Z.mod_le hd 1024). lia. }
    eexists. split; [reflexivity|]. eexists _, _. split; [apply lookup_insert_eq|]. split; [done|]. split; [done|]. split; [apply lookup_insert_eq|done].
  - intros st hd o' (o & fs & Ho & Hi & Hc & Hm & Hf) Hr. cbn [vfs_step].
    unfold vfs_do_lseek, find_inode_and_process, get_mount_point_by_id. rewrite Ho, Hm, Hf. cbn [seek]. rsimpl. rewrite wrap_small by lia.
    eexists _, _. split; [reflexivity|]. eexists _, _. split; [apply lookup_insert_eq|]. split; [done|]. split; [done|]. split; [apply lookup_insert_eq|done].
Qed.
Lemma table_near data off n es : off < 1024 -> table_in (fun o => o) data off n es -> table_in (fun o => o mod 1024) data off n es.
Proof. intros Ho (Hr & Hl & Hp). split; [done|]. split; [done|]. by rewrite Z.mod_small by lia. Qed.
(** C34: what [read_elf] returns of a file of the ext2 driver.  The file fits the
    twelve direct blocks and is open at the descriptor with the head before it;
    it has a supported header, and tables of the standard entry sizes with fewer
    than 2^16 bytes each that end inside the file.  If both tables begin in the
    first block, the file is read back: the result is exactly the header and the
    entries.  In general the entries are those found at the offsets of the
    header modulo the block size, since the driver reads from the first block
    wherever the head is: a table that begins in a later block is misread.  The
    file stays open and the file system is as it was. *)
Theorem elf_roundtrip fd f ip st e : fs_1k f -> small_file f (ip_inode ip) -> is_directory (ip_inode ip) = false -> open_at fd f ip st 0 ->
  (elf_in (fun o => o) (file_bytes f ip) e -> header_table_offset (header e) < 1024 -> section_header_table_offset (header e) < 1024 ->
    exists st' hd, read_elf fd st = (Ok e, st') /\ open_at fd f ip st' hd) /\
  (elf_in (fun o => o mod 1024) (file_bytes f ip) e -> exists st' hd, read_elf fd st = (Ok e, st') /\ open_at fd f ip st' hd).
Proof.
  intros Hk Hs Hd Ho. assert (elf_in (fun o => o mod 1024) (file_bytes f ip) e -> exists st' hd, read_elf fd st = (Ok e, st') /\ open_at fd f ip st' hd) as Hg.
  { apply (elf_roundtrip_ok _ _ _ _ (ext2_view fd f ip Hk Hs Hd)); [|done]. split; [done|]. intros o Hx.
    pose proof (Z.mod_pos_bound o 1024). pose proof (Z.mod_le o 1024). lia. }
  split; [|exact Hg]. intros He Hp Hx. apply Hg. destruct He. split; try done; by apply table_near.
Qed.
End on_ext2.

(** ** Samples *)
Module RamElf.
(** The file [path] of the file system in memory, at descriptor 0 *)
Definition has (path data : list Z) (st : Vfs Ram.Fs (list Z)) (hd : Z) : Prop :=
  0 <= hd /\ exists o fs f, opened_inodes st !! 0 = Some o /\ oi_inode o = path /\ head (oi_ctx o) = hd /\
    mount_points (mounts st) !! mount_point_id o = Some fs /\ fs_impl fs = HalFs_Ext2 f /\ f !! path = Some data.
#[local] Existing Instance dev_build.
Lemma ram_view path data : file_view (fun hd => hd) (has path data) 0 data.
Proof.
  split.
  - intros st hd buf (_ & o & fs & f & Ho & Hi & Hh & Hm & Hf & Hd) Hhd Hb n. cbn [vfs_step].
    unfold vfs_do_read, find_inode_and_process, get_mount_point_by_id. rewrite Ho, Hm, Hf. rewrite Hi.
    change (fi_read ?a ?b ?c ?e) with (Ram.read a b c e). unfold Ram.read. rewrite Hd, Hh. cbn [from_option id]. rsimpl.
    assert (take (length buf) (drop (Z.to_nat hd) data) = piece data hd n) as ->.
    { unfold piece, n. destruct (Z.le_gt_cases (zlen buf) (zlen data - hd)).
      - rewrite Z.min_l by lia. f_equal. unfold zlen. lia.
      - rewrite Z.min_r by lia. rewrite !take_ge; [done|..]; rewrite length_drop; unfold zlen in *; lia. }
    assert (zlen (piece data hd n) = n) as Hn by (unfold piece; rewrite zlen_take, zlen_drop; pose proof (zlen_nonneg buf); lia).
    rewrite Hn. cbn [result_of]. rewrite swrap_small by (pose proof (zlen_nonneg buf); lia).
    eexists. split; [reflexivity|]. split; [pose proof (zlen_nonneg buf); lia|]. eexists _, _, _.
    split; [apply lookup_insert_eq|]. split; [done|]. split; [done|]. split; [apply lookup_insert_eq|]. split; [reflexivity|done].
  - intros st hd o' (_ & o & fs & f & Ho & Hi & Hh & Hm & Hf & Hd) Hr. cbn [vfs_step].
    unfold vfs_do_lseek, find_inode_and_process, get_mount_point_by_id. rewrite Ho, Hm, Hf. cbn [seek]. rsimpl. rewrite wrap_small by lia.
    eexists _, _. split; [reflexivity|]. split; [lia|]. eexists _, _, _.
    split; [apply lookup_insert_eq|]. split; [done|]. split; [done|]. split; [apply lookup_insert_eq|]. split; [reflexivity|done].
Qed.
Definition sample_header : ElfHeader :=
  u_put 2 60 1 (u_put 2 58 64 (u_put 2 56 1 (u_put 2 54 56 (u_put 8 40 120 (u_put 8 32 64
    (ELF_MAGIC ++ [2; 1; 1; 0] ++ replicate 56 0)))))).
Definition sample_ph : ElfProgramHeaderEntry := u_put 8 40 8192 (u_put 8 32 100 (u_put 8 16 0x400000 (u_put 4 0 1 (replicate 56 0)))).
Definition sample_elf : ElfFile := {| header := sample_header; program_header_table := [sample_ph]; section_header_table := [replicate 64 7] |}.
Definition image : list Z := sample_header ++ sample_ph ++ replicate 64 7.
Lemma image_ok : elf_in (fun o => o) image sample_elf.
Proof.
  assert (supported sample_header) by (split; vm_compute; reflexivity).
  split; try done; try (vm_compute; reflexivity).
  - split_and!; try (vm_compute; congruence); by apply Forall_singleton.
  - apply Forall_singleton. vm_compute. congruence.
  - split_and!; try (vm_compute; congruence); by apply Forall_singleton.
Qed.
Definition opened_with (data : list Z) : Vfs Ram.Fs (list Z) :=
  {| opened_inodes := {[0 := from_inode (str "/init") 0]}; inode_idx_counter := 1;
     mounts := put_mount (mounts Ram.fresh) 0
       {| drive_id := Guid_default; fs_entry := []; fs_opened_inodes := {[0]}; fs_impl := HalFs_Ext2 {[str "/init" := data]};
          mounted_at := root_path |} |}.
Definition opened : Vfs Ram.Fs (list Z) := opened_with image.
Lemma opened_has data : has (str "/init") data (opened_with data) 0.
Proof.
  split; [done|]. eexists _, _, _. split; [apply lookup_singleton_eq|]. split; [reflexivity|]. split; [reflexivity|].
  split; [apply lookup_insert_eq|]. split; [reflexivity|apply lookup_singleton_eq].
Qed.
End RamElf.

(** The same file on a disk: block 10 of the sample file system *)
Module DiskElf.
Import RamElf.
Definition elf_fs : Ext2Fs MemDisk := with_disk sample_fs (take (Z.to_nat 10240) sample_disk ++ image ++ drop (Z.to_nat 10424) sample_disk).
Definition elf_inode : Inode :=
  {| i_mode := 0x81ED; i_uid := 0; i_size := 184; i_atime := 0; i_ctime := 0; i_mtime := 0; i_dtime := 0;
     i_gid := 0; i_links_count := 1; i_blocks := 2; i_flags := 0; i_osd1 := 0; i_block := 10 :: replicate 14 0;
     i_generation := 0; i_file_acl := 0; i_dir_acl := 0; i_faddr := 0; i_osd2 := replicate 12 0 |}.
Definition elf_ip : InodePlus := {| ip_inode := elf_inode; absolute_idx := 3; ip_group_number := 0; relative_idx := 2 |}.
Lemma elf_fs_1k : fs_1k elf_fs.
Proof. split; [apply with_disk_ok; [exact sample_fs_ok|]|..]; vm_compute; reflexivity. Qed.
Lemma elf_small : small_file elf_fs elf_inode.
Proof. split; [cbn; lia|split; [done|]]. apply in_disk_check. vm_compute. reflexivity. Qed.
Definition opened_disk : Vfs (Ext2Fs MemDisk) HalInode :=
  {| opened_inodes := {[0 := from_inode (HalInode_Ext2 elf_ip) 0]}; inode_idx_counter := 1;
     mounts := {| mount_points := {[0 := {| drive_id := Guid_default; fs_entry := []; fs_opened_inodes := {[0]}; fs_impl := HalFs_Ext2 elf_fs; mounted_at := root_path |}]};
                  path_to_id_map := [(root_path, 0)]; counter := 1 |} |}.
Lemma opened_disk_at : open_at 0 elf_fs elf_ip opened_disk 0.
Proof. eexists _, _. split; [apply lookup_singleton_eq|]. split; [reflexivity|]. split; [reflexivity|]. split; [apply lookup_singleton_eq|reflexivity]. Qed.
Lemma disk_image : file_bytes elf_fs elf_ip = image.
Proof. vm_compute. reflexivity. Qed.
End DiskElf.

Lemma elf_roundtrip_witness : exists st',
  @read_elf dev_build _ _ _ (@ext2_impl dev_build MemDisk _ None (fun _ buf ctx => (buf, ctx)) (fun ip _ ctx => (ip, ctx))) 0 DiskElf.opened_disk = (Ok RamElf.sample_elf, st').
Proof.
  destruct (elf_roundtrip (H:=dev_build) None (fun _ buf ctx => (buf, ctx)) (fun ip _ ctx => (ip, ctx)) 0 DiskElf.elf_fs DiskElf.elf_ip DiskElf.opened_disk RamElf.sample_elf
    DiskElf.elf_fs_1k DiskElf.elf_small eq_refl DiskElf.opened_disk_at) as [Hg _]. rewrite DiskElf.disk_image in Hg.
  destruct (Hg RamElf.image_ok) as (st' & _ & Hr & _); [by vm_compute..|]. by exists st'.
Defined.
Lemma elf_checked_witness : supported (header RamElf.sample_elf).
Proof.
  destruct (elf_roundtrip_ok _ _ 0 _ (RamElf.ram_view _ _) (conj eq_refl (fun o Ho => conj Ho (Z.le_refl o))) _ _ (RamElf.opened_has _) RamElf.image_ok) as (st' & _ & Hr & _).
  exact (proj1 (elf_checked 0 _ _ _ Hr)).
Defined.
