(* ===== verification/Loader.v ===== *)
(** * Loading a program

    src/kernel/src/arch/x86_64/scheduler/loader.rs and [create_page_table] of
    memory/page_table.rs.

    The loader reads the file through the server of Vfs.v, takes frames from
    the allocator of Memory.v and writes to physical memory, which the kernel
    has mapped at an offset: memory is a function from physical addresses to
    bytes.  Page tables are those of the x86_64 crate, the interface
    [PageTables]; [virt_addr] is its [VirtAddr::new], which panics on addresses
    that are not canonical.  The two random numbers of the canary and the flags
    register are parameters. *)

From stdpp Require Import gmap.
From S2P Require Import Memory Prelude Bytes Storage Ext2Fs Ext2File Vfs Scheduler Elf.

Definition HIGHER_HALF_START : Z := 0xFFFF800000000000.
Definition TLS_START : Z := 0x7FFFFF000000.
Definition STACK_GUARD_PAGE : Z := 0x7FFFFFFF0000.
Definition STACK_START : Z := STACK_GUARD_PAGE + PAGE_SIZE.
Definition STACK_LEN : Z := 16 * PAGE_SIZE.
Definition PAGE_TABLE_HIGHER_HALF : Z := 256.
(** Segment types and flags of elf.rs *)
Definition SegNull : Z := 0.
Definition SegLoad : Z := 1.
Definition SegNote : Z := 4.
Definition SegTLS : Z := 7.
Definition FlagExecutable : Z := 1.
Definition FlagWritable : Z := 2.

(** Page-table flags, as sets *)
Inductive PageTableFlag := PRESENT | WRITABLE | USER_ACCESSIBLE | NO_EXECUTE.
(** [OffsetPageTable::new] on the table in a frame, and [map_to]: the result,
    and the table, the allocator and the list of frames after it *)
Class PageTables (PT ME : Type) := {
  pt_new : Z -> list Z -> PT;
  pt_map_to : Z -> Z -> list PageTableFlag -> PT * BitmapAllocator * list Z -> res never ((ME + ()) * (PT * BitmapAllocator * list Z));
}.
Inductive LoadErr (ME : Type) := VfsErr (e : ErrNo) | NoEnoughMemory | MappingErr (e : ME) | LoadCorrupted.
Arguments VfsErr {ME} e.
Arguments NoEnoughMemory {ME}.
Arguments MappingErr {ME} e.
Arguments LoadCorrupted {ME}.

(** ** Physical memory *)
Definition Mem : Type := Z -> Z.
Definition mem_store (m : Mem) (p : Z) (bs : list Z) : Mem := fun a =>
  if (p <=? a) && (a <? p + zlen bs) then nth (Z.to_nat (a - p)) bs 0 else m a.
Definition mem_load (m : Mem) (p n : Z) : list Z := m <$> seqZ p n.

Record LoaderState (F I : Type) := { l_vfs : Vfs F I; l_alloc : BitmapAllocator; l_mem : Mem }.
Arguments Build_LoaderState {F I} _ _ _.
Arguments l_vfs {F I} _.
Arguments l_alloc {F I} _.
Arguments l_mem {F I} _.

Section loader.
Context `{Build} {D F I PT ME : Type} `{FileImpl D F I} `{PageTables PT ME} (virt_addr : Z -> res never Z).
Abbreviation LM := (M (LoaderState F I) (LoadErr ME)).

Definition on_vfs {A} (m : M (Vfs F I) (LoadErr ME) A) : LM A := fun s =>
  let '(r, v) := m (l_vfs s) in (r, {| l_vfs := v; l_alloc := l_alloc s; l_mem := l_mem s |}).
Definition put_alloc (a : BitmapAllocator) : LM () := modify (fun s => {| l_vfs := l_vfs s; l_alloc := a; l_mem := l_mem s |}).
Definition allocate : LM (option Z) :=
  s ← get;
  '(o, a, _) ← lift (from_never (allocate_frame (l_alloc s) None));
  _ ← put_alloc a;
  mret o.
Definition store (p : Z) (bs : list Z) : LM () :=
  modify (fun s => {| l_vfs := l_vfs s; l_alloc := l_alloc s; l_mem := mem_store (l_mem s) p bs |}).
Definition try_vfs (r : ErrNo + Z) : LM Z := match r with inr n => mret n | inl e => throw (VfsErr e) end.
Definition va (a : Z) : LM Z := lift (from_never (virt_addr a)).

(** ** [create_page_table] *)
Definition create_page_table (kernel_table : list Z) : LM (Z * list Z) :=
  o ← allocate;
  frame ← lift (expect o);
  mret (frame, replicate (Z.to_nat PAGE_TABLE_HIGHER_HALF) 0 ++ drop (Z.to_nat PAGE_TABLE_HIGHER_HALF) kernel_table).

(** ** [copy_data] *)
Fixpoint take_frames (n : nat) : LM (list Z) :=
  match n with
  | O => mret []
  | S n =>
      o ← allocate;
      match o with
      | None => throw NoEnoughMemory
      | Some frame => rest ← take_frames n; mret (frame :: rest)
      end
  end.
(** A read into the [len] bytes of memory at [p] *)
Definition read_into (fd p len : Z) : LM () :=
  s ← get;
  '(r, buf) ← on_vfs (vfs_read fd (mem_load (l_mem s) p len));
  _ ← store p buf;
  bytes_read ← try_vfs r;
  if bytes_read <? len then throw LoadCorrupted else mret ().
Fixpoint copy_pages (fd : Z) (phys_frames : list Z) (offset remaining_size : Z) : LM () :=
  match phys_frames with
  | [] => mret ()
  | frame :: phys_frames =>
      if remaining_size =? 0 then
        _ ← store frame (zeros PAGE_SIZE);
        copy_pages fd phys_frames offset remaining_size
      else
        room ← lift (usub 64 PAGE_SIZE offset);
        if room <=? remaining_size then
          _ ← read_into fd (frame + offset) room;
          copy_pages fd phys_frames 0 (remaining_size - room)
        else
          n ← lift (usub 64 PAGE_SIZE remaining_size);
          n ← lift (usub 64 n offset);
          _ ← store (frame + offset) (zeros n);
          _ ← read_into fd (frame + remaining_size + offset) (remaining_size + offset);
          copy_pages fd phys_frames 0 0
  end.
Definition copy_data (offset fd : Z) (entry : ElfProgramHeaderEntry) (num_pages : Z) : LM (list Z) :=
  r ← on_vfs (vfs_lseek fd SeekSet (swrap 64 (ph_offset entry)));
  _ ← try_vfs r;
  phys_frames ← take_frames (Z.to_nat num_pages);
  _ ← copy_pages fd phys_frames offset (size_in_file entry);
  mret phys_frames.

(** ** Mapping frames to consecutive pages *)
Definition map_page (page frame : Z) (flags : list PageTableFlag) (pt : PT) (allocated : list Z) : LM (PT * list Z) :=
  s ← get;
  '(r, (pt, a, allocated)) ← lift (from_never (pt_map_to page frame flags (pt, l_alloc s, allocated)));
  _ ← put_alloc a;
  match r with inr _ => mret (pt, allocated) | inl e => throw (MappingErr e) end.
Fixpoint map_pages (start idx : Z) (frames : list Z) (flags : list PageTableFlag) (pt : PT) (allocated : list Z) : LM (PT * list Z) :=
  match frames with
  | [] => mret (pt, allocated)
  | frame :: frames =>
      a ← lift (uadd 64 start (idx * PAGE_SIZE));
      page ← va a;
      '(pt, allocated) ← map_page (page - page mod PAGE_SIZE) frame flags pt (allocated ++ [frame]);
      map_pages start (idx + 1) frames flags pt allocated
  end.
Definition USER_DATA : list PageTableFlag := [NO_EXECUTE; WRITABLE; PRESENT; USER_ACCESSIBLE].

(** ** [handle_tls] *)
Definition ThreadControlBlock_bytes (self_ptr canary : Z) : list Z :=
  le_bytes 8 self_ptr ++ replicate 32 0 ++ le_bytes 8 canary.
Definition handle_tls (pt : PT) (tls_entry : ElfProgramHeaderEntry) (fd random1 random2 : Z) (allocated : list Z) :
    LM (Z * PT * list Z) :=
  n ← lift (uadd 64 (size_in_memory tls_entry) (ph_alignment tls_entry));
  n ← lift (usub 64 n 1);
  mask ← lift (usub 64 (ph_alignment tls_entry) 1);
  let aligned_length := Z.ldiff n mask in
  frames ← copy_data 0 fd tls_entry (div_ceil aligned_length PAGE_SIZE);
  let offset := aligned_length mod PAGE_SIZE in
  let remaining_size := PAGE_SIZE - offset in
  tcb_loc ← lift (uadd 64 TLS_START aligned_length);
  high ← lift (ushl 32 random1 32);
  let tcb_buf := ThreadControlBlock_bytes tcb_loc (Z.ldiff (Z.lor high random2) 0xFF) in
  frames ← (if remaining_size <? zlen tcb_buf then
              o ← allocate;
              match o with
              | None => throw NoEnoughMemory
              | Some frame =>
                  let frames := frames ++ [frame] in
                  i ← lift (usub 64 (zlen frames) 2);
                  last ← lift (index frames i);
                  _ ← store (last + offset) (take (Z.to_nat remaining_size) tcb_buf);
                  _ ← store frame (drop (Z.to_nat remaining_size) tcb_buf);
                  mret frames
              end
            else
              i ← lift (usub 64 (zlen frames) 1);
              last ← lift (index frames i);
              _ ← store (last + offset) tcb_buf;
              mret frames);
  '(pt, allocated) ← map_pages TLS_START 0 frames USER_DATA pt allocated;
  top ← lift (uadd 64 TLS_START aligned_length);
  v ← va top;
  mret (v, pt, allocated).

(** ** [get_stack] *)
Fixpoint stack_frames (n : nat) : LM (list Z) :=
  match n with
  | O => mret []
  | S n => o ← allocate; frame ← lift (expect o); rest ← stack_frames n; mret (frame :: rest)
  end.
Definition get_stack (pt : PT) (allocated : list Z) : LM (Z * PT * list Z) :=
  frames ← stack_frames 15;
  '(pt, allocated) ← map_pages STACK_START 0 frames USER_DATA pt allocated;
  v ← va (STACK_GUARD_PAGE + STACK_LEN);
  mret (v, pt, allocated).

(** ** [load_elf] *)
Record MapEntry := { me_entry : ElfProgramHeaderEntry; me_frames : list Z }.
(** One entry of the table; the result has the segments to map, and the
    thread-local pointer *)
Definition load_entry (fd random1 random2 : Z) (entry : ElfProgramHeaderEntry)
    (st : list MapEntry * option Z * PT * list Z) : LM (list MapEntry * option Z * PT * list Z) :=
  let '(map_entries, tls_ptr, pt, allocated) := st in
  if (segment_type entry =? SegNull) || (segment_type entry =? SegNote) then mret st
  else if segment_type entry =? SegLoad then
    top ← lift (uadd 64 (ph_vaddr entry) (size_in_memory entry));
    if HIGHER_HALF_START <=? top then throw LoadCorrupted else
    let start := Z.ldiff (ph_vaddr entry) (PAGE_SIZE - 1) in
    e ← lift (uadd 64 top PAGE_SIZE);
    e ← lift (usub 64 e 1);
    n ← lift (usub 64 (Z.ldiff e (PAGE_SIZE - 1)) start);
    phys_frames ← copy_data (size_in_memory entry mod PAGE_SIZE) fd entry (div_ceil n PAGE_SIZE);
    mret (map_entries ++ [{| me_entry := entry; me_frames := phys_frames |}], tls_ptr, pt, allocated)
  else if segment_type entry =? SegTLS then
    '(v, pt, allocated) ← handle_tls pt entry fd random1 random2 allocated;
    mret (map_entries, Some v, pt, allocated)
  else panic.
Definition segment_flags (flags : Z) : list PageTableFlag :=
  [PRESENT; USER_ACCESSIBLE] ++ (if Z.land flags FlagWritable =? 0 then [] else [WRITABLE]) ++
  (if Z.land flags FlagExecutable =? 0 then [NO_EXECUTE] else []).
Definition map_entry (e : MapEntry) (st : PT * list Z) : LM (PT * list Z) :=
  let '(pt, allocated) := st in
  map_pages (ph_vaddr (me_entry e)) 0 (me_frames e) (segment_flags (ph_flags (me_entry e))) pt allocated.
Definition load_elf (kernel_table : list Z) (random1 random2 rflags fd : Z) (elf : ElfFile) : LM ThreadState :=
  '(table, entries) ← create_page_table kernel_table;
  '(map_entries, tls_ptr, pt, allocated) ←
    for_each (program_header_table elf) ([], None, pt_new table entries, []) (load_entry fd random1 random2);
  '(pt, allocated) ← for_each map_entries (pt, allocated) map_entry;
  '(top, pt, allocated) ← get_stack pt allocated;
  sp ← va (top - 8);
  mret {| killed := false; registers := GPRegisterState_default; stack_pointer := sp;
          thread_local_segment := default 0 tls_ptr; page_table_pointer := table;
          state := Paused (entry_offset (header elf)) rflags; frames := allocated |}.
End loader.

(** ** Memory after a load *)
Lemma mem_store_out m p bs a : a < p \/ p + zlen bs <= a -> mem_store m p bs a = m a.
Proof. intros Ha. unfold mem_store. by bfalse ((p <=? a) && (a <? p + zlen bs)). Qed.
Lemma mem_store_in m p bs j : 0 <= j < zlen bs -> mem_store m p bs (p + j) = nth (Z.to_nat j) bs 0.
Proof. intros Hj. unfold mem_store. btrue ((p <=? p + j) && (p + j <? p + zlen bs)). f_equal. lia. Qed.
Lemma mem_load_store m p bs : mem_load (mem_store m p bs) p (zlen bs) = bs.
Proof.
  apply list_eq_same_length with (n := length bs); [done|unfold mem_load; rewrite length_fmap, length_seqZ; unfold zlen; lia|].
  intros i x y Hi Hx Hy. unfold mem_load in Hx. rewrite list_lookup_fmap, lookup_seqZ_lt in Hx by (unfold zlen; lia). cbn in Hx. injection Hx as <-.
  rewrite mem_store_in by (unfold zlen; lia). rewrite Nat2Z.id. by apply nth_lookup_Some.
Qed.
Lemma mem_load_ext m m' p n : (forall a, p <= a < p + n -> m a = m' a) -> mem_load m p n = mem_load m' p n.
Proof. intros He. apply list_fmap_ext. intros i a Ha. apply lookup_seqZ in Ha as [-> ?]. apply He. lia. Qed.
Lemma zlen_mem_load m p n : 0 <= n -> zlen (mem_load m p n) = n.
Proof. intros. unfold mem_load, zlen. rewrite length_fmap, length_seqZ. lia. Qed.

Section copying.
Context `{Build} {D F I PT ME : Type} `{FileImpl D F I} `{PageTables PT ME}.
Context (P : Vfs F I -> Z -> Prop) (fd : Z) (data : list Z) (Hv : file_view (fun hd => hd) P fd data).
Abbreviation LM := (M (LoaderState F I) (LoadErr ME)).

Lemma read_into_ok s hd p len : P (l_vfs s) hd -> 0 <= hd -> 0 <= len < 2 ^ 63 -> hd + len <= zlen data -> exists s',
  (read_into fd p len : LM ()) s = (Ok (), s') /\ P (l_vfs s') (hd + len) /\ l_alloc s' = l_alloc s /\
  l_mem s' = mem_store (l_mem s) p (piece data hd len).
Proof.
  intros Hp Hh Hl Hd. destruct (view_read _ _ _ _ Hv (l_vfs s) hd (mem_load (l_mem s) p len) Hp) as (v & Hr & Hp'); [lia|rewrite zlen_mem_load; lia|].
  rewrite zlen_mem_load in Hr, Hp' by lia. replace (Z.min len (zlen data - hd)) with len in Hr, Hp' by lia.
  assert (patch (mem_load (l_mem s) p len) 0 (piece data hd len) = piece data hd len) as He.
  { assert (zlen (piece data hd len) = len) by (apply zlen_piece; lia). pose proof (zlen_mem_load (l_mem s) p len ltac:(lia)).
    unfold patch. change (take (Z.to_nat 0) (mem_load (l_mem s) p len)) with (@nil Z). rewrite drop_ge; [apply app_nil_r|]. unfold zlen in *. lia. }
  rewrite He in Hr. eexists. split.
  - unfold read_into. mstep. assert (on_vfs (ME:=ME) (vfs_read fd (mem_load (l_mem s) p len)) s =
      (Ok (inr len, piece data hd len), {| l_vfs := v; l_alloc := l_alloc s; l_mem := l_mem s |})) as Ho.
    { unfold on_vfs, vfs_read. by rewrite (ask_ok (E:=LoadErr ME) _ _ _ _ _ Hr). }
    mrun Ho. cbv beta iota. unfold store, modify, mbind, M_bind. cbn [try_vfs]. unfold mret, M_ret. by rewrite Z.ltb_irrefl.
  - cbn [l_vfs l_alloc l_mem]. done.
Qed.

(** The frame an address is in *)
Definition frame_of (a : Z) : Z := a - a mod 4096.
Lemma frame_of_spec f a : f mod 4096 = 0 -> frame_of a = f <-> f <= a < f + 4096.
Proof.
  intros Hf. unfold frame_of. pose proof (Z.mod_pos_bound a 4096). pose proof (Z.div_mod a 4096). pose proof (Z.div_mod f 4096). split; [lia|].
  intros Ha. assert (a / 4096 = f / 4096); [|lia]. symmetry. apply (Z.div_unique _ _ _ (a - f)); lia.
Qed.
(** The first page: from the file, or zeros when there is nothing left *)
Lemma copy_first_page f fs k hd s : 0 <= k -> P (l_vfs s) hd -> 0 <= hd -> hd + 4096 * k <= zlen data -> exists s1,
  let bs := if 0 <? k then piece data hd 4096 else zeros 4096 in
  zlen bs = 4096 /\ l_mem s1 = mem_store (l_mem s) f bs /\ l_alloc s1 = l_alloc s /\
  P (l_vfs s1) (if 0 <? k then hd + 4096 else hd) /\
  (copy_pages fd (f :: fs) 0 (4096 * k) : LM ()) s = copy_pages fd fs 0 (4096 * Z.max 0 (k - 1)) s1.
Proof.
  intros Hk Hp Hh Hd. cbn [copy_pages]. destruct (Z.ltb_spec 0 k) as [Hk0|Hk0].
  - destruct (read_into_ok s hd f 4096 Hp Hh) as (s1 & Hr & Hp1 & Ha1 & Hm1); [lia|lia|]. exists s1.
    split_and!; [apply zlen_piece; lia|done|done|done|]. bfalse (4096 * k =? 0). unfold PAGE_SIZE.
    rewrite (usub_ok 64 4096 0) by lia. mstep. rewrite Z.sub_0_r, Z.add_0_r. btrue (4096 <=? 4096 * k). mrun Hr. f_equal. f_equal. lia.
  - exists {| l_vfs := l_vfs s; l_alloc := l_alloc s; l_mem := mem_store (l_mem s) f (zeros 4096) |}.
    split_and!; [done|done|done|done|]. btrue (4096 * k =? 0). replace (4096 * k) with (4096 * Z.max 0 (k - 1)) by lia. reflexivity.
Qed.
Lemma store_page (m : Mem) f fs bs : f mod 4096 = 0 -> zlen bs = 4096 ->
  mem_load (mem_store m f bs) f 4096 = bs /\ forall a, frame_of a ∉ f :: fs -> mem_store m f bs a = m a.
Proof.
  intros Hf Hbs. split; [rewrite <- Hbs; apply mem_load_store|]. intros a [Ha _]%not_elem_of_cons. apply mem_store_out. rewrite Hbs.
  destruct (Z.lt_ge_cases a f); [by left|]. destruct (Z.lt_ge_cases a (f + 4096)); [|by right]. destruct Ha. apply frame_of_spec; [done|lia].
Qed.
Lemma copy_whole fs : forall k hd s, NoDup fs -> Forall (fun f => f mod 4096 = 0) fs -> 0 <= k <= zlen fs ->
  P (l_vfs s) hd -> 0 <= hd -> hd + 4096 * k <= zlen data -> exists s',
  (copy_pages fd fs 0 (4096 * k) : LM ()) s = (Ok (), s') /\ l_alloc s' = l_alloc s /\
  (forall i f, fs !! i = Some f ->
     mem_load (l_mem s') f 4096 = if Z.of_nat i <? k then piece data (hd + 4096 * Z.of_nat i) 4096 else zeros 4096) /\
  (forall a, frame_of a ∉ fs -> l_mem s' a = l_mem s a).
Proof.
  induction fs as [|f fs IH]; intros k hd s Hnd Hal Hk Hp Hh Hd; [by eexists|].
  apply NoDup_cons in Hnd as [Hf Hnd]. apply Forall_cons_1 in Hal as [Hfa Hal]. rewrite zlen_cons in Hk. pose proof (zlen_nonneg fs).
  destruct (copy_first_page f fs k hd s) as (s1 & Hbs & Hm1 & Ha1 & Hp1 & Hc); [lia|done|done|done|].
  destruct (store_page (l_mem s) f fs _ Hfa Hbs) as [Hload Hout]. rewrite <- Hm1 in Hload, Hout.
  rewrite Hc.
  destruct (IH (Z.max 0 (k - 1)) (if 0 <? k then hd + 4096 else hd) s1 Hnd Hal) as (s' & Hcp & Ha' & Hin' & Hout');
    [lia|done|destruct (0 <? k); lia|destruct (Z.ltb_spec 0 k); lia|].
  exists s'. split_and!; [done|congruence| |].
  - intros [|i] f0 Hf0; cbn in Hf0.
    + injection Hf0 as <-. transitivity (mem_load (l_mem s1) f 4096).
      { apply mem_load_ext. intros a Ha. apply Hout'. rewrite (proj2 (frame_of_spec f a Hfa) Ha). done. }
      rewrite Hload. change (Z.of_nat 0) with 0. rewrite Z.mul_0_r, Z.add_0_r. done.
    + rewrite (Hin' i f0 Hf0). destruct (Z.ltb_spec 0 k) as [Hk0|Hk0].
      * replace (Z.of_nat (S i) <? k) with (Z.of_nat i <? Z.max 0 (k - 1)) by lia. destruct (_ <? _); [|done]. f_equal. lia.
      * by bfalse (Z.of_nat i <? Z.max 0 (k - 1)); bfalse (Z.of_nat (S i) <? k).
  - intros a Ha. rewrite Hout'; [by apply Hout|]. by apply not_elem_of_cons in Ha as [_ ?].
Qed.

(** Whole pages of a segment are copied.  With the head of the file at
    [hd], an offset of 0 and a length in the file of [k] pages, into distinct
    frames: the first [k] frames get the pages of the file in order, the others
    are cleared, and no other memory changes. *)
Theorem copy_whole_pages fs k hd s : NoDup fs -> Forall (fun f => f mod 4096 = 0) fs -> 0 <= k <= zlen fs ->
  P (l_vfs s) hd -> 0 <= hd -> hd + 4096 * k <= zlen data -> exists s',
  (copy_pages fd fs 0 (4096 * k) : LM ()) s = (Ok (), s') /\
  (forall i f, fs !! i = Some f ->
     mem_load (l_mem s') f 4096 = if Z.of_nat i <? k then piece data (hd + 4096 * Z.of_nat i) 4096 else zeros 4096) /\
  (forall a, frame_of a ∉ fs -> l_mem s' a = l_mem s a).
Proof. intros Hn Ha Hk Hp Hh Hd. destruct (copy_whole fs k hd s Hn Ha Hk Hp Hh Hd) as (s' & ? & _ & ? & ?). by exists s'. Qed.

(** The last, partial page of a segment is not.  If [r] bytes are left
    for the frame [f], from offset [o] on, and they do not fill the frame: the
    first byte, at the offset, is cleared, and the bytes of the file, [r + o] of
    them instead of [r], are put [r] bytes after it.  If [r + o] is more than
    half a page they go on behind the end of the frame, into memory that was
    not allocated. *)
Theorem partial_page_overruns f o r hd s : 0 < r -> 0 <= o -> r + o < 4096 -> P (l_vfs s) hd -> 0 <= hd -> hd + r + o <= zlen data ->
  exists s', (copy_pages fd [f] o r : LM ()) s = (Ok (), s') /\
  l_mem s' (f + o) = 0 /\
  (forall j, 0 <= j < r + o -> l_mem s' (f + o + r + j) = nth (Z.to_nat j) (piece data hd (r + o)) 0) /\
  (2048 < r + o -> l_mem s' (f + 4096) = nth (Z.to_nat (4096 - o - r)) (piece data hd (r + o)) 0).
Proof.
  intros Hr Ho Hro Hp Hh Hd. set (s0 := {| l_vfs := l_vfs s; l_alloc := l_alloc s; l_mem := mem_store (l_mem s) (f + o) (zeros (4096 - r - o)) |}).
  destruct (read_into_ok s0 hd (f + r + o) (r + o) Hp Hh) as (s1 & Hr1 & _ & _ & Hm1); [lia|lia|].
  assert (zlen (piece data hd (r + o)) = r + o) as Hl by (apply zlen_piece; lia). exists s1.
  assert (forall j, 0 <= j < r + o -> l_mem s1 (f + o + r + j) = nth (Z.to_nat j) (piece data hd (r + o)) 0) as Hin.
  { intros j Hj. rewrite Hm1. replace (f + o + r + j) with (f + r + o + j) by lia. apply mem_store_in. lia. }
  split_and!; [|..|exact Hin|].
  - cbn [copy_pages]. bfalse (r =? 0). unfold PAGE_SIZE. rewrite (usub_ok 64 4096 o) by lia. mstep. bfalse (4096 - o <=? r).
    rewrite (usub_ok 64 4096 r) by lia. mstep. rewrite (usub_ok 64 (4096 - r) o) by lia. mstep.
    assert ((store (ME:=ME) (f + o) (zeros (4096 - r - o))) s = (Ok (), s0)) as Hs0 by done. mrun Hs0. mrun Hr1. done.
  - rewrite Hm1, mem_store_out by lia. cbn [s0 l_mem]. rewrite <- (Z.add_0_r (f + o)) at 2.
    rewrite mem_store_in by (rewrite zeros_zlen; lia). unfold zeros. destruct (Z.to_nat (4096 - r - o)) eqn:E; [lia|done].
  - intros Hhalf. rewrite <- (Hin (4096 - o - r)) by lia. f_equal. lia.
Qed.
End copying.

(** ** The stack *)
Section stack.
Context `{Build} {D F I PT ME : Type} `{FileImpl D F I} `{PageTables PT ME} (virt_addr : Z -> res never Z).
(** What the crate documents: an address that is not the sign extension of its
    lower 48 bits is refused. *)
Hypothesis virt_addr_canonical : forall a, 2 ^ 47 <= a < 2 ^ 64 - 2 ^ 47 -> virt_addr a = Panic.

(** No program is ever loaded.  The address of the top of the stack is
    2^47, which is not canonical, so that making it panics: [load_elf] does not
    return a thread, for any file, memory and page table. *)
Theorem load_never_succeeds kernel_table random1 random2 rflags fd elf (s : LoaderState F I) t s' :
  load_elf (PT:=PT) (ME:=ME) virt_addr kernel_table random1 random2 rflags fd elf s <> (Ok t, s').
Proof.
  unfold load_elf. intros Hl. apply M_bind_ok in Hl as ([table entries] & s1 & _ & Hl).
  apply M_bind_ok in Hl as ([[[mes tls] pt] allocated] & s2 & _ & Hl). apply M_bind_ok in Hl as ([pt1 al1] & s3 & _ & Hl).
  apply M_bind_ok in Hl as ([[top pt2] al2] & s4 & Hs & _). unfold get_stack in Hs. apply M_bind_ok in Hs as (fs & s5 & _ & Hs).
  apply M_bind_ok in Hs as ([pt3 al3] & s6 & _ & Hs). apply M_bind_ok in Hs as (v & s7 & Hv & _).
  unfold va, lift in Hv. rewrite virt_addr_canonical in Hv by (vm_compute; split; congruence). discriminate Hv.
Qed.
End stack.

(** ** Samples *)
Module SampleLoad.
(** Page tables as the list of their mappings *)
#[export] Instance tables : PageTables (list (Z * Z)) () :=
  { pt_new _ _ := []; pt_map_to page frame _ st := Ok (inr (), (((page, frame) :: st.1.1, st.1.2), st.2)) }.
Definition start (data : list Z) : LoaderState Ram.Fs (list Z) :=
  {| l_vfs := RamElf.opened_with data; l_alloc := {| bitmap := {| start := 0; blength := 8; page_length := 1; mem := replicate 8 0 |}; next := 0 |};
     l_mem := fun _ => 255 |}.
Definition virt_addr (a : Z) : res never Z := if (a <? 2 ^ 47) || (2 ^ 64 - 2 ^ 47 <=? a) then Ok a else Panic.
Lemma virt_addr_ok a : 2 ^ 47 <= a < 2 ^ 64 - 2 ^ 47 -> virt_addr a = Panic.
Proof. intros Ha. unfold virt_addr. by bfalse ((a <? 2 ^ 47) || (2 ^ 64 - 2 ^ 47 <=? a)). Qed.
End SampleLoad.
#[local] Existing Instance dev_build.
#[local] Existing Instance SampleLoad.tables.

Lemma copy_whole_pages_witness : exists s', (copy_pages (ME:=()) 0 [8192; 4096] 0 4096) (SampleLoad.start (replicate 4096 7)) = (Ok (), s') /\
  mem_load (l_mem s') 8192 4096 = replicate 4096 7 /\ mem_load (l_mem s') 4096 4096 = zeros 4096 /\ l_mem s' 0 = 255.
Proof.
  destruct (copy_whole_pages (ME:=()) (RamElf.has (str "/init") (replicate 4096 7)) 0 (replicate 4096 7) (RamElf.ram_view _ _)
    [8192; 4096] 1 0 (SampleLoad.start (replicate 4096 7))) as (s' & Hc & Hin & Hout).
  - by_dec.
  - by repeat constructor.
  - split; vm_compute; congruence.
  - apply RamElf.opened_has.
  - lia.
  - vm_compute. congruence.
  - exists s'. split; [exact Hc|]. split; [rewrite (Hin 0%nat 8192 eq_refl); vm_compute; reflexivity|].
    split; [exact (Hin 1%nat 4096 eq_refl)|]. apply (Hout 0). change (frame_of 0) with 0. by_dec.
Defined.
Lemma partial_page_overruns_witness : exists s', (copy_pages (ME:=()) 0 [8192] 1000 1500) (SampleLoad.start (replicate 3000 9)) = (Ok (), s') /\
  l_mem s' (8192 + 4096) = 9.
Proof.
  destruct (partial_page_overruns (ME:=()) (RamElf.has (str "/init") (replicate 3000 9)) 0 (replicate 3000 9) (RamElf.ram_view _ _)
    8192 1000 1500 0 (SampleLoad.start (replicate 3000 9))) as (s' & Hc & _ & _ & Hend); [lia|lia|lia|apply RamElf.opened_has|lia|vm_compute; congruence|].
  exists s'. split; [exact Hc|]. rewrite Hend by lia. vm_compute. reflexivity.
Defined.
Lemma load_never_succeeds_witness :
  ~ exists t s', load_elf (PT:=list (Z * Z)) (ME:=()) SampleLoad.virt_addr [] 1 2 0x202 0 RamElf.sample_elf (SampleLoad.start RamElf.image) = (Ok t, s').
Proof. intros (t & s' & Hl). exact (load_never_succeeds SampleLoad.virt_addr SampleLoad.virt_addr_ok _ _ _ _ _ _ _ _ _ Hl). Defined.
