(* ===== verification/Timer.v ===== *)
(** * Timers

    src/kernel/src/arch/x86_64/timer.rs: the programmable interval timer, the
    calibration of the time-stamp counter and of the local APIC's timer
    against it, instants and sleeping.

    The machine is a parameter: a state whose counters, ports and registers
    are read and written.  Reading may change the state, so that the next
    reading can be another one.  A [Duration] is its number of nanoseconds.
    The lock that keeps two processors from calibrating at once is Locks.v's.
    The handshake in which the processors align their counters is a step
    relation on the shared atomics, one step per access to them. *)

From S2P Require Import Prelude Bytes.

Class Machine (W : Type) := {
  rdtsc : W -> Z * W;
  inb : Z -> W -> Z * W;
  outb : Z -> Z -> W -> W;
  apic_read : Z -> W -> Z * W;
  apic_write : Z -> Z -> W -> W;
}.
(** What is read has the width of the register. *)
Class MachineLaws (W : Type) `{Machine W} := {
  rdtsc_range w : 0 <= (rdtsc w).1 < 2 ^ 64;
  inb_range p w : is_byte (inb p w).1;
  apic_range r w : 0 <= (apic_read r w).1 < 2 ^ 32;
}.

(** The machine, the statics of the module and the per-processor data it uses *)
Record Timers (W : Type) := {
  machine : W;
  TSC_TIMER_TICKS_PER_MS : Z;
  TIME_AT_BOOT : Z;
  tsc_offset : Z;
  apic_timer_ticks_per_ms : Z;
}.
Arguments Build_Timers {W} _ _ _ _ _.
Arguments machine {W} _.
Arguments TSC_TIMER_TICKS_PER_MS {W} _.
Arguments TIME_AT_BOOT {W} _.
Arguments tsc_offset {W} _.
Arguments apic_timer_ticks_per_ms {W} _.
Definition with_machine {W} (t : Timers W) (w : W) : Timers W :=
  {| machine := w; TSC_TIMER_TICKS_PER_MS := TSC_TIMER_TICKS_PER_MS t; TIME_AT_BOOT := TIME_AT_BOOT t;
     tsc_offset := tsc_offset t; apic_timer_ticks_per_ms := apic_timer_ticks_per_ms t |}.

Definition MILLISECOND_TO_NANO_SECOND : Z := 1_000_000.
Definition PIT_DATA_PORT : Z := 0x40.
Definition PIT_CMD_REGISTER : Z := 0x43.
Definition TIMER_PERIODIC_MODE : Z := 0x20000.
Definition PRIMARY_ISA_PIC_OFFSET : Z := 32.
Definition TEN_MS_DIVISOR : Z := 11932.
Definition CHANNEL_1_COUNT_DOWN : Z := 0x30.

Section timer.
Context `{Build} {W : Type} `{Machine W} {E : Type}.
Abbreviation T := (M (Timers W) E).

(** A reading, and a writing, of the machine *)
Definition reading (f : W -> Z * W) : T Z := fun t => let '(v, w) := f (machine t) in (Ok v, with_machine t w).
Definition writing (f : W -> W) : T () := fun t => (Ok (), with_machine t (f (machine t))).

(** ** The interval timer *)
Definition configure_pit_with_divisor (divisor channel : Z) : T () :=
  _ ← writing (outb PIT_CMD_REGISTER channel);
  _ ← writing (outb PIT_DATA_PORT (wrap 8 (Z.land divisor 0xFF)));
  writing (outb PIT_DATA_PORT (wrap 8 (Z.land (Z.shiftr divisor 8) 0xFF))).
Definition configure_pit : T () := configure_pit_with_divisor 0 0x36.
Definition read_pit_count : T Z :=
  _ ← writing (outb PIT_CMD_REGISTER 0);
  lo ← reading (inb PIT_DATA_PORT);
  hi ← reading (inb PIT_DATA_PORT);
  mret (Z.lor lo (wrap 16 (Z.shiftl hi 8))).
Definition pit_done (count : Z) : bool := (count =? 0) || (TEN_MS_DIVISOR <? count).

(** ** Calibration *)
Fixpoint wait_pit (fuel : nat) : T () :=
  match fuel with
  | O => lift Hang
  | S fuel => count ← read_pit_count; if pit_done count then mret () else wait_pit fuel
  end.
(** [date_at_boot] is the boot loader's answer. *)
Definition calibrate_tsc (fuel : nat) (date_at_boot : option Z) : T () :=
  date ← lift (expect date_at_boot);
  _ ← modify (fun t => {| machine := machine t; TSC_TIMER_TICKS_PER_MS := TSC_TIMER_TICKS_PER_MS t; TIME_AT_BOOT := date;
                          tsc_offset := tsc_offset t; apic_timer_ticks_per_ms := apic_timer_ticks_per_ms t |});
  _ ← configure_pit_with_divisor TEN_MS_DIVISOR CHANNEL_1_COUNT_DOWN;
  init_tick_count ← reading rdtsc;
  _ ← wait_pit fuel;
  n ← reading rdtsc;
  tick_count ← lift (usub 64 n init_tick_count);
  modify (fun t => {| machine := machine t; TSC_TIMER_TICKS_PER_MS := tick_count / 10; TIME_AT_BOOT := TIME_AT_BOOT t;
                      tsc_offset := tsc_offset t; apic_timer_ticks_per_ms := apic_timer_ticks_per_ms t |}).

(** The registers of the local APIC *)
Definition lvt_timer : Z := 0x320.
Definition timer_initial_count : Z := 0x380.
Definition timer_current_count : Z := 0x390.
Definition timer_divide_config : Z := 0x3E0.

(** [gsi_to_irq] is the table of the I/O APIC's overrides, once it is set. *)
Definition load_timer (gsi_to_irq : option (list Z)) (frequency : Z) : T () :=
  _ ← modify (fun t => {| machine := machine t; TSC_TIMER_TICKS_PER_MS := TSC_TIMER_TICKS_PER_MS t; TIME_AT_BOOT := TIME_AT_BOOT t;
                          tsc_offset := tsc_offset t; apic_timer_ticks_per_ms := frequency |});
  mapping ← lift (expect gsi_to_irq);
  vector ← lift (index mapping 0);
  v ← lift (uadd 32 vector PRIMARY_ISA_PIC_OFFSET);
  _ ← writing (apic_write lvt_timer (Z.lor v TIMER_PERIODIC_MODE));
  writing (apic_write timer_initial_count frequency).
Fixpoint count_apic (fuel : nat) (init_time : Z) : T Z :=
  match fuel with
  | O => lift Hang
  | S fuel =>
      time ← reading (apic_read timer_current_count);
      ticks_elapsed ← lift (usub 32 init_time time);
      count ← read_pit_count;
      if pit_done count then mret ticks_elapsed else count_apic fuel init_time
  end.
Definition calibrate_timer (fuel : nat) (gsi_to_irq : option (list Z)) : T () :=
  _ ← writing (apic_write timer_divide_config 0x3);
  _ ← configure_pit_with_divisor TEN_MS_DIVISOR CHANNEL_1_COUNT_DOWN;
  _ ← writing (apic_write timer_initial_count (2 ^ 32 - 1));
  init_time ← reading (apic_read timer_current_count);
  ticks_elapsed ← count_apic fuel init_time;
  load_timer gsi_to_irq (ticks_elapsed / 10).

(** ** Instants *)
Definition now : T Z :=
  t ← reading rdtsc;
  o ← gets tsc_offset;
  n ← lift (snum 64 (swrap 64 t + o));
  mret (wrap 64 n).
Definition as_timestamp_secs (self : Z) (t : Timers W) : res E Z :=
  ticks_per_seconds ← umul 64 (TSC_TIMER_TICKS_PER_MS t) 1000;
  if ticks_per_seconds =? 0 then Panic else uadd 64 (TIME_AT_BOOT t) (self / ticks_per_seconds).
Definition as_timestamp_millis (self : Z) (t : Timers W) : res E Z :=
  boot_time_ms ← umul 64 (TIME_AT_BOOT t) 1000;
  if TSC_TIMER_TICKS_PER_MS t =? 0 then Panic else uadd 64 boot_time_ms (self / TSC_TIMER_TICKS_PER_MS t).
Definition nanos_per_tick (ticks_per_millis : Z) : res E Z := udiv 1_000_000_000 ticks_per_millis.
(** [self - rhs] *)
Definition instant_sub (self rhs : Z) (t : Timers W) : res E Z :=
  let ticks := Z.max 0 (self - rhs) in
  n ← nanos_per_tick (TSC_TIMER_TICKS_PER_MS t);
  umul 128 ticks n.
(** [Instant::now() - start] *)
Definition elapsed (start : Z) : T Z := n ← now; t ← get; lift (instant_sub n start t).

Fixpoint sleep_loop (fuel : nat) (instant time : Z) : T () :=
  match fuel with
  | O => lift Hang
  | S fuel => e ← elapsed instant; if time <=? e then mret () else sleep_loop fuel instant time
  end.
Definition blocking_sleep (fuel : nat) (time : Z) : T () := instant ← now; sleep_loop fuel instant time.
End timer.

(** ** Measured time *)
Section measured.
Context `{Build} {W : Type} `{Machine W, !MachineLaws W} {E : Type}.
Implicit Types (t : Timers W).

Lemma instant_sub_ok a b t : 0 <= a < 2 ^ 64 -> 0 <= b -> 0 < TSC_TIMER_TICKS_PER_MS t ->
  instant_sub (E:=E) a b t = Ok (Z.max 0 (a - b) * (1_000_000_000 / TSC_TIMER_TICKS_PER_MS t)).
Proof.
  intros Ha Hb Ht. unfold instant_sub, nanos_per_tick. rewrite udiv_ok by lia. rsimpl. apply umul_ok.
  assert (0 <= 1_000_000_000 / TSC_TIMER_TICKS_PER_MS t <= 1_000_000_000) by (split; [apply Z.div_pos|apply Z.div_le_upper_bound]; lia).
  nia.
Qed.

(** The difference of two instants is a thousand times too long.  With
    [r] counter ticks per millisecond, [n] ticks are [n * 10^6 / r]
    nanoseconds; the code answers with a number of nanoseconds [d] that is
    below a thousand times that by less than [n]. *)
Theorem elapsed_thousandfold a n t : 0 <= a -> 0 <= n -> a + n < 2 ^ 64 -> 0 < TSC_TIMER_TICKS_PER_MS t ->
  exists d, instant_sub (E:=E) (a + n) a t = Ok d /\
    d * TSC_TIMER_TICKS_PER_MS t <= 1000 * (n * MILLISECOND_TO_NANO_SECOND) <= (d + n) * TSC_TIMER_TICKS_PER_MS t.
Proof.
  intros Ha Hn Hr Ht. eexists. split; [apply instant_sub_ok; lia|]. rewrite Z.max_r by lia. replace (a + n - a) with n by lia.
  unfold MILLISECOND_TO_NANO_SECOND. set (r := TSC_TIMER_TICKS_PER_MS t) in *.
  pose proof (Z.div_mod 1_000_000_000 r). pose proof (Z.mod_pos_bound 1_000_000_000 r). nia.
Qed.

(** The two conversions of an instant to the time since 1970 agree: the
    seconds are the whole seconds of the milliseconds. *)
Theorem timestamps_agree self t : 0 <= self -> 0 <= TIME_AT_BOOT t -> TIME_AT_BOOT t * 1000 + self < 2 ^ 64 ->
  0 < TSC_TIMER_TICKS_PER_MS t -> TSC_TIMER_TICKS_PER_MS t * 1000 < 2 ^ 64 ->
  exists ms, as_timestamp_millis (E:=E) self t = Ok ms /\ as_timestamp_secs (E:=E) self t = Ok (ms / 1000).
Proof.
  intros Hs Hb Hr Ht Ht'. unfold as_timestamp_millis, as_timestamp_secs.
  set (r := TSC_TIMER_TICKS_PER_MS t) in *. set (b := TIME_AT_BOOT t) in *.
  assert (0 <= self / r <= self) by (split; [apply Z.div_pos|apply Z.div_le_upper_bound]; nia).
  assert (0 <= self / (r * 1000) <= self) by (split; [apply Z.div_pos|apply Z.div_le_upper_bound]; nia).
  rewrite !umul_ok by lia. rsimpl. bfalse (r =? 0). bfalse (r * 1000 =? 0). rewrite !uadd_ok by lia. eexists. split; [done|].
  rewrite <- Z.div_div by lia. rewrite (Z.add_comm (b * 1000)), Z.div_add by lia. f_equal. lia.
Qed.

(** The machine after [k] readings of its counter, and the [k]-th reading *)
Fixpoint after (k : nat) (w : W) : W := match k with O => w | S k => after k (rdtsc w).2 end.
Definition nth_reading (k : nat) (w : W) : Z := (rdtsc (after k w)).1.
(** Counter and offset stay far from the ends of their types, for some
    ninety years at 3 GHz. *)
Definition in_range (t : Timers W) : Prop := forall k, nth_reading k (machine t) < 2 ^ 63 /\ 0 <= nth_reading k (machine t) + tsc_offset t < 2 ^ 63.

Lemma now_ok t : in_range t -> now (E:=E) t = (Ok (nth_reading 0 (machine t) + tsc_offset t), with_machine t (after 1 (machine t))).
Proof.
  intros Hr. specialize (Hr 0%nat). unfold nth_reading in *. cbn [after] in *. pose proof (rdtsc_range (machine t)).
  unfold now, reading, mbind, M_bind. destruct (rdtsc (machine t)) as [v w]. cbn [fst snd] in *. unfold gets, lift. cbn [with_machine tsc_offset].
  rewrite swrap_small by lia. rewrite snum_ok by lia. rewrite wrap_small by lia. done.
Qed.
Lemma in_range_next t : in_range t -> in_range (with_machine t (after 1 (machine t))).
Proof. intros Hr k. apply (Hr (S k)). Qed.
Lemma elapsed_ok t start : in_range t -> 0 <= start -> 0 < TSC_TIMER_TICKS_PER_MS t ->
  elapsed (E:=E) start t =
    (Ok (Z.max 0 (nth_reading 0 (machine t) + tsc_offset t - start) * (1_000_000_000 / TSC_TIMER_TICKS_PER_MS t)),
     with_machine t (after 1 (machine t))).
Proof.
  intros Hr Hs Ht. unfold elapsed. mrun (now_ok t Hr). rewrite run_get. unfold lift.
  rewrite instant_sub_ok; [done|pose proof (Hr 0%nat); lia|done|done].
Qed.

(** The measured time since [start] at the [k]-th reading *)
Definition measured (t : Timers W) (start : Z) (k : nat) : Z :=
  Z.max 0 (nth_reading k (machine t) + tsc_offset t - start) * (1_000_000_000 / TSC_TIMER_TICKS_PER_MS t).

Lemma sleep_loop_ok k : forall fuel t start d, in_range t -> 0 <= start -> 0 < TSC_TIMER_TICKS_PER_MS t -> (k < fuel)%nat ->
  d <= measured t start k ->
  exists j, (j <= k)%nat /\ sleep_loop (E:=E) fuel start d t = (Ok (), with_machine t (after (S j) (machine t))) /\
    d <= measured t start j /\ forall i, (i < j)%nat -> measured t start i < d.
Proof.
  induction k as [|k IH]; intros [|fuel] t start d Hr Hs Ht Hf Hd; try lia; cbn [sleep_loop];
    mrun (elapsed_ok t start Hr Hs Ht); fold (measured t start 0).
  - btrue (d <=? measured t start 0). exists 0%nat. split_and!; [done..|lia].
  - destruct (Z.leb_spec d (measured t start 0)) as [Hle|Hgt].
    + exists 0%nat. split_and!; [lia|done|done|lia].
    + destruct (IH fuel (with_machine t (after 1 (machine t))) start d (in_range_next t Hr) Hs Ht ltac:(lia) Hd) as (j & Hj & Hrun & Hm & Hmin).
      exists (S j). split_and!; [lia|exact Hrun|exact Hm|]. intros [|i] Hi; [done|apply (Hmin i); lia].
Qed.

(** [blocking_sleep] returns, and early.  It returns at the first reading
    of the counter at which the measured time has passed; a reading [k] that
    comes two thousandths of the wanted time after the start is late enough
    for that, so that a sleep of a second ends within two milliseconds. *)
Theorem sleep_ends_early t d k fuel : in_range t -> 0 < TSC_TIMER_TICKS_PER_MS t <= 1_000_000_000 -> (1 <= k <= fuel)%nat ->
  2 * d * TSC_TIMER_TICKS_PER_MS t <= 1000 * (nth_reading k (machine t) - nth_reading 0 (machine t)) * MILLISECOND_TO_NANO_SECOND ->
  0 <= d ->
  let start := nth_reading 0 (machine t) + tsc_offset t in
  exists j, (1 <= j <= k)%nat /\ blocking_sleep (E:=E) fuel d t = (Ok (), with_machine t (after (S j) (machine t))) /\
    d <= measured t start j /\ forall i, (1 <= i < j)%nat -> measured t start i < d.
Proof.
  intros Hr Ht Hk Hd Hd0 start. unfold blocking_sleep. mrun (now_ok t Hr). destruct k as [|k]; [lia|].
  edestruct (sleep_loop_ok k fuel (with_machine t (after 1 (machine t))) start d (in_range_next t Hr)) as (j & Hj & Hrun & Hm & Hmin);
    [apply (Hr 0%nat)|cbn; lia|lia| |].
  - change (d <= measured t start (S k)). unfold measured, start, MILLISECOND_TO_NANO_SECOND in *.
    set (r := TSC_TIMER_TICKS_PER_MS t) in *. set (n := nth_reading (S k) (machine t)) in *. set (n0 := nth_reading 0 (machine t)) in *.
    pose proof (Z.div_mod 1_000_000_000 r). pose proof (Z.mod_pos_bound 1_000_000_000 r).
    assert (0 < 1_000_000_000 / r) by (apply Z.div_str_pos; lia). replace (n + tsc_offset t - (n0 + tsc_offset t)) with (n - n0) by lia.
    rewrite Z.max_r by nia. nia.
  - exists (S j). split_and!; [lia|lia|exact Hrun|exact Hm|]. intros [|i] Hi; [lia|apply (Hmin i); lia].
Qed.
End measured.

(** ** Aligning the counters of the processors

    Processor 0 leads.  [skew i] is how far the counter of processor [i] is
    ahead of the real time.  A step is the end of a wait with the access that follows
    it, or one reading of a counter; real time passes between steps.  [ready_at] is ghost
    state: the real time at which the lead saw that everyone had arrived. *)
Inductive LeadPhase := LWait | LReady | LRead (tick_count : Z) | LDone.
Inductive FollowPhase := FStart | FArrived | FRead (tick_count : Z) | FDone (offset : Z).
Record SyncState := {
  TSC_CORE_SYNC_COUNT : Z;
  TSC_SYNC_IS_ALL_CORE_READY : bool;
  TSC_SYNC_BASE : Z;
  lead : LeadPhase;
  follow : list FollowPhase;
  time : Z;
  ready_at : Z;
}.
Section sync.
Context `{Build} (skew : nat -> Z).
Definition tsc_of (i : nat) (tm : Z) : Z := skew i + tm.
Definition sync_start (n : nat) (tm : Z) : SyncState :=
  {| TSC_CORE_SYNC_COUNT := 0; TSC_SYNC_IS_ALL_CORE_READY := false; TSC_SYNC_BASE := 0; lead := LWait;
     follow := replicate n FStart; time := tm; ready_at := 0 |}.

(** [sync_tsc_lead] with [cpu_count] processors *)
Inductive sync_tsc_lead (cpu_count : Z) : SyncState -> SyncState -> Prop :=
| lead_ready c b f tm g : c = cpu_count - 1 ->
    sync_tsc_lead cpu_count (Build_SyncState c false b LWait f tm g) (Build_SyncState c true b LReady f tm tm)
| lead_read c r b f tm g :
    sync_tsc_lead cpu_count (Build_SyncState c r b LReady f tm g) (Build_SyncState c r b (LRead (tsc_of 0 tm)) f tm g)
| lead_store c r b v f tm g :
    sync_tsc_lead cpu_count (Build_SyncState c r b (LRead v) f tm g) (Build_SyncState c r v LDone f tm g).
(** [sync_tsc_follow] on the processor of the [i]-th follower, which is processor [i + 1] *)
Inductive sync_tsc_follow (i : nat) : SyncState -> SyncState -> Prop :=
| follow_arrive c r b l f tm g : f !! i = Some FStart ->
    sync_tsc_follow i (Build_SyncState c r b l f tm g) (Build_SyncState (wrap 32 (c + 1)) r b l (<[i := FArrived]> f) tm g)
| follow_read c b l f tm g : f !! i = Some FArrived ->
    sync_tsc_follow i (Build_SyncState c true b l f tm g) (Build_SyncState c true b l (<[i := FRead (tsc_of (S i) tm)]> f) tm g)
| follow_done c r b l f tm g v o : f !! i = Some (FRead v) -> b <> 0 -> snum (E:=never) 64 (swrap 64 b - swrap 64 v) = Ok o ->
    sync_tsc_follow i (Build_SyncState c r b l f tm g) (Build_SyncState c r b l (<[i := FDone o]> f) tm g).
Inductive sync_step (cpu_count : Z) : SyncState -> SyncState -> Prop :=
| step_lead s s' : sync_tsc_lead cpu_count s s' -> sync_step cpu_count s s'
| step_follow i s s' : sync_tsc_follow i s s' -> sync_step cpu_count s s'
| step_time c r b l f tm tm' g : tm <= tm' ->
    sync_step cpu_count (Build_SyncState c r b l f tm g) (Build_SyncState c r b l f tm' g).

Definition arrived (p : FollowPhase) : Prop := p <> FStart.
#[global] Instance arrived_dec p : Decision (arrived p).
Proof. refine (match p with FStart => right _ | _ => left _ end); unfold arrived; congruence. Defined.
(** A reading of processor [i] since everyone had arrived *)
Definition late_reading (s : SyncState) (i : nat) (v : Z) : Prop := exists tm, ready_at s <= tm <= time s /\ v = tsc_of i tm.
Definition follow_ok (s : SyncState) (i : nat) (p : FollowPhase) : Prop :=
  match p with
  | FRead v => TSC_SYNC_IS_ALL_CORE_READY s = true /\ late_reading s (S i) v
  | FDone o => TSC_SYNC_IS_ALL_CORE_READY s = true /\
      exists b v, late_reading s 0 b /\ late_reading s (S i) v /\ snum (E:=never) 64 (swrap 64 b - swrap 64 v) = Ok o
  | _ => True
  end.
Record sync_ok (n : nat) (s : SyncState) : Prop := {
  sy_len : length (follow s) = n;
  sy_count : TSC_CORE_SYNC_COUNT s = Z.of_nat (length (filter arrived (follow s)));
  sy_ready : TSC_SYNC_IS_ALL_CORE_READY s = true -> Forall arrived (follow s) /\ ready_at s <= time s;
  sy_lead : match lead s with
            | LWait => TSC_SYNC_IS_ALL_CORE_READY s = false /\ TSC_SYNC_BASE s = 0
            | LReady => TSC_SYNC_IS_ALL_CORE_READY s = true /\ TSC_SYNC_BASE s = 0
            | LRead v => TSC_SYNC_IS_ALL_CORE_READY s = true /\ TSC_SYNC_BASE s = 0 /\ late_reading s 0 v
            | LDone => TSC_SYNC_IS_ALL_CORE_READY s = true /\ late_reading s 0 (TSC_SYNC_BASE s)
            end;
  sy_follow : forall i p, follow s !! i = Some p -> follow_ok s i p;
}.

Abbreviation n_arrived l := (length (filter arrived l)).
Lemma n_arrived_all l : n_arrived l = length l -> Forall arrived l.
Proof.
  induction l as [|p l IH]; [done|]. rewrite filter_cons. pose proof (length_filter arrived l).
  destruct (decide (arrived p)); cbn; intros Hl; [constructor; [done|apply IH; lia]|lia].
Qed.
Lemma n_arrived_insert l i p q : l !! i = Some p ->
  (n_arrived (<[i := q]> l) + (if decide (arrived p) then 1 else 0) = n_arrived l + (if decide (arrived q) then 1 else 0))%nat.
Proof.
  revert i. induction l as [|x l IH]; intros [|i] Hp; [done|done| |].
  - injection Hp as ->. change (<[0%nat := q]> (p :: l)) with (q :: l). rewrite !filter_cons. destruct (decide (arrived p)), (decide (arrived q)); cbn; lia.
  - specialize (IH i Hp). change (<[S i := q]> (x :: l)) with (x :: <[i := q]> l). rewrite !filter_cons. destruct (decide (arrived x)); cbn; lia.
Qed.
Lemma sync_start_ok n tm : sync_ok n (sync_start n tm).
Proof.
  split; cbn; [by rewrite length_replicate| |done|done|].
  - induction n as [|n IH]; [done|]. cbn [replicate]. rewrite filter_cons, decide_False by (unfold arrived; tauto). done.
  - intros i p Hp. apply lookup_replicate in Hp as [-> _]. done.
Qed.
Lemma late_mono s s' i v : ready_at s = ready_at s' -> time s <= time s' -> late_reading s i v -> late_reading s' i v.
Proof. intros Hr Ht (tm & Htm & ->). exists tm. split; [lia|done]. Qed.

Lemma lead_step_ok n s s' : sync_ok n s -> sync_tsc_lead (Z.of_nat n + 1) s s' -> sync_ok n s'.
Proof.
  intros [Hl Hc Hr Hld Hf] Hs. destruct Hs as [c b f tm g ->|c r b f tm g|c r b v f tm g]; cbn in *.
  - assert (Forall arrived f) as Ha by (apply n_arrived_all; lia). destruct Hld as [_ ->]. split; cbn; try done.
    intros i p Hp. specialize (Hf i p Hp). destruct p; try done; by destruct Hf.
  - destruct Hld as [-> ->]. destruct (Hr eq_refl) as [_ Ht]. split; cbn; try done. split_and!; [done..|]. exists tm. done.
  - destruct Hld as (-> & -> & Hv). split; done.
Qed.
Lemma follow_changed n s i p q : sync_ok n s -> follow s !! i = Some p -> arrived q -> follow_ok s i q ->
  sync_ok n (Build_SyncState (Z.of_nat (n_arrived (<[i := q]> (follow s)))) (TSC_SYNC_IS_ALL_CORE_READY s) (TSC_SYNC_BASE s)
    (lead s) (<[i := q]> (follow s)) (time s) (ready_at s)).
Proof.
  intros [Hl Hc Hr Hld Hf] Hi Ha Hq. split; cbn; [by rewrite length_insert|done| |exact Hld|].
  - intros Hy. destruct (Hr Hy). split; [by apply Forall_insert|done].
  - intros j x Hx. destruct (decide (j = i)) as [->|Hne].
    + rewrite list_lookup_insert_eq in Hx by (by eapply lookup_lt_Some). injection Hx as <-. exact Hq.
    + rewrite list_lookup_insert_ne in Hx by done. exact (Hf j x Hx).
Qed.
Lemma base_read n s : sync_ok n s -> TSC_SYNC_BASE s <> 0 -> late_reading s 0 (TSC_SYNC_BASE s).
Proof. intros [_ _ _ Hld _] Hb. destruct (lead s); [by destruct Hld..| by destruct Hld as (_ & ? & _)|by destruct Hld]. Qed.
Lemma follow_step_ok n i s s' : Z.of_nat n < 2 ^ 32 -> sync_ok n s -> sync_tsc_follow i s s' -> sync_ok n s'.
Proof.
  intros Hn Hok Hs. destruct Hs as [c r b l f tm g Hi|c b l f tm g Hi|c r b l f tm g v o Hi Hb Ho];
    pose proof (sy_len _ _ Hok) as Hl; pose proof (sy_count _ _ Hok) as Hc; cbn in Hl, Hc;
    pose proof (length_filter arrived f) as Hle; pose proof (n_arrived_insert f i) as Hins.
  - specialize (Hins _ FArrived Hi). rewrite decide_False, decide_True in Hins by (unfold arrived; naive_solver).
    pose proof (length_filter arrived (<[i := FArrived]> f)) as Hle'. rewrite length_insert in Hle'.
    rewrite Hc, wrap_small by lia. replace (Z.of_nat (n_arrived f) + 1) with (Z.of_nat (n_arrived (<[i := FArrived]> f))) by lia.
    by apply (follow_changed n _ i FStart FArrived Hok Hi).
  - specialize (Hins _ (FRead (tsc_of (S i) tm)) Hi). rewrite !decide_True in Hins by (unfold arrived; naive_solver).
    replace c with (Z.of_nat (n_arrived (<[i := FRead (tsc_of (S i) tm)]> f))) by lia.
    apply (follow_changed n _ i FArrived _ Hok Hi); [done|]. split; [done|]. exists tm.
    destruct (sy_ready _ _ Hok eq_refl) as [_ Ht]. cbn in Ht |- *. split; [lia|done].
  - specialize (Hins _ (FDone o) Hi). rewrite !decide_True in Hins by (unfold arrived; naive_solver).
    replace c with (Z.of_nat (n_arrived (<[i := FDone o]> f))) by lia.
    apply (follow_changed n _ i _ _ Hok Hi); [done|]. destruct (sy_follow _ _ Hok i _ Hi) as [Hr Hv].
    split; [exact Hr|]. exists b, v. split_and!; [exact (base_read n _ Hok Hb)|exact Hv|done].
Qed.
Lemma sync_step_ok n s s' : Z.of_nat n < 2 ^ 32 -> sync_ok n s -> sync_step (Z.of_nat n + 1) s s' -> sync_ok n s'.
Proof.
  intros Hn Hok Hstep. destruct Hstep as [s1 s2 Hs|i s1 s2 Hs|c r b l f tm tm' g Ht];
    [exact (lead_step_ok n _ _ Hok Hs)|exact (follow_step_ok n i _ _ Hn Hok Hs)|].
  destruct Hok as [Hl Hc Hr Hld Hf].
  assert (forall i v, late_reading (Build_SyncState c r b l f tm g) i v -> late_reading (Build_SyncState c r b l f tm' g) i v) as Hm
    by (intros i v; by apply late_mono).
  split; cbn in *; [done|done| | |].
  - intros Hy. destruct (Hr Hy). split; [done|lia].
  - destruct l; [exact Hld..|destruct Hld as (? & ? & ?)|destruct Hld as (? & ?)]; auto.
  - intros i p Hp. specialize (Hf i p Hp). destruct p; [done|done|destruct Hf as [? ?]; split; auto|].
    destruct Hf as (? & b' & v & ? & ? & ?). split; [done|]. exists b', v. auto.
Qed.

(** The processors' clocks agree after the handshake up to its duration.
    Whatever the interleaving, when the [i]-th follower has its offset, every
    follower had arrived before any counter was read, and the clock of the
    follower, its counter plus the offset, differs from the counter of the
    lead at every moment by at most the time since the last one had arrived. *)
Theorem tsc_sync_error n tm s i o : Z.of_nat n < 2 ^ 32 -> rtc (sync_step (Z.of_nat n + 1)) (sync_start n tm) s ->
  follow s !! i = Some (FDone o) -> (forall j tm', j = 0%nat \/ j = S i -> ready_at s <= tm' <= time s -> 0 <= tsc_of j tm' < 2 ^ 63) ->
  Forall arrived (follow s) /\
  forall tm', Z.abs ((tsc_of (S i) tm' + o) - tsc_of 0 tm') <= time s - ready_at s.
Proof.
  intros Hn Hs Hi Hrange. assert (sync_ok n s) as Hok.
  { pose proof (sync_start_ok n tm) as H0. induction Hs; [done|]. apply IHHs; [done..|]. by eapply sync_step_ok. }
  destruct (sy_follow _ _ Hok i _ Hi) as (Hr & b & v & (t0 & Ht0 & ->) & (ti & Hti & ->) & Ho).
  split; [by apply (sy_ready _ _ Hok)|]. intros tm'. pose proof (Hrange 0%nat t0 (or_introl eq_refl) Ht0). pose proof (Hrange (S i) ti (or_intror eq_refl) Hti).
  rewrite !swrap_small, snum_ok in Ho by lia. injection Ho as <-. unfold tsc_of. lia.
Qed.
End sync.

(** ** A machine whose counter advances a million ticks per reading *)
Module SampleClock.
#[export] Instance counter : Machine nat := {
  rdtsc n := ((Z.of_nat n * 1_000_000) mod 2 ^ 62, S n);
  inb _ n := (0, n);
  outb _ _ n := n;
  apic_read _ n := (0, n);
  apic_write _ _ n := n;
}.
#[export] Instance counter_laws : MachineLaws nat.
Proof. split; intros; cbn; [|unfold is_byte; lia|lia]. pose proof (Z.mod_pos_bound (Z.of_nat w * 1000000) (2 ^ 62)). lia. Qed.
Definition timers : Timers nat := {| machine := 0%nat; TSC_TIMER_TICKS_PER_MS := 3_000_000; TIME_AT_BOOT := 1_700_000_000;
  tsc_offset := 0; apic_timer_ticks_per_ms := 0 |}.
Lemma timers_in_range : in_range timers.
Proof. intros k. unfold nth_reading. cbn. pose proof (Z.mod_pos_bound (Z.of_nat (after k 0%nat) * 1000000) (2 ^ 62)). lia. Qed.
Definition skew (i : nat) : Z := 1000 * Z.of_nat i + 1.
(** Two processors, from time 0; the follower reads its counter 7 after the lead does *)
Definition synced : SyncState := {| TSC_CORE_SYNC_COUNT := 1; TSC_SYNC_IS_ALL_CORE_READY := true; TSC_SYNC_BASE := 1;
  lead := LDone; follow := [FDone (-1007)]; time := 7; ready_at := 0 |}.
Lemma synced_reachable : rtc (sync_step (H:=dev_build) skew 2) (sync_start 1 0) synced.
Proof.
  eapply rtc_l; [apply (step_follow (H:=dev_build) skew 2 0), follow_arrive; reflexivity|].
  eapply rtc_l; [apply step_lead, lead_ready; reflexivity|].
  eapply rtc_l; [apply step_lead, lead_read|].
  eapply rtc_l; [apply (step_time (H:=dev_build) skew 2) with (tm' := 7); lia|].
  eapply rtc_l; [apply (step_follow (H:=dev_build) skew 2 0), follow_read; reflexivity|].
  eapply rtc_l; [apply step_lead, lead_store|].
  eapply rtc_l; [eapply (step_follow (H:=dev_build) skew 2 0), follow_done; [reflexivity|discriminate|vm_compute; reflexivity]|].
  apply rtc_refl.
Qed.
End SampleClock.
Import SampleClock.

Lemma elapsed_thousandfold_witness : instant_sub (E:=never) (H:=dev_build) 3_000_000 0 SampleClock.timers = Ok 999_000_000.
Proof.
  destruct (elapsed_thousandfold (H:=dev_build) (E:=never) 0 3_000_000 SampleClock.timers) as (d & Hd & _); [cbn; lia..|].
  etransitivity; [exact Hd|]. vm_compute in Hd. injection Hd as <-. reflexivity.
Defined.
Lemma timestamps_agree_witness : as_timestamp_secs (E:=never) (H:=dev_build) 7_500_000_000 SampleClock.timers = Ok (1_700_000_002_500 / 1000).
Proof.
  destruct (timestamps_agree (H:=dev_build) (E:=never) 7_500_000_000 SampleClock.timers) as (ms & Hm & Hs); [cbn; lia..|].
  etransitivity; [exact Hs|]. vm_compute in Hm. injection Hm as <-. reflexivity.
Defined.
(** A sleep of one second returns after a thousandth of it, three million ticks. *)
Lemma sleep_ends_early_witness : exists j, (1 <= j <= 6)%nat /\
  blocking_sleep (E:=never) (H:=dev_build) 10 1_000_000_000 SampleClock.timers = (Ok (), with_machine SampleClock.timers (after (S j) 0%nat)).
Proof.
  destruct (sleep_ends_early (H:=dev_build) (E:=never) SampleClock.timers 1_000_000_000 6 10 SampleClock.timers_in_range)
    as (j & Hj & Hs & _); [cbn; lia|lia|vm_compute; discriminate|lia|].
  exists j. split; [exact Hj|exact Hs].
Defined.
Lemma tsc_sync_error_witness : Z.abs ((tsc_of SampleClock.skew 1 5 + (-1007)) - tsc_of SampleClock.skew 0 5) <= 7.
Proof.
  refine (proj2 (tsc_sync_error (H:=dev_build) SampleClock.skew 1 0 SampleClock.synced 0 (-1007) _ SampleClock.synced_reachable eq_refl _) 5); [lia|].
  intros j tm' [-> | ->]; unfold tsc_of, SampleClock.skew; cbn; lia.
Defined.
