(* ===== verification/Ahci.v ===== *)
(** * The AHCI driver: commands and the port

    src/kernel/src/drivers/ata/sata: fis.rs, command.rs, io.rs, and mod.rs
    without the allocation of the port's memory, which is in Hba.

    The controller is a parameter: registers of the port and of the host bus
    adapter, which are read and written through the machine's memory, and the
    memory the controller writes to.  So is the [bitfield] crate, of which the
    accessors of a field are used.  The structures the controller reads are
    their bytes in the 20 KiB buffer the port shares with it; what the
    controller makes of them is [fetch]. *)

From S2P Require Import Prelude Bytes Disk Timer.

(** ** Fields of registers *)
Class Bitfield := {
  bit_of : Z -> Z -> bool;                    (* bit, value *)
  with_bit : Z -> bool -> Z -> Z;             (* bit, new, value *)
  bits_of : Z -> Z -> Z -> Z;                 (* msb, lsb, value *)
  with_bits : Z -> Z -> Z -> Z -> Z;          (* msb, lsb, new, value *)
}.
(** A field is its bits; a setter changes no other ones. *)
Class BitfieldLaws `{Bitfield} := {
  bit_of_ok i v : 0 <= i -> bit_of i v = Z.testbit v i;
  with_bit_ok i b v j : 0 <= i -> 0 <= j -> Z.testbit (with_bit i b v) j = if j =? i then b else Z.testbit v j;
  bits_of_ok m l v j : 0 <= l <= m -> 0 <= j -> Z.testbit (bits_of m l v) j = (j <=? m - l) && Z.testbit v (l + j);
  with_bits_ok m l x v j : 0 <= l <= m -> 0 <= j ->
    Z.testbit (with_bits m l x v) j = if (l <=? j) && (j <=? m) then Z.testbit x (j - l) else Z.testbit v j;
}.

Section fields.
Context `{BitfieldLaws}.
Lemma with_bit_eq i b v : 0 <= i -> with_bit i b v = if b then Z.lor v (Z.shiftl 1 i) else Z.ldiff v (Z.shiftl 1 i).
Proof.
  intros Hi. apply Z.bits_inj_iff'. intros j Hj. rewrite with_bit_ok by lia.
  destruct b; rewrite ?Z.lor_spec, ?Z.ldiff_spec, shiftl1_testbit by lia; rewrite (Z.eqb_sym j i); destruct (i =? j); cbn;
    by rewrite ?orb_true_r, ?orb_false_r, ?andb_true_r, ?andb_false_r.
Qed.
Lemma bits_of_eq m l v : 0 <= l <= m -> bits_of m l v = Z.shiftr v l mod 2 ^ (m + 1 - l).
Proof.
  intros Hm. apply Z.bits_inj_iff'. intros j Hj. rewrite bits_of_ok by lia. destruct (Z.leb_spec j (m - l)).
  - rewrite Z.mod_pow2_bits_low, Z.shiftr_spec by lia. cbn. f_equal. lia.
  - by rewrite Z.mod_pow2_bits_high by lia.
Qed.
Lemma with_bits_eq m l x v : 0 <= l <= m ->
  with_bits m l x v = Z.lor (Z.ldiff v (Z.shiftl (Z.ones (m + 1 - l)) l)) (Z.shiftl (x mod 2 ^ (m + 1 - l)) l).
Proof.
  intros Hm. apply Z.bits_inj_iff'. intros j Hj. rewrite with_bits_ok, Z.lor_spec, Z.ldiff_spec, !Z.shiftl_spec by lia.
  destruct (Z.leb_spec l j), (Z.leb_spec j m); cbn [andb].
  - rewrite Z.ones_spec_low, Z.mod_pow2_bits_low by lia. cbn. by rewrite andb_false_r.
  - rewrite Z.ones_spec_high, Z.mod_pow2_bits_high by lia. cbn. by rewrite andb_true_r, orb_false_r.
  - rewrite !(Z.testbit_neg_r _ (j - l)) by lia. cbn. by rewrite andb_true_r, orb_false_r.
  - rewrite !(Z.testbit_neg_r _ (j - l)) by lia. cbn. by rewrite andb_true_r, orb_false_r.
Qed.
End fields.

(** ** Registers *)
Inductive PortReg :=
| command_list_base_lower | command_list_base_higher | fis_base_lower | fis_base_higher | interrupt_status | interrupt_enable
| command_and_status | task_file_data | signature | sata_status | sata_control | sata_error | sata_active | command_issue
| snotification | fbs_control | vendor_specific.
Definition port_offset (r : PortReg) : Z :=
  match r with
  | command_list_base_lower => 0x00 | command_list_base_higher => 0x04 | fis_base_lower => 0x08 | fis_base_higher => 0x0C
  | interrupt_status => 0x10 | interrupt_enable => 0x14 | command_and_status => 0x18 | task_file_data => 0x20
  | signature => 0x24 | sata_status => 0x28 | sata_control => 0x2C | sata_error => 0x30 | sata_active => 0x34
  | command_issue => 0x38 | snotification => 0x3C | fbs_control => 0x40 | vendor_specific => 0x70
  end.
Definition HBA_PORT_PORTS_OFFSET : Z := 0x100.
Definition HBA_PORT_SIZE : Z := 0x80.
(** The one register of the adapter that the port's code uses *)
Definition hba_interrupt_status : Z := 0x08.

(** 32-bit accesses to the adapter's registers, by offset, and the bytes that
    are in memory at a physical address *)
Class Controller (W : Type) := {
  mmio_read : Z -> W -> Z * W;
  mmio_write : Z -> Z -> W -> W;
  memory_at : Z -> Z -> W -> list Z;
}.

(** [PortCmdAndStatus], [PortStatus], [PortControl] and the others: the
    positions of their fields *)
Inductive CmdAndStatusField :=
| start | spin_up_device | power_on_device | cmd_list_override | fis_recv_enable | mps_state | fis_recv_running | cmd_list_running
| cps_state | port_multiplier_attached | hot_plug_capable | mps_attached | cold_presence_detect | external_sata | fbcp_supported
| apic_enable | atapi_device | drive_led_on_atapi | aggressive_link_pm | link_pm_state.
Definition PortCmdAndStatus (f : CmdAndStatusField) : Z :=
  match f with
  | start => 0 | spin_up_device => 1 | power_on_device => 2 | cmd_list_override => 3 | fis_recv_enable => 4 | mps_state => 13
  | fis_recv_running => 14 | cmd_list_running => 15 | cps_state => 16 | port_multiplier_attached => 17 | hot_plug_capable => 18
  | mps_attached => 19 | cold_presence_detect => 20 | external_sata => 21 | fbcp_supported => 22 | apic_enable => 23
  | atapi_device => 24 | drive_led_on_atapi => 25 | aggressive_link_pm => 26 | link_pm_state => 27
  end.
(** Of [PortInterruptEnable] and [PortInterruptStatus], which have the same
    fields at the same positions *)
Inductive InterruptField :=
| i_cold_presence_detect | task_file_error | host_bus_fatal_error | host_bus_data_error | interface_fatal_error
| interface_non_fatal_error | i_overflow | fifo_overflow | physical_layer_ready_change | device_mechanical_presence
| port_connect_status_change | descriptor_processed | unknown_fis_interrupt | set_device_bits_interrupt
| dma_setup_fis_interrupt | pio_setup_fis_interrupt | device_to_host_register_fis_interrupt.
Definition PortInterrupt (f : InterruptField) : Z :=
  match f with
  | i_cold_presence_detect => 31 | task_file_error => 30 | host_bus_fatal_error => 29 | host_bus_data_error => 28
  | interface_fatal_error => 27 | interface_non_fatal_error => 26 | i_overflow => 24 | fifo_overflow => 23
  | physical_layer_ready_change => 22 | device_mechanical_presence => 7 | port_connect_status_change => 6
  | descriptor_processed => 5 | unknown_fis_interrupt => 4 | set_device_bits_interrupt => 3 | dma_setup_fis_interrupt => 2
  | pio_setup_fis_interrupt => 1 | device_to_host_register_fis_interrupt => 0
  end.
Section ranges.
Context `{Bitfield}.
Definition cur_cmd_slot (v : Z) : Z := bits_of 12 8 v.
Definition set_interface_comm_control (x v : Z) : Z := with_bits 31 28 x v.
Definition device_detection (v : Z) : Z := bits_of 3 0 v.
Definition interface_power_management (v : Z) : Z := bits_of 11 8 v.
Definition set_det_init (x v : Z) : Z := with_bits 3 0 x v.
Definition error_code (v : Z) : Z := bits_of 15 8 v.
End ranges.
(** Constants of [PortStatus] and [PortControl] that are used *)
Definition DET_NOT_PRESENT : Z := 0x0.
Definition DET_PRESENT_NO_PHY : Z := 0x1.
Definition DET_PRESENT_WITH_PHY : Z := 0x3.
Definition DET_OFFLINE : Z := 0x4.
Definition IPM_NOT_PRESENT : Z := 0x0.
Definition IPM_ACTIVE : Z := 0x1.
Definition DET_NO_ACTION : Z := 0x0.
Definition DET_COMRESET : Z := 0x1.

(** ** fis.rs and command.rs *)
Inductive AtaCommand := ReadDmaExt | WriteDmaExt | ReadDma | WriteDma | Identify | FlushCache | FlushCacheExt.
Definition ata_command (c : AtaCommand) : Z :=
  match c with
  | ReadDmaExt => 0x25 | WriteDmaExt => 0x35 | ReadDma => 0xC8 | WriteDma => 0xCA | Identify => 0xEC
  | FlushCache => 0xE7 | FlushCacheExt => 0xEA
  end.
Definition DEVICE_LBA_MODE : Z := 0x40.
Definition FORCE_UNIT_FLUSH : Z := 0x80.
Record FisRegH2D := {
  fis_type : Z; fis_flags : Z; fis_command : Z; feature_low : Z;
  lba0 : Z; lba1 : Z; lba2 : Z; fis_device : Z;
  lba3 : Z; lba4 : Z; lba5 : Z; feature_high : Z;
  count_low : Z; count_high : Z; icc : Z; control : Z;
}.
Definition fis_bytes (f : FisRegH2D) : list Z :=
  [fis_type f; fis_flags f; fis_command f; feature_low f; lba0 f; lba1 f; lba2 f; fis_device f;
   lba3 f; lba4 f; lba5 f; feature_high f; count_low f; count_high f; icc f; control f; 0; 0; 0; 0].
(** A [PrdtEntry] *)
Definition PrdtEntry (data_base flags : Z) : list Z :=
  le_bytes 4 (wrap 32 data_base) ++ le_bytes 4 (wrap 32 (Z.shiftr data_base 32)) ++ le_bytes 4 0 ++ le_bytes 4 flags.
(** [IdentifyData]: 256 words; the compiler's padding before [lba28_sectors]
    puts it at word 60. *)
Definition sectors_per_track (d : list Z) : Z := u_at 2 12 d.
Definition command_set_supported2 (d : list Z) : Z := u_at 2 166 d.
Definition lba48_sectors (d : list Z) : Z := u_at 8 200 d.
Definition IdentifyData_default : list Z := replicate 512 0.

Definition RECEIVED_FIS_AREA_OFFSET : Z := 0x400.
Definition CMD_TABLES_OFFSET : Z := 0x500.
Definition CMD_TABLE_SIZE : Z := 0x200.
Definition size_of_CommandTable : Z := 0x200.
Definition size_of_CommandHeader : Z := 32.
Definition size_of_FisRegH2D : Z := 20.

(** ** The port *)
Record Buffer := { inner : Z; len : Z }.
Record AhciSata (W : Type) := {
  timers : Timers W;
  dma_buffer : list Z;
  dma_20kb_buffer_paddr : Z;
  max_cmd_slots : Z;
  identify_data : list Z;
  hba_idx : Z;
  ports_idx : Z;
}.
Arguments Build_AhciSata {W} _ _ _ _ _ _ _.
Arguments timers {W} _.
Arguments dma_buffer {W} _.
Arguments dma_20kb_buffer_paddr {W} _.
Arguments max_cmd_slots {W} _.
Arguments identify_data {W} _.
Arguments hba_idx {W} _.
Arguments ports_idx {W} _.
Definition with_timers {W} (s : AhciSata W) (t : Timers W) : AhciSata W :=
  Build_AhciSata t (dma_buffer s) (dma_20kb_buffer_paddr s) (max_cmd_slots s) (identify_data s) (hba_idx s) (ports_idx s).
Definition with_dma {W} (s : AhciSata W) (b : list Z) : AhciSata W :=
  Build_AhciSata (timers s) b (dma_20kb_buffer_paddr s) (max_cmd_slots s) (identify_data s) (hba_idx s) (ports_idx s).
Definition with_identify {W} (s : AhciSata W) (d : list Z) : AhciSata W :=
  Build_AhciSata (timers s) (dma_buffer s) (dma_20kb_buffer_paddr s) (max_cmd_slots s) d (hba_idx s) (ports_idx s).

Inductive TimeOut := timed_out.

(** [phys_addr] is [PhysAddr::new], which panics on what is no physical
    address; [hhdm_offset] is where the boot loader mapped the memory. *)
Section port.
Context `{Build} {W : Type} `{Machine W, Controller W, Bitfield} (phys_addr : Z -> option Z) (hhdm_offset : Z).

Section access.
Context {E : Type}.
Abbreviation P := (M (AhciSata W) E).
Definition clock {A} (m : M (Timers W) E A) : P A := fun s => let '(r, t) := m (timers s) in (r, with_timers s t).
Definition port_reg (s : AhciSata W) (r : PortReg) : Z := HBA_PORT_PORTS_OFFSET + HBA_PORT_SIZE * ports_idx s + port_offset r.
Definition read_port (r : PortReg) : P Z := s ← get; clock (reading (mmio_read (port_reg s r))).
Definition write_port (r : PortReg) (v : Z) : P () := s ← get; clock (writing (mmio_write (port_reg s r) v)).
Definition write_hba_interrupt_status (v : Z) : P () := clock (writing (mmio_write hba_interrupt_status v)).

(** *** Starting, stopping, resetting *)
Definition START : Z := 0x1.
Definition COMMAND_LIST_RUNNING : Z := 0x8000.
Definition FIS_RECEIVE_ENABLE : Z := 0x10.
Definition FIS_RECEIVE_RUNNING : Z := 0x4000.
Definition SECOND : Z := 1_000_000_000.

Definition is_idle : P bool :=
  cmd_status ← read_port command_and_status;
  mret (Z.land cmd_status (Z.lor (Z.lor (Z.lor START COMMAND_LIST_RUNNING) FIS_RECEIVE_ENABLE) FIS_RECEIVE_RUNNING) =? 0).
Definition reset_cmd : P () :=
  cmd_status ← read_port command_and_status;
  write_port command_and_status (Z.ldiff cmd_status (Z.lor START FIS_RECEIVE_ENABLE)).
Definition com_reset : P () := panic.
(** The loops that give up after a second; [false] is giving up. *)
Fixpoint wait_stopped (fuel : nat) (time : Z) : P bool :=
  match fuel with
  | O => lift Hang
  | S fuel =>
      cmd_status ← read_port command_and_status;
      e ← clock (elapsed time);
      if SECOND <? e then mret false
      else if Z.land cmd_status (Z.lor COMMAND_LIST_RUNNING FIS_RECEIVE_RUNNING) =? 0 then mret true
      else wait_stopped fuel time
  end.
Fixpoint wait_for (fuel : nat) (ready : P bool) (late : Z -> bool) (start : Z) : P bool :=
  match fuel with
  | O => lift Hang
  | S fuel =>
      b ← ready;
      if b : bool then mret true
      else e ← clock (elapsed start); if late e then mret false else wait_for fuel ready late start
  end.
(** [while !ready() { spin_loop() }] *)
Fixpoint spin_until (fuel : nat) (ready : P bool) : P () :=
  match fuel with
  | O => lift Hang
  | S fuel => b ← ready; if b : bool then mret () else spin_until fuel ready
  end.
Definition cmd_bit (f : CmdAndStatusField) : P bool := v ← read_port command_and_status; mret (bit_of (PortCmdAndStatus f) v).
Definition det_is (d : Z) : P bool := v ← read_port sata_status; mret (device_detection v =? d).
Definition ipm_is (d : Z) : P bool := v ← read_port sata_status; mret (interface_power_management v =? d).
Definition not_busy : P bool := tfd ← read_port task_file_data; mret (Z.land tfd 0x88 =? 0).
Definition set_det (x : Z) : P () := v ← read_port sata_control; write_port sata_control (set_det_init x v).
Definition disable_interrupts : P () := write_port interrupt_enable 0.
Definition enabled (fs : list InterruptField) : Z := foldl (fun v f => with_bit (PortInterrupt f) true v) 0 fs.
Definition enable_interrupts : P () :=
  _ ← write_port interrupt_enable (enabled [task_file_error; interface_fatal_error; host_bus_fatal_error; descriptor_processed;
                                            device_to_host_register_fis_interrupt]);
  _ ← read_port interrupt_enable;
  mret ().
(** The addresses of the command list and of the received frames; errors and
    status cleared *)
Definition set_bases : P () :=
  a ← gets dma_20kb_buffer_paddr;
  _ ← write_port command_list_base_lower (wrap 32 a);
  _ ← write_port command_list_base_higher (wrap 32 (Z.shiftr a 32));
  received_fis_area ← lift (uadd 64 a RECEIVED_FIS_AREA_OFFSET);
  _ ← write_port fis_base_lower (wrap 32 received_fis_area);
  _ ← write_port fis_base_higher (wrap 32 (Z.shiftr received_fis_area 32));
  _ ← write_port sata_error 0xFFFFFFFF;
  write_port interrupt_status 0.
Definition start_engine (fuel : nat) : P () :=
  cmd ← read_port command_and_status;
  let cmd := with_bit (PortCmdAndStatus fis_recv_enable) true cmd in
  _ ← write_port command_and_status cmd;
  _ ← spin_until fuel (cmd_bit fis_recv_running);
  let cmd := with_bit (PortCmdAndStatus start) true cmd in
  _ ← write_port command_and_status cmd;
  spin_until fuel (cmd_bit cmd_list_running).
Fixpoint failure_reset (rounds fuel : nat) : P () :=
  match rounds with
  | O => lift Hang
  | S rounds =>
      _ ← disable_interrupts;
      _ ← reset_cmd;
      time ← clock now;
      b ← wait_stopped fuel time;
      if negb b then failure_reset rounds fuel else
      _ ← set_det DET_COMRESET;
      start ← clock now;
      b ← wait_for fuel (det_is DET_PRESENT_WITH_PHY) (fun e => SECOND <=? e) start;
      if negb b then failure_reset rounds fuel else
      _ ← set_det DET_NO_ACTION;
      _ ← set_bases;
      start ← clock now;
      b ← wait_for fuel not_busy (fun e => SECOND <? e) start;
      if negb b then failure_reset rounds fuel else
      _ ← start_engine fuel;
      enable_interrupts
  end.

(** *** Commands *)
Definition nth_command_table_offset (n : Z) : res E Z := o ← umul 64 n CMD_TABLE_SIZE; uadd 64 CMD_TABLES_OFFSET o.
Definition lba48_supported (s : AhciSata W) : bool := negb (Z.land (command_set_supported2 (identify_data s)) 0x400 =? 0).
Definition command_flags : Z := with_bits 3 0 0 (with_bit 7 true 0).
Definition prdt_flags (byte_count : Z) : Z := with_bits 21 0 byte_count (with_bit 31 false 0).
(** Bits 15-12, 10, 9, 8, 7, 5, 6 and 4-0, set one after the other *)
Definition header_flags (is_write : bool) : Z :=
  with_bits 4 0 (size_of_FisRegH2D / 4) (with_bit 6 is_write (with_bit 5 false (with_bit 7 false
    (with_bits 8 8 0 (with_bits 9 9 0 (with_bit 10 false (with_bits 15 12 0 0))))))).
(** [cmd_table.cmd_fis = ..] and [cmd_table.prdt_table[0] = ..] in the table of a slot *)
Definition put_fis (i : Z) (fis : FisRegH2D) : P () :=
  buf ← gets dma_buffer;
  off ← lift (nth_command_table_offset i);
  _ ← lift (slice buf off (off + size_of_CommandTable));
  buf ← lift (splice buf off (fis_bytes fis));
  modify (fun s => with_dma s buf).
Definition put_prdt (i : Z) (e : list Z) : P () :=
  buf ← gets dma_buffer;
  off ← lift (nth_command_table_offset i);
  buf ← lift (splice buf (off + 0x80) e);
  modify (fun s => with_dma s buf).
Definition put_header (i table_length flags table : Z) : P () :=
  buf ← gets dma_buffer;
  off ← lift (umul 64 i size_of_CommandHeader);
  _ ← lift (slice buf off (off + size_of_CommandHeader));
  let buf := u_put 2 (off + 2) table_length buf in
  let buf := u_put 2 off flags buf in
  let buf := u_put 4 (off + 4) 0 buf in
  let buf := u_put 4 (off + 8) (wrap 32 table) buf in
  let buf := u_put 4 (off + 12) (wrap 32 (Z.shiftr table 32)) buf in
  modify (fun s => with_dma s buf).
(** [self.dma_20kb_buffer_paddr + offset], a [PhysAddr] *)
Definition table_phys (i : Z) : P Z :=
  a ← gets dma_20kb_buffer_paddr;
  off ← lift (nth_command_table_offset i);
  n ← lift (uadd 64 a off);
  lift (expect (phys_addr n)).
Definition lba_fis (cmd : AtaCommand) (device lba count : Z) : FisRegH2D :=
  {| fis_type := 0x27; fis_flags := command_flags; fis_command := ata_command cmd; feature_low := 0;
     lba0 := wrap 8 lba; lba1 := wrap 8 (Z.shiftr lba 8); lba2 := wrap 8 (Z.shiftr lba 16); fis_device := device;
     lba3 := wrap 8 (Z.shiftr lba 24); lba4 := wrap 8 (Z.shiftr lba 32); lba5 := wrap 8 (Z.shiftr lba 40); feature_high := 0;
     count_low := wrap 8 count; count_high := wrap 8 (Z.shiftr count 8); icc := 0; control := 0 |}.
(** The part the two transfers share: everything up to the registers *)
Definition put_transfer (i : Z) (cmd : AtaCommand) (device : Z) (is_write : bool) (lba : Z) (buffer : Buffer) : P () :=
  let count := wrap 16 (len buffer / SECTOR_SIZE) in
  d ← gets identify_data;
  lba ← (if lba <? 0 then lift (uadd 64 (lba48_sectors d) (wrap 64 lba)) else mret (wrap 64 lba));
  cmd_tables_phys_addr ← table_phys i;
  result_buf_ptr ← lift (usub 64 (inner buffer) hhdm_offset);
  _ ← lift (rassert (result_buf_ptr mod 4 =? 0));
  _ ← put_fis i (lba_fis cmd device lba count);
  bytes ← lift (umul 32 count (wrap 32 SECTOR_SIZE));
  byte_count ← lift (usub 32 bytes 1);
  _ ← put_prdt i (PrdtEntry result_buf_ptr (prdt_flags byte_count));
  put_header i 1 (header_flags is_write) cmd_tables_phys_addr.
Definition issue (i : Z) : P () := v ← lift (ushl 32 1 i); write_port command_issue v.
Definition start_read_sectors (i lba : Z) (buffer : Buffer) : P () :=
  s ← get;
  if negb (lba48_supported s) then mret () else
  _ ← put_transfer i ReadDmaExt DEVICE_LBA_MODE false lba buffer;
  _ ← write_port interrupt_status 0xFFFFFFFF;
  _ ← write_port sata_error 0xFFFFFFFF;
  _ ← write_hba_interrupt_status 0xFFFFFFFF;
  issue i.
Definition start_write_sectors (i lba : Z) (buffer : Buffer) : P () :=
  s ← get;
  if negb (lba48_supported s) then mret () else
  _ ← put_transfer i WriteDmaExt (Z.lor DEVICE_LBA_MODE FORCE_UNIT_FLUSH) true lba buffer;
  issue i.
Definition simple_fis (cmd : AtaCommand) (device : Z) : FisRegH2D :=
  {| fis_type := 0x27; fis_flags := command_flags; fis_command := ata_command cmd; feature_low := 0;
     lba0 := 0; lba1 := 0; lba2 := 0; fis_device := device; lba3 := 0; lba4 := 0; lba5 := 0; feature_high := 0;
     count_low := 0; count_high := 0; icc := 0; control := 0 |}.
Definition issue_flush (i : Z) : P () :=
  a ← gets dma_20kb_buffer_paddr;
  off ← lift (nth_command_table_offset i);
  table ← lift (uadd 64 a off);
  _ ← put_fis i (simple_fis FlushCache DEVICE_LBA_MODE);
  _ ← put_header i 0 5 table;
  issue i.
(** The result is read into a new allocation at the virtual address [result]. *)
Definition identify (fuel : nat) (result : Z) : P () :=
  a ← gets dma_20kb_buffer_paddr;
  n ← lift (uadd 64 a CMD_TABLES_OFFSET);
  table ← lift (expect (phys_addr n));
  ptr ← lift (usub 64 result hhdm_offset);
  _ ← put_fis 0 (simple_fis Identify 0);
  _ ← put_prdt 0 (PrdtEntry ptr (prdt_flags (SECTOR_SIZE - 1)));
  _ ← put_header 0 1 (header_flags false) table;
  _ ← write_port command_issue 0x1;
  _ ← spin_until fuel (ci ← read_port command_issue; mret (Z.land ci 0x1 =? 0));
  tfd ← read_port task_file_data;
  if negb (Z.land tfd 0x01 =? 0) then panic
  else if negb (Z.land tfd 0x80 =? 0) || negb (Z.land tfd 0x08 =? 0) then panic
  else modify (fun s => with_identify s (memory_at ptr SECTOR_SIZE (machine (timers s)))).
End access.

Definition reset (fuel : nat) : M (AhciSata W) TimeOut () :=
  idle ← is_idle;
  if idle : bool then mret () else
  _ ← reset_cmd;
  time ← clock now;
  b ← wait_stopped fuel time;
  if b : bool then mret () else throw timed_out.
Definition init (fuel : nat) (result : Z) : M (AhciSata W) TimeOut () :=
  _ ← disable_interrupts;
  status ← read_port sata_status;
  _ ← (if (device_detection status =? DET_OFFLINE) || (interface_power_management status =? IPM_NOT_PRESENT) then
         _ ← reset_cmd;
         _ ← set_det DET_COMRESET;
         start ← clock now;
         b ← wait_for fuel (det_is DET_PRESENT_WITH_PHY) (fun e => SECOND <=? e) start;
         if negb b then throw timed_out else
         _ ← reset_cmd;
         set_det DET_NO_ACTION
       else mret ());
  _ ← (if negb (interface_power_management status =? IPM_ACTIVE) then
         cmd_status ← read_port command_and_status;
         _ ← write_port command_and_status (set_interface_comm_control 1 cmd_status);
         start ← clock now;
         b ← wait_for fuel (ipm_is IPM_ACTIVE) (fun e => SECOND <=? e) start;
         if negb b then throw timed_out else
         _ ← reset_cmd;
         set_det DET_NO_ACTION
       else mret ());
  _ ← reset fuel;
  _ ← set_bases;
  start ← clock now;
  b ← wait_for fuel not_busy (fun e => SECOND <? e) start;
  if negb b then throw timed_out else
  _ ← start_engine fuel;
  _ ← identify fuel result;
  enable_interrupts.
End port.

(** ** What the controller reads

    The command of a slot as the AHCI specification lays it out: the header in
    the command list at [32 * i], and the table it points to, with the frame
    that is sent to the drive and the regions of memory of the transfer. *)
Record Request := {
  rq_command : Z; rq_lba : Z; rq_count : Z; rq_write : bool;
  rq_regions : list (Z * Z);   (* physical address, bytes *)
}.
Definition fetch (base : Z) (buf : list Z) (i : Z) : option Request :=
  let h := 32 * i in
  let table := u_at 4 (h + 8) buf + 2 ^ 32 * u_at 4 (h + 12) buf in
  let t := table - base in
  let regions := u_at 2 (h + 2) buf in
  if (u_at 2 h buf mod 32 =? 5) && (table mod 128 =? 0) && (0 <=? t) && (t + 0x80 + 16 * regions <=? zlen buf) &&
     (u_at 1 t buf =? 0x27) && Z.testbit (u_at 1 (t + 1) buf) 7
  then Some {| rq_command := u_at 1 (t + 2) buf; rq_lba := u_at 3 (t + 4) buf + 2 ^ 24 * u_at 3 (t + 8) buf;
               rq_count := u_at 2 (t + 12) buf; rq_write := Z.testbit (u_at 2 h buf) 6;
               rq_regions := (fun k => (u_at 8 (t + 0x80 + 16 * k) buf, u_at 4 (t + 0x80 + 16 * k + 12) buf mod 2 ^ 22 + 1))
                             <$> seqZ 0 regions |}
  else None.

(** *** Bytes written and bytes kept *)
Definition put_at (off : Z) (xs l : list Z) : list Z := take (Z.to_nat off) l ++ xs ++ drop (Z.to_nat off + length xs) l.
Definition within (off n k : Z) : Prop := off <= k < off + n.
(** [l'] is [l] outside the ranges *)
Definition same_outside (rs : list (Z * Z)) (l l' : list Z) : Prop :=
  zlen l' = zlen l /\ forall k : nat, Forall (fun r => ~ within r.1 r.2 (Z.of_nat k)) rs -> l' !! k = l !! k.

Lemma same_outside_trans rs rs' l l' l'' : same_outside rs l l' -> same_outside rs' l' l'' -> same_outside (rs ++ rs') l l''.
Proof.
  intros [Hl Hk] [Hl' Hk']. split; [congruence|]. intros k Hr. apply Forall_app in Hr as [H1 H2]. by rewrite Hk', Hk.
Qed.
Lemma same_outside_mono rs rs' l l' : same_outside rs l l' ->
  (forall k, Forall (fun r => ~ within r.1 r.2 k) rs' -> Forall (fun r => ~ within r.1 r.2 k) rs) -> same_outside rs' l l'.
Proof. intros [Hl Hk] Hrs. split; [done|]. intros k Hk'. by apply Hk, Hrs. Qed.
Lemma put_at_same off xs l : 0 <= off -> off + zlen xs <= zlen l -> same_outside [(off, zlen xs)] l (put_at off xs l).
Proof.
  unfold zlen. intros Ho Hl. unfold put_at. split.
  - unfold zlen. rewrite !length_app, length_take, length_drop. lia.
  - intros k Hk. rewrite Forall_singleton in Hk. unfold within, zlen in Hk. cbn [fst snd] in Hk.
    destruct (decide (k < Z.to_nat off)%nat).
    + rewrite lookup_app_l by (rewrite length_take; lia). by rewrite lookup_take_lt.
    + rewrite lookup_app_r by (rewrite length_take; lia). rewrite length_take.
      rewrite lookup_app_r by lia. rewrite lookup_drop. f_equal. lia.
Qed.
Lemma u_put_same n off v l : 0 <= off -> off + Z.of_nat n <= zlen l -> same_outside [(off, Z.of_nat n)] l (u_put n off v l).
Proof.
  intros Ho Hl. replace (Z.of_nat n) with (zlen (le_bytes n v)) by (unfold zlen; by rewrite length_le_bytes).
  unfold u_put. replace (drop (Z.to_nat off + n) l) with (drop (Z.to_nat off + length (le_bytes n v)) l) by (by rewrite length_le_bytes).
  apply put_at_same; [done|]. unfold zlen. by rewrite length_le_bytes.
Qed.
Lemma u_at_same rs l l' n o : same_outside rs l l' -> 0 <= o ->
  Forall (fun r => o + Z.of_nat n <= r.1 \/ r.1 + r.2 <= o) rs -> u_at n o l' = u_at n o l.
Proof.
  intros [Hl Hk] Ho Hr. unfold u_at. f_equal. apply list_eq. intros k. destruct (decide (k < n)%nat).
  - rewrite !lookup_take_lt, !lookup_drop by done. apply Hk. eapply Forall_impl; [exact Hr|]. intros [a b] Hab. unfold within. cbn [fst snd] in *. lia.
  - by rewrite !lookup_take_ge by lia.
Qed.
Lemma u_at_put_at n o off xs l : 0 <= off <= o -> o + Z.of_nat n <= off + zlen xs -> off + zlen xs <= zlen l ->
  u_at n o (put_at off xs l) = u_at n (o - off) xs.
Proof.
  unfold zlen. intros Ho Hn Hl. unfold put_at. rewrite u_at_app_r by (unfold zlen; rewrite length_take; lia).
  unfold zlen. rewrite length_take. replace (Z.of_nat (Z.to_nat off `min` length l)) with off by lia.
  apply u_at_app_l; unfold zlen; lia.
Qed.

Section encoding.
Context `{Build} {W : Type} `{Machine W, Controller W, BitfieldLaws} (phys_addr : Z -> option Z) (hhdm_offset : Z) {E : Type}.
(** [PhysAddr::new] accepts every address of 52 bits. *)
Hypothesis (phys_addr_ok : forall a, 0 <= a < 2 ^ 52 -> phys_addr a = Some a).

Record port_ok (s : AhciSata W) : Prop := {
  p_len : zlen (dma_buffer s) = 0x5000;
  p_addr : 0 <= dma_20kb_buffer_paddr s /\ dma_20kb_buffer_paddr s + 0x5000 < 2 ^ 52;
  p_page : dma_20kb_buffer_paddr s mod 4096 = 0;
}.
Definition table_off (i : Z) : Z := CMD_TABLES_OFFSET + i * CMD_TABLE_SIZE.
Lemma nth_offset_ok i : 0 <= i < 32 -> nth_command_table_offset (E:=E) i = Ok (table_off i).
Proof.
  intros Hi. unfold nth_command_table_offset, table_off, CMD_TABLES_OFFSET, CMD_TABLE_SIZE. rewrite umul_ok by lia. rsimpl. apply uadd_ok. lia.
Qed.
Lemma command_flags_eq : command_flags = 0x80.
Proof. unfold command_flags. rewrite with_bits_eq, with_bit_eq by lia. done. Qed.
Lemma header_flags_eq w : header_flags w = if w then 0x45 else 0x05.
Proof. unfold header_flags. rewrite !with_bits_eq, !with_bit_eq by lia. by destruct w. Qed.
Lemma prdt_flags_eq n : 0 <= n < 2 ^ 22 -> prdt_flags n = n.
Proof.
  intros Hn. unfold prdt_flags. rewrite with_bits_eq, with_bit_eq by lia. rewrite Z.mod_small by lia. cbn -[Z.mul]. by rewrite Z.shiftl_0_r.
Qed.

Lemma put_fis_ok s i fis : port_ok s -> 0 <= i < 32 ->
  put_fis (E:=E) i fis s = (Ok (), with_dma s (put_at (table_off i) (fis_bytes fis) (dma_buffer s))).
Proof.
  intros [Hl _ _] Hi. unfold put_fis. rewrite run_gets. rewrite nth_offset_ok by lia. mstep. unfold table_off, CMD_TABLES_OFFSET, CMD_TABLE_SIZE, size_of_CommandTable.
  rewrite slice_ok by lia. mstep. rewrite splice_ok; [|lia|change (zlen (fis_bytes fis)) with 20; lia]. done.
Qed.
Lemma put_prdt_ok s i e : port_ok s -> 0 <= i < 32 -> zlen e = 16 ->
  put_prdt (E:=E) i e s = (Ok (), with_dma s (put_at (table_off i + 0x80) e (dma_buffer s))).
Proof.
  intros [Hl _ _] Hi He. unfold put_prdt. rewrite run_gets. rewrite nth_offset_ok by lia. mstep. unfold table_off, CMD_TABLES_OFFSET, CMD_TABLE_SIZE.
  rewrite splice_ok by lia. done.
Qed.
(** The header's fields in the command list *)
Definition headed (i table_length flags table : Z) (buf : list Z) : list Z :=
  u_put 4 (32 * i + 12) (wrap 32 (Z.shiftr table 32)) (u_put 4 (32 * i + 8) (wrap 32 table) (u_put 4 (32 * i + 4) 0
    (u_put 2 (32 * i) flags (u_put 2 (32 * i + 2) table_length buf)))).
Lemma put_header_ok s i n flags table : port_ok s -> 0 <= i < 32 ->
  put_header (E:=E) i n flags table s = (Ok (), with_dma s (headed i n flags table (dma_buffer s))).
Proof.
  intros [Hl _ _] Hi. unfold put_header, size_of_CommandHeader. rewrite run_gets. rewrite umul_ok by lia. mstep.
  rewrite slice_ok by lia. mstep. unfold headed. by rewrite (Z.mul_comm 32 i).
Qed.
Lemma headed_ok i n flags table buf : zlen buf = 0x5000 -> 0 <= i < 32 -> 0 <= n < 2 ^ 16 -> 0 <= flags < 2 ^ 16 -> 0 <= table < 2 ^ 64 ->
  let buf' := headed i n flags table buf in
  same_outside [(32 * i, 16)] buf buf' /\ u_at 2 (32 * i) buf' = flags /\ u_at 2 (32 * i + 2) buf' = n /\
  u_at 4 (32 * i + 8) buf' + 2 ^ 32 * u_at 4 (32 * i + 12) buf' = table.
Proof.
  intros Hl Hi Hn Hf Ht. cbn zeta. unfold headed.
  set (b1 := u_put 2 (32 * i + 2) n buf). set (b2 := u_put 2 (32 * i) flags b1). set (b3 := u_put 4 (32 * i + 4) 0 b2).
  set (b4 := u_put 4 (32 * i + 8) (wrap 32 table) b3). set (b5 := u_put 4 (32 * i + 12) (wrap 32 (Z.shiftr table 32)) b4).
  assert (same_outside [(32 * i + 2, 2)] buf b1) as S1 by (apply (u_put_same 2); lia). pose proof (proj1 S1).
  assert (same_outside [(32 * i, 2)] b1 b2) as S2 by (apply (u_put_same 2); lia). pose proof (proj1 S2).
  assert (same_outside [(32 * i + 4, 4)] b2 b3) as S3 by (apply (u_put_same 4); lia). pose proof (proj1 S3).
  assert (same_outside [(32 * i + 8, 4)] b3 b4) as S4 by (apply (u_put_same 4); lia). pose proof (proj1 S4).
  assert (same_outside [(32 * i + 12, 4)] b4 b5) as S5 by (apply (u_put_same 4); lia).
  pose proof (same_outside_trans _ _ _ _ _ S4 S5) as S45. pose proof (same_outside_trans _ _ _ _ _ S3 S45) as S35.
  pose proof (same_outside_trans _ _ _ _ _ S2 S35) as S25. pose proof (same_outside_trans _ _ _ _ _ S1 S25) as S15.
  assert (0 <= Z.shiftr table 32 < 2 ^ 32) as Hhi.
  { rewrite Z.shiftr_div_pow2 by lia. split; [apply Z.div_pos; lia|apply Z.div_lt_upper_bound; lia]. }
  pose proof (wrap_range 32 table ltac:(lia)). split_and!.
  - eapply same_outside_mono; [exact S15|]. intros k Hk. rewrite Forall_singleton in Hk. unfold within in *. cbn [fst snd app] in *.
    repeat constructor; cbn [fst snd]; lia.
  - rewrite (u_at_same _ b2 b5 2) by (exact S35 || lia || (repeat constructor; cbn; lia)). apply u_at_put; cbn; lia.
  - rewrite (u_at_same _ b1 b5 2) by (exact S25 || lia || (repeat constructor; cbn; lia)). apply u_at_put; cbn; lia.
  - rewrite (u_at_same _ b4 b5 4) by (exact S5 || lia || (repeat constructor; cbn; lia)).
    unfold b4 at 1. rewrite u_at_put by (cbn; lia). unfold b5. rewrite u_at_put by (rewrite ?wrap_small by lia; cbn; lia).
    rewrite (wrap_small 32 (Z.shiftr _ _)) by lia. unfold wrap. rewrite Z.shiftr_div_pow2 by lia. pose proof (Z.div_mod table (2 ^ 32)). lia.
Qed.

(** What is fetched from a table [t], with a header that has been written *)
Definition fetched (t n : Z) (w : bool) (buf : list Z) : Request :=
  {| rq_command := u_at 1 (t + 2) buf; rq_lba := u_at 3 (t + 4) buf + 2 ^ 24 * u_at 3 (t + 8) buf; rq_count := u_at 2 (t + 12) buf;
     rq_write := w;
     rq_regions := if n =? 0 then [] else [(u_at 8 (t + 0x80) buf, u_at 4 (t + 0x80 + 12) buf mod 2 ^ 22 + 1)] |}.
Lemma fetch_headed base i n (w : bool) buf : zlen buf = 0x5000 -> 0 <= i < 32 -> 0 <= base -> base + 0x5000 < 2 ^ 52 -> base mod 4096 = 0 ->
  n = 0 \/ n = 1 -> u_at 1 (table_off i) buf = 0x27 -> u_at 1 (table_off i + 1) buf = 0x80 ->
  fetch base (headed i n (if w then 0x45 else 0x05) (base + table_off i) buf) i = Some (fetched (table_off i) n w buf).
Proof.
  intros Hl Hi Hb Hb' Hp Hn Ht Ht1. assert (table_off i = 0x500 + 0x200 * i) as Hto by (unfold table_off, CMD_TABLES_OFFSET, CMD_TABLE_SIZE; lia).
  destruct (headed_ok i n (if w then 0x45 else 0x05) (base + table_off i) buf Hl Hi) as (Hs & Hf & Hc & Ha); [lia|by destruct w|lia|].
  set (buf' := headed _ _ _ _ _) in *. assert (forall m o, table_off i <= o -> u_at m o buf' = u_at m o buf) as Hu.
  { intros m o Ho. apply (u_at_same _ buf buf' m o Hs); [lia|]. apply Forall_singleton. cbn [fst snd]. lia. }
  unfold fetch. rewrite Hf, Hc, Ha. replace (base + table_off i - base) with (table_off i) by lia. rewrite (proj1 Hs), Hl.
  rewrite (Hu 1%nat (table_off i)), (Hu 1%nat (table_off i + 1)), Ht, Ht1 by lia.
  assert ((base + table_off i) mod 128 = 0) as ->.
  { rewrite Hto. pose proof (Z.div_mod base 4096 ltac:(lia)) as Hd. rewrite Hp in Hd.
    replace (base + (1280 + 512 * i)) with ((32 * (base / 4096) + 10 + 4 * i) * 128) by lia. apply Z.mod_mul. lia. }
  btrue (0 <=? table_off i). btrue (table_off i + 128 + 16 * n <=? 20480).
  replace ((if w then 0x45 else 0x05) mod 32 =? 5) with true by (by destruct w). cbn [andb].
  change (Z.testbit 128 7) with true. cbn [andb]. unfold fetched. rewrite (Hu 1%nat), !(Hu 3%nat), (Hu 2%nat) by lia.
  replace (Z.testbit (if w then 69 else 5) 6) with w by (by destruct w). do 2 f_equal.
  destruct Hn as [-> | ->]; [done|]. change (seqZ 0 1) with [0]. change (1 =? 0) with false. cbn [fmap list_fmap]. change (16 * 0) with 0.
  rewrite !Hu by lia. by replace (table_off i + 128 + 0) with (table_off i + 128) by lia.
Qed.

Lemma u_at_1 k (l : list Z) x : l !! Z.to_nat k = Some x -> u_at 1 k l = x.
Proof. intros Hk. unfold u_at. rewrite (drop_S l x _ Hk), firstn_cons, firstn_O. cbn [le_num]. lia. Qed.
Lemma lba_bytes lba cmd dev c : 0 <= lba < 2 ^ 48 ->
  u_at 3 4 (fis_bytes (lba_fis cmd dev lba c)) + 2 ^ 24 * u_at 3 8 (fis_bytes (lba_fis cmd dev lba c)) = lba.
Proof.
  intros Hl. transitivity (le_num (le_bytes 6 lba)); [|apply le_num_bytes; cbn; lia]. set (b k := wrap 8 (Z.shiftr lba k)).
  change (le_num [wrap 8 lba; b 8; b 16] + 2 ^ 24 * le_num [b 24; b 32; b 40] = le_num (le_bytes 6 lba)). subst b. unfold wrap.
  cbn [le_bytes le_num]. rewrite !Z.shiftr_div_pow2, !Z.div_div by lia.
  repeat match goal with |- context [2 ^ ?k] => ev (2 ^ k) end. repeat match goal with |- context [?k * 256] => ev (k * 256) end. lia.
Qed.
Lemma count_bytes lba cmd dev c : 0 <= c < 2 ^ 16 -> u_at 2 12 (fis_bytes (lba_fis cmd dev lba c)) = c.
Proof.
  intros Hc. transitivity (le_num (le_bytes 2 c)); [|apply le_num_bytes; cbn; lia].
  change (le_num [wrap 8 c; wrap 8 (Z.shiftr c 8)] = le_num (le_bytes 2 c)). unfold wrap. by rewrite Z.shiftr_div_pow2 by lia.
Qed.
Lemma prdt_bytes ptr f : 0 <= ptr < 2 ^ 64 -> 0 <= f < 2 ^ 32 ->
  zlen (PrdtEntry ptr f) = 16 /\ u_at 8 0 (PrdtEntry ptr f) = ptr /\ u_at 4 12 (PrdtEntry ptr f) = f.
Proof.
  intros Hp Hf. unfold PrdtEntry. split_and!; [done| |].
  - assert (le_bytes 8 ptr = le_bytes 4 (wrap 32 ptr) ++ le_bytes 4 (wrap 32 (Z.shiftr ptr 32))) as He.
    { rewrite Z.shiftr_div_pow2 by lia. rewrite !(le_bytes_wrap 4). apply (le_bytes_app 4 4). }
    change (le_num (le_bytes 4 (wrap 32 ptr) ++ le_bytes 4 (wrap 32 (Z.shiftr ptr 32))) = ptr). rewrite <- He. apply le_num_bytes. cbn; lia.
  - change (le_num (le_bytes 4 f) = f). apply le_num_bytes. cbn; lia.
Qed.

(** A buffer of [n] sectors, which one region can describe *)
Definition buffer_ok (b : Buffer) (n : Z) : Prop :=
  0 <= hhdm_offset <= inner b /\ inner b < 2 ^ 64 /\ (inner b - hhdm_offset) mod 4 = 0 /\ len b / SECTOR_SIZE = n /\ 0 < n <= 8192.
Lemma with_dma_ok s b : port_ok s -> zlen b = 0x5000 -> port_ok (with_dma s b).
Proof. intros [_ ? ?] Hb. by split. Qed.
Lemma table_phys_ok s i : port_ok s -> 0 <= i < 32 ->
  table_phys phys_addr (E:=E) i s = (Ok (dma_20kb_buffer_paddr s + table_off i), s).
Proof.
  intros [_ Ha _] Hi. unfold table_phys. rewrite run_gets, nth_offset_ok by lia. mstep. unfold table_off, CMD_TABLES_OFFSET, CMD_TABLE_SIZE.
  rewrite uadd_ok by lia. mstep. rewrite phys_addr_ok by lia. done.
Qed.
(** The slot's own ranges of the buffer *)
Definition slot_ranges (i : Z) : list (Z * Z) := [(table_off i, 20); (table_off i + 0x80, 16); (32 * i, 16)].

Lemma put_transfer_ok s i cmd dev w lba b n : port_ok s -> 0 <= i < 32 -> 0 <= lba < 2 ^ 48 -> buffer_ok b n ->
  exists buf, put_transfer phys_addr hhdm_offset (E:=E) i cmd dev w lba b s = (Ok (), with_dma s buf) /\
    same_outside (slot_ranges i) (dma_buffer s) buf /\
    fetch (dma_20kb_buffer_paddr s) buf i = Some {| rq_command := ata_command cmd; rq_lba := lba; rq_count := n; rq_write := w;
      rq_regions := [(inner b - hhdm_offset, n * SECTOR_SIZE)] |}.
Proof.
  intros Hok Hi Hlba (Hh & Hin & Hal & Hn & Hn'). pose proof Hok as [Hl Ha Hp].
  set (t := table_off i). assert (t = 0x500 + 0x200 * i) as Ht by (unfold t, table_off, CMD_TABLES_OFFSET, CMD_TABLE_SIZE; lia).
  set (ptr := inner b - hhdm_offset). set (fis := lba_fis cmd dev lba n). set (e := PrdtEntry ptr (n * 512 - 1)).
  destruct (prdt_bytes ptr (n * 512 - 1)) as (He & He0 & He1); [lia..|]. fold e in He, He0, He1.
  set (b1 := put_at t (fis_bytes fis) (dma_buffer s)). set (b2 := put_at (t + 0x80) e b1).
  assert (same_outside [(t, 20)] (dma_buffer s) b1) as S1 by (apply (put_at_same t (fis_bytes fis)); [lia|change (zlen (fis_bytes fis)) with 20; lia]).
  pose proof (proj1 S1) as L1.
  assert (same_outside [(t + 0x80, 16)] b1 b2) as S2.
  { rewrite <- He. apply put_at_same; [lia|]. rewrite He. lia. }
  pose proof (proj1 S2) as L2. set (b3 := headed i 1 (if w then 0x45 else 0x05) (dma_20kb_buffer_paddr s + t) b2).
  assert (forall m o, t <= o -> o + Z.of_nat m <= t + 20 -> u_at m o b2 = u_at m (o - t) (fis_bytes fis)) as Hfis.
  { intros m o Ho Hm. rewrite (u_at_same _ b1 b2 m o S2); [|lia|apply Forall_singleton; cbn [fst snd]; lia].
    apply u_at_put_at; change (zlen (fis_bytes fis)) with 20; lia. }
  exists b3. split_and!.
  - unfold put_transfer. rewrite Hn, (wrap_small 16 n) by lia. rewrite run_gets. bfalse (lba <? 0). rewrite (wrap_small 64 lba) by lia. mstep.
    mrun (table_phys_ok s i Hok Hi). rewrite usub_ok by lia. mstep. unfold rassert. rewrite Hal. cbn [Z.eqb]. mstep. fold ptr.
    mrun (put_fis_ok s i fis Hok Hi). change (wrap 32 SECTOR_SIZE) with 512. rewrite umul_ok by lia. mstep. rewrite usub_ok by lia. mstep.
    rewrite prdt_flags_eq by lia. mrun (put_prdt_ok (with_dma s b1) i e (with_dma_ok s b1 Hok ltac:(lia)) Hi He).
    rewrite header_flags_eq. apply (put_header_ok (with_dma s b2)); [|done]. apply with_dma_ok; [done|lia].
  - destruct (headed_ok i 1 (if w then 0x45 else 0x05) (dma_20kb_buffer_paddr s + t) b2) as (S3 & _); [lia..|by destruct w|lia|].
    exact (same_outside_trans _ _ _ _ _ S1 (same_outside_trans _ _ _ _ _ S2 S3)).
  - unfold b3. rewrite fetch_headed; [|lia..| |].
    + unfold fetched. fold t. rewrite !Hfis by lia. replace (t + 2 - t) with 2 by lia. replace (t + 4 - t) with 4 by lia.
      replace (t + 8 - t) with 8 by lia. replace (t + 12 - t) with 12 by lia.
      rewrite (u_at_1 2 (fis_bytes fis) (ata_command cmd)) by done. unfold fis. rewrite lba_bytes, count_bytes by lia.
      change (1 =? 0) with false. cbn [fst snd]. unfold b2. rewrite !u_at_put_at by lia.
      replace (t + 128 - (t + 128)) with 0 by lia. replace (t + 128 + 12 - (t + 128)) with 12 by lia. rewrite He0, He1.
      rewrite Z.mod_small by lia. unfold SECTOR_SIZE. do 3 f_equal. f_equal. lia.
    + fold t. rewrite Hfis by lia. replace (t - t) with 0 by lia. by apply (u_at_1 0).
    + fold t. rewrite Hfis by lia. replace (t + 1 - t) with 1 by lia. rewrite <- command_flags_eq. by apply (u_at_1 1).
Qed.
Lemma put_flush_ok s i : port_ok s -> 0 <= i < 32 ->
  exists buf, (_ ← put_fis (E:=E) i (simple_fis FlushCache DEVICE_LBA_MODE); put_header i 0 5 (dma_20kb_buffer_paddr s + table_off i)) s =
      (Ok (), with_dma s buf) /\
    same_outside (slot_ranges i) (dma_buffer s) buf /\
    fetch (dma_20kb_buffer_paddr s) buf i = Some {| rq_command := ata_command FlushCache; rq_lba := 0; rq_count := 0; rq_write := false;
      rq_regions := [] |}.
Proof.
  intros Hok Hi. pose proof Hok as [Hl Ha Hp]. set (t := table_off i).
  assert (t = 0x500 + 0x200 * i) as Ht by (unfold t, table_off, CMD_TABLES_OFFSET, CMD_TABLE_SIZE; lia).
  set (fis := simple_fis FlushCache DEVICE_LBA_MODE). set (b1 := put_at t (fis_bytes fis) (dma_buffer s)).
  assert (same_outside [(t, 20)] (dma_buffer s) b1) as S1 by (apply (put_at_same t (fis_bytes fis)); [lia|change (zlen (fis_bytes fis)) with 20; lia]).
  pose proof (proj1 S1) as L1. exists (headed i 0 5 (dma_20kb_buffer_paddr s + t) b1).
  assert (forall m o, t <= o -> o + Z.of_nat m <= t + 20 -> u_at m o b1 = u_at m (o - t) (fis_bytes fis)) as Hfis.
  { intros m o Ho Hm. apply u_at_put_at; change (zlen (fis_bytes fis)) with 20; lia. }
  split_and!.
  - mrun (put_fis_ok s i fis Hok Hi). apply (put_header_ok (with_dma s b1)); [|done]. apply with_dma_ok; [done|lia].
  - destruct (headed_ok i 0 5 (dma_20kb_buffer_paddr s + t) b1) as (S3 & _); [lia..|].
    eapply same_outside_mono; [exact (same_outside_trans _ _ _ _ _ S1 S3)|]. intros k Hk. unfold slot_ranges in Hk. fold t in Hk.
    apply Forall_cons in Hk as [H1' Hk]. apply Forall_cons in Hk as [_ Hk]. cbn [app]. by constructor.
  - rewrite (fetch_headed _ i 0 false); [|lia..| |].
    + unfold fetched. fold t. rewrite !Hfis by lia. replace (t + 2 - t) with 2 by lia. replace (t + 4 - t) with 4 by lia.
      replace (t + 8 - t) with 8 by lia. replace (t + 12 - t) with 12 by lia. done.
    + fold t. rewrite Hfis by lia. replace (t - t) with 0 by lia. by apply (u_at_1 0).
    + fold t. rewrite Hfis by lia. replace (t + 1 - t) with 1 by lia. rewrite <- command_flags_eq. by apply (u_at_1 1).
Qed.

(** *** Accesses to registers *)
Definition poked (off v : Z) (s : AhciSata W) : AhciSata W :=
  with_timers s (with_machine (timers s) (mmio_write off v (machine (timers s)))).
Lemma write_port_run r v s : write_port (E:=E) r v s = (Ok (), poked (port_reg s r) v s).
Proof. done. Qed.
Lemma issue_run i s : 0 <= i < 32 -> issue (E:=E) i s = (Ok (), poked (port_reg s command_issue) (2 ^ i) s).
Proof.
  intros Hi. assert (2 ^ i < 2 ^ 32) by (apply Z.pow_lt_mono_r; lia). assert (0 < 2 ^ i) by (apply Z.pow_pos_nonneg; lia).
  unfold issue, ushl, fits. btrue ((0 <=? i) && (i <? 2 ^ 32) && (i <? 32)). mstep.
  rewrite Z.shiftl_1_l, wrap_small by lia. done.
Qed.
End encoding.

(** ** Timeouts

    A counter that advances with every reading, by at most [step_max], and
    does not go back when registers are accessed *)
Class Ticking (W : Type) `{Machine W, Controller W} := {
  ticks : W -> Z;
  step_max : Z;
  rdtsc_ticks w : (rdtsc w).1 = ticks w;
  ticks_pos w : 0 <= ticks w;
  after_rdtsc w : ticks w < ticks (rdtsc w).2 <= ticks w + step_max;
  after_mmio_read r w : ticks w <= ticks (mmio_read r w).2 <= ticks w + step_max;
  after_mmio_write r v w : ticks w <= ticks (mmio_write r v w) <= ticks w + step_max;
}.
Section timeouts.
Context `{Build} {W : Type} `{Ticking W, Bitfield} {E : Type}.
Implicit Types (s : AhciSata W).
Abbreviation clk s := (ticks (machine (timers s))).
(** The counter has room for [n] more steps, and [ticks_per_ms] is sensible. *)
Record clock_ok (s : AhciSata W) (n : Z) : Prop := {
  c_room : clk s + n * step_max < 2 ^ 63;
  c_low : 0 <= clk s + tsc_offset (timers s);
  c_high : clk s + tsc_offset (timers s) + n * step_max < 2 ^ 63;
  c_rate : 0 < TSC_TIMER_TICKS_PER_MS (timers s) <= 1_000_000_000;
}.
Lemma step_max_pos : 0 < step_max (W:=W) \/ forall w : W, False.
Proof. destruct (decide (0 < step_max (W:=W))) as [|Hn]; [by left|]. right. intros w. pose proof (after_rdtsc w). lia. Qed.
(** A step of the machine that takes the state from [s] to [s'] *)
Definition ticked (s s' : AhciSata W) : Prop :=
  clk s <= clk s' <= clk s + step_max (W:=W) /\ tsc_offset (timers s') = tsc_offset (timers s) /\
  TSC_TIMER_TICKS_PER_MS (timers s') = TSC_TIMER_TICKS_PER_MS (timers s).
Lemma clock_ok_step s s' n : clock_ok s (n + 1) -> ticked s s' -> clock_ok s' n.
Proof. intros [Hr Hl Hh Ht] (Hc & Ho & Hp). split; rewrite ?Ho, ?Hp; lia. Qed.
Lemma read_port_ticked r s : exists v s', read_port (E:=E) r s = (Ok v, s') /\ ticked s s'.
Proof.
  unfold read_port, clock, reading, mbind, M_bind, get. pose proof (after_mmio_read (port_reg s r) (machine (timers s))).
  destruct (mmio_read _ _) as [v w]. by eexists v, _.
Qed.
Lemma write_port_ticked r v s : exists s', write_port (E:=E) r v s = (Ok (), s') /\ ticked s s'.
Proof. eexists. split; [reflexivity|]. split; [apply after_mmio_write|done]. Qed.
Lemma now_ticked s n : clock_ok s n -> 0 <= n ->
  exists s', clock (E:=E) now s = (Ok (clk s + tsc_offset (timers s)), s') /\ ticked s s' /\ clk s < clk s'.
Proof.
  intros [Hr Hl Hh Ht] Hn. destruct step_max_pos as [Hp|Hno]; [|by destruct (Hno (machine (timers s)))].
  pose proof (rdtsc_ticks (machine (timers s))) as Hv. pose proof (after_rdtsc (machine (timers s))) as Hs. pose proof (ticks_pos (machine (timers s))).
  unfold clock, now, reading, mbind, M_bind. destruct (rdtsc (machine (timers s))) as [v w]. cbn [fst snd] in *. subst v.
  unfold gets, lift. cbn [with_machine tsc_offset]. rewrite swrap_small by nia. rewrite snum_ok by nia. rewrite wrap_small by nia.
  eexists. split; [reflexivity|]. unfold ticked. cbn. lia.
Qed.
Lemma elapsed_ticked s n start : clock_ok s n -> 0 <= n -> 0 <= start ->
  exists s', clock (E:=E) (elapsed start) s =
      (Ok (Z.max 0 (clk s + tsc_offset (timers s) - start) * (1_000_000_000 / TSC_TIMER_TICKS_PER_MS (timers s))), s') /\
    ticked s s' /\ clk s < clk s'.
Proof.
  intros Hok Hn Hst. destruct (now_ticked s n Hok Hn) as (s' & Hnow & Ht & Hlt). destruct Hok as [Hr Hl Hh Hrt].
  destruct step_max_pos as [Hp|Hno]; [|by destruct (Hno (machine (timers s)))].
  exists s'. split; [|done]. unfold clock in *. destruct (now (timers s)) as [r t] eqn:Hnw. injection Hnow as -> <-.
  unfold elapsed. erewrite M_bind_run by exact Hnw. rewrite run_get. unfold lift. destruct Ht as (_ & _ & Hrate). cbn in Hrate.
  unfold instant_sub, nanos_per_tick. rewrite Hrate, udiv_ok by lia. rsimpl. rewrite umul_ok; [done|].
  assert (0 <= 1_000_000_000 / TSC_TIMER_TICKS_PER_MS (timers s) <= 1_000_000_000) by (split; [apply Z.div_pos|apply Z.div_le_upper_bound]; lia).
  assert (0 <= Z.max 0 (clk s + tsc_offset (timers s) - start) < 2 ^ 63) by nia. nia.
Qed.

(** [2 * r + 1] ticks are more than a second as it is measured. *)
Lemma measured_second r n : 0 < r <= 1_000_000_000 -> 2 * r + 1 <= n -> SECOND < n * (1_000_000_000 / r).
Proof.
  intros Hr Hn. unfold SECOND. pose proof (Z.div_mod 1_000_000_000 r). pose proof (Z.mod_pos_bound 1_000_000_000 r).
  assert (0 < 1_000_000_000 / r) by (apply Z.div_str_pos; lia). nia.
Qed.
Lemma wait_stopped_returns fuel : forall s start, clock_ok s (2 * Z.of_nat fuel) -> 0 <= start ->
  2 * TSC_TIMER_TICKS_PER_MS (timers s) + 2 <= clk s + tsc_offset (timers s) - start + Z.of_nat fuel -> (1 <= fuel)%nat ->
  exists b s', wait_stopped (E:=E) fuel start s = (Ok b, s').
Proof.
  induction fuel as [|fuel IH]; intros s start Hok Hst Hk Hf; [lia|]. cbn [wait_stopped].
  destruct (read_port_ticked command_and_status s) as (c & s1 & H1' & T1). mrun H1'.
  assert (clock_ok s1 (2 * Z.of_nat fuel + 1)) as Hok1.
  { eapply clock_ok_step; [|exact T1]. by replace (2 * Z.of_nat fuel + 1 + 1) with (2 * Z.of_nat (S fuel)) by lia. }
  destruct (elapsed_ticked s1 _ start Hok1 ltac:(lia) Hst) as (s2 & H2' & T2 & Hlt). mrun H2'.
  destruct (Z.ltb_spec SECOND (Z.max 0 (clk s1 + tsc_offset (timers s1) - start) * (1_000_000_000 / TSC_TIMER_TICKS_PER_MS (timers s1))))
    as [|Hle]; [by eexists _, _|]. destruct (_ =? 0); [by eexists _, _|].
  pose proof (clock_ok_step _ _ _ Hok1 T2) as Hok2. destruct T1 as (Hc1 & Ho1 & Hr1), T2 as (Hc2 & Ho2 & Hr2).
  destruct (decide (2 * TSC_TIMER_TICKS_PER_MS (timers s1) + 1 <= clk s1 + tsc_offset (timers s1) - start)) as [Hbig|Hsmall].
  { pose proof (measured_second _ _ (c_rate _ _ Hok1) Hbig). rewrite Z.max_r in Hle by (pose proof (c_rate _ _ Hok1); lia). lia. }
  apply IH; [done|done|lia|lia].
Qed.
End timeouts.

Section reset.
Context `{Build} {W : Type} `{Ticking W, Bitfield}.
(** C25: [reset] ends, whatever the port does.  If the counter advances with
    every reading, then after as many rounds as two milliseconds have ticks,
    and one more, the loop that waits for the port to stop has ended: [reset]
    has succeeded or reports that the port timed out. *)
Theorem reset_terminates fuel s : clock_ok s (2 * Z.of_nat fuel + 4) -> 2 * TSC_TIMER_TICKS_PER_MS (timers s) + 1 <= Z.of_nat fuel ->
  exists r s', reset fuel s = (r, s') /\ (r = Ok () \/ r = Err timed_out).
Proof.
  intros Hok Hf. unfold reset. destruct (read_port_ticked (E:=TimeOut) command_and_status s) as (c0 & s0 & H0' & T0).
  unfold is_idle. rewrite M_assoc. mrun H0'. rewrite run_ret. destruct (_ =? 0); [eexists _, _; split; [done|by left]|].
  replace (2 * Z.of_nat fuel + 4) with (2 * Z.of_nat fuel + 3 + 1) in Hok by lia. pose proof (clock_ok_step _ _ _ Hok T0) as Hok0.
  destruct (read_port_ticked (E:=TimeOut) command_and_status s0) as (c & s1 & H1' & T1).
  unfold reset_cmd. rewrite M_assoc. mrun H1'.
  replace (2 * Z.of_nat fuel + 3) with (2 * Z.of_nat fuel + 2 + 1) in Hok0 by lia. pose proof (clock_ok_step _ _ _ Hok0 T1) as Hok1.
  destruct (write_port_ticked (E:=TimeOut) command_and_status (Z.ldiff c (Z.lor START FIS_RECEIVE_ENABLE)) s1) as (s2 & H2' & T2). mrun H2'.
  replace (2 * Z.of_nat fuel + 2) with (2 * Z.of_nat fuel + 1 + 1) in Hok1 by lia. pose proof (clock_ok_step _ _ _ Hok1 T2) as Hok2.
  destruct (now_ticked (E:=TimeOut) s2 _ Hok2 ltac:(lia)) as (s3 & H3' & T3 & Hlt). mrun H3'. pose proof (clock_ok_step _ _ _ Hok2 T3) as Hok3.
  assert (TSC_TIMER_TICKS_PER_MS (timers s3) = TSC_TIMER_TICKS_PER_MS (timers s)) as Hr.
  { destruct T0 as (_ & _ & R0), T1 as (_ & _ & R1), T2 as (_ & _ & R2), T3 as (_ & _ & R3). congruence. }
  pose proof (c_rate _ _ Hok) as Hrate. pose proof (c_low _ _ Hok2).
  destruct (wait_stopped_returns (E:=TimeOut) fuel s3 (ticks (machine (timers s2)) + tsc_offset (timers s2)) Hok3) as (b & s4 & H4');
    [done|destruct T3 as (_ & O3 & _); rewrite Hr, O3; lia|lia|].
  mrun H4'. destruct b; eexists _, _; (split; [done|]); [by left|by right].
Qed.
End reset.

(** ** A controller that finishes every command at once

    Registers hold what was last written to them; the command issue register
    reads as 0, and the bits that tell that the engines run follow the bits
    that start them. *)
Module SampleAhci.
#[export] Instance fields : Bitfield := {
  bit_of i v := Z.testbit v i;
  with_bit i b v := if b then Z.lor v (Z.shiftl 1 i) else Z.ldiff v (Z.shiftl 1 i);
  bits_of m l v := Z.shiftr v l mod 2 ^ (m + 1 - l);
  with_bits m l x v := Z.lor (Z.ldiff v (Z.shiftl (Z.ones (m + 1 - l)) l)) (Z.shiftl (x mod 2 ^ (m + 1 - l)) l);
}.
#[export] Instance fields_laws : BitfieldLaws.
Proof.
  split; cbn; [done| | |].
  - intros i b v j Hi Hj. destruct b; rewrite ?Z.lor_spec, ?Z.ldiff_spec, shiftl1_testbit by lia; rewrite (Z.eqb_sym i j); destruct (j =? i);
      by rewrite ?orb_true_r, ?orb_false_r, ?andb_false_r, ?andb_true_r.
  - intros m l v j Hl Hj. destruct (Z.leb_spec j (m - l)).
    + rewrite Z.mod_pow2_bits_low, Z.shiftr_spec by lia. cbn. f_equal. lia.
    + by rewrite Z.mod_pow2_bits_high by lia.
  - intros m l x v j Hl Hj. rewrite Z.lor_spec, Z.ldiff_spec, !Z.shiftl_spec by lia. destruct (Z.leb_spec l j); cbn [andb].
    2:{ rewrite !(Z.testbit_neg_r _ (j - l)) by lia. by rewrite andb_true_r, orb_false_r. }
    destruct (Z.leb_spec j m).
    + rewrite Z.ones_spec_low, Z.mod_pow2_bits_low by lia. by rewrite andb_false_r.
    + rewrite Z.ones_spec_high, Z.mod_pow2_bits_high by lia. by rewrite andb_true_r, orb_false_r.
Qed.
Record Chip := { counter : nat; regs : list (Z * Z) }.
Fixpoint reg_value (l : list (Z * Z)) (r : Z) : Z :=
  match l with [] => 0 | (r', v) :: l => if r' =? r then v else reg_value l r end.
Definition follow_bits (v : Z) : Z :=
  Z.lor v (Z.lor (if Z.testbit v 0 then COMMAND_LIST_RUNNING else 0) (if Z.testbit v 4 then FIS_RECEIVE_RUNNING else 0)).
#[export] Instance chip_machine : Machine Chip := {
  rdtsc c := (Z.of_nat (counter c), {| counter := S (counter c); regs := regs c |});
  inb _ c := (0, c);
  outb _ _ c := c;
  apic_read _ c := (0, c);
  apic_write _ _ c := c;
}.
Definition data : list Z := u_put 2 166 0x400 (u_put 8 200 1_000_000 (replicate 512 0)).
#[export] Instance chip_controller : Controller Chip := {
  mmio_read off c :=
    let r := off mod HBA_PORT_SIZE in
    (if off <? HBA_PORT_PORTS_OFFSET then reg_value (regs c) off
     else if r =? port_offset command_issue then 0
     else if r =? port_offset sata_status then 0x113
     else if r =? port_offset command_and_status then follow_bits (reg_value (regs c) off)
     else reg_value (regs c) off, c);
  mmio_write off v c := {| counter := counter c; regs := (off, v) :: regs c |};
  memory_at _ _ _ := data;
}.
#[export, program] Instance chip_ticking : Ticking Chip := { ticks c := Z.of_nat (counter c); step_max := 1 }.
Solve Obligations with (intros; cbn; lia).
Definition phys_addr (a : Z) : option Z := if (0 <=? a) && (a <? 2 ^ 52) then Some a else None.
Lemma phys_addr_ok a : 0 <= a < 2 ^ 52 -> phys_addr a = Some a.
Proof. intros Ha. unfold phys_addr. by btrue ((0 <=? a) && (a <? 2 ^ 52)). Qed.
Definition hhdm : Z := 0xFFFF800000000000.
Definition port : AhciSata Chip := {|
  timers := {| machine := {| counter := 0; regs := [] |}; TSC_TIMER_TICKS_PER_MS := 1; TIME_AT_BOOT := 0; tsc_offset := 0; apic_timer_ticks_per_ms := 0 |};
  dma_buffer := replicate (Z.to_nat 0x5000) 0; dma_20kb_buffer_paddr := 0x10000; max_cmd_slots := 4; identify_data := data; hba_idx := 0; ports_idx := 0 |}.
Lemma sample_port_ok : port_ok port.
Proof. split; [by vm_compute|cbn; lia|done]. Qed.
(** The whole initialisation, on this controller *)
Lemma sample_init : (init (H:=dev_build) phys_addr hhdm 4 (hhdm + 0x20000) port).1 = Ok ().
Proof. vm_compute. reflexivity. Qed.
End SampleAhci.
Import SampleAhci.

Lemma reset_terminates_witness : exists r s', reset (H:=dev_build) 3 SampleAhci.port = (r, s') /\ (r = Ok () \/ r = Err timed_out).
Proof. apply (reset_terminates (H:=dev_build) 3 SampleAhci.port); [split; cbn; lia|cbn; lia]. Defined.
