(* ===== verification/AhciTask.v ===== *)
(** * The AHCI driver: the task of a drive

    src/kernel/src/drivers/ata/sata/task.rs and the operations of
    src/kernel/src/hal/storage.rs: a task per drive takes requests from its
    channel, leaves each in a command slot, and answers it through the cell the
    request carries when an interrupt tells that the slot is done.

    A cell is a number; the cells that have been set are kept in the order in
    which they were.  A turn of the task's loop is an event: a request, or the
    registers an interrupt has sent. *)

From S2P Require Import Prelude Bytes Disk Timer Ahci.

(** [HalStorageOperation] *)
Module Op.
Inductive t :=
| Read (buffer : Buffer) (lba setter : Z)
| Write (buffer : Buffer) (lba setter : Z)
| Flush (setter : Z)
| Identify (setter : Z).
Definition cell (op : t) : Z := match op with Read _ _ c | Write _ _ c | Flush c | Identify c => c end.
End Op.
(** What a cell is set to: [Ok(())], [Err(DriveErr(message))] or a [HalIdentifyData] *)
Inductive Answer := Done | Failed (message : list Z) | Identified (sector_count sectors_per_track : Z).

Inductive AhciErr := ATA (code : Z) | InternalErr.
(** [to_string]: the format of the first case names the literal 0 *)
Definition AhciErr_to_string (e : AhciErr) : list Z :=
  match e with ATA _ => str "0" | InternalErr => str "Internal drive error" end.

Record AhciTaskState := { operations : list (option Op.t); remaining_operations : Z }.
Record AhciSataInterruptData := {
  d_command_issue : Z; d_cmd_and_status : Z; d_interrupt_status : Z; d_task_file_data : Z; d_sata_error : Z;
}.
(** The drive, the state of its task and the cells that are set *)
Record Task (W : Type) := { sata : AhciSata W; tstate : AhciTaskState; cells : list (Z * Answer) }.
Arguments Build_Task {W} _ _ _.
Arguments sata {W} _.
Arguments tstate {W} _.
Arguments cells {W} _.

Section task.
Context `{Build} {W : Type} `{Machine W, Controller W, Bitfield} (phys_addr : Z -> option Z) (hhdm_offset : Z).
Abbreviation TM := (M (Task W) never).
Definition drive {A} (m : M (AhciSata W) never A) : TM A :=
  fun s => let '(r, a) := m (sata s) in (r, Build_Task a (tstate s) (cells s)).
Definition set_cell (c : Z) (a : Answer) : TM () := modify (fun s => Build_Task (sata s) (tstate s) (cells s ++ [(c, a)])).
Definition put_state (st : AhciTaskState) : TM () := modify (fun s => Build_Task (sata s) st (cells s)).

Definition answer_of (err : option AhciErr) : Answer :=
  match err with Some e => Failed (AhciErr_to_string e) | None => Done end.
Definition finish_operation (op : Op.t) (err : option AhciErr) : TM () :=
  _ ← match op with
      | Op.Read _ _ c | Op.Write _ _ c | Op.Flush c => set_cell c (answer_of err)
      | Op.Identify _ => mret ()
      end;
  st ← gets tstate;
  n ← lift (uadd 64 (remaining_operations st) 1);
  put_state {| operations := operations st; remaining_operations := n |}.
(** [state.operations[i].take()] *)
Definition take_operation (i : Z) : TM (option Op.t) :=
  st ← gets tstate;
  o ← lift (index (operations st) i);
  ops ← lift (update (operations st) i None);
  _ ← put_state {| operations := ops; remaining_operations := remaining_operations st |};
  mret o.
Definition finish_slot (err : option AhciErr) (i : Z) : TM () :=
  o ← take_operation i;
  match o with Some op => finish_operation op err | None => mret () end.
Definition fail_all : TM () := for_each (seqZ 0 32) () (fun i _ => finish_slot (Some InternalErr) i).
(** The slots that the controller no longer has in [cmd_issue] *)
Definition complete (cmd_issue : Z) : TM () :=
  for_each (seqZ 0 32) () (fun i _ => if Z.land cmd_issue (Z.shiftl 1 i) =? 0 then finish_slot None i else mret ()).
Definition has (f : InterruptField) (status : Z) : bool := bit_of (PortInterrupt f) status.

Definition handle_interrupt (rounds fuel : nat) (data : AhciSataInterruptData) : TM () :=
  cmd_issue ← drive (read_port command_issue);
  let status := d_interrupt_status data in
  if has interface_fatal_error status || has host_bus_fatal_error status then
    _ ← fail_all; drive (failure_reset rounds fuel)
  else
  _ ← (if has interface_non_fatal_error status then _ ← fail_all; drive com_reset else mret ());
  _ ← (if has host_bus_data_error status then _ ← fail_all; drive com_reset else mret ());
  if has task_file_error status then
    _ ← drive (spin_until fuel (b ← cmd_bit cmd_list_running; mret (negb b)));
    _ ← drive (write_port sata_error 0xFFFFFFFF);
    _ ← drive (write_port interrupt_status 0xFFFFFFFF);
    let slot := cur_cmd_slot (d_cmd_and_status data) in
    _ ← finish_slot (Some (ATA (wrap 8 (error_code (d_task_file_data data))))) slot;
    v ← drive (read_port command_and_status);
    _ ← drive (write_port command_and_status (with_bit (PortCmdAndStatus start) true v));
    _ ← drive (spin_until fuel (cmd_bit cmd_list_running));
    bit ← lift (ushl 32 1 slot);
    drive (write_port command_issue (Z.ldiff (d_command_issue data) bit))
  else complete cmd_issue.

Definition launch_operation (i : Z) (op : Op.t) : TM () :=
  _ ← match op with
      | Op.Read buffer lba _ => drive (start_read_sectors phys_addr hhdm_offset i lba buffer)
      | Op.Write buffer lba _ => drive (start_write_sectors phys_addr hhdm_offset i lba buffer)
      | Op.Flush _ => drive (issue_flush i)
      | Op.Identify _ => mret ()
      end;
  st ← gets tstate;
  ops ← lift (update (operations st) i (Some op));
  put_state {| operations := ops; remaining_operations := remaining_operations st |}.
(** The loop over the slots, which ends at the first free one *)
Fixpoint launch_in_free (slots : list Z) (op : Op.t) : TM () :=
  match slots with
  | [] => mret ()
  | i :: slots =>
      st ← gets tstate;
      o ← lift (index (operations st) i);
      match o with None => launch_operation i op | Some _ => launch_in_free slots op end
  end.
Definition start_operation (op : Op.t) : TM () :=
  match op with
  | Op.Identify c =>
      d ← gets (fun s => identify_data (sata s));
      set_cell c (Identified (lba48_sectors d) (sectors_per_track d))
  | _ =>
      st ← gets tstate;
      n ← lift (usub 64 (remaining_operations st) 1);
      _ ← put_state {| operations := operations st; remaining_operations := n |};
      m ← gets (fun s => max_cmd_slots (sata s));
      launch_in_free (seqZ 0 (m + 1)) op
  end.

(** [run_task]: its state at the start, and a turn of its loop.  The count
    that the loop tests is the one of the start; were it 0, requests would
    stay in the channel. *)
Inductive Event := Requested (op : Op.t) | Interrupted (data : AhciSataInterruptData).
Definition task_start (s : AhciSata W) : res never (Task W) :=
  n ← uadd 64 (max_cmd_slots s) 1;
  Ok (Build_Task s {| operations := replicate 32 None; remaining_operations := n |} []).
Definition task_turn (rounds fuel : nat) (remaining : Z) (e : Event) : TM () :=
  match e with
  | Requested op => if 0 <? remaining then start_operation op else mret ()
  | Interrupted data => handle_interrupt rounds fuel data
  end.
Fixpoint run_task (rounds fuel : nat) (remaining : Z) (es : list Event) : TM () :=
  match es with
  | [] => mret ()
  | e :: es => _ ← task_turn rounds fuel remaining e; run_task rounds fuel remaining es
  end.
End task.

(** ** The interrupt handler

    It runs between the turns of the tasks.  [AHCI_SENDERS_MAP] of one adapter:
    for each port whose task runs, the messages sent to it.  [hba_base] is
    whether [AHCI_PORTS_MAP] has the adapter. *)
Record Adapter (W : Type) := { hba_machine : W; hba_base : bool; senders : list (option (list AhciSataInterruptData)) }.
Arguments Build_Adapter {W} _ _ _.
Arguments hba_machine {W} _.
Arguments hba_base {W} _.
Arguments senders {W} _.
Section handler.
Context `{Build} {W : Type} `{Machine W, Controller W, Bitfield}.
Abbreviation HM := (M (Adapter W) never).
Definition hba_read (off : Z) : HM Z :=
  fun s => let '(v, w) := mmio_read off (hba_machine s) in (Ok v, Build_Adapter w (hba_base s) (senders s)).
Definition hba_write (off v : Z) : HM () :=
  fun s => (Ok (), Build_Adapter (mmio_write off v (hba_machine s)) (hba_base s) (senders s)).
Definition send (port_idx : Z) (info : AhciSataInterruptData) : HM () :=
  s ← get;
  o ← lift (index (senders s) port_idx);
  match o with
  | Some q => l ← lift (update (senders s) port_idx (Some (q ++ [info]))); put (Build_Adapter (hba_machine s) (hba_base s) l)
  | None => mret ()
  end.
Definition port_interrupt_handler (port_idx : Z) : HM () :=
  let reg r := HBA_PORT_PORTS_OFFSET + HBA_PORT_SIZE * port_idx + port_offset r in
  ist ← hba_read (reg interrupt_status);
  serr ← hba_read (reg sata_error);
  tfd ← hba_read (reg task_file_data);
  ci ← hba_read (reg command_issue);
  cmd ← hba_read (reg command_and_status);
  let info := {| d_command_issue := ci; d_cmd_and_status := cmd; d_interrupt_status := ist; d_task_file_data := tfd; d_sata_error := serr |} in
  _ ← (if bit_of (PortInterrupt task_file_error) ist
       then v ← hba_read (reg command_and_status); hba_write (reg command_and_status) (with_bit (PortCmdAndStatus start) false v)
       else mret ());
  _ ← send port_idx info;
  v ← hba_read (reg interrupt_status);
  _ ← hba_write (reg interrupt_status) v;
  hba_write (reg sata_error) 0xFFFFFFFF.
Definition ahci_interrupt_handler_by_idx : HM () :=
  s ← get;
  if negb (hba_base s) then mret () else
  ist ← hba_read hba_interrupt_status;
  _ ← for_each (seqZ 0 32) () (fun i _ => if negb (Z.land ist (Z.shiftl 1 i) =? 0) then port_interrupt_handler i else mret ());
  v ← hba_read hba_interrupt_status;
  hba_write hba_interrupt_status v.
End handler.

(** ** What operations leave alone *)
Definition leaves {S E A B} (f : S -> B) (m : M S E A) : Prop := forall s, f (m s).2 = f s.
Lemma leaves_run {S E A B} (f : S -> B) (m : M S E A) s r s' : leaves f m -> m s = (r, s') -> f s' = f s.
Proof. intros Hm Hr. rewrite <- (Hm s). by rewrite Hr. Qed.
Lemma run_panic {S E A B} (m : M S E A) (f : A -> M S E B) s s' : m s = (Panic, s') -> (m ≫= f) s = (Panic, s').
Proof. unfold mbind, M_bind. by intros ->. Qed.
Lemma leaves_bind {S E A B C} (f : S -> C) (m : M S E A) (k : A -> M S E B) : leaves f m -> (forall a, leaves f (k a)) -> leaves f (m ≫= k).
Proof.
  intros Hm Hk s. unfold mbind, M_bind. specialize (Hm s). destruct (m s) as [[a|e| |] s']; cbn in *; [|done..]. by rewrite Hk.
Qed.
Lemma leaves_ret {S E A C} (f : S -> C) (a : A) : leaves f (mret a : M S E A).
Proof. done. Qed.
Lemma leaves_lift {S E A C} (f : S -> C) (r : res E A) : leaves f (lift r : M S E A).
Proof. done. Qed.
Lemma leaves_gets {S E A C} (f : S -> C) (g : S -> A) : leaves f (gets g : M S E A).
Proof. done. Qed.
Lemma leaves_get {S E C} (f : S -> C) : leaves f (get : M S E S).
Proof. done. Qed.
Lemma leaves_panic {S E A C} (f : S -> C) : leaves f (panic : M S E A).
Proof. done. Qed.

(** ** Slots and cells *)
Section conservation.
Context `{Build} {W : Type} `{Machine W, Controller W, Bitfield} (phys_addr : Z -> option Z) (hhdm_offset : Z).
Implicit Types (s : Task W).

(** The cells of the requests in slots, and the cells that are set *)
Definition pending (ops : list (option Op.t)) : list Z := omap (fmap Op.cell) ops.
Definition answered (s : Task W) : list Z := (cells s).*1.
Definition no_identify (o : option Op.t) : Prop := match o with Some (Op.Identify _) => False | _ => True end.
#[global] Instance no_identify_dec o : Decision (no_identify o).
Proof. destruct o as [[]|]; cbn; apply _. Defined.
Definition busy (ops : list (option Op.t)) : Z := zlen (pending ops).
Record task_ok (s : Task W) : Prop := {
  t_slots : zlen (operations (tstate s)) = 32;
  t_kinds : Forall no_identify (operations (tstate s));
  t_max : 0 <= max_cmd_slots (sata s) < 2 ^ 63;
  t_high : forall i o, max_cmd_slots (sata s) < Z.of_nat i -> operations (tstate s) !! i = Some o -> o = None;
  t_left : 0 <= remaining_operations (tstate s);
  t_count : remaining_operations (tstate s) + busy (operations (tstate s)) = max_cmd_slots (sata s) + 1;
}.

Lemma pending_split (ops : list (option Op.t)) k o : ops !! k = Some o ->
  exists l r, ops = l ++ o :: r /\ length l = k /\ forall o', <[k := o']> ops = l ++ o' :: r.
Proof.
  intros Hk. exists (take k ops), (drop (S k) ops). pose proof (lookup_lt_Some _ _ _ Hk).
  split_and!; [by rewrite take_drop_middle|rewrite length_take; lia|]. intros o'. by apply insert_take_drop.
Qed.
Lemma pending_take ops k op : ops !! k = Some (Some op) -> Op.cell op :: pending (<[k := None]> ops) ≡ₚ pending ops.
Proof.
  intros Hk. destruct (pending_split ops k _ Hk) as (l & r & -> & _ & Hi). rewrite Hi. unfold pending. rewrite !omap_app. cbn.
  apply Permutation_middle.
Qed.
Lemma pending_put ops k op : ops !! k = Some None -> pending (<[k := Some op]> ops) ≡ₚ Op.cell op :: pending ops.
Proof.
  intros Hk. destruct (pending_split ops k _ Hk) as (l & r & -> & _ & Hi). rewrite Hi. unfold pending. rewrite !omap_app. cbn.
  symmetry. apply Permutation_middle.
Qed.

(** The number of slots stays; nearly every operation is a sequence of
    accesses to registers and to the buffer. *)
Section kept.
Context {E : Type}.
Abbreviation kept m := (leaves (E:=E) (@max_cmd_slots W) m).
Lemma kept_clock {A} (m : M (Timers W) E A) : kept (clock m).
Proof. intros s. unfold clock. by destruct (m (timers s)). Qed.
Lemma kept_dma b : kept (modify (fun p : AhciSata W => with_dma p b)).
Proof. done. Qed.
Ltac kept := repeat first
  [ apply leaves_bind; [|intros] | apply leaves_ret | apply leaves_lift | apply leaves_gets | apply leaves_get | apply leaves_panic
  | apply kept_clock | apply kept_dma | assumption | match goal with |- leaves _ (if ?b then _ else _) => destruct b end ].
Lemma kept_read r : kept (read_port r).
Proof. unfold read_port. kept. Qed.
Lemma kept_write r v : kept (write_port r v).
Proof. unfold write_port. kept. Qed.
Ltac kept' := repeat first [ apply kept_read | apply kept_write | progress kept ].
Lemma kept_wait_stopped fuel time : kept (wait_stopped fuel time).
Proof. induction fuel; cbn [wait_stopped]; kept'. Qed.
Lemma kept_wait_for fuel ready late start : kept ready -> kept (wait_for fuel ready late start).
Proof. intros Hr. induction fuel; cbn [wait_for]; kept'. Qed.
Lemma kept_spin fuel ready : kept ready -> kept (spin_until fuel ready).
Proof. intros Hr. induction fuel; cbn [spin_until]; kept'. Qed.
Lemma kept_cmd_bit f : kept (cmd_bit f).
Proof. unfold cmd_bit. kept'. Qed.
Lemma kept_failure_reset rounds fuel : kept (failure_reset rounds fuel).
Proof.
  induction rounds; cbn [failure_reset]; unfold disable_interrupts, reset_cmd, set_det, set_bases, enable_interrupts;
    repeat first [ apply kept_wait_stopped | apply kept_spin | apply kept_wait_for | progress kept' ].
Qed.
Lemma kept_transfer i cmd dev w lba b : kept (put_transfer phys_addr hhdm_offset i cmd dev w lba b).
Proof. unfold put_transfer, table_phys, put_fis, put_prdt, put_header. kept'. Qed.
Lemma kept_start_read i lba b : kept (start_read_sectors phys_addr hhdm_offset i lba b).
Proof. unfold start_read_sectors, write_hba_interrupt_status, issue. repeat first [ apply kept_transfer | progress kept' ]. Qed.
Lemma kept_start_write i lba b : kept (start_write_sectors phys_addr hhdm_offset i lba b).
Proof. unfold start_write_sectors, issue. repeat first [ apply kept_transfer | progress kept' ]. Qed.
Lemma kept_flush i : kept (issue_flush i).
Proof. unfold issue_flush, put_fis, put_header, issue. kept'. Qed.
End kept.

(** *** Requests are neither lost nor answered twice *)
Definition conserves {A} (m : M (Task W) never A) : Prop := forall s a s', m s = (Ok a, s') -> task_ok s ->
  task_ok s' /\ max_cmd_slots (sata s') = max_cmd_slots (sata s) /\
  pending (operations (tstate s')) ++ answered s' ≡ₚ pending (operations (tstate s)) ++ answered s.
Lemma conserves_bind {A B} (m : M (Task W) never A) (k : A -> M (Task W) never B) :
  conserves m -> (forall a, conserves (k a)) -> conserves (m ≫= k).
Proof.
  intros Hm Hk s b s'' Hr Hok. apply M_bind_ok in Hr as (a & s' & Hm' & Hk'). destruct (Hm _ _ _ Hm' Hok) as (Hok' & Hx & Hp).
  destruct (Hk _ _ _ _ Hk' Hok') as (Hok'' & Hx' & Hp'). split_and!; [done|by rewrite Hx'|by rewrite Hp'].
Qed.
Lemma conserves_ret {A} (a : A) : conserves (mret a).
Proof. intros s b s' [= <- <-] Hok. done. Qed.
Lemma conserves_lift {A} (r : res never A) : conserves (lift r).
Proof. intros s a s' Hr Hok. unfold lift in Hr. injection Hr as _ <-. done. Qed.
Lemma conserves_drive {A} (m : M (AhciSata W) never A) : leaves max_cmd_slots m -> conserves (drive m).
Proof.
  intros Hm s a s' Hr [? ? ? ? ? ?]. specialize (Hm (sata s)). unfold drive in Hr. destruct (m (sata s)) as [r a'].
  injection Hr as _ <-. cbn in *. split_and!; [|done|done]. split; cbn; by rewrite ?Hm.
Qed.
Lemma conserves_for {A} (l : list A) (f : A -> M (Task W) never ()) : (forall x, conserves (f x)) -> conserves (for_each l () (fun x _ => f x)).
Proof.
  intros Hf. induction l as [|x l IH]; cbn [for_each]; [apply conserves_ret|]. apply conserves_bind; [apply Hf|]. intros []. apply IH.
Qed.
Lemma take_operation_inv i s o s' : take_operation i s = (Ok o, s') ->
  operations (tstate s) !! Z.to_nat i = Some o /\
  s' = Build_Task (sata s) {| operations := <[Z.to_nat i := None]> (operations (tstate s));
                              remaining_operations := remaining_operations (tstate s) |} (cells s).
Proof.
  unfold take_operation. rewrite run_gets. intros Hr. apply M_bind_ok in Hr as (o' & s1 & Ho & Hr). injection Ho as Ho <-.
  apply index_inv in Ho as [Hi Ho]. rewrite update_ok in Hr by done. rewrite run_lift in Hr. injection Hr as <- <-. done.
Qed.
Lemma finish_operation_run op err s : no_identify (Some op) -> 0 <= remaining_operations (tstate s) < 2 ^ 64 - 1 ->
  finish_operation op err s = (Ok (), Build_Task (sata s)
    {| operations := operations (tstate s); remaining_operations := remaining_operations (tstate s) + 1 |}
    (cells s ++ [(Op.cell op, answer_of err)])).
Proof.
  intros Hop Hr. unfold finish_operation. destruct op; try done; unfold mbind, M_bind, set_cell, modify, gets, lift; cbn [tstate];
    by rewrite uadd_ok by lia.
Qed.
Lemma conserves_finish_slot err i : conserves (finish_slot err i).
Proof.
  intros s [] s' Hr [Hl Hk Hm Hh Hle Hc]. unfold finish_slot in Hr. apply M_bind_ok in Hr as (o & s1 & Ho & Hr).
  apply take_operation_inv in Ho as [Ho ->]. destruct o as [op|].
  - pose proof (pending_take _ _ _ Ho) as Hp. set (ops := operations (tstate s)) in *. set (ops' := <[Z.to_nat i := None]> ops) in *.
    assert (busy ops = busy ops' + 1) as Hb by (unfold busy, zlen; rewrite <- Hp; cbn [length]; lia).
    assert (no_identify (Some op)) as Hop by (by eapply Forall_lookup_1 in Hk).
    assert (0 <= busy ops') by apply zlen_nonneg. fold ops in Hc.
    rewrite finish_operation_run in Hr by (done || (cbn; lia)). injection Hr as <-. split_and!; [|done|].
    + split; cbn [tstate operations remaining_operations sata];
        [unfold ops'; by rewrite zlen_insert|by apply Forall_insert|done| |lia|lia].
      intros j o' Hj Ho'. apply list_lookup_insert_Some in Ho' as [(_ & <- & _)|[_ Ho']]; [done|]. exact (Hh j o' Hj Ho').
    + unfold answered. cbn. rewrite fmap_app. cbn. rewrite app_assoc, <- Hp. rewrite (Permutation_app_comm _ [Op.cell op]). done.
  - injection Hr as <-. assert (<[Z.to_nat i := None]> (operations (tstate s)) = operations (tstate s)) as He by (by apply list_insert_id).
    split_and!; [|done|unfold answered; cbn; by rewrite He]. split; cbn; rewrite ?He; done.
Qed.
Lemma conserves_fail_all : conserves fail_all.
Proof. apply conserves_for. intros i. apply conserves_finish_slot. Qed.
Lemma conserves_interrupt rounds fuel data : conserves (handle_interrupt rounds fuel data).
Proof.
  assert (forall m : M (AhciSata W) never (), leaves max_cmd_slots m -> conserves (drive m)) as Hd by (intros; by apply conserves_drive).
  unfold handle_interrupt. apply conserves_bind; [apply conserves_drive, kept_read|]. intros ci. cbv zeta.
  destruct (_ || _).
  { apply conserves_bind; [apply conserves_fail_all|]. intros _. apply Hd, kept_failure_reset. }
  assert (forall b : bool, conserves (if b then _ ← fail_all; drive com_reset else mret ())) as Hc.
  { intros []; [|apply conserves_ret]. apply conserves_bind; [apply conserves_fail_all|]. intros _. by apply Hd. }
  apply conserves_bind; [apply Hc|]. intros _. apply conserves_bind; [apply Hc|]. intros _. destruct (has task_file_error _).
  - repeat first [ apply conserves_finish_slot | apply conserves_lift
      | apply conserves_drive; first [ apply kept_write | apply kept_read | apply kept_spin ]
      | apply kept_cmd_bit | apply leaves_bind; [apply kept_cmd_bit|intros; apply leaves_ret] | apply conserves_bind; [|intros] ].
  - apply conserves_for. intros i. destruct (_ =? 0); [apply conserves_finish_slot|apply conserves_ret].
Qed.

(** *** A new request *)
Lemma drive_run {A} (m : M (AhciSata W) never A) s a s' : drive m s = (Ok a, s') ->
  exists d, m (sata s) = (Ok a, d) /\ s' = Build_Task d (tstate s) (cells s).
Proof. unfold drive. destruct (m (sata s)) as [r d]. intros [= -> <-]. by exists d. Qed.
Definition launched (s s' : Task W) (i : nat) (op : Op.t) : Prop :=
  max_cmd_slots (sata s') = max_cmd_slots (sata s) /\ cells s' = cells s /\
  tstate s' = {| operations := <[i := Some op]> (operations (tstate s)); remaining_operations := remaining_operations (tstate s) |}.
Lemma launch_inv i op s a s' : launch_operation phys_addr hhdm_offset i op s = (Ok a, s') -> launched s s' (Z.to_nat i) op.
Proof.
  unfold launch_operation. intros Hr. apply M_bind_ok in Hr as ([] & s1 & H1' & Hr).
  assert (max_cmd_slots (sata s1) = max_cmd_slots (sata s) /\ tstate s1 = tstate s /\ cells s1 = cells s) as (Hm & Ht & Hcs).
  { destruct op; [| | |by injection H1' as <-]; apply drive_run in H1' as (d & Hd & ->); cbn; (split; [|done]).
    - exact (leaves_run _ _ _ _ _ (kept_start_read i lba buffer) Hd).
    - exact (leaves_run _ _ _ _ _ (kept_start_write i lba buffer) Hd).
    - exact (leaves_run _ _ _ _ _ (kept_flush i) Hd). }
  rewrite run_gets in Hr. apply M_bind_ok in Hr as (ops & s2 & Ho & Hr). injection Ho as Ho <-. injection Hr as _ <-.
  unfold update in Ho. destruct (_ && _); [|done]. injection Ho as <-. unfold launched. cbn. by rewrite <- Ht, Hm, Hcs.
Qed.
Lemma launch_in_free_inv slots op s a s' : launch_in_free phys_addr hhdm_offset slots op s = (Ok a, s') ->
  (exists i, i ∈ slots /\ 0 <= i /\ operations (tstate s) !! Z.to_nat i = Some None /\ launched s s' (Z.to_nat i) op) \/
  (s' = s /\ forall i, i ∈ slots -> exists op', operations (tstate s) !! Z.to_nat i = Some (Some op')).
Proof.
  induction slots as [|i slots IH]; cbn [launch_in_free].
  { intros [= _ <-]. right. split; [done|]. intros i Hi. by apply not_elem_of_nil in Hi. }
  rewrite run_gets. intros Hr. apply M_bind_ok in Hr as (o & s1 & Ho & Hr). injection Ho as Ho <-. apply index_inv in Ho as [Hi Ho].
  destruct o as [op'|].
  - destruct (IH Hr) as [(j & Hj & ?)|[-> Hall]]; [left; exists j; split; [by right|done]|]. right. split; [done|].
    intros j Hj. apply elem_of_cons in Hj as [->|Hj]; [by eexists|by apply Hall].
  - left. exists i. split_and!; [by left|lia|done|by eapply launch_inv].
Qed.

Lemma pending_full ops : Forall is_Some ops -> length (pending ops) = length ops.
Proof.
  induction 1 as [|o ops [op ->] _ IH]; [done|].
  change (pending (Some op :: ops)) with (Op.cell op :: pending ops). cbn [length]. by rewrite IH.
Qed.
(** If the count says so, not all of the slots the loop visits are in use: one
    of them is free, or it is not a slot at all. *)
Lemma room_free s : task_ok s -> 1 <= remaining_operations (tstate s) ->
  ~ forall i, i ∈ seqZ 0 (max_cmd_slots (sata s) + 1) -> exists op, operations (tstate s) !! Z.to_nat i = Some (Some op).
Proof.
  intros [Hl _ Hm _ _ Hc] Hr Hall. set (ops := operations (tstate s)) in *. set (m := max_cmd_slots (sata s)) in *.
  unfold zlen in Hl. assert (m < 32).
  { apply Z.nle_gt. intros Hge. destruct (Hall 32) as [op Hop]; [apply elem_of_seqZ; lia|]. apply lookup_lt_Some in Hop. lia. }
  assert (Forall is_Some (take (Z.to_nat (m + 1)) ops)) as Hf.
  { apply Forall_lookup. intros k o Hk. apply lookup_take_Some in Hk as [Hk Hlt].
    destruct (Hall (Z.of_nat k)) as [op Hop]; [apply elem_of_seqZ; lia|]. rewrite Nat2Z.id, Hk in Hop. by injection Hop as ->. }
  apply pending_full in Hf. rewrite length_take in Hf.
  assert (busy ops = zlen (pending (take (Z.to_nat (m + 1)) ops)) + zlen (pending (drop (Z.to_nat (m + 1)) ops))) as Hb.
  { unfold busy. rewrite <- (take_drop (Z.to_nat (m + 1)) ops) at 1. unfold pending. by rewrite omap_app, zlen_app. }
  pose proof (zlen_nonneg (pending (drop (Z.to_nat (m + 1)) ops))). unfold zlen at 1 in Hb. lia.
Qed.
Lemma launched_ok s s' i op : task_ok {| sata := sata s; tstate := {| operations := operations (tstate s);
    remaining_operations := remaining_operations (tstate s) + 1 |}; cells := cells s |} ->
  no_identify (Some op) -> Z.of_nat i <= max_cmd_slots (sata s) -> operations (tstate s) !! i = Some None -> 0 <= remaining_operations (tstate s) ->
  launched s s' i op -> task_ok s' /\ pending (operations (tstate s')) ++ answered s' ≡ₚ Op.cell op :: pending (operations (tstate s)) ++ answered s.
Proof.
  intros [Hl Hk Hm Hh _ Hc] Hop Hi Ho Hr (Hmax & Hcs & Hst). cbn in *. pose proof (pending_put _ _ op Ho) as Hp.
  assert (busy (<[i := Some op]> (operations (tstate s))) = busy (operations (tstate s)) + 1) as Hb by (unfold busy, zlen; rewrite Hp; cbn [length]; lia).
  split; [split; rewrite ?Hst, ?Hmax; cbn [operations remaining_operations]|].
  - by rewrite zlen_insert.
  - by apply Forall_insert.
  - done.
  - intros j o Hj Hjo. apply list_lookup_insert_Some in Hjo as [(-> & _ & _)|[_ Hjo]]; [lia|by eapply Hh].
  - done.
  - lia.
  - rewrite Hst. cbn. unfold answered. by rewrite Hcs, Hp.
Qed.
Lemma start_operation_ok op s a s' : start_operation phys_addr hhdm_offset op s = (Ok a, s') -> task_ok s ->
  (no_identify (Some op) -> 1 <= remaining_operations (tstate s)) ->
  task_ok s' /\ max_cmd_slots (sata s') = max_cmd_slots (sata s) /\
  pending (operations (tstate s')) ++ answered s' ≡ₚ Op.cell op :: pending (operations (tstate s)) ++ answered s.
Proof.
  intros Hr Hok Hroom. destruct (decide (no_identify (Some op))) as [Hop|Hop].
  - specialize (Hroom Hop). assert ((st ← gets tstate; n ← lift (usub 64 (remaining_operations st) 1);
      _ ← put_state {| operations := operations st; remaining_operations := n |};
      m ← gets (fun s => max_cmd_slots (sata s)); launch_in_free phys_addr hhdm_offset (seqZ 0 (m + 1)) op) s = (Ok a, s')) as Hr'
      by (by destruct op).
    clear Hr. rename Hr' into Hr. pose proof (t_max _ Hok). pose proof (t_count _ Hok) as Hc. pose proof (zlen_nonneg (pending (operations (tstate s)))) as Hn.
    fold (busy (operations (tstate s))) in Hn. rewrite run_gets, usub_ok, run_lift in Hr by lia.
    unfold put_state, modify in Hr. unfold mbind, M_bind at 1, gets in Hr. unfold M_bind in Hr. cbn [sata] in Hr.
    destruct (launch_in_free_inv _ _ _ _ _ Hr) as [(i & Hi & H0i & Ho & Hla)|[-> Hall]]; cbn [tstate operations] in *.
    + apply elem_of_seqZ in Hi.
      destruct (launched_ok (Build_Task (sata s) {| operations := operations (tstate s);
        remaining_operations := remaining_operations (tstate s) - 1 |} (cells s)) s' (Z.to_nat i) op) as [Hok' Hp];
        [|exact Hop|cbn; lia|exact Ho|cbn; lia|exact Hla|].
      { cbn. replace (remaining_operations (tstate s) - 1 + 1) with (remaining_operations (tstate s)) by lia. by destruct s as [? [] ?]. }
      split_and!; [done|by destruct Hla as (-> & _)|exact Hp].
    + by destruct (room_free s Hok Hroom Hall).
  - destruct op; try (by destruct Hop). cbn in Hr. injection Hr as _ <-. destruct Hok. split_and!; [by split|done|].
    unfold answered. cbn. rewrite fmap_app. cbn. rewrite app_assoc. rewrite (Permutation_app_comm _ [setter]). done.
Qed.

(** *** Whole runs *)
Definition requests (es : list Event) : list Z := omap (fun e => match e with Requested op => Some (Op.cell op) | _ => None end) es.
(** Every request that needs a slot comes when the count says that one is free. *)
Fixpoint room (rounds fuel : nat) (remaining : Z) (es : list Event) (s : Task W) : Prop :=
  match es with
  | [] => True
  | e :: es =>
      match e with Requested op => no_identify (Some op) -> 1 <= remaining_operations (tstate s) | _ => True end /\
      room rounds fuel remaining es (task_turn phys_addr hhdm_offset rounds fuel remaining e s).2
  end.

Lemma task_start_ok d s : 0 <= max_cmd_slots d <= 32 -> task_start d = Ok s ->
  task_ok s /\ sata s = d /\ pending (operations (tstate s)) ++ answered s = [].
Proof.
  intros Hm Hs. unfold task_start in Hs. rewrite uadd_ok in Hs by lia. injection Hs as <-. split_and!; [|done|done].
  split; cbn [tstate operations remaining_operations sata].
  - done.
  - by apply (Forall_replicate no_identify 32 None).
  - lia.
  - intros i o _ Ho. by apply (lookup_replicate 32 None) in Ho as [-> _].
  - lia.
  - change (busy _) with 0. lia.
Qed.
Lemma run_task_conserves rounds fuel remaining es : 0 < remaining -> forall s s',
  task_ok s -> room rounds fuel remaining es s ->
  run_task phys_addr hhdm_offset rounds fuel remaining es s = (Ok (), s') ->
  task_ok s' /\ pending (operations (tstate s')) ++ answered s' ≡ₚ requests es ++ pending (operations (tstate s)) ++ answered s.
Proof.
  intros Hr. induction es as [|e es IH]; intros s s' Hok Hroom Hrun; cbn [run_task] in Hrun.
  { by injection Hrun as <-. }
  apply M_bind_ok in Hrun as ([] & s1 & H1' & Hrun). destruct Hroom as [He Hroom]. rewrite H1' in Hroom. cbn [snd] in Hroom.
  destruct e as [op|data]; cbn [task_turn] in H1'.
  - rewrite (proj2 (Z.ltb_lt 0 remaining) Hr) in H1'. destruct (start_operation_ok _ _ _ _ H1' Hok He) as (Hok1 & Hm1 & Hp1).
    destruct (IH s1 s' Hok1 Hroom Hrun) as [Hok' Hp]. split; [done|]. rewrite Hp, Hp1. cbn. symmetry. apply Permutation_middle.
  - destruct (conserves_interrupt _ _ _ _ _ _ H1' Hok) as (Hok1 & Hm1 & Hp1).
    destruct (IH s1 s' Hok1 Hroom Hrun) as [Hok' Hp]. split; [done|]. by rewrite Hp, Hp1.
Qed.

(** C12: the task of a drive neither loses a request nor answers one twice.
    For any sequence of requests and interrupts, whatever the controller does
    to its registers, on a controller with any number of slots up to the 32 that
    there can be, if no request comes while the count of free slots is zero and
    the task is not stopped by a panic: the cells still in slots and the cells
    that have been set are together those of the requests, each as often as it
    was sent; and the count is the driver's number of slots, one more than the
    controller has, without those in use. *)
Theorem requests_conserved rounds fuel d s es s' : 0 <= max_cmd_slots d <= 32 -> task_start d = Ok s ->
  room rounds fuel (max_cmd_slots d + 1) es s -> run_task phys_addr hhdm_offset rounds fuel (max_cmd_slots d + 1) es s = (Ok (), s') ->
  pending (operations (tstate s')) ++ answered s' ≡ₚ requests es /\
  remaining_operations (tstate s') = max_cmd_slots (sata s') + 1 - busy (operations (tstate s')).
Proof.
  intros Hd Hs Hroom Hrun. destruct (task_start_ok d s Hd Hs) as (Hok & Hsd & H0'). 
  destruct (run_task_conserves rounds fuel (max_cmd_slots d + 1) es ltac:(lia) s s' Hok Hroom Hrun) as [Hok' Hp].
  rewrite Hp, H0', app_nil_r. split; [done|]. pose proof (t_count _ Hok'). lia.
Qed.
End conservation.

(** ** The command of a slot is the request *)
Section commands.
Context `{Build} {W : Type} `{Machine W, Controller W, BitfieldLaws} (phys_addr : Z -> option Z) (hhdm_offset : Z).
Hypothesis (phys_addr_ok : forall a, 0 <= a < 2 ^ 52 -> phys_addr a = Some a).
Implicit Types (s : Task W).

(** What a request asks of the drive, in the drive's terms *)
Definition request_of (op : Op.t) : Request :=
  let transfer cmd w b lba := {| rq_command := ata_command cmd; rq_lba := lba; rq_count := len b / SECTOR_SIZE; rq_write := w;
    rq_regions := [(inner b - hhdm_offset, len b / SECTOR_SIZE * SECTOR_SIZE)] |} in
  match op with
  | Op.Read b lba _ => transfer ReadDmaExt false b lba
  | Op.Write b lba _ => transfer WriteDmaExt true b lba
  | _ => {| rq_command := ata_command FlushCache; rq_lba := 0; rq_count := 0; rq_write := false; rq_regions := [] |}
  end.
(** Requests the driver supports: aligned buffers of whole sectors, at most 4
    MiB, and addresses of 48 bits *)
Definition supported (op : Op.t) : Prop :=
  match op with
  | Op.Read b lba _ | Op.Write b lba _ => 0 <= lba < 2 ^ 48 /\ buffer_ok hhdm_offset b (len b / SECTOR_SIZE)
  | Op.Flush _ => True
  | Op.Identify _ => False
  end.

Lemma drive_ok {A} (m : M (AhciSata W) never A) s a d : m (sata s) = (Ok a, d) -> drive m s = (Ok a, Build_Task d (tstate s) (cells s)).
Proof. intros Hm. unfold drive. by rewrite Hm. Qed.
(** The state of the port when a command has been put in its slot and issued *)
Definition issued (i : Z) (op : Op.t) (d d' : AhciSata W) : Prop :=
  fetch (dma_20kb_buffer_paddr d) (dma_buffer d') i = Some (request_of op) /\
  same_outside (slot_ranges i) (dma_buffer d) (dma_buffer d') /\
  exists w, machine (timers d') = mmio_write (port_reg d command_issue) (2 ^ i) w.
Lemma issue_op d i op : port_ok d -> 0 <= i < 32 -> supported op -> lba48_supported d = true ->
  exists d', match op with
    | Op.Read b lba _ => start_read_sectors phys_addr hhdm_offset i lba b
    | Op.Write b lba _ => start_write_sectors phys_addr hhdm_offset i lba b
    | Op.Flush _ => issue_flush i
    | Op.Identify _ => mret ()
    end d = (Ok () : res never (), d') /\ issued i op d d'.
Proof.
  intros Hok Hi Hs Hl. destruct op as [b lba c|b lba c|c|c]; [| | |done].
  - destruct Hs as [Hlba Hb]. destruct (put_transfer_ok phys_addr hhdm_offset phys_addr_ok (E:=never) d i ReadDmaExt DEVICE_LBA_MODE false lba b _ Hok Hi Hlba Hb)
      as (buf & Hp & Hsame & Hf).
    eexists. split.
    + unfold start_read_sectors. rewrite run_get, Hl. cbn [negb]. mrun Hp. mrun (write_port_run (E:=never) interrupt_status 0xFFFFFFFF (with_dma d buf)).
      erewrite M_bind_run by apply write_port_run. erewrite M_bind_run by reflexivity. by apply issue_run.
    + split_and!; [exact Hf|exact Hsame|]. by eexists.
  - destruct Hs as [Hlba Hb]. destruct (put_transfer_ok phys_addr hhdm_offset phys_addr_ok (E:=never) d i WriteDmaExt (Z.lor DEVICE_LBA_MODE FORCE_UNIT_FLUSH)
      true lba b _ Hok Hi Hlba Hb) as (buf & Hp & Hsame & Hf).
    eexists. split.
    + unfold start_write_sectors. rewrite run_get, Hl. cbn [negb]. mrun Hp. by apply issue_run.
    + split_and!; [exact Hf|exact Hsame|]. by eexists.
  - destruct (put_flush_ok (E:=never) d i Hok Hi) as (buf & Hp & Hsame & Hf). pose proof (p_addr _ Hok).
    eexists. split.
    + unfold issue_flush. rewrite run_gets, nth_offset_ok by done. mstep.
      rewrite uadd_ok by (unfold table_off, CMD_TABLES_OFFSET, CMD_TABLE_SIZE; lia). mstep. rewrite <- M_assoc. mrun Hp. by apply issue_run.
    + split_and!; [exact Hf|exact Hsame|]. by eexists.
Qed.

Lemma launch_issues s i op : port_ok (sata s) -> zlen (operations (tstate s)) = 32 -> 0 <= i < 32 -> supported op -> lba48_supported (sata s) = true ->
  exists s', launch_operation phys_addr hhdm_offset i op s = (Ok (), s') /\ issued i op (sata s) (sata s') /\
    operations (tstate s') = <[Z.to_nat i := Some op]> (operations (tstate s)).
Proof.
  intros Hok Hl Hi Hs H48. destruct (issue_op (sata s) i op Hok Hi Hs H48) as (d' & Hd & Hiss). eexists. split.
  - unfold launch_operation. destruct op; [..|done]; mrun (drive_ok _ _ _ _ Hd); rewrite run_gets; cbn [tstate];
      rewrite update_ok by lia; mstep; reflexivity.
  - by split.
Qed.

(** C13: the command the controller finds in a slot is the request that was
    launched in it.  After [launch_operation], the header and the table of the
    slot, read the way the AHCI specification lays them out, are the command,
    the sector address, the number of sectors and the memory of the request;
    the last access is the one that sets the slot's bit in the register that
    starts it; and nothing but the slot's own header and table has changed, so
    that commands the controller is working on are not disturbed. *)
Theorem command_is_request s i op : port_ok (sata s) -> zlen (operations (tstate s)) = 32 -> 0 <= i < 32 -> supported op ->
  lba48_supported (sata s) = true ->
  exists s', launch_operation phys_addr hhdm_offset i op s = (Ok (), s') /\
    fetch (dma_20kb_buffer_paddr (sata s)) (dma_buffer (sata s')) i = Some (request_of op) /\
    (exists w, machine (timers (sata s')) = mmio_write (port_reg (sata s) command_issue) (2 ^ i) w) /\
    same_outside (slot_ranges i) (dma_buffer (sata s)) (dma_buffer (sata s')) /\
    operations (tstate s') = <[Z.to_nat i := Some op]> (operations (tstate s)).
Proof.
  intros Hok Hl Hi Hs H48. destruct (launch_issues s i op Hok Hl Hi Hs H48) as (s' & Hr & (Hf & Hsame & Hw) & Ho). by exists s'.
Qed.
End commands.

(** ** Interrupts *)
Section interrupts.
Context `{Build} {W : Type} `{Machine W, Controller W, Bitfield}.
Implicit Types (s : Task W).

(** The requests in those of the slots [ks] that [p] selects *)
Definition selected (p : Z -> bool) (ks : list Z) (ops : list (option Op.t)) : list Op.t :=
  omap (fun i => if p i then mjoin (ops !! Z.to_nat i) else None) ks.
Definition cleared (p : Z -> bool) (ks : list Z) (ops : list (option Op.t)) : list (option Op.t) :=
  foldl (fun ops i => if p i : bool then <[Z.to_nat i := None]> ops else ops) ops ks.
Definition finished (s : Task W) (p : Z -> bool) (ks : list Z) (err : option AhciErr) : Task W :=
  Build_Task (sata s) {| operations := cleared p ks (operations (tstate s));
                         remaining_operations := remaining_operations (tstate s) + zlen (selected p ks (operations (tstate s))) |}
    (cells s ++ ((fun op => (Op.cell op, answer_of err)) <$> selected p ks (operations (tstate s)))).

Lemma selected_cons p i ks ops : selected p (i :: ks) ops = (if p i then option_list (mjoin (ops !! Z.to_nat i)) else []) ++ selected p ks ops.
Proof. unfold selected. cbn [omap list_omap]. destruct (p i); [|done]. by destruct (mjoin _). Qed.
Lemma finish_slot_run s err i : task_ok s -> 0 <= i < 32 -> finish_slot err i s = (Ok (), finished s (fun _ => true) [i] err).
Proof.
  intros [Hl Hk Hm Hh Hle Hc] Hi. unfold finish_slot, take_operation. set (ops := operations (tstate s)) in *.
  destruct (lookup_lt_is_Some_2 ops (Z.to_nat i)) as [o Ho]; [unfold zlen in Hl; lia|].
  pose proof (zlen_nonneg (pending ops)) as Hn. fold (busy ops) in Hn.
  erewrite M_bind_run.
  2:{ rewrite run_gets. fold ops. rewrite (index_ok ops i o) by (done || lia). mstep. rewrite update_ok by lia. mstep. reflexivity. }
  unfold finished, selected, cleared. fold ops. cbn [omap list_omap foldl]. rewrite Ho. cbn [mjoin option_join].
  destruct o as [op|].
  - rewrite finish_operation_run; [done| |cbn; lia]. by eapply Forall_lookup_1 in Hk.
  - cbn [fmap list_fmap]. rewrite app_nil_r. change (zlen []) with 0. by rewrite Z.add_0_r.
Qed.
Lemma cleared_lookup (p : Z -> bool) ks : NoDup ks -> (forall i, i ∈ ks -> 0 <= i) -> forall ops j, 0 <= j -> 
  cleared p ks ops !! Z.to_nat j = if bool_decide (j ∈ ks) && p j then (fun _ => None) <$> ops !! Z.to_nat j else ops !! Z.to_nat j.
Proof.
  induction ks as [|i ks IH]; intros Hnd Hpos ops j Hj; [done|]. apply NoDup_cons in Hnd as [Hni Hnd].
  cbn [cleared foldl]. fold (cleared p ks (if p i then <[Z.to_nat i:=None]> ops else ops)).
  assert (0 <= i) by (apply Hpos; by left).
  rewrite IH by (done || (intros; apply Hpos; by right)). destruct (decide (j = i)) as [->|Hne].
  - rewrite (bool_decide_eq_false_2 (i ∈ ks)), (bool_decide_eq_true_2 (i ∈ i :: ks)) by (done || by left). cbn [andb].
    destruct (p i); [|done]. destruct (ops !! Z.to_nat i) eqn:Ho.
    + by rewrite list_lookup_insert_eq by (by eapply lookup_lt_Some).
    + rewrite list_insert_ge; [by rewrite Ho|]. by apply lookup_ge_None.
  - rewrite (bool_decide_ext (j ∈ i :: ks) (j ∈ ks)) by (rewrite elem_of_cons; tauto).
    destruct (p i); [|done]. by rewrite list_lookup_insert_ne by lia.
Qed.
Lemma sweep_ok (p : Z -> bool) err ks : NoDup ks -> (forall i, i ∈ ks -> 0 <= i < 32) -> forall s, task_ok s ->
  for_each ks () (fun i _ => if p i then finish_slot err i else mret ()) s = (Ok (), finished s p ks err).
Proof.
  induction ks as [|i ks IH]; intros Hnd Hr s Hok.
  { cbn [for_each]. unfold finished, selected, cleared. cbn. rewrite app_nil_r. change (zlen []) with 0. rewrite Z.add_0_r. by destruct s as [? [] ?]. }
  apply NoDup_cons in Hnd as [Hni Hnd]. assert (0 <= i < 32) as Hi by (apply Hr; by left). cbn [for_each].
  assert (forall j, j ∈ ks -> 0 <= j < 32) as Hr' by (intros; apply Hr; by right). destruct (p i) eqn:Hp.
  - pose proof (finish_slot_run s err i Hok Hi) as Hf. mrun Hf.
    destruct (conserves_finish_slot err i _ _ _ Hf Hok) as (Hok' & _). rewrite (IH Hnd Hr' _ Hok'). f_equal.
    assert (selected p ks (<[Z.to_nat i := None]> (operations (tstate s))) = selected p ks (operations (tstate s))) as Hsel.
    { unfold selected. apply list_omap_ext. apply Forall_Forall2_diag, Forall_forall. intros j Hj. destruct (p j); [|done].
      rewrite list_lookup_insert_ne; [done|]. intros He. assert (j = i) by (specialize (Hr' j Hj); lia). by subst. }
    unfold finished. rewrite !selected_cons, Hp. cbn [sata tstate operations remaining_operations cells cleared foldl].
    fold (cleared p ks (<[Z.to_nat i := None]> (operations (tstate s)))). rewrite Hp, Hsel. change (selected _ [] _) with (@nil Op.t).
    rewrite app_nil_r, !fmap_app, zlen_app, app_assoc, Z.add_assoc. done.
  - mstep. rewrite (IH Hnd Hr' s Hok). unfold finished. rewrite selected_cons. cbn [cleared foldl]. by rewrite Hp.
Qed.

Definition slots : list Z := seqZ 0 32.
Lemma slots_ok : NoDup slots /\ forall i, i ∈ slots -> 0 <= i < 32.
Proof. split; [apply NoDup_seqZ|]. intros i Hi. apply elem_of_seqZ in Hi. lia. Qed.
Lemma slots_lookup s p err j : 0 <= j < 32 ->
  operations (tstate (finished s p slots err)) !! Z.to_nat j =
    if p j then (fun _ => None) <$> operations (tstate s) !! Z.to_nat j else operations (tstate s) !! Z.to_nat j.
Proof.
  intros Hj. cbn [finished tstate operations]. rewrite cleared_lookup; [|apply slots_ok|intros i Hi; apply slots_ok in Hi; lia|lia].
  by rewrite bool_decide_eq_true_2 by (apply elem_of_seqZ; lia).
Qed.
Lemma fail_all_ok s : task_ok s -> fail_all s = (Ok (), finished s (fun _ => true) slots (Some InternalErr)).
Proof. intros Hok. apply (sweep_ok (fun _ => true)); [apply slots_ok|apply slots_ok|done]. Qed.
Lemma drive_leaves {A} (m : M (AhciSata W) never A) s : tstate (drive m s).2 = tstate s /\ cells (drive m s).2 = cells s.
Proof. unfold drive. by destruct (m (sata s)). Qed.
Lemma drive_read s r : exists v d, read_port (E:=never) r (sata s) = (Ok v, d) /\ drive (read_port r) s = (Ok v, Build_Task d (tstate s) (cells s)) /\
  max_cmd_slots d = max_cmd_slots (sata s).
Proof.
  unfold drive, read_port, clock, reading, mbind, M_bind, get. destruct (mmio_read _ _) as [v w] eqn:Hv. eexists v, _. done.
Qed.
Lemma task_ok_sata s (d : AhciSata W) : task_ok s -> max_cmd_slots d = max_cmd_slots (sata s) -> task_ok (Build_Task d (tstate s) (cells s)).
Proof. intros [? ? ? ? ? ?] Hd. by split; cbn; rewrite ?Hd. Qed.

Definition fatal (status : Z) : bool := has interface_fatal_error status || has host_bus_fatal_error status.
Definition transfer_error (status : Z) : bool := has interface_non_fatal_error status || has host_bus_data_error status.

Lemma completes rounds fuel data s ci d : task_ok s -> fatal (d_interrupt_status data) = false ->
  transfer_error (d_interrupt_status data) = false -> has task_file_error (d_interrupt_status data) = false ->
  read_port (E:=never) command_issue (sata s) = (Ok ci, d) ->
  exists s', handle_interrupt rounds fuel data s = (Ok (), s') /\ sata s' = d /\
    (forall i, 0 <= i < 32 -> operations (tstate s') !! Z.to_nat i =
       if Z.testbit ci i then operations (tstate s) !! Z.to_nat i else Some None) /\
    cells s' = cells s ++ ((fun op => (Op.cell op, Done)) <$> selected (fun i => negb (Z.testbit ci i)) slots (operations (tstate s))).
Proof.
  intros Hok Hf Ht Htf Hci. destruct (drive_read s command_issue) as (v & d' & Hr & Hdr & Hm). rewrite Hci in Hr. injection Hr as <- <-.
  unfold fatal, transfer_error in *. apply orb_false_iff in Ht as [Ht1 Ht2].
  pose proof (task_ok_sata s d Hok Hm) as Hok'. set (s1 := Build_Task d (tstate s) (cells s)) in *.
  set (p := fun i => Z.land ci (Z.shiftl 1 i) =? 0).
  assert (forall i, 0 <= i -> p i = negb (Z.testbit ci i)) as Hp.
  { intros i Hi. rewrite <- tstbit_spec by lia. unfold tstbit. by rewrite negb_involutive. }
  exists (finished s1 p slots None). split_and!.
  - unfold handle_interrupt. mrun Hdr. cbv zeta. rewrite Hf, Ht1, Ht2, Htf. rewrite !run_ret. apply (sweep_ok p None slots); [apply slots_ok|apply slots_ok|done].
  - done.
  - intros i Hi. rewrite slots_lookup by done. rewrite Hp by lia. cbn [tstate s1]. destruct (Z.testbit ci i); [done|]. cbn [negb].
    destruct (lookup_lt_is_Some_2 (operations (tstate s)) (Z.to_nat i)) as [o Ho]; [pose proof (t_slots _ Hok) as Hl; unfold zlen in Hl; lia|].
    by rewrite Ho.
  - cbn [finished cells s1 tstate answer_of]. f_equal. f_equal. apply list_omap_ext, Forall_Forall2_diag, Forall_forall. intros i Hi.
    rewrite Hp; [done|]. apply slots_ok in Hi. lia.
Qed.

(** C33: an interrupt without an error completes exactly the slots that the
    controller is done with.  The handler returns; the request of a slot whose
    bit in the command issue register is clear is answered with success, in
    the order of the slots, and its slot is freed; the other slots and all
    cells set before stay as they are. *)
Theorem completion_exact rounds fuel data s ci d : task_ok s -> fatal (d_interrupt_status data) = false ->
  transfer_error (d_interrupt_status data) = false -> has task_file_error (d_interrupt_status data) = false ->
  read_port (E:=never) command_issue (sata s) = (Ok ci, d) ->
  exists s', handle_interrupt rounds fuel data s = (Ok (), s') /\ sata s' = d /\
    (forall i, 0 <= i < 32 -> operations (tstate s') !! Z.to_nat i =
       if Z.testbit ci i then operations (tstate s) !! Z.to_nat i else Some None) /\
    cells s' = cells s ++ ((fun op => (Op.cell op, Done)) <$> selected (fun i => negb (Z.testbit ci i)) slots (operations (tstate s))).
Proof. apply completes. Qed.

Definition failed (code : AhciErr) (op : Op.t) : Z * Answer := (Op.cell op, Failed (AhciErr_to_string code)).

(** Error interrupts.  On a fatal error of the interface or the bus every
    request in a slot is answered with an error and every slot is freed,
    whether or not the reset that follows succeeds.  On an error of a transfer
    they are all answered too, and the kernel then stops: the reset for this
    case is not written.  On an error of the drive, if the port restarts, the
    one request the controller was working on is answered with an error, whose
    text does not depend on the drive's error code, and its slot is freed. *)
Theorem interrupt_errors `{!BitfieldLaws} rounds fuel data s : task_ok s ->
  let ops := operations (tstate s) in
  let status := d_interrupt_status data in
  let s' := (handle_interrupt rounds fuel data s).2 in
  let slot := cur_cmd_slot (d_cmd_and_status data) in
  (fatal status = true -> cells s' = cells s ++ (failed InternalErr <$> selected (fun _ => true) slots ops) /\
     forall i, 0 <= i < 32 -> operations (tstate s') !! Z.to_nat i = Some None) /\
  (fatal status = false -> transfer_error status = true -> (handle_interrupt rounds fuel data s).1 = Panic /\
     cells s' = cells s ++ (failed InternalErr <$> selected (fun _ => true) slots ops)) /\
  (fatal status = false -> transfer_error status = false -> has task_file_error status = true ->
     (handle_interrupt rounds fuel data s).1 = Ok () -> 0 <= slot < 32 /\
     cells s' = cells s ++ (failed (ATA 0) <$> selected (fun _ => true) [slot] ops) /\
     operations (tstate s') = <[Z.to_nat slot := None]> ops).
Proof.
  intros Hok ops status s' slot. destruct (drive_read s command_issue) as (ci & d & _ & Hdr & Hm).
  pose proof (task_ok_sata s d Hok Hm) as Hok1. set (s1 := Build_Task d (tstate s) (cells s)) in *.
  pose proof (fail_all_ok s1 Hok1) as Hfail. subst s'. unfold handle_interrupt. mrun Hdr. cbv zeta. fold status. split_and!.
  - intros Hf. unfold fatal in Hf. rewrite Hf. mrun Hfail.
    destruct (drive_leaves (failure_reset rounds fuel) (finished s1 (fun _ => true) slots (Some InternalErr))) as [Ht Hc].
    rewrite Hc, Ht. split; [done|]. intros i Hi. rewrite slots_lookup by done. cbn [tstate s1].
    destruct (lookup_lt_is_Some_2 ops (Z.to_nat i)) as [o Ho]; [pose proof (t_slots _ Hok) as Hl; unfold zlen in Hl; fold ops in Hl; lia|].
    fold ops. by rewrite Ho.
  - intros Hf Ht. unfold fatal, transfer_error in *. rewrite Hf.
    assert ((_ ← fail_all; drive com_reset) s1 = (Panic : res never (), finished s1 (fun _ => true) slots (Some InternalErr))) as Hp by (by mrun Hfail).
    destruct (has interface_non_fatal_error status).
    + by rewrite (run_panic _ _ _ _ Hp).
    + rewrite run_ret. cbn [orb] in Ht. rewrite Ht. by rewrite (run_panic _ _ _ _ Hp).
  - intros Hf Ht Htf. unfold fatal, transfer_error in *. rewrite Hf, Htf. apply orb_false_iff in Ht as [-> ->]. rewrite !run_ret.
    assert (0 <= slot < 32) as Hs.
    { unfold slot, cur_cmd_slot. rewrite bits_of_eq by lia. pose proof (Z.mod_pos_bound (Z.shiftr (d_cmd_and_status data) 8) (2 ^ (12 + 1 - 8))). lia. }
    match goal with |- context [?m s1] => destruct (m s1) as [r s'] eqn:Hrun end. cbn [fst snd]. intros ->.
    apply M_bind_ok in Hrun as (? & ? & D1 & Hrun). apply drive_run in D1 as (d1 & D1 & ->).
    apply M_bind_ok in Hrun as (? & ? & D2 & Hrun). apply drive_run in D2 as (d2 & D2 & ->).
    apply M_bind_ok in Hrun as (? & ? & D3 & Hrun). apply drive_run in D3 as (d3 & D3 & ->). cbn [sata tstate cells] in *.
    assert (max_cmd_slots d3 = max_cmd_slots (sata s1)) as Hm3.
    { rewrite (leaves_run _ _ _ _ _ (kept_write _ _) D3), (leaves_run _ _ _ _ _ (kept_write _ _) D2).
      refine (leaves_run _ _ _ _ _ _ D1). apply kept_spin, leaves_bind; [apply kept_cmd_bit|]. intros. apply leaves_ret. }
    apply M_bind_ok in Hrun as (? & ? & F & Hrun). rewrite finish_slot_run in F by (exact Hs || exact (task_ok_sata s1 d3 Hok1 Hm3)). injection F as _ <-.
    apply M_bind_ok in Hrun as (? & ? & D4 & Hrun). apply drive_run in D4 as (d4 & _ & ->).
    apply M_bind_ok in Hrun as (? & ? & D5 & Hrun). apply drive_run in D5 as (d5 & _ & ->).
    apply M_bind_ok in Hrun as (? & ? & D6 & Hrun). apply drive_run in D6 as (d6 & _ & ->).
    apply M_bind_ok in Hrun as (? & ? & D7 & Hrun). injection D7 as _ <-. apply drive_run in Hrun as (d7 & _ & ->). done.
Qed.
End interrupts.

(** ** Requests that are lost *)
Section lost.
Context {W : Type} `{Machine W, Controller W, Bitfield} (phys_addr : Z -> option Z) (hhdm_offset : Z).
Implicit Types (s : Task W).

Lemma launch_in_free_cases {BB : Build} ks op s : (forall i, i ∈ ks -> 0 <= i < zlen (operations (tstate s))) ->
  (exists i, i ∈ ks /\ operations (tstate s) !! Z.to_nat i = Some None /\
     launch_in_free phys_addr hhdm_offset ks op s = launch_operation phys_addr hhdm_offset i op s) \/
  ((forall i, i ∈ ks -> exists op', operations (tstate s) !! Z.to_nat i = Some (Some op')) /\
     forall ks', launch_in_free phys_addr hhdm_offset (ks ++ ks') op s = launch_in_free phys_addr hhdm_offset ks' op s).
Proof.
  induction ks as [|i ks IH]; intros Hr; [right; split; [intros i Hi; by apply not_elem_of_nil in Hi|done]|].
  assert (0 <= i < zlen (operations (tstate s))) as Hi by (apply Hr; by left).
  destruct (lookup_lt_is_Some_2 (operations (tstate s)) (Z.to_nat i)) as [o Ho]; [unfold zlen in Hi; lia|].
  assert (forall ks, launch_in_free phys_addr hhdm_offset (i :: ks) op s =
    match o with None => launch_operation phys_addr hhdm_offset i op s | Some _ => launch_in_free phys_addr hhdm_offset ks op s end) as Hl.
  { intros ks'. cbn [launch_in_free]. rewrite run_gets, (index_ok _ i o) by (done || lia). rewrite run_lift. by destruct o. }
  destruct o as [op'|]; [|left; exists i; split_and!; [by left|done|apply Hl]].
  destruct IH as [(j & Hj & Hjo & Hrun)|[Hall Hrun]]; [intros; apply Hr; by right|left|right].
  - exists j. split_and!; [by right|done|]. by rewrite Hl.
  - split; [|intros ks'; cbn [app]; by rewrite Hl].
    intros j Hj. apply elem_of_cons in Hj as [->|Hj]; [by eexists|by apply Hall].
Qed.
Lemma start_run {BB : Build} op s n : no_identify (Some op) -> usub (E:=never) 64 (remaining_operations (tstate s)) 1 = Ok n ->
  start_operation phys_addr hhdm_offset op s =
    launch_in_free phys_addr hhdm_offset (seqZ 0 (max_cmd_slots (sata s) + 1)) op
      (Build_Task (sata s) {| operations := operations (tstate s); remaining_operations := n |} (cells s)).
Proof. intros Hop Hn. unfold start_operation. destruct op; try done; rewrite run_gets, Hn, run_lift; reflexivity. Qed.
Definition all_busy (s : Task W) (n : Z) : Prop := forall i, 0 <= i < n -> exists op, operations (tstate s) !! Z.to_nat i = Some (Some op).

(** A request that comes while all slots are in use is lost.  The task
    takes it from its channel all the same, since the count it tests is the
    one of its start.  In a build with overflow checks the kernel stops; in
    one without, the request is in no slot and its cell is never set, so that
    its sender waits for ever.  On a controller with 32 slots, which the
    driver takes for 33, the request after the 32nd stops the kernel in both. *)
Theorem overload_loses_request s op : no_identify (Some op) ->
  (task_ok s -> max_cmd_slots (sata s) < 32 -> all_busy s (max_cmd_slots (sata s) + 1) ->
    (start_operation (H:=dev_build) phys_addr hhdm_offset op s).1 = Panic /\
    exists s', start_operation (H:=release_build) phys_addr hhdm_offset op s = (Ok (), s') /\
      sata s' = sata s /\ operations (tstate s') = operations (tstate s) /\ cells s' = cells s) /\
  (max_cmd_slots (sata s) = 32 -> zlen (operations (tstate s)) = 32 -> all_busy s 32 -> 1 <= remaining_operations (tstate s) < 2 ^ 64 ->
    forall B : Build, (start_operation (H:=B) phys_addr hhdm_offset op s).1 = Panic).
Proof.
  intros Hop. split.
  - intros Hok Hx Hall. assert (remaining_operations (tstate s) = 0) as Hr0.
    { pose proof (t_left _ Hok). destruct (decide (1 <= remaining_operations (tstate s))) as [Hr|]; [|lia].
      destruct (room_free s Hok Hr). intros i Hi. apply elem_of_seqZ in Hi. apply Hall. lia. }
    split.
    + unfold start_operation. destruct op; try done; by rewrite run_gets, Hr0.
    + rewrite (start_run (BB:=release_build) op s (2 ^ 64 - 1) Hop) by (by rewrite Hr0).
      set (s1 := Build_Task _ _ _). pose proof (t_max _ Hok). pose proof (t_slots _ Hok) as Hl.
      destruct (launch_in_free_cases (BB:=release_build) (seqZ 0 (max_cmd_slots (sata s) + 1)) op s1) as [(i & Hi & Ho & _)|[_ Hrun]].
      * intros i Hi. apply elem_of_seqZ in Hi. cbn [s1 tstate operations]. lia.
      * apply elem_of_seqZ in Hi. destruct (Hall i ltac:(lia)) as [op' Ho']. cbn [s1 tstate operations] in Ho. congruence.
      * specialize (Hrun []). rewrite app_nil_r in Hrun. exists s1. split; [exact Hrun|done].
  - intros Hm Hl Hall Hr B. rewrite (start_run (BB:=B) op s (remaining_operations (tstate s) - 1) Hop) by (apply usub_ok; lia).
    set (s1 := Build_Task _ _ _). rewrite Hm.
    destruct (launch_in_free_cases (BB:=B) (seqZ 0 32) op s1) as [(i & Hi & Ho & _)|[_ Hrun]].
    + intros i Hi. apply elem_of_seqZ in Hi. cbn [s1 tstate operations]. lia.
    + apply elem_of_seqZ in Hi. destruct (Hall i ltac:(lia)) as [op' Ho']. cbn [s1 tstate operations] in Ho. congruence.
    + change (seqZ 0 (32 + 1)) with (seqZ 0 32 ++ [32]). rewrite Hrun. cbn [launch_in_free]. rewrite run_gets.
      rewrite index_panic by (cbn [s1 tstate operations]; lia). done.
Qed.

(** On a drive without 48-bit addresses a read is answered with success
    and nothing is read.  The request takes a slot, no register and no byte of
    the shared buffer is written, and the next interrupt that finds no command
    outstanding answers it with success. *)
Theorem read_without_lba48 `{Build} s b lba c rounds fuel data ci d : task_ok s -> max_cmd_slots (sata s) < 32 ->
  1 <= remaining_operations (tstate s) -> lba48_supported (sata s) = false ->
  fatal (d_interrupt_status data) = false -> transfer_error (d_interrupt_status data) = false ->
  has task_file_error (d_interrupt_status data) = false -> read_port (E:=never) command_issue (sata s) = (Ok ci, d) -> ci = 0 ->
  exists s1 s2, start_operation phys_addr hhdm_offset (Op.Read b lba c) s = (Ok (), s1) /\ sata s1 = sata s /\
    handle_interrupt rounds fuel data s1 = (Ok (), s2) /\ (c, Done) ∈ cells s2.
Proof.
  intros Hok Hx Hr H48 Hf Ht Htf Hci ->. set (op := Op.Read b lba c). pose proof (t_max _ Hok). pose proof (t_slots _ Hok) as Hl.
  pose proof (zlen_nonneg (pending (operations (tstate s)))) as Hn. fold (busy (operations (tstate s))) in Hn. pose proof (t_count _ Hok).
  set (s0 := Build_Task (sata s) {| operations := operations (tstate s); remaining_operations := remaining_operations (tstate s) - 1 |} (cells s)).
  destruct (launch_in_free_cases (seqZ 0 (max_cmd_slots (sata s) + 1)) op s0) as [(i & Hi & Ho & Hrun)|[Hall _]].
  { intros i Hi. apply elem_of_seqZ in Hi. cbn [s0 tstate operations]. lia. }
  2:{ by destruct (room_free s Hok Hr Hall). }
  apply elem_of_seqZ in Hi. set (s1 := Build_Task (sata s) {| operations := <[Z.to_nat i := Some op]> (operations (tstate s));
    remaining_operations := remaining_operations (tstate s) - 1 |} (cells s)).
  assert (start_operation phys_addr hhdm_offset op s = (Ok (), s1)) as Hs.
  { rewrite (start_run op s _ I (usub_ok 64 (remaining_operations (tstate s)) 1 ltac:(lia))). fold s0. rewrite Hrun.
    unfold launch_operation, op, drive, start_read_sectors. unfold mbind at 1, M_bind at 1. rewrite run_get. cbn [sata s0]. rewrite H48.
    cbn [negb mret M_ret]. rewrite run_gets. cbn [s0 tstate operations remaining_operations]. rewrite update_ok by lia. by mstep. }
  destruct (start_operation_ok phys_addr hhdm_offset op s _ s1 Hs Hok (fun _ => Hr)) as (Hok1 & _).
  destruct (completes rounds fuel data s1 0 d Hok1 Hf Ht Htf Hci) as (s2 & H2' & _ & _ & Hc).
  exists s1, s2. split_and!; [done|done|done|]. rewrite Hc. apply elem_of_app. right. apply list_elem_of_fmap. exists op. split; [done|].
  unfold selected. apply list_elem_of_omap. exists i. split; [apply elem_of_seqZ; lia|]. rewrite Z.bits_0. cbn [negb s1 tstate operations].
  rewrite list_lookup_insert_eq; [done|]. unfold zlen in Hl. lia.
Qed.
End lost.

(** ** Delivering interrupts *)
Section delivery.
Context `{Build} {W : Type} `{Machine W, Controller W, Bitfield}.
Implicit Types (a : Adapter W).

(** [a'] is [a] with a message more for each of the [ports] whose task runs *)
Definition delivered (ports : list Z) (a a' : Adapter W) : Prop :=
  hba_base a' = hba_base a /\ zlen (senders a') = zlen (senders a) /\
  forall i, 0 <= i < 32 -> match senders a !! Z.to_nat i with
    | Some (Some q) => if decide (i ∈ ports) then exists info, senders a' !! Z.to_nat i = Some (Some (q ++ [info]))
                       else senders a' !! Z.to_nat i = Some (Some q)
    | o => senders a' !! Z.to_nat i = o
    end.
Lemma hba_read_run off a : exists v w, hba_read off a = (Ok v, Build_Adapter w (hba_base a) (senders a)).
Proof. unfold hba_read. destruct (mmio_read _ _) as [v w]. by eexists v, w. Qed.
Lemma send_run i info a : 0 <= i < 32 -> zlen (senders a) = 32 -> exists a', send i info a = (Ok (), a') /\ delivered [i] a a'.
Proof.
  intros Hi Hl. unfold send. rewrite run_get. destruct (lookup_lt_is_Some_2 (senders a) (Z.to_nat i)) as [o Ho]; [unfold zlen in Hl; lia|].
  rewrite (index_ok _ i o) by (done || lia). mstep. destruct o as [q|].
  - rewrite update_ok by lia. mstep. eexists. split; [reflexivity|]. split_and!; [done|cbn; by rewrite zlen_insert|]. cbn [senders].
    intros j Hj. destruct (decide (j = i)) as [->|Hne].
    + rewrite Ho, decide_True by (by left). exists info. apply list_lookup_insert_eq. unfold zlen in Hl. lia.
    + rewrite list_lookup_insert_ne by lia. destruct (senders a !! Z.to_nat j) as [[q'|]|]; [|done|done].
      by rewrite decide_False by (by rewrite list_elem_of_singleton).
  - eexists. split; [reflexivity|]. split_and!; [done|done|]. intros j Hj. destruct (senders a !! Z.to_nat j) as [[q|]|] eqn:Hj'; [|done|done].
    rewrite decide_False; [done|]. rewrite list_elem_of_singleton. intros ->. congruence.
Qed.
Lemma delivered_base ports a a' b b' : senders a = senders b -> senders a' = senders b' -> hba_base a = hba_base b -> hba_base a' = hba_base b' ->
  delivered ports a a' -> delivered ports b b'.
Proof. unfold delivered. by intros -> -> -> ->. Qed.
Lemma delivered_ports p q a a' : delivered p a a' -> (forall i, 0 <= i < 32 -> i ∈ p <-> i ∈ q) -> delivered q a a'.
Proof.
  intros (Hb & Hl & Hd) Hpq. split_and!; [done|done|]. intros i Hi. specialize (Hd i Hi). destruct (senders a !! Z.to_nat i) as [[l|]|]; [|done|done].
  destruct (decide (i ∈ p)) as [Hp|Hp]; [rewrite decide_True by (by apply Hpq)|rewrite decide_False by (by rewrite <- Hpq)]; done.
Qed.
Lemma port_handler_run i a : 0 <= i < 32 -> zlen (senders a) = 32 ->
  exists a', port_interrupt_handler i a = (Ok (), a') /\ delivered [i] a a'.
Proof.
  intros Hi Hl. unfold port_interrupt_handler. cbv zeta.
  do 5 (match goal with |- context [(hba_read ?off ≫= _) ?b] => let E := fresh "E" in destruct (hba_read_run off b) as (? & ? & E); mrun E end; cbn [hba_base senders]).
  match goal with |- context [(?m ≫= _) ?b] => assert (exists w, m b = (Ok (), Build_Adapter w (hba_base a) (senders a))) as (w & Hw) end.
  { destruct (bit_of _ _); [|by eexists]. match goal with |- context [(hba_read ?off ≫= _) ?b] => destruct (hba_read_run off b) as (? & ? & E4); mrun E4 end. by eexists. }
  mrun Hw. match goal with |- context [(send i ?info ≫= _) ?b] => destruct (send_run i info b Hi Hl) as (a1 & Hs & Hd); mrun Hs end.
  match goal with |- context [(hba_read ?off ≫= _) ?b] => destruct (hba_read_run off b) as (? & ? & E5); mrun E5 end.
  eexists. split; [reflexivity|]. by eapply delivered_base, Hd.
Qed.
Lemma delivered_trans p q a b c : (forall i, i ∈ p -> i ∉ q) -> delivered p a b -> delivered q b c -> delivered (p ++ q) a c.
Proof.
  intros Hpq (Hb & Hl & Hd) (Hb' & Hl' & Hd'). split_and!; [congruence|congruence|]. intros i Hi. specialize (Hd i Hi). specialize (Hd' i Hi).
  destruct (senders a !! Z.to_nat i) as [[l|]|]; [|by rewrite Hd in Hd'..].
  destruct (decide (i ∈ p)) as [Hp|Hp].
  - destruct Hd as [info Hd]. rewrite Hd, decide_False in Hd' by auto. rewrite decide_True by (apply elem_of_app; by left). by exists info.
  - rewrite Hd in Hd'. destruct (decide (i ∈ q)).
    + rewrite decide_True by (apply elem_of_app; by right). done.
    + rewrite decide_False by (rewrite elem_of_app; tauto). done.
Qed.
Lemma handlers_run (p : Z -> bool) ks : NoDup ks -> (forall i, i ∈ ks -> 0 <= i < 32) -> forall a, zlen (senders a) = 32 ->
  exists a', for_each ks () (fun i _ => if p i then port_interrupt_handler i else mret ()) a = (Ok (), a') /\
    delivered (filter (fun i => p i = true) ks) a a'.
Proof.
  induction ks as [|i ks IH]; intros Hnd Hr a Hl; cbn [for_each].
  { eexists. split; [reflexivity|]. split_and!; [done|done|]. intros j Hj. by destruct (senders a !! Z.to_nat j) as [[]|]. }
  apply NoDup_cons in Hnd as [Hni Hnd]. assert (forall j, j ∈ ks -> 0 <= j < 32) as Hr' by (intros; apply Hr; by right).
  rewrite filter_cons. destruct (p i) eqn:Hp; [rewrite decide_True by done|rewrite decide_False by done].
  - destruct (port_handler_run i a) as (a1 & H1' & Hd1); [apply Hr; by left|done|]. mrun H1'.
    destruct (IH Hnd Hr' a1) as (a2 & H2' & Hd2); [by destruct Hd1 as (_ & -> & _)|]. exists a2. split; [exact H2'|].
    apply (delivered_trans [i] _ a a1 a2); [|done|done]. intros j Hj. apply list_elem_of_singleton in Hj as ->. rewrite list_elem_of_filter. tauto.
  - mstep. by apply IH.
Qed.

(** An interrupt of the adapter reaches the tasks it is for.  The handler
    returns, and sends one message to the task of each port whose bit is set
    in the adapter's status register, if that task runs; it sends none to the
    others. *)
Theorem interrupts_delivered a v w : hba_base a = true -> zlen (senders a) = 32 -> mmio_read hba_interrupt_status (hba_machine a) = (v, w) ->
  exists a', ahci_interrupt_handler_by_idx a = (Ok (), a') /\ delivered (filter (fun i => Z.testbit v i = true) (seqZ 0 32)) a a'.
Proof.
  intros Hb Hl Hv. unfold ahci_interrupt_handler_by_idx. rewrite run_get, Hb. cbn [negb].
  assert (hba_read hba_interrupt_status a = (Ok v, Build_Adapter w (hba_base a) (senders a))) as Hr by (unfold hba_read; by rewrite Hv). mrun Hr.
  destruct (handlers_run (fun i => negb (Z.land v (Z.shiftl 1 i) =? 0)) (seqZ 0 32)) with (a := Build_Adapter w (hba_base a) (senders a)) as (a1 & H1' & Hd);
    [apply NoDup_seqZ|intros i Hi; apply elem_of_seqZ in Hi; lia|done|]. mrun H1'.
  destruct (hba_read_run hba_interrupt_status a1) as (v2 & w2 & E2). mrun E2. eexists. split; [reflexivity|].
  eapply delivered_base, (delivered_ports _ _ _ _ Hd); [done..|]. intros i Hi. rewrite !list_elem_of_filter. fold (tstbit v i).
  by rewrite tstbit_spec by lia.
Qed.
End delivery.

(** ** A task on the sample controller *)
Module SampleTask.
Import SampleAhci.
Definition start : Task Chip := Build_Task port {| operations := replicate 32 None; remaining_operations := 5 |} [].
(** The drive behind a controller with all 32 slots *)
Definition wide : AhciSata Chip :=
  Build_AhciSata (timers port) (dma_buffer port) (dma_20kb_buffer_paddr port) 32 (identify_data port) (hba_idx port) (ports_idx port).
Definition wide_start : Task Chip := Build_Task wide {| operations := replicate 32 None; remaining_operations := 33 |} [].
Definition buffer : Buffer := {| inner := hhdm + 0x30000; len := 1024 |}.
Definition read : Op.t := Op.Read buffer 7 100.
Definition plain : AhciSataInterruptData :=
  {| d_command_issue := 0; d_cmd_and_status := 0; d_interrupt_status := 1; d_task_file_data := 0x40; d_sata_error := 0 |}.
Definition drive_error : AhciSataInterruptData :=
  {| d_command_issue := 0x1; d_cmd_and_status := 0; d_interrupt_status := 2 ^ 30; d_task_file_data := 0x0441; d_sata_error := 0 |}.
Definition events : list Event := [Requested read; Interrupted plain; Requested (Op.Flush 101)].
Lemma sample_start_ok : task_ok start.
Proof. by apply (task_start_ok (H:=dev_build) port start). Qed.
Lemma run_pair {A B} (x : res A B * Task Chip) b : x.1 = Ok b -> x = (Ok b, x.2).
Proof. destruct x. cbn. by intros ->. Qed.
(** All five slots that the driver uses of a controller with four *)
Definition full : Task Chip := Build_Task port {| operations := replicate 5 (Some read) ++ replicate 27 None; remaining_operations := 0 |} [].
Lemma full_ok : task_ok full.
Proof.
  split; [done|by repeat constructor|cbn; lia| |done|done]. intros i o Hi Ho. cbn [full sata max_cmd_slots port] in Hi.
  assert (forall l1 l2 : list (option Op.t), (length l1 <= i)%nat -> (l1 ++ l2) !! i = Some o -> l2 !! (i - length l1)%nat = Some o) as Hl.
  { intros l1 l2 Hl Hx. by rewrite lookup_app_r in Hx. }
  apply (Hl (replicate 5 (Some read)) (replicate 27 None)) in Ho; [|rewrite length_replicate; lia]. by apply lookup_replicate in Ho as [-> _].
Qed.
Definition no_lba48 : Task Chip := Build_Task (with_identify port (replicate 512 0)) {| operations := replicate 32 None; remaining_operations := 5 |} [].
Lemma no_lba48_ok : task_ok no_lba48.
Proof. by apply (task_start_ok (H:=dev_build) (with_identify port (replicate 512 0)) no_lba48). Qed.
Definition adapter : Adapter Chip := Build_Adapter {| counter := 0; regs := [(hba_interrupt_status, 5)] |} true (Some [] :: replicate 31 None).
End SampleTask.
Import SampleAhci SampleTask.

Lemma requests_conserved_witness : exists s',
  run_task (H:=dev_build) SampleAhci.phys_addr SampleAhci.hhdm 2 4 33 SampleTask.events SampleTask.wide_start = (Ok (), s') /\
  pending (operations (tstate s')) ++ answered s' ≡ₚ [100; 101].
Proof.
  eexists. split; [apply SampleTask.run_pair; vm_compute; reflexivity|].
  refine (proj1 (requests_conserved (H:=dev_build) SampleAhci.phys_addr SampleAhci.hhdm 2 4 SampleTask.wide SampleTask.wide_start SampleTask.events _ _ eq_refl _ _));
    [cbn; lia| |apply SampleTask.run_pair; vm_compute; reflexivity].
  split; [|split; [exact I|split; [|exact I]]]; intros _; vm_compute; discriminate.
Defined.
Lemma command_is_request_witness : exists s',
  launch_operation (H:=dev_build) SampleAhci.phys_addr SampleAhci.hhdm 3 SampleTask.read SampleTask.start = (Ok (), s') /\
  fetch 0x10000 (dma_buffer (sata s')) 3 =
    Some {| rq_command := 0x25; rq_lba := 7; rq_count := 2; rq_write := false; rq_regions := [(0x30000, 1024)] |}.
Proof.
  destruct (command_is_request (H:=dev_build) SampleAhci.phys_addr SampleAhci.hhdm SampleAhci.phys_addr_ok SampleTask.start 3 SampleTask.read SampleAhci.sample_port_ok)
    as (s' & Hr & Hf & _); [done|lia| |by vm_compute|].
  - split; [lia|]. unfold buffer_ok. split_and!; vm_compute; congruence || done.
  - exists s'. split; [exact Hr|exact Hf].
Defined.
Lemma completion_exact_witness : exists s',
  handle_interrupt (H:=dev_build) 2 4 SampleTask.plain SampleTask.full = (Ok (), s') /\ cells s' = replicate 5 (100, Done).
Proof.
  destruct (completion_exact (H:=dev_build) 2 4 SampleTask.plain SampleTask.full 0 SampleAhci.port SampleTask.full_ok)
    as (s' & Hr & _ & _ & Hc); [reflexivity..|].
  exists s'. split; [exact Hr|]. rewrite Hc. reflexivity.
Defined.
Lemma interrupt_errors_witness :
  cells (handle_interrupt (H:=dev_build) 2 4 SampleTask.drive_error SampleTask.full).2 = [(100, Failed (str "0"))].
Proof.
  destruct (interrupt_errors (H:=dev_build) 2 4 SampleTask.drive_error SampleTask.full SampleTask.full_ok) as (_ & _ & Ht).
  destruct Ht as (_ & Hc & _); [vm_compute; reflexivity..|]. etransitivity; [exact Hc|]. reflexivity.
Defined.
Lemma overload_loses_request_witness :
  (start_operation (H:=dev_build) SampleAhci.phys_addr SampleAhci.hhdm (Op.Flush 7) SampleTask.full).1 = Panic.
Proof.
  refine (proj1 (proj1 (overload_loses_request SampleAhci.phys_addr SampleAhci.hhdm SampleTask.full (Op.Flush 7) I) SampleTask.full_ok _ _)).
  - cbn. lia.
  - intros i Hi. cbn [SampleTask.full sata max_cmd_slots SampleAhci.port] in Hi. exists SampleTask.read.
    assert (i = 0 \/ i = 1 \/ i = 2 \/ i = 3 \/ i = 4) as [-> |[-> |[-> |[-> | ->]]]] by lia; reflexivity.
Defined.
Lemma read_without_lba48_witness : exists s1 s2,
  start_operation (H:=dev_build) SampleAhci.phys_addr SampleAhci.hhdm SampleTask.read SampleTask.no_lba48 = (Ok (), s1) /\
  handle_interrupt (H:=dev_build) 2 4 SampleTask.plain s1 = (Ok (), s2) /\ (100, Done) ∈ cells s2.
Proof.
  destruct (read_without_lba48 (H2:=dev_build) SampleAhci.phys_addr SampleAhci.hhdm SampleTask.no_lba48 SampleTask.buffer 7 100 2 4 SampleTask.plain 0
    (sata SampleTask.no_lba48) SampleTask.no_lba48_ok) as (s1 & s2 & H1' & _ & H2' & Hc); [cbn; lia|cbn; lia|vm_compute; reflexivity|reflexivity..|].
  exists s1, s2. split; [exact H1'|split; [exact H2'|exact Hc]].
Defined.
Lemma interrupts_delivered_witness : exists a' info, ahci_interrupt_handler_by_idx SampleTask.adapter = (Ok (), a') /\ senders a' !! 0%nat = Some (Some [info]).
Proof.
  destruct (interrupts_delivered SampleTask.adapter 5 (hba_machine SampleTask.adapter)) as (a' & Hr & _ & _ & Hd); [reflexivity..|].
  specialize (Hd 0 ltac:(lia)). destruct Hd as [info Hd]. exists a', info. split; [exact Hr|exact Hd].
Defined.
