(* ===== verification/Pata.v ===== *)
(** * The PATA driver

    src/kernel/src/drivers/ata/pata/{mod,pio}.rs with the ports and commands of
    src/kernel/src/drivers/ata/mod.rs: identifying a drive, and reading and
    writing sectors through its data port, polling or as a task.

    The ports are a parameter: a state that is read and written, and that may
    change while the task is suspended.  [Ata] is what the driver may rely on
    of the drive behind them, for the commands with 48-bit addresses and the
    identification: while it is busy nothing but that its status can be read, so
    that everything else rests on the driver's waits.

    A buffer that a call fills is part of the state, since a call that fails
    leaves in it what it has read so far.  A drive is polled at most
    [WAIT_TIME + 1] times, so that this much fuel is enough; the loop of
    [identify] has no limit, and its fuel is an argument.

    Shown here: sectors are read and written as they should, in both forms; the
    flush after a write is sent to a drive that may be busy; every call but [identify] returns whatever
    the drive does; the asynchronous wait neither waits for the drive nor times
    out; and what a 28-bit address becomes. *)

From S2P Require Import Prelude Bytes Crypto Channels Executor.
Import CryptoMod.

Definition DATA : Z := 0.
Definition ERROR : Z := 1.
Definition FEATURE : Z := 1.
Definition SECTOR_COUNT : Z := 2.
Definition LBA_LOW : Z := 3.
Definition LBA_MID : Z := 4.
Definition LBA_HIGH : Z := 5.
Definition DRIVE : Z := 6.
Definition COMMAND : Z := 7.
Definition STATUS : Z := 7.

Definition READ_SECTORS : Z := 0x20.
Definition READ_SECTORS_EXT : Z := 0x24.
Definition WRITE_SECTORS : Z := 0x30.
Definition WRITE_SECTORS_EXT : Z := 0x34.
Definition START_IDENTIFY : Z := 0xA0.
Definition IDENTITY : Z := 0xEC.
Definition LBA28 : Z := 0xE0.
Definition LBA48 : Z := 0x40.
Definition FLUSH_CACHE : Z := 0xE7.

Definition PATA_PRIMARY_BASE : Z := 0x1F0.
Definition PATA_SECONDARY_BASE : Z := 0x170.
Definition WAIT_TIME : Z := 100000.
Definition WAIT_TICK_TIME : Z := 10.
Definition SECTOR_SIZE : Z := 512.

Inductive PataIdentErr := DeviceNonExist | DeviceNotAta | IdentError.
Inductive IoErr := Unavailable | Unimplemented | SectorOutOfRange | InitTimeout | IOTimeout | FlushCacheTimeout | InputTooSmall.

Record PataDevice := {
  identified : bool;
  lba48_supported : bool;
  lba28_sector_count : Z;
  lba48_sector_count : Z;
  sectors_per_track : Z;
  port : Z;
  data_port : Z;
  error_port_lba28 : Z;
  error_port_lba48 : Z;
  features_port_lba28 : Z;
  features_port_lba48 : Z;
  sector_count_port : Z;
  lba_low_port : Z;
  lba_mid_port : Z;
  lba_high_port : Z;
  drive_port : Z;
  status_port : Z;
  cmd_port : Z;
}.
Definition new `{Build} (base_port : Z) : res never PataDevice :=
  error28 ← uadd 16 base_port ERROR;
  error48 ← uadd 16 base_port ERROR;
  features28 ← uadd 16 base_port FEATURE;
  features48 ← uadd 16 base_port FEATURE;
  sector_count ← uadd 16 base_port SECTOR_COUNT;
  lba_low ← uadd 16 base_port LBA_LOW;
  lba_mid ← uadd 16 base_port LBA_MID;
  lba_high ← uadd 16 base_port LBA_HIGH;
  drive ← uadd 16 base_port DRIVE;
  status ← uadd 16 base_port STATUS;
  cmd ← uadd 16 base_port COMMAND;
  mret {| identified := false; lba48_supported := false; lba28_sector_count := 0; lba48_sector_count := 0;
          sectors_per_track := 1; port := base_port; data_port := base_port;
          error_port_lba28 := error28; error_port_lba48 := error48;
          features_port_lba28 := features28; features_port_lba48 := features48;
          sector_count_port := sector_count; lba_low_port := lba_low; lba_mid_port := lba_mid;
          lba_high_port := lba_high; drive_port := drive; status_port := status; cmd_port := cmd |}.

(** The machine's ports, and what happens to it while the task waits *)
Class Ports (W : Type) := {
  in8 : Z -> W -> Z * W;
  out8 : Z -> Z -> W -> W;
  in16 : Z -> W -> Z * W;
  out16 : Z -> Z -> W -> W;
  suspended : W -> W;
}.

(** The device, the machine, the waker lists and the caller's buffer *)
Record Io (W : Type) := {
  device : PataDevice;
  world : W;
  PRIMARY_IDE_WAKERS : list Z;
  SECONDARY_IDE_WAKERS : list Z;
  result : list Z;
}.
Arguments Build_Io {W} _ _ _ _ _.
Arguments device {W} _.
Arguments world {W} _.
Arguments PRIMARY_IDE_WAKERS {W} _.
Arguments SECONDARY_IDE_WAKERS {W} _.
Arguments result {W} _.
Definition with_world {W} (s : Io W) (w : W) : Io W := Build_Io (device s) w (PRIMARY_IDE_WAKERS s) (SECONDARY_IDE_WAKERS s) (result s).
Definition with_result {W} (s : Io W) (r : list Z) : Io W :=
  Build_Io (device s) (world s) (PRIMARY_IDE_WAKERS s) (SECONDARY_IDE_WAKERS s) r.
Definition with_device {W} (s : Io W) (d : PataDevice) : Io W :=
  Build_Io d (world s) (PRIMARY_IDE_WAKERS s) (SECONDARY_IDE_WAKERS s) (result s).

Definition sector_count (d : PataDevice) : Z := if lba48_supported d then lba48_sector_count d else lba28_sector_count d.
Definition word (buf : list Z) (i : Z) : res never Z := index buf i.
Definition read_identify_buffer `{Build} (d : PataDevice) (buf : list Z) : res never PataDevice :=
  w83 ← word buf 83;
  b ← binary_test w83 10;
  spt ← word buf 6;
  w61 ← word buf 61; w60 ← word buf 60;
  w103 ← word buf 103; w102 ← word buf 102; w101 ← word buf 101; w100 ← word buf 100;
  let d' := {| identified := true; lba48_supported := b || lba48_supported d;
               lba28_sector_count := Z.lor (wrap 32 (Z.shiftl w61 16)) w60;
               lba48_sector_count := Z.lor (Z.lor (Z.lor (wrap 64 (Z.shiftl w103 48)) (wrap 64 (Z.shiftl w102 32)))
                                              (wrap 64 (Z.shiftl w101 16))) w100;
               sectors_per_track := spt; port := port d; data_port := data_port d;
               error_port_lba28 := error_port_lba28 d; error_port_lba48 := error_port_lba48 d;
               features_port_lba28 := features_port_lba28 d; features_port_lba48 := features_port_lba48 d;
               sector_count_port := sector_count_port d; lba_low_port := lba_low_port d;
               lba_mid_port := lba_mid_port d; lba_high_port := lba_high_port d; drive_port := drive_port d;
               status_port := status_port d; cmd_port := cmd_port d |} in
  (* the capacity that is logged *)
  _ ← (if lba48_supported d' then umul 64 (lba48_sector_count d') 512 else umul 64 (lba28_sector_count d') 512);
  mret d'.

Section pata.
Context `{Build} {W : Type} `{Ports W}.

Section access.
Context {E : Type}.
Definition read8 (p : PataDevice -> Z) : M (Io W) E Z := fun s => let '(v, w) := in8 (p (device s)) (world s) in (Ok v, with_world s w).
Definition read16 (p : PataDevice -> Z) : M (Io W) E Z := fun s => let '(v, w) := in16 (p (device s)) (world s) in (Ok v, with_world s w).
Definition write8 (p : PataDevice -> Z) (v : Z) : M (Io W) E () := fun s => (Ok (), with_world s (out8 (p (device s)) v (world s))).
Definition write16 (p : PataDevice -> Z) (v : Z) : M (Io W) E () := fun s => (Ok (), with_world s (out16 (p (device s)) v (world s))).
Definition status_reads (n : Z) : M (Io W) E () := for_each (seqZ 0 n) () (fun _ _ => _ ← read8 status_port; mret ()).
Definition test_status (bit : Z) : M (Io W) E bool := v ← read8 status_port; lift (from_never (binary_test v bit)).
(** [result[i] = v] *)
Definition set_result (i v : Z) : M (Io W) E () :=
  r ← gets result; r ← lift (update r i v); modify (fun s => with_result s r).
End access.

(** ** Identification *)
Abbreviation I := (M (Io W) PataIdentErr).
Fixpoint identify_poll (fuel : nat) (poll_count : Z) : I () :=
  match fuel with
  | O => lift Hang
  | S fuel =>
      poll_count ← lift (snum 32 (poll_count + 1));
      lba_mid ← read8 lba_mid_port;
      lba_high ← read8 lba_high_port;
      if negb (lba_mid =? 0) || negb (lba_high =? 0) then throw DeviceNotAta else
      status ← read8 status_port;
      if Z.land status 1 =? 1 then _ ← read8 error_port_lba28; throw IdentError else
      if Z.land status 8 =? 8 then mret () else identify_poll fuel poll_count
  end.
Definition read_words : I (list Z) :=
  for_each (seqZ 0 256) (replicate 256 0) (fun i buf => v ← read16 data_port; lift (update buf i v)).
Definition identify (fuel : nat) : I () :=
  _ ← write8 drive_port START_IDENTIFY;
  _ ← write8 sector_count_port 0;
  _ ← write8 lba_low_port 0;
  _ ← write8 lba_mid_port 0;
  _ ← write8 lba_high_port 0;
  _ ← write8 cmd_port IDENTITY;
  status ← read8 status_port;
  if status =? 0 then throw DeviceNonExist else
  _ ← status_reads 14;
  _ ← identify_poll fuel 0;
  buf ← read_words;
  d ← gets device;
  d ← lift (from_never (read_identify_buffer d buf));
  modify (fun s => with_device s d).

(** ** Addresses and commands *)
Abbreviation P := (M (Io W) IoErr).
Definition get_lba (d : PataDevice) (index : Z) : res never Z :=
  if index <? 0 then
    if lba48_supported d then usub 32 (lba28_sector_count d) (wrap 32 (Z.abs index))
    else usub 64 (lba48_sector_count d) (Z.abs index)
  else mret index.
Definition verify_lba (d : PataDevice) (lba count : Z) : res IoErr () :=
  last ← uadd 64 lba count;
  if lba48_supported d
  then if lba48_sector_count d <? last then Err SectorOutOfRange else mret ()
  else if lba28_sector_count d <? last then Err SectorOutOfRange else mret ().
(** Both loops that poll the status: [busy] is their condition *)
Fixpoint poll_status (busy : P bool) (e : IoErr) (fuel : nat) (timer : Z) : P () :=
  match fuel with
  | O => lift Hang
  | S fuel =>
      b ← busy;
      if negb b then mret () else
      timer ← lift (uadd 32 timer 1);
      if WAIT_TIME <? timer then throw e else poll_status busy e fuel timer
  end.
Definition poll_fuel : nat := S (Z.to_nat WAIT_TIME).
Definition wait_init : P () := poll_status (test_status 7) InitTimeout poll_fuel 0.
Definition io_init (index count : Z) : P Z :=
  d ← gets device;
  if negb (identified d) then throw Unavailable else
  lba ← lift (from_never (get_lba d index));
  _ ← lift (verify_lba d lba count);
  _ ← wait_init;
  mret lba.

Definition send_lba28 (count lba : Z) : P () :=
  _ ← write8 drive_port (Z.lor LBA28 (wrap 8 (Z.lor (Z.shiftr lba 24) 0xFF)));
  _ ← write8 sector_count_port (wrap 8 (Z.land count 0xFF));
  _ ← write8 lba_low_port (wrap 8 (Z.land lba 0xFF));
  _ ← write8 lba_mid_port (wrap 8 (Z.land (Z.shiftr lba 8) 0xFF));
  write8 lba_mid_port (wrap 8 (Z.land (Z.shiftr lba 16) 0xFF)).
Definition send_read_lba28 (count lba : Z) : P () := _ ← send_lba28 count lba; write8 cmd_port READ_SECTORS.
Definition send_write_lba28 (count lba : Z) : P () := _ ← send_lba28 count lba; write8 cmd_port WRITE_SECTORS.
Definition send_lba48 (count lba : Z) : P () :=
  _ ← write8 drive_port LBA48;
  _ ← write8 sector_count_port (wrap 8 (Z.land (Z.shiftr count 8) 0xFF));
  _ ← write8 lba_low_port (wrap 8 (Z.land (Z.shiftr lba 24) 0xFF));
  _ ← write8 lba_mid_port (wrap 8 (Z.land (Z.shiftr lba 32) 0xFF));
  _ ← write8 lba_high_port (wrap 8 (Z.land (Z.shiftr lba 40) 0xFF));
  _ ← write8 sector_count_port (wrap 8 (Z.land count 0xFF));
  _ ← write8 lba_low_port (wrap 8 (Z.land lba 0xFF));
  _ ← write8 lba_mid_port (wrap 8 (Z.land (Z.shiftr lba 8) 0xFF));
  write8 lba_high_port (wrap 8 (Z.land (Z.shiftr lba 16) 0xFF)).
Definition send_read_lba48 (count lba : Z) : P () := _ ← send_lba48 count lba; write8 cmd_port READ_SECTORS_EXT.
Definition send_write_lba48 (count lba : Z) : P () := _ ← send_lba48 count lba; write8 cmd_port WRITE_SECTORS_EXT.

(** ** Waiting for data *)
(** [!test(read(), 3) || test(read(), 7)]: the second reading only happens if
    the first has the bit *)
Definition not_ready : P bool := drq ← test_status 3; if negb drq then mret true else test_status 7.
Definition wait_io : P () := _ ← status_reads 14; poll_status not_ready IOTimeout poll_fuel 0.

(** [WaitIOFuture]: the state is [is_done]; [task] is the task that polls it *)
Definition wait_io_poll (task port : Z) (is_done : bool) : P (Poll () * bool) :=
  if is_done then mret (Ready (), is_done) else
  _ ← (if port =? PATA_PRIMARY_BASE then
         modify (fun s => Build_Io (device s) (world s) (PRIMARY_IDE_WAKERS s ++ [task]) (SECONDARY_IDE_WAKERS s) (result s))
       else if port =? PATA_SECONDARY_BASE then
         modify (fun s => Build_Io (device s) (world s) (PRIMARY_IDE_WAKERS s) (SECONDARY_IDE_WAKERS s ++ [task]) (result s))
       else panic);
  mret (Pending, true).
(** The race of [wait] with it, polled until it is over *)
Definition race_poll (task port : Z) (st : Z * bool) : P (Poll (() + ()) * (Z * bool)) :=
  '(p, ticks) ← lift (from_never (Futures.wait_poll (fst st)));
  match p with
  | Ready x => mret (Ready (inl x), (ticks, snd st))
  | Pending =>
      '(p, is_done) ← wait_io_poll task port (snd st);
      match p with
      | Ready x => mret (Ready (inr x), (ticks, is_done))
      | Pending => mret (Pending, (ticks, is_done))
      end
  end.
Fixpoint race_await (task port : Z) (fuel : nat) (st : Z * bool) : P (() + ()) :=
  match fuel with
  | O => lift Hang
  | S fuel =>
      '(p, st) ← race_poll task port st;
      match p with
      | Ready x => mret x
      | Pending => _ ← modify (fun s => with_world s (suspended (world s))); race_await task port fuel st
      end
  end.
(** At most as many polls as the wait has ticks, and one *)
Definition race_fuel : nat := S (Z.to_nat WAIT_TICK_TIME).
Definition wait_io_async (task : Z) : P () :=
  _ ← status_reads 14;
  ticks ← lift (from_never (Futures.wait_int WAIT_TICK_TIME));
  p ← gets (fun s => port (device s));
  r ← race_await task p race_fuel (ticks, false);
  match r with inl _ => throw IOTimeout | inr _ => mret () end.

(** ** Transfers; [wait] is what comes before a sector *)
Definition read_word_at (sector i : Z) : P () :=
  word ← read16 data_port;
  let base := sector * 512 + i * 2 in
  _ ← set_result base (wrap 8 (Z.land word 0xFF));
  set_result (base + 1) (wrap 8 (Z.land (Z.shiftr word 8) 0xFF)).
Definition read_sector (sector : Z) : P () := for_each (seqZ 0 256) () (fun i _ => read_word_at sector i).
Definition read_sectors (wait : P ()) (count : Z) : P () :=
  r ← gets result;
  if zlen r <? count * 512 then throw InputTooSmall else
  for_each (seqZ 0 count) () (fun sector _ => _ ← wait; read_sector sector).
Definition read_data (count : Z) : P () := read_sectors wait_io count.
Definition wait_both (task : Z) : P () := _ ← wait_io_async task; wait_io.
Definition read_data_async (task count : Z) : P () := read_sectors (wait_both task) count.

Definition write_word_at (input : list Z) (sector byte : Z) : P () :=
  hi ← lift (index input (sector * 512 + byte * 2 + 1));
  lo ← lift (index input (sector * 512 + byte * 2));
  write16 data_port (Z.lor (wrap 16 (Z.shiftl hi 8)) lo).
Definition write_sector (input : list Z) (sector : Z) : P () := for_each (seqZ 0 256) () (fun byte _ => write_word_at input sector byte).
Definition write_sectors (wait : P ()) (count : Z) (input : list Z) : P () :=
  for_each (seqZ 0 count) () (fun sector _ => _ ← wait; write_sector input sector).
Definition write_data (count : Z) (input : list Z) : P () := write_sectors wait_io count input.
Definition write_data_async (task count : Z) (input : list Z) : P () := write_sectors (wait_both task) count input.
Definition flush_cache : P () := _ ← write8 cmd_port FLUSH_CACHE; wait_init.

Definition pio_read_sectors (index count : Z) : P () :=
  lba ← io_init index count;
  d ← gets device;
  _ ← (if lba48_supported d then send_read_lba48 count lba else send_read_lba28 count lba);
  read_data count.
Definition pio_read_sectors_async (task index count : Z) : P () :=
  lba ← io_init index count;
  d ← gets device;
  _ ← (if lba48_supported d then send_read_lba48 count lba else send_read_lba28 count lba);
  read_data_async task count.
Definition pio_write_sectors (index count : Z) (input : list Z) : P () :=
  needed ← lift (umul 16 count SECTOR_SIZE);
  if zlen input <? needed then throw InputTooSmall else
  lba ← io_init index count;
  d ← gets device;
  _ ← (if lba48_supported d then send_write_lba48 count lba else send_write_lba28 count lba);
  _ ← write_data count input;
  flush_cache.
Definition pio_write_sectors_async (task index count : Z) (input : list Z) : P () :=
  needed ← lift (umul 16 count SECTOR_SIZE);
  if zlen input <? needed then throw InputTooSmall else
  lba ← io_init index count;
  d ← gets device;
  _ ← (if lba48_supported d then send_write_lba48 count lba else send_write_lba28 count lba);
  _ ← write_data_async task count input;
  flush_cache.
End pata.

(** ** The drive

    The registers of the command block keep the value written last and the one
    before it; a command with a 48-bit address uses both. *)
Inductive Phase :=
| Idle
| DataIn (words : list Z)
| DataOut (lba count : Z) (words : list Z).
Record Drive := {
  r_count : Z * Z;
  r_low : Z * Z;
  r_mid : Z * Z;
  r_high : Z * Z;
  r_drive : Z * Z;
  media : list Z;
  identity : list Z;
  phase : Phase;
}.
Definition latch (r : Z * Z) (v : Z) : Z * Z := (v, fst r).
Definition with_phase (d : Drive) (m : list Z) (p : Phase) : Drive :=
  {| r_count := r_count d; r_low := r_low d; r_mid := r_mid d; r_high := r_high d; r_drive := r_drive d;
     media := m; identity := identity d; phase := p |}.
Definition write_reg (o v : Z) (d : Drive) : Drive :=
  {| r_count := if o =? SECTOR_COUNT then latch (r_count d) v else r_count d;
     r_low := if o =? LBA_LOW then latch (r_low d) v else r_low d;
     r_mid := if o =? LBA_MID then latch (r_mid d) v else r_mid d;
     r_high := if o =? LBA_HIGH then latch (r_high d) v else r_high d;
     r_drive := if o =? DRIVE then latch (r_drive d) v else r_drive d;
     media := media d; identity := identity d; phase := phase d |}.
Definition lba48_of (d : Drive) : Z :=
  le_num [fst (r_low d); fst (r_mid d); fst (r_high d); snd (r_low d); snd (r_mid d); snd (r_high d)].
Definition count48_of (d : Drive) : Z :=
  let n := le_num [fst (r_count d); snd (r_count d)] in if n =? 0 then 65536 else n.
(** The first drive, addressed by block *)
Definition selected (d : Drive) : bool := Z.land (fst (r_drive d)) 0x50 =? 0x40.

Fixpoint words_of (bs : list Z) : list Z :=
  match bs with
  | lo :: hi :: bs => lo + 256 * hi :: words_of bs
  | _ => []
  end.
Fixpoint bytes_of (ws : list Z) : list Z :=
  match ws with
  | [] => []
  | w :: ws => w mod 256 :: w / 256 :: bytes_of ws
  end.
Definition sectors (m : list Z) (lba n : Z) : list Z := take (Z.to_nat (512 * n)) (drop (Z.to_nat (512 * lba)) m).
Definition store (m : list Z) (lba : Z) (bs : list Z) : list Z :=
  take (Z.to_nat (512 * lba)) m ++ bs ++ drop (Z.to_nat (512 * lba) + length bs) m.
(** A transfer with no words left is over. *)
Definition data_in (ws : list Z) : Phase := match ws with [] => Idle | _ => DataIn ws end.
Definition data_out (d : Drive) (lba n : Z) (ws : list Z) : Drive :=
  if zlen ws =? 256 * n then with_phase d (store (media d) lba (bytes_of ws)) Idle
  else with_phase d (media d) (DataOut lba n ws).
Definition is_idle (d : Drive) : bool := match phase d with Idle => true | _ => false end.

(** A drive at the ports from [base] that works: [lag] is for how many
    readings of the status it is still busy, which no command makes longer
    than the driver waits.  Nothing is known of a drive that is used while it is
    busy, but that its status can be read; the registers and commands are taken
    outside of transfers only.  A drive may become busy with any command and at
    the end of any sector, not within one. *)
Class Ata (W : Type) (base : Z) `{Ports W} := {
  drive : W -> Drive;
  lag : W -> Z;
  lag_bound w : 0 <= lag w <= WAIT_TIME;
  in_status w : drive (in8 (base + STATUS) w).2 = drive w;
  status_range w : is_byte (in8 (base + STATUS) w).1;
  status_busy w : 0 < lag w -> Z.testbit (in8 (base + STATUS) w).1 7 = true /\ lag (in8 (base + STATUS) w).2 = lag w - 1;
  status_ready w : lag w = 0 -> Z.testbit (in8 (base + STATUS) w).1 7 = false /\
    Z.testbit (in8 (base + STATUS) w).1 3 = negb (is_idle (drive w)) /\
    Z.testbit (in8 (base + STATUS) w).1 0 = false /\ lag (in8 (base + STATUS) w).2 = 0;
  in_mid w : lag w = 0 -> (in8 (base + LBA_MID) w).1 = fst (r_mid (drive w)) /\
    drive (in8 (base + LBA_MID) w).2 = drive w /\ lag (in8 (base + LBA_MID) w).2 = 0;
  in_high w : lag w = 0 -> (in8 (base + LBA_HIGH) w).1 = fst (r_high (drive w)) /\
    drive (in8 (base + LBA_HIGH) w).2 = drive w /\ lag (in8 (base + LBA_HIGH) w).2 = 0;
  out_reg w o v : lag w = 0 -> phase (drive w) = Idle -> SECTOR_COUNT <= o <= DRIVE ->
    drive (out8 (base + o) v w) = write_reg o v (drive w) /\ lag (out8 (base + o) v w) = 0;
  cmd_read_ext w : lag w = 0 -> phase (drive w) = Idle -> selected (drive w) = true ->
    drive (out8 (base + COMMAND) READ_SECTORS_EXT w) = with_phase (drive w) (media (drive w))
      (data_in (words_of (sectors (media (drive w)) (lba48_of (drive w)) (count48_of (drive w)))));
  cmd_write_ext w : lag w = 0 -> phase (drive w) = Idle -> selected (drive w) = true ->
    drive (out8 (base + COMMAND) WRITE_SECTORS_EXT w) =
      with_phase (drive w) (media (drive w)) (DataOut (lba48_of (drive w)) (count48_of (drive w)) []);
  cmd_flush w : lag w = 0 -> phase (drive w) = Idle -> drive (out8 (base + COMMAND) FLUSH_CACHE w) = drive w;
  cmd_identify w : lag w = 0 -> phase (drive w) = Idle ->
    drive (out8 (base + COMMAND) IDENTITY w) = with_phase (drive w) (media (drive w)) (data_in (identity (drive w)));
  in_data w x ws : lag w = 0 -> phase (drive w) = DataIn (x :: ws) ->
    (in16 base w).1 = x /\ drive (in16 base w).2 = with_phase (drive w) (media (drive w)) (data_in ws) /\
    (zlen ws mod 256 <> 0 -> lag (in16 base w).2 = 0);
  out_data w v lba n ws : lag w = 0 -> phase (drive w) = DataOut lba n ws ->
    drive (out16 base v w) = data_out (drive w) lba n (ws ++ [v]) /\
    (zlen (ws ++ [v]) mod 256 <> 0 -> lag (out16 base v w) = 0);
  drive_suspended w : drive (suspended w) = drive w;
}.
Arguments drive {W} base {_ _} _.
Arguments lag {W} base {_ _} _.
(** The ports of a device are those of its base. *)
Definition at_base (d : PataDevice) (base : Z) : Prop :=
  port d = base /\ data_port d = base + DATA /\ sector_count_port d = base + SECTOR_COUNT /\ lba_low_port d = base + LBA_LOW /\
  lba_mid_port d = base + LBA_MID /\ lba_high_port d = base + LBA_HIGH /\ drive_port d = base + DRIVE /\
  status_port d = base + STATUS /\ cmd_port d = base + COMMAND.

Lemma new_at_base `{Build} base d : 0 <= base < 0xFFF8 -> new base = Ok d -> at_base d base.
Proof.
  intros Hb. unfold new, ERROR, FEATURE, SECTOR_COUNT, LBA_LOW, LBA_MID, LBA_HIGH, DRIVE, STATUS, COMMAND.
  repeat (rewrite uadd_ok by lia; rsimpl). intros [= <-]. unfold at_base, DATA. split_and!; try reflexivity. symmetry. apply Z.add_0_r.
Qed.

(** ** Words and bytes *)
Lemma length_bytes_of ws : length (bytes_of ws) = (2 * length ws)%nat.
Proof. induction ws as [|w ws IH]; cbn [bytes_of length]; [done|]. lia. Qed.
Lemma bytes_of_app a b : bytes_of (a ++ b) = bytes_of a ++ bytes_of b.
Proof. induction a as [|w a IH]; cbn [bytes_of app]; [done|]. by rewrite IH. Qed.
Lemma words_of_spec n bs : length bs = (2 * n)%nat -> bytes bs ->
  length (words_of bs) = n /\ bytes_of (words_of bs) = bs /\ Forall (fun w => 0 <= w < 2 ^ 16) (words_of bs).
Proof.
  revert bs. induction n as [|n IH]; intros bs Hl Hb; [by destruct bs|].
  destruct bs as [|lo [|hi bs]]; [cbn in Hl; lia..|]. cbn [length] in Hl.
  apply Forall_cons in Hb as [Hlo Hb]. apply Forall_cons in Hb as [Hhi Hb]. unfold is_byte in *.
  destruct (IH bs) as (H1 & H2 & H3); [lia|done|]. cbn [words_of bytes_of length]. split_and!; [lia| |constructor; [lia|done]].
  rewrite H2. f_equal; [|f_equal].
  - rewrite Z.mul_comm, Z.mod_add, Z.mod_small by lia. done.
  - rewrite Z.mul_comm, Z.div_add, Z.div_small by lia. done.
Qed.
Lemma words_of_app n a b : length a = (2 * n)%nat -> words_of (a ++ b) = words_of a ++ words_of b.
Proof.
  revert a. induction n as [|n IH]; intros a Ha; [by destruct a|].
  destruct a as [|lo [|hi a]]; [cbn in Ha; lia..|]. cbn [length] in Ha. cbn [words_of app]. rewrite IH by lia. done.
Qed.
Lemma index_drop {E} (l : list Z) i x post : 0 <= i -> drop (Z.to_nat i) l = x :: post -> index (E:=E) l i = Ok x.
Proof. intros Hi Hd. apply index_ok; [done|]. rewrite <- (Nat.add_0_r (Z.to_nat i)), <- lookup_drop. by rewrite Hd. Qed.
(** What is stored is read back, and nothing else changes. *)
Lemma sectors_store m lba n bs : 0 <= lba -> 0 <= n -> 512 * (lba + n) <= zlen m -> length bs = Z.to_nat (512 * n) -> sectors (store m lba bs) lba n = bs.
Proof.
  unfold zlen, sectors, store. intros Hl Hn Hm Hb. rewrite drop_app_length' by (rewrite length_take; lia). by rewrite take_app_length'.
Qed.
Lemma sectors_store_ne m lba n bs i k : 0 <= lba -> 0 <= n -> 512 * (lba + n) <= zlen m -> length bs = Z.to_nat (512 * n) ->
  0 <= i -> 0 <= k -> i + k <= lba \/ lba + n <= i -> sectors (store m lba bs) i k = sectors m i k.
Proof.
  unfold zlen, sectors, store. intros Hl Hn Hm Hb Hi Hk [Hd|Hd].
  - rewrite drop_app_le, take_app_le by (rewrite ?length_drop, length_take; lia).
    apply list_eq. intros j. destruct (decide (j < Z.to_nat (512 * k))%nat); [|by rewrite !lookup_take_ge by lia].
    rewrite !lookup_take_lt, !lookup_drop by done. by rewrite lookup_take_lt by lia.
  - rewrite drop_app_ge, drop_app_ge, drop_drop by (rewrite ?length_take; lia). do 2 f_equal. rewrite length_take. lia.
Qed.
Lemma byte_field x k : 0 <= k -> wrap 8 (Z.land (Z.shiftr x k) 0xFF) = (x / 2 ^ k) mod 256.
Proof.
  intros Hk. change 0xFF with (Z.ones 8). rewrite Z.land_ones, Z.shiftr_div_pow2 by lia.
  unfold wrap. change (2 ^ 8) with 256. by rewrite Z.mod_mod.
Qed.
Lemma byte_field0 x : wrap 8 (Z.land x 0xFF) = x mod 256.
Proof. rewrite <- (Z.shiftr_0_r x) at 1. rewrite byte_field by lia. by rewrite Z.div_1_r. Qed.
Lemma lor_low_byte x : Z.lor LBA28 (wrap 8 (Z.lor x 0xFF)) = 0xFF.
Proof.
  assert (wrap 8 (Z.lor x 0xFF) = 0xFF) as ->; [|done]. unfold wrap. rewrite <- Z.land_ones by lia.
  change 0xFF with (Z.ones 8). apply Z.bits_inj_iff. intros j. rewrite Z.land_spec, Z.lor_spec.
  destruct (Z.testbit (Z.ones 8) j); [by rewrite orb_true_r|apply andb_false_r].
Qed.
Lemma word_join hi lo : is_byte hi -> is_byte lo -> Z.lor (wrap 16 (Z.shiftl hi 8)) lo = lo + 256 * hi.
Proof.
  unfold is_byte. intros Hh Hl. rewrite wrap_small by (rewrite Z.shiftl_mul_pow2 by lia; lia).
  rewrite Z.lor_comm, lor_shiftl_add by lia. done.
Qed.
Lemma update_at {E} (pre : list Z) x y post i : i = zlen pre -> update (E:=E) (pre ++ x :: post) i y = Ok (pre ++ y :: post).
Proof.
  intros ->. rewrite update_ok by (zlen; pose proof (zlen_nonneg pre); pose proof (zlen_nonneg post); lia).
  rewrite to_nat_zlen, <- (Nat.add_0_r (length pre)). by rewrite insert_app_r.
Qed.

(** ** The asynchronous wait, on any machine *)
Section waiting.
Context `{BB : Build} {W : Type} {HP : Ports W}.
Implicit Types s : Io W.
Definition is_channel (p : Z) : bool := (p =? PATA_PRIMARY_BASE) || (p =? PATA_SECONDARY_BASE).
Definition registered (task : Z) s : Io W :=
  if port (device s) =? PATA_PRIMARY_BASE
  then Build_Io (device s) (world s) (PRIMARY_IDE_WAKERS s ++ [task]) (SECONDARY_IDE_WAKERS s) (result s)
  else Build_Io (device s) (world s) (PRIMARY_IDE_WAKERS s) (SECONDARY_IDE_WAKERS s ++ [task]) (result s).
Definition woken s : Io W := with_world s (suspended (world s)).

Lemma wait_poll_early t : 1 < t < 2 ^ 32 -> Futures.wait_poll t = Ok (Pending, t - 1).
Proof. intros Ht. unfold Futures.wait_poll. rewrite usub_ok by lia. rsimpl. by bfalse (t - 1 <=? 0). Qed.
Lemma race_poll_first task t s : 1 < t < 2 ^ 32 -> is_channel (port (device s)) = true ->
  race_poll task (port (device s)) (t, false) s = (Ok (Pending, (t - 1, true)), registered task s).
Proof.
  intros Ht Hc. unfold race_poll. cbn [fst snd]. rewrite wait_poll_early by lia. cbn [from_never map_err]. mstep.
  unfold wait_io_poll, registered, is_channel in *.
  destruct (port (device s) =? PATA_PRIMARY_BASE) eqn:Hp; [done|]. cbn in Hc. by rewrite Hc.
Qed.
Lemma race_poll_second task p t s : 1 < t < 2 ^ 32 -> race_poll task p (t, true) s = (Ok (Ready (inr ()), (t - 1, true)), s).
Proof. intros Ht. unfold race_poll. cbn [fst snd]. by rewrite wait_poll_early. Qed.
Lemma race_twice task t s : 2 < t < 2 ^ 32 -> is_channel (port (device s)) = true ->
  race_await task (port (device s)) (S (S 0)) (t, false) s = (Ok (inr ()), woken (registered task s)).
Proof.
  intros Ht Hc. cbn [race_await]. mrun (race_poll_first task t s ltac:(lia) Hc).
  unfold modify, mbind at 1, M_bind at 1. by mrun (race_poll_second task (port (device s)) (t - 1) (woken (registered task s)) ltac:(lia)).
Qed.
Lemma race_more task p fuel : forall st s r s', race_await task p fuel st s = (Ok r, s') -> race_await task p (S fuel) st s = (Ok r, s').
Proof.
  induction fuel as [|fuel IH]; intros st s r s' Hr; [done|]. cbn [race_await] in Hr.
  change (race_await task p (S (S fuel)) st) with
    (race_poll task p st ≫= (fun q => match q with (Ready x, _) => mret x
      | (Pending, st) => _ ← modify (fun s : Io W => with_world s (suspended (world s))); race_await task p (S fuel) st end)).
  apply M_bind_ok in Hr as ([q st'] & s1 & H1 & Hr). mrun H1. destruct q; [done|].
  unfold mbind, M_bind, modify in *. by apply IH.
Qed.
Lemma wait_io_async_ok task s s1 : status_reads (E:=IoErr) 14 s = (Ok (), s1) -> is_channel (port (device s1)) = true ->
  wait_io_async task s = (Ok (), woken (registered task s1)).
Proof.
  intros Hr Hc. unfold wait_io_async. mrun Hr. unfold Futures.wait_int. rewrite uadd_ok by (unfold WAIT_TICK_TIME; lia).
  cbn [from_never map_err]. do 2 mstep. assert (race_await task (port (device s1)) race_fuel (WAIT_TICK_TIME + 1, false) s1 =
    (Ok (inr ()), woken (registered task s1))) as Hw.
  { change race_fuel with (9 + 2)%nat. cbn [Nat.add]. do 9 apply race_more. apply race_twice; [unfold WAIT_TICK_TIME; lia|done]. }
  mrun Hw. done.
Qed.
End waiting.

(** ** Running against a working drive *)
Section working.
Context `{BB : Build} {W : Type} {HP : Ports W} {base : Z} {HA : Ata W base}.
Implicit Types s : Io W.
Abbreviation D s := (drive base (world s)).
Abbreviation L s := (lag base (world s)).

(** Nothing but the machine changed, and not the drive. *)
Definition same s s' : Prop :=
  device s' = device s /\ result s' = result s /\ D s' = D s.
#[global] Instance same_preorder : PreOrder same.
Proof. split; [by intros s|]. intros s1 s2 s3 (? & ? & ?) (? & ? & ?). split_and!; congruence. Qed.

Lemma status_reading {E} s : at_base (device s) base ->
  exists v s', read8 (E:=E) status_port s = (Ok v, s') /\ same s s' /\ is_byte v /\ L s' = Z.max 0 (L s - 1) /\
    (0 < L s -> Z.testbit v 7 = true) /\
    (L s = 0 -> Z.testbit v 7 = false /\ Z.testbit v 3 = negb (is_idle (D s)) /\ Z.testbit v 0 = false).
Proof.
  intros (_ & _ & _ & _ & _ & _ & _ & Hp & _). unfold read8. rewrite Hp.
  pose proof (in_status (world s)) as Hd. pose proof (status_range (world s)) as Hr.
  pose proof (status_busy (world s)) as Hb. pose proof (status_ready (world s)) as Hz. pose proof (lag_bound (world s)) as Hl.
  destruct (in8 (base + STATUS) (world s)) as [v w]. cbn [fst snd] in *.
  exists v, (with_world s w). split_and!; try done.
  - unfold with_world. cbn [world]. destruct (decide (0 < L s)) as [Hx|Hx]; [apply Hb in Hx; lia|].
    destruct Hz as (_ & _ & _ & ?); lia.
  - intros Hx. destruct (Hb Hx). done.
  - intros Hx. apply Hz in Hx. tauto.
Qed.
Lemma testing {E} bit s : at_base (device s) base -> 0 <= bit < 8 ->
  exists v s', test_status (E:=E) bit s = (Ok (Z.testbit v bit), s') /\ same s s' /\ L s' <= L s /\
    (0 < L s -> Z.testbit v 7 = true /\ L s' < L s) /\
    (L s = 0 -> Z.testbit v 7 = false /\ Z.testbit v 3 = negb (is_idle (D s))).
Proof.
  intros Hb Hbit. destruct (status_reading (E:=E) s Hb) as (v & s' & Hr & Hs & Hv & Hle & Hbusy & Hready).
  pose proof (lag_bound (world s)). exists v, s'. split_and!; [|done|lia|intros; split; [by apply Hbusy|lia]|tauto]. unfold test_status. mrun Hr. unfold is_byte in Hv.
  unfold lift. by rewrite binary_test_ok by lia.
Qed.

(** A loop that polls ends, if its condition holds only of a busy drive; the
    drive is not busy then, if it holds of every busy drive. *)
Definition polls (busy : M (Io W) IoErr bool) s : Prop :=
  exists b s', busy s = (Ok b, s') /\ same s s' /\ L s' <= L s /\ (if b then L s' < L s else L s' = 0).
Lemma poll_settles busy e fuel : forall timer s, (forall s', same s s' -> polls busy s') ->
  0 <= timer -> timer + L s <= WAIT_TIME -> L s < Z.of_nat fuel ->
  exists s', poll_status busy e fuel timer s = (Ok (), s') /\ same s s' /\ L s' = 0.
Proof.
  induction fuel as [|fuel IH]; intros timer s Hp Ht Hl Hf; [pose proof (lag_bound (world s)); lia|].
  cbn [poll_status]. destruct (Hp s) as (b & s' & Hr & Hs & Hle & Hb); [done|]. mrun Hr.
  destruct b; cbn [negb]; [|by exists s'].
  unfold WAIT_TIME in *. pose proof (lag_bound (world s')) as Hl'.
  rewrite uadd_ok by lia. mstep. bfalse (100000 <? timer + 1).
  destruct (IH (timer + 1) s') as (s'' & Hr' & Hs' & Hz); [|lia..|].
  - intros s2 H2. apply Hp. by etransitivity.
  - exists s''. split_and!; [done|by etransitivity|done].
Qed.
Lemma same_base s s' : same s s' -> at_base (device s) base -> at_base (device s') base.
Proof. intros (-> & _). done. Qed.
Lemma poll_fuel_enough s : L s < Z.of_nat poll_fuel.
Proof. pose proof (lag_bound (world s)). unfold poll_fuel, WAIT_TIME in *. lia. Qed.
Lemma wait_init_ok s : at_base (device s) base -> exists s', wait_init s = (Ok (), s') /\ same s s' /\ L s' = 0.
Proof.
  intros Hb. apply poll_settles; [|lia|pose proof (lag_bound (world s)); lia|apply poll_fuel_enough].
  intros s1 H1. destruct (testing (E:=IoErr) 7 s1) as (v & s' & Hr & Hs & Hle & Hx & Hz); [by eapply same_base|lia|].
  exists (Z.testbit v 7), s'. split_and!; [done..|].
  pose proof (lag_bound (world s1)). pose proof (lag_bound (world s')).
  destruct (decide (0 < L s1)) as [Hl|Hl]; [destruct (Hx Hl) as [-> ?]; done|]. destruct Hz as [-> _]; lia.
Qed.
Lemma not_ready_polls s : at_base (device s) base -> is_idle (D s) = false -> polls not_ready s.
Proof.
  intros Hb Hi. unfold polls, not_ready.
  destruct (testing (E:=IoErr) 3 s) as (v & s1 & Hr & Hs & Hle & Hx & Hz); [done|lia|]. mrun Hr.
  pose proof (lag_bound (world s)). pose proof (lag_bound (world s1)).
  destruct (Z.testbit v 3) eqn:Hv; cbn [negb].
  - destruct (testing (E:=IoErr) 7 s1) as (v' & s2 & Hr2 & Hs2 & Hle2 & Hx2 & Hz2); [by eapply same_base|lia|].
    exists (Z.testbit v' 7), s2. split_and!; [done|by etransitivity|lia|]. pose proof (lag_bound (world s2)).
    destruct (decide (0 < L s1)) as [Hl|Hl]; [destruct (Hx2 Hl) as [-> ?]; lia|]. destruct Hz2 as [-> _]; lia.
  - exists true, s1. split_and!; [done..|]. destruct (decide (0 < L s)); [tauto|].
    destruct Hz as [_ Hz]; [lia|]. rewrite Hi in Hz. done.
Qed.
Lemma status_reads_ok {E} n s : at_base (device s) base -> exists s', status_reads (E:=E) n s = (Ok (), s') /\ same s s' /\ L s' = Z.max 0 (L s - Z.of_nat (length (seqZ 0 n))).
Proof.
  unfold status_reads. generalize (seqZ 0 n) as xs. intros xs. revert s.
  induction xs as [|x xs IH]; intros s Hb; [exists s; pose proof (lag_bound (world s)); split_and!; [done..|cbn; lia]|]. cbn [for_each].
  destruct (status_reading (E:=E) s Hb) as (v & s1 & Hr & Hs & _ & Hle & _). rewrite M_assoc. mrun Hr. mstep.
  destruct (IH s1) as (s2 & Hr2 & Hs2 & Hle2); [by eapply same_base|].
  exists s2. split_and!; [done|by etransitivity|cbn [length]; lia].
Qed.
Lemma wait_io_ok s : at_base (device s) base -> is_idle (D s) = false -> exists s', wait_io s = (Ok (), s') /\ same s s' /\ L s' = 0.
Proof.
  intros Hb Hi. unfold wait_io. destruct (status_reads_ok (E:=IoErr) 14 s Hb) as (s1 & Hr & Hs & _). mrun Hr.
  destruct (poll_settles not_ready IOTimeout poll_fuel 0 s1) as (s2 & Hr2 & Hs2 & Hz).
  - intros s3 H3. assert (same s s3) as Hs3 by (by etransitivity). apply not_ready_polls; [by eapply same_base|].
    destruct Hs3 as (_ & _ & ->). done.
  - lia.
  - pose proof (lag_bound (world s1)). lia.
  - apply poll_fuel_enough.
  - exists s2. split_and!; [done|by etransitivity|done].
Qed.
Lemma wait_both_ok task s : at_base (device s) base -> is_channel base = true -> is_idle (D s) = false ->
  exists s', wait_both task s = (Ok (), s') /\ same s s' /\ L s' = 0.
Proof.
  intros Hb Hc Hi. destruct (status_reads_ok (E:=IoErr) 14 s Hb) as (s1 & Hr & Hs & _). unfold wait_both.
  assert (is_channel (port (device s1)) = true) as Hc1 by (destruct (same_base _ _ Hs Hb) as (-> & _); done).
  mrun (wait_io_async_ok task s s1 Hr Hc1). set (s2 := woken _). assert (same s s2) as Hs2.
  { etransitivity; [exact Hs|]. subst s2. unfold same, woken, registered. cbn [world with_world device result].
    destruct (port (device s1) =? PATA_PRIMARY_BASE); cbn [world device result]; by rewrite drive_suspended. }
  destruct (wait_io_ok s2) as (s3 & Hr3 & Hs3 & Hz3); [by eapply same_base|by destruct Hs2 as (_ & _ & ->)|].
  exists s3. split_and!; [done|by etransitivity|done].
Qed.

(** *** Reading *)
Lemma seqZ_S k n : 0 <= n -> seqZ k (n + 1) = k :: seqZ (k + 1) n.
Proof. intros. rewrite seqZ_cons by lia. f_equal; f_equal; lia. Qed.
Lemma with_phase_twice d m1 p1 m2 p2 : with_phase (with_phase d m1 p1) m2 p2 = with_phase d m2 p2.
Proof. done. Qed.
Lemma data_in_cons w ws : data_in (w :: ws) = DataIn (w :: ws).
Proof. done. Qed.
Lemma is_idle_data_in d m w ws : is_idle (with_phase d m (data_in (w :: ws))) = false.
Proof. done. Qed.

(** Within a sector, a drive stays ready. *)
Lemma within_sector a b : 0 < a < 256 -> b mod 256 = 0 -> (a + b) mod 256 <> 0.
Proof. intros Ha Hb. rewrite <- Z.add_mod_idemp_r, Hb, Z.add_0_r, Z.mod_small by lia. lia. Qed.
Lemma read_word {E} s w ws : at_base (device s) base -> L s = 0 -> phase (D s) = DataIn (w :: ws) ->
  exists s', read16 (E:=E) data_port s = (Ok w, s') /\ device s' = device s /\ result s' = result s /\
    D s' = with_phase (D s) (media (D s)) (data_in ws) /\ (zlen ws mod 256 <> 0 -> L s' = 0).
Proof.
  intros (_ & Hp & _) Hz Hph. unfold read16. rewrite Hp. unfold DATA. rewrite Z.add_0_r.
  destruct (in_data (world s) w ws Hz Hph) as (Hv & Hd & Hl). destruct (in16 base (world s)) as [v w']. cbn [fst snd] in *.
  subst v. by exists (with_world s w').
Qed.
Lemma set_result_ok s pre x post y i : result s = pre ++ x :: post -> i = zlen pre ->
  set_result (E:=IoErr) i y s = (Ok (), with_result s (pre ++ y :: post)).
Proof. intros Hr Hi. unfold set_result. mstep. rewrite Hr. rewrite (update_at pre x y post i Hi). by mstep. Qed.

Lemma read_word_at_ok sector k s w ws pre x y old : at_base (device s) base -> L s = 0 -> phase (D s) = DataIn (w :: ws) -> 0 <= w < 2 ^ 16 ->
  result s = pre ++ x :: y :: old -> zlen pre = sector * 512 + k * 2 ->
  exists s', read_word_at sector k s = (Ok (), s') /\ device s' = device s /\ result s' = (pre ++ bytes_of [w]) ++ old /\
    D s' = with_phase (D s) (media (D s)) (data_in ws) /\ (zlen ws mod 256 <> 0 -> L s' = 0).
Proof.
  intros Hb Hz Hph Hw Hres Hpre. destruct (read_word (E:=IoErr) s w ws Hb Hz Hph) as (s1 & Hr1 & Hd1 & Hres1 & HD1 & Hz1). unfold read_word_at. mrun Hr1.
  mrun (set_result_ok s1 pre x (y :: old) (wrap 8 (Z.land w 255)) (sector * 512 + k * 2) ltac:(congruence) ltac:(lia)).
  set (s2 := with_result s1 _).
  rewrite (set_result_ok s2 (pre ++ [wrap 8 (Z.land w 255)]) y old (wrap 8 (Z.land (Z.shiftr w 8) 255)) (sector * 512 + k * 2 + 1)
    ltac:(subst s2; cbn; by rewrite <- app_assoc) ltac:(zlen; lia)).
  eexists. split_and!; [done|done| |done|exact Hz1]. cbn. rewrite byte_field0, byte_field by lia. rewrite <- !app_assoc. cbn. do 3 f_equal.
  apply Z.mod_small. split; [apply Z.div_pos; lia|]. apply Z.div_lt_upper_bound; lia.
Qed.
Lemma read_sector_loop sector ws rest : forall k s pre old, at_base (device s) base ->
  (0 < zlen ws -> L s = 0) -> zlen ws <= 256 -> zlen rest mod 256 = 0 ->
  phase (D s) = data_in (ws ++ rest) -> result s = pre ++ old -> zlen pre = sector * 512 + k * 2 -> 2 * zlen ws <= zlen old ->
  Forall (fun w => 0 <= w < 2 ^ 16) ws ->
  exists s', for_each (seqZ k (zlen ws)) () (fun i _ => read_word_at sector i) s = (Ok (), s') /\ device s' = device s /\
    result s' = pre ++ bytes_of ws ++ drop (2 * length ws) old /\ D s' = with_phase (D s) (media (D s)) (data_in rest).
Proof.
  induction ws as [|w ws IH]; intros k s pre old Hb Hz Hlen Hrest Hph Hres Hpre Hold Hw.
  { exists s. cbn. rewrite drop_0. split_and!; try done. destruct (D s); cbn in *. by rewrite Hph. }
  rewrite zlen_cons, Z.add_comm, seqZ_S by apply zlen_nonneg. cbn [for_each].
  rewrite zlen_cons in *. pose proof (zlen_nonneg ws) as Hn.
  destruct old as [|x [|y old]]; [unfold zlen in *; cbn in *; lia..|].
  apply Forall_cons in Hw as [Hw Hws].
  destruct (read_word_at_ok sector k s w (ws ++ rest) pre x y old) as (s1 & Hr1 & Hd1 & Hres1 & HD1 & Hz1); try done; [apply Hz; lia|]. mrun Hr1.
  destruct (IH (k + 1) s1 (pre ++ bytes_of [w]) old) as (s' & Hr & Hd & Hres' & HD); try done.
  - congruence.
  - intros Hws'. apply Hz1. zlen. apply within_sector; [lia|done].
  - lia.
  - by rewrite HD1.
  - cbn [bytes_of]. zlen. lia.
  - zlen. lia.
  - exists s'. split_and!; [done|congruence| |].
    + rewrite Hres'. cbn [bytes_of length]. replace (2 * S (length ws))%nat with (S (S (2 * length ws))) by lia.
      cbn [drop]. by rewrite <- !app_assoc.
    + by rewrite HD, HD1, with_phase_twice.
Qed.

(** What comes before a sector: it does not disturb the transfer, and the
    drive is ready after it. *)
Definition readies (wait : M (Io W) IoErr ()) : Prop :=
  forall s, at_base (device s) base -> is_idle (D s) = false -> exists s', wait s = (Ok (), s') /\ same s s' /\ L s' = 0.
Lemma read_sectors_loop wait : readies wait -> forall n ws j s pre old, length ws = (256 * n)%nat -> at_base (device s) base ->
  phase (D s) = data_in ws -> result s = pre ++ old -> zlen pre = 512 * j -> 512 * Z.of_nat n <= zlen old ->
  Forall (fun w => 0 <= w < 2 ^ 16) ws ->
  exists s', for_each (seqZ j (Z.of_nat n)) () (fun sector _ => _ ← wait; read_sector sector) s = (Ok (), s') /\
    device s' = device s /\ result s' = pre ++ bytes_of ws ++ drop (512 * n) old /\ D s' = with_phase (D s) (media (D s)) Idle.
Proof.
  intros Hwait. induction n as [|n IH]; intros ws j s pre old Hlen Hb Hph Hres Hpre Hold Hw.
  { destruct ws; [|cbn in Hlen; lia]. exists s. cbn. rewrite drop_0. split_and!; try done. destruct (D s); cbn in *. by rewrite Hph. }
  rewrite Nat2Z.inj_succ, <- Z.add_1_r, seqZ_S by lia. cbn [for_each].
  destruct (Hwait s Hb) as (s1 & Hr1 & (Hd1 & Hres1 & HD1) & Hz1).
  { unfold is_idle. rewrite Hph. destruct ws; [cbn in Hlen; lia|done]. }
  rewrite M_assoc. mrun Hr1. assert (zlen (take 256 ws) = 256) as Hz by (zlen; unfold zlen; lia).
  destruct (read_sector_loop j (take 256 ws) (drop 256 ws) 0 s1 pre old) as (s2 & Hr2 & Hd2 & Hres2 & HD2).
  { by rewrite Hd1. } { done. } { lia. } { unfold zlen. rewrite length_drop, Hlen. replace (256 * S n - 256)%nat with (n * 256)%nat by lia.
    rewrite Nat2Z.inj_mul. apply Z.mod_mul. lia. }
  { by rewrite take_drop, HD1. } { congruence. } { lia. } { lia. } { by apply Forall_take. }
  rewrite Hz in Hr2. fold (read_sector j) in Hr2. mrun Hr2.
  destruct (IH (drop 256 ws) (j + 1) s2 (pre ++ bytes_of (take 256 ws)) (drop 512 old)) as (s3 & Hr3 & Hd3 & Hres3 & HD3).
  - rewrite length_drop. lia.
  - congruence.
  - by rewrite HD2.
  - rewrite Hres2, <- app_assoc. do 3 f_equal. rewrite length_take. lia.
  - zlen. unfold zlen in *. rewrite length_bytes_of, length_take in *. lia.
  - zlen. lia.
  - by apply Forall_drop.
  - exists s3. split_and!; [done|congruence| |].
    + rewrite Hres3, <- app_assoc, drop_drop. f_equal. rewrite app_assoc, <- bytes_of_app, take_drop. do 2 f_equal. lia.
    + rewrite HD3, HD2. rewrite !with_phase_twice. by rewrite HD1.
Qed.

(** *** Commands *)
(** A drive that takes registers and commands *)
Definition takes s : Prop := L s = 0 /\ phase (D s) = Idle.
Lemma reg_write {E} p o v s : takes s -> p (device s) = base + o -> SECTOR_COUNT <= o <= DRIVE ->
  exists s', write8 (E:=E) p v s = (Ok (), s') /\ device s' = device s /\ result s' = result s /\ D s' = write_reg o v (D s) /\ takes s'.
Proof.
  intros [Hz Hi] Hp Ho. unfold write8. rewrite Hp. destruct (out_reg (world s) o v Hz Hi Ho) as [Hd Hl].
  eexists. split_and!; [done..|]. unfold takes. cbn. by rewrite Hd.
Qed.
(** A change of registers only *)
Definition regs_only (d d' : Drive) : Prop := media d' = media d /\ identity d' = identity d /\ phase d' = phase d.
Lemma send_lba48_ok s count lba : at_base (device s) base -> takes s -> 0 <= lba < 2 ^ 48 -> 0 < count < 2 ^ 16 ->
  exists s', send_lba48 count lba s = (Ok (), s') /\ device s' = device s /\ result s' = result s /\
    lba48_of (D s') = lba /\ count48_of (D s') = count /\ selected (D s') = true /\ takes s' /\ regs_only (D s) (D s').
Proof.
  intros (_ & _ & Hc & Hl & Hm & Hh & Hd & _ & _) T0 Hlba Hcount. unfold send_lba48.
  rewrite !byte_field, !byte_field0 by lia.
  destruct (reg_write (E:=IoErr) drive_port DRIVE LBA48 s T0 Hd ltac:(done)) as (s1 & H1 & E1 & R1 & D1 & T1).
  destruct (reg_write (E:=IoErr) sector_count_port SECTOR_COUNT ((count / 2 ^ 8) mod 256) s1 T1 ltac:(congruence) ltac:(done)) as (s2 & H2 & E2 & R2 & D2 & T2).
  destruct (reg_write (E:=IoErr) lba_low_port LBA_LOW ((lba / 2 ^ 24) mod 256) s2 T2 ltac:(congruence) ltac:(done)) as (s3 & H3 & E3 & R3 & D3 & T3).
  destruct (reg_write (E:=IoErr) lba_mid_port LBA_MID ((lba / 2 ^ 32) mod 256) s3 T3 ltac:(congruence) ltac:(done)) as (s4 & H4 & E4 & R4 & D4 & T4).
  destruct (reg_write (E:=IoErr) lba_high_port LBA_HIGH ((lba / 2 ^ 40) mod 256) s4 T4 ltac:(congruence) ltac:(done)) as (s5 & H5 & E5 & R5 & D5 & T5).
  destruct (reg_write (E:=IoErr) sector_count_port SECTOR_COUNT (count mod 256) s5 T5 ltac:(congruence) ltac:(done)) as (s6 & H6 & E6 & R6 & D6 & T6).
  destruct (reg_write (E:=IoErr) lba_low_port LBA_LOW (lba mod 256) s6 T6 ltac:(congruence) ltac:(done)) as (s7 & H7 & E7 & R7 & D7 & T7).
  destruct (reg_write (E:=IoErr) lba_mid_port LBA_MID ((lba / 2 ^ 8) mod 256) s7 T7 ltac:(congruence) ltac:(done)) as (s8 & H8 & E8 & R8 & D8 & T8).
  destruct (reg_write (E:=IoErr) lba_high_port LBA_HIGH ((lba / 2 ^ 16) mod 256) s8 T8 ltac:(congruence) ltac:(done)) as (s9 & H9 & E9 & R9 & D9 & T9).
  mrun H1. mrun H2. mrun H3. mrun H4. mrun H5. mrun H6. mrun H7. mrun H8. exists s9.
  rewrite D9, D8, D7, D6, D5, D4, D3, D2, D1. split_and!; [done|congruence|congruence|..|done|done|done].
  - change (lba48_of _) with (le_num [lba mod 256; (lba / 2 ^ 8) mod 256; (lba / 2 ^ 16) mod 256;
      (lba / 2 ^ 24) mod 256; (lba / 2 ^ 32) mod 256; (lba / 2 ^ 40) mod 256]).
    rewrite <- (le_num_bytes 6 lba) at 7 by exact Hlba. cbn [le_bytes]. by rewrite !Z.div_div by lia.
  - change (count48_of _) with (let n := le_num [count mod 256; (count / 2 ^ 8) mod 256] in if n =? 0 then 65536 else n).
    assert (le_num [count mod 256; (count / 2 ^ 8) mod 256] = count) as ->.
    { rewrite <- (le_num_bytes 2 count) at 3 by (change (256 ^ Z.of_nat 2) with (2 ^ 16); lia). done. }
    cbn zeta. by bfalse (count =? 0).
Qed.
Lemma cmd_write {E} c s d' : at_base (device s) base -> drive base (out8 (base + COMMAND) c (world s)) = d' ->
  exists s', write8 (E:=E) cmd_port c s = (Ok (), s') /\ device s' = device s /\ result s' = result s /\ D s' = d'.
Proof. intros (_ & _ & _ & _ & _ & _ & _ & _ & Hp) Hd. unfold write8. rewrite Hp. by eexists. Qed.
Lemma send_read_ok s count lba : at_base (device s) base -> 0 <= lba < 2 ^ 48 -> 0 < count < 2 ^ 16 -> takes s ->
  exists s', send_read_lba48 count lba s = (Ok (), s') /\ device s' = device s /\ result s' = result s /\
    media (D s') = media (D s) /\ identity (D s') = identity (D s) /\
    phase (D s') = data_in (words_of (sectors (media (D s)) lba count)).
Proof.
  intros Hb Hl Hc Hp. destruct (send_lba48_ok s count lba Hb Hp Hl Hc) as (s1 & H1 & E1 & R1 & L1 & C1 & S1 & [Z1 Hp1] & M1 & I1 & P1).
  unfold send_read_lba48. mrun H1.
  destruct (cmd_write (E:=IoErr) READ_SECTORS_EXT s1 _ ltac:(by rewrite E1) (cmd_read_ext (world s1) Z1 Hp1 S1)) as (s2 & H2 & E2 & R2 & D2).
  exists s2. rewrite D2. split_and!; [done|congruence|congruence|exact M1|exact I1|]. cbn [with_phase phase]. by rewrite ?M1, L1, C1.
Qed.
Lemma send_write_ok s count lba : at_base (device s) base -> 0 <= lba < 2 ^ 48 -> 0 < count < 2 ^ 16 -> takes s ->
  exists s', send_write_lba48 count lba s = (Ok (), s') /\ device s' = device s /\ result s' = result s /\
    media (D s') = media (D s) /\ identity (D s') = identity (D s) /\ phase (D s') = DataOut lba count [].
Proof.
  intros Hb Hl Hc Hp. destruct (send_lba48_ok s count lba Hb Hp Hl Hc) as (s1 & H1 & E1 & R1 & L1 & C1 & S1 & [Z1 Hp1] & M1 & I1 & P1).
  unfold send_write_lba48. mrun H1.
  destruct (cmd_write (E:=IoErr) WRITE_SECTORS_EXT s1 _ ltac:(by rewrite E1) (cmd_write_ext (world s1) Z1 Hp1 S1)) as (s2 & H2 & E2 & R2 & D2).
  exists s2. rewrite D2. split_and!; [done|congruence|congruence|exact M1|exact I1|]. cbn [with_phase phase]. by rewrite ?M1, L1, C1.
Qed.

(** *** Writing *)
Lemma data_out_twice d lba n a b : zlen a <> 256 * n -> data_out (data_out d lba n a) lba n b = data_out d lba n b.
Proof. intros Ha. unfold data_out at 2. by bfalse (zlen a =? 256 * n). Qed.
Lemma data_out_phase d lba n a : zlen a <> 256 * n -> phase (data_out d lba n a) = DataOut lba n a.
Proof. intros Ha. unfold data_out. by bfalse (zlen a =? 256 * n). Qed.
Lemma write_word_at_ok input sector k s d lba n acc lo hi rest : at_base (device s) base -> L s = 0 -> D s = data_out d lba n acc -> zlen acc <> 256 * n ->
  0 <= sector -> 0 <= k -> drop (Z.to_nat (sector * 512 + k * 2)) input = lo :: hi :: rest -> is_byte lo -> is_byte hi ->
  exists s', write_word_at input sector k s = (Ok (), s') /\ device s' = device s /\ result s' = result s /\
    D s' = data_out d lba n (acc ++ words_of [lo; hi]) /\ ((zlen acc + 1) mod 256 <> 0 -> L s' = 0).
Proof.
  intros Hb Hz HD Hacc Hs Hk Hin Hlo Hhi. unfold write_word_at. rewrite (index_drop input (sector * 512 + k * 2 + 1) hi rest); [|lia|].
  2:{ replace (Z.to_nat (sector * 512 + k * 2 + 1)) with (Z.to_nat (sector * 512 + k * 2) + 1)%nat by lia. by rewrite <- drop_drop, Hin. }
  rewrite (index_drop input (sector * 512 + k * 2) lo (hi :: rest)) by (done || lia). do 2 mstep. rewrite word_join by done.
  unfold write16. destruct Hb as (_ & -> & _). unfold DATA. rewrite Z.add_0_r.
  destruct (out_data (world s) (lo + 256 * hi) lba n acc Hz) as [Hd Hl]; [rewrite HD; by apply data_out_phase|].
  eexists. split_and!; [done..| |].
  - cbn [world with_world words_of]. rewrite Hd, HD. by apply data_out_twice.
  - intros Hm. apply Hl. by zlen.
Qed.
Lemma write_sector_loop input sector d lba n m : forall k s acc bs rest, at_base (device s) base -> ((0 < m)%nat -> L s = 0) -> (m <= 256)%nat ->
  D s = data_out d lba n acc -> (zlen acc + Z.of_nat m) mod 256 = 0 -> zlen acc + Z.of_nat m <= 256 * n -> 0 <= sector -> 0 <= k ->
  drop (Z.to_nat (sector * 512 + k * 2)) input = bs ++ rest -> length bs = (2 * m)%nat -> bytes bs ->
  exists s', for_each (seqZ k (Z.of_nat m)) () (fun byte _ => write_word_at input sector byte) s = (Ok (), s') /\
    device s' = device s /\ result s' = result s /\ D s' = data_out d lba n (acc ++ words_of bs).
Proof.
  induction m as [|m IH]; intros k s acc bs rest Hb Hz Hm256 HD Hmod Hacc Hs Hk Hin Hlen Hbs.
  { destruct bs; [|cbn in Hlen; lia]. exists s. cbn. by rewrite app_nil_r. }
  rewrite Nat2Z.inj_succ, <- Z.add_1_r, seqZ_S by lia. cbn [for_each].
  destruct bs as [|lo [|hi bs]]; [cbn in Hlen; lia..|]. cbn [length] in Hlen.
  apply Forall_cons in Hbs as [Hlo Hbs]. apply Forall_cons in Hbs as [Hhi Hbs].
  destruct (write_word_at_ok input sector k s d lba n acc lo hi (bs ++ rest)) as (s1 & H1 & E1 & R1 & D1 & Z1); try done; [apply Hz; lia|lia|].
  mrun H1. destruct (IH (k + 1) s1 (acc ++ words_of [lo; hi]) bs rest) as (s2 & H2 & E2 & R2 & D2); try done; try lia.
  - by rewrite E1.
  - intros Hm. apply Z1. intros H0. apply (within_sector (Z.of_nat m) (zlen acc + 1)); [lia|done|]. rewrite <- Hmod. f_equal. lia.
  - cbn [words_of]. zlen. rewrite <- Hmod. f_equal. lia.
  - cbn [words_of]. zlen. lia.
  - replace (Z.to_nat (sector * 512 + (k + 1) * 2)) with (Z.to_nat (sector * 512 + k * 2) + 2)%nat by lia. by rewrite <- drop_drop, Hin.
  - exists s2. split_and!; [done|congruence..|]. rewrite D2, <- app_assoc. done.
Qed.
Lemma write_sectors_loop wait input d lba n : readies wait -> forall m j s acc bs rest, at_base (device s) base ->
  D s = data_out d lba n acc -> zlen acc = 256 * j -> j + Z.of_nat m <= n -> 0 <= j ->
  drop (Z.to_nat (512 * j)) input = bs ++ rest -> length bs = (512 * m)%nat -> bytes bs ->
  exists s', for_each (seqZ j (Z.of_nat m)) () (fun sector _ => _ ← wait; write_sector input sector) s = (Ok (), s') /\
    device s' = device s /\ result s' = result s /\ D s' = data_out d lba n (acc ++ words_of bs).
Proof.
  intros Hwait. induction m as [|m IH]; intros j s acc bs rest Hb HD Hacc Hjm Hj Hin Hlen Hbs.
  { destruct bs; [|cbn in Hlen; lia]. exists s. cbn. by rewrite app_nil_r. }
  rewrite Nat2Z.inj_succ, <- Z.add_1_r, seqZ_S by lia. cbn [for_each].
  destruct (Hwait s Hb) as (s1 & H1 & (E1 & R1 & D1) & Z1); [unfold is_idle; rewrite HD, data_out_phase by lia; done|].
  rewrite M_assoc. mrun H1. rewrite <- (take_drop 512 bs), <- app_assoc in Hin.
  destruct (write_sector_loop input j d lba n 256 0 s1 acc (take 512 bs) (drop 512 bs ++ rest)) as (s2 & H2 & E2 & R2 & D2); try done; try lia.
  { by rewrite E1. } { congruence. } { rewrite Hacc. change (Z.of_nat 256) with 256. replace (256 * j + 256) with ((j + 1) * 256) by lia. apply Z.mod_mul. lia. }
  { rewrite <- Hin. f_equal. lia. } { rewrite length_take. lia. } { by apply Forall_take. }
  change (Z.of_nat 256) with 256 in H2. fold (write_sector input j) in H2. mrun H2.
  assert (length (words_of (take 512 bs)) = 256)%nat as Hw
    by (apply (words_of_spec 256); [rewrite length_take; lia|by apply Forall_take]).
  destruct (IH (j + 1) s2 (acc ++ words_of (take 512 bs)) (drop 512 bs) rest) as (s3 & H3 & E3 & R3 & D3); try done; try lia.
  - rewrite E2. by rewrite E1.
  - zlen. unfold zlen in *. lia.
  - replace (Z.to_nat (512 * (j + 1))) with (Z.to_nat (512 * j) + 512)%nat by lia. rewrite <- drop_drop, Hin.
    rewrite drop_app_length' by (rewrite length_take; lia). done.
  - rewrite length_drop. lia.
  - by apply Forall_drop.
  - exists s3. split_and!; [done|congruence..|]. rewrite D3, <- app_assoc. do 2 f_equal.
    rewrite <- (words_of_app 256) by (rewrite length_take; lia). by rewrite take_drop.
Qed.

(** *** Whole requests *)
(** An identified drive with 48-bit addresses that is not in a transfer *)
Definition usable s : Prop :=
  at_base (device s) base /\ identified (device s) = true /\ lba48_supported (device s) = true /\ bytes (media (D s)) /\
  phase (D s) = Idle /\ 512 * lba48_sector_count (device s) <= zlen (media (D s)) /\ 0 <= lba48_sector_count (device s) <= 2 ^ 48.
Lemma io_init_ok s index count : usable s -> 0 <= index -> 0 <= count -> index + count <= lba48_sector_count (device s) ->
  exists s', io_init index count s = (Ok index, s') /\ same s s' /\ takes s'.
Proof.
  intros (Hb & Hi & Hs & _ & Hp & _ & Hm) Hx Hc Hr. unfold io_init. mstep. rewrite Hi. cbn [negb]. unfold get_lba.
  bfalse (index <? 0). cbn [from_never map_err mret res_ret]. mstep. unfold verify_lba. rewrite uadd_ok by lia. rsimpl. rewrite Hs.
  bfalse (lba48_sector_count (device s) <? index + count). change (mret (M:=res IoErr) ()) with (Ok (E:=IoErr) ()). mstep. destruct (wait_init_ok s Hb) as (s' & H1 & H2 & H3). mrun H1.
  exists s'. split_and!; [done..|]. split; [done|]. destruct H2 as (_ & _ & ->). done.
Qed.
Lemma usable_after s s' m : usable s -> device s' = device s -> bytes m -> zlen m = zlen (media (D s)) -> media (D s') = m ->
  phase (D s') = Idle -> usable s'.
Proof. unfold usable. intros (Hb & Hi & Hs & Hm & Hp & Hl & Hr) -> Hm' Hz -> ->. split_and!; try done; lia. Qed.
Lemma zlen_sectors m lba n : 0 <= lba -> 0 <= n -> 512 * (lba + n) <= zlen m -> length (sectors m lba n) = (512 * Z.to_nat n)%nat.
Proof. unfold zlen, sectors. intros. rewrite length_take, length_drop. lia. Qed.

(** *** Identification *)
Definition words16 : list Z -> Prop := Forall (fun w => 0 <= w < 2 ^ 16).
(** The number of sectors, and whether there are 48-bit addresses, in the 256 words a drive identifies itself with *)
Definition word_at (ws : list Z) (i : nat) : Z := default 0 (ws !! i).
Definition sectors_in (ws : list Z) : Z := word_at ws 100 + 2 ^ 16 * word_at ws 101 + 2 ^ 32 * word_at ws 102 + 2 ^ 48 * word_at ws 103.

Lemma read_words_loop ws : forall k s pre old, at_base (device s) base -> (0 < zlen ws -> L s = 0) -> zlen ws <= 256 -> phase (D s) = data_in ws -> zlen pre = k -> length old = length ws ->
  exists s', for_each (seqZ k (zlen ws)) (pre ++ old) (fun i buf => v ← read16 (E:=PataIdentErr) data_port; lift (update buf i v)) s = (Ok (pre ++ ws), s') /\
    device s' = device s /\ result s' = result s /\ D s' = with_phase (D s) (media (D s)) Idle.
Proof.
  induction ws as [|w ws IH]; intros k s pre old Hb Hz Hn Hp Hk Ho.
  { destruct old; [|done]. exists s. split_and!; try done. destruct (D s); cbn in *. by rewrite Hp. }
  rewrite zlen_cons in *. pose proof (zlen_nonneg ws) as Hn0. rewrite Z.add_comm, seqZ_S by done. cbn [for_each]. destruct old as [|x old]; [done|].
  destruct (read_word (E:=PataIdentErr) s w ws Hb (Hz ltac:(lia)) Hp) as (s1 & H1 & E1 & R1 & D1 & Z1). rewrite M_assoc. mrun H1.
  rewrite update_at by done. mstep. rewrite (cons_middle w pre old).
  destruct (IH (k + 1) s1 (pre ++ [w]) old) as (s2 & H2 & E2 & R2 & D2); [by rewrite E1|intros; apply Z1; rewrite Z.mod_small; lia|lia|by rewrite D1|zlen; lia|cbn in Ho; lia|].
  exists s2. rewrite <- app_assoc in H2. cbn [app] in *. rewrite <- (app_assoc pre [w] ws) in H2. split_and!; [done|congruence..|]. by rewrite D2, D1.
Qed.
Lemma read_identify_ok d ws : length ws = 256%nat -> words16 ws -> sectors_in ws < 2 ^ 55 ->
  exists d', read_identify_buffer d ws = Ok d' /\ (forall b, at_base d b -> at_base d' b) /\ identified d' = true /\
    lba48_supported d' = Z.testbit (word_at ws 83) 10 || lba48_supported d /\ lba48_sector_count d' = sectors_in ws /\
    lba28_sector_count d' = word_at ws 60 + 2 ^ 16 * word_at ws 61 /\ sectors_per_track d' = word_at ws 6.
Proof.
  intros Hl Hw Hs. assert (forall i, 0 <= i < 256 -> word ws i = Ok (word_at ws (Z.to_nat i)) /\ 0 <= word_at ws (Z.to_nat i) < 2 ^ 16) as Hword.
  { intros i Hi. destruct (lookup_lt_is_Some_2 ws (Z.to_nat i)) as [x Hx]; [lia|]. unfold word, word_at. rewrite Hx. cbn [default].
    split; [by apply index_ok; [lia|]|]. by eapply Forall_lookup_1 in Hw. }
  unfold read_identify_buffer.
  destruct (Hword 83) as [-> W83]; [lia|]. destruct (Hword 6) as [-> W6]; [lia|]. destruct (Hword 61) as [-> W61]; [lia|].
  destruct (Hword 60) as [-> W60]; [lia|]. destruct (Hword 103) as [-> W103]; [lia|]. destruct (Hword 102) as [-> W102]; [lia|].
  destruct (Hword 101) as [-> W101]; [lia|]. destruct (Hword 100) as [-> W100]; [lia|]. rsimpl. rewrite binary_test_ok by lia. rsimpl.
  ev (Z.to_nat 83). ev (Z.to_nat 6). ev (Z.to_nat 61). ev (Z.to_nat 60).
  ev_in (Z.to_nat 61) W61. ev_in (Z.to_nat 60) W60.
  unfold sectors_in in *. ev (Z.to_nat 100). ev (Z.to_nat 101). ev (Z.to_nat 102). ev (Z.to_nat 103).
  ev_in (Z.to_nat 100) W100. ev_in (Z.to_nat 101) W101. ev_in (Z.to_nat 102) W102. ev_in (Z.to_nat 103) W103.
  set (w100 := word_at ws 100) in *. set (w101 := word_at ws 101) in *. set (w102 := word_at ws 102) in *. set (w103 := word_at ws 103) in *.
  set (w60 := word_at ws 60) in *. set (w61 := word_at ws 61) in *.
  assert (Z.lor (Z.lor (Z.lor (wrap 64 (Z.shiftl w103 48)) (wrap 64 (Z.shiftl w102 32))) (wrap 64 (Z.shiftl w101 16))) w100 =
    w100 + 2 ^ 16 * w101 + 2 ^ 32 * w102 + 2 ^ 48 * w103) as ->.
  { rewrite !wrap_small by (rewrite Z.shiftl_mul_pow2 by lia; lia).
    rewrite (Z.lor_comm (Z.shiftl w103 48)), (lor_shiftl_add 48 (Z.shiftl w102 32)) by (rewrite ?Z.shiftl_mul_pow2 by lia; lia).
    replace (Z.shiftl w102 32 + 2 ^ 48 * w103) with (Z.shiftl (w102 + 2 ^ 16 * w103) 32) by (rewrite !Z.shiftl_mul_pow2 by lia; lia).
    rewrite Z.lor_comm, (Z.lor_comm (Z.shiftl _ 32)), (lor_shiftl_add 32 (Z.shiftl w101 16)) by (rewrite ?Z.shiftl_mul_pow2 by lia; lia).
    replace (Z.shiftl w101 16 + 2 ^ 32 * (w102 + 2 ^ 16 * w103)) with (Z.shiftl (w101 + 2 ^ 16 * w102 + 2 ^ 32 * w103) 16)
      by (rewrite !Z.shiftl_mul_pow2 by lia; lia).
    rewrite lor_shiftl_add by lia. lia. }
  rewrite wrap_small by (rewrite Z.shiftl_mul_pow2 by lia; lia). rewrite (Z.lor_comm (Z.shiftl w61 16)), lor_shiftl_add by lia.
  cbn [lba48_supported lba48_sector_count lba28_sector_count].
  destruct (_ || _) eqn:Hb; rewrite umul_ok by lia; rsimpl; eexists; split_and!; try done.
Qed.

Lemma read8_run {E} p o s v w : p (device s) = base + o -> in8 (base + o) (world s) = (v, w) -> read8 (E:=E) p s = (Ok v, with_world s w).
Proof. intros Hp Hr. unfold read8. by rewrite Hp, Hr. Qed.
(** The drive is done with the command when it is first asked for its registers. *)
Lemma identify_poll_ok fuel s : at_base (device s) base -> L s = 0 -> is_idle (D s) = false -> fst (r_mid (D s)) = 0 -> fst (r_high (D s)) = 0 ->
  exists s', identify_poll (S fuel) 0 s = (Ok (), s') /\ same s s' /\ L s' = 0.
Proof.
  intros Hb Hl Hi Hm Hh. pose proof Hb as (_ & _ & _ & _ & Pm & Ph & _). cbn [identify_poll]. rewrite snum_ok by lia. mstep.
  destruct (in_mid (world s) Hl) as (V1 & D1 & L1).
  destruct (in8 (base + LBA_MID) (world s)) as [mid w1] eqn:Hr1. mrun (read8_run (E:=PataIdentErr) lba_mid_port LBA_MID s mid w1 Pm Hr1). cbn [fst snd] in *. set (s1 := with_world s w1).
  destruct (in_high (world s1) L1) as (V2 & D2 & L2).
  destruct (in8 (base + LBA_HIGH) (world s1)) as [high w2] eqn:Hr2.
  mrun (read8_run (E:=PataIdentErr) lba_high_port LBA_HIGH s1 high w2 Ph Hr2). cbn [fst snd] in *. set (s2 := with_world s1 w2). subst mid high.
  change (world s1) with w1 in *. rewrite D1, Hm, Hh. cbn [Z.eqb negb orb].
  assert (same s s2) as Hs2 by (split_and!; [done|done|cbn; congruence]).
  destruct (status_reading (E:=PataIdentErr) s2) as (v & s3 & H3 & Hs3 & Hv & L3 & _ & Hz); [by eapply same_base|]. mrun H3.
  destruct Hz as (_ & H_3 & H_0); [done|]. destruct Hs2 as (E2 & R2 & D2'). rewrite D2', Hi in H_3. cbn [negb] in H_3.
  assert (Z.land v 1 = 0) as ->.
  { change 1 with (Z.ones 1). rewrite Z.land_ones by lia. change (2 ^ 1) with 2. rewrite <- Z.bit0_mod, H_0. done. }
  assert (Z.land v 8 = 8) as ->.
  { change 8 with (Z.shiftl 1 3). apply Z.bits_inj_iff. intros j. rewrite Z.land_spec, shiftl1_testbit by lia.
    destruct (Z.eqb_spec 3 j) as [<-|]; [by rewrite H_3|apply andb_false_r]. }
  cbn [Z.eqb Pos.eqb]. exists s3. split_and!; [done|etransitivity; [|exact Hs3]; done|]. rewrite L3. change (world s2) with w2. lia.
Qed.
Lemma identify_ok s fuel : at_base (device s) base -> takes s -> length (identity (D s)) = 256%nat -> words16 (identity (D s)) ->
  sectors_in (identity (D s)) < 2 ^ 55 -> (forall w, lag base w <= 15) ->
  exists s', identify (S fuel) s = (Ok (), s') /\ result s' = result s /\ at_base (device s') base /\ media (D s') = media (D s) /\
    phase (D s') = Idle /\ read_identify_buffer (device s) (identity (D s)) = Ok (device s').
Proof.
  intros Hb T0 Hl Hw Hs Hfast. pose proof Hb as (_ & _ & Hc & Hlo & Hm & Hh & Hd & _ & _). unfold identify.
  destruct (reg_write (E:=PataIdentErr) drive_port DRIVE START_IDENTIFY s T0 Hd ltac:(done)) as (s1 & H1 & E1 & R1 & D1 & T1).
  destruct (reg_write (E:=PataIdentErr) sector_count_port SECTOR_COUNT 0 s1 T1 ltac:(congruence) ltac:(done)) as (s2 & H2 & E2 & R2 & D2 & T2).
  destruct (reg_write (E:=PataIdentErr) lba_low_port LBA_LOW 0 s2 T2 ltac:(congruence) ltac:(done)) as (s3 & H3 & E3 & R3 & D3 & T3).
  destruct (reg_write (E:=PataIdentErr) lba_mid_port LBA_MID 0 s3 T3 ltac:(congruence) ltac:(done)) as (s4 & H4 & E4 & R4 & D4 & T4).
  destruct (reg_write (E:=PataIdentErr) lba_high_port LBA_HIGH 0 s4 T4 ltac:(congruence) ltac:(done)) as (s5 & H5 & E5 & R5 & D5 & T5).
  mrun H1. mrun H2. mrun H3. mrun H4. mrun H5.
  assert (at_base (device s5) base) as Hb5 by (replace (device s5) with (device s) by congruence; done).
  assert (fst (r_mid (D s5)) = 0 /\ fst (r_high (D s5)) = 0 /\ regs_only (D s) (D s5)) as (M5 & H5' & RM & RI & RP)
    by (rewrite D5, D4, D3, D2, D1; done). clear D1 D2 D3 D4 D5.
  destruct T5 as [Z5 P5].
  destruct (cmd_write (E:=PataIdentErr) IDENTITY s5 _ Hb5 (cmd_identify (world s5) Z5 P5)) as (s6 & H6 & E6 & R6 & D6). mrun H6.
  assert (at_base (device s6) base) as Hb6 by (by rewrite E6).
  assert (exists x ws, identity (D s) = x :: ws) as (x & ws & Hx) by (destruct (identity (D s)); [done|eauto]).
  assert (is_idle (D s6) = false) as I6 by (rewrite D6; unfold is_idle; cbn; by rewrite RI, Hx).
  destruct (status_reading (E:=PataIdentErr) s6 Hb6) as (v & s7 & H7 & S7 & _ & L7 & B7 & Z7). mrun H7.
  replace (v =? 0) with false.
  2:{ symmetry. apply Z.eqb_neq. intros ->. pose proof (lag_bound (world s6)). destruct (decide (0 < L s6)) as [Hz|Hz].
      - specialize (B7 Hz). done. - destruct Z7 as (_ & Z7 & _); [lia|]. by rewrite I6 in Z7. }
  destruct (status_reads_ok (E:=PataIdentErr) 14 s7) as (s8 & H8 & S8 & L8); [by eapply same_base|]. mrun H8.
  assert (same s6 s8) as S68 by (by etransitivity). assert (D s8 = D s6) as D8 by apply S68.
  pose proof (Hfast (world s6)). ev_in (length (seqZ 0 14)) L8.
  destruct (identify_poll_ok fuel s8) as (s9 & H9 & S9 & Z9); [by eapply same_base|lia|by rewrite D8|by rewrite D8, D6|by rewrite D8, D6|].
  mrun H9. assert (same s6 s9) as S69 by (by etransitivity). destruct S69 as (E9 & R9 & D9).
  destruct (read_words_loop (identity (D s)) 0 s9 [] (replicate 256 0)) as (s10 & H10 & E10 & R10 & D10).
  { by rewrite E9. } { done. } { unfold zlen. lia. } { rewrite D9, D6, RI. done. } { done. } { by rewrite length_replicate. }
  replace (zlen (identity (D s))) with 256 in H10 by (unfold zlen; lia). fold (@read_words W HP) in H10. mrun H10. mstep.
  assert (device s10 = device s) as E100 by congruence. rewrite E100.
  destruct (read_identify_ok (device s) (identity (D s)) Hl Hw Hs) as (d' & Hd' & Hat & _). cbn [app]. rewrite Hd'.
  cbn [from_never map_err]. mstep.
  eexists. split; [done|]. cbn [with_device result device world]. split_and!; [congruence|by apply Hat| | |done].
  - rewrite D10. cbn. rewrite D9, D6. exact RM.
  - by rewrite D10.
Qed.

Section request.
Context (wait : M (Io W) IoErr ()) (Hwait : readies wait).
Lemma read_request s index count : usable s -> 0 <= index -> 0 < count < 2 ^ 16 ->
  index + count <= lba48_sector_count (device s) -> 512 * count <= zlen (result s) ->
  exists s', (lba ← io_init index count; d ← gets device;
      _ ← (if lba48_supported d then send_read_lba48 count lba else send_read_lba28 count lba); read_sectors wait count) s = (Ok (), s') /\
    usable s' /\ device s' = device s /\ media (D s') = media (D s) /\
    result s' = sectors (media (D s)) index count ++ drop (Z.to_nat (512 * count)) (result s).
Proof.
  intros Hu Hi Hc Hr Hl. destruct (io_init_ok s index count) as (s1 & H1 & (E1 & R1 & D1) & T1); [done|lia..|]. mrun H1. mstep.
  destruct Hu as (Hb & Hid & H48 & Hm & Hp & Hlen & Hmax). rewrite E1, H48.
  destruct (send_read_ok s1 count index) as (s2 & H2 & E2 & R2 & M2 & _ & P2); [by rewrite E1|lia..|done|]. mrun H2.
  unfold read_sectors. mstep. rewrite R2, R1. bfalse (zlen (result s) <? count * 512). rewrite D1 in *.
  pose proof (zlen_sectors (media (D s)) index count ltac:(lia) ltac:(lia) ltac:(lia)) as Hzs.
  destruct (words_of_spec (256 * Z.to_nat count) (sectors (media (D s)) index count)) as (W1 & W2 & W3);
    [lia|by apply Forall_take, Forall_drop|].
  destruct (read_sectors_loop wait Hwait (Z.to_nat count) (words_of (sectors (media (D s)) index count)) 0 s2 [] (result s))
    as (s3 & H3 & E3 & R3 & D3); try done; [rewrite E2; by rewrite E1|cbn; congruence|lia|].
  rewrite Z2Nat.id in H3 by lia. exists s3. split; [exact H3|].
  assert (media (D s3) = media (D s)) as HM by (rewrite D3; cbn; congruence). split_and!; [|congruence|done|].
  - eapply (usable_after s s3 (media (D s))); try done; [congruence|by rewrite D3].
  - rewrite R3, W2. cbn [app]. do 2 f_equal. lia.
Qed.
(** A write up to its flush *)
Definition before_flush (index count : Z) (input : list Z) : M (Io W) IoErr () :=
  needed ← lift (umul 16 count SECTOR_SIZE);
  if zlen input <? needed then throw InputTooSmall else
  lba ← io_init index count;
  d ← gets device;
  _ ← (if lba48_supported d then send_write_lba48 count lba else send_write_lba28 count lba);
  write_sectors wait count input.
Lemma write_request s index count input : usable s -> 0 <= index -> 0 < count < 128 ->
  index + count <= lba48_sector_count (device s) -> 512 * count <= zlen input -> bytes input ->
  exists s1, before_flush index count input s = (Ok (), s1) /\
    usable s1 /\ device s1 = device s /\ result s1 = result s /\
    media (D s1) = store (media (D s)) index (take (Z.to_nat (512 * count)) input).
Proof.
  intros Hu Hi Hc Hr Hl Hin. pose proof Hu as Hu'. unfold before_flush, SECTOR_SIZE. rewrite umul_ok by lia. mstep. bfalse (zlen input <? count * 512).
  destruct (io_init_ok s index count) as (s1 & H1 & (E1 & R1 & D1) & T1); [done|lia..|]. mrun H1. mstep.
  destruct Hu as (Hb & Hid & H48 & Hm & Hp & Hlen & Hmax). rewrite E1, H48.
  destruct (send_write_ok s1 count index) as (s2 & H2 & E2 & R2 & M2 & _ & P2); [by rewrite E1|lia..|done|]. mrun H2.
  set (bs := take (Z.to_nat (512 * count)) input). assert (length bs = 512 * Z.to_nat count)%nat as Hbs
    by (subst bs; rewrite length_take; unfold zlen in *; lia).
  assert (bytes bs) as Hbb by (by apply Forall_take).
  destruct (words_of_spec (256 * Z.to_nat count) bs) as (W1 & W2 & _); [lia|done|].
  destruct (write_sectors_loop wait input (D s2) index count Hwait (Z.to_nat count) 0 s2 [] bs (drop (Z.to_nat (512 * count)) input))
    as (s3 & H3 & E3 & R3 & D3); try done; try lia.
  { rewrite E2. by rewrite E1. }
  { unfold data_out. rewrite zlen_nil; bfalse (0 =? 256 * count). destruct (D s2); cbn in *. by rewrite P2. }
  { subst bs. by rewrite take_drop. }
  rewrite Z2Nat.id in H3 by lia. unfold write_sectors. rewrite H3. cbn [app] in D3. unfold data_out in D3.
  replace (zlen (words_of bs) =? 256 * count) with true in D3 by (symmetry; unfold zlen; lia). rewrite W2, M2, D1 in D3.
  exists s3. assert (media (D s3) = store (media (D s)) index bs) as HM by (by rewrite D3).
  split_and!; [done| |congruence..|done]. eapply (usable_after s s3); [done|congruence| | |exact HM|by rewrite D3].
  - unfold store. apply Forall_app. split; [by apply Forall_take|]. apply Forall_app. split; [done|by apply Forall_drop].
  - unfold store. zlen. unfold zlen in *. lia.
Qed.
End request.

(** The flush is sent without a wait, so that the drive may still be busy
    with the last sector. *)
Definition ignores_flush : Prop :=
  forall w, 0 < lag base w -> phase (drive base w) = Idle -> drive base (out8 (base + COMMAND) FLUSH_CACHE w) = drive base w.
Lemma flush_ok s : at_base (device s) base -> phase (D s) = Idle ->
  exists s', flush_cache s = (Ok (), s') /\ device s' = device s /\ result s' = result s /\
    (L s = 0 \/ ignores_flush -> D s' = D s).
Proof.
  intros Hb Hp. unfold flush_cache. destruct (cmd_write (E:=IoErr) FLUSH_CACHE s _ Hb eq_refl) as (s1 & H1 & E1 & R1 & D1). mrun H1.
  destruct (wait_init_ok s1) as (s2 & H2 & (E2 & R2 & D2) & _); [by rewrite E1|]. exists s2. split_and!; [done|congruence..|].
  intros Hf. rewrite D2, D1. destruct (decide (L s = 0)) as [Hz|Hz]; [by apply cmd_flush|]. destruct Hf as [Hf|Hf]; [done|].
  apply Hf; [|done]. pose proof (lag_bound (world s)). lia.
Qed.
Lemma write_then_flush (wait : M (Io W) IoErr ()) index count input s s1 : before_flush wait index count input s = (Ok (), s1) ->
  (needed ← lift (umul 16 count SECTOR_SIZE);
   if zlen input <? needed then throw InputTooSmall else
   lba ← io_init index count; d ← gets device;
   _ ← (if lba48_supported d then send_write_lba48 count lba else send_write_lba28 count lba);
   _ ← write_sectors wait count input; flush_cache) s = flush_cache s1.
Proof.
  unfold before_flush. intros H1. apply M_bind_ok in H1 as (n & s2 & H2 & H1). mrun H2. destruct (zlen input <? n); [done|].
  apply M_bind_ok in H1 as (lba & s3 & H3 & H1). mrun H3. apply M_bind_ok in H1 as (d & s4 & H4 & H1). mrun H4.
  apply M_bind_ok in H1 as ([] & s5 & H5 & H1). mrun H5. by mrun H1.
Qed.
End working.

(** ** Every request returns, on any machine *)
Section returning.
Context `{BB : Build} {W : Type} {HP : Ports W}.
Implicit Types s : Io W.
Lemma no_hang_loop {E A} (xs : list A) (f : A -> () -> M (Io W) E ()) : (forall x, no_hang (f x ())) -> no_hang (for_each xs () f).
Proof. intros Hf. induction xs as [|x xs IH]; cbn [for_each]; [done|]. apply no_hang_bind; [done|]. by intros []. Qed.
Lemma no_hang_read8 {E} p : no_hang (read8 (W:=W) (E:=E) p).
Proof. intros s. unfold read8. by destruct (in8 _ _). Qed.
Lemma no_hang_read16 {E} p : no_hang (read16 (W:=W) (E:=E) p).
Proof. intros s. unfold read16. by destruct (in16 _ _). Qed.
Lemma no_hang_modify {E} f : no_hang (modify (S:=Io W) (E:=E) f).
Proof. done. Qed.
Lemma no_hang_write8 {E} p v : no_hang (write8 (W:=W) (E:=E) p v).
Proof. done. Qed.
Lemma no_hang_write16 {E} p v : no_hang (write16 (W:=W) (E:=E) p v).
Proof. done. Qed.
Lemma returns_from_never {E A} (m : res never A) : returns m -> returns (from_never (E:=E) m).
Proof. apply returns_map_err. Qed.
Hint Resolve no_hang_loop no_hang_read8 no_hang_read16 no_hang_modify no_hang_write8 no_hang_write16 returns_from_never : nohang.

Lemma no_hang_test {E} bit : no_hang (test_status (W:=W) (E:=E) bit).
Proof. unfold test_status, from_never, binary_test. nohang. Qed.
Lemma no_hang_status_reads {E} n : no_hang (status_reads (W:=W) (E:=E) n).
Proof. apply no_hang_loop. nohang. Qed.
Hint Resolve no_hang_test no_hang_status_reads : nohang.
Lemma poll_returns busy e fuel : no_hang busy -> forall timer, 0 <= timer -> WAIT_TIME < timer + Z.of_nat fuel -> timer <= WAIT_TIME ->
  no_hang (poll_status (W:=W) busy e fuel timer).
Proof.
  intros Hb. induction fuel as [|fuel IH]; intros timer Ht Hf Hle; [lia|]. cbn [poll_status].
  apply no_hang_bind; [done|]. intros []; cbn [negb]; [|done]. unfold WAIT_TIME in *. rewrite uadd_ok by lia.
  intros s. mstep. destruct (Z.ltb_spec 100000 (timer + 1)); [done|]. apply IH; lia.
Qed.
Lemma poll_fuel_returns busy e : no_hang busy -> no_hang (poll_status (W:=W) busy e poll_fuel 0).
Proof. intros Hb. unfold poll_fuel, WAIT_TIME. apply poll_returns; unfold WAIT_TIME; [done|lia..]. Qed.
Lemma wait_init_returns : no_hang (wait_init (W:=W)).
Proof. apply poll_fuel_returns. nohang. Qed.
Lemma wait_io_returns : no_hang (wait_io (W:=W)).
Proof. unfold wait_io. apply no_hang_bind; [nohang|]. intros _. apply poll_fuel_returns. unfold not_ready. nohang. Qed.
(** The statuses can always be read. *)
Lemma status_reads_run {E} n s : exists s', status_reads (E:=E) n s = (Ok (), s') /\ device s' = device s.
Proof.
  unfold status_reads. generalize (seqZ 0 n) as xs. intros xs. revert s. induction xs as [|x xs IH]; intros s; [by exists s|].
  cbn [for_each]. rewrite M_assoc. destruct (in8 (status_port (device s)) (world s)) as [v w] eqn:Hr.
  assert (read8 (E:=E) status_port s = (Ok v, with_world s w)) as H1 by (unfold read8; by rewrite Hr). mrun H1. mstep. apply (IH (with_world s w)).
Qed.
Lemma wait_io_async_stops task s s1 : status_reads (E:=IoErr) 14 s = (Ok (), s1) -> is_channel (port (device s1)) = false ->
  (wait_io_async task s).1 = Panic.
Proof.
  intros Hr Hc. unfold wait_io_async. mrun Hr. unfold Futures.wait_int. rewrite uadd_ok by (unfold WAIT_TICK_TIME; lia).
  cbn [from_never map_err]. do 2 mstep. unfold is_channel in Hc. apply orb_false_iff in Hc as [H1 H2].
  assert (race_await task (port (device s1)) race_fuel (WAIT_TICK_TIME + 1, false) s1 = (Panic, s1)) as Hp.
  { assert (race_poll task (port (device s1)) (WAIT_TICK_TIME + 1, false) s1 = (Panic, s1)) as H3.
    - unfold race_poll. cbn [fst snd]. rewrite wait_poll_early by (unfold WAIT_TICK_TIME; lia). cbn [from_never map_err]. mstep.
      unfold wait_io_poll. by rewrite H1, H2.
    - change race_fuel with (S 10). cbn [race_await]. unfold mbind at 1, M_bind at 1. by rewrite H3. }
  unfold mbind, M_bind. by rewrite Hp.
Qed.
Lemma wait_io_async_returns task : no_hang (wait_io_async (W:=W) task).
Proof.
  intros s. destruct (status_reads_run (E:=IoErr) 14 s) as (s1 & Hr & _). destruct (is_channel (port (device s1))) eqn:Hc.
  - by rewrite (wait_io_async_ok task s s1).
  - unfold returns. by rewrite (wait_io_async_stops task s s1).
Qed.
Hint Resolve wait_init_returns wait_io_returns wait_io_async_returns : nohang.
Lemma io_init_returns index count : no_hang (io_init (W:=W) index count).
Proof. unfold io_init, from_never, get_lba, verify_lba, uadd, usub. nohang. Qed.
Lemma set_result_returns i v : no_hang (set_result (W:=W) (E:=IoErr) i v).
Proof. unfold set_result. nohang. Qed.
Lemma read_word_returns sector i : no_hang (read_word_at (W:=W) sector i).
Proof.
  unfold read_word_at. apply no_hang_bind; [apply no_hang_read16|]. intros v. cbn zeta.
  apply no_hang_bind; [|intros _]; apply set_result_returns.
Qed.
Lemma read_sectors_returns wait count : no_hang wait -> no_hang (read_sectors (W:=W) wait count).
Proof.
  intros Hw. unfold read_sectors. apply no_hang_bind; [done|]. intros r. destruct (_ <? _); [done|]. apply no_hang_loop. intros j.
  apply no_hang_bind; [done|]. intros _. apply no_hang_loop. intros i. apply read_word_returns.
Qed.
Lemma write_word_returns input sector i : no_hang (write_word_at (W:=W) input sector i).
Proof. unfold write_word_at. do 2 (apply no_hang_bind; [apply no_hang_lift, returns_index|intros ?]). apply no_hang_write16. Qed.
Lemma write_sectors_returns wait count input : no_hang wait -> no_hang (write_sectors (W:=W) wait count input).
Proof.
  intros Hw. apply no_hang_loop. intros j. apply no_hang_bind; [done|]. intros _. apply no_hang_loop. intros i. apply write_word_returns.
Qed.
Lemma flush_returns : no_hang (flush_cache (W:=W)).
Proof. unfold flush_cache. nohang. Qed.
Lemma send_lba28_returns count lba c : no_hang (_ ← send_lba28 (W:=W) count lba; write8 cmd_port c).
Proof. unfold send_lba28. repeat (apply no_hang_bind; [|intros ?]); apply no_hang_write8. Qed.
Lemma send_lba48_returns count lba c : no_hang (_ ← send_lba48 (W:=W) count lba; write8 cmd_port c).
Proof. unfold send_lba48. repeat (apply no_hang_bind; [|intros ?]); apply no_hang_write8. Qed.
Lemma wait_both_returns task : no_hang (wait_both (W:=W) task).
Proof. unfold wait_both. nohang. Qed.
Hint Resolve send_lba28_returns send_lba48_returns wait_both_returns io_init_returns read_sectors_returns write_sectors_returns flush_returns : nohang.

(** Every request returns, whatever the drive does: reading and writing, in
    both forms, ends with success, an error or a panic after a bounded number of
    readings of the status. *)
Theorem pata_requests_return task index count input :
  no_hang (pio_read_sectors (W:=W) index count) /\ no_hang (pio_read_sectors_async (W:=W) task index count) /\
  no_hang (pio_write_sectors (W:=W) index count input) /\ no_hang (pio_write_sectors_async (W:=W) task index count input).
Proof.
  refine (conj _ (conj _ (conj _ _))); [| |apply no_hang_bind; [apply no_hang_lift, returns_unum|intros n; destruct (_ <? _); [apply no_hang_throw|]]..].
  all: apply no_hang_bind; [apply io_init_returns|intros lba]; apply no_hang_bind; [apply no_hang_gets|intros d];
    apply no_hang_bind; [destruct (lba48_supported d); [apply send_lba48_returns|apply send_lba28_returns]|intros _].
  all: try (apply no_hang_bind; [|intros _; apply flush_returns]); first [apply read_sectors_returns|apply write_sectors_returns]; first [apply wait_io_returns|apply wait_both_returns].
Qed.
End returning.

(** The asynchronous wait never times out, and does not wait for the drive.
    On any machine it reads the status 14 times, registers the task with its
    channel, and succeeds as soon as the task is polled again, whoever woke it;
    on a device of neither channel it panics. *)
Theorem async_wait_does_not_wait `{BB : Build} {W} {HP : Ports W} task (s : Io W) :
  exists s1, status_reads (E:=IoErr) 14 s = (Ok (), s1) /\
    if is_channel (port (device s)) then wait_io_async task s = (Ok (), woken (registered task s1))
    else (wait_io_async task s).1 = Panic.
Proof.
  destruct (status_reads_run (E:=IoErr) 14 s) as (s1 & Hr & Hd). exists s1. split; [done|]. rewrite <- Hd.
  destruct (is_channel (port (device s1))) eqn:Hc; [by apply wait_io_async_ok|by apply (wait_io_async_stops task s s1)].
Qed.

Section requests.
Context `{BB : Build} {W : Type} {HP : Ports W} {base : Z} {HA : Ata W base}.
Implicit Types s : Io W.
Abbreviation D s := (drive base (world s)).

(** Reading sectors.  From a working drive with 48-bit addresses that is
    not in a transfer, a read of sectors in range into a buffer that is large
    enough succeeds, in both forms; the buffer then starts with the sectors and
    is otherwise unchanged, and the drive is as before and ready for the next
    request. *)
Theorem pata_reads task s index count r : usable (base:=base) s -> 0 <= index -> 0 < count < 2 ^ 16 ->
  index + count <= lba48_sector_count (device s) -> 512 * count <= zlen (result s) ->
  r = pio_read_sectors index count s \/ is_channel base = true /\ r = pio_read_sectors_async task index count s ->
  exists s', r = (Ok (), s') /\ usable (base:=base) s' /\ device s' = device s /\ media (D s') = media (D s) /\
    result s' = sectors (media (D s)) index count ++ drop (Z.to_nat (512 * count)) (result s).
Proof.
  intros Hu Hi Hc Hr Hl [-> | [Hch ->]].
  - apply (read_request wait_io); try done. intros s1 H1 H2. by apply wait_io_ok.
  - apply (read_request (wait_both task)); try done. intros s1 H1 H2. by apply wait_both_ok.
Qed.

(** C29: writing sectors.  On a working drive with 48-bit addresses that is not
    in a transfer, a write of at most 127 sectors in range succeeds, in both
    forms, whether or not the drive is busy at first, and however often it is
    busy between the sectors.  When the flush is sent, the drive holds the bytes
    given in those sectors, every other sector is unchanged, and no transfer is
    going on.  The flush itself is sent without a wait: the drive is left so,
    and ready for the next request, if it was not busy with the last sector any
    more, or ignores this command when it is busy. *)
Theorem pata_writes task wait s index count input r : usable (base:=base) s -> 0 <= index -> 0 < count < 128 ->
  index + count <= lba48_sector_count (device s) -> 512 * count <= zlen input -> bytes input ->
  wait = wait_io /\ r = pio_write_sectors index count input s \/
  is_channel base = true /\ wait = wait_both task /\ r = pio_write_sectors_async task index count input s ->
  exists s1 s', before_flush wait index count input s = (Ok (), s1) /\ r = flush_cache s1 /\
    usable (base:=base) s1 /\ device s1 = device s /\ result s1 = result s /\
    sectors (media (D s1)) index count = take (Z.to_nat (512 * count)) input /\
    (forall i n, 0 <= i -> 0 <= n -> i + n <= index \/ index + count <= i -> sectors (media (D s1)) i n = sectors (media (D s)) i n) /\
    r = (Ok (), s') /\ device s' = device s /\ result s' = result s /\
    (lag base (world s1) = 0 \/ ignores_flush (base:=base) -> D s' = D s1 /\ usable (base:=base) s').
Proof.
  intros Hu Hi Hc Hr Hl Hb Hw.
  assert (readies (base:=base) wait) as Hwait by (destruct Hw as [[-> _]|(Hch & -> & _)]; intros s0 ? ?; [by apply wait_io_ok|by apply wait_both_ok]).
  destruct (write_request wait Hwait s index count input Hu Hi Hc Hr Hl Hb) as (s1 & H1 & U1 & E1 & R1 & M1).
  assert (r = flush_cache s1) as Hf.
  { apply write_then_flush in H1. destruct Hw as [[-> ->]|(_ & -> & ->)]; exact H1. }
  destruct (flush_ok (base:=base) s1) as (s' & H2 & E2 & R2 & D2); [apply U1..|].
  destruct Hu as (_ & _ & _ & _ & _ & Hm & _). set (bs := take _ input) in *.
  assert (length bs = Z.to_nat (512 * count)) as Hbs by (subst bs; rewrite length_take; unfold zlen in *; lia).
  exists s1, s'. split_and!; try done; try congruence.
  - rewrite M1. apply sectors_store; [lia..|done].
  - intros i n Hi' Hn Hd. rewrite M1. apply (sectors_store_ne _ _ count); [lia..|done|lia|lia|done].
  - intros Hz. specialize (D2 Hz). split; [done|]. unfold usable in *. by rewrite D2, E2.
Qed.

(** Identification.  On a working drive that is not busy at first and done with
    a command within 15 readings of its status, [identify] succeeds at its first poll and takes
    over what the drive says of itself; if that includes 48-bit addresses and a
    size that is right, the device can be read and written. *)
Theorem pata_identifies s fuel : at_base (device s) base -> takes (base:=base) s -> length (identity (D s)) = 256%nat ->
  words16 (identity (D s)) -> sectors_in (identity (D s)) < 2 ^ 55 -> (forall w, lag base w <= 15) ->
  exists s', identify (S fuel) s = (Ok (), s') /\ media (D s') = media (D s) /\ identified (device s') = true /\
    lba48_supported (device s') = Z.testbit (word_at (identity (D s)) 83) 10 || lba48_supported (device s) /\
    lba48_sector_count (device s') = sectors_in (identity (D s)) /\
    lba28_sector_count (device s') = word_at (identity (D s)) 60 + 2 ^ 16 * word_at (identity (D s)) 61 /\
    sectors_per_track (device s') = word_at (identity (D s)) 6 /\
    (lba48_supported (device s') = true -> bytes (media (D s)) -> 512 * sectors_in (identity (D s)) <= zlen (media (D s)) ->
     sectors_in (identity (D s)) <= 2 ^ 48 -> usable (base:=base) s').
Proof.
  intros Hb Hp Hl Hw Hs Hf. destruct (identify_ok s fuel Hb Hp Hl Hw Hs Hf) as (s' & H1 & H2 & H3 & H4 & H5 & H6).
  destruct (read_identify_ok (device s) (identity (D s)) Hl Hw Hs) as (d' & H7 & _ & I & S48 & C48 & C28 & T).
  rewrite H6 in H7. injection H7 as <-. exists s'. split_and!; try done. intros Hsup Hm Hz Hmax.
  assert (0 <= sectors_in (identity (D s))) as H0.
  { assert (forall i, 0 <= word_at (identity (D s)) i) as Hi; [|unfold sectors_in; pose proof (Hi 100%nat); pose proof (Hi 101%nat); pose proof (Hi 102%nat); pose proof (Hi 103%nat); lia].
    intros i. unfold word_at. destruct (identity (D s) !! i) eqn:Hi; [|done]. eapply Forall_lookup_1 in Hw; [|exact Hi]. cbn. lia. }
  unfold usable. rewrite C48, H4. split_and!; try done.
Qed.

(** A read into a buffer that is too small fails, but only after the
    command was sent: the drive is left in a transfer, with all the words of the
    sectors to be read. *)
Theorem short_read_leaves_transfer task s index count r : usable (base:=base) s -> 0 <= index -> 0 < count < 2 ^ 16 ->
  index + count <= lba48_sector_count (device s) -> zlen (result s) < 512 * count ->
  r = pio_read_sectors index count s \/ r = pio_read_sectors_async task index count s ->
  exists s', r = (Err InputTooSmall, s') /\ result s' = result s /\
    exists ws, phase (D s') = DataIn ws /\ bytes_of ws = sectors (media (D s)) index count.
Proof.
  intros Hu Hi Hc Hr Hl Hw. assert (exists s', (forall wait, (lba ← io_init index count; d ← gets device;
      _ ← (if lba48_supported d then send_read_lba48 count lba else send_read_lba28 count lba); read_sectors wait count) s = (Err InputTooSmall, s')) /\
    result s' = result s /\ phase (D s') = data_in (words_of (sectors (media (D s)) index count))) as (s' & Hrun & R & P).
  { destruct (io_init_ok s index count) as (s1 & H1 & (E1 & R1 & D1) & T1); [done|lia..|]. destruct Hu as (Hb & Hid & H48 & Hm & Hp & Hlen & Hmax).
    destruct (send_read_ok s1 count index) as (s2 & H2 & E2 & R2 & M2 & _ & P2); [by rewrite E1|lia..|done|].
    exists s2. split_and!; [|congruence|congruence]. intros wait. mrun H1. mstep. rewrite E1, H48. mrun H2.
    unfold read_sectors. mstep. rewrite R2, R1. by btrue (zlen (result s) <? count * 512). }
  exists s'. split_and!; [destruct Hw as [-> | ->]; apply Hrun|done|]. destruct Hu as (_ & _ & _ & Hm & _ & Hlen & _).
  assert (length (sectors (media (D s)) index count) = (512 * Z.to_nat count)%nat) as Hz by (apply zlen_sectors; lia).
  destruct (words_of_spec (256 * Z.to_nat count) (sectors (media (D s)) index count)) as (W1 & W2 & _); [lia|by apply Forall_take, Forall_drop|].
  eexists. split; [|exact W2]. rewrite P. destruct (words_of _); [cbn in W1; lia|done].
Qed.

(** A 28-bit address does not reach the drive.  Whatever the sector, the
    drive register selects the second drive of the channel and has the four top
    bits of the address set; the middle byte of the address is its third, and
    the register of the third keeps what was in it. *)
Theorem lba28_misaddressed s count lba : at_base (device s) base -> takes (base:=base) s -> 0 <= lba < 2 ^ 28 -> 0 <= count < 2 ^ 16 ->
  exists s', send_lba28 count lba s = (Ok (), s') /\ fst (r_drive (D s')) = 0xFF /\ fst (r_count (D s')) = count mod 256 /\
    fst (r_low (D s')) = lba mod 256 /\ fst (r_mid (D s')) = lba / 2 ^ 16 mod 256 /\ r_high (D s') = r_high (D s).
Proof.
  intros (_ & _ & Hc & Hl & Hm & Hh & Hd & _ & _) T0 Hlba Hcount. unfold send_lba28. rewrite !byte_field, !byte_field0 by lia.
  rewrite lor_low_byte.
  destruct (reg_write (E:=IoErr) (base:=base) drive_port DRIVE 0xFF s T0 Hd ltac:(done)) as (s1 & H1 & E1 & R1 & D1 & T1).
  destruct (reg_write (E:=IoErr) (base:=base) sector_count_port SECTOR_COUNT (count mod 256) s1 T1 ltac:(congruence) ltac:(done)) as (s2 & H2 & E2 & R2 & D2 & T2).
  destruct (reg_write (E:=IoErr) (base:=base) lba_low_port LBA_LOW (lba mod 256) s2 T2 ltac:(congruence) ltac:(done)) as (s3 & H3 & E3 & R3 & D3 & T3).
  destruct (reg_write (E:=IoErr) (base:=base) lba_mid_port LBA_MID ((lba / 2 ^ 8) mod 256) s3 T3 ltac:(congruence) ltac:(done)) as (s4 & H4 & E4 & R4 & D4 & T4).
  destruct (reg_write (E:=IoErr) (base:=base) lba_mid_port LBA_MID ((lba / 2 ^ 16) mod 256) s4 T4 ltac:(congruence) ltac:(done)) as (s5 & H5 & E5 & R5 & D5 & T5).
  mrun H1. mrun H2. mrun H3. mrun H4. exists s5. rewrite D5, D4, D3, D2, D1. by split_and!.
Qed.
End requests.

(** Requests that are refused.  On any machine, a request to a device that
    is not identified, a request beyond its last sector, and a write of more
    sectors than its input holds fail with their own error, and nothing is sent
    to the drive. *)
Theorem pata_refuses `{BB : Build} {W} {HP : Ports W} task (s : Io W) index count input : 0 <= index < 2 ^ 63 -> 0 <= count < 128 ->
  let reads := [pio_read_sectors index count s; pio_read_sectors_async task index count s] in
  let writes := [pio_write_sectors index count input s; pio_write_sectors_async task index count input s] in
  (zlen input < 512 * count -> Forall (eq (Err InputTooSmall, s)) writes) /\
  (512 * count <= zlen input -> identified (device s) = false -> Forall (eq (Err Unavailable, s)) (reads ++ writes)) /\
  (512 * count <= zlen input -> identified (device s) = true -> sector_count (device s) < index + count ->
   Forall (eq (Err SectorOutOfRange, s)) (reads ++ writes)).
Proof.
  intros Hi Hc reads writes.
  assert (forall e, io_init index count s = (Err e, s) -> 512 * count <= zlen input -> Forall (eq (Err e, s)) (reads ++ writes)) as Hinit.
  { intros e He Hl. unfold reads, writes, pio_read_sectors, pio_read_sectors_async, pio_write_sectors, pio_write_sectors_async, SECTOR_SIZE.
    rewrite umul_ok by lia. cbn [app]. rewrite !run_lift. bfalse (zlen input <? count * 512).
    repeat (constructor; [symmetry; by apply M_bind_err|]). constructor. }
  split_and!.
  - intros Hl. unfold writes, pio_write_sectors, pio_write_sectors_async, SECTOR_SIZE. rewrite umul_ok by lia. rewrite !run_lift.
    btrue (zlen input <? count * 512). by repeat constructor.
  - intros Hl Hid. apply Hinit; [|done]. unfold io_init. mstep. by rewrite Hid.
  - intros Hl Hid Hs. apply Hinit; [|done]. unfold io_init. mstep. rewrite Hid. cbn [negb]. unfold get_lba. bfalse (index <? 0).
    cbn [from_never map_err mret res_ret]. mstep. unfold verify_lba. rewrite uadd_ok by lia. rsimpl. unfold sector_count in Hs.
    destruct (lba48_supported (device s)).
    + by btrue (lba48_sector_count (device s) <? index + count).
    + by btrue (lba28_sector_count (device s) <? index + count).
Qed.

(** ** A drive in memory

    It is busy for a reading of the status after every command and after every
    sector, and ignores what is done to it meanwhile. *)
Module SamplePata.
Record Box := { contents : Drive; slow : bool }.
Definition at_port (p : Z) : Z := p - PATA_PRIMARY_BASE.
Definition obey (c : Z) (d : Drive) : Drive :=
  if negb (is_idle d) then d
  else if (c =? READ_SECTORS_EXT) && selected d then with_phase d (media d) (data_in (words_of (sectors (media d) (lba48_of d) (count48_of d))))
  else if (c =? WRITE_SECTORS_EXT) && selected d then with_phase d (media d) (DataOut (lba48_of d) (count48_of d) [])
  else if c =? IDENTITY then with_phase d (media d) (data_in (identity d)) else d.
Definition ends_sector (ws : list Z) : bool := zlen ws mod 256 =? 0.
#[export] Instance box_ports : Ports Box := {
  in8 p w :=
    let o := at_port p in
    if o =? STATUS then
      (if slow w then 0x80 else if is_idle (contents w) then 0x40 else 0x48, {| contents := contents w; slow := false |})
    else if slow w then (0x80, w)
    else if o =? LBA_MID then (fst (r_mid (contents w)), w)
    else if o =? LBA_HIGH then (fst (r_high (contents w)), w) else (0, w);
  out8 p v w :=
    let o := at_port p in
    if slow w then w
    else if o =? COMMAND then {| contents := obey v (contents w); slow := true |}
    else if (SECTOR_COUNT <=? o) && (o <=? DRIVE) then {| contents := write_reg o v (contents w); slow := false |} else w;
  in16 p w := if slow w then (0, w) else
              match phase (contents w) with
              | DataIn (x :: ws) => (x, {| contents := with_phase (contents w) (media (contents w)) (data_in ws); slow := ends_sector ws |})
              | _ => (0, w)
              end;
  out16 p v w := if slow w then w else
                 match phase (contents w) with
                 | DataOut lba n ws => {| contents := data_out (contents w) lba n (ws ++ [v]); slow := ends_sector (ws ++ [v]) |}
                 | _ => w
                 end;
  suspended w := {| contents := contents w; slow := false |};
}.
Lemma obey_idle c d : phase d = Idle -> obey c d =
  if (c =? READ_SECTORS_EXT) && selected d then with_phase d (media d) (data_in (words_of (sectors (media d) (lba48_of d) (count48_of d))))
  else if (c =? WRITE_SECTORS_EXT) && selected d then with_phase d (media d) (DataOut (lba48_of d) (count48_of d) [])
  else if c =? IDENTITY then with_phase d (media d) (data_in (identity d)) else d.
Proof. intros Hp. unfold obey, is_idle. by rewrite Hp. Qed.
Lemma out_command c w : slow w = false -> contents (out8 (PATA_PRIMARY_BASE + COMMAND) c w) = obey c (contents w).
Proof. destruct w as [d []]; [done|]. done. Qed.
Definition box_lag (w : Box) : Z := if slow w then 1 else 0.
Lemma box_ready w : box_lag w = 0 -> slow w = false.
Proof. unfold box_lag. by destruct (slow w). Qed.
Lemma within_sector_box ws : zlen ws mod 256 <> 0 -> ends_sector ws = false.
Proof. apply Z.eqb_neq. Qed.
#[export] Program Instance box_ata : Ata Box PATA_PRIMARY_BASE := {
  drive := contents;
  lag := box_lag;
}.
Next Obligation. intros [d []]; unfold box_lag; cbn; unfold WAIT_TIME; lia. Qed.
Next Obligation. done. Qed.
Next Obligation. intros [d []]; [by vm_compute|]. change (in8 _ _).1 with (if is_idle d then 0x40 else 0x48). unfold is_byte. destruct (is_idle d); lia. Qed.
Next Obligation. intros [d []] Hs; cbn in *; [done|lia]. Qed.
Next Obligation. intros [d []] Hs; cbn in *; [lia|]. by destruct (is_idle d). Qed.
Next Obligation. intros [d []] Hs; [done|]. done. Qed.
Next Obligation. intros [d []] Hs; [done|]. done. Qed.
Next Obligation.
  intros [d []] o v Hz _ Ho; [done|]. cbn [out8 box_ports slow contents]. unfold at_port.
  replace (PATA_PRIMARY_BASE + o - PATA_PRIMARY_BASE) with o by lia. unfold COMMAND, SECTOR_COUNT, DRIVE in *.
  bfalse (o =? 7). by btrue ((2 <=? o) && (o <=? 6)).
Qed.
Next Obligation. intros w Hz Hp Hs. rewrite out_command, obey_idle, Hs by (done || by apply box_ready). done. Qed.
Next Obligation. intros w Hz Hp Hs. rewrite out_command, obey_idle, Hs by (done || by apply box_ready). done. Qed.
Next Obligation. intros w Hz Hp. by rewrite out_command, obey_idle by (done || by apply box_ready). Qed.
Next Obligation. intros w Hz Hp. by rewrite out_command, obey_idle by (done || by apply box_ready). Qed.
Next Obligation.
  intros w x ws Hz Hp. cbn [in16 box_ports]. rewrite (box_ready w Hz), Hp. split_and!; [done..|].
  intros Hm. unfold box_lag. cbn [snd slow]. by rewrite within_sector_box.
Qed.
Next Obligation.
  intros w v lba n ws Hz Hp. cbn [out16 box_ports]. rewrite (box_ready w Hz), Hp. split; [done|].
  intros Hm. unfold box_lag. cbn [slow]. by rewrite within_sector_box.
Qed.
Next Obligation. done. Qed.
Lemma box_ignores : ignores_flush (base:=PATA_PRIMARY_BASE).
Proof. intros [d []] Hl Hp; [done|]. cbn in Hl. lia. Qed.

Definition words : list Z := <[83%nat := 0x400]> (<[100%nat := 4]> (<[60%nat := 4]> (<[6%nat := 2]> (replicate 256 0)))).
Definition sample_drive : Drive :=
  {| r_count := (0, 0); r_low := (0, 0); r_mid := (0, 0); r_high := (0, 0); r_drive := (0, 0);
     media := concat ((fun i => replicate (Z.to_nat 512) i) <$> [1; 2; 3; 4]); identity := words; phase := Idle |}.
Definition fresh : PataDevice :=
  {| identified := false; lba48_supported := false; lba28_sector_count := 0; lba48_sector_count := 0; sectors_per_track := 1;
     port := 0x1F0; data_port := 0x1F0; error_port_lba28 := 0x1F1; error_port_lba48 := 0x1F1; features_port_lba28 := 0x1F1;
     features_port_lba48 := 0x1F1; sector_count_port := 0x1F2; lba_low_port := 0x1F3; lba_mid_port := 0x1F4; lba_high_port := 0x1F5;
     drive_port := 0x1F6; status_port := 0x1F7; cmd_port := 0x1F7 |}.
Lemma fresh_new : @new dev_build PATA_PRIMARY_BASE = Ok fresh.
Proof. done. Qed.
Definition known : PataDevice := match @read_identify_buffer dev_build fresh words with Ok d => d | _ => fresh end.
Definition start (d : PataDevice) (out : list Z) : Io Box := Build_Io d {| contents := sample_drive; slow := false |} [] [] out.
Definition busy_start : Io Box := Build_Io known {| contents := sample_drive; slow := true |} [] [] [].
Lemma busy_usable : usable (base:=PATA_PRIMARY_BASE) busy_start.
Proof. unfold usable. split_and!; try (by vm_compute). apply bytes_check. by vm_compute. Qed.
Lemma start_usable out : usable (base:=PATA_PRIMARY_BASE) (start known out).
Proof. unfold usable. split_and!; try (by vm_compute). apply bytes_check. by vm_compute. Qed.
End SamplePata.
Import SamplePata.

Lemma pata_reads_witness :
  exists s', @pio_read_sectors_async dev_build Box _ 7 1 2 (start known (replicate 1500 9)) = (Ok (), s') /\
    result s' = replicate 512 2 ++ replicate 512 3 ++ replicate 476 9.
Proof.
  destruct (@pata_reads dev_build Box _ PATA_PRIMARY_BASE _ 7 (start known (replicate 1500 9)) 1 2 _ (start_usable _)
    ltac:(lia) ltac:(lia) ltac:(by vm_compute) ltac:(by vm_compute) (or_intror (conj eq_refl eq_refl))) as (s' & H1 & _ & _ & _ & H2).
  exists s'. split; [exact H1|]. rewrite H2. by vm_compute.
Defined.
Lemma pata_writes_witness :
  exists s', @pio_write_sectors_async dev_build Box _ 7 2 2 (replicate 1024 8) busy_start = (Ok (), s') /\
    sectors (media (drive PATA_PRIMARY_BASE (world s'))) 2 2 = replicate 1024 8 /\
    sectors (media (drive PATA_PRIMARY_BASE (world s'))) 1 1 = replicate 512 2.
Proof.
  destruct (@pata_writes dev_build Box _ PATA_PRIMARY_BASE _ 7 _ busy_start 2 2 (replicate 1024 8) _ busy_usable
    ltac:(lia) ltac:(lia) ltac:(by vm_compute) ltac:(by vm_compute) ltac:(by apply bytes_check) (or_intror (conj eq_refl (conj eq_refl eq_refl))))
    as (s1 & s' & _ & _ & _ & _ & _ & H2 & H3 & H1 & _ & _ & H4).
  destruct (H4 (or_intror box_ignores)) as [HD _].
  exists s'. rewrite HD. split_and!; [exact H1|rewrite H2; by vm_compute|]. rewrite (H3 1 1) by lia. by vm_compute.
Defined.
Lemma pata_identifies_witness :
  exists s', @identify dev_build Box _ 1 (start fresh []) = (Ok (), s') /\ lba48_supported (device s') = true /\ lba48_sector_count (device s') = 4.
Proof.
  destruct (@pata_identifies dev_build Box _ PATA_PRIMARY_BASE _ (start fresh []) 0) as (s' & H1 & _ & _ & H2 & H3 & _).
  - unfold at_base. by vm_compute.
  - done.
  - done.
  - apply Forall_forall. intros x Hx. apply list_elem_of_In in Hx. vm_compute in Hx. intuition (subst; lia).
  - by vm_compute.
  - intros [d []]; cbn; lia.
  - exists s'. split_and!; [exact H1|rewrite H2; by vm_compute|rewrite H3; by vm_compute].
Defined.
Lemma short_read_leaves_transfer_witness :
  exists s', @pio_read_sectors dev_build Box _ 0 1 (start known (replicate 100 0)) = (Err InputTooSmall, s') /\
    exists ws, phase (drive PATA_PRIMARY_BASE (world s')) = DataIn ws /\ bytes_of ws = replicate 512 1.
Proof.
  destruct (@short_read_leaves_transfer dev_build Box _ PATA_PRIMARY_BASE _ 7 (start known (replicate 100 0)) 0 1 _ (start_usable _)
    ltac:(lia) ltac:(lia) ltac:(by vm_compute) ltac:(by vm_compute) (or_introl eq_refl)) as (s' & H1 & _ & ws & H2 & H3).
  exists s'. split; [exact H1|]. exists ws. split; [exact H2|]. rewrite H3. by vm_compute.
Defined.
Lemma lba28_misaddressed_witness :
  exists s', @send_lba28 Box _ 1 0x1234567 (start known []) = (Ok (), s') /\ fst (r_drive (drive PATA_PRIMARY_BASE (world s'))) = 0xFF /\
    fst (r_mid (drive PATA_PRIMARY_BASE (world s'))) = 0x23.
Proof.
  destruct (@lba28_misaddressed Box _ PATA_PRIMARY_BASE _ (start known []) 1 0x1234567) as (s' & H1 & H2 & _ & _ & H3 & _);
    [unfold at_base; by vm_compute|done|lia|lia|]. by exists s'.
Defined.
Lemma pata_refuses_witness :
  @pio_read_sectors dev_build Box _ 3 2 (start known []) = (Err SectorOutOfRange, start known []).
Proof.
  destruct (@pata_refuses dev_build Box _ 7 (start known []) 3 2 (replicate 1024 0) ltac:(lia) ltac:(lia)) as (_ & _ & H).
  specialize (H ltac:(by vm_compute) eq_refl ltac:(by vm_compute)). apply Forall_cons in H as [H _]. by symmetry.
Defined.
