(* ===== verification/Acpi.v ===== *)
(** * ACPI tables

    src/kernel/src/arch/x86_64/acpi/mod.rs, and the reading of the MADT, the
    table of processors and interrupt controllers, in acpi/apic.rs.

    The firmware's tables are bytes in memory, which the kernel reads through
    raw pointers: [mem] is the byte at a virtual address.  Addresses are those
    of the x86_64 crate: [virt_addr] is [VirtAddr::new] and [virt_add] the
    addition of an offset, which are [None] where they panic.

    The loop over the MADT moves by the record lengths in the table, so its
    fuel is an argument; one round per entry is enough.

    Shown here: a table is found by its signature and only with a right
    checksum; the addresses of the tables are the low halves of the entries of
    the root table; the MADT of a list of entries is read back as these
    entries. *)

From S2P Require Import Prelude Bytes.
From stdpp Require Import gmap.
#[local] Open Scope Z_scope.

Definition RSDP_1_0_LENGTH : Z := 8 + 1 + 6 + 1 + 4.
Definition RSDP_2_0_LENGTH : Z := 4 + 8 + 1 + 3.
Definition ACPI_2_0 : Z := 2.
Definition size_of_Rsdp : Z := 36.
Definition size_of_AcpiSdtHeader : Z := 36.
Definition size_of_MadtHeader : Z := 44.
Definition size_of_MadtEntryHeader : Z := 2.

(** ** What the MADT says *)
Record ProcessorIds := { processor_id : Z; apic_id : Z }.
Record IoApic := { io_id : Z; io_base : Z; global_system_interrupt_base : Z }.
Record IoNmiSource := { nmi_source_id : Z; nmi_flags : Z; nmi_gsi : Z }.
Record LocalNmiSourceData := { acpi_processor_id : Z; local_flags : Z; local_lint : Z }.
Record LocalNmiSource := { flags : Z; lint : Z }.
Record Processor := { ids : ProcessorIds; local_apic : Z; nmi_source : LocalNmiSource }.
Definition Processor_new (i : ProcessorIds) (l : Z) : Processor := {| ids := i; local_apic := l; nmi_source := {| flags := 0; lint := 0 |} |}.
(** The local variables of the loop *)
Record Madt := {
  processors_partial : list ProcessorIds;
  io_apics : list IoApic;
  local_apic_addr : Z;
  nmi_sources : list IoNmiSource;
  local_nmi_sources : list LocalNmiSourceData;
  isa_irq_gsi : list Z;
  trigger_modes_overrides : list (option Z);
  polarity_overrides : list (option Z);
}.

Definition PROCESSOR_LOCAL_APIC : Z := 0.
Definition IO_APIC : Z := 1.
Definition INTERRUPT_SOURCE_OVERRIDE : Z := 2.
Definition NON_MASKABLE_INTERRUPT_SOURCE : Z := 3.
Definition LOCAL_APIC_NONMASKABLE_INTERRUPTS : Z := 4.
Definition LOCAL_APIC_ADDR_OVERRIDE : Z := 5.
Definition HIGH_ACTIVE : Z := 0.
Definition LOW_ACTIVE : Z := 1.
Definition EDGE_SENSITIVE : Z := 0.
Definition LEVEL_SENSITIVE : Z := 1.

Section acpi.
Context `{Build} (mem : Z -> Z) (hhdm_offset : Z) (virt_addr : Z -> option Z) (virt_add : Z -> Z -> option Z).
Abbreviation R := (res never).

Definition vadd (a b : Z) : R Z := expect (virt_add a b).
(** The bytes at an address, and a number of [n] bytes there *)
Definition bytes_at (a n : Z) : list Z := mem <$> seqZ a n.
Definition load (n a : Z) : Z := le_num (bytes_at a n).

(** ** Finding tables *)
Definition sum_bytes (bs : list Z) : R Z := rfor bs 0 (fun b sum => uadd 32 sum b).
Definition check_rsdp (rsdp : list Z) : R () :=
  sum ← rfor (seqZ 0 RSDP_1_0_LENGTH) 0 (fun i sum => b ← index rsdp i; uadd 32 sum b);
  if negb (Z.land sum 0xff =? 0) then Panic else
  sum ← rfor (seqZ RSDP_1_0_LENGTH (RSDP_2_0_LENGTH - RSDP_1_0_LENGTH)) 0 (fun i sum => b ← index rsdp i; uadd 32 sum b);
  rassert (Z.land sum 0xff =? 0).
Definition check_acpi_sdt_header (header length : Z) : R () :=
  sum ← sum_bytes (bytes_at header length);
  rassert (Z.land sum 0xff =? 0).
Definition parse_rsdp (response : option Z) : R (list Z) :=
  address ← expect response;
  _ ← rassert (bool_decide (bytes_at address 8 = str "RSD PTR "));
  if negb (load 1 (address + 15) =? ACPI_2_0) then Panic else
  _ ← check_rsdp (bytes_at address size_of_Rsdp);
  xsdt_pointer ← uadd 64 (load 8 (address + 24)) hhdm_offset;
  let length := load 4 (xsdt_pointer + 4) in
  _ ← check_acpi_sdt_header xsdt_pointer length;
  n ← usub 64 length size_of_AcpiSdtHeader;
  let num_tables := n / 8 in
  xsdt_pointer ← expect (virt_addr xsdt_pointer);
  xsdt_pointer ← vadd xsdt_pointer size_of_AcpiSdtHeader;
  rfor (seqZ 0 num_tables) [] (fun i table_pointers =>
    off ← umul 64 i 8;
    p ← vadd xsdt_pointer off;
    a ← expect (virt_addr (load 4 p));
    a ← vadd a hhdm_offset;
    Ok (table_pointers ++ [a])).
Fixpoint find_table (pointers : list Z) (signature : list Z) : R (option Z) :=
  match pointers with
  | [] => Ok None
  | addr :: pointers =>
      if bool_decide (bytes_at addr 4 = signature) then
        _ ← check_acpi_sdt_header addr (load 4 (addr + 4));
        Ok (Some addr)
      else find_table pointers signature
  end.
Definition find_madt (pointers : list Z) : R (option Z) := find_table pointers (str "APIC").
Definition find_mcfg (pointers : list Z) : R (option Z) := find_table pointers (str "MCFG").
Definition find_fadt (pointers : list Z) : R (option Z) := find_table pointers (str "FACP").

(** ** The MADT *)
Definition override (st : Madt) (irq_source gsi fl : Z) : R Madt :=
  let pol := Z.land fl 3 in
  let trig := Z.land (Z.shiftr fl 2) 3 in
  p ← (if pol =? 1 then update (polarity_overrides st) irq_source (Some HIGH_ACTIVE)
       else if pol =? 3 then update (polarity_overrides st) irq_source (Some LOW_ACTIVE) else Ok (polarity_overrides st));
  t ← (if trig =? 1 then update (trigger_modes_overrides st) irq_source (Some EDGE_SENSITIVE)
       else if trig =? 3 then update (trigger_modes_overrides st) irq_source (Some LEVEL_SENSITIVE) else Ok (trigger_modes_overrides st));
  g ← update (isa_irq_gsi st) irq_source gsi;
  Ok {| processors_partial := processors_partial st; io_apics := io_apics st; local_apic_addr := local_apic_addr st;
        nmi_sources := nmi_sources st; local_nmi_sources := local_nmi_sources st;
        isa_irq_gsi := g; trigger_modes_overrides := t; polarity_overrides := p |}.
(** What an entry adds; [p] is the address of its data *)
Definition madt_entry (st : Madt) (entry_type p : Z) : R Madt :=
  let '(Build_Madt procs ios addr nmis locals gsi trig pol) := st in
  if entry_type =? PROCESSOR_LOCAL_APIC then
    if Z.land (load 4 (p + 2)) 1 =? 1
    then Ok (Build_Madt (procs ++ [{| processor_id := load 1 p; apic_id := load 1 (p + 1) |}]) ios addr nmis locals gsi trig pol) else Ok st
  else if entry_type =? IO_APIC then
    base ← vadd hhdm_offset (load 4 (p + 2));
    Ok (Build_Madt procs (ios ++ [{| io_id := load 1 p; io_base := base; global_system_interrupt_base := load 4 (p + 6) |}]) addr nmis locals gsi trig pol)
  else if entry_type =? INTERRUPT_SOURCE_OVERRIDE then override st (load 1 (p + 1)) (load 4 (p + 2)) (load 2 (p + 6))
  else if entry_type =? NON_MASKABLE_INTERRUPT_SOURCE then
    Ok (Build_Madt procs ios addr (nmis ++ [{| nmi_source_id := load 1 p; nmi_flags := load 2 (p + 2); nmi_gsi := load 4 (p + 4) |}]) locals gsi trig pol)
  else if entry_type =? LOCAL_APIC_NONMASKABLE_INTERRUPTS then
    Ok (Build_Madt procs ios addr nmis (locals ++ [{| acpi_processor_id := load 1 p; local_flags := load 2 (p + 1); local_lint := load 1 (p + 3) |}]) gsi trig pol)
  else if entry_type =? LOCAL_APIC_ADDR_OVERRIDE then
    a ← vadd hhdm_offset (load 8 (p + 2));
    Ok (Build_Madt procs ios a nmis locals gsi trig pol)
  else Ok st.
Fixpoint madt_loop (fuel : nat) (madt_ptr remaining_length : Z) (st : Madt) : R Madt :=
  if remaining_length =? 0 then Ok st else
  match fuel with
  | O => Hang
  | S fuel =>
      let entry_type := load 1 madt_ptr in
      let record_length := load 1 (madt_ptr + 1) in
      madt_ptr ← vadd madt_ptr size_of_MadtEntryHeader;
      remaining_length ← usub 64 remaining_length record_length;
      st ← madt_entry st entry_type madt_ptr;
      d ← usub 64 record_length size_of_MadtEntryHeader;
      madt_ptr ← vadd madt_ptr d;
      madt_loop fuel madt_ptr remaining_length st
  end.
Definition madt_start (addr : Z) : Madt :=
  {| processors_partial := []; io_apics := []; local_apic_addr := addr; nmi_sources := []; local_nmi_sources := [];
     isa_irq_gsi := seqZ 0 16; trigger_modes_overrides := replicate 16 None; polarity_overrides := replicate 16 None |}.
Definition parse_madt (fuel : nat) (madt_ptr : Z) : R Madt :=
  remaining_length ← usub 64 (load 4 (madt_ptr + 4)) size_of_MadtHeader;
  p ← vadd madt_ptr size_of_MadtHeader;
  addr ← vadd hhdm_offset (load 4 (madt_ptr + 36));
  madt_loop fuel p remaining_length (madt_start addr).
(** The processors, and the pins of their non-maskable interrupts *)
Definition set_nmi (n : LocalNmiSourceData) (p : Processor) : Processor :=
  {| ids := ids p; local_apic := local_apic p; nmi_source := {| flags := local_flags n; lint := local_lint n |} |}.
Definition collect_processors (st : Madt) : gmap Z Processor :=
  let processors := foldl (fun m i => <[processor_id i := Processor_new i (local_apic_addr st)]> m) ∅ (processors_partial st) in
  foldl (fun m n => if acpi_processor_id n =? 0xff then set_nmi n <$> m else alter (set_nmi n) (acpi_processor_id n) m)
    processors (local_nmi_sources st).
End acpi.

(** ** Tables in memory *)
Section holds.
Context (mem : Z -> Z).
Definition holds (a : Z) (l : list Z) : Prop := bytes_at mem a (zlen l) = l.
Lemma holds_cons a x l : holds a (x :: l) <-> mem a = x /\ holds (a + 1) l.
Proof.
  unfold holds, bytes_at. rewrite zlen_cons, seqZ_cons by (pose proof (zlen_nonneg l); lia). cbn [fmap list_fmap].
  replace (Z.succ a) with (a + 1) by lia. replace (Z.pred (1 + zlen l)) with (zlen l) by lia. split; [by intros [= -> ->]|by intros [-> ->]].
Qed.
Lemma holds_app a l1 l2 : holds a (l1 ++ l2) <-> holds a l1 /\ holds (a + zlen l1) l2.
Proof.
  revert a. induction l1 as [|x l1 IH]; intros a; cbn [app].
  - rewrite zlen_nil, Z.add_0_r. assert (holds a []) by done. tauto.
  - rewrite !holds_cons, IH, zlen_cons. replace (a + 1 + zlen l1) with (a + (1 + zlen l1)) by lia. tauto.
Qed.
Lemma holds_load n v a : 0 <= v < 256 ^ Z.of_nat n -> holds a (le_bytes n v) -> load mem (Z.of_nat n) a = v.
Proof.
  intros Hv Hh. unfold load. unfold holds, zlen in Hh. rewrite length_le_bytes in Hh. rewrite Hh. by apply le_num_bytes.
Qed.
Lemma load1 a : load mem 1 a = mem a.
Proof. unfold load, bytes_at. rewrite seqZ_cons by lia. change (Z.pred 1) with 0. rewrite seqZ_nil by lia. cbn [fmap list_fmap le_num]. lia. Qed.
Lemma holds_bytes a n : holds a (bytes_at mem a n).
Proof.
  unfold holds. destruct (Z.le_gt_cases 0 n) as [Hn|Hn].
  - f_equal. unfold zlen, bytes_at. rewrite length_fmap, length_seqZ. lia.
  - unfold bytes_at, zlen. rewrite length_fmap, length_seqZ. replace (Z.to_nat n) with 0%nat by lia. rewrite (seqZ_nil a n) by lia. done.
Qed.
End holds.

(** Addresses the processor accepts: the x86_64 crate makes no others, and
    panics instead. *)
Definition canonical (a : Z) : Prop := 0 <= a < 2 ^ 47 \/ 2 ^ 64 - 2 ^ 47 <= a < 2 ^ 64.

(** *** Finding tables *)
Definition total (bs : list Z) : Z := foldr Z.add 0 bs.
Lemma total_range bs : bytes bs -> 0 <= total bs <= 255 * zlen bs.
Proof. induction 1 as [|b bs Hb _ IH]; cbn [total foldr]; [done|]. fold (total bs). unfold is_byte in Hb. rewrite zlen_cons. lia. Qed.
Lemma land_ff x : Z.land x 0xff = x mod 256.
Proof. change 0xff with (Z.ones 8). by rewrite Z.land_ones. Qed.
Lemma bytes_at_bytes mem a n : (forall a, is_byte (mem a)) -> bytes (bytes_at mem a n).
Proof. intros Hm. apply Forall_fmap, Forall_true. intros i. apply Hm. Qed.
Lemma zlen_bytes_at mem a n : 0 <= n -> zlen (bytes_at mem a n) = n.
Proof. intros. unfold zlen, bytes_at. rewrite length_fmap, length_seqZ. lia. Qed.

Section tables.
Context `{BB : Build} (mem : Z -> Z) (hhdm_offset : Z) (virt_addr : Z -> option Z) (virt_add : Z -> Z -> option Z).
Hypothesis mem_bytes : forall a, is_byte (mem a).

Lemma sum_from bs : forall s, bytes bs -> 0 <= s -> s + total bs < 2 ^ 32 -> rfor bs s (fun b sum => uadd (E:=never) 32 sum b) = Ok (s + total bs).
Proof.
  induction bs as [|b bs IH]; intros s Hb Hs Ht; cbn [rfor total foldr] in *; [by rewrite Z.add_0_r|]. fold (total bs) in *.
  apply Forall_cons in Hb as [Hb Hbs]. pose proof (total_range bs Hbs). pose proof (zlen_nonneg bs). unfold is_byte in Hb.
  rewrite uadd_ok by lia. rsimpl. rewrite IH by (done || lia). f_equal. lia.
Qed.
Lemma load_range n a : 0 <= load mem (Z.of_nat n) a < 256 ^ Z.of_nat n.
Proof.
  unfold load. pose proof (le_num_range (bytes_at mem a (Z.of_nat n)) (bytes_at_bytes mem a _ mem_bytes)) as Hr.
  replace (length (bytes_at mem a (Z.of_nat n))) with n in Hr by (unfold bytes_at; rewrite length_fmap, length_seqZ; lia). exact Hr.
Qed.
Lemma index_bytes_at {E} a n i : 0 <= i < n -> index (E:=E) (bytes_at mem a n) i = Ok (mem (a + i)).
Proof.
  intros Hi. apply index_ok; [lia|]. unfold bytes_at. rewrite list_lookup_fmap, lookup_seqZ_lt by lia. cbn. do 2 f_equal. lia.
Qed.
Lemma sum_indexed a n : forall (k : nat) o s, 0 <= o -> o + Z.of_nat k <= n ->
  rfor (seqZ o (Z.of_nat k)) s (fun i sum => b ← index (bytes_at mem a n) i; uadd (E:=never) 32 sum b) =
  rfor (bytes_at mem (a + o) (Z.of_nat k)) s (fun b sum => uadd 32 sum b).
Proof.
  induction k as [|k IH]; intros o s Ho Hk; [done|]. unfold bytes_at in IH |- * at 2. rewrite !(seqZ_cons _ (Z.of_nat (S k))) by lia.
  cbn [fmap list_fmap rfor]. rewrite index_bytes_at by lia. rsimpl. destruct (uadd _ _ _) as [s'|e| |]; cbn [mbind res_bind]; try done.
  replace (Z.pred (Z.of_nat (S k))) with (Z.of_nat k) by lia. rewrite IH by lia. do 3 f_equal. lia.
Qed.
Lemma check_rsdp_ok a : total (bytes_at mem a 20) mod 256 = 0 -> check_rsdp (bytes_at mem a size_of_Rsdp) = Ok ().
Proof.
  intros Ht. unfold check_rsdp. change (seqZ 0 RSDP_1_0_LENGTH) with (seqZ 0 (Z.of_nat 20)). unfold size_of_Rsdp.
  rewrite sum_indexed by lia. rewrite Z.add_0_r. change (Z.of_nat 20) with 20. pose proof (bytes_at_bytes mem a 20 mem_bytes) as Hb.
  pose proof (total_range _ Hb) as Hr. rewrite zlen_bytes_at in Hr by lia. rewrite sum_from by (done || lia). rsimpl. by rewrite land_ff, Z.add_0_l, Ht.
Qed.
Lemma check_header_ok a n : 0 <= n <= 2 ^ 24 ->
  check_acpi_sdt_header mem a n = if total (bytes_at mem a n) mod 256 =? 0 then Ok () else Panic.
Proof.
  intros Hn. unfold check_acpi_sdt_header, sum_bytes. pose proof (bytes_at_bytes mem a n mem_bytes) as Hb.
  pose proof (total_range _ Hb) as Ht. rewrite zlen_bytes_at in Ht by lia. rewrite sum_from by (done || lia). rsimpl. by rewrite land_ff, Z.add_0_l.
Qed.

(** Tables are found by their signature.  The result is the first table
    with the signature, if the bytes of the table sum to zero modulo 256, and a
    panic if they do not; without such a table there is no result. *)
Theorem find_table_first ptrs sig : Forall (fun a => load mem 4 (a + 4) <= 2 ^ 24) ptrs ->
  find_table mem ptrs sig =
  match list_find (fun a => bytes_at mem a 4 = sig) ptrs with
  | None => Ok None
  | Some (_, a) => if total (bytes_at mem a (load mem 4 (a + 4))) mod 256 =? 0 then Ok (Some a) else Panic
  end.
Proof.
  induction 1 as [|a ptrs Ha _ IH]; [done|]. cbn [find_table list_find]. case_bool_decide as Hs; case_decide; try done.
  - pose proof (load_range 4 (a + 4)) as Hr. change (Z.of_nat 4) with 4 in Hr. rewrite check_header_ok by lia. by destruct (_ =? _).
  - rewrite IH. by destruct (list_find _ ptrs) as [[]|].
Qed.

Hypothesis virt_addr_canonical : forall a, canonical a -> virt_addr a = Some a.
Hypothesis virt_add_canonical : forall a b, 0 <= a -> 0 <= b -> canonical (a + b) -> virt_add a b = Some (a + b).
(** The root table.  From a pointer with the right signature, revision and
    checksum to a root table with a right checksum, [parse_rsdp] lists the
    addresses of all tables in their order, each the low 32 bits of its entry
    in the kernel's mapping of memory; the second checksum does not matter. *)
Theorem root_table_listed address x n : 2 ^ 64 - 2 ^ 47 <= hhdm_offset < 2 ^ 64 - 2 ^ 32 ->
  bytes_at mem address 8 = str "RSD PTR " -> mem (address + 15) = ACPI_2_0 -> total (bytes_at mem address 20) mod 256 = 0 ->
  load mem 8 (address + 24) = x - hhdm_offset -> 2 ^ 64 - 2 ^ 47 <= x -> x + 36 + 8 * n < 2 ^ 64 ->
  load mem 4 (x + 4) = 36 + 8 * n -> 0 <= n < 2 ^ 20 -> total (bytes_at mem x (36 + 8 * n)) mod 256 = 0 ->
  parse_rsdp mem hhdm_offset virt_addr virt_add (Some address) = Ok ((fun i => hhdm_offset + load mem 4 (x + 36 + 8 * i)) <$> seqZ 0 n).
Proof.
  intros Hh Hsig Hrev Hsum Hx Hxr Hxl Hlen Hn Hxsum. unfold parse_rsdp. cbn [expect]. rsimpl. rewrite bool_decide_eq_true_2 by done. rsimpl.
  rewrite load1, Hrev. change (ACPI_2_0 =? ACPI_2_0) with true. cbn [negb rassert]. rsimpl.
  rewrite check_rsdp_ok by done.
  rsimpl. rewrite Hx, uadd_ok by lia. rsimpl. replace (x - hhdm_offset + hhdm_offset) with x by lia. rewrite Hlen.
  rewrite check_header_ok by lia. rewrite Hxsum. cbn [Z.eqb]. rsimpl. unfold size_of_AcpiSdtHeader. rewrite usub_ok by lia. rsimpl.
  replace ((36 + 8 * n - 36) / 8) with n by (rewrite Z.add_simpl_l, Z.mul_comm, Z.div_mul; lia).
  rewrite virt_addr_canonical by (unfold canonical; lia). cbn [expect]. rsimpl. unfold vadd. rewrite virt_add_canonical by (unfold canonical; lia). cbn [expect]. rsimpl.
  cut (forall (k : nat) o acc, 0 <= o -> o + Z.of_nat k <= n ->
    rfor (seqZ o (Z.of_nat k)) acc (fun i table_pointers => off ← umul 64 i 8; p ← vadd virt_add (x + 36) off;
      a ← expect (virt_addr (load mem 4 p)); a ← vadd virt_add a hhdm_offset; Ok (table_pointers ++ [a])) =
    Ok (acc ++ ((fun i => hhdm_offset + load mem 4 (x + 36 + 8 * i)) <$> seqZ o (Z.of_nat k)))).
  { intros Hc. specialize (Hc (Z.to_nat n) 0 [] ltac:(lia) ltac:(lia)). by rewrite Z2Nat.id in Hc by lia. }
  induction k as [|k IH]; intros o acc Ho Hk; [by rewrite app_nil_r|]. rewrite (seqZ_cons o (Z.of_nat (S k))) by lia.
  replace (Z.pred (Z.of_nat (S k))) with (Z.of_nat k) by lia. cbn [rfor fmap list_fmap]. rewrite umul_ok by lia. rsimpl.
  unfold vadd. rewrite (virt_add_canonical (x + 36) (o * 8)) by (unfold canonical; lia). cbn [expect]. rsimpl. pose proof (load_range 4 (x + 36 + o * 8)) as Hr.
  change (Z.of_nat 4) with 4 in Hr. change (256 ^ 4) with (2 ^ 32) in Hr.
  rewrite virt_addr_canonical by (unfold canonical; lia). cbn [expect]. rsimpl.
  rewrite (virt_add_canonical _ hhdm_offset) by (unfold canonical; lia). cbn [expect]. rsimpl. unfold vadd in IH. rewrite IH by lia. rewrite <- app_assoc. cbn [app]. do 3 f_equal. rewrite Z.add_comm. do 3 f_equal. lia.
Qed.
End tables.

(** *** Entries of the MADT, as the ACPI specification lays them out *)
Inductive Entry :=
| ELocalApic (pid aid fl : Z)
| EIoApic (id addr base : Z)
| EOverride (bus irq gsi fl : Z)
| ENmi (fl gsi : Z)
| ELocalNmi (pid fl pin : Z)
| EAddrOverride (addr : Z)
| EOther (ty : Z) (body : list Z).
Definition entry_type (e : Entry) : Z :=
  match e with
  | ELocalApic _ _ _ => 0 | EIoApic _ _ _ => 1 | EOverride _ _ _ _ => 2 | ENmi _ _ => 3 | ELocalNmi _ _ _ => 4 | EAddrOverride _ => 5
  | EOther ty _ => ty
  end.
Definition body (e : Entry) : list Z :=
  match e with
  | ELocalApic pid aid fl => le_bytes 1 pid ++ le_bytes 1 aid ++ le_bytes 4 fl
  | EIoApic id addr base => le_bytes 1 id ++ [0] ++ le_bytes 4 addr ++ le_bytes 4 base
  | EOverride bus irq gsi fl => le_bytes 1 bus ++ le_bytes 1 irq ++ le_bytes 4 gsi ++ le_bytes 2 fl
  | ENmi fl gsi => le_bytes 2 fl ++ le_bytes 4 gsi
  | ELocalNmi pid fl pin => le_bytes 1 pid ++ le_bytes 2 fl ++ le_bytes 1 pin
  | EAddrOverride addr => [0; 0] ++ le_bytes 8 addr
  | EOther _ b => b
  end.
Definition encode (e : Entry) : list Z := entry_type e :: (2 + zlen (body e)) :: body e.
Definition entry_ok (hhdm_offset : Z) (e : Entry) : Prop :=
  match e with
  | ELocalApic pid aid fl => is_byte pid /\ is_byte aid /\ 0 <= fl < 2 ^ 32
  | EIoApic id addr base => is_byte id /\ 0 <= addr < 2 ^ 32 /\ 0 <= base < 2 ^ 32
  | EOverride bus irq gsi fl => is_byte bus /\ 0 <= irq < 16 /\ 0 <= gsi < 2 ^ 32 /\ 0 <= fl < 2 ^ 16
  | ENmi fl gsi => 0 <= fl < 2 ^ 16 /\ 0 <= gsi < 2 ^ 32
  | ELocalNmi pid fl pin => is_byte pid /\ 0 <= fl < 2 ^ 16 /\ is_byte pin
  | EAddrOverride addr => 0 <= addr /\ hhdm_offset + addr < 2 ^ 64
  | EOther ty b => 6 <= ty < 256 /\ zlen b <= 253
  end.
(** What the entries mean, the global sources of non-maskable interrupts aside *)
Definition polarity_of (fl : Z) : option Z := if fl mod 4 =? 1 then Some HIGH_ACTIVE else if fl mod 4 =? 3 then Some LOW_ACTIVE else None.
Definition trigger_of (fl : Z) : option Z :=
  if (fl / 4) mod 4 =? 1 then Some EDGE_SENSITIVE else if (fl / 4) mod 4 =? 3 then Some LEVEL_SENSITIVE else None.
Definition note (l : list (option Z)) (i : Z) (o : option Z) : list (option Z) :=
  match o with Some x => <[Z.to_nat i := Some x]> l | None => l end.
Definition record (hhdm_offset : Z) (st : Madt) (e : Entry) : Madt :=
  let '(Build_Madt procs ios addr nmis locals gsi trig pol) := st in
  match e with
  | ELocalApic pid aid fl =>
      Build_Madt (if Z.odd fl then procs ++ [{| processor_id := pid; apic_id := aid |}] else procs) ios addr nmis locals gsi trig pol
  | EIoApic id a base =>
      Build_Madt procs (ios ++ [{| io_id := id; io_base := hhdm_offset + a; global_system_interrupt_base := base |}]) addr nmis locals gsi trig pol
  | EOverride _ irq g fl =>
      Build_Madt procs ios addr nmis locals (<[Z.to_nat irq := g]> gsi) (note trig irq (trigger_of fl)) (note pol irq (polarity_of fl))
  | ENmi _ _ => st
  | ELocalNmi pid fl pin =>
      Build_Madt procs ios addr nmis (locals ++ [{| acpi_processor_id := pid; local_flags := fl; local_lint := pin |}]) gsi trig pol
  | EAddrOverride a => Build_Madt procs ios (hhdm_offset + a) nmis locals gsi trig pol
  | EOther _ _ => st
  end.
(** What is recorded of those: the struct has two bytes before the flags that
    the entry does not have, so that the fields are read two bytes too far, the
    last one with two bytes of what follows the entry. *)
Definition next_two (es : list Entry) (tail : Z) : Z := match es with e :: _ => entry_type e + 256 * (2 + zlen (body e)) | [] => tail end.
Fixpoint nmis_read (es : list Entry) (tail : Z) : list IoNmiSource :=
  match es with
  | [] => []
  | ENmi fl gsi :: es =>
      {| nmi_source_id := fl mod 256; nmi_flags := gsi mod 2 ^ 16; nmi_gsi := gsi / 2 ^ 16 + 2 ^ 16 * next_two es tail |} :: nmis_read es tail
  | _ :: es => nmis_read es tail
  end.
Definition with_nmis (l : list IoNmiSource) (st : Madt) : Madt :=
  Build_Madt (processors_partial st) (io_apics st) (local_apic_addr st) l (local_nmi_sources st) (isa_irq_gsi st) (trigger_modes_overrides st) (polarity_overrides st).
Lemma with_nmis_same st : with_nmis (nmi_sources st) st = st.
Proof. by destruct st. Qed.
Lemma record_nmis hhdm_offset st e : nmi_sources (record hhdm_offset st e) = nmi_sources st.
Proof. by destruct st, e. Qed.
Lemma record_with_nmis hhdm_offset l st e : record hhdm_offset (with_nmis l st) e = with_nmis l (record hhdm_offset st e).
Proof. by destruct st, e. Qed.
Lemma records_with_nmis hhdm_offset l es : forall st, foldl (record hhdm_offset) (with_nmis l st) es = with_nmis l (foldl (record hhdm_offset) st es).
Proof. induction es as [|e es IH]; intros st; [done|]. cbn [foldl]. by rewrite record_with_nmis, IH. Qed.
Lemma nmis_read_cons e es tail : nmis_read (e :: es) tail = nmis_read [e] (next_two es tail) ++ nmis_read es tail.
Proof. by destruct e. Qed.
Definition isa_ok (st : Madt) : Prop :=
  length (isa_irq_gsi st) = 16%nat /\ length (trigger_modes_overrides st) = 16%nat /\ length (polarity_overrides st) = 16%nat.
Lemma record_isa_ok hhdm_offset st e : isa_ok st -> isa_ok (record hhdm_offset st e).
Proof.
  unfold isa_ok. destruct st as [procs ios addr nmis locals gsi trig pol], e; cbn [record isa_irq_gsi trigger_modes_overrides polarity_overrides]; try done.
  intros (? & ? & ?). unfold note, trigger_of, polarity_of. rewrite length_insert. repeat case_match; by rewrite ?length_insert.
Qed.
Lemma with_nmis_isa_ok l st : isa_ok st -> isa_ok (with_nmis l st).
Proof. done. Qed.
Lemma zlen_body hhdm_offset e : entry_ok hhdm_offset e -> 0 <= zlen (body e) <= 253.
Proof.
  pose proof (zlen_nonneg (body e)). destruct e; cbn [body entry_ok] in *; unfold zlen in *; rewrite ?length_app, ?length_le_bytes; cbn [length] in *; lia.
Qed.

Section madt.
Context `{BB : Build} (mem : Z -> Z) (hhdm_offset : Z) (virt_add : Z -> Z -> option Z).
Hypothesis virt_add_canonical : forall a b, 0 <= a -> 0 <= b -> canonical (a + b) -> virt_add a b = Some (a + b).
Hypothesis hhdm_high : 2 ^ 64 - 2 ^ 47 <= hhdm_offset < 2 ^ 64 - 2 ^ 32.
Abbreviation holds := (holds mem).
Abbreviation load := (load mem).
Lemma vadd_high a b : 2 ^ 64 - 2 ^ 47 <= a -> 0 <= b -> a + b < 2 ^ 64 -> vadd virt_add a b = Ok (a + b).
Proof. intros. unfold vadd. rewrite virt_add_canonical; [done|lia..|]. unfold canonical. lia. Qed.

(** Reading the fields of an entry whose bytes are at [p] *)
Ltac field H a :=
  match type of H with
  | Acpi.holds _ ?b (le_bytes ?n ?v) =>
      let k := eval vm_compute in (Z.of_nat n) in
      let m := eval vm_compute in (256 ^ Z.of_nat n) in
      let F := fresh in
      assert (load k a = v) as F by
        (apply (holds_load mem n v); [change (256 ^ Z.of_nat n) with m; unfold is_byte in *; lia|
         replace a with b by (unfold zlen; cbn [length le_bytes]; lia); exact H]);
      rewrite F; clear F
  end.
Lemma override_ok st irq gsi fl : isa_ok st -> 0 <= irq < 16 -> 0 <= fl < 2 ^ 16 ->
  override st irq gsi fl = Ok (record hhdm_offset st (EOverride 0 irq gsi fl)).
Proof.
  intros (Hg & Ht & Hp) Hi Hf. unfold override.
  assert (forall x, Z.land x 3 = x mod 4) as Hland by (intros; change 3 with (Z.ones 2); by rewrite Z.land_ones).
  rewrite Z.shiftr_div_pow2, !Hland by lia. change (2 ^ 2) with 4. destruct st as [procs ios addr nmis locals g trig pol]. cbn in *.
  unfold record, note, polarity_of, trigger_of.
  rewrite !update_ok by (unfold zlen; lia).
  destruct (fl mod 4 =? 1), (fl mod 4 =? 3), ((fl / 4) mod 4 =? 1), ((fl / 4) mod 4 =? 3); reflexivity.
Qed.
Lemma load_two a : load 2 a = mem a + 256 * mem (a + 1).
Proof.
  unfold Acpi.load, bytes_at. rewrite !seqZ_cons by lia. rewrite (seqZ_nil _ (Z.pred (Z.pred 2))) by lia. cbn [fmap list_fmap le_num].
  replace (Z.succ a) with (a + 1) by lia. lia.
Qed.
Lemma load_four a : load 4 a = load 2 a + 2 ^ 16 * load 2 (a + 2).
Proof.
  rewrite !load_two. unfold Acpi.load, bytes_at. rewrite !seqZ_cons by lia. rewrite (seqZ_nil _ (Z.pred (Z.pred (Z.pred (Z.pred 4))))) by lia.
  cbn [fmap list_fmap le_num]. replace (Z.succ (Z.succ (Z.succ a))) with (a + 2 + 1) by lia. replace (Z.succ (Z.succ a)) with (a + 2) by lia. replace (Z.succ a) with (a + 1) by lia. lia.
Qed.
(** An entry of a global source, read as the struct *)
Lemma nmi_misread p fl gsi : 0 <= fl < 2 ^ 16 -> 0 <= gsi < 2 ^ 32 -> holds p (body (ENmi fl gsi)) ->
  load 1 p = fl mod 256 /\ load 2 (p + 2) = gsi mod 2 ^ 16 /\ load 4 (p + 4) = gsi / 2 ^ 16 + 2 ^ 16 * load 2 (p + 6).
Proof.
  intros Hf Hg Hb. cbn [body le_bytes app] in Hb. rewrite !holds_cons in Hb. destruct Hb as (H0 & H1 & H2 & H3 & H4 & H5 & _).
  replace (p + 1 + 1) with (p + 2) in * by lia. replace (p + 2 + 1) with (p + 3) in * by lia. replace (p + 3 + 1) with (p + 4) in * by lia.
  replace (p + 4 + 1) with (p + 5) in * by lia.
  assert (load 2 (p + 2) = mem (p + 2) + 256 * mem (p + 3)) as E2 by (rewrite load_two; do 3 f_equal; lia).
  assert (load 2 (p + 4) = mem (p + 4) + 256 * mem (p + 5)) as E4 by (rewrite load_two; do 3 f_equal; lia).
  rewrite load1, load_four, E2, E4. replace (p + 4 + 2) with (p + 6) by lia. rewrite H0, H2, H3, H4, H5. split; [done|].
  split; Z.to_euclidean_division_equations; lia.
Qed.
(** What is recorded of an entry, with the two bytes that follow it *)
Lemma madt_entry_ok st e p : isa_ok st -> entry_ok hhdm_offset e -> holds p (body e) ->
  madt_entry mem hhdm_offset virt_add st (entry_type e) p =
    Ok (with_nmis (nmi_sources st ++ nmis_read [e] (load 2 (p + zlen (body e)))) (record hhdm_offset st e)).
Proof.
  intros Hst He Hb. destruct e as [pid aid fl|id addr base|bus irq gsi fl|fl gsi|pid fl pin|addr|ty b]; cbn [entry_type].
  4: { destruct He as [Hf Hg], st as [procs ios a nmis locals g trig pol]. unfold madt_entry. ev (3 =? PROCESSOR_LOCAL_APIC). ev (3 =? IO_APIC).
    ev (3 =? INTERRUPT_SOURCE_OVERRIDE). ev (3 =? NON_MASKABLE_INTERRUPT_SOURCE). cbn iota.
    destruct (nmi_misread p fl gsi Hf Hg Hb) as (-> & -> & ->). reflexivity. }
  all: match goal with |- context [record _ _ ?e] => cbn [nmis_read]; rewrite app_nil_r, <- (record_nmis hhdm_offset st e), with_nmis_same end.
  all: cbn [body entry_ok] in *.
  all: rewrite ?holds_app in Hb; unfold madt_entry; destruct st as [procs ios a nmis locals g trig pol] eqn:Est.
  - destruct He as (Hp & Ha & Hf), Hb as (H1 & H2 & H3). change (0 =? PROCESSOR_LOCAL_APIC) with true. cbn iota.
    field H1 p. field H2 (p + 1). field H3 (p + 2). change 1 with (Z.ones 1) at 1. rewrite Z.land_ones by lia. change (2 ^ 1) with 2.
    rewrite Zmod_odd. cbn [record]. by destruct (Z.odd fl).
  - destruct He as (Hi & Ha & Hf), Hb as (H1 & H2 & H3 & H4). change (1 =? PROCESSOR_LOCAL_APIC) with false. change (1 =? IO_APIC) with true. cbn iota.
    field H1 p. field H3 (p + 2). field H4 (p + 6). rewrite vadd_high by lia. done.
  - destruct He as (Hi & Ha & Hg & Hf), Hb as (H1 & H2 & H3 & H4). change (2 =? PROCESSOR_LOCAL_APIC) with false. change (2 =? IO_APIC) with false.
    change (2 =? INTERRUPT_SOURCE_OVERRIDE) with true. cbn iota. field H2 (p + 1). field H3 (p + 2). field H4 (p + 6).
    rewrite override_ok by done. done.
  - destruct He as (Hi & Hf & Hg), Hb as (H1 & H2 & H3). ev (4 =? PROCESSOR_LOCAL_APIC). ev (4 =? IO_APIC). ev (4 =? INTERRUPT_SOURCE_OVERRIDE).
    ev (4 =? NON_MASKABLE_INTERRUPT_SOURCE). ev (4 =? LOCAL_APIC_NONMASKABLE_INTERRUPTS). cbn iota.
    field H1 p. field H2 (p + 1). field H3 (p + 3). done.
  - destruct He as (Ha & Hh), Hb as (H1 & H2). ev (5 =? PROCESSOR_LOCAL_APIC). ev (5 =? IO_APIC). ev (5 =? INTERRUPT_SOURCE_OVERRIDE).
    ev (5 =? NON_MASKABLE_INTERRUPT_SOURCE). ev (5 =? LOCAL_APIC_NONMASKABLE_INTERRUPTS). ev (5 =? LOCAL_APIC_ADDR_OVERRIDE). cbn iota.
    field H2 (p + 2). rewrite vadd_high by lia. done.
  - destruct He as (Ht & _). unfold PROCESSOR_LOCAL_APIC, IO_APIC, INTERRUPT_SOURCE_OVERRIDE, NON_MASKABLE_INTERRUPT_SOURCE,
      LOCAL_APIC_NONMASKABLE_INTERRUPTS, LOCAL_APIC_ADDR_OVERRIDE.
    bfalse (ty =? 0). bfalse (ty =? 1). bfalse (ty =? 2). bfalse (ty =? 3). bfalse (ty =? 4). by bfalse (ty =? 5).
Qed.

Lemma madt_loop_ok es : forall fuel p st, isa_ok st -> Forall (entry_ok hhdm_offset) es -> holds p (concat (encode <$> es)) ->
  2 ^ 64 - 2 ^ 47 <= p -> p + zlen (concat (encode <$> es)) < 2 ^ 64 -> (length es <= fuel)%nat ->
  madt_loop mem hhdm_offset virt_add fuel p (zlen (concat (encode <$> es))) st =
    Ok (with_nmis (nmi_sources st ++ nmis_read es (load 2 (p + zlen (concat (encode <$> es))))) (foldl (record hhdm_offset) st es)).
Proof.
  induction es as [|e es IH]; intros fuel p st Hst Hok Hh Hp Hl Hf.
  { cbn [nmis_read foldl]. rewrite app_nil_r, with_nmis_same. by destruct fuel. }
  apply Forall_cons in Hok as [He Hok]. pose proof (zlen_body _ _ He) as Hb. cbn [fmap list_fmap concat] in *.
  set (rest := concat (encode <$> es)) in *. apply holds_app in Hh as [Hh Hrest]. unfold encode in Hh. rewrite !holds_cons in Hh.
  destruct Hh as (H1 & H2 & H3). destruct fuel as [|fuel]; [cbn in Hf; lia|].
  assert (zlen (encode e ++ rest) = 2 + zlen (body e) + zlen rest) as Hz by (unfold encode; zlen; lia). rewrite Hz in *.
  assert (zlen (encode e) = 2 + zlen (body e)) as Hze by (unfold encode; zlen; lia). rewrite Hze in Hrest.
  pose proof (zlen_nonneg rest). cbn [madt_loop]. bfalse (2 + zlen (body e) + zlen rest =? 0). rewrite !load1, H1, H2.
  unfold size_of_MadtEntryHeader. rewrite vadd_high by lia. rsimpl. rewrite usub_ok by lia. rsimpl.
  rewrite (madt_entry_ok st e (p + 2)) by (try done; by replace (p + 2) with (p + 1 + 1) by lia). rsimpl.
  rewrite usub_ok by lia. rsimpl. rewrite vadd_high by lia. rsimpl.
  replace (2 + zlen (body e) + zlen rest - (2 + zlen (body e))) with (zlen rest) by lia.
  replace (p + 2 + (2 + zlen (body e) - 2)) with (p + (2 + zlen (body e))) by lia.
  assert (load 2 (p + 2 + zlen (body e)) = next_two es (load 2 (p + (2 + zlen (body e)) + zlen rest))) as ->.
  { replace (p + 2 + zlen (body e)) with (p + (2 + zlen (body e))) by lia. unfold rest in *. destruct es as [|e' es]; cbn [fmap list_fmap concat next_two] in *; [f_equal; change (zlen []) with 0; lia|].
    rewrite load_two. apply holds_app in Hrest as [Hx _]. unfold encode in Hx. rewrite !holds_cons in Hx. destruct Hx as (-> & -> & _). done. }
  unfold rest. rewrite IH; [|by apply with_nmis_isa_ok, record_isa_ok|done|done|lia|fold rest; lia|cbn in Hf; lia]. fold rest.
  cbn [nmi_sources with_nmis foldl]. rewrite records_with_nmis, (nmis_read_cons e es), app_assoc, !Z.add_assoc. reflexivity.
Qed.

(** C35: the MADT is read back, but for one kind of entry.  If memory holds a
    table made of entries as the ACPI specification lays them out, of any kinds,
    in any order and number, [parse_madt] returns what the entries mean: the
    enabled processors and the I/O APICs in their order, the address of the
    local APIC, the pins of the processors for non-maskable interrupts, and for
    every ISA line the interrupt, polarity and trigger mode the last override of
    it gives; one round per entry is enough.  The global sources of non-maskable
    interrupts are recorded one for each entry in their order, but misread: the
    low byte of the flags is taken for a source number, the lower half of the
    interrupt number for the flags, and its upper half with the two bytes after
    the entry for the interrupt number. *)
Theorem madt_roundtrip fuel p sig rest lapic fl es : zlen sig = 4 -> zlen rest = 28 -> zlen fl = 4 -> 0 <= lapic < 2 ^ 32 ->
  Forall (entry_ok hhdm_offset) es -> (length es <= fuel)%nat -> 44 + zlen (concat (encode <$> es)) < 2 ^ 32 ->
  2 ^ 64 - 2 ^ 47 <= p -> p + 44 + zlen (concat (encode <$> es)) < 2 ^ 64 ->
  holds p (sig ++ le_bytes 4 (44 + zlen (concat (encode <$> es))) ++ rest ++ le_bytes 4 lapic ++ fl ++ concat (encode <$> es)) ->
  parse_madt mem hhdm_offset virt_add fuel p =
    Ok (with_nmis (nmis_read es (load 2 (p + 44 + zlen (concat (encode <$> es))))) (foldl (record hhdm_offset) (madt_start (hhdm_offset + lapic)) es)).
Proof.
  intros Hs Hr Hfl Hla Hes Hf Hlen Hp Hl Hh. set (ents := concat (encode <$> es)) in *. pose proof (zlen_nonneg ents).
  rewrite !holds_app in Hh. destruct Hh as (_ & H1 & _ & H2 & _ & H3). rewrite Hs, Hr, Hfl in *.
  unfold parse_madt. field H1 (p + 4). field H2 (p + 36). unfold size_of_MadtHeader. rewrite usub_ok by lia. rsimpl.
  rewrite !vadd_high by lia. rsimpl.
  replace (44 + zlen ents - 44) with (zlen ents) by lia. unfold ents. rewrite madt_loop_ok; try done; try lia. fold ents.
  by replace (p + 44) with (p + 4 + zlen (le_bytes 4 (44 + zlen ents)) + 28 + zlen (le_bytes 4 lapic) + 4)
    by (unfold zlen; rewrite !length_le_bytes; lia).
Qed.
End madt.

(** The last source for a processor, or for all of them *)
Definition nmi_for (locals : list LocalNmiSourceData) (pid : Z) : LocalNmiSource :=
  foldl (fun src n => if (acpi_processor_id n =? 0xff) || (acpi_processor_id n =? pid) then {| flags := local_flags n; lint := local_lint n |} else src)
    {| flags := 0; lint := 0 |} locals.
Lemma insert_all_lookup addr (ps : list ProcessorIds) : forall (m : gmap Z Processor) i, NoDup (processor_id <$> ps) -> i ∈ ps ->
  foldl (fun m i => <[processor_id i := Processor_new i addr]> m) m ps !! processor_id i = Some (Processor_new i addr).
Proof.
  induction ps as [|j ps IH]; intros m i Hnd Hi; [by apply not_elem_of_nil in Hi|]. cbn [foldl fmap list_fmap] in *.
  apply NoDup_cons in Hnd as [Hj Hnd]. apply elem_of_cons in Hi as [->|Hi]; [|by apply IH].
  cut (forall m' : gmap Z Processor, m' !! processor_id j = Some (Processor_new j addr) ->
    foldl (fun m i => <[processor_id i := Processor_new i addr]> m) m' ps !! processor_id j = Some (Processor_new j addr)); [|clear -Hj].
  { intros Hc. apply Hc. apply lookup_insert_eq. }
  induction ps as [|k ps IH]; intros m' Hm'; [done|]. cbn [foldl fmap list_fmap] in *. apply not_elem_of_cons in Hj as [Hk Hj].
  apply IH; [done|]. by rewrite lookup_insert_ne.
Qed.
Lemma insert_all_none addr (ps : list ProcessorIds) : forall (m : gmap Z Processor) pid, pid ∉ processor_id <$> ps ->
  foldl (fun m i => <[processor_id i := Processor_new i addr]> m) m ps !! pid = m !! pid.
Proof.
  induction ps as [|j ps IH]; intros m pid Hp; [done|]. cbn [foldl fmap list_fmap] in *. apply not_elem_of_cons in Hp as [Hj Hp].
  rewrite IH by done. by rewrite lookup_insert_ne.
Qed.

Lemma collect_local st k p : collect_processors st !! k = Some p -> local_apic p = local_apic_addr st.
Proof.
  unfold collect_processors. set (m0 := foldl _ ∅ _). assert (forall k p, m0 !! k = Some p -> local_apic p = local_apic_addr st) as H0.
  { subst m0. assert (forall k p, (∅ : gmap Z Processor) !! k = Some p -> local_apic p = local_apic_addr st) as He by (intros ? ?; by rewrite lookup_empty).
    revert He. generalize (∅ : gmap Z Processor). induction (processors_partial st) as [|i ps IH]; intros m Hm; [done|]. cbn [foldl]. apply IH.
    intros k' p'. destruct (decide (processor_id i = k')) as [<-|]; [rewrite lookup_insert_eq; by intros [= <-]|rewrite lookup_insert_ne by done; apply Hm]. }
  revert H0 k p. generalize m0. induction (local_nmi_sources st) as [|n ns IH]; intros m Hm; [done|]. cbn [foldl]. apply IH. intros k p.
  destruct (acpi_processor_id n =? 0xff).
  - rewrite lookup_fmap. destruct (m !! k) eqn:E; cbn; [|done]. intros [= <-]. exact (Hm k _ E).
  - destruct (decide (acpi_processor_id n = k)) as [->|]; [|rewrite lookup_alter_ne by done; apply Hm].
    rewrite lookup_alter_eq. destruct (m !! k) eqn:E; cbn; [|done]. intros [= <-]. exact (Hm k _ E).
Qed.

Lemma collect_none st pid : pid ∉ processor_id <$> processors_partial st -> collect_processors st !! pid = None.
Proof.
  intros Hp. unfold collect_processors. set (m0 := foldl _ ∅ _). assert (m0 !! pid = None) as H0 by (subst m0; rewrite insert_all_none by done; apply lookup_empty).
  revert H0. generalize m0. induction (local_nmi_sources st) as [|n ns IH]; intros m Hm; [done|]. cbn [foldl]. apply IH.
  destruct (acpi_processor_id n =? 0xff); [by rewrite lookup_fmap, Hm|].
  destruct (decide (acpi_processor_id n = pid)) as [->|]; [by rewrite lookup_alter_eq, Hm|by rewrite lookup_alter_ne].
Qed.

(** The processors of the MADT.  With distinct identifiers, the map of
    processors has exactly the enabled ones, each with its identifiers, the
    address of the local APIC, and the pin of the last source of non-maskable
    interrupts that names it or all processors. *)
Theorem processors_of_madt st pid : NoDup (processor_id <$> processors_partial st) ->
  collect_processors st !! pid =
  (i ← list_find (fun i => processor_id i = pid) (processors_partial st);
   Some {| ids := snd i; local_apic := local_apic_addr st; nmi_source := nmi_for (local_nmi_sources st) pid |}).
Proof.
  intros Hnd. unfold collect_processors, nmi_for.
  set (m0 := foldl _ ∅ (processors_partial st)). set (z := {| flags := 0; lint := 0 |}).
  assert (m0 !! pid = (i ← list_find (fun i => processor_id i = pid) (processors_partial st);
    Some {| ids := snd i; local_apic := local_apic_addr st; nmi_source := z |})) as Hm.
  { destruct (list_find _ _) as [[k i]|] eqn:Hfind; cbn.
    - apply list_find_Some in Hfind as (Hk & <- & _). apply insert_all_lookup; [done|]. by eapply list_elem_of_lookup_2.
    - apply list_find_None in Hfind. subst m0. rewrite insert_all_none; [apply lookup_empty|].
      intros Hin. apply list_elem_of_fmap in Hin as (i & -> & Hi). rewrite Forall_forall in Hfind. by apply (Hfind i). }
  revert Hm. generalize m0 z. clear m0 z Hnd. induction (local_nmi_sources st) as [|n ns IH]; intros m z Hm; [done|]. cbn [foldl].
  apply IH. destruct (acpi_processor_id n =? 0xff) eqn:Ha; cbn [orb].
  - rewrite lookup_fmap, Hm. by destruct (list_find _ _).
  - destruct (Z.eqb_spec (acpi_processor_id n) pid) as [->|Hne].
    + rewrite lookup_alter_eq, Hm. by destruct (list_find _ _).
    + rewrite lookup_alter_ne by done. exact Hm.
Qed.

(** ** Tables of a small machine *)
Module SampleAcpi.
Definition hhdm_offset : Z := 2 ^ 64 - 2 ^ 47.
Definition is_canonical (a : Z) : bool := (0 <=? a) && (a <? 2 ^ 47) || (2 ^ 64 - 2 ^ 47 <=? a) && (a <? 2 ^ 64).
Definition virt_addr (a : Z) : option Z := if is_canonical a then Some a else None.
Definition virt_add (a b : Z) : option Z := virt_addr (a + b).
Lemma virt_addr_new a : canonical a -> virt_addr a = Some a.
Proof. unfold canonical, virt_addr, is_canonical. intros Ha. by btrue ((0 <=? a) && (a <? 2 ^ 47) || (2 ^ 64 - 2 ^ 47 <=? a) && (a <? 2 ^ 64)). Qed.
Lemma virt_add_ok a b : 0 <= a -> 0 <= b -> canonical (a + b) -> virt_add a b = Some (a + b).
Proof. intros _ _. apply virt_addr_new. Qed.

(** The byte that makes a table sum to zero *)
Definition checksum (bs : list Z) : Z := (- total bs) mod 256.
Definition entries : list Entry := [ELocalApic 0 0 1; ELocalApic 1 2 1; ELocalApic 2 4 0; EIoApic 8 0xFEC00000 0; EOverride 0 0 2 0; EOverride 0 9 9 0xD; ENmi 5 0x10; ELocalNmi 0xFF 0 1].
Definition madt_rest (c : Z) : list Z := [1; c] ++ replicate 26 0.
Definition madt_bytes (c : Z) : list Z :=
  str "APIC" ++ le_bytes 4 (44 + zlen (concat (encode <$> entries))) ++ madt_rest c ++ le_bytes 4 0xFEE00000 ++ replicate 4 0 ++ concat (encode <$> entries).
Definition madt : list Z := madt_bytes (checksum (madt_bytes 0)).
Definition xsdt_bytes (c : Z) : list Z := str "XSDT" ++ le_bytes 4 44 ++ [1; c] ++ replicate 26 0 ++ le_bytes 8 0x3000.
Definition xsdt : list Z := xsdt_bytes (checksum (xsdt_bytes 0)).
Definition rsdp_bytes (c : Z) : list Z := str "RSD PTR " ++ [c] ++ replicate 6 0 ++ [2] ++ replicate 4 0 ++ le_bytes 4 36 ++ le_bytes 8 0x2000 ++ replicate 4 0.
Definition rsdp : list Z := rsdp_bytes (checksum (take 20 (rsdp_bytes 0))).
Definition byte_in (l : list Z) (base a : Z) : option Z := if base <=? a then l !! Z.to_nat (a - base) else None.
Definition mem (a : Z) : Z :=
  match byte_in rsdp (hhdm_offset + 0x1000) a, byte_in xsdt (hhdm_offset + 0x2000) a, byte_in madt (hhdm_offset + 0x3000) a with
  | Some b, _, _ => b | _, Some b, _ => b | _, _, Some b => b | _, _, _ => 0
  end.
Lemma mem_bytes a : is_byte (mem a).
Proof.
  assert (forall l base, bytes l -> match byte_in l base a with Some b => is_byte b | None => True end) as Hl.
  { intros l base Hl. unfold byte_in. destruct (base <=? a); [|done]. destruct (l !! _) eqn:Hx; [|done]. by eapply Forall_lookup_1 in Hl. }
  unfold mem. pose proof (Hl rsdp (hhdm_offset + 0x1000) ltac:(apply bytes_check; by vm_compute)).
  pose proof (Hl xsdt (hhdm_offset + 0x2000) ltac:(apply bytes_check; by vm_compute)).
  pose proof (Hl madt (hhdm_offset + 0x3000) ltac:(apply bytes_check; by vm_compute)).
  repeat case_match; done.
Qed.
End SampleAcpi.

Lemma madt_roundtrip_witness :
  exists st, @parse_madt dev_build SampleAcpi.mem SampleAcpi.hhdm_offset SampleAcpi.virt_add 8 (SampleAcpi.hhdm_offset + 0x3000) = Ok st /\
    processors_partial st = [{| processor_id := 0; apic_id := 0 |}; {| processor_id := 1; apic_id := 2 |}] /\
    take 3 (isa_irq_gsi st) = [2; 1; 2] /\ polarity_overrides st !! 9%nat = Some (Some HIGH_ACTIVE) /\
    trigger_modes_overrides st !! 9%nat = Some (Some LEVEL_SENSITIVE) /\
    nmi_sources st = [{| nmi_source_id := 5; nmi_flags := 0x10; nmi_gsi := 0x6040000 |}].
Proof.
  eexists. split; [apply (@madt_roundtrip dev_build SampleAcpi.mem SampleAcpi.hhdm_offset SampleAcpi.virt_add SampleAcpi.virt_add_ok
    ltac:(unfold SampleAcpi.hhdm_offset; lia) 8 (SampleAcpi.hhdm_offset + 0x3000) (str "APIC")
    (SampleAcpi.madt_rest (SampleAcpi.checksum (SampleAcpi.madt_bytes 0))) 0xFEE00000 (replicate 4 0) SampleAcpi.entries)|].
  1-4: by vm_compute.
  - unfold SampleAcpi.entries. repeat constructor; unfold is_byte; cbn [entry_ok]; lia.
  - cbn. lia.
  - by vm_compute.
  - unfold SampleAcpi.hhdm_offset. lia.
  - by vm_compute.
  - by vm_compute.
  - by vm_compute.
Defined.
Lemma processors_of_madt_witness :
  let st := foldl (record SampleAcpi.hhdm_offset) (madt_start (SampleAcpi.hhdm_offset + 0xFEE00000)) SampleAcpi.entries in
  collect_processors st !! 1 = Some {| ids := {| processor_id := 1; apic_id := 2 |}; local_apic := SampleAcpi.hhdm_offset + 0xFEE00000; nmi_source := {| flags := 0; lint := 1 |} |} /\
  collect_processors st !! 2 = None.
Proof.
  intros st. assert (NoDup (processor_id <$> processors_partial st)) as Hnd by (apply (bool_decide_unpack _); by vm_compute).
  split; rewrite (processors_of_madt st _ Hnd); by vm_compute.
Defined.
Lemma find_table_first_witness :
  @find_table dev_build SampleAcpi.mem [SampleAcpi.hhdm_offset + 0x2000; SampleAcpi.hhdm_offset + 0x3000] (str "APIC") = Ok (Some (SampleAcpi.hhdm_offset + 0x3000)).
Proof.
  rewrite (@find_table_first dev_build SampleAcpi.mem SampleAcpi.mem_bytes); [by vm_compute|]. repeat constructor; by vm_compute.
Defined.
Lemma root_table_listed_witness :
  @parse_rsdp dev_build SampleAcpi.mem SampleAcpi.hhdm_offset SampleAcpi.virt_addr SampleAcpi.virt_add (Some (SampleAcpi.hhdm_offset + 0x1000)) =
  Ok [SampleAcpi.hhdm_offset + 0x3000].
Proof.
  rewrite (@root_table_listed dev_build SampleAcpi.mem SampleAcpi.hhdm_offset SampleAcpi.virt_addr SampleAcpi.virt_add SampleAcpi.mem_bytes
    SampleAcpi.virt_addr_new SampleAcpi.virt_add_ok (SampleAcpi.hhdm_offset + 0x1000) (SampleAcpi.hhdm_offset + 0x2000) 1); by vm_compute.
Defined.
