(* ===== verification/PerCpu.v ===== *)
(** * The stacks and the data of the processors

    src/kernel/src/arch/x86_64/memory/per_cpu.rs, [setup_stack] of
    frame_allocator.rs and [KernelPageTable] of page_table.rs.

    This code runs once, on the processor that boots, after the frame allocator
    and the page table are set; no one holds their locks.  The page tables are
    those of the x86_64 crate, which takes the frames of its own tables from the
    same allocator: [KernelTables] is its interface, and [KernelTablesLaws] what
    this code relies on.  [virt_addr], [virt_add] and [from_start_address] are
    functions of that crate, too.  [size_of] is the size of a [PerCPUData],
    [tss_offset] where its task segment is.  The data written are a map from
    addresses. *)

From stdpp Require Import gmap.
From S2P Require Import Prelude Bytes Vfs Scheduler Entry Acpi Memory.

(** ** Data *)
Inductive PageTableFlags := PRESENT | WRITABLE | NO_EXECUTE | GLOBAL.
(** Of a task segment, the stacks for interrupts and for privilege level 0 *)
Record TaskStateSegment := { interrupt_stack_table : list Z; privilege_stack_table : list Z }.
Definition TaskStateSegment_new : TaskStateSegment :=
  {| interrupt_stack_table := replicate 7 0; privilege_stack_table := replicate 3 0 |}.
Definition PAGE_FAULT_IST_INDEX : Z := 1.
Record PerCPUData (G : Type) := {
  self_ptr : Z;
  syscall_stack_ptr : Z;
  thread_rsp : Z;
  kernel_task_stack_ptr : Z;
  rsp0_stack_ptr : Z;
  page_fault_stack_ptr : Z;
  cpu_id : Z;
  gdt : option G;
  tss : TaskStateSegment;
  selectors : option Selectors;
  tsc_offset : Z;
  scheduler_context : SchedulerCpuContext;
  apic_timer_ticks_per_ms : Z;
}.
Arguments Build_PerCPUData {G} _ _ _ _ _ _ _ _ _ _ _ _ _.
Arguments self_ptr {G} _.
Arguments syscall_stack_ptr {G} _.
Arguments thread_rsp {G} _.
Arguments kernel_task_stack_ptr {G} _.
Arguments rsp0_stack_ptr {G} _.
Arguments page_fault_stack_ptr {G} _.
Arguments cpu_id {G} _.
Arguments gdt {G} _.
Arguments tss {G} _.
Arguments selectors {G} _.
Arguments tsc_offset {G} _.
Arguments scheduler_context {G} _.
Arguments apic_timer_ticks_per_ms {G} _.
Definition STACKS_BASE : Z := 0xFFFFFF8000000000.
Definition STACK_SIZE : Z := PAGE_SIZE * 8.

(** [map_to] of the crate, with the allocator it takes frames from, and
    [update_flags] *)
Class KernelTables (W : Type) := {
  map_to : Z -> Z -> list PageTableFlags -> BitmapAllocator * W -> option (BitmapAllocator * W);
  update_flags : Z -> list PageTableFlags -> W -> option W;
}.
Record Kernel (W G : Type) := {
  FRAME_ALLOCATOR : option BitmapAllocator;
  KERNEL_PAGE_TABLE : option W;
  per_cpu_memory : gmap Z (PerCPUData G);
  PER_CPU_DATA_PTRS : option (gmap Z Z);
}.
Arguments Build_Kernel {W G} _ _ _ _.
Arguments FRAME_ALLOCATOR {W G} _.
Arguments KERNEL_PAGE_TABLE {W G} _.
Arguments per_cpu_memory {W G} _.
Arguments PER_CPU_DATA_PTRS {W G} _.

Section per_cpu.
Context `{Build} {W : Type} `{KernelTables W} `{GdtCrate}.
Context (hhdm_offset size_of tss_offset : Z) (virt_addr from_start_address : Z -> option Z) (virt_add : Z -> Z -> option Z).
Abbreviation G := GlobalDescriptorTable.
Abbreviation KM := (M (Kernel W G) never).

Definition set_allocator (a : BitmapAllocator) : KM () :=
  modify (fun s => Build_Kernel (Some a) (KERNEL_PAGE_TABLE s) (per_cpu_memory s) (PER_CPU_DATA_PTRS s)).
Definition set_tables (w : W) : KM () :=
  modify (fun s => Build_Kernel (FRAME_ALLOCATOR s) (Some w) (per_cpu_memory s) (PER_CPU_DATA_PTRS s)).
Definition write_data (ptr : Z) (d : PerCPUData G) : KM () :=
  modify (fun s => Build_Kernel (FRAME_ALLOCATOR s) (KERNEL_PAGE_TABLE s) (<[ptr := d]> (per_cpu_memory s)) (PER_CPU_DATA_PTRS s)).
Definition the_allocator : KM BitmapAllocator := o ← gets FRAME_ALLOCATOR; lift (expect o).

(** ** [KernelPageTable] *)
Definition kernel_map_to (page frame : Z) (flags : list PageTableFlags) : KM () :=
  o ← gets KERNEL_PAGE_TABLE;
  w ← lift (expect o);
  a ← the_allocator;
  '(a, w) ← lift (expect (map_to page frame flags (a, w)));
  _ ← set_allocator a;
  set_tables w.
Definition kernel_update_flags (page : Z) (flags : list PageTableFlags) : KM () :=
  o ← gets KERNEL_PAGE_TABLE;
  w ← lift (expect o);
  w ← lift (expect (update_flags page flags w));
  set_tables w.

(** ** [setup_stack]: the frames are collected in a vector of 16. *)
Definition take_frame : KM Z :=
  a ← the_allocator;
  '(o, a, _) ← lift (allocate_frame a None);
  _ ← set_allocator a;
  lift (expect o).
Definition collect_frame (_ : Z) (frames : list Z) : KM (list Z) :=
  frame ← take_frame;
  if zlen frames <? 16 then mret (frames ++ [frame]) else panic.
Definition map_frame (stack_start : Z) (p : Z * Z) (_ : ()) : KM () :=
  let '(idx, frame) := p in
  off ← lift (umul 64 idx PAGE_SIZE);
  a ← lift (uadd 64 stack_start off);
  a ← lift (expect (virt_addr a));
  page ← lift (expect (from_start_address a));
  kernel_map_to page frame [NO_EXECUTE; WRITABLE; PRESENT; GLOBAL].
Definition enumerate {A} (l : list A) : list (Z * A) := zip (seqZ 0 (zlen l)) l.
Definition setup_stack (guard_page_loc len_in_bytes_including_guard : Z) : KM Z :=
  stack_start ← lift (uadd 64 guard_page_loc PAGE_SIZE);
  last ← lift (usub 64 len_in_bytes_including_guard 1);
  frames ← for_each (seqZ 0 (last / PAGE_SIZE)) [] collect_frame;
  _ ← for_each (enumerate frames) () (map_frame stack_start);
  top ← lift (uadd 64 guard_page_loc len_in_bytes_including_guard);
  lift (expect (virt_addr top)).

(** ** [setup_per_cpu_data]; a processor is its number. *)
Definition setup_cpu (start : Z) (p : Z * Z) (acc : Z * gmap Z Z) : KM (Z * gmap Z Z) :=
  let '(i, id) := p in
  let '(cur_stack_base, pointers) := acc in
  off ← lift (umul 64 size_of i);
  ptr ← lift (uadd 64 start off);
  syscall_stack_ptr ← setup_stack cur_stack_base STACK_SIZE;
  cur_stack_base ← lift (uadd 64 cur_stack_base STACK_SIZE);
  rsp0_stack_ptr ← setup_stack cur_stack_base STACK_SIZE;
  cur_stack_base ← lift (uadd 64 cur_stack_base STACK_SIZE);
  page_fault_stack_ptr ← setup_stack cur_stack_base STACK_SIZE;
  cur_stack_base ← lift (uadd 64 cur_stack_base STACK_SIZE);
  kernel_task_stack_ptr ← setup_stack cur_stack_base (STACK_SIZE * 2);
  cur_stack_base ← lift (uadd 64 cur_stack_base (STACK_SIZE * 2));
  let pointers := <[id := ptr]> pointers in
  pf ← lift (expect (virt_addr page_fault_stack_ptr));
  ist ← lift (update (interrupt_stack_table TaskStateSegment_new) PAGE_FAULT_IST_INDEX pf);
  rsp0 ← lift (expect (virt_addr rsp0_stack_ptr));
  pst ← lift (update (privilege_stack_table TaskStateSegment_new) 0 rsp0);
  let tss := {| interrupt_stack_table := ist; privilege_stack_table := pst |} in
  let d g s := Build_PerCPUData ptr syscall_stack_ptr 0 kernel_task_stack_ptr rsp0_stack_ptr page_fault_stack_ptr id g tss s 0
                 SchedulerCpuContext_default 0 in
  _ ← write_data ptr (d None None);
  '(g, s) ← lift (create_gdt (ptr + tss_offset));
  _ ← write_data ptr (d (Some g) (Some s));
  mret (cur_stack_base, pointers).
Definition setup_per_cpu_data (cpus : list Z) : KM () :=
  a ← the_allocator;
  bytes ← lift (umul 64 size_of (zlen cpus));
  rounded ← lift (uadd 64 bytes PAGE_SIZE);
  rounded ← lift (usub 64 rounded 1);
  '(o, a, _) ← lift (allocate_continuous_frames a None (rounded / PAGE_SIZE));
  _ ← set_allocator a;
  frames ← lift (expect o);
  first ← lift (index frames 0);
  start ← lift (expect (virt_add hhdm_offset first));
  '(_, pointers) ← for_each (enumerate cpus) (STACKS_BASE, ∅) (setup_cpu start);
  (* a second set would be ignored *)
  modify (fun s => Build_Kernel (FRAME_ALLOCATOR s) (KERNEL_PAGE_TABLE s) (per_cpu_memory s) (Some (default pointers (PER_CPU_DATA_PTRS s)))).
End per_cpu.

(** ** Counting free frames *)
Definition is_free (a : BitmapAllocator) (i : Z) : Prop := used a i = false.
#[export] Instance is_free_dec a i : Decision (is_free a i).
Proof. unfold is_free. apply _. Defined.
Definition free_count (a : BitmapAllocator) : Z := zlen (filter (is_free a) (seqZ 0 (total a))).
Lemma filter_count {A} `{EqDecision A} (P Q : A -> Prop) `{!forall x, Decision (P x), !forall x, Decision (Q x)} (l : list A) x :
  NoDup l -> x ∈ l -> P x -> (forall y, y ∈ l -> Q y <-> P y /\ y <> x) -> zlen (filter Q l) = zlen (filter P l) - 1.
Proof.
  induction l as [|y l IH]; intros Hnd Hin Hx HQ; [by apply not_elem_of_nil in Hin|]. apply NoDup_cons in Hnd as [Hny Hnd].
  assert (forall z, z ∈ l -> Q z <-> P z /\ z <> x) as HQ' by (intros z Hz; apply HQ; by apply list_elem_of_further).
  destruct (decide (y = x)) as [-> |Hne].
  - rewrite filter_cons_False by (rewrite HQ by apply list_elem_of_here; tauto). rewrite filter_cons_True by done. rewrite zlen_cons.
    replace (filter Q l) with (filter P l); [lia|]. apply filter_ext_Forall, Forall_forall. intros z Hz. rewrite HQ' by done. split; [|tauto].
    intros Hp. split; [done|]. by intros ->.
  - apply elem_of_cons in Hin as [->|Hin]; [done|]. specialize (IH Hnd Hin Hx HQ').
    assert (Q y <-> P y) as Hy by (rewrite HQ by apply list_elem_of_here; tauto). destruct (decide (P y)).
    + rewrite !filter_cons_True by tauto. rewrite !zlen_cons. lia.
    + rewrite !filter_cons_False by tauto. lia.
Qed.
Lemma free_count_nonneg a : 0 <= free_count a.
Proof. apply zlen_nonneg. Qed.
Lemma free_count_full a : (forall i, 0 <= i < total a -> used a i = true) -> free_count a = 0.
Proof.
  intros Hu. unfold free_count. destruct (filter (is_free a) (seqZ 0 (total a))) as [|i l] eqn:E; [done|]. exfalso.
  assert (i ∈ filter (is_free a) (seqZ 0 (total a))) as Hi by (rewrite E; apply list_elem_of_here).
  apply list_elem_of_filter in Hi as [Hf Hi]. apply elem_of_seqZ in Hi. unfold is_free in Hf. by rewrite Hu in Hf by lia.
Qed.

(** [a'] is [a] with the frame of index [i] taken. *)
Definition took (i : Z) (a a' : BitmapAllocator) : Prop :=
  wf a' /\ total a' = total a /\ 0 <= i < total a /\ used a i = false /\ forall j, 0 <= j -> used a' j = (j =? i) || used a j.
Lemma took_count i a a' : took i a a' -> free_count a' = free_count a - 1.
Proof.
  intros (_ & Ht & Hi & Hf & Hu). unfold free_count. rewrite Ht. apply (filter_count (is_free a) (is_free a') _ i).
  - apply NoDup_seqZ.
  - apply elem_of_seqZ. lia.
  - done.
  - intros j Hj. apply elem_of_seqZ in Hj. unfold is_free. rewrite Hu by lia. destruct (Z.eqb_spec j i) as [->|Hne]; cbn; [|tauto]. split; [done|tauto].
Qed.
(** The same for a list of frames *)
Lemma filter_counts {A} `{EqDecision A} (P Q : A -> Prop) {DP : forall x, Decision (P x)} {DQ : forall x, Decision (Q x)} (l ks : list A) :
  NoDup l -> NoDup ks -> Forall (fun x => x ∈ l /\ P x) ks -> (forall y, y ∈ l -> Q y <-> P y /\ y ∉ ks) -> zlen (filter Q l) = zlen (filter P l) - zlen ks.
Proof.
  intros Hl. revert Q DQ. induction ks as [|x ks IH]; intros Q HQdec Hnd Hks HQ.
  - change (zlen (@nil A)) with 0. rewrite Z.sub_0_r. f_equal. apply filter_ext_Forall, Forall_forall. intros y Hy. rewrite HQ by done. split; [tauto|].
    intros Hp. split; [done|apply not_elem_of_nil].
  - apply NoDup_cons in Hnd as [Hx Hnd]. apply Forall_cons in Hks as [[Hxl Hxp] Hks]. rewrite zlen_cons.
    rewrite (filter_count (fun y => P y /\ y ∉ ks) Q l x); [|done|done|done|].
    + rewrite (IH (fun y => P y /\ y ∉ ks) _ Hnd Hks); [lia|done].
    + intros y Hy. rewrite HQ by done. rewrite not_elem_of_cons. tauto.
Qed.
Lemma allocate_took `{Build} a : wf a -> 1 <= free_count a -> exists i a', allocate_frame a None = Ok (Some (i * PAGE_SIZE), a', None) /\ took i a a'.
Proof.
  intros Hwf Hc. destruct (allocate_frame_spec a None Hwf) as [[_ Hfull]|(i & m & Hi & Hf & Hm & Hwf' & He)].
  - rewrite free_count_full in Hc by done. lia.
  - exists i, (mark a m i). split; [exact He|]. split_and!; [done| |lia|lia|done|].
    + unfold total, mark. cbn. pose proof (flipped_zlen _ _ _ _ Hm). done.
    + intros j Hj. rewrite (used_flipped a true [i] m _ j Hj Hm : used (mark a m i) j = _). rewrite (bool_decide_ext (j ∈ [i]) (j = i)) by apply list_elem_of_singleton.
      destruct (Z.eqb_spec j i) as [->|]; [by rewrite bool_decide_eq_true_2|by rewrite bool_decide_eq_false_2].
Qed.

(** [a'] is [a] with the frames of [ks] taken, one after the other. *)
Record takes (ks : list Z) (a a' : BitmapAllocator) : Prop := {
  t_wf : wf a';
  t_total : total a' = total a;
  t_nodup : NoDup ks;
  t_free : Forall (fun i => 0 <= i < total a /\ used a i = false) ks;
  t_used : forall j, 0 <= j -> used a' j = bool_decide (j ∈ ks) || used a j;
  t_count : free_count a' = free_count a - zlen ks;
}.
Lemma takes_nil a : wf a -> takes [] a a.
Proof.
  intros Hwf. split; [done|done|apply NoDup_nil_2|apply Forall_nil_2| |change (zlen (@nil Z)) with 0; lia].
  intros j _. rewrite bool_decide_eq_false_2; [done|apply not_elem_of_nil].
Qed.
Lemma takes_one i a a' : took i a a' -> takes [i] a a'.
Proof.
  intros Hk. pose proof (took_count _ _ _ Hk) as Hc. destruct Hk as (Hwf & Ht & Hi & Hf & Hu).
  split; [done|done|apply NoDup_singleton|by apply Forall_singleton| |done].
  intros j Hj. rewrite Hu by done. f_equal. rewrite (bool_decide_ext _ (j = i)) by apply list_elem_of_singleton.
  destruct (Z.eqb_spec j i); [by rewrite bool_decide_eq_true_2|by rewrite bool_decide_eq_false_2].
Qed.
Lemma takes_app ks js a a' a'' : takes ks a a' -> takes js a' a'' -> takes (ks ++ js) a a''.
Proof.
  intros [W1 T1 N1 F1 U1 C1] [W2 T2 N2 F2 U2 C2]. rewrite Forall_forall in F1, F2. split.
  - done.
  - congruence.
  - apply NoDup_app. split_and!; [done| |done]. intros i Hi Hj. destruct (F2 i Hj) as [Hr Hf]. destruct (F1 i Hi) as [Hr1 _].
    rewrite U1, bool_decide_eq_true_2 in Hf by (done || lia). done.
  - apply Forall_app. split; apply Forall_forall; intros i Hi; [by apply F1|]. destruct (F2 i Hi) as [Hr Hf]. rewrite T1 in Hr. split; [done|].
    rewrite U1 in Hf by lia. by apply orb_false_iff in Hf as [_ Hf].
  - intros j Hj. rewrite U2, U1 by done. rewrite (bool_decide_ext (j ∈ ks ++ js) (j ∈ ks \/ j ∈ js)) by apply elem_of_app.
    rewrite bool_decide_or. destruct (bool_decide (j ∈ ks)), (bool_decide (j ∈ js)); done.
  - rewrite C2, C1, zlen_app. lia.
Qed.

(** What the kernel relies on of the page tables: an unmapped page is mapped
    as long as there are frames for up to three more tables. *)
Class KernelTablesLaws (W : Type) `{KernelTables W} := {
  frame_of : W -> Z -> option Z;
  map_to_ok page frame flags a w : wf a -> page mod PAGE_SIZE = 0 -> frame mod PAGE_SIZE = 0 -> frame_of w page = None -> 3 <= free_count a ->
    exists ks a' w', map_to page frame flags (a, w) = Some (a', w') /\ takes ks a a' /\ zlen ks <= 3 /\
      forall q, frame_of w' q = if q =? page then Some frame else frame_of w q;
}.

Section stacks.
Context `{BB : Build} {W : Type} {HT : KernelTables W} {HL : KernelTablesLaws W} {HG : GdtCrate}.
Context (virt_addr from_start_address : Z -> option Z).
Hypothesis virt_addr_canonical : forall a, canonical a -> virt_addr a = Some a.
Hypothesis from_start_address_ok : forall a, a mod PAGE_SIZE = 0 -> from_start_address a = Some a.
Abbreviation KS := (Kernel W GlobalDescriptorTable).
Implicit Types s : KS.

(** A state with another allocator and other tables *)
Definition with_memory (a : BitmapAllocator) (w : W) s : KS := Build_Kernel (Some a) (Some w) (per_cpu_memory s) (PER_CPU_DATA_PTRS s).
(** The pages [ps] are mapped to frames that were free before, each to one of
    its own; other pages are as they were. *)
Record mapped (ps : list Z) (a : BitmapAllocator) (w : W) (a' : BitmapAllocator) (w' : W) : Prop := {
  m_frames : exists fs ks, takes ks a a' /\ zlen ks <= 4 * zlen ps /\ NoDup fs /\ Forall (.∈ ks) fs /\ length fs = length ps /\
    forall k p f, ps !! k = Some p -> fs !! k = Some f -> frame_of w' p = Some (f * PAGE_SIZE);
  m_others : forall q, q ∉ ps -> frame_of w' q = frame_of w q;
}.
Lemma mapped_app ps qs a w a' w' a'' w'' : mapped ps a w a' w' -> mapped qs a' w' a'' w'' -> ps ## qs -> mapped (ps ++ qs) a w a'' w''.
Proof.
  intros [(fs & ks & T1 & Z1 & N1 & I1 & L1 & F1) O1] [(gs & js & T2 & Z2 & N2 & I2 & L2 & F2) O2] Hd. split.
  - exists (fs ++ gs), (ks ++ js). split_and!.
    + by eapply takes_app.
    + rewrite !zlen_app. lia.
    + pose proof (t_nodup _ _ _ (takes_app _ _ _ _ _ T1 T2)) as Hnd. apply NoDup_app in Hnd as (_ & Hx & _). apply NoDup_app. split_and!; [done| |done].
      rewrite Forall_forall in I1, I2. intros f Hf Hg. by apply (Hx f); [apply I1|apply I2].
    + rewrite Forall_forall in *. intros f Hf. apply elem_of_app. apply elem_of_app in Hf as [Hf|Hf]; [left; by apply I1|right; by apply I2].
    + rewrite !length_app. lia.
    + intros k p f Hp Hf. apply lookup_app_Some in Hp as [Hp|[Hk Hp]].
      * pose proof (lookup_lt_Some _ _ _ Hp). rewrite lookup_app_l in Hf by lia. rewrite O2; [by eapply F1|].
        intros Hq. apply (Hd p); [by apply list_elem_of_lookup_2 in Hp|done].
      * rewrite lookup_app_r in Hf by lia. rewrite L1 in Hf. by eapply F2.
  - intros q Hq. rewrite O2, O1; [done|..]; intros Hin; apply Hq; apply elem_of_app; tauto.
Qed.

Lemma take_frame_ok s a w : FRAME_ALLOCATOR s = Some a -> KERNEL_PAGE_TABLE s = Some w -> wf a -> 1 <= free_count a ->
  exists i a', take_frame s = (Ok (i * PAGE_SIZE), with_memory a' w s) /\ takes [i] a a'.
Proof.
  intros Ha Hw Hwf Hc. destruct (allocate_took a Hwf Hc) as (i & a' & He & Ht). exists i, a'. split; [|by apply takes_one].
  unfold take_frame, the_allocator. rewrite !M_assoc. mstep. rewrite Ha. cbn [expect]. mstep. rewrite He. mstep. unfold with_memory. rewrite <- Hw. reflexivity.
Qed.
Lemma with_memory_again a w a' w' s : with_memory a' w' (with_memory a w s) = with_memory a' w' s.
Proof. done. Qed.
Lemma with_memory_same a w s : FRAME_ALLOCATOR s = Some a -> KERNEL_PAGE_TABLE s = Some w -> with_memory a w s = s.
Proof. intros H1 H2. unfold with_memory. rewrite <- H1, <- H2. by destruct s. Qed.
Lemma collect_frame_ok c fs s a w : FRAME_ALLOCATOR s = Some a -> KERNEL_PAGE_TABLE s = Some w -> wf a -> zlen fs < 16 -> 1 <= free_count a ->
  exists i a', collect_frame c fs s = (Ok (fs ++ [i * PAGE_SIZE]), with_memory a' w s) /\ takes [i] a a'.
Proof.
  intros Ha Hw Hwf Hl Hc. destruct (take_frame_ok s a w Ha Hw Hwf Hc) as (i & a1 & H1 & T1). exists i, a1. split; [|done].
  unfold collect_frame. mrun H1. by btrue (zlen fs <? 16).
Qed.
Lemma collect_frames_ok (n : nat) w : forall c a s fs, FRAME_ALLOCATOR s = Some a -> KERNEL_PAGE_TABLE s = Some w -> wf a -> zlen fs + Z.of_nat n <= 16 ->
  Z.of_nat n <= free_count a -> exists ks a', for_each (seqZ c (Z.of_nat n)) fs collect_frame s = (Ok (fs ++ frames_of ks), with_memory a' w s) /\
    takes ks a a' /\ length ks = n.
Proof.
  induction n as [|n IH]; intros c a s fs Ha Hw Hwf Hl Hc.
  { exists [], a. rewrite with_memory_same by done. split; [by rewrite app_nil_r|]. split; [by apply takes_nil|done]. }
  rewrite seqZ_cons by lia. cbn [for_each]. destruct (collect_frame_ok c fs s a w Ha Hw Hwf) as (i & a1 & H1 & T1); [lia|lia|]. mrun H1.
  replace (Z.pred (Z.of_nat (S n))) with (Z.of_nat n) by lia. pose proof (t_count _ _ _ T1) as Hc1. change (zlen [i]) with 1 in Hc1.
  destruct (IH (Z.succ c) a1 (with_memory a1 w s) (fs ++ [i * PAGE_SIZE])) as (ks & a2 & H2 & T2 & L2); [done|done|apply (t_wf _ _ _ T1)| |lia|].
  { rewrite zlen_app. change (zlen [i * PAGE_SIZE]) with 1. lia. }
  exists (i :: ks), a2. rewrite H2, with_memory_again, <- app_assoc. split; [done|]. split; [by apply (takes_app [i] ks _ a1)|cbn; lia].
Qed.
Lemma kernel_map_ok page frame flags s a w : FRAME_ALLOCATOR s = Some a -> KERNEL_PAGE_TABLE s = Some w -> wf a -> page mod PAGE_SIZE = 0 ->
  frame mod PAGE_SIZE = 0 -> frame_of w page = None -> 3 <= free_count a -> exists ks a' w', kernel_map_to page frame flags s = (Ok (), with_memory a' w' s) /\
    takes ks a a' /\ zlen ks <= 3 /\ forall q, frame_of w' q = if q =? page then Some frame else frame_of w q.
Proof.
  intros Ha Hw Hwf Hp Hf Hn Hc. destruct (map_to_ok page frame flags a w Hwf Hp Hf Hn Hc) as (ks & a' & w' & He & Ht & Hl & Hq). exists ks, a', w'.
  split; [|done]. unfold kernel_map_to, the_allocator. mstep. rewrite Hw. cbn [expect]. mstep. rewrite M_assoc. mstep. rewrite Ha. cbn [expect]. mstep.
  rewrite He. cbn [expect]. mstep. reflexivity.
Qed.

Definition high (a : Z) : Prop := a mod PAGE_SIZE = 0 /\ 2 ^ 64 - 2 ^ 47 <= a.
Lemma page_mod a k : a mod PAGE_SIZE = 0 -> (a + k * PAGE_SIZE) mod PAGE_SIZE = 0.
Proof. intros Ha. by rewrite Z.mod_add. Qed.
Lemma map_frame_ok start c f s a w : FRAME_ALLOCATOR s = Some a -> KERNEL_PAGE_TABLE s = Some w -> wf a -> high start -> 0 <= c ->
  start + c * PAGE_SIZE < 2 ^ 64 -> frame_of w (start + c * PAGE_SIZE) = None -> 3 <= free_count a ->
  exists ks a' w', map_frame virt_addr from_start_address start (c, f * PAGE_SIZE) () s = (Ok (), with_memory a' w' s) /\ takes ks a a' /\ zlen ks <= 3 /\
    forall q, frame_of w' q = if q =? start + c * PAGE_SIZE then Some (f * PAGE_SIZE) else frame_of w q.
Proof.
  intros Ha Hw Hwf [Hm Hh] Hc Hr Hn Hf. unfold map_frame. unfold PAGE_SIZE in *. rewrite umul_ok by lia. mstep. rewrite uadd_ok by lia. mstep.
  rewrite virt_addr_canonical by (unfold canonical; lia). cbn [expect]. mstep. rewrite from_start_address_ok by (by apply page_mod). cbn [expect]. mstep.
  apply kernel_map_ok; try done; [by apply page_mod|by apply Z.mod_mul].
Qed.
Lemma map_frames_ok fs start : high start -> forall c a w s, FRAME_ALLOCATOR s = Some a -> KERNEL_PAGE_TABLE s = Some w -> wf a -> 0 <= c ->
  start + (c + zlen fs) * PAGE_SIZE <= 2 ^ 64 -> (forall j, c <= j < c + zlen fs -> frame_of w (start + j * PAGE_SIZE) = None) -> 3 * zlen fs <= free_count a ->
  exists ks a' w', for_each (zip (seqZ c (zlen fs)) (frames_of fs)) () (map_frame virt_addr from_start_address start) s = (Ok (), with_memory a' w' s) /\
    takes ks a a' /\ zlen ks <= 3 * zlen fs /\
    (forall j f, fs !! j = Some f -> frame_of w' (start + (c + Z.of_nat j) * PAGE_SIZE) = Some (f * PAGE_SIZE)) /\
    forall q, (forall j, c <= j < c + zlen fs -> q <> start + j * PAGE_SIZE) -> frame_of w' q = frame_of w q.
Proof.
  intros Hst. induction fs as [|f fs IH]; intros c a w s Ha Hw Hwf Hc Hr Hn Hf.
  { exists [], a, w. rewrite with_memory_same by done. split; [done|]. split; [by apply takes_nil|]. split_and!; [done| |done]. intros j f Hj. by rewrite lookup_nil in Hj. }
  rewrite zlen_cons in *. pose proof (zlen_nonneg fs) as Hl.
  destruct (map_frame_ok start c f s a w) as (ks & a1 & w1 & H1 & T1 & Z1 & Q1); [done|done|done|done|done|unfold PAGE_SIZE in *; lia|apply Hn; lia|lia|].
  rewrite seqZ_cons by lia. cbn [frames_of fmap list_fmap zip zip_with for_each]. mrun H1. replace (Z.pred (1 + zlen fs)) with (zlen fs) by lia.
  pose proof (t_count _ _ _ T1) as C1.
  destruct (IH (Z.succ c) a1 w1 (with_memory a1 w1 s)) as (js & a2 & w2 & H2 & T2 & Z2 & F2 & O2); [done|done|apply (t_wf _ _ _ T1)|lia| | |lia|].
  { replace (Z.succ c + zlen fs) with (c + (1 + zlen fs)) by lia. done. }
  { intros j Hj. rewrite Q1. rewrite (proj2 (Z.eqb_neq _ _)) by (unfold PAGE_SIZE; lia). apply Hn. lia. }
  exists (ks ++ js), a2, w2. unfold frames_of in H2. rewrite H2, with_memory_again. split; [done|]. split; [by eapply takes_app|]. split; [rewrite zlen_app; lia|]. split.
  - intros [|j] g Hg; cbn in Hg.
    + injection Hg as <-. rewrite O2; [|intros j Hj; unfold PAGE_SIZE; lia]. rewrite Q1. rewrite (proj2 (Z.eqb_eq _ _)) by (f_equal; f_equal; lia). done.
    + apply F2 in Hg. rewrite <- Hg. do 2 f_equal. lia.
  - intros q Hq. rewrite O2 by (intros j Hj; apply Hq; lia). rewrite Q1. rewrite (proj2 (Z.eqb_neq _ _)); [done|]. apply Hq. lia.
Qed.

(** The pages of a stack of [n] pages with its guard page at [g] *)
Definition stack_pages (g n : Z) : list Z := (fun j => g + j * PAGE_SIZE) <$> seqZ 1 (n - 1).
Lemma stack_pages_elem g n q : q ∈ stack_pages g n <-> exists j, 1 <= j < n /\ q = g + j * PAGE_SIZE.
Proof.
  unfold stack_pages. rewrite list_elem_of_fmap. split.
  - intros (j & -> & Hj). apply elem_of_seqZ in Hj. exists j. split; [lia|done].
  - intros (j & Hj & ->). exists j. split; [done|]. apply elem_of_seqZ. lia.
Qed.
Lemma zlen_stack_pages g n : 1 <= n -> zlen (stack_pages g n) = n - 1.
Proof. intros Hn. unfold zlen, stack_pages. rewrite length_fmap, length_seqZ. lia. Qed.
Lemma setup_stack_ok g n s a w : FRAME_ALLOCATOR s = Some a -> KERNEL_PAGE_TABLE s = Some w -> wf a -> high g -> 2 <= n <= 16 ->
  g + n * PAGE_SIZE < 2 ^ 64 -> (forall q, q ∈ stack_pages g n -> frame_of w q = None) -> 4 * (n - 1) <= free_count a ->
  exists a' w', setup_stack virt_addr from_start_address g (n * PAGE_SIZE) s = (Ok (g + n * PAGE_SIZE), with_memory a' w' s) /\
    mapped (stack_pages g n) a w a' w'.
Proof.
  intros Ha Hw Hwf [Hm Hh] Hn Hr Hu Hc. assert (n * PAGE_SIZE - 1 = (n - 1) * PAGE_SIZE + 4095) as Hlen by (unfold PAGE_SIZE; lia).
  assert (high (g + PAGE_SIZE)) as Hst by (split; [replace (g + PAGE_SIZE) with (g + 1 * PAGE_SIZE) by lia; by apply page_mod|unfold PAGE_SIZE; lia]).
  unfold setup_stack. rewrite (uadd_ok 64 g PAGE_SIZE) by (unfold PAGE_SIZE in *; lia). mstep. rewrite usub_ok by (unfold PAGE_SIZE in *; lia). mstep.
  rewrite Hlen, Z.div_add_l by (unfold PAGE_SIZE; lia). change (4095 / PAGE_SIZE) with 0. rewrite Z.add_0_r.
  destruct (collect_frames_ok (Z.to_nat (n - 1)) w 0 a s []) as (fs & a1 & H1 & T1 & L1); [done|done|done|change (zlen (@nil Z)) with 0; lia|lia|].
  rewrite Z2Nat.id in H1 by lia. mrun H1. cbn [app]. assert (zlen fs = n - 1) as Lf by (unfold zlen; lia). pose proof (t_count _ _ _ T1) as C1.
  assert (zlen (frames_of fs) = zlen fs) as Lff by (unfold zlen, frames_of; by rewrite length_fmap).
  unfold enumerate. rewrite Lff.
  destruct (map_frames_ok fs (g + PAGE_SIZE)) with (c := 0) (a := a1) (w := w) (s := with_memory a1 w s) as (ks & a2 & w2 & H2 & T2 & Z2 & F2 & O2);
    [exact Hst|done|done|apply (t_wf _ _ _ T1)|lia|unfold PAGE_SIZE in *; lia| |lia|].
  { intros j Hj. apply Hu, stack_pages_elem. exists (j + 1). split; [lia|unfold PAGE_SIZE; lia]. }
  mrun H2. rewrite uadd_ok by (unfold PAGE_SIZE in *; lia). mstep. rewrite virt_addr_canonical by (unfold canonical, PAGE_SIZE in *; lia). cbn [expect].
  exists a2, w2. split; [reflexivity|]. split.
  - exists fs, (fs ++ ks). split_and!.
    + by eapply takes_app.
    + rewrite zlen_app, zlen_stack_pages by lia. lia.
    + apply (t_nodup _ _ _ T1).
    + apply Forall_forall. intros f Hf. apply elem_of_app. by left.
    + rewrite L1. unfold stack_pages. by rewrite length_fmap, length_seqZ.
    + intros k p f Hp Hf. apply list_lookup_fmap_Some in Hp as (j & -> & Hj). apply lookup_seqZ in Hj as [-> Hj]. rewrite <- (F2 k f Hf). f_equal. unfold PAGE_SIZE. lia.
  - intros q Hq. apply O2. intros j Hj ->. apply Hq, stack_pages_elem. exists (j + 1). split; [lia|unfold PAGE_SIZE; lia].
Qed.

(** The stacks of a processor, from [b] on: for system calls, for interrupts
    from user mode, for page faults, and of the kernel's thread *)
Definition cpu_pages (b : Z) : list Z :=
  stack_pages b 8 ++ stack_pages (b + 8 * PAGE_SIZE) 8 ++ stack_pages (b + 16 * PAGE_SIZE) 8 ++ stack_pages (b + 24 * PAGE_SIZE) 16.
Definition CPU_STACKS : Z := 40 * PAGE_SIZE.
Definition cpu_data (ptr b id : Z) (g : GlobalDescriptorTable) (sel : Selectors) : PerCPUData GlobalDescriptorTable :=
  Build_PerCPUData ptr (b + 8 * PAGE_SIZE) 0 (b + CPU_STACKS) (b + 16 * PAGE_SIZE) (b + 24 * PAGE_SIZE) id (Some g)
    {| interrupt_stack_table := <[1%nat := b + 24 * PAGE_SIZE]> (replicate 7 0); privilege_stack_table := <[0%nat := b + 16 * PAGE_SIZE]> (replicate 3 0) |}
    (Some sel) 0 SchedulerCpuContext_default 0.
Lemma stack_in g n q : q ∈ stack_pages g n -> g < q < g + n * PAGE_SIZE.
Proof. intros (j & Hj & ->)%stack_pages_elem. unfold PAGE_SIZE. lia. Qed.
Lemma cpu_in b q : q ∈ cpu_pages b -> b < q < b + CPU_STACKS.
Proof. unfold cpu_pages, CPU_STACKS, PAGE_SIZE. rewrite !elem_of_app. intros [Hq|[Hq|[Hq|Hq]]]; apply stack_in in Hq; unfold PAGE_SIZE in Hq; lia. Qed.
Lemma zlen_cpu_pages b : zlen (cpu_pages b) = 36.
Proof. unfold cpu_pages. rewrite !zlen_app, !zlen_stack_pages by lia. done. Qed.
Lemma mapped_next ps g n a w a' w' s' : mapped ps a w a' w' -> (forall q, q ∈ ps -> q < g) -> FRAME_ALLOCATOR s' = Some a' -> KERNEL_PAGE_TABLE s' = Some w' ->
  high g -> 2 <= n <= 16 -> g + n * PAGE_SIZE < 2 ^ 64 -> (forall q, q ∈ stack_pages g n -> frame_of w q = None) -> 4 * (zlen ps + (n - 1)) <= free_count a ->
  exists a2 w2, setup_stack virt_addr from_start_address g (n * PAGE_SIZE) s' = (Ok (g + n * PAGE_SIZE), with_memory a2 w2 s') /\
    mapped (ps ++ stack_pages g n) a w a2 w2.
Proof.
  intros Hm Hps Ha Hw Hg Hn Hr Hu Hc. pose proof Hm as [(fs & ks & T & Z1 & Hrest) O]. pose proof (t_count _ _ _ T) as C.
  destruct (setup_stack_ok g n s' a' w' Ha Hw (t_wf _ _ _ T) Hg Hn Hr) as (a2 & w2 & H2 & M2).
  - intros q Hq. rewrite O; [by apply Hu|]. intros Hin. apply Hps in Hin. apply stack_in in Hq. lia.
  - lia.
  - exists a2, w2. split; [exact H2|]. eapply mapped_app; [exact Hm|exact M2|]. intros q H1 H3. apply Hps in H1. apply stack_in in H3. lia.
Qed.
Lemma mapped_nil a w : wf a -> mapped [] a w a w.
Proof.
  intros Hwf. split; [|done]. exists [], []. split; [by apply takes_nil|]. split; [done|]. split; [apply NoDup_nil_2|]. split; [apply Forall_nil_2|]. split; [done|].
  intros k p f Hp. by rewrite lookup_nil in Hp.
Qed.

Context {HGL : GdtLaws} (hhdm_offset size_of tss_offset : Z) (virt_add : Z -> Z -> option Z).
Abbreviation setup_cpu' := (setup_cpu size_of tss_offset virt_addr from_start_address).
Ltac stack_side Hu :=
  first
    [ done
    | lia
    | unfold CPU_STACKS, PAGE_SIZE in *; lia
    | let q := fresh "q" in let Hq := fresh "Hq" in intros q Hq; cbn [app] in Hq; apply Hu; unfold cpu_pages; rewrite ?elem_of_app; tauto
    | let q := fresh "q" in let Hq := fresh "Hq" in intros q Hq; cbn [app] in Hq; rewrite ?elem_of_app in Hq;
      repeat match type of Hq with _ \/ _ => destruct Hq as [Hq|Hq] end; apply stack_in in Hq; unfold PAGE_SIZE in *; lia
    | cbn [app]; rewrite ?zlen_app, ?zlen_stack_pages by lia; change (zlen (@nil Z)) with 0; lia ].
Lemma cpu_stacks_ok b s a w : FRAME_ALLOCATOR s = Some a -> KERNEL_PAGE_TABLE s = Some w -> wf a -> high b -> b + CPU_STACKS < 2 ^ 64 ->
  (forall q, q ∈ cpu_pages b -> frame_of w q = None) -> 144 <= free_count a ->
  let st k n := setup_stack virt_addr from_start_address (b + k * PAGE_SIZE) (n * PAGE_SIZE) in
  exists a1 w1 a2 w2 a3 w3 a' w', st 0 8 s = (Ok (b + 8 * PAGE_SIZE), with_memory a1 w1 s) /\
    st 8 8 (with_memory a1 w1 s) = (Ok (b + 16 * PAGE_SIZE), with_memory a2 w2 s) /\ st 16 8 (with_memory a2 w2 s) = (Ok (b + 24 * PAGE_SIZE), with_memory a3 w3 s) /\
    st 24 16 (with_memory a3 w3 s) = (Ok (b + CPU_STACKS), with_memory a' w' s) /\ mapped (cpu_pages b) a w a' w'.
Proof.
  intros Ha Hw Hwf [Hm Hh] Hr Hu Hc st. assert (forall k, 0 <= k -> high (b + k * PAGE_SIZE)) as Hhigh.
  { intros k Hk. split; [by apply page_mod|unfold PAGE_SIZE; lia]. }
  assert (b + 0 * PAGE_SIZE = b) as H0 by lia.
  destruct (mapped_next [] (b + 0 * PAGE_SIZE) 8 a w a w s) as (a1 & w1 & H1 & M1); [by apply mapped_nil|intros q Hq; by apply not_elem_of_nil in Hq|rewrite ?H0; stack_side Hu..|].
  destruct (mapped_next _ (b + 8 * PAGE_SIZE) 8 a w a1 w1 (with_memory a1 w1 s) M1) as (a2 & w2 & H2 & M2); [rewrite ?H0; by apply Hhigh || stack_side Hu..|].
  destruct (mapped_next _ (b + 16 * PAGE_SIZE) 8 a w a2 w2 (with_memory a2 w2 s) M2) as (a3 & w3 & H3 & M3); [rewrite ?H0; by apply Hhigh || stack_side Hu..|].
  destruct (mapped_next _ (b + 24 * PAGE_SIZE) 16 a w a3 w3 (with_memory a3 w3 s) M3) as (a4 & w4 & H4 & M4); [rewrite ?H0; by apply Hhigh || stack_side Hu..|].
  exists a1, w1, a2, w2, a3, w3, a4, w4. rewrite ?with_memory_again in *. unfold st. rewrite H1, H2, H3, H4. unfold CPU_STACKS.
  split_and!; [f_equal; f_equal; lia..|]. unfold cpu_pages. rewrite !app_assoc. rewrite H0 in M4. exact M4.
Qed.
Lemma setup_cpu_ok start i id b ptrs s a w : FRAME_ALLOCATOR s = Some a -> KERNEL_PAGE_TABLE s = Some w -> wf a -> high b -> b + CPU_STACKS < 2 ^ 64 ->
  0 <= size_of * i -> 0 <= start -> start + size_of * i < 2 ^ 64 -> (forall q, q ∈ cpu_pages b -> frame_of w q = None) -> 144 <= free_count a ->
  let ptr := start + size_of * i in
  exists a' w' g sel, setup_cpu' start (i, id) (b, ptrs) s = (Ok (b + CPU_STACKS, <[id := ptr]> ptrs),
      Build_Kernel (Some a') (Some w') (<[ptr := cpu_data ptr b id g sel]> (per_cpu_memory s)) (PER_CPU_DATA_PTRS s)) /\
    create_gdt (ptr + tss_offset) = Ok (g, sel) /\ mapped (cpu_pages b) a w a' w'.
Proof.
  intros Ha Hw Hwf Hb Hr Hi Hs Hp Hu Hc ptr. destruct (cpu_stacks_ok b s a w Ha Hw Hwf Hb Hr Hu Hc) as (a1 & w1 & a2 & w2 & a3 & w3 & a4 & w4 & H1 & H2 & H3 & H4 & HM).
  destruct (create_gdt_ok (ptr + tss_offset)) as (g & Hg & _). replace (b + 0 * PAGE_SIZE) with b in H1 by lia. destruct Hb as [_ Hb].
  eexists a4, w4, g, _. split; [|split; [exact Hg|exact HM]]. unfold setup_cpu. rewrite umul_ok by lia. mstep. rewrite (uadd_ok 64 start) by lia. mstep. fold ptr.
  change STACK_SIZE with (8 * PAGE_SIZE). change (8 * PAGE_SIZE * 2) with (16 * PAGE_SIZE). unfold CPU_STACKS in *.
  mrun H1. rewrite (uadd_ok 64 b (8 * PAGE_SIZE)) by (unfold PAGE_SIZE in *; lia). mstep. mrun H2.
  rewrite (uadd_ok 64 _ (8 * PAGE_SIZE)) by (unfold PAGE_SIZE in *; lia). mstep. replace (b + 8 * PAGE_SIZE + 8 * PAGE_SIZE) with (b + 16 * PAGE_SIZE) by lia. mrun H3.
  rewrite (uadd_ok 64 _ (8 * PAGE_SIZE)) by (unfold PAGE_SIZE in *; lia). mstep. replace (b + 16 * PAGE_SIZE + 8 * PAGE_SIZE) with (b + 24 * PAGE_SIZE) by lia. mrun H4.
  rewrite (uadd_ok 64 _ (16 * PAGE_SIZE)) by (unfold PAGE_SIZE in *; lia). mstep. replace (b + 24 * PAGE_SIZE + 16 * PAGE_SIZE) with (b + 40 * PAGE_SIZE) by lia.
  rewrite !virt_addr_canonical by (unfold canonical, PAGE_SIZE in *; lia). cbn [expect]. mstep. rewrite update_ok by done. mstep. mstep. rewrite update_ok by done. mstep.
  erewrite M_bind_run by reflexivity. rewrite Hg. mstep. erewrite M_bind_run by reflexivity.
  cbn [with_memory per_cpu_memory PER_CPU_DATA_PTRS FRAME_ALLOCATOR KERNEL_PAGE_TABLE]. rewrite insert_insert_eq. reflexivity.
Qed.

(** The pages of the stacks of [n] processors *)
Fixpoint all_pages (b : Z) (n : nat) : list Z := match n with O => [] | S n => cpu_pages b ++ all_pages (b + CPU_STACKS) n end.
Lemma all_in n : forall b q, q ∈ all_pages b n -> b < q < b + Z.of_nat n * CPU_STACKS.
Proof.
  induction n as [|n IH]; intros b q Hq; [by apply not_elem_of_nil in Hq|]. cbn in Hq. apply elem_of_app in Hq as [Hq|Hq].
  - apply cpu_in in Hq. unfold CPU_STACKS, PAGE_SIZE in *. lia.
  - apply IH in Hq. unfold CPU_STACKS, PAGE_SIZE in *. lia.
Qed.
Abbreviation ptr_of start k := (start + size_of * k).
Hypothesis size_pos : 0 < size_of.
Definition set_up (start b : Z) (c : Z) (cpus : list Z) (ptrs : gmap Z Z) (mem : gmap Z (PerCPUData GlobalDescriptorTable)) : Prop :=
  forall k id, cpus !! k = Some id -> let ptr := ptr_of start (c + Z.of_nat k) in
    ptrs !! id = Some ptr /\ exists g sel, create_gdt (ptr + tss_offset) = Ok (g, sel) /\ mem !! ptr = Some (cpu_data ptr (b + Z.of_nat k * CPU_STACKS) id g sel).
Lemma setup_cpus_ok start cpus : 0 <= start -> NoDup cpus -> forall c b ptrs s a w, FRAME_ALLOCATOR s = Some a -> KERNEL_PAGE_TABLE s = Some w -> wf a -> high b -> 0 <= c ->
  b + zlen cpus * CPU_STACKS < 2 ^ 64 -> ptr_of start (c + zlen cpus) < 2 ^ 64 -> (forall q, q ∈ all_pages b (length cpus) -> frame_of w q = None) ->
  144 * zlen cpus <= free_count a ->
  exists a' w' ptrs' mem', for_each (zip (seqZ c (zlen cpus)) cpus) (b, ptrs) (setup_cpu' start) s =
      (Ok (b + zlen cpus * CPU_STACKS, ptrs'), Build_Kernel (Some a') (Some w') mem' (PER_CPU_DATA_PTRS s)) /\
    mapped (all_pages b (length cpus)) a w a' w' /\ set_up start b c cpus ptrs' mem' /\ (forall id, id ∉ cpus -> ptrs' !! id = ptrs !! id) /\
    forall p, p < ptr_of start c -> mem' !! p = per_cpu_memory s !! p.
Proof.
  intros Hs. induction cpus as [|id cpus IH]; intros Hnd c b ptrs s a w Ha Hw Hwf Hb Hc Hr Hp Hu Hf.
  { exists a, w, ptrs, (per_cpu_memory s). change (zlen (@nil Z)) with 0. split; [cbn; destruct s; cbn in *; by rewrite Ha, Hw, Z.add_0_r|].
    split; [by apply mapped_nil|]. split; [intros k id Hk; by rewrite lookup_nil in Hk|done]. }
  apply NoDup_cons in Hnd as [Hid Hnd]. rewrite zlen_cons in *. pose proof (zlen_nonneg cpus) as Hl. cbn [length all_pages] in *.
  assert (high (b + CPU_STACKS)) as Hb' by (destruct Hb as [Hb1 Hb2]; split; [by apply page_mod|unfold CPU_STACKS, PAGE_SIZE; lia]).
  destruct (setup_cpu_ok start c id b ptrs s a w) as (a1 & w1 & g & sel & H1 & G1 & M1); [done|done|done|done|unfold CPU_STACKS, PAGE_SIZE in *; nia|nia|done|nia| |lia|].
  { intros q Hq. apply Hu, elem_of_app. by left. }
  pose proof M1 as [(fs & ks & T1 & Z1 & _) O1]. pose proof (t_count _ _ _ T1) as C1. rewrite zlen_cpu_pages in Z1.
  set (s1 := Build_Kernel (Some a1) (Some w1) _ _) in H1.
  destruct (IH Hnd (Z.succ c) (b + CPU_STACKS) (<[id := ptr_of start c]> ptrs) s1 a1 w1) as (a2 & w2 & ptrs2 & mem2 & H2 & M2 & S2 & P2 & Q2);
    [done|done|apply (t_wf _ _ _ T1)|done|lia|lia|nia| |lia|].
  { intros q Hq. rewrite O1; [apply Hu, elem_of_app; by right|]. intros Hin. apply cpu_in in Hin. apply all_in in Hq. lia. }
  exists a2, w2, ptrs2, mem2. rewrite seqZ_cons by lia. cbn [zip zip_with for_each]. mrun H1. replace (Z.pred (1 + zlen cpus)) with (zlen cpus) by lia.
  rewrite H2. split; [f_equal; f_equal; f_equal; lia|]. split.
  { eapply mapped_app; [exact M1|exact M2|]. intros q Hq1 Hq2. apply cpu_in in Hq1. apply all_in in Hq2. lia. }
  split_and!.
  - intros [|k] id' Hk; cbn in Hk.
    + injection Hk as <-. rewrite P2, lookup_insert_eq by done. replace (c + Z.of_nat 0) with c by lia. split; [done|]. exists g, sel. split; [done|].
      rewrite Q2 by nia. cbn [s1 per_cpu_memory]. rewrite lookup_insert_eq. do 2 f_equal. lia.
    + destruct (S2 k id' Hk) as (Hx & g' & sel' & Hg' & Hm'). replace (c + Z.of_nat (S k)) with (Z.succ c + Z.of_nat k) by lia.
      replace (b + Z.of_nat (S k) * CPU_STACKS) with (b + CPU_STACKS + Z.of_nat k * CPU_STACKS) by lia. split; [exact Hx|]. by exists g', sel'.
  - intros id' Hn. apply not_elem_of_cons in Hn as [Hne Hn]. rewrite P2 by done. by apply lookup_insert_ne.
  - intros p Hpp. rewrite Q2 by nia. cbn [s1 per_cpu_memory]. apply lookup_insert_ne. lia.
Qed.

(** The frames of the data *)
Lemma run_takes a i len m n : wf a -> free_run a i len -> 1 <= len -> flipped true (seqZ i len) (mem (bitmap a)) m -> 0 <= n <= total a ->
  takes (seqZ i len) a {| bitmap := set_mem (bitmap a) m; next := n |}.
Proof.
  intros Hwf (H0 & H1 & Hfree) Hlen Hm Hn. set (a' := {| bitmap := _; next := n |}).
  assert (forall j, 0 <= j -> used a' j = bool_decide (j ∈ seqZ i len) || used a j) as Hu.
  { intros j Hj. unfold a'. rewrite (used_flipped a true (seqZ i len) m n j Hj Hm). by destruct (bool_decide _). }
  assert (total a' = total a) as Ht by (unfold total, a'; cbn; by rewrite (flipped_zlen _ _ _ _ Hm) || done).
  split; [by eapply wf_flipped|done|apply NoDup_seqZ| |done|].
  - apply Forall_forall. intros j Hj. apply elem_of_seqZ in Hj. split; [lia|apply Hfree; lia].
  - unfold free_count. rewrite Ht. apply filter_counts; [apply NoDup_seqZ|apply NoDup_seqZ| |].
    + apply Forall_forall. intros j Hj. apply elem_of_seqZ in Hj. split; [apply elem_of_seqZ; lia|apply Hfree; lia].
    + intros j Hj. apply elem_of_seqZ in Hj. unfold is_free. rewrite Hu by lia. rewrite orb_false_iff, bool_decide_eq_false. tauto.
Qed.
Lemma all_elem n : forall b q, q ∈ all_pages b n -> exists k j, 0 <= k < Z.of_nat n /\ 0 < j < 40 /\ j <> 8 /\ j <> 16 /\ j <> 24 /\ q = b + (40 * k + j) * PAGE_SIZE.
Proof.
  induction n as [|n IH]; intros b q Hq; [by apply not_elem_of_nil in Hq|]. cbn in Hq. apply elem_of_app in Hq as [Hq|Hq].
  - exists 0. unfold cpu_pages in Hq. rewrite !elem_of_app in Hq.
    destruct Hq as [Hq|[Hq|[Hq|Hq]]]; apply stack_pages_elem in Hq as (j & Hj & ->); [exists j|exists (8 + j)|exists (16 + j)|exists (24 + j)]; unfold PAGE_SIZE; lia.
  - apply IH in Hq as (k & j & Hk & Hj & H1 & H2 & H3 & ->). exists (k + 1), j. unfold CPU_STACKS, PAGE_SIZE. lia.
Qed.

(** ** The theorems *)
Hypothesis virt_add_canonical : forall a b, 0 <= a -> 0 <= b -> canonical (a + b) -> virt_add a b = Some (a + b).
Abbreviation data_pages cpus := ((size_of * zlen cpus + PAGE_SIZE - 1) / PAGE_SIZE).
(** What the code finds: the memory is mapped below the area of the stacks,
    which is empty, the numbers of the processors are different, and there is
    a run of frames for the data and enough others for the stacks and tables. *)
Record boot_ok (cpus : list Z) s (a : BitmapAllocator) (w : W) : Prop := {
  b_allocator : FRAME_ALLOCATOR s = Some a;
  b_tables : KERNEL_PAGE_TABLE s = Some w;
  b_first : PER_CPU_DATA_PTRS s = None;
  b_wf : wf a;
  b_cpus : NoDup cpus /\ 0 < zlen cpus;
  b_run : exists i, free_run a i (data_pages cpus);
  b_frames : 144 * zlen cpus + data_pages cpus <= free_count a;
  b_hhdm : 2 ^ 64 - 2 ^ 47 <= hhdm_offset /\ hhdm_offset + total a * PAGE_SIZE <= STACKS_BASE;
  b_room : STACKS_BASE + zlen cpus * CPU_STACKS < 2 ^ 64;
  b_empty : forall q, STACKS_BASE <= q -> frame_of w q = None;
}.
Abbreviation setup := (setup_per_cpu_data hhdm_offset size_of tss_offset virt_addr from_start_address virt_add).
Lemma setup_ok cpus s a w : boot_ok cpus s a w -> exists i a1 a' w' ptrs mem,
  setup cpus s = (Ok (), Build_Kernel (Some a') (Some w') mem (Some ptrs)) /\ free_run a i (data_pages cpus) /\ takes (seqZ i (data_pages cpus)) a a1 /\
  mapped (all_pages STACKS_BASE (length cpus)) a1 w a' w' /\ set_up (hhdm_offset + i * PAGE_SIZE) STACKS_BASE 0 cpus ptrs mem /\
  forall id, id ∉ cpus -> ptrs !! id = None.
Proof.
  intros [Ha Hw Hfst Hwf [Hnd Hpos] [i0 Hi0] Hfree [Hh1 Hh2] Hroom Hempty]. set (n := data_pages cpus) in *.
  assert (1 <= n /\ size_of * zlen cpus <= n * PAGE_SIZE) as [Hn Hn'] by (unfold n, PAGE_SIZE; Z.to_euclidean_division_equations; nia).
  pose proof (total_small a Hwf) as Ht. assert (n <= total a) as Hnt by (destruct Hi0 as (? & ? & _); lia). unfold STACKS_BASE in *.
  unfold setup_per_cpu_data, the_allocator. rewrite M_assoc. mstep. rewrite Ha. cbn [expect]. mstep. rewrite umul_ok by (unfold PAGE_SIZE in *; nia). mstep.
  rewrite uadd_ok by (unfold PAGE_SIZE in *; nia). mstep. rewrite usub_ok by (unfold PAGE_SIZE in *; nia). mstep. fold n.
  destruct (allocate_continuous_frames_spec a None n Hwf Hn) as [[_ Hno]|(i & m & nx & Hrun & _ & Hm & Hnx & He)]; [by destruct (Hno i0)|].
  rewrite He. mstep. erewrite M_bind_run by reflexivity. cbn [expect]. mstep. pose proof (run_takes a i n m nx Hwf Hrun Hn Hm Hnx) as T1.
  set (a1 := {| bitmap := _; next := nx |}) in *. pose proof (t_count _ _ _ T1) as C1. assert (zlen (seqZ i n) = n) as Hz by (unfold zlen; rewrite length_seqZ; lia).
  rewrite (index_ok (frames_of (seqZ i n)) 0 (i * PAGE_SIZE)) by (first [lia|unfold frames_of; rewrite list_lookup_fmap, lookup_seqZ_lt by lia; cbn; do 2 f_equal; lia]).
  mstep. destruct Hrun as (Hi & Hi' & Hrun). rewrite virt_add_canonical by (unfold canonical, PAGE_SIZE in *; lia). cbn [expect]. mstep. unfold enumerate.
  set (s1 := Build_Kernel (Some a1) _ _ _).
  destruct (setup_cpus_ok (hhdm_offset + i * PAGE_SIZE) cpus) with (c := 0) (b := 0xFFFFFF8000000000) (ptrs := ∅ : gmap Z Z) (s := s1) (a := a1) (w := w)
    as (a' & w' & ptrs & mem & H2 & M2 & S2 & P2 & _); [unfold PAGE_SIZE; lia|done|done|exact Hw|apply (t_wf _ _ _ T1)|split; [done|lia]|lia|lia|unfold PAGE_SIZE in *; nia| |lia|].
  { intros q Hq. apply Hempty. apply all_in in Hq. lia. }
  mrun H2. exists i, a1, a', w', ptrs, mem. split_and!; [|exact (conj Hi (conj Hi' Hrun))|exact T1|exact M2|exact S2|exact P2].
  cbn [modify PER_CPU_DATA_PTRS FRAME_ALLOCATOR KERNEL_PAGE_TABLE per_cpu_memory s1]. by rewrite Hfst.
Qed.

(** C21: every processor gets data and stacks of its own.  Whenever there is
    memory for them, the set-up ends; the data are in a run of frames that was
    free; the pages of the stacks, four for each processor, are mapped to
    frames that were free as well and not those of the data, no two pages to
    the same frame; the page below each stack is not mapped; and nothing else
    has changed in the page table. *)
Theorem stacks_separate cpus s a w : boot_ok cpus s a w -> exists i a1 a' w' ptrs mem,
  setup cpus s = (Ok (), Build_Kernel (Some a') (Some w') mem (Some ptrs)) /\
  (forall j, i <= j < i + data_pages cpus -> used a j = false /\ used a1 j = true) /\
  (exists fs, NoDup fs /\ length fs = length (all_pages STACKS_BASE (length cpus)) /\ Forall (fun f => used a1 f = false /\ used a' f = true) fs /\
    forall k p f, all_pages STACKS_BASE (length cpus) !! k = Some p -> fs !! k = Some f -> frame_of w' p = Some (f * PAGE_SIZE)) /\
  (forall k d, 0 <= k < zlen cpus -> d ∈ [0; 8; 16; 24] -> frame_of w' (STACKS_BASE + k * CPU_STACKS + d * PAGE_SIZE) = None) /\
  (forall q, q ∉ all_pages STACKS_BASE (length cpus) -> frame_of w' q = frame_of w q).
Proof.
  intros Hok. destruct (setup_ok cpus s a w Hok) as (i & a1 & a' & w' & ptrs & mem & H1 & (Hi & Hi' & Hrun) & T1 & [(fs & ks & T2 & _ & Hnd & Hfs & Hlen & Hf) O] & _ & _).
  exists i, a1, a', w', ptrs, mem. split; [exact H1|]. split_and!.
  - intros j Hj. split; [by apply Hrun|]. rewrite (t_used _ _ _ T1) by lia. rewrite bool_decide_eq_true_2; [done|]. apply elem_of_seqZ. lia.
  - exists fs. split_and!; [done|done| |done]. pose proof (t_free _ _ _ T2) as F2. rewrite Forall_forall in Hfs, F2 |- *. intros f Hin.
    destruct (F2 f (Hfs f Hin)) as [Hr Hx]. split; [done|]. rewrite (t_used _ _ _ T2) by lia. by rewrite bool_decide_eq_true_2 by (by apply Hfs).
  - intros k d Hk Hd. rewrite O; [apply (b_empty _ _ _ _ Hok)|].
    + assert (0 <= d) by (rewrite !elem_of_cons in Hd; destruct Hd as [->|[->|[->|[->|Hd]]]]; [lia..|by apply not_elem_of_nil in Hd]). unfold CPU_STACKS, PAGE_SIZE. lia.
    + intros Hin. apply all_elem in Hin as (k' & j & Hk' & Hj & H8 & H16 & H24 & He). unfold CPU_STACKS, PAGE_SIZE in He.
      rewrite !elem_of_cons in Hd. destruct Hd as [->|[->|[->|[->|Hd]]]]; [lia..|by apply not_elem_of_nil in Hd].
  - exact O.
Qed.

(** The data of the [k]-th processor of the list are where the entry of system
    calls can use them. *)
Lemma data_usable cpus s a w i k f : boot_ok cpus s a w -> (k < length cpus)%nat -> 0 <= i -> i + data_pages cpus <= total a ->
  let ptr := ptr_of (hhdm_offset + i * PAGE_SIZE) (Z.of_nat k) in let top := STACKS_BASE + Z.of_nat k * CPU_STACKS + 8 * PAGE_SIZE in
  rd64 f (ptr + 8) = top -> 24 <= size_of -> cpu_memory ptr top f.
Proof.
  intros [_ _ _ Hwf _ _ _ [Hh1 Hh2] Hroom _] Hk Hi Hi' ptr top Hf H24.
  assert (size_of * zlen cpus <= data_pages cpus * PAGE_SIZE) as Hn by (unfold PAGE_SIZE; Z.to_euclidean_division_equations; lia).
  assert (size_of * (Z.of_nat k + 1) <= size_of * zlen cpus) as Hs by (apply Z.mul_le_mono_nonneg_l; [lia|unfold zlen; lia]).
  assert (ptr + size_of <= STACKS_BASE /\ 2 ^ 64 - 2 ^ 47 <= ptr) as [Hp1 Hp2] by (unfold ptr, PAGE_SIZE in *; lia).
  assert (0 <= Z.of_nat k * CPU_STACKS <= (zlen cpus - 1) * CPU_STACKS) as Hb by (unfold zlen, CPU_STACKS, PAGE_SIZE; lia).
  unfold top, STACKS_BASE, CPU_STACKS, PAGE_SIZE in *. split; [lia|exact Hf| |lia]. split; [lia|]. Z.to_euclidean_division_equations. lia.
Qed.

(** C22: which data a processor loads.  The data are entered under the number
    the boot loader gives a processor and looked up under the number in the id
    register of its local APIC.  After the set-up, on a processor whose APIC has
    the number [l]: if no processor has [l] as its number, the kernel stops; if
    the [j]-th has, the base of [gs] is set to the data of that one, which hold
    its table of segments and the tops of its stacks, as the entry of system
    calls needs them, with a task segment that gives interrupts from user mode
    and page faults theirs.  These are the stacks of the processor that runs, the
    [k]-th with the number [id], exactly if its two numbers agree. *)
Theorem data_by_apic_number cpus s a w l id_register m : boot_ok cpus s a w -> 0 <= l < 256 -> id_register / 2 ^ 24 = l -> exists ptrs s',
  setup cpus s = (Ok (), s') /\ PER_CPU_DATA_PTRS s' = Some ptrs /\
  (l ∉ cpus -> set_per_cpu_data_for_core ptrs id_register m = Panic) /\
  (forall j, cpus !! j = Some l -> exists m' ptr d g sel,
    set_per_cpu_data_for_core ptrs id_register m = Ok m' /\ get_per_cpu_data m' = ptr /\ per_cpu_memory s' !! ptr = Some d /\
    cpu_id d = l /\ self_ptr d = ptr /\ gdt d = Some g /\ selectors d = Some sel /\ create_gdt (ptr + tss_offset) = Ok (g, sel) /\
    (let b := STACKS_BASE + Z.of_nat j * CPU_STACKS in
      syscall_stack_ptr d = b + 8 * PAGE_SIZE /\ rsp0_stack_ptr d = b + 16 * PAGE_SIZE /\ page_fault_stack_ptr d = b + 24 * PAGE_SIZE /\ kernel_task_stack_ptr d = b + CPU_STACKS /\
      privilege_stack_table (tss d) !! 0%nat = Some (rsp0_stack_ptr d) /\
      interrupt_stack_table (tss d) !! Z.to_nat PAGE_FAULT_IST_INDEX = Some (page_fault_stack_ptr d)) /\
    (forall f, rd64 f (ptr + 8) = syscall_stack_ptr d -> 24 <= size_of -> cpu_memory ptr (syscall_stack_ptr d) f) /\
    forall k id, cpus !! k = Some id -> (syscall_stack_ptr d = STACKS_BASE + Z.of_nat k * CPU_STACKS + 8 * PAGE_SIZE <-> id = l)).
Proof.
  intros Hok Hl Hreg. destruct (setup_ok cpus s a w Hok) as (i & a1 & a' & w' & ptrs & mem & H1 & (Hi & Hi' & _) & _ & _ & S1 & N1).
  assert (Z.land (Z.shiftr id_register 24) 0xFF = l) as Hland.
  { rewrite Z.shiftr_div_pow2 by lia. rewrite Hreg. change 0xFF with (Z.ones 8). rewrite Z.land_ones by lia. apply Z.mod_small. lia. }
  exists ptrs. eexists. split; [exact H1|]. split; [reflexivity|]. unfold set_per_cpu_data_for_core. rewrite Hland. split.
  { intros Hn. by rewrite (N1 l Hn). }
  intros j Hj. destruct (S1 j l Hj) as (Hp & g & sel & Hg & Hm). replace (0 + Z.of_nat j) with (Z.of_nat j) in * by lia.
  set (ptr := ptr_of (hhdm_offset + i * PAGE_SIZE) (Z.of_nat j)) in *. eexists. exists ptr. do 3 eexists. rewrite Hp. cbn [expect]. rsimpl.
  split; [reflexivity|]. split; [reflexivity|]. split; [exact Hm|]. do 4 (split; [reflexivity|]). split; [exact Hg|]. split; [by split_and!|]. split.
  { intros f. cbn [cpu_data syscall_stack_ptr]. apply (data_usable cpus s a w i j f Hok); [by eapply lookup_lt_Some|lia|lia]. }
  intros k id Hk. cbn [cpu_data syscall_stack_ptr]. destruct (b_cpus _ _ _ _ Hok) as [Hnd _]. split.
  - intros He. assert (j = k) as -> by (unfold CPU_STACKS, PAGE_SIZE in He; lia). congruence.
  - intros ->. by rewrite (NoDup_lookup _ _ _ _ Hnd Hk Hj).
Qed.
End stacks.

(** ** Samples *)
Module SamplePerCpu.
(** Tables that need no frames of their own *)
Definition Maps : Type := Z -> option Z.
#[export] Instance maps : KernelTables Maps :=
  { map_to page frame _ p := match p.2 page with None => Some (p.1, fun q => if q =? page then Some frame else p.2 q) | Some _ => None end;
    update_flags page _ w := match w page with Some _ => Some w | None => None end }.
#[export] Program Instance maps_laws : KernelTablesLaws Maps := { frame_of w := w }.
Next Obligation.
  intros page frame flags a w Hwf _ _ Hn _. exists [], a. cbn in *. rewrite Hn. eexists. split; [reflexivity|]. split; [by apply takes_nil|done].
Qed.
Definition from_start_address (a : Z) : option Z := if a mod PAGE_SIZE =? 0 then Some a else None.
Lemma from_start_ok a : a mod PAGE_SIZE = 0 -> from_start_address a = Some a.
Proof. intros Ha. unfold from_start_address. by rewrite Ha. Qed.
(** 512 free frames and two processors *)
Definition allocator : BitmapAllocator :=
  {| bitmap := {| start := 0; blength := 64; page_length := 1; mem := replicate 64 0 |}; next := 0 |}.
Lemma frames_wf : wf allocator.
Proof. split; [split; [done|by apply bytes_check|vm_compute; congruence]|vm_compute; split; congruence]. Qed.
Definition hhdm : Z := 0xFFFF800000000000.
Definition cpus : list Z := [0; 3].
Definition booting : Kernel Maps (list Slot) := Build_Kernel (Some allocator) (Some (fun _ => None)) ∅ None.
Lemma booting_ok : @boot_ok Maps maps maps_laws SampleEntry.table hhdm 768 cpus booting allocator (fun _ => None).
Proof.
  split; try done.
  - exact frames_wf.
  - split; [|done]. apply (bool_decide_unpack _). vm_compute. exact I.
  - exists 0. split; [lia|]. split; [vm_compute; congruence|]. intros j Hj. change ((768 * zlen cpus + PAGE_SIZE - 1) / PAGE_SIZE) with 1 in Hj.
    assert (j = 0) as -> by lia. vm_compute. reflexivity.
Qed.
End SamplePerCpu.
Import SamplePerCpu.

Lemma stacks_separate_witness : exists a' w' ptrs mem,
  @setup_per_cpu_data dev_build Maps _ SampleEntry.table hhdm 768 128 SampleAcpi.virt_addr from_start_address SampleAcpi.virt_add cpus booting =
    (Ok (), Build_Kernel (Some a') (Some w') mem (Some ptrs)) /\ w' STACKS_BASE = None.
Proof.
  destruct (@stacks_separate dev_build Maps maps maps_laws SampleEntry.table SampleAcpi.virt_addr from_start_address SampleAcpi.virt_addr_new from_start_ok
    SampleEntry.table_laws hhdm 768 128 SampleAcpi.virt_add ltac:(lia) SampleAcpi.virt_add_ok cpus booting allocator (fun _ => None) booting_ok)
    as (i & a1 & a' & w' & ptrs & mem & H1 & _ & _ & Hg & _).
  exists a', w', ptrs, mem. split; [exact H1|]. apply (Hg 0 0); [vm_compute; split; congruence|apply list_elem_of_here].
Defined.
(** The boot loader calls the processors 0 and 3; the APIC number 3 leads to the
    data of the second, the number 1 stops the kernel. *)
Lemma data_by_apic_number_witness : exists ptrs s' m' d,
  @setup_per_cpu_data dev_build Maps _ SampleEntry.table hhdm 768 128 SampleAcpi.virt_addr from_start_address SampleAcpi.virt_add cpus booting = (Ok (), s') /\
  PER_CPU_DATA_PTRS s' = Some ptrs /\ set_per_cpu_data_for_core ptrs 0x03000000 SampleEntry.kernel = Ok m' /\
  per_cpu_memory s' !! get_per_cpu_data m' = Some d /\ cpu_id d = 3.
Proof.
  destruct (@data_by_apic_number dev_build Maps maps maps_laws SampleEntry.table SampleAcpi.virt_addr from_start_address SampleAcpi.virt_addr_new from_start_ok
    SampleEntry.table_laws hhdm 768 128 SampleAcpi.virt_add ltac:(lia) SampleAcpi.virt_add_ok cpus booting allocator (fun _ => None) 3 0x03000000 SampleEntry.kernel booting_ok)
    as (ptrs & s' & H1 & H2 & _ & Hd); [lia|reflexivity|]. destruct (Hd 1%nat eq_refl) as (m' & ptr & d & g & sel & H3 & H4 & H5 & H6 & _).
  exists ptrs, s', m', d. rewrite H4. split_and!; [exact H1|exact H2|exact H3|exact H5|exact H6].
Defined.
