(* ===== verification/Apic.v ===== *)
(** * Interrupt controllers

    src/kernel/src/arch/x86_64/acpi/apic.rs: the local APIC, the I/O APIC with
    its redirection entries, and [init_apic], which sets them up from the MADT
    of Acpi.v.

    The machine is a parameter, [Platform]: its registers are read and written
    at virtual addresses, and pages are mapped by the x86_64 crate, which
    refuses a page that is mapped already.  [IoApicLaws] is what the driver
    relies on of an I/O APIC: a selected register keeps what is written to it,
    the bits apart that only the controller sets.

    Shown here: the fields of a redirection entry are independent; an entry
    written is read back; after [isa_bootstrap] the entry of an interrupt is
    that of the last ISA line routed to it, and all others are unchanged; what
    [init_apic] returns. *)

From S2P Require Import Prelude Bytes Acpi.
From stdpp Require Import gmap.
#[local] Open Scope Z_scope.

Definition SPURIOUS_INTERRUPT_HANDLER_IDX : Z := 0xFF.
Definition PRIMARY_ISA_PIC_OFFSET : Z := 32.
Definition FIXED : Z := 0.
Definition PHYSICAL : Z := 0.
Definition MASKED : Z := 1.
Definition UNMASKED : Z := 0.
(** Registers of the local APIC *)
Definition apic_id_register : Z := 0x20.
Definition task_priority : Z := 0x80.
Definition spurious_interrupt_vector : Z := 0xF0.
(** The two registers of an I/O APIC, and the ones behind them *)
Definition io_cmd : Z := 0x00.
Definition io_data : Z := 0x10.
Definition IOAPICID : Z := 0x00.
Definition IOAPICVER : Z := 0x01.
Definition IOAPICARB : Z := 0x02.
Definition REDIRECTION_TABLE_BASE : Z := 0x10.

(** ** Redirection entries *)
Inductive EntryField :=
| Vector | DeliveryMode | DestinationMode | DeliveryStatus | Polarity | RemoteIrr | TriggerMode | InterruptMask | Destination.
#[global] Instance EntryField_eq_dec : EqDecision EntryField.
Proof. solve_decision. Defined.
Definition get_entry (f : EntryField) (e : Z) : Z :=
  match f with
  | Vector => wrap 8 (Z.land e 0xFF)
  | DeliveryMode => wrap 8 (Z.land (Z.shiftr e 8) 7)
  | DestinationMode => wrap 8 (Z.land (Z.shiftr e 11) 1)
  | DeliveryStatus => wrap 8 (Z.land (Z.shiftr e 12) 1)
  | Polarity => wrap 8 (Z.land (Z.shiftr e 13) 1)
  | RemoteIrr => wrap 8 (Z.land (Z.shiftr e 14) 1)
  | TriggerMode => wrap 8 (Z.land (Z.shiftr e 15) 1)
  | InterruptMask => wrap 8 (Z.land (Z.shiftr e 16) 1)
  | Destination => wrap 8 (Z.shiftr e 56)
  end.
(** [!x] *)
Definition not64 (x : Z) : Z := Z.lxor (Z.ones 64) x.
Definition put_at (e mask at_ v : Z) : Z := Z.lor (Z.land e (not64 (wrap 64 (Z.shiftl mask at_)))) (wrap 64 (Z.shiftl v at_)).
(** The delivery status and the remote IRR have no setter. *)
Definition set_entry (f : EntryField) (v e : Z) : Z :=
  match f with
  | Vector => Z.land e (not64 0xFF) + v
  | DeliveryMode => put_at e 7 8 v
  | DestinationMode => put_at e 1 11 v
  | Polarity => put_at e 1 13 v
  | TriggerMode => put_at e 1 15 v
  | InterruptMask => put_at e 1 16 v
  | Destination => put_at e 0xFF 56 v
  | DeliveryStatus | RemoteIrr => e
  end.

(** ** The machine *)
Class Platform (W : Type) := {
  load32 : Z -> W -> Z * W;
  store32 : Z -> Z -> W -> W;
  map_page : Z -> Z -> Z -> W -> option W;  (* size, page, frame *)
}.
Record Sys (W : Type) := { world : W; LOCAL_APIC_ADDR : Z }.
Arguments Build_Sys {W} _ _.
Arguments world {W} _.
Arguments LOCAL_APIC_ADDR {W} _.

Section apic.
Context `{Build} {W : Type} `{Platform W} (hhdm_offset : Z) (virt_add : Z -> Z -> option Z) (phys_addr : Z -> option Z).
Abbreviation P := (M (Sys W) never).
Definition loading (a : Z) : P Z := fun s => let '(v, w) := load32 a (world s) in (Ok v, Build_Sys w (LOCAL_APIC_ADDR s)).
Definition storing (a v : Z) : P () := fun s => (Ok (), Build_Sys (store32 a v (world s)) (LOCAL_APIC_ADDR s)).
Definition mapping (size page frame : Z) : P () := fun s =>
  match map_page size page frame (world s) with Some w => (Ok (), Build_Sys w (LOCAL_APIC_ADDR s)) | None => (Panic, s) end.
Definition read_reg (base off : Z) : P Z := a ← lift (vadd virt_add base off); loading a.
Definition write_reg (base off v : Z) : P () := a ← lift (vadd virt_add base off); storing a v.
(** [map_to] of a 4 KiB page, the one an address is in *)
Definition containing (size a : Z) : Z := a - a mod size.
Definition map_mmio (base : Z) : P () :=
  n ← lift (usub 64 base hhdm_offset);
  p ← lift (expect (phys_addr n));
  mapping 4096 (containing 4096 base) (containing 4096 p).

(** ** The local APIC *)
Definition enable (base : Z) : P () :=
  _ ← write_reg base task_priority 0;
  write_reg base spurious_interrupt_vector (Z.lor SPURIOUS_INTERRUPT_HANDLER_IDX (Z.shiftl 1 8)).

(** ** An I/O APIC *)
Definition io_read_id (a : IoApic) : P Z := _ ← write_reg (io_base a) io_cmd IOAPICID; read_reg (io_base a) io_data.
Definition io_write_id (a : IoApic) (input : Z) : P () := _ ← write_reg (io_base a) io_cmd IOAPICID; write_reg (io_base a) io_cmd input.
Definition read_version (a : IoApic) : P Z := _ ← write_reg (io_base a) io_cmd IOAPICVER; read_reg (io_base a) io_data.
Definition read_arbitration_id (a : IoApic) : P Z := _ ← write_reg (io_base a) io_cmd IOAPICARB; read_reg (io_base a) io_data.
Definition write_redirection_entry (a : IoApic) (entry_num value : Z) : P () :=
  let register_id := REDIRECTION_TABLE_BASE + entry_num * 2 in
  _ ← write_reg (io_base a) io_cmd register_id;
  _ ← write_reg (io_base a) io_data (wrap 32 value);
  _ ← write_reg (io_base a) io_cmd (register_id + 1);
  write_reg (io_base a) io_data (wrap 32 (Z.shiftr value 32)).
Definition read_redirection_entry (a : IoApic) (entry_num : Z) : P Z :=
  let register_id := REDIRECTION_TABLE_BASE + entry_num * 2 in
  _ ← write_reg (io_base a) io_cmd register_id;
  lo ← read_reg (io_base a) io_data;
  _ ← write_reg (io_base a) io_cmd (register_id + 1);
  hi ← read_reg (io_base a) io_data;
  lift (uadd 64 lo (wrap 64 (Z.shiftl hi 32))).

Definition isa_entry (trigger polarity : option Z) (local_apic_id i : Z) : res never Z :=
  v ← uadd 8 PRIMARY_ISA_PIC_OFFSET i;
  let e := set_entry Vector v 0 in
  let e := set_entry DeliveryMode FIXED e in
  let e := set_entry DestinationMode PHYSICAL e in
  let e := match polarity with Some p => set_entry Polarity p e | None => set_entry Polarity HIGH_ACTIVE e end in
  let e := match trigger with Some m => set_entry TriggerMode m e | None => set_entry TriggerMode EDGE_SENSITIVE e end in
  let e := if negb (i =? 0) then set_entry InterruptMask UNMASKED e else set_entry InterruptMask MASKED e in
  Ok (set_entry Destination local_apic_id e).
(** Whether an interrupt belongs to another I/O APIC; the version is only read
    if it is not below the first one *)
Definition elsewhere (a : IoApic) (gsi : Z) : P bool :=
  if gsi <? global_system_interrupt_base a then mret true else
  v ← read_version a;
  last ← lift (uadd 32 (global_system_interrupt_base a) (Z.land (Z.shiftr v 16) 0xFF));
  mret (last <? gsi).
Definition isa_line (a : IoApic) (irq_to_gsi_map : list Z) (triggers polarities : list (option Z)) (local_apic_id i : Z) : P () :=
  gsi ← lift (index irq_to_gsi_map i);
  skip ← elsewhere a gsi;
  if skip : bool then mret () else
  idx_in_apic ← lift (usub 32 gsi (global_system_interrupt_base a));
  p ← lift (index polarities i);
  m ← lift (index triggers i);
  e ← lift (isa_entry m p local_apic_id i);
  write_redirection_entry a (wrap 8 idx_in_apic) e.
Definition isa_bootstrap (a : IoApic) (irq_to_gsi_map : list Z) (triggers polarities : list (option Z)) (local_apic_id : Z) : P () :=
  for_each (seqZ 0 16) () (fun i _ => isa_line a irq_to_gsi_map triggers polarities local_apic_id i).

(** ** [init_apic] *)
Definition init_apic (mem : Z -> Z) (fuel : nat) (madt_ptr : Z) : P (gmap Z Processor * list Z * Z * list IoApic) :=
  st ← lift (parse_madt mem hhdm_offset virt_add fuel madt_ptr);
  let processors := collect_processors st in
  let local_apic_base := local_apic_addr st in
  _ ← map_mmio local_apic_base;
  id ← read_reg local_apic_base apic_id_register;
  let local_apic_id := Z.shiftr id 24 in
  p ← lift (expect (processors !! wrap 8 local_apic_id));
  _ ← enable (local_apic p);
  _ ← for_each (io_apics st) () (fun a _ =>
        _ ← map_mmio (io_base a);
        if global_system_interrupt_base a =? 0
        then isa_bootstrap a (isa_irq_gsi st) (trigger_modes_overrides st) (polarity_overrides st) (wrap 8 local_apic_id)
        else mret ());
  _ ← modify (fun s => Build_Sys (world s) local_apic_base);
  mret (processors, isa_irq_gsi st, local_apic_base, io_apics st).
Definition get_local_apic (virt_addr : Z -> option Z) : P Z := a ← gets LOCAL_APIC_ADDR; lift (expect (virt_addr a)).
End apic.

(** ** Fields *)
Definition field_at (f : EntryField) : Z * Z :=
  match f with
  | Vector => (0, 8) | DeliveryMode => (8, 3) | DestinationMode => (11, 1) | DeliveryStatus => (12, 1) | Polarity => (13, 1)
  | RemoteIrr => (14, 1) | TriggerMode => (15, 1) | InterruptMask => (16, 1) | Destination => (56, 8)
  end.
Definition settable (f : EntryField) : bool := match f with DeliveryStatus | RemoteIrr => false | _ => true end.
Definition in_field (f : EntryField) (j : Z) : bool := let '(o, w) := field_at f in (o <=? j) && (j <? o + w).

Lemma put_at_bits e o w v j : 0 <= e < 2 ^ 64 -> 0 <= o -> 0 < w -> o + w <= 64 -> 0 <= v < 2 ^ w -> 0 <= j ->
  Z.testbit (put_at e (Z.ones w) o v) j = if (o <=? j) && (j <? o + w) then Z.testbit v (j - o) else Z.testbit e j.
Proof.
  intros He Ho Hw Hm Hv Hj. unfold put_at, not64.
  assert (forall x, 0 <= x < 2 ^ w -> wrap 64 (Z.shiftl x o) = Z.shiftl x o) as Hwrap.
  { intros x Hx. apply wrap_small. rewrite Z.shiftl_mul_pow2 by done. assert (0 < 2 ^ o) by (apply Z.pow_pos_nonneg; lia).
    assert (2 ^ w * 2 ^ o <= 2 ^ 64) by (rewrite <- Z.pow_add_r by lia; apply Z.pow_le_mono_r; lia). nia. }
  rewrite !Hwrap by (done || (rewrite Z.ones_equiv; assert (0 < 2 ^ w) by (apply Z.pow_pos_nonneg; lia); lia)).
  rewrite Z.lor_spec, Z.land_spec, Z.lxor_spec, !Z.shiftl_spec by done.
  destruct (Z.leb_spec o j), (Z.ltb_spec j (o + w)); cbn [andb].
  - rewrite !Z.ones_spec_low by lia. cbn. by rewrite andb_false_r.
  - rewrite (Z.ones_spec_high w) by lia. rewrite (testbit_high w v) by (done || lia). rewrite xorb_false_r, orb_false_r.
    destruct (Z.lt_ge_cases j 64); [rewrite Z.ones_spec_low by lia; apply andb_true_r|].
    by rewrite (testbit_high 64 e) by (done || lia).
  - rewrite !(Z.testbit_neg_r _ (j - o)) by lia. rewrite Z.ones_spec_low by lia. cbn. by rewrite andb_true_r, orb_false_r.
  - lia.
Qed.
Lemma put_at_range e o w v : 0 <= e < 2 ^ 64 -> 0 <= o -> 0 < w -> o + w <= 64 -> 0 <= v < 2 ^ w -> 0 <= put_at e (Z.ones w) o v < 2 ^ 64.
Proof.
  intros. apply (lor_range 64); [lia| |apply wrap_range; lia]. rewrite Z.land_comm. apply land_range; [lia| |done].
  apply (lxor_range 64); [lia|done|apply wrap_range; lia].
Qed.
Lemma set_vector_is e v : 0 <= e < 2 ^ 64 -> 0 <= v < 2 ^ 8 -> set_entry Vector v e = put_at e (Z.ones 8) 0 v.
Proof.
  intros He Hv. cbn [set_entry]. change 0xFF with (Z.ones 8). unfold put_at. rewrite !Z.shiftl_0_r.
  change (wrap 64 (Z.ones 8)) with (Z.ones 8). rewrite (wrap_small 64) by lia.
  assert (Z.land e (not64 (Z.ones 8)) = Z.shiftl (Z.shiftr e 8) 8) as ->.
  { apply Z.bits_inj_iff'. intros j Hj. unfold not64. rewrite Z.land_spec, Z.lxor_spec, Z.shiftl_spec by done.
    destruct (Z.lt_ge_cases j 8).
    - rewrite !Z.ones_spec_low by lia. rewrite andb_false_r. by rewrite Z.testbit_neg_r by lia.
    - rewrite (Z.ones_spec_high 8), xorb_false_r, Z.shiftr_spec by lia. replace (j - 8 + 8) with j by lia.
      destruct (Z.lt_ge_cases j 64); [rewrite Z.ones_spec_low by lia; apply andb_true_r|].
      by rewrite (testbit_high 64 e) by (done || lia). }
  rewrite Z.lor_comm, lor_shiftl_add, Z.shiftl_mul_pow2 by lia. lia.
Qed.
Lemma set_entry_put f v e : settable f = true -> 0 <= e < 2 ^ 64 -> 0 <= v < 2 ^ (field_at f).2 ->
  set_entry f v e = put_at e (Z.ones (field_at f).2) (field_at f).1 v.
Proof. intros Hs He Hv. destruct f; try done. by apply set_vector_is. Qed.
Lemma get_entry_is f e : 0 <= e < 2 ^ 64 -> get_entry f e = (e / 2 ^ (field_at f).1) mod 2 ^ (field_at f).2.
Proof.
  intros He. assert (forall x w, 0 <= w <= 8 -> wrap 8 (Z.land x (Z.ones w)) = x mod 2 ^ w) as Hland.
  { intros x w Hw. rewrite Z.land_ones by lia. apply wrap_small. pose proof (Z.mod_pos_bound x (2 ^ w)) as Hb.
    assert (0 < 2 ^ w) by (apply Z.pow_pos_nonneg; lia). assert (2 ^ w <= 2 ^ 8) by (apply Z.pow_le_mono_r; lia). lia. }
  destruct f; cbn [get_entry field_at fst snd]; rewrite ?Z.shiftr_div_pow2 by lia.
  1: change 0xFF with (Z.ones 8); rewrite Hland, Z.div_1_r by lia; done.
  1: change 7 with (Z.ones 3); by rewrite Hland by lia.
  1-6: change 1 with (Z.ones 1) at 1; by rewrite Hland by lia.
  done.
Qed.

(** The fields of a redirection entry are independent.  Setting one to a
    value of its width makes it that value, leaves every other as it was, and
    gives a 64-bit number again. *)
Theorem redirection_fields f g v e : settable f = true -> 0 <= e < 2 ^ 64 -> 0 <= v < 2 ^ (field_at f).2 ->
  0 <= set_entry f v e < 2 ^ 64 /\ get_entry g (set_entry f v e) = if decide (f = g) then v else get_entry g e.
Proof.
  intros Hs He Hv. rewrite set_entry_put by done. assert (0 <= (field_at f).1 /\ 0 < (field_at f).2 /\ (field_at f).1 + (field_at f).2 <= 64) as (Ho & Hw & Hm)
    by (destruct f; cbn; lia).
  pose proof (put_at_range e (field_at f).1 (field_at f).2 v He Ho Hw Hm Hv) as Hr. split; [done|]. rewrite get_entry_is by done.
  assert (0 <= (field_at g).1 /\ 0 < (field_at g).2) as (Hog & Hwg) by (destruct g; cbn; lia).
  apply Z.bits_inj_iff'. intros j Hj. destruct (Z.lt_ge_cases j (field_at g).2) as [Hlt|Hge].
  - rewrite Z.mod_pow2_bits_low, Z.div_pow2_bits by lia. rewrite put_at_bits by (done || lia). case_decide as Hfg.
    + subst g. btrue (((field_at f).1 <=? j + (field_at f).1) && (j + (field_at f).1 <? (field_at f).1 + (field_at f).2)). f_equal. lia.
    + assert ((field_at f).1 + (field_at f).2 <= (field_at g).1 \/ (field_at g).1 + (field_at g).2 <= (field_at f).1) as Hd
        by (clear -Hfg; destruct f, g; cbn; try done; lia).
      bfalse (((field_at f).1 <=? j + (field_at g).1) && (j + (field_at g).1 <? (field_at f).1 + (field_at f).2)).
      rewrite get_entry_is by done. by rewrite Z.mod_pow2_bits_low, Z.div_pow2_bits by lia.
  - rewrite Z.mod_pow2_bits_high by lia. case_decide; [subst g; by rewrite (testbit_high (field_at f).2) by (done || lia)|].
    rewrite get_entry_is by done. by rewrite Z.mod_pow2_bits_high by lia.
Qed.
Lemma redirection_fields_witness :
  get_entry Vector (set_entry Destination 3 0x10021) = 0x21 /\ get_entry InterruptMask (set_entry Destination 3 0x10021) = 1 /\
  get_entry Destination (set_entry Destination 3 0x10021) = 3.
Proof.
  split_and!.
  - exact (proj2 (redirection_fields Destination Vector 3 0x10021 eq_refl ltac:(lia) ltac:(cbn; lia))).
  - exact (proj2 (redirection_fields Destination InterruptMask 3 0x10021 eq_refl ltac:(lia) ltac:(cbn; lia))).
  - exact (proj2 (redirection_fields Destination Destination 3 0x10021 eq_refl ltac:(lia) ltac:(cbn; lia))).
Defined.

(** The entry of an ISA line; every field is set above the ones before it *)
Definition isa_value (trigger polarity : option Z) (local_apic_id i : Z) : Z :=
  (32 + i) + 2 ^ 13 * default HIGH_ACTIVE polarity + 2 ^ 15 * default EDGE_SENSITIVE trigger +
  2 ^ 16 * (if i =? 0 then MASKED else UNMASKED) + 2 ^ 56 * local_apic_id.
Lemma put_at_above e o w v : 0 <= o -> 0 < w -> o + w <= 64 -> 0 <= e < 2 ^ o -> 0 <= v < 2 ^ w -> put_at e (Z.ones w) o v = e + 2 ^ o * v.
Proof.
  intros Ho Hw Hm He Hv. assert (2 ^ o <= 2 ^ 64) by (apply Z.pow_le_mono_r; lia). rewrite <- (lor_shiftl_add o) by done.
  apply Z.bits_inj_iff'. intros j Hj. rewrite put_at_bits by (done || lia). rewrite Z.lor_spec, Z.shiftl_spec by done.
  destruct (Z.leb_spec o j), (Z.ltb_spec j (o + w)); cbn [andb].
  - by rewrite (testbit_high o e) by (done || lia).
  - by rewrite (testbit_high w v), orb_false_r by (done || lia).
  - by rewrite (Z.testbit_neg_r v), orb_false_r by lia.
  - lia.
Qed.
Definition flag_ok (o : option Z) : Prop := match o with Some x => x = 0 \/ x = 1 | None => True end.
Lemma flag_range o : flag_ok o -> 0 <= default 0 o < 2 ^ 1.
Proof. destruct o as [x|]; cbn [flag_ok]; [intros [-> | ->]; done|done]. Qed.
Lemma isa_entry_ok `{Build} t p id i : flag_ok t -> flag_ok p -> is_byte id -> 0 <= i < 16 -> isa_entry t p id i = Ok (isa_value t p id i).
Proof.
  intros Ht Hp Hid Hi. unfold isa_entry, PRIMARY_ISA_PIC_OFFSET. rewrite uadd_ok by lia. rsimpl. f_equal. unfold is_byte in Hid.
  assert (set_entry DestinationMode PHYSICAL (set_entry DeliveryMode FIXED (set_entry Vector (32 + i) 0)) = 32 + i) as ->.
  { rewrite set_vector_is by lia. rewrite (put_at_above 0 0 8) by lia. cbn [set_entry]. change 7 with (Z.ones 3). change 1 with (Z.ones 1).
    unfold FIXED, PHYSICAL. rewrite !(put_at_above _ 8), !(put_at_above _ 11) by lia. lia. }
  assert (exists q, default HIGH_ACTIVE p = q /\ 0 <= q < 2 ^ 1 /\ match p with Some x => set_entry Polarity x (32 + i) | None => set_entry Polarity HIGH_ACTIVE (32 + i) end
    = 32 + i + 2 ^ 13 * q) as (q & Hq & Hq1 & ->).
  { exists (default HIGH_ACTIVE p). pose proof (flag_range p Hp). unfold HIGH_ACTIVE in *. split_and!; [done|lia|lia|].
    destruct p as [x|]; cbn [set_entry from_option Datatypes.id] in *; change 1 with (Z.ones 1) at 1; rewrite put_at_above by lia; done. }
  assert (exists r, default EDGE_SENSITIVE t = r /\ 0 <= r < 2 ^ 1 /\ match t with Some x => set_entry TriggerMode x (32 + i + 2 ^ 13 * q)
    | None => set_entry TriggerMode EDGE_SENSITIVE (32 + i + 2 ^ 13 * q) end = 32 + i + 2 ^ 13 * q + 2 ^ 15 * r) as (r & Hr & Hr1 & ->).
  { exists (default EDGE_SENSITIVE t). pose proof (flag_range t Ht). unfold EDGE_SENSITIVE in *. split_and!; [done|lia|lia|].
    destruct t as [x|]; cbn [set_entry from_option Datatypes.id] in *; change 1 with (Z.ones 1) at 1; rewrite put_at_above by lia; done. }
  unfold isa_value. rewrite Hq, Hr. unfold MASKED, UNMASKED.
  destruct (i =? 0); cbn [negb set_entry]; change 1 with (Z.ones 1); change 0xFF with (Z.ones 8);
    rewrite !(put_at_above _ 16), !(put_at_above _ 56) by (change (Z.ones 1) with 1 in *; lia); change (Z.ones 1) with 1; lia.
Qed.

(** ** An I/O APIC with entries 0 to [max] *)
(** What can be written to a register: the bits of an entry the controller does
    not set itself, and the destination *)
Definition storable (r v : Z) : bool :=
  if Z.even r then fits 17 v && (Z.land v 0x5000 =? 0) else fits 32 v && (v mod 2 ^ 24 =? 0).
Class IoApicLaws (W : Type) (base max : Z) `{Platform W} := {
  sel : W -> Z;
  reg : W -> Z -> Z;
  max_range : 0 <= max < 256;
  store_cmd w v : sel (store32 (base + io_cmd) v w) = v /\ forall r, reg (store32 (base + io_cmd) v w) r = reg w r;
  store_data w v : 0x10 <= sel w <= 0x11 + 2 * max -> storable (sel w) v = true ->
    sel (store32 (base + io_data) v w) = sel w /\
    forall r, reg (store32 (base + io_data) v w) r = if r =? sel w then v else reg w r;
  load_data w : (load32 (base + io_data) w).1 = reg w (sel w) /\ sel (load32 (base + io_data) w).2 = sel w /\
    forall r, reg (load32 (base + io_data) w).2 r = reg w r;
  version w : Z.land (Z.shiftr (reg w IOAPICVER) 16) 0xFF = max;
}.
Arguments sel {W} base max {_ _} _.
Arguments reg {W} base max {_ _} _ _.
Definition entry_in {W} base max `{IoApicLaws W base max} (w : W) (g : Z) : Z := reg base max w (0x10 + 2 * g) + 2 ^ 32 * reg base max w (0x11 + 2 * g).

Section io_apic.
Context `{BB : Build} {W : Type} {base max : Z} {HP : Platform W} {HL : IoApicLaws W base max} (virt_add : Z -> Z -> option Z).
Hypothesis virt_add_canonical : forall a b, 0 <= a -> 0 <= b -> canonical (a + b) -> virt_add a b = Some (a + b).
Hypothesis base_high : 2 ^ 64 - 2 ^ 47 <= base < 2 ^ 64 - 0x1000.
Implicit Types s : Sys W.
Abbreviation R s := (reg base max (world s)).
Abbreviation S s := (sel base max (world s)).
Context (a : IoApic) (a_base : io_base a = base).

Lemma io_vadd off : 0 <= off < 0x1000 -> vadd virt_add (io_base a) off = Ok (base + off).
Proof. intros Ho. unfold vadd. rewrite a_base, virt_add_canonical; [done|lia..|]. unfold canonical. lia. Qed.
Lemma select_ok s v : exists s', write_reg virt_add (io_base a) io_cmd v s = (Ok (), s') /\ S s' = v /\ (forall r, R s' r = R s r) /\ LOCAL_APIC_ADDR s' = LOCAL_APIC_ADDR s.
Proof.
  unfold write_reg. rewrite io_vadd by (unfold io_cmd; lia). mstep. eexists. split; [done|]. destruct (store_cmd (base:=base) (max:=max) (world s) v). by split_and!.
Qed.
Lemma data_write_ok s v : 0x10 <= S s <= 0x11 + 2 * max -> storable (S s) v = true ->
  exists s', write_reg virt_add (io_base a) io_data v s = (Ok (), s') /\ (forall r, R s' r = if r =? S s then v else R s r) /\ LOCAL_APIC_ADDR s' = LOCAL_APIC_ADDR s.
Proof.
  intros Hs Hv. unfold write_reg. rewrite io_vadd by (unfold io_data; lia). mstep. eexists. split; [done|].
  destruct (store_data (base:=base) (max:=max) (world s) v Hs Hv). by split_and!.
Qed.
Lemma data_read_ok s : exists s', read_reg virt_add (io_base a) io_data s = (Ok (R s (S s)), s') /\ (forall r, R s' r = R s r) /\ LOCAL_APIC_ADDR s' = LOCAL_APIC_ADDR s.
Proof.
  unfold read_reg. rewrite io_vadd by (unfold io_data; lia). mstep. destruct (load_data (base:=base) (max:=max) (world s)) as (Hv & _ & Hr).
  unfold loading. destruct (load32 _ _) as [v w]. cbn [fst snd] in *. subst v. eexists. by split_and!.
Qed.
(** An entry without the controller's own bits: the low half stores 17 bits, the
    high half the destination *)
Definition entry_ok (v : Z) : Prop := storable 0x10 (v mod 2 ^ 32) = true /\ storable 0x11 (v / 2 ^ 32) = true.
Lemma storable_even r v : Z.even r = true -> storable r v = storable 0x10 v.
Proof. intros Hr. unfold storable. by rewrite Hr. Qed.
Lemma storable_odd r v : Z.even r = false -> storable r v = storable 0x11 v.
Proof. intros Hr. unfold storable. by rewrite Hr. Qed.
Lemma even_reg g : Z.even (0x10 + 2 * g) = true.
Proof. rewrite Z.even_add_mul_2. done. Qed.
Lemma odd_reg g : Z.even (0x10 + g * 2 + 1) = false.
Proof. replace (0x10 + g * 2 + 1) with (0x11 + 2 * g) by lia. by rewrite Z.even_add_mul_2. Qed.
Lemma write_entry_ok s g v : 0 <= g <= max -> entry_ok v ->
  exists s', write_redirection_entry virt_add a g v s = (Ok (), s') /\
    (forall r, R s' r = if r =? 0x10 + 2 * g then v mod 2 ^ 32 else if r =? 0x11 + 2 * g then v / 2 ^ 32 else R s r) /\ LOCAL_APIC_ADDR s' = LOCAL_APIC_ADDR s.
Proof.
  intros Hg [Hlo Hhi]. pose proof (max_range (W:=W) (base:=base) (max:=max)) as Hm. unfold write_redirection_entry, REDIRECTION_TABLE_BASE.
  replace (0x10 + g * 2) with (0x10 + 2 * g) by lia.
  destruct (select_ok s (0x10 + 2 * g)) as (s1 & H1 & S1 & R1 & A1). mrun H1. unfold wrap. rewrite Z.shiftr_div_pow2 by lia.
  destruct (data_write_ok s1 (v mod 2 ^ 32)) as (s2 & H2 & R2 & A2); [lia|rewrite S1, storable_even; [done|apply even_reg]|]. mrun H2.
  destruct (select_ok s2 (0x10 + 2 * g + 1)) as (s3 & H3 & S3 & R3 & A3). mrun H3.
  assert (0 <= v / 2 ^ 32 < 2 ^ 32) as Hr32 by (unfold storable in Hhi; cbn in Hhi; apply andb_true_iff in Hhi as [Hf _]; by apply fits_iff in Hf).
  rewrite (Z.mod_small (v / 2 ^ 32)) by done.
  destruct (data_write_ok s3 (v / 2 ^ 32)) as (s4 & H4 & R4 & A4); [lia|rewrite S3, storable_odd; [done|replace (2 * g) with (g * 2) by lia; apply odd_reg]|].
  exists s4. split_and!; [done| |congruence]. intros r. rewrite R4, R3, R2, R1, S1, S3.
  destruct (Z.eqb_spec r (0x10 + 2 * g + 1)), (Z.eqb_spec r (0x10 + 2 * g)), (Z.eqb_spec r (0x11 + 2 * g)); try lia; done.
Qed.
Lemma entry_in_range v : entry_ok v -> 0 <= v < 2 ^ 64.
Proof.
  intros [_ Hhi]. unfold storable in Hhi. cbn [Z.even] in Hhi. apply andb_true_iff in Hhi as [Hf _]. apply fits_iff in Hf.
  pose proof (Z.div_mod v (2 ^ 32)). pose proof (Z.mod_pos_bound v (2 ^ 32)). lia.
Qed.

(** An entry written is read back, if it is one the driver may write, for
    every entry of the I/O APIC. *)
Theorem redirection_roundtrip s g v : 0 <= g <= max -> entry_ok v ->
  exists s1 s2, write_redirection_entry virt_add a g v s = (Ok (), s1) /\ read_redirection_entry virt_add a g s1 = (Ok v, s2) /\
    forall g', 0 <= g' -> g' <> g -> entry_in base max (world s2) g' = entry_in base max (world s) g'.
Proof.
  intros Hg Hv. destruct (write_entry_ok s g v Hg Hv) as (s1 & H1 & R1 & _). exists s1. pose proof (entry_in_range v Hv) as Hr.
  unfold read_redirection_entry, REDIRECTION_TABLE_BASE. replace (0x10 + g * 2) with (0x10 + 2 * g) by lia.
  destruct (select_ok s1 (0x10 + 2 * g)) as (s2 & H2 & S2 & R2 & _). mrun H2.
  destruct (data_read_ok s2) as (s3 & H3 & R3 & _). mrun H3.
  destruct (select_ok s3 (0x10 + 2 * g + 1)) as (s4 & H4 & S4 & R4 & _). mrun H4.
  destruct (data_read_ok s4) as (s5 & H5 & R5 & _). mrun H5. exists s5. split_and!; [done| |].
  - rewrite S2, S4, R4, R3, !R2, !R1. rewrite Z.eqb_refl. bfalse (0x10 + 2 * g + 1 =? 0x10 + 2 * g). btrue (0x10 + 2 * g + 1 =? 0x11 + 2 * g).
    pose proof (Z.div_mod v (2 ^ 32)). pose proof (Z.mod_pos_bound v (2 ^ 32)). pose proof (Z.div_pos v (2 ^ 32)).
    assert (v / 2 ^ 32 < 2 ^ 32) by (apply Z.div_lt_upper_bound; lia).
    rewrite wrap_small by (rewrite Z.shiftl_mul_pow2 by lia; lia). rewrite Z.shiftl_mul_pow2, uadd_ok by lia. unfold lift. do 2 f_equal. lia.
  - intros g' Hg' Hne. unfold entry_in. rewrite !R5, !R4, !R3, !R2, !R1.
    bfalse (0x10 + 2 * g' =? 0x10 + 2 * g). bfalse (0x10 + 2 * g' =? 0x11 + 2 * g).
    bfalse (0x11 + 2 * g' =? 0x10 + 2 * g). by bfalse (0x11 + 2 * g' =? 0x11 + 2 * g).
Qed.

(** *** The ISA lines *)
Context (gsis : list Z) (triggers polarities : list (option Z)) (local_apic_id : Z).
Hypothesis gsis_ok : length gsis = 16%nat /\ Forall (fun g => 0 <= g < 2 ^ 32) gsis.
Hypothesis flags_ok : length triggers = 16%nat /\ length polarities = 16%nat /\ Forall flag_ok triggers /\ Forall flag_ok polarities.
Hypothesis id_ok : is_byte local_apic_id.
Hypothesis first_ok : 0 <= global_system_interrupt_base a < 2 ^ 32 - 256.
Abbreviation first := (global_system_interrupt_base a).
Definition gsi_of (i : Z) : Z := default 0 (gsis !! Z.to_nat i).
Definition value_of (i : Z) : Z := isa_value (default None (triggers !! Z.to_nat i)) (default None (polarities !! Z.to_nat i)) local_apic_id i.
(** The last of some lines that is routed to an entry *)
Definition line_of (lines : list Z) (g : Z) : option Z := foldl (fun o i => if gsi_of i =? first + g then Some i else o) None lines.

Lemma elsewhere_run s g : 0 <= g < 2 ^ 32 -> exists s', elsewhere virt_add a g s = (Ok (negb ((first <=? g) && (g <=? first + max))), s') /\ (forall r, R s' r = R s r).
Proof.
  intros Hg. unfold elsewhere. destruct (Z.ltb_spec g first) as [Hlt|Hge]; [exists s; by bfalse (first <=? g)|].
  unfold read_version. rewrite M_assoc. destruct (select_ok s IOAPICVER) as (s1 & H1 & S1 & R1 & _). mrun H1.
  destruct (data_read_ok s1) as (s2 & H2 & R2 & _). mrun H2. rewrite S1, R1, version. pose proof (max_range (W:=W) (base:=base) (max:=max)).
  rewrite uadd_ok by lia. mstep. exists s2. split; [|intros r; by rewrite R2, R1]. unfold mret, M_ret. do 2 f_equal. lia.
Qed.
Lemma value_ok i : 0 <= i < 16 -> isa_entry (default None (triggers !! Z.to_nat i)) (default None (polarities !! Z.to_nat i)) local_apic_id i = Ok (value_of i) /\ entry_ok (value_of i).
Proof.
  intros Hi. destruct flags_ok as (_ & _ & Ht & Hp).
  assert (forall l, Forall flag_ok l -> flag_ok (default None (l !! Z.to_nat i))) as Hd.
  { intros l Hl. destruct (l !! Z.to_nat i) eqn:E; [by eapply Forall_lookup_1 in Hl|done]. }
  unfold value_of. pose proof (Hd _ Ht) as Ht'. pose proof (Hd _ Hp) as Hp'.
  set (t := default None (triggers !! Z.to_nat i)) in *. set (p := default None (polarities !! Z.to_nat i)) in *.
  split; [by apply isa_entry_ok|]. unfold is_byte in *. pose proof (flag_range t Ht'). pose proof (flag_range p Hp').
  unfold isa_value, HIGH_ACTIVE, EDGE_SENSITIVE, MASKED, UNMASKED. set (x := default 0 t) in *. set (y := default 0 p) in *.
  set (m := if i =? 0 then 1 else 0). assert (0 <= m < 2) by (subst m; destruct (i =? 0); lia).
  set (lo := 32 + i + 2 ^ 13 * y + 2 ^ 15 * x + 2 ^ 16 * m).
  replace (lo + 2 ^ 56 * local_apic_id) with (lo + (2 ^ 24 * local_apic_id) * 2 ^ 32) by lia. unfold entry_ok.
  rewrite Z.mod_add, Z.div_add by lia. rewrite (Z.mod_small lo), (Z.div_small lo) by (subst lo; lia). rewrite Z.add_0_l.
  unfold storable. cbn [Z.even]. split; apply andb_true_iff; split.
  - apply fits_iff. subst lo. lia.
  - assert (x = 0 \/ x = 1) as Hx by lia. assert (y = 0 \/ y = 1) as Hy by lia. assert (m = 0 \/ m = 1) as Hm by lia.
    assert (exists k, i = Z.of_nat k /\ (k < 16)%nat) as (k & -> & Hk) by (exists (Z.to_nat i); lia).
    subst lo. clearbody x y m. clear -Hx Hy Hm Hk. destruct Hx as [-> | ->], Hy as [-> | ->], Hm as [-> | ->]; do 16 (destruct k as [|k]; [done|]); lia.
  - apply fits_iff. lia.
  - rewrite Z.mul_comm, Z.mod_mul by lia. done.
Qed.
Lemma index_default {A} (l : list A) (d : A) i : length l = 16%nat -> 0 <= i < 16 -> index (E:=never) l i = Ok (default d (l !! Z.to_nat i)).
Proof. intros Hl Hi. destruct (lookup_lt_is_Some_2 l (Z.to_nat i)) as [x Hx]; [lia|]. rewrite (index_ok _ _ x) by (done || lia). by rewrite Hx. Qed.
Lemma isa_line_ok s i : 0 <= i < 16 -> exists s', isa_line virt_add a gsis triggers polarities local_apic_id i s = (Ok (), s') /\
  forall g, 0 <= g <= max -> entry_in base max (world s') g = if gsi_of i =? first + g then value_of i else entry_in base max (world s) g.
Proof.
  intros Hi. unfold isa_line. destruct gsis_ok as [Hl Hg]. rewrite (index_default gsis 0) by done. mstep. fold (gsi_of i).
  assert (0 <= gsi_of i < 2 ^ 32) as Hgi.
  { unfold gsi_of. destruct (gsis !! Z.to_nat i) eqn:E; [by eapply Forall_lookup_1 in Hg|done]. }
  destruct (elsewhere_run s (gsi_of i) Hgi) as (s1 & H1 & R1). mrun H1. pose proof (max_range (W:=W) (base:=base) (max:=max)) as Hm.
  assert (forall g, entry_in base max (world s1) g = entry_in base max (world s) g) as E1 by (intros g; unfold entry_in; by rewrite !R1).
  destruct ((first <=? gsi_of i) && (gsi_of i <=? first + max)) eqn:Hr; cbn [negb].
  - boom. rewrite usub_ok by lia. mstep. destruct flags_ok as (Ht & Hp & _). rewrite (index_default polarities None), (index_default triggers None) by done. do 2 mstep.
    destruct (value_ok i Hi) as [-> Hv]. mstep. rewrite (wrap_small 8) by lia.
    destruct (write_entry_ok s1 (gsi_of i - first) (value_of i)) as (s2 & H2 & R2 & _); [lia|done|]. exists s2. split; [done|].
    intros g Hgr. rewrite <- E1. unfold entry_in. rewrite !R2. destruct (Z.eqb_spec (gsi_of i) (first + g)) as [He|Hne].
    + replace (gsi_of i - first) with g by lia. rewrite !Z.eqb_refl. bfalse (0x11 + 2 * g =? 0x10 + 2 * g).
      pose proof (Z.div_mod (value_of i) (2 ^ 32)). lia.
    + bfalse (0x10 + 2 * g =? 0x10 + 2 * (gsi_of i - first)). bfalse (0x10 + 2 * g =? 0x11 + 2 * (gsi_of i - first)).
      bfalse (0x11 + 2 * g =? 0x10 + 2 * (gsi_of i - first)). by bfalse (0x11 + 2 * g =? 0x11 + 2 * (gsi_of i - first)).
  - exists s1. split; [done|]. intros g Hgr. rewrite E1. bfalse (gsi_of i =? first + g). done.
Qed.
Lemma line_of_cons i lines g : line_of (i :: lines) g = match line_of lines g with Some j => Some j | None => if gsi_of i =? first + g then Some i else None end.
Proof.
  unfold line_of. cbn [foldl]. generalize (if gsi_of i =? first + g then Some i else None) as o. induction lines as [|j lines IH] using rev_ind; intros o; [done|].
  rewrite !foldl_app. cbn [foldl]. destruct (gsi_of j =? first + g); [done|]. apply IH.
Qed.
Lemma isa_lines_ok lines : forall s, Forall (fun i => 0 <= i < 16) lines ->
  exists s', for_each lines () (fun i _ => isa_line virt_add a gsis triggers polarities local_apic_id i) s = (Ok (), s') /\
    forall g, 0 <= g <= max -> entry_in base max (world s') g = match line_of lines g with Some i => value_of i | None => entry_in base max (world s) g end.
Proof.
  induction lines as [|i lines IH]; intros s Hl; [by exists s|]. apply Forall_cons in Hl as [Hi Hl]. cbn [for_each].
  destruct (isa_line_ok s i Hi) as (s1 & H1 & E1). mrun H1. destruct (IH s1 Hl) as (s2 & H2 & E2). exists s2. split; [done|].
  intros g Hg. rewrite E2, line_of_cons by done. destruct (line_of lines g); [done|]. rewrite E1 by done. by destruct (_ =? _).
Qed.

(** The ISA lines are routed.  After [isa_bootstrap], the redirection entry
    of every interrupt of the I/O APIC that some ISA line is mapped to is the
    one of the last such line: its vector is 32 and the number of the line, it
    has the line's polarity and trigger mode, is masked for line 0 only, and
    goes to the bootstrap processor; every other entry is unchanged. *)
Theorem isa_lines_routed s : exists s', isa_bootstrap virt_add a gsis triggers polarities local_apic_id s = (Ok (), s') /\
  forall g, 0 <= g <= max -> entry_in base max (world s') g =
    match line_of (seqZ 0 16) g with
    | Some i => isa_value (default None (triggers !! Z.to_nat i)) (default None (polarities !! Z.to_nat i)) local_apic_id i
    | None => entry_in base max (world s) g
    end.
Proof. apply isa_lines_ok. apply Forall_forall. intros i Hi. apply elem_of_seqZ in Hi. lia. Qed.
End io_apic.

(** ** A machine with a local APIC and an I/O APIC *)
Class ApicMachine (W : Type) (lapic base max : Z) `{IoApicLaws W base max} := {
  lreg : W -> Z -> Z;
  map_ok size page frame w : exists w', map_page size page frame w = Some w' /\
    (forall r, reg base max w' r = reg base max w r) /\ forall r, lreg w' r = lreg w r;
  load_local w off : 0 <= off < 0x1000 -> (load32 (lapic + off) w).1 = lreg w off /\
    (forall r, reg base max (load32 (lapic + off) w).2 r = reg base max w r) /\ forall r, lreg (load32 (lapic + off) w).2 r = lreg w r;
  store_local w off v : off = task_priority \/ off = spurious_interrupt_vector ->
    (forall r, reg base max (store32 (lapic + off) v w) r = reg base max w r) /\
    forall r, lreg (store32 (lapic + off) v w) r = if r =? off then v else lreg w r;
  (* the two controllers are separate *)
  store_io w off v : off = io_cmd \/ off = io_data -> forall r, lreg (store32 (base + off) v w) r = lreg w r;
  load_io w : forall r, lreg (load32 (base + io_data) w).2 r = lreg w r;
}.
Arguments lreg {W} lapic base max {_ _ _} _ _.

Section init.
Context `{BB : Build} {W : Type} {lapic base max : Z} {HP : Platform W} {HL : IoApicLaws W base max} {HM : ApicMachine W lapic base max}.
Context (hhdm_offset : Z) (virt_add : Z -> Z -> option Z) (phys_addr : Z -> option Z).
Hypothesis virt_add_canonical : forall a b, 0 <= a -> 0 <= b -> canonical (a + b) -> virt_add a b = Some (a + b).
(** Physical addresses have up to 52 bits. *)
Hypothesis phys_addr_ok : forall n, 0 <= n < 2 ^ 52 -> phys_addr n = Some n.
Implicit Types s : Sys W.
Abbreviation L s := (lreg lapic base max (world s)).
Abbreviation Rg s := (reg base max (world s)).

(** Code that does not change the local APIC *)
Definition spares {A} (m : M (Sys W) never A) : Prop := forall s x s', m s = (Ok x, s') -> forall r, L s' r = L s r.
Lemma spares_bind {A B} (m : M (Sys W) never A) (f : A -> M (Sys W) never B) : spares m -> (forall x, spares (f x)) -> spares (m ≫= f).
Proof. intros Hm Hf s y s' Hr r. apply M_bind_ok in Hr as (x & s1 & H1 & H2). rewrite (Hf x s1 y s' H2 r). by eapply Hm. Qed.
Lemma spares_ret {A} (x : A) : spares (mret x).
Proof. by intros s y s' [= <- <-]. Qed.
Lemma spares_lift {A} (x : res never A) : spares (lift x).
Proof. by intros s y s' [= _ <-]. Qed.
Lemma spares_loop {A} (xs : list A) (f : A -> () -> M (Sys W) never ()) : (forall x, spares (f x ())) -> spares (for_each xs () f).
Proof. intros Hf. induction xs as [|x xs IH]; cbn [for_each]; [apply spares_ret|]. apply spares_bind; [done|]. by intros []. Qed.
Lemma vadd_inv x y z : 0 <= x -> 0 <= y -> canonical (x + y) -> vadd virt_add x y = Ok z -> z = x + y.
Proof. intros. unfold vadd in *. rewrite virt_add_canonical in * by done. cbn in *. congruence. Qed.
Hypothesis base_high : 2 ^ 64 - 2 ^ 47 <= base < 2 ^ 64 - 0x1000.
Hypothesis lapic_high : 2 ^ 64 - 2 ^ 47 <= lapic < 2 ^ 64 - 0x1000.
Lemma high_canonical b off : 2 ^ 64 - 2 ^ 47 <= b < 2 ^ 64 - 0x1000 -> 0 <= off < 0x1000 -> canonical (b + off).
Proof. unfold canonical. lia. Qed.
Lemma spares_io_write a off v : io_base a = base -> off = io_cmd \/ off = io_data -> spares (write_reg virt_add (io_base a) off v).
Proof.
  intros -> Ho s x s' Hr r. unfold write_reg in Hr. apply M_bind_ok in Hr as (p & s1 & H1 & H2). injection H1 as H1 <-.
  assert (0 <= off < 0x1000) by (unfold io_cmd, io_data in *; lia).
  apply vadd_inv in H1; [|lia|lia|by apply high_canonical]. subst p. injection H2 as _ <-. cbn [world]. by apply store_io.
Qed.
Lemma spares_io_read a : io_base a = base -> spares (read_reg virt_add (io_base a) io_data).
Proof.
  intros -> s x s' Hr r. unfold read_reg in Hr. apply M_bind_ok in Hr as (p & s1 & H1 & H2). injection H1 as H1 <-.
  apply vadd_inv in H1; [|unfold io_data; lia|unfold io_data; lia|apply high_canonical; [done|unfold io_data; lia]]. subst p.
  unfold loading in H2. pose proof (load_io (world s) r) as Hl. destruct (load32 _ _) as [v w]. by injection H2 as _ <-.
Qed.
Lemma spares_bootstrap a g t p id : io_base a = base -> spares (isa_bootstrap virt_add a g t p id).
Proof.
  intros Ha. apply spares_loop. intros i. unfold isa_line, elsewhere, read_version, write_redirection_entry.
  repeat match goal with
  | |- spares (_ ≫= _) => apply spares_bind; [|intros ?]
  | |- spares (lift _) => apply spares_lift
  | |- spares (mret _) => apply spares_ret
  | |- spares (if ?b then _ else _) => destruct b
  | |- spares (write_reg _ _ _ _) => apply spares_io_write; [done|by (left + right)]
  | |- spares (read_reg _ _ _) => by apply spares_io_read
  end.
Qed.

Lemma map_mmio_ok s b : hhdm_offset <= b < hhdm_offset + 2 ^ 52 -> b < 2 ^ 64 -> 0 <= hhdm_offset ->
  exists s', map_mmio hhdm_offset phys_addr b s = (Ok (), s') /\ (forall r, Rg s' r = Rg s r) /\ (forall r, L s' r = L s r).
Proof.
  intros Hb Hlt Hh. unfold map_mmio. rewrite usub_ok by lia. mstep. rewrite phys_addr_ok by lia. cbn [expect]. mstep. unfold mapping.
  destruct (map_ok (lapic:=lapic) (base:=base) (max:=max) 4096 (containing 4096 b) (containing 4096 (b - hhdm_offset)) (world s)) as (w & -> & H1 & H2).
  eexists. split_and!; [done|exact H1|exact H2].
Qed.
Lemma local_read_ok s off : 0 <= off < 0x1000 ->
  exists s', read_reg virt_add lapic off s = (Ok (L s off), s') /\ (forall r, Rg s' r = Rg s r) /\ (forall r, L s' r = L s r).
Proof.
  intros Ho. unfold read_reg, vadd. rewrite virt_add_canonical by (lia || by apply high_canonical). cbn [expect]. mstep.
  destruct (load_local (lapic:=lapic) (base:=base) (max:=max) (world s) off Ho) as (H1 & H2 & H3). unfold loading.
  destruct (load32 _ _) as [v w]. cbn [fst snd] in *. subst v. eexists. split_and!; [done|exact H2|exact H3].
Qed.
Lemma local_write_ok s off v : off = task_priority \/ off = spurious_interrupt_vector ->
  exists s', write_reg virt_add lapic off v s = (Ok (), s') /\ (forall r, Rg s' r = Rg s r) /\ (forall r, L s' r = if r =? off then v else L s r).
Proof.
  intros Ho. assert (0 <= off < 0x1000) by (unfold task_priority, spurious_interrupt_vector in *; lia).
  unfold write_reg, vadd. rewrite virt_add_canonical by (lia || by apply high_canonical). cbn [expect]. mstep.
  destruct (store_local (lapic:=lapic) (base:=base) (max:=max) (world s) off v Ho) as (H2 & H3). eexists. split_and!; [done|exact H2|exact H3].
Qed.
(** Enabling: no interrupt is held back, and spurious ones have a handler *)
Lemma enable_ok s : exists s', enable virt_add lapic s = (Ok (), s') /\ (forall r, Rg s' r = Rg s r) /\
  L s' task_priority = 0 /\ L s' spurious_interrupt_vector = 0x1FF.
Proof.
  unfold enable. destruct (local_write_ok s task_priority 0) as (s1 & H1 & R1 & L1); [by left|]. mrun H1.
  destruct (local_write_ok s1 spurious_interrupt_vector 0x1FF) as (s2 & H2 & R2 & L2); [by right|].
  change (Z.lor SPURIOUS_INTERRUPT_HANDLER_IDX (Z.shiftl 1 8)) with 0x1FF. exists s2. split_and!; [done|intros r; by rewrite R2, R1|..].
  - rewrite L2, L1. done.
  - rewrite L2. done.
Qed.

Definition other_io (a : IoApic) : Prop := global_system_interrupt_base a <> 0 /\ hhdm_offset <= io_base a < hhdm_offset + 2 ^ 52 /\ io_base a < 2 ^ 64.
Definition io_step (st : Madt) (id : Z) (a : IoApic) : M (Sys W) never () :=
  _ ← map_mmio hhdm_offset phys_addr (io_base a);
  if global_system_interrupt_base a =? 0
  then isa_bootstrap virt_add a (isa_irq_gsi st) (trigger_modes_overrides st) (polarity_overrides st) id else mret ().
Lemma others_ok st id l : 0 <= hhdm_offset -> Forall other_io l -> forall s, exists s', for_each l () (fun a _ => io_step st id a) s = (Ok (), s') /\
  (forall r, Rg s' r = Rg s r) /\ (forall r, L s' r = L s r).
Proof.
  intros Hh. induction 1 as [|a l (Hg & Hr & Hlt) _ IH]; intros s; [by exists s|]. cbn [for_each].
  destruct (map_mmio_ok s (io_base a)) as (s1 & H1 & R1 & L1); [done..|].
  assert (io_step st id a s = (Ok (), s1)) as Hs by (unfold io_step; mrun H1; by bfalse (global_system_interrupt_base a =? 0)). mrun Hs.
  destruct (IH s1) as (s2 & H2 & R2 & L2). exists s2. split_and!; [done|intros r; by rewrite R2, R1|intros r; by rewrite L2, L1].
Qed.
(** The interrupts, polarities and trigger modes of the lines are in range. *)
Definition lines_ok (st : Madt) : Prop :=
  isa_ok st /\ Forall (fun g => 0 <= g < 2 ^ 32) (isa_irq_gsi st) /\ Forall flag_ok (trigger_modes_overrides st) /\ Forall flag_ok (polarity_overrides st).

(** [init_apic] sets up the interrupt controllers.  On a machine with the
    local APIC and one I/O APIC for the ISA lines, at the addresses the MADT
    gives, whose bootstrap processor has a processor number that is its APIC
    number: the result is what the MADT says, the local APIC is enabled with a
    handler for spurious interrupts and holds nothing back, the ISA lines are
    routed to the bootstrap processor, and the address of the local APIC is
    stored. *)
Theorem init_apic_sets_up mem fuel madt_ptr s st pre a post p :
  parse_madt mem hhdm_offset virt_add fuel madt_ptr = Ok st -> lines_ok st -> local_apic_addr st = lapic ->
  0 <= hhdm_offset -> hhdm_offset <= lapic < hhdm_offset + 2 ^ 52 -> hhdm_offset <= base < hhdm_offset + 2 ^ 52 ->
  io_apics st = pre ++ a :: post -> io_base a = base -> global_system_interrupt_base a = 0 -> Forall other_io (pre ++ post) ->
  0 <= L s apic_id_register < 2 ^ 32 -> collect_processors st !! (L s apic_id_register / 2 ^ 24) = Some p ->
  exists s', init_apic hhdm_offset virt_add phys_addr mem fuel madt_ptr s = (Ok (collect_processors st, isa_irq_gsi st, lapic, io_apics st), s') /\
    LOCAL_APIC_ADDR s' = lapic /\ L s' task_priority = 0 /\ L s' spurious_interrupt_vector = 0x1FF /\
    forall g, 0 <= g <= max -> entry_in base max (world s') g =
      match line_of a (isa_irq_gsi st) (seqZ 0 16) g with
      | Some i => value_of (trigger_modes_overrides st) (polarity_overrides st) (L s apic_id_register / 2 ^ 24) i
      | None => entry_in base max (world s) g
      end.
Proof.
  intros Hst ((Hg1 & Ht1 & Hp1) & Hg2 & Ht2 & Hp2) Hla Hh Hlr Hbr Hio Hab Hgb Hoth Hid Hproc. unfold init_apic. rewrite Hst. mstep. rewrite Hla.
  destruct (map_mmio_ok s lapic) as (s1 & H1 & R1 & L1); [lia..|]. mrun H1.
  destruct (local_read_ok s1 apic_id_register) as (s2 & H2 & R2 & L2); [unfold apic_id_register; lia|]. mrun H2. rewrite L1, Z.shiftr_div_pow2 by lia.
  set (id := L s apic_id_register / 2 ^ 24) in *. assert (0 <= id < 256) as Hidr.
  { subst id. split; [apply Z.div_pos; lia|]. apply Z.div_lt_upper_bound; lia. }
  rewrite (wrap_small 8 id) by done. rewrite Hproc. cbn [expect]. mstep. rewrite (collect_local st _ p Hproc), Hla.
  destruct (enable_ok s2) as (s3 & H3 & R3 & T3 & V3). mrun H3. apply Forall_app in Hoth as [Hpre Hpost].
  destruct (others_ok st id pre Hh Hpre s3) as (s4 & H4 & R4 & L4).
  destruct (map_mmio_ok s4 base) as (s5 & H5 & R5 & L5); [lia..|].
  destruct (isa_lines_ok (max:=max) virt_add virt_add_canonical base_high a Hab (isa_irq_gsi st) (trigger_modes_overrides st) (polarity_overrides st) id
    (conj Hg1 Hg2) (conj Ht1 (conj Hp1 (conj Ht2 Hp2))) Hidr ltac:(lia) (seqZ 0 16) s5) as (s6 & H6 & E6).
  { apply Forall_forall. intros i Hi. apply elem_of_seqZ in Hi. lia. }
  assert (forall r, L s6 r = L s5 r) as L6 by (eapply (spares_bootstrap a); [done|exact H6]).
  destruct (others_ok st id post Hh Hpost s6) as (s7 & H7 & R7 & L7).
  assert (io_step st id a s4 = (Ok (), s6)) as Hs by (unfold io_step; rewrite Hab; mrun H5; rewrite Hgb; exact H6).
  assert (for_each (io_apics st) () (fun a _ => io_step st id a) s3 = (Ok (), s7)) as Hloop.
  { rewrite Hio, for_each_app. mrun H4. cbn [for_each]. mrun Hs. exact H7. }
  unfold io_step in Hloop. mrun Hloop. unfold modify, mbind at 1, M_bind at 1. eexists. split_and!; [done|done|..]; cbn [world].
  - by rewrite L7, L6, L5, L4.
  - by rewrite L7, L6, L5, L4.
  - intros g Hg. unfold entry_in at 1. rewrite !R7. fold (entry_in base max (world s6) g). rewrite E6 by done. destruct (line_of _ _ _ _); [done|].
    unfold entry_in. by rewrite !R5, !R4, !R3, !R2, !R1.
Qed.
(** The bootstrap processor is looked for among the processor numbers by its
    APIC number: if there is no processor of that number, [init_apic] panics. *)
Theorem init_apic_confuses_numbers mem fuel madt_ptr s st : parse_madt mem hhdm_offset virt_add fuel madt_ptr = Ok st -> local_apic_addr st = lapic ->
  0 <= hhdm_offset -> hhdm_offset <= lapic < hhdm_offset + 2 ^ 52 -> 0 <= L s apic_id_register < 2 ^ 32 ->
  (forall i, i ∈ processors_partial st -> processor_id i <> L s apic_id_register / 2 ^ 24) ->
  (init_apic hhdm_offset virt_add phys_addr mem fuel madt_ptr s).1 = Panic.
Proof.
  intros Hst Hla Hh Hlr Hid Hno. unfold init_apic. rewrite Hst. mstep. rewrite Hla.
  destruct (map_mmio_ok s lapic) as (s1 & H1 & R1 & L1); [lia..|]. mrun H1.
  destruct (local_read_ok s1 apic_id_register) as (s2 & H2 & R2 & L2); [unfold apic_id_register; lia|]. mrun H2. rewrite L1, Z.shiftr_div_pow2 by lia.
  rewrite (wrap_small 8) by (split; [apply Z.div_pos; lia|apply Z.div_lt_upper_bound; lia]).
  rewrite collect_none; [done|]. intros Hin. apply list_elem_of_fmap in Hin as (i & He & Hi). by apply (Hno i Hi).
Qed.
End init.

(** ** A board in memory *)
Module SampleApic.
Import SampleAcpi.
Definition lapic : Z := hhdm_offset + 0xFEE00000.
Definition base : Z := hhdm_offset + 0xFEC00000.
Record Board := { selected : Z; io_regs : Z -> Z; local_regs : Z -> Z }.
Definition reg_of (w : Board) (r : Z) : Z := if r =? IOAPICVER then 0x170020 else io_regs w r.
Definition is_local (a : Z) : bool := (lapic <=? a) && (a <? lapic + 0x1000).
Definition upd (f : Z -> Z) (k v : Z) : Z -> Z := fun r => if r =? k then v else f r.
#[export] Instance board_platform : Platform Board := {
  load32 a w := if a =? base + io_data then (reg_of w (selected w), w) else if is_local a then (local_regs w (a - lapic), w) else (0, w);
  store32 a v w :=
    if a =? base + io_cmd then {| selected := v; io_regs := io_regs w; local_regs := local_regs w |}
    else if a =? base + io_data then {| selected := selected w; io_regs := upd (io_regs w) (selected w) v; local_regs := local_regs w |}
    else if is_local a then {| selected := selected w; io_regs := io_regs w; local_regs := upd (local_regs w) (a - lapic) v |} else w;
  map_page _ _ _ w := Some w;
}.
#[export] Program Instance board_io : IoApicLaws Board base 23 := { sel := selected; reg := reg_of }.
Next Obligation. lia. Qed.
Next Obligation. intros w v. split; [done|]. by intros r. Qed.
Next Obligation.
  intros w v Hs _. split; [done|]. intros r. unfold reg_of. change (io_regs (store32 (base + io_data) v w) r) with (upd (io_regs w) (selected w) v r). unfold upd, IOAPICVER.
  destruct (Z.eqb_spec r 1); [|done]. by bfalse (r =? selected w).
Qed.
Next Obligation. intros w. by split_and!. Qed.
Next Obligation. done. Qed.
Lemma local_address off : 0 <= off < 0x1000 -> is_local (lapic + off) = true /\ (lapic + off =? base + io_data) = false /\ (lapic + off =? base + io_cmd) = false /\ lapic + off - lapic = off.
Proof. unfold is_local, base, lapic, io_data, io_cmd. intros. split_and!; lia. Qed.
#[export] Program Instance board_apic : ApicMachine Board lapic base 23 := { lreg := local_regs }.
Next Obligation. intros size page frame w. by exists w. Qed.
Next Obligation. intros w off Ho. destruct (local_address off Ho) as (H1 & H2 & _ & H4). cbn. rewrite H1, H2, H4. by split_and!. Qed.
Next Obligation.
  intros w off v Ho. assert (0 <= off < 0x1000) as Hr by (unfold task_priority, spurious_interrupt_vector in *; lia).
  destruct (local_address off Hr) as (H1 & H2 & H3 & H4). cbn. rewrite H1, H2, H3, H4. by split.
Qed.
Next Obligation. intros w off v [-> | ->] r; done. Qed.
Next Obligation. done. Qed.

Definition start (id : Z) : Sys Board := Build_Sys {| selected := 0; io_regs := fun _ => 0; local_regs := fun r => if r =? apic_id_register then id * 2 ^ 24 else 0 |} 0.
Definition table : Madt := with_nmis (nmis_read entries 0) (foldl (record hhdm_offset) (madt_start lapic) entries).
Definition phys_addr (n : Z) : option Z := if fits 52 n then Some n else None.
Lemma phys_addr_new n : 0 <= n < 2 ^ 52 -> phys_addr n = Some n.
Proof. intros Hn. unfold phys_addr. by rewrite (proj2 (fits_iff 52 n) Hn). Qed.
Lemma base_high : 2 ^ 64 - 2 ^ 47 <= base < 2 ^ 64 - 0x1000.
Proof. unfold base, hhdm_offset. lia. Qed.
Lemma lapic_high : 2 ^ 64 - 2 ^ 47 <= lapic < 2 ^ 64 - 0x1000.
Proof. unfold lapic, hhdm_offset. lia. Qed.
Definition io : IoApic := {| io_id := 8; io_base := base; global_system_interrupt_base := 0 |}.
Lemma table_lines : lines_ok table.
Proof. unfold lines_ok, isa_ok. split_and!; try done; repeat constructor; by vm_compute. Qed.
End SampleApic.
Import SampleApic.

Lemma redirection_roundtrip_witness :
  exists s1 s2, write_redirection_entry SampleAcpi.virt_add io 5 0x0300000000010025 (start 0) = (Ok (), s1) /\
    @read_redirection_entry dev_build Board _ SampleAcpi.virt_add io 5 s1 = (Ok 0x0300000000010025, s2).
Proof.
  destruct (@redirection_roundtrip dev_build Board base 23 _ _ SampleAcpi.virt_add SampleAcpi.virt_add_ok base_high io eq_refl (start 0) 5 0x0300000000010025)
    as (s1 & s2 & H1 & H2 & _); [lia|by vm_compute|]. by exists s1, s2.
Defined.
Lemma isa_lines_routed_witness :
  exists s', @isa_bootstrap dev_build Board _ SampleAcpi.virt_add io (isa_irq_gsi table) (trigger_modes_overrides table) (polarity_overrides table) 0 (start 0) = (Ok (), s') /\
    entry_in base 23 (world s') 1 = 33 /\ entry_in base 23 (world s') 2 = 34 /\ entry_in base 23 (world s') 0 = 0.
Proof.
  destruct (@isa_lines_routed dev_build Board base 23 _ _ SampleAcpi.virt_add SampleAcpi.virt_add_ok base_high io eq_refl (isa_irq_gsi table)
    (trigger_modes_overrides table) (polarity_overrides table) 0) with (s := start 0) as (s' & H1 & H2).
  - split; [done|]. repeat constructor; by vm_compute.
  - split_and!; try done; repeat constructor; by vm_compute.
  - by vm_compute.
  - by vm_compute.
  - exists s'. split; [exact H1|]. split_and!; rewrite H2 by lia; vm_compute; reflexivity.
Defined.
Lemma init_apic_sets_up_witness :
  exists s', @init_apic dev_build Board _ SampleAcpi.hhdm_offset SampleAcpi.virt_add phys_addr SampleAcpi.mem 8 (SampleAcpi.hhdm_offset + 0x3000) (start 0) =
    (Ok (collect_processors table, isa_irq_gsi table, lapic, io_apics table), s') /\ LOCAL_APIC_ADDR s' = lapic /\ entry_in base 23 (world s') 1 = 33.
Proof.
  destruct (@init_apic_sets_up dev_build Board lapic base 23 _ _ _ SampleAcpi.hhdm_offset SampleAcpi.virt_add phys_addr SampleAcpi.virt_add_ok phys_addr_new
    base_high lapic_high SampleAcpi.mem 8 (SampleAcpi.hhdm_offset + 0x3000) (start 0) table [] io [] 
    {| ids := {| processor_id := 0; apic_id := 0 |}; local_apic := lapic; nmi_source := {| flags := 0; lint := 1 |} |}) as (s' & H1 & H2 & _ & _ & H3).
  1, 3-9, 11-12: by vm_compute.
  - apply table_lines.
  - constructor.
  - exists s'. split_and!; [exact H1|exact H2|]. rewrite H3 by lia. by vm_compute.
Defined.
Lemma init_apic_confuses_numbers_witness :
  (@init_apic dev_build Board _ SampleAcpi.hhdm_offset SampleAcpi.virt_add phys_addr SampleAcpi.mem 8 (SampleAcpi.hhdm_offset + 0x3000) (start 2)).1 = Panic.
Proof.
  apply (@init_apic_confuses_numbers dev_build Board lapic base 23 _ _ _ SampleAcpi.hhdm_offset SampleAcpi.virt_add phys_addr SampleAcpi.virt_add_ok phys_addr_new
    lapic_high SampleAcpi.mem 8 (SampleAcpi.hhdm_offset + 0x3000) (start 2) table).
  1-5: by vm_compute.
  intros i Hi. cbn in Hi. rewrite !elem_of_cons in Hi. destruct Hi as [-> |[-> | Hi]]; [by vm_compute..|by apply not_elem_of_nil in Hi].
Defined.
