(* ===== verification/Serial.v ===== *)
(** * The serial line

    [terminal/port_dbg.rs]: the line every log message goes to.  The ports are
    those of Pata's [Ports]; the chip behind them is a UART of the 16550 family,
    of which [Uart] states what the driver relies on: the bit that gives access
    to the divisor, the status bit that says the transmitter is free, and that
    it becomes free again after a bounded number of readings of the status.
    The loop that waits for it has no bound of its own, so it takes fuel.

    Shown: after [init_serial] a text is sent byte by byte, complete and in order,
    at the speed that was chosen; a transmitter that is never free stops the
    kernel; and which processor's number a message carries. *)

From S2P Require Import Prelude Bytes Acpi Pata Apic.
#[local] Open Scope Z_scope.

Definition DATA : Z := 0x3F8.
Definition INT_EN : Z := 0x3F9.
Definition FIFO_CTRL : Z := 0x3FA.
Definition LINE_CTRL : Z := 0x3FB.
Definition MODEM_CTRL : Z := 0x3FC.
Definition LINE_STATUS : Z := 0x3FD.

Section serial.
Context {W : Type} `{Ports W}.
Abbreviation S A := (M W never A).
Definition write_port (p v : Z) : S () := modify (out8 p v).
Definition init_serial : S () :=
  _ ← write_port INT_EN 0x00;
  _ ← write_port LINE_CTRL 0x80;
  _ ← write_port DATA 0x03;
  _ ← write_port INT_EN 0x00;
  _ ← write_port LINE_CTRL 0x03;
  _ ← write_port FIFO_CTRL 0xC7;
  write_port MODEM_CTRL 0x0B.
Definition is_transmit_empty : S bool := fun w => let '(v, w) := in8 LINE_STATUS w in (Ok (negb (Z.land v 0x20 =? 0)), w).
Fixpoint wait_transmit (fuel : nat) : S () :=
  match fuel with
  | O => lift Hang
  | Datatypes.S fuel => empty ← is_transmit_empty; if (empty : bool) then mret () else wait_transmit fuel
  end.
Definition write_str (fuel : nat) (s : list Z) : S () :=
  for_each s () (fun c _ => _ ← wait_transmit fuel; write_port DATA c).
End serial.

(** [_get_core]: the number in a message *)
Definition _get_core {W} `{Platform W} (virt_add : Z -> Z -> option Z) (virt_addr : Z -> option Z) : M (Apic.Sys W) never Z :=
  a ← gets LOCAL_APIC_ADDR;
  if a =? 0 then mret 0 else
  b ← get_local_apic virt_addr;
  id ← read_reg virt_add b apic_id_register;
  mret (Z.land (Z.shiftr id 24) 0xFF).

(** ** The chip *)
Class Uart (W : Type) `{Ports W} := {
  sent : W -> list Z;
  divisor : W -> Z;          (* of the chip's clock of 115200 Hz *)
  dlab : W -> bool;          (* the data port is the divisor *)
  frame : W -> Z;            (* bits of a character, parity and stop *)
  patience : W -> nat;       (* readings of the status until the transmitter is free *)
  longest : nat;
  patience_le w : (patience w <= longest)%nat;
  status_reading w : let '(v, w') := in8 LINE_STATUS w in 0 <= v /\ Z.testbit v 5 = (patience w =? 0)%nat /\ patience w' = Nat.pred (patience w) /\
    sent w' = sent w /\ divisor w' = divisor w /\ dlab w' = dlab w /\ frame w' = frame w;
  line_write w v : dlab (out8 LINE_CTRL v w) = Z.testbit v 7 /\ frame (out8 LINE_CTRL v w) = v mod 64 /\
    sent (out8 LINE_CTRL v w) = sent w /\ divisor (out8 LINE_CTRL v w) = divisor w;
  data_write w v : is_byte v -> let w' := out8 DATA v w in dlab w' = dlab w /\ frame w' = frame w /\
    if dlab w then sent w' = sent w /\ divisor w' = v + 256 * (divisor w / 256)
    else divisor w' = divisor w /\ (patience w = 0%nat -> sent w' = sent w ++ [v]);
  int_write w v : is_byte v -> let w' := out8 INT_EN v w in dlab w' = dlab w /\ frame w' = frame w /\ sent w' = sent w /\
    divisor w' = if dlab w then divisor w mod 256 + 256 * v else divisor w;
  other_write w p v : p = FIFO_CTRL \/ p = MODEM_CTRL -> let w' := out8 p v w in dlab w' = dlab w /\ frame w' = frame w /\ sent w' = sent w /\ divisor w' = divisor w;
}.

Section sending.
Context {W : Type} {HP : Ports W} {HU : Uart W}.
Implicit Types w : W.
(** Everything but what was sent and how long the transmitter needs *)
Definition same_line w w' : Prop := divisor w' = divisor w /\ dlab w' = dlab w /\ frame w' = frame w.
Lemma empty_reading w : exists w', is_transmit_empty w = (Ok (patience w =? 0)%nat, w') /\ patience w' = Nat.pred (patience w) /\ sent w' = sent w /\ same_line w w'.
Proof.
  unfold is_transmit_empty. pose proof (status_reading w) as Hr. destruct (in8 LINE_STATUS w) as [v w']. destruct Hr as (Hv & Hb & Hp & Hs & Hd & Hl & Hf).
  exists w'. split; [|done]. do 2 f_equal. rewrite <- Hb. change 0x20 with (2 ^ 5). destruct (Z.testbit v 5) eqn:E.
  - destruct (Z.eqb_spec (Z.land v (2 ^ 5)) 0) as [Hz|]; [|done]. apply (f_equal (fun x => Z.testbit x 5)) in Hz. by rewrite Z.land_spec, E in Hz.
  - destruct (Z.eqb_spec (Z.land v (2 ^ 5)) 0) as [|Hz]; [done|]. destruct Hz. apply Z.bits_inj_iff'. intros j Hj.
    rewrite Z.land_spec, Z.pow2_bits_eqb, Z.bits_0 by lia. destruct (Z.eqb_spec 5 j) as [<-|]; [by rewrite E|by rewrite andb_false_r].
Qed.
Lemma wait_ok n : forall fuel w, patience w = n -> (n < fuel)%nat -> exists w', wait_transmit fuel w = (Ok (), w') /\ patience w' = 0%nat /\ sent w' = sent w /\ same_line w w'.
Proof.
  induction n as [|n IH]; intros fuel w Hn Hf; (destruct fuel as [|fuel]; [lia|]); cbn [wait_transmit];
    destruct (empty_reading w) as (w1 & H1 & P1 & S1 & L1); mrun H1; rewrite Hn; cbn [Nat.eqb].
  - exists w1. rewrite P1, Hn. done.
  - destruct (IH fuel w1) as (w2 & H2 & P2 & S2 & L2); [by rewrite P1, Hn|lia|]. exists w2. unfold same_line in *.
    destruct L1 as (D1 & B1 & F1), L2 as (D2 & B2 & F2). split_and!; congruence || done.
Qed.
Lemma write_str_ok fuel s : (longest < fuel)%nat -> bytes s -> forall w, dlab w = false -> exists w', write_str fuel s w = (Ok (), w') /\ sent w' = sent w ++ s /\ same_line w w'.
Proof.
  intros Hf Hs. induction Hs as [|c s Hc _ IH]; intros w Hd.
  - exists w. by rewrite app_nil_r.
  - unfold write_str. cbn [for_each]. destruct (wait_ok (patience w) fuel w eq_refl) as (w1 & H1 & P1 & S1 & L1); [pose proof (patience_le w); lia|].
    assert ((_ ← wait_transmit fuel; write_port DATA c) w = (Ok (), out8 DATA c w1)) as Hw by (by mrun H1). mrun Hw.
    pose proof (data_write w1 c Hc) as Hx. cbv zeta in Hx. destruct L1 as (D1 & B1 & F1). rewrite B1, Hd in Hx. destruct Hx as (X1 & X2 & X3 & X4). specialize (X4 P1).
    destruct (IH (out8 DATA c w1)) as (w2 & H2 & S2 & D2 & B2 & F2); [congruence|]. exists w2. split; [exact H2|]. unfold same_line.
    rewrite S2, X4, S1, <- app_assoc. split_and!; [done|congruence..].
Qed.
Lemma init_serial_ok w : exists w', init_serial w = (Ok (), w') /\ dlab w' = false /\ divisor w' = 3 /\ frame w' = 3 /\ sent w' = sent w.
Proof.
  unfold init_serial. do 6 (erewrite M_bind_run by reflexivity). eexists. split; [reflexivity|].
  set (w1 := out8 INT_EN 0x00 w). set (w2 := out8 LINE_CTRL 0x80 w1). set (w3 := out8 DATA 0x03 w2). set (w4 := out8 INT_EN 0x00 w3).
  set (w5 := out8 LINE_CTRL 0x03 w4). set (w6 := out8 FIFO_CTRL 0xC7 w5).
  destruct (int_write w 0x00) as (A1 & A2 & A3 & _); [done|]. fold w1 in A1, A2, A3.
  destruct (line_write w1 0x80) as (B1 & _ & B3 & _). fold w2 in B1, B3. change (Z.testbit 0x80 7) with true in B1.
  destruct (data_write w2 0x03) as (C1 & _ & C2); [done|]. fold w3 in C1, C2. rewrite B1 in C1, C2. destruct C2 as [C2 C3].
  destruct (int_write w3 0x00) as (_ & _ & D3 & D4); [done|]. fold w4 in D3, D4. rewrite C1, C3 in D4.
  destruct (line_write w4 0x03) as (E1 & E2 & E3 & E4). fold w5 in E1, E2, E3, E4.
  destruct (other_write w5 FIFO_CTRL 0xC7) as (F1 & F2 & F3 & F4); [by left|]. fold w6 in F1, F2, F3, F4.
  destruct (other_write w6 MODEM_CTRL 0x0B) as (G1 & G2 & G3 & G4); [by right|].
  rewrite G1, G2, G3, G4, F1, F2, F3, F4, E1, E2, E3, E4, D3, D4, C2, B3, A3. split_and!; [done| |done|done].
  rewrite (Z.mul_comm 256), Z.mod_add by lia. done.
Qed.

(** Log messages are sent.  From any state of the chip, [init_serial] selects
    8 bits without parity and a divisor of 3, which is 38400 baud; then
    [write_str] ends, with fuel for one more reading of the status than the
    transmitter ever needs, and what has been sent is extended by exactly the
    bytes of the text, in order, and the line keeps its settings. *)
Theorem serial_output w fuel s : (longest < fuel)%nat -> bytes s ->
  exists w', (_ ← init_serial; write_str fuel s) w = (Ok (), w') /\ sent w' = sent w ++ s /\ 115200 / divisor w' = 38400 /\ frame w' = 3.
Proof.
  intros Hf Hs. destruct (init_serial_ok w) as (w1 & H1 & L1 & D1 & F1 & S1). destruct (write_str_ok fuel s Hf Hs w1 L1) as (w2 & H2 & S2 & D2 & _ & F2).
  exists w2. mrun H1. rewrite H2, S2, S1, D2, D1, F2, F1. done.
Qed.
End sending.

(** A transmitter whose status never shows the bit keeps the kernel in the loop. *)
Lemma stuck_transmitter {W} `{Ports W} (I : W -> Prop) : (forall w, I w -> Z.land (in8 LINE_STATUS w).1 0x20 = 0 /\ I (in8 LINE_STATUS w).2) ->
  forall fuel w c s, I w -> exists w', write_str fuel (c :: s) w = (Hang, w').
Proof.
  intros HI fuel w c s Hw. enough (exists w', wait_transmit fuel w = (Hang, w')) as [w' Hr].
  { exists w'. unfold write_str. cbn [for_each]. unfold mbind, M_bind. by rewrite Hr. }
  revert w Hw. induction fuel as [|fuel IH]; intros w Hw; [by exists w|]. cbn [wait_transmit]. destruct (HI w Hw) as [Hb Hn].
  assert (is_transmit_empty w = (Ok false, (in8 LINE_STATUS w).2)) as He.
  { unfold is_transmit_empty. destruct (in8 LINE_STATUS w) as [v w']. cbn in Hb. by rewrite Hb. }
  mrun He. by apply IH.
Qed.

(** ** A chip that is busy for two readings after every byte *)
Module SampleSerial.
Record Chip := { line : list Z; rate : Z; access : bool; shape : Z; busy : bool * bool }.
Definition left (c : Chip) : nat := match busy c with (true, true) => 2 | (false, false) => 0 | _ => 1 end.
#[export] Instance chip_ports : Ports Chip := {
  in8 p c := if p =? LINE_STATUS then
      (if (left c =? 0)%nat then 0x60 else 0x40,
       {| line := line c; rate := rate c; access := access c; shape := shape c; busy := if (left c =? 2)%nat then (false, true) else (false, false) |})
    else (0, c);
  out8 p v c :=
    if p =? LINE_CTRL then {| line := line c; rate := rate c; access := Z.testbit v 7; shape := v mod 64; busy := busy c |}
    else if p =? DATA then
      if access c then {| line := line c; rate := v + 256 * (rate c / 256); access := true; shape := shape c; busy := busy c |}
      else {| line := line c ++ [v]; rate := rate c; access := false; shape := shape c; busy := (true, true) |}
    else if p =? INT_EN then
      if access c then {| line := line c; rate := rate c mod 256 + 256 * v; access := true; shape := shape c; busy := busy c |} else c
    else c;
  in16 _ c := (0, c); out16 _ _ c := c; suspended c := c;
}.
#[export, program] Instance chip_uart : Uart Chip := { sent := line; divisor := rate; dlab := access; frame := shape; patience := left; longest := 2 }.
Next Obligation. intros c. unfold left. destruct (busy c) as [[] []]; lia. Qed.
Next Obligation. intros c. cbn. unfold left. destruct (busy c) as [[] []]; by cbn. Qed.
Next Obligation. done. Qed.
Next Obligation. intros c v _. cbn. destruct (access c) eqn:E; cbn; rewrite ?E; split_and!; done. Qed.
Next Obligation. intros c v _. cbn. destruct (access c) eqn:E; cbn; rewrite ?E; split_and!; done. Qed.
Next Obligation. intros c p v [->| ->]; done. Qed.
Definition reset : Chip := {| line := []; rate := 12; access := false; shape := 0; busy := (true, false) |}.
End SampleSerial.
Import SampleSerial.
Lemma serial_output_witness : exists w', (_ ← init_serial; write_str 3 (str "ok")) reset = (Ok (), w') /\
  line w' = str "ok".
Proof.
  destruct (@serial_output Chip _ chip_uart reset 3 (str "ok")) as (w' & H1 & H2 & _).
  - cbn. lia.
  - repeat constructor; lia.
  - exists w'. split; [exact H1|exact H2].
Defined.
