(* ===== verification/Pcie.v ===== *)
(** * PCI Express devices

    src/kernel/src/arch/x86_64/acpi/mcfg.rs with the types of pcie.rs: the table
    of configuration spaces, mapping them, and the scan for devices.

    Memory is a function, as in Acpi.v: reading the header of a function has no
    effect.  The tree of devices by class, subclass and programming interface is
    a finite map of finite maps.  Pages are mapped by the machine of Apic.v.

    Shown here: the table is read back; the three loops that map a configuration
    space map exactly its pages, each once; the scan looks at every function
    once, in the order of their addresses; the tree holds exactly the devices
    that are present, each under its class; and which of them are in it twice. *)

From S2P Require Import Prelude Bytes Acpi Apic.
From stdpp Require Import gmap.
#[local] Open Scope Z_scope.

Record McfgEntry := { base_addr : Z; pci_segment_group_number : Z; start_pci_bus_number : Z; end_pci_bus_number : Z }.
Record PciHeaderPartial := {
  vendor_id : Z; device_id : Z; command : Z; status : Z; revision_id : Z; prog_if : Z; subclass : Z; class_code : Z;
  cache_line_size : Z; latency_timer : Z; header_type : Z;
}.
Record PciDevice := { address : Z; header_partial : PciHeaderPartial }.
Abbreviation Devices := (gmap Z (gmap Z (gmap Z (list PciDevice)))).

Definition size_of_McfgHeader : Z := 44.
Definition BUS_DEVICE_COUNT : Z := 32.
Definition DEVICE_FUNCTION_COUNT : Z := 8.
Definition PAGE_SIZE : Z := 4096.
Definition PAGE_SIZE_2_MIB : Z := 2 * 1024 * 1024.

Section pcie.
Context `{Build} (mem : Z -> Z) (hhdm_offset : Z) (virt_add : Z -> Z -> option Z).
Abbreviation R := (res never).
Abbreviation load := (load mem).
Abbreviation vadd := (vadd virt_add).

(** ** The table *)
Definition read_mcfg_entry (ptr : Z) : McfgEntry :=
  {| base_addr := load 8 ptr; pci_segment_group_number := load 2 (ptr + 8); start_pci_bus_number := load 1 (ptr + 10);
     end_pci_bus_number := load 1 (ptr + 11) |}.
Definition parse_mcfg (ptr : Z) : R (list McfgEntry) :=
  n ← usub 32 (load 4 (ptr + 4)) size_of_McfgHeader;
  let num_entry := n / 16 in
  ptr ← vadd ptr size_of_McfgHeader;
  '(entries, _) ← rfor (seqZ 0 num_entry) ([], ptr) (fun _ st =>
     ptr ← vadd (snd st) 16;
     Ok (fst st ++ [read_mcfg_entry (snd st)], ptr));
  Ok entries.

(** ** The scan *)
Definition read_header (a : Z) : PciHeaderPartial :=
  {| vendor_id := load 2 a; device_id := load 2 (a + 2); command := load 2 (a + 4); status := load 2 (a + 6); revision_id := load 1 (a + 8);
     prog_if := load 1 (a + 9); subclass := load 1 (a + 10); class_code := load 1 (a + 11); cache_line_size := load 1 (a + 12);
     latency_timer := load 1 (a + 13); header_type := load 1 (a + 14) |}.
(** [devices.entry(class).or_insert_with(..).entry(subclass).or_insert_with(..).entry(prog_if).and_modify(..).or_insert(..)] *)
Definition record_device (device : PciDevice) (devices : Devices) : Devices :=
  let header := header_partial device in
  let subclasses := default {[subclass header := ∅]} (devices !! class_code header) in
  let interfaces := default {[prog_if header := [device]]} (subclasses !! subclass header) in
  let v := match interfaces !! prog_if header with Some v => v ++ [device] | None => [device] end in
  <[class_code header := <[subclass header := <[prog_if header := v]> interfaces]> subclasses]> devices.
Definition check_function (a : Z) (devices : Devices) : Devices :=
  let header := read_header a in
  if negb (vendor_id header =? 0xFFFF) then record_device {| address := a; header_partial := header |} devices else devices.
Definition iterate_pcie_buses (entry : McfgEntry) (devices : Devices) : R Devices :=
  base ← vadd hhdm_offset (base_addr entry);
  let buses := if start_pci_bus_number entry <=? end_pci_bus_number entry then end_pci_bus_number entry - start_pci_bus_number entry + 1 else 0 in
  rfor (seqZ 0 buses) devices (fun bus_no devices =>
    rfor (seqZ 0 BUS_DEVICE_COUNT) devices (fun device_no devices =>
      rfor (seqZ 0 DEVICE_FUNCTION_COUNT) devices (fun function_no devices =>
        b ← ushl 64 bus_no 20;
        d ← ushl 64 device_no 15;
        f ← ushl 64 function_no 12;
        o ← uadd 64 b d;
        o ← uadd 64 o f;
        a ← vadd base o;
        Ok (check_function a devices)))).
End pcie.

(** ** Mapping *)
(** [(a..b).step_by(k)] *)
Definition steps (a b k : Z) : list Z := (fun i => a + k * i) <$> seqZ 0 ((b - a + k - 1) / k).
Section mapping.
Context `{Build} {W : Type} `{Platform W} (mem : Z -> Z) (hhdm_offset : Z) (virt_add : Z -> Z -> option Z).
(** [PhysAddr::new], [+] and [align_up] of the x86_64 crate *)
Context (phys_addr : Z -> option Z) (phys_add : Z -> Z -> option Z) (align_up : Z -> Z -> option Z).
Abbreviation P := (M (Sys W) never).
Definition map_at (size a : Z) : P () :=
  v ← lift (vadd virt_add hhdm_offset a);
  p ← lift (expect (phys_addr a));
  mapping size (containing size v) (containing size p).
Definition map_entry (entry : McfgEntry) : P () :=
  n ← lift (usub 64 (end_pci_bus_number entry) (start_pci_bus_number entry));
  pci_bus_count ← lift (uadd 64 n 1);
  base_phys ← lift (expect (phys_addr (base_addr entry)));
  aligned_up_phys_addr ← lift (expect (align_up base_phys PAGE_SIZE_2_MIB));
  n ← lift (umul 64 pci_bus_count BUS_DEVICE_COUNT);
  n ← lift (umul 64 n DEVICE_FUNCTION_COUNT);
  length ← lift (umul 64 n PAGE_SIZE);
  end_ ← lift (expect (phys_add base_phys length));
  let aligned_down_end := containing PAGE_SIZE_2_MIB end_ in
  _ ← for_each (steps base_phys aligned_up_phys_addr PAGE_SIZE) () (fun a _ => map_at PAGE_SIZE a);
  _ ← for_each (steps aligned_up_phys_addr aligned_down_end PAGE_SIZE_2_MIB) () (fun a _ => map_at PAGE_SIZE_2_MIB a);
  for_each (steps aligned_down_end end_ PAGE_SIZE) () (fun a _ => map_at PAGE_SIZE a).
Definition iterate_pcie_entries (entries : list McfgEntry) : P Devices :=
  for_each entries ∅ (fun entry devices =>
    _ ← map_entry entry;
    lift (iterate_pcie_buses mem hhdm_offset virt_add entry devices)).
End mapping.

(** ** The tree of devices *)
(** The devices recorded under a class, subclass and programming interface *)
Definition found (devices : Devices) (c s p : Z) : list PciDevice :=
  default [] (m ← devices !! c; m ← m !! s; m !! p).
Lemma found_record d devices c s p :
  found (record_device d devices) c s p =
  if bool_decide (c = class_code (header_partial d) /\ s = subclass (header_partial d) /\ p = prog_if (header_partial d)) then
    match devices !! c with
    | None => [d]
    | Some m => match m !! s with None => [d; d] | Some _ => found devices c s p ++ [d] end
    end
  else found devices c s p.
Proof.
  unfold found, record_device. set (C := class_code _). set (S := subclass _). set (I := prog_if _).
  destruct (decide (c = C)) as [->|Hc]; [|rewrite bool_decide_eq_false_2 by tauto; by rewrite lookup_insert_ne].
  rewrite lookup_insert_eq. cbn [mbind option_bind].
  destruct (decide (s = S)) as [->|Hs].
  2:{ rewrite bool_decide_eq_false_2 by tauto. rewrite lookup_insert_ne by done.
      destruct (devices !! C); cbn; [done|]. by rewrite lookup_singleton_ne. }
  rewrite lookup_insert_eq. cbn [mbind option_bind].
  destruct (decide (p = I)) as [->|Hp].
  2:{ rewrite bool_decide_eq_false_2 by tauto. rewrite lookup_insert_ne by done. destruct (devices !! C) as [m|]; cbn.
      - destruct (m !! S); cbn; [done|]. by rewrite lookup_singleton_ne.
      - by rewrite lookup_singleton_eq. }
  rewrite bool_decide_eq_true_2 by done. rewrite lookup_insert_eq. destruct (devices !! C) as [m|]; cbn.
  - destruct (m !! S) as [m'|]; cbn; [by destruct (m' !! I)|]. by rewrite lookup_singleton_eq.
  - by rewrite lookup_singleton_eq.
Qed.
(** The first device of a subclass is recorded twice, if its class has been
    seen before and its subclass has not; the first device of a class and every
    later one of a subclass are recorded once. *)
Theorem first_of_subclass_twice d devices : let h := header_partial d in
  found (record_device d devices) (class_code h) (subclass h) (prog_if h) =
  match devices !! class_code h with
  | None => [d]
  | Some m => match m !! subclass h with
              | None => [d; d]
              | Some _ => found devices (class_code h) (subclass h) (prog_if h) ++ [d]
              end
  end.
Proof. intros h. rewrite found_record. by rewrite bool_decide_eq_true_2. Qed.

(** The tree of some devices recorded one after the other *)
Definition tree_of (ds : list PciDevice) : Devices := foldl (fun devices d => record_device d devices) ∅ ds.
Definition of_class (c : Z) (d : PciDevice) : bool := class_code (header_partial d) =? c.
Definition of_subclass (c s : Z) (d : PciDevice) : bool := of_class c d && (subclass (header_partial d) =? s).
Definition of_kind (c s p : Z) (d : PciDevice) : bool := of_subclass c s d && (prog_if (header_partial d) =? p).
(** What is recorded of a device that is met after those [before] *)
Definition entered (before : list PciDevice) (d : PciDevice) (c s p : Z) : list PciDevice :=
  if of_kind c s p d then if existsb (of_class c) before && negb (existsb (of_subclass c s) before) then [d; d] else [d] else [].
Fixpoint listed (before ds : list PciDevice) (c s p : Z) : list PciDevice :=
  match ds with
  | [] => []
  | d :: ds => entered before d c s p ++ listed (before ++ [d]) ds c s p
  end.
Lemma listed_snoc c s p d ds : forall before, listed before (ds ++ [d]) c s p = listed before ds c s p ++ entered (before ++ ds) d c s p.
Proof.
  induction ds as [|x ds IH]; intros before; cbn [app listed]; [by rewrite !app_nil_r|]. by rewrite IH, <- !app_assoc.
Qed.
Lemma elem_listed c s p d ds : forall before, d ∈ listed before ds c s p <-> d ∈ ds /\ of_kind c s p d = true.
Proof.
  induction ds as [|x ds IH]; intros before; cbn [listed]; [rewrite elem_of_nil; naive_solver|]. rewrite elem_of_app, IH, elem_of_cons.
  clear IH. unfold entered. destruct (of_kind c s p x) eqn:E; [destruct (_ && _)|]; rewrite ?elem_of_cons, ?elem_of_nil; intuition (subst; congruence).
Qed.
Lemma existsb_snoc {A} (f : A -> bool) l x : existsb f (l ++ [x]) = existsb f l || f x.
Proof. rewrite existsb_app. cbn. by rewrite orb_false_r. Qed.
Lemma tree_snoc ds d : tree_of (ds ++ [d]) = record_device d (tree_of ds).
Proof. unfold tree_of. by rewrite foldl_snoc. Qed.
(** The keys of the tree are the classes and subclasses that have been met. *)
Lemma tree_keys ds c :
  match tree_of ds !! c with
  | None => existsb (of_class c) ds = false
  | Some m => existsb (of_class c) ds = true /\ forall s, existsb (of_subclass c s) ds = bool_decide (is_Some (m !! s))
  end.
Proof.
  induction ds as [|d ds IH] using rev_ind; [done|]. rewrite tree_snoc, existsb_snoc. unfold record_device.
  set (C := class_code (header_partial d)). set (S := subclass (header_partial d)).
  assert (of_class c d = (C =? c) /\ forall s, of_subclass c s d = (C =? c) && (S =? s)) as [Hcl Hsub] by done. rewrite Hcl.
  destruct (Z.eqb_spec C c) as [<-|Hc].
  - rewrite lookup_insert_eq, orb_true_r. split; [done|]. intros s. rewrite existsb_snoc, Hsub. cbn [andb]. destruct (Z.eqb_spec S s) as [<-|Hs].
    + rewrite orb_true_r, lookup_insert_eq. symmetry. by apply bool_decide_eq_true_2.
    + rewrite orb_false_r, lookup_insert_ne by done. destruct (tree_of ds !! C) as [m|]; cbn [default from_option id]; [apply IH|].
      rewrite lookup_singleton_ne by done. destruct (existsb (of_subclass C s) ds) eqn:E; [|done].
      apply existsb_exists in E as (x & Hx & E). apply andb_true_iff in E as [E _].
      assert (existsb (of_class C) ds = true) as E' by (apply existsb_exists; by exists x). congruence.
  - rewrite lookup_insert_ne by done. destruct (tree_of ds !! c); rewrite ?orb_false_r; [|done]. destruct IH as [IH1 IH2]. split; [done|]. intros s.
    by rewrite existsb_snoc, Hsub, orb_false_r.
Qed.
Lemma found_tree ds c s p : found (tree_of ds) c s p = listed [] ds c s p.
Proof.
  induction ds as [|d ds IH] using rev_ind; [done|]. rewrite tree_snoc, found_record, listed_snoc, <- IH. cbn [app]. unfold entered, of_kind.
  pose proof (tree_keys ds c) as Hk. unfold of_subclass at 1, of_class at 1. case_bool_decide as Hd.
  - destruct Hd as (Hc & Hs & Hp). rewrite <- Hc, <- Hs, <- Hp, !Z.eqb_refl. cbn [andb]. unfold found in *. destruct (tree_of ds !! c) as [m|] eqn:Em.
    + destruct Hk as [-> Hk]. rewrite Hk. cbn [mbind option_bind andb]. destruct (m !! s) as [m'|]; [by rewrite bool_decide_eq_true_2|].
      by rewrite bool_decide_eq_false_2 by (by intros [? [=]]).
    + by rewrite Hk.
  - destruct (_ && _) eqn:E; [|by rewrite app_nil_r]. destruct Hd. rewrite !andb_true_iff, !Z.eqb_eq in E. naive_solver.
Qed.

Section scan.
Context `{BB : Build} (mem : Z -> Z) (hhdm_offset : Z) (virt_add : Z -> Z -> option Z).
Hypothesis virt_add_canonical : forall a b, 0 <= a -> 0 <= b -> canonical (a + b) -> virt_add a b = Some (a + b).
(** The device at an address, if there is one *)
Definition device_at (a : Z) : option PciDevice :=
  if vendor_id (read_header mem a) =? 0xFFFF then None else Some {| address := a; header_partial := read_header mem a |}.
Definition scanned (base n : Z) (devices : Devices) : Devices :=
  foldl (fun devices k => check_function mem (base + 4096 * k) devices) devices (seqZ 0 n).
Lemma rfor_foldl {A B} (xs : list A) (f : A -> B -> res never B) (g : A -> B -> B) : forall b, (forall x b, x ∈ xs -> f x b = Ok (g x b)) ->
  rfor xs b f = Ok (foldl (fun b x => g x b) b xs).
Proof.
  induction xs as [|x xs IH]; intros b Hf; [done|]. cbn [rfor foldl]. rewrite Hf by apply list_elem_of_here. rsimpl. apply IH.
  intros y b' Hy. apply Hf. by apply list_elem_of_further.
Qed.
Lemma foldl_same {A B} (f g : B -> A -> B) xs : (forall b x, f b x = g b x) -> forall b, foldl f b xs = foldl g b xs.
Proof. intros Hfg. induction xs as [|x xs IH]; intros b; [done|]. cbn [foldl]. by rewrite Hfg. Qed.
Lemma foldl_blocks {B} (h : B -> Z -> B) m : 0 <= m -> forall (n : nat) b,
  foldl h b (seqZ 0 (m * Z.of_nat n)) = foldl (fun b i => foldl (fun b j => h b (m * i + j)) b (seqZ 0 m)) b (seqZ 0 (Z.of_nat n)).
Proof.
  intros Hm. induction n as [|n IH]; intros b; [by rewrite Z.mul_0_r|].
  replace (m * Z.of_nat (S n)) with (m * Z.of_nat n + m) by lia. replace (Z.of_nat (S n)) with (Z.of_nat n + 1) by lia.
  rewrite !seqZ_app by lia. rewrite !foldl_app, IH, !Z.add_0_l. rewrite (seqZ_cons (Z.of_nat n) 1) by lia. change (Z.pred 1) with 0.
  rewrite (seqZ_nil (Z.succ _) 0) by lia. cbn [foldl]. set (b' := foldl _ b _). clearbody b'.
  assert (seqZ (m * Z.of_nat n) m = (fun j => m * Z.of_nat n + j) <$> seqZ 0 m) as ->.
  { apply list_eq. intros k. rewrite list_lookup_fmap. destruct (decide (Z.of_nat k < m)).
    - rewrite !lookup_seqZ_lt by done. cbn. by f_equal.
    - by rewrite !lookup_seqZ_ge by lia. }
  rewrite foldl_fmap. done.
Qed.

(** The three loops are one: for a configuration space of some buses in the
    kernel's mapping of memory, they look at one address after the other, 4 KiB
    apart, 256 for every bus. *)
Lemma scan_in_order entry devices n : 0 <= base_addr entry < 2 ^ 52 -> 2 ^ 64 - 2 ^ 47 <= hhdm_offset ->
  start_pci_bus_number entry <= end_pci_bus_number entry -> n = end_pci_bus_number entry - start_pci_bus_number entry + 1 -> n <= 256 ->
  hhdm_offset + base_addr entry + 2 ^ 20 * n < 2 ^ 64 ->
  iterate_pcie_buses mem hhdm_offset virt_add entry devices = Ok (scanned (hhdm_offset + base_addr entry) (256 * n) devices).
Proof.
  intros Hb Hh Hle Hn Hn' Hend. unfold iterate_pcie_buses, vadd. rewrite virt_add_canonical by (unfold canonical; lia). cbn [expect]. rsimpl.
  btrue (start_pci_bus_number entry <=? end_pci_bus_number entry). rewrite <- Hn. set (base := hhdm_offset + base_addr entry) in *.
  rewrite (rfor_foldl _ _ (fun bus devices => foldl (fun devices d => foldl (fun devices f =>
    check_function mem (base + 4096 * (256 * bus + (8 * d + f))) devices) devices (seqZ 0 8)) devices (seqZ 0 32))).
  - f_equal. unfold scanned. rewrite <- (Z2Nat.id n) by lia. rewrite foldl_blocks by lia.
    apply foldl_same. intros b i. change 256 with (8 * Z.of_nat 32) at 3.
    rewrite (foldl_blocks (fun b j => check_function mem (base + 4096 * (256 * i + j)) b) 8) by lia. done.
  - intros bus b Hbus. apply elem_of_seqZ in Hbus. unfold BUS_DEVICE_COUNT. apply rfor_foldl. intros d b' Hd. apply elem_of_seqZ in Hd.
    unfold DEVICE_FUNCTION_COUNT. apply rfor_foldl. intros f b'' Hf. apply elem_of_seqZ in Hf.
    assert (forall x k, 0 <= x < 256 -> 0 <= k <= 20 -> ushl (E:=never) 64 x k = Ok (x * 2 ^ k)) as Hshl.
    { intros x k Hx Hk. unfold ushl, fits. btrue ((0 <=? k) && (k <? 2 ^ 64) && (k <? 64)). rewrite Z.shiftl_mul_pow2, wrap_small; [done| |lia].
      assert (0 < 2 ^ k) by (apply Z.pow_pos_nonneg; lia). assert (2 ^ k <= 2 ^ 20) by (apply Z.pow_le_mono_r; lia). nia. }
    rewrite !Hshl by lia. rsimpl. rewrite !uadd_ok by lia. rsimpl. rewrite uadd_ok by lia. rsimpl.
    rewrite virt_add_canonical by (unfold canonical; lia). cbn [expect]. rsimpl. do 2 f_equal. lia.
Qed.
(** The addresses of the functions of a space, by bus, device and function,
    and the devices that answer there *)
Definition functions (entry : McfgEntry) : list Z :=
  bus ← seqZ 0 (end_pci_bus_number entry - start_pci_bus_number entry + 1);
  dev ← seqZ 0 32;
  fn ← seqZ 0 8;
  [hhdm_offset + base_addr entry + (2 ^ 20 * bus + 2 ^ 15 * dev + 2 ^ 12 * fn)].
Definition present (entry : McfgEntry) : list PciDevice := omap device_at (functions entry).
Definition scannable (entry : McfgEntry) : Prop :=
  0 <= base_addr entry < 2 ^ 52 /\ 0 <= start_pci_bus_number entry <= end_pci_bus_number entry /\ end_pci_bus_number entry < 256 /\
  hhdm_offset + base_addr entry + 2 ^ 20 * (end_pci_bus_number entry - start_pci_bus_number entry + 1) < 2 ^ 64.
Lemma foldl_bind {A B C} (f : C -> B -> C) (g : A -> list B) l : forall c, foldl f c (l ≫= g) = foldl (fun c x => foldl f c (g x)) c l.
Proof. induction l as [|x l IH]; intros c; [done|]. cbn [mbind list_bind foldl]. by rewrite foldl_app, IH. Qed.
Lemma buses_fold entry devices : 2 ^ 64 - 2 ^ 47 <= hhdm_offset -> scannable entry ->
  iterate_pcie_buses mem hhdm_offset virt_add entry devices = Ok (foldl (fun devices a => check_function mem a devices) devices (functions entry)).
Proof.
  intros Hh (Hb & Hle & Hlt & Hend). unfold iterate_pcie_buses, vadd. rewrite virt_add_canonical by (unfold canonical; lia). cbn [expect]. rsimpl.
  btrue (start_pci_bus_number entry <=? end_pci_bus_number entry). unfold functions. rewrite foldl_bind.
  apply rfor_foldl. intros bus b Hbus. apply elem_of_seqZ in Hbus. rewrite foldl_bind. apply rfor_foldl. intros dev b' Hdev. apply elem_of_seqZ in Hdev.
  rewrite foldl_bind. apply rfor_foldl. intros fn b'' Hfn. apply elem_of_seqZ in Hfn. unfold BUS_DEVICE_COUNT, DEVICE_FUNCTION_COUNT in *.
  assert (forall x k, 0 <= x < 256 -> 0 <= k <= 20 -> ushl (E:=never) 64 x k = Ok (2 ^ k * x)) as Hshl.
  { intros x k Hx Hk. unfold ushl, fits. btrue ((0 <=? k) && (k <? 2 ^ 64) && (k <? 64)). rewrite Z.shiftl_mul_pow2, wrap_small by
      (assert (0 < 2 ^ k <= 2 ^ 20) by (split; [apply Z.pow_pos_nonneg; lia|apply Z.pow_le_mono_r; lia]); nia). by rewrite Z.mul_comm. }
  rewrite !Hshl by lia. rsimpl. rewrite !uadd_ok by lia. rsimpl. rewrite uadd_ok by lia. rsimpl.
  rewrite virt_add_canonical by (unfold canonical; lia). done.
Qed.
Lemma check_fold as_ : forall ds, foldl (fun devices a => check_function mem a devices) (tree_of ds) as_ = tree_of (ds ++ omap device_at as_).
Proof.
  induction as_ as [|a as_ IH]; intros ds; cbn [foldl omap list_omap]; [by rewrite app_nil_r|].
  unfold check_function at 2, device_at at 1. destruct (vendor_id _ =? 0xFFFF); cbn [negb]; [apply IH|]. by rewrite <- tree_snoc, IH, <- app_assoc.
Qed.
Lemma scan_all entries : 2 ^ 64 - 2 ^ 47 <= hhdm_offset -> Forall scannable entries -> forall ds,
  rfor entries (tree_of ds) (iterate_pcie_buses mem hhdm_offset virt_add) = Ok (tree_of (ds ++ (entries ≫= present))).
Proof.
  intros Hh. induction 1 as [|e entries He _ IH]; intros ds; cbn [rfor mbind list_bind]; [by rewrite app_nil_r|].
  rewrite buses_fold, check_fold by done. rsimpl. by rewrite IH, <- app_assoc.
Qed.
Lemma elem_present entries d : d ∈ entries ≫= present <-> exists e bus dev fn, e ∈ entries /\
  0 <= bus <= end_pci_bus_number e - start_pci_bus_number e /\ 0 <= dev < 32 /\ 0 <= fn < 8 /\
  device_at (hhdm_offset + base_addr e + (2 ^ 20 * bus + 2 ^ 15 * dev + 2 ^ 12 * fn)) = Some d.
Proof.
  rewrite list_elem_of_bind. unfold present, functions. setoid_rewrite list_elem_of_omap. setoid_rewrite list_elem_of_bind.
  setoid_rewrite list_elem_of_bind. setoid_rewrite list_elem_of_bind. setoid_rewrite list_elem_of_singleton. setoid_rewrite elem_of_seqZ. split.
  - intros (e & (a & (bus & (dev & (fn & -> & Hfn) & Hdev) & Hbus) & Hd) & He). exists e, bus, dev, fn. split_and!; done || lia.
  - intros (e & bus & dev & fn & He & Hbus & Hdev & Hfn & Hd). exists e. split; [|done]. eexists. split; [|exact Hd].
    exists bus. split; [|lia]. exists dev. split; [|lia]. exists fn. split; [done|lia].
Qed.
End scan.

Section complete.
Context `{BB : Build} {W : Type} {HP : Platform W} (mem : Z -> Z) (hhdm_offset : Z) (virt_add : Z -> Z -> option Z).
Context (phys_addr : Z -> option Z) (phys_add align_up : Z -> Z -> option Z).
Hypothesis virt_add_canonical : forall a b, 0 <= a -> 0 <= b -> canonical (a + b) -> virt_add a b = Some (a + b).
(** Mapping aside, [iterate_pcie_entries] is the scan of one space after the other. *)
Lemma entries_scan entries : forall devices (s : Sys W) devices' s', for_each entries devices (fun entry devices =>
    _ ← map_entry hhdm_offset virt_add phys_addr phys_add align_up entry; lift (iterate_pcie_buses mem hhdm_offset virt_add entry devices)) s = (Ok devices', s') ->
  rfor entries devices (iterate_pcie_buses mem hhdm_offset virt_add) = Ok devices'.
Proof.
  induction entries as [|e entries IH]; intros devices s devices' s' Hr; cbn [for_each rfor] in *; [by injection Hr as ->|].
  apply M_bind_ok in Hr as (d1 & s1 & H1 & Hr). apply M_bind_ok in H1 as (u & s2 & _ & H1). injection H1 as -> _. rsimpl. by eapply IH.
Qed.

(** C36: the tree of devices holds exactly the devices that are present, and how
    often.  For configuration spaces of whole buses in the kernel's mapping of
    memory, the scan of all spaces returns, and where mapping them succeeds
    [iterate_pcie_entries] returns the same tree.  Under every class, subclass
    and programming interface are the devices whose headers say so, in the order
    of the spaces, buses, devices and functions; each once, except a device that
    is the first of its subclass when another of its class has been met before:
    that one is there twice in a row.  So a device is in the tree if and only if
    it answers at one of the addresses, under the kind its header gives. *)
Theorem scan_complete entries : 2 ^ 64 - 2 ^ 47 <= hhdm_offset -> Forall (scannable hhdm_offset) entries -> exists devices,
  rfor entries ∅ (iterate_pcie_buses mem hhdm_offset virt_add) = Ok devices /\
  (forall (s : Sys W) devices' s',
    iterate_pcie_entries mem hhdm_offset virt_add phys_addr phys_add align_up entries s = (Ok devices', s') -> devices' = devices) /\
  (forall c s p, found devices c s p = listed [] (entries ≫= present mem hhdm_offset) c s p) /\
  (forall c s p d, d ∈ found devices c s p <->
    (class_code (header_partial d) = c /\ subclass (header_partial d) = s /\ prog_if (header_partial d) = p) /\
    exists e bus dev fn, e ∈ entries /\ 0 <= bus <= end_pci_bus_number e - start_pci_bus_number e /\ 0 <= dev < 32 /\ 0 <= fn < 8 /\
      device_at mem (hhdm_offset + base_addr e + (2 ^ 20 * bus + 2 ^ 15 * dev + 2 ^ 12 * fn)) = Some d).
Proof.
  intros Hh Hok. pose proof (scan_all mem hhdm_offset virt_add virt_add_canonical entries Hh Hok []) as Hs. cbn [app] in Hs.
  exists (tree_of (entries ≫= present mem hhdm_offset)). split_and!; [exact Hs| |intros; apply found_tree|].
  - intros s d s' Hr. apply entries_scan in Hr. change (tree_of []) with (∅ : Devices) in Hs. congruence.
  - intros c s p d. rewrite found_tree, elem_listed, elem_present. unfold of_kind, of_subclass, of_class. rewrite !andb_true_iff, !Z.eqb_eq. tauto.
Qed.
End complete.

(** ** Mapping a configuration space *)
(** Pages of 4 KiB and 2 MiB are mapped if no part of them is mapped yet. *)
Class Mapper (W : Type) `{Platform W} := {
  frame_of : W -> Z -> option Z;
  map_law size v p w : size = PAGE_SIZE \/ size = PAGE_SIZE_2_MIB -> v mod size = 0 -> p mod size = 0 ->
    (forall q, v <= q < v + size -> q mod 4096 = 0 -> frame_of w q = None) ->
    exists w', map_page size v p w = Some w' /\
      forall q, q mod 4096 = 0 -> frame_of w' q = if (v <=? q) && (q <? v + size) then Some (p + (q - v)) else frame_of w q;
}.
Section map_space.
Context `{BB : Build} {W : Type} {HP : Platform W} {HM : Mapper W} (hhdm_offset : Z) (virt_add : Z -> Z -> option Z).
Context (phys_addr : Z -> option Z) (phys_add align_up : Z -> Z -> option Z).
Hypothesis virt_add_canonical : forall a b, 0 <= a -> 0 <= b -> canonical (a + b) -> virt_add a b = Some (a + b).
Hypothesis phys_addr_ok : forall n, 0 <= n < 2 ^ 52 -> phys_addr n = Some n.
Hypothesis phys_add_ok : forall a b, 0 <= a -> 0 <= b -> a + b < 2 ^ 52 -> phys_add a b = Some (a + b).
Hypothesis align_up_ok : forall a k, 0 <= a -> 0 < k -> a + k < 2 ^ 52 -> align_up a k = Some (a + (- a) mod k).
Hypothesis hhdm_high : 2 ^ 64 - 2 ^ 47 <= hhdm_offset /\ hhdm_offset mod PAGE_SIZE_2_MIB = 0.
Implicit Types s : Sys W.
Abbreviation F s := (frame_of (world s)).

(** The pages from [a] to [b] are mapped where the kernel maps all memory. *)
Definition maps_range (a b : Z) s s' : Prop :=
  forall q, q mod 4096 = 0 -> F s' q = if (hhdm_offset + a <=? q) && (q <? hhdm_offset + b) then Some (q - hhdm_offset) else F s q.
Definition free_range (a b : Z) s : Prop := forall q, hhdm_offset + a <= q < hhdm_offset + b -> q mod 4096 = 0 -> F s q = None.
Lemma maps_trans a b c s1 s2 s3 : a <= b <= c -> maps_range a b s1 s2 -> maps_range b c s2 s3 -> maps_range a c s1 s3.
Proof.
  intros Hab H1 H2 q Hq. rewrite H2, H1 by done.
  destruct (Z.leb_spec (hhdm_offset + b) q), (Z.ltb_spec q (hhdm_offset + c)), (Z.leb_spec (hhdm_offset + a) q), (Z.ltb_spec q (hhdm_offset + b)); cbn; try done; lia.
Qed.
Lemma containing_id size a : 0 < size -> a mod size = 0 -> containing size a = a.
Proof. intros. unfold containing. lia. Qed.
Lemma hhdm_aligned size a : size = PAGE_SIZE \/ size = PAGE_SIZE_2_MIB -> a mod size = 0 -> (hhdm_offset + a) mod size = 0.
Proof.
  destruct hhdm_high as [_ Hh]. unfold PAGE_SIZE, PAGE_SIZE_2_MIB in *. apply Z.div_exact in Hh; [|done]. intros [-> | ->] Ha.
  - apply Z.div_exact in Ha; [|done]. rewrite Hh, Ha. replace (2 * 1024 * 1024 * (hhdm_offset / (2 * 1024 * 1024)) + 4096 * (a / 4096))
      with ((512 * (hhdm_offset / (2 * 1024 * 1024)) + a / 4096) * 4096) by lia. by apply Z.mod_mul.
  - apply Z.div_exact in Ha; [|done]. rewrite Hh, Ha. rewrite <- Z.mul_add_distr_l, Z.mul_comm. by apply Z.mod_mul.
Qed.
Lemma map_at_ok size a s : size = PAGE_SIZE \/ size = PAGE_SIZE_2_MIB -> 0 <= a -> a + size <= 2 ^ 52 -> hhdm_offset + a + size < 2 ^ 64 ->
  a mod size = 0 -> free_range a (a + size) s ->
  exists s', map_at hhdm_offset virt_add phys_addr size a s = (Ok (), s') /\ maps_range a (a + size) s s'.
Proof.
  intros Hs Ha Hm Hv Hal Hfree. assert (0 < size) by (unfold PAGE_SIZE, PAGE_SIZE_2_MIB in *; lia). destruct hhdm_high as [Hhi _].
  unfold map_at, vadd. rewrite virt_add_canonical by (unfold canonical; lia). cbn [expect]. mstep. rewrite phys_addr_ok by lia. cbn [expect]. mstep.
  pose proof (hhdm_aligned size a Hs Hal) as Hal'. rewrite !containing_id by done. unfold mapping.
  destruct (map_law size (hhdm_offset + a) a (world s) Hs Hal' Hal) as (w & -> & Hw).
  { intros q Hq. apply Hfree. lia. }
  eexists. split; [done|]. intros q Hq. cbn [world]. rewrite Hw by done. replace (hhdm_offset + a + size) with (hhdm_offset + (a + size)) by lia.
  destruct (_ && _) eqn:E; [|done]. f_equal. lia.
Qed.
Lemma map_steps_ok size : size = PAGE_SIZE \/ size = PAGE_SIZE_2_MIB -> forall (n : nat) a s, 0 <= a -> a + size * Z.of_nat n <= 2 ^ 52 ->
  hhdm_offset + a + size * Z.of_nat n < 2 ^ 64 -> a mod size = 0 -> free_range a (a + size * Z.of_nat n) s ->
  exists s', for_each ((fun i => a + size * i) <$> seqZ 0 (Z.of_nat n)) () (fun a _ => map_at hhdm_offset virt_add phys_addr size a) s = (Ok (), s') /\
    maps_range a (a + size * Z.of_nat n) s s'.
Proof.
  intros Hs. assert (0 < size) as Hpos by (unfold PAGE_SIZE, PAGE_SIZE_2_MIB in *; lia). induction n as [|n IH]; intros a s Ha Hm Hv Hal Hfree.
  { exists s. split; [done|]. intros q Hq. bfalse ((hhdm_offset + a <=? q) && (q <? hhdm_offset + (a + size * Z.of_nat 0))). done. }
  rewrite seqZ_cons by lia. cbn [fmap list_fmap for_each]. rewrite Z.mul_0_r, Z.add_0_r.
  destruct (map_at_ok size a s) as (s1 & H1 & M1); [done|lia|lia|lia|done|intros q Hq; apply Hfree; lia|]. mrun H1.
  destruct (IH (a + size) s1) as (s2 & H2 & M2); [lia|lia|lia| | |].
  - rewrite <- (Z.mul_1_l size) at 1. by rewrite Z.mod_add by lia.
  - intros q Hq Hq4. rewrite M1 by done. bfalse ((hhdm_offset + a <=? q) && (q <? hhdm_offset + (a + size))). apply Hfree; [lia|done].
  - exists s2. split.
    + rewrite <- H2. f_equal. replace (Z.pred (Z.of_nat (S n))) with (Z.of_nat n) by lia. change (Z.succ 0) with 1.
      apply list_eq. intros k. rewrite !list_lookup_fmap. destruct (decide (Z.of_nat k < Z.of_nat n)); [rewrite !lookup_seqZ_lt by lia; cbn; f_equal; lia|by rewrite !lookup_seqZ_ge by lia].
    + replace (a + size * Z.of_nat (S n)) with (a + size + size * Z.of_nat n) by lia. eapply maps_trans; [|exact M1|exact M2]. lia.
Qed.

Lemma steps_exact a size (n : nat) : 0 < size -> steps a (a + size * Z.of_nat n) size = (fun i => a + size * i) <$> seqZ 0 (Z.of_nat n).
Proof.
  intros. unfold steps. do 2 f_equal. replace (a + size * Z.of_nat n - a + size - 1) with (Z.of_nat n * size + (size - 1)) by lia.
  rewrite Z.div_add_l, Z.div_small; lia.
Qed.
Lemma map_loop_ok size a b s : size = PAGE_SIZE \/ size = PAGE_SIZE_2_MIB -> 0 <= a <= b -> b <= 2 ^ 52 -> hhdm_offset + b < 2 ^ 64 ->
  a mod size = 0 -> b mod size = 0 -> free_range a b s ->
  exists s', for_each (steps a b size) () (fun a _ => map_at hhdm_offset virt_add phys_addr size a) s = (Ok (), s') /\ maps_range a b s s'.
Proof.
  intros Hs Hab Hb Hv Ha0 Hb0 Hfree. assert (0 < size) as Hpos by (unfold PAGE_SIZE, PAGE_SIZE_2_MIB in *; lia).
  assert (exists n : nat, b = a + size * Z.of_nat n) as [n ->].
  { exists (Z.to_nat (b / size - a / size)). pose proof (Z.div_le_mono a b size Hpos ltac:(lia)). rewrite Z2Nat.id by lia.
    apply Z.div_exact in Ha0, Hb0; [|lia..]. lia. }
  rewrite steps_exact by done. apply map_steps_ok; done || lia.
Qed.

(** A configuration space of whole buses that fits in the mapping of memory *)
Definition space_size (entry : McfgEntry) : Z := 2 ^ 20 * (end_pci_bus_number entry - start_pci_bus_number entry + 1).
Definition in_space (entry : McfgEntry) (a : Z) : bool := (base_addr entry <=? a) && (a <? base_addr entry + space_size entry).
Definition space_ok (entry : McfgEntry) : Prop :=
  0 <= base_addr entry /\ base_addr entry mod 2 ^ 20 = 0 /\ base_addr entry + 2 ^ 28 + 2 ^ 21 < 2 ^ 52 /\
  0 <= start_pci_bus_number entry <= end_pci_bus_number entry /\ end_pci_bus_number entry < 256 /\
  hhdm_offset + base_addr entry + space_size entry < 2 ^ 64.
Lemma map_entry_ok entry s : space_ok entry -> free_range (base_addr entry) (base_addr entry + space_size entry) s ->
  exists s', map_entry hhdm_offset virt_add phys_addr phys_add align_up entry s = (Ok (), s') /\
    maps_range (base_addr entry) (base_addr entry + space_size entry) s s'.
Proof.
  intros (Hb & Hal & Hhi & Hbus & Hend & Hv) Hfree. unfold map_entry. unfold space_size in *.
  set (n := end_pci_bus_number entry - start_pci_bus_number entry + 1) in *. set (a := base_addr entry) in *.
  rewrite usub_ok by lia. mstep. rewrite uadd_ok by lia. mstep. rewrite phys_addr_ok by lia. cbn [expect]. mstep.
  rewrite align_up_ok by (unfold PAGE_SIZE_2_MIB; lia). cbn [expect]. mstep. unfold BUS_DEVICE_COUNT, DEVICE_FUNCTION_COUNT.
  fold n. rewrite umul_ok by lia. mstep. rewrite umul_ok by lia. mstep. rewrite umul_ok by (unfold PAGE_SIZE; lia). mstep.
  replace (n * 32 * 8 * PAGE_SIZE) with (2 ^ 20 * n) by (unfold PAGE_SIZE; lia). rewrite phys_add_ok by lia. cbn [expect]. mstep.
  set (e := a + 2 ^ 20 * n) in *. set (up := a + (- a) mod PAGE_SIZE_2_MIB). set (dn := containing PAGE_SIZE_2_MIB e).
  assert (a <= up <= dn /\ dn <= e /\ up mod PAGE_SIZE_2_MIB = 0 /\ dn mod PAGE_SIZE_2_MIB = 0 /\ up mod PAGE_SIZE = 0 /\ dn mod PAGE_SIZE = 0 /\
    a mod PAGE_SIZE = 0 /\ e mod PAGE_SIZE = 0) as (Hup & Hdn & U2 & D2 & U4 & D4 & A4 & E4).
  { assert (1 <= n) as Hn by lia. unfold dn, up, e, containing, PAGE_SIZE, PAGE_SIZE_2_MIB. clearbody n a. clear - Hal Hn.
    apply Z.div_exact in Hal; [|done]. rewrite Hal. generalize (a / 2 ^ 20). intros k. clear Hal.
    replace (2 * 1024 * 1024) with (2 ^ 20 * 2) by lia. rewrite <- Z.mul_opp_r, <- Z.mul_add_distr_l, !Z.mul_mod_distr_l by lia.
    rewrite <- Z.mul_add_distr_l, <- Z.mul_sub_distr_l, !Z.mul_mod_distr_l by lia.
    assert (forall x, (2 ^ 20 * x) mod 4096 = 0) as Hm by (intros x; replace (2 ^ 20 * x) with (256 * x * 4096) by lia; by apply Z.mod_mul).
    rewrite !Hm.
    assert (k <= k + (- k) mod 2 <= k + n - (k + n) mod 2 /\ k + n - (k + n) mod 2 <= k + n /\ (k + (- k) mod 2) mod 2 = 0 /\
      (k + n - (k + n) mod 2) mod 2 = 0) as (? & ? & -> & ->) by (Z.to_euclidean_division_equations; lia).
    split_and!; lia. }
  destruct (map_loop_ok PAGE_SIZE a up s) as (s1 & H1 & M1); [by left|lia|lia|lia|done|done|intros q Hq; apply Hfree; lia|]. mrun H1.
  destruct (map_loop_ok PAGE_SIZE_2_MIB up dn s1) as (s2 & H2 & M2); [by right|lia|lia|lia|done|done| |].
  { intros q Hq Hq4. rewrite M1 by done. bfalse ((hhdm_offset + a <=? q) && (q <? hhdm_offset + up)). apply Hfree; [lia|done]. }
  mrun H2. pose proof (maps_trans a up dn s s1 s2 Hup M1 M2) as M12.
  destruct (map_loop_ok PAGE_SIZE dn e s2) as (s3 & H3 & M3); [by left|lia|lia|lia|done|done| |].
  { intros q Hq Hq4. rewrite M12 by done. bfalse ((hhdm_offset + a <=? q) && (q <? hhdm_offset + dn)). apply Hfree; [lia|done]. }
  exists s3. split; [exact H3|]. eapply maps_trans; [|exact M12|exact M3]. lia.
Qed.

Lemma map_entries_ok mem entries : forall devices s, Forall space_ok entries ->
  ForallOrdPairs (fun e e' => base_addr e + space_size e <= base_addr e' \/ base_addr e' + space_size e' <= base_addr e) entries ->
  Forall (fun e => free_range (base_addr e) (base_addr e + space_size e) s) entries ->
  exists s', for_each entries devices (fun entry devices =>
      _ ← map_entry hhdm_offset virt_add phys_addr phys_add align_up entry; lift (iterate_pcie_buses mem hhdm_offset virt_add entry devices)) s =
    (Ok (foldl (fun devices e => scanned mem (hhdm_offset + base_addr e) (space_size e / 4096) devices) devices entries), s') /\
    forall q, q mod 4096 = 0 -> F s' q = if existsb (fun e => in_space e (q - hhdm_offset)) entries then Some (q - hhdm_offset) else F s q.
Proof.
  induction entries as [|e entries IH]; intros devices s Hok Hdis Hfree; [by exists s|]. cbn [for_each foldl existsb].
  apply Forall_cons in Hok as [He Hok]. apply Forall_cons in Hfree as [Hf Hfree]. inversion_clear Hdis as [|?? Hd Hdis'].
  destruct (map_entry_ok e s He Hf) as (s1 & H1 & M1). destruct He as (Hb & Hal & Hhi & Hbus & Hend & Hv). destruct hhdm_high as [Hh _].
  assert (space_size e / 4096 = 256 * (end_pci_bus_number e - start_pci_bus_number e + 1)) as Hn.
  { unfold space_size. replace (2 ^ 20 * _) with (256 * (end_pci_bus_number e - start_pci_bus_number e + 1) * 4096) by lia. by apply Z.div_mul. }
  assert ((_ ← map_entry hhdm_offset virt_add phys_addr phys_add align_up e; lift (iterate_pcie_buses mem hhdm_offset virt_add e devices)) s =
    (Ok (scanned mem (hhdm_offset + base_addr e) (space_size e / 4096) devices), s1)) as Hrun.
  { mrun H1. rewrite Hn. unfold space_size in Hv. by rewrite (scan_in_order mem hhdm_offset virt_add virt_add_canonical e devices
      (end_pci_bus_number e - start_pci_bus_number e + 1)) by lia. }
  mrun Hrun.
  destruct (IH (scanned mem (hhdm_offset + base_addr e) (space_size e / 4096) devices) s1 Hok Hdis') as (s2 & H2 & M2).
  { apply Forall_forall. intros e' He' q Hq Hq4. rewrite M1 by done. rewrite Forall_forall in Hfree, Hd. pose proof (Hd e' He').
    bfalse ((hhdm_offset + base_addr e <=? q) && (q <? hhdm_offset + (base_addr e + space_size e))). by apply (Hfree e' He'). }
  exists s2. split; [exact H2|]. intros q Hq. rewrite M2, M1 by done. unfold in_space.
  replace ((base_addr e <=? q - hhdm_offset) && (q - hhdm_offset <? base_addr e + space_size e)) with
    ((hhdm_offset + base_addr e <=? q) && (q <? hhdm_offset + (base_addr e + space_size e))) by lia.
  destruct (existsb _ _); [by rewrite orb_true_r|]. by rewrite orb_false_r.
Qed.
(** The configuration spaces are mapped and scanned.  For spaces of whole
    buses that do not overlap and are not mapped yet, [iterate_pcie_entries]
    returns, whatever their alignment to the large pages: it has looked at every
    function of every space once, in order, and afterwards exactly the pages of
    the spaces are mapped to their frames, and no other mapping has changed. *)
Theorem spaces_scanned mem entries s : Forall space_ok entries ->
  ForallOrdPairs (fun e e' => base_addr e + space_size e <= base_addr e' \/ base_addr e' + space_size e' <= base_addr e) entries ->
  Forall (fun e => free_range (base_addr e) (base_addr e + space_size e) s) entries ->
  exists s', iterate_pcie_entries mem hhdm_offset virt_add phys_addr phys_add align_up entries s =
    (Ok (foldl (fun devices e => scanned mem (hhdm_offset + base_addr e) (space_size e / 4096) devices) ∅ entries), s') /\
    forall q, q mod 4096 = 0 -> F s' q = if existsb (fun e => in_space e (q - hhdm_offset)) entries then Some (q - hhdm_offset) else F s q.
Proof. apply map_entries_ok. Qed.
End map_space.

(** ** The table, read back *)
Section mcfg.
Context `{BB : Build} (mem : Z -> Z) (virt_add : Z -> Z -> option Z).
Hypothesis virt_add_canonical : forall a b, 0 <= a -> 0 <= b -> canonical (a + b) -> virt_add a b = Some (a + b).
Definition mcfg_bytes (e : McfgEntry) : list Z :=
  le_bytes 8 (base_addr e) ++ le_bytes 2 (pci_segment_group_number e) ++ le_bytes 1 (start_pci_bus_number e) ++ le_bytes 1 (end_pci_bus_number e) ++ le_bytes 4 0.
Definition mcfg_ok (e : McfgEntry) : Prop :=
  0 <= base_addr e < 2 ^ 64 /\ 0 <= pci_segment_group_number e < 2 ^ 16 /\ 0 <= start_pci_bus_number e < 256 /\ 0 <= end_pci_bus_number e < 256.
Lemma mcfg_entry_back e p : mcfg_ok e -> holds mem p (mcfg_bytes e) -> read_mcfg_entry mem p = e.
Proof.
  intros (H1 & H2 & H3 & H4) Hh. unfold mcfg_bytes in Hh. rewrite !holds_app in Hh. destruct Hh as (B1 & B2 & B3 & B4 & _).
  unfold zlen in *. rewrite !length_le_bytes in *. apply holds_load in B1, B2, B3, B4; [|lia..].
  replace (p + Z.of_nat 8 + Z.of_nat 2 + Z.of_nat 1) with (p + 11) in B4 by lia. replace (p + Z.of_nat 8 + Z.of_nat 2) with (p + 10) in B3 by lia.
  change (Z.of_nat 8) with 8 in *. change (Z.of_nat 2) with 2 in *. change (Z.of_nat 1) with 1 in *. unfold read_mcfg_entry. rewrite B1, B2, B3, B4. by destruct e.
Qed.
Lemma zlen_mcfg es : zlen (concat (mcfg_bytes <$> es)) = 16 * zlen es.
Proof. induction es as [|e es IH]; [done|]. cbn [fmap list_fmap concat]. rewrite zlen_app, zlen_cons, IH. unfold mcfg_bytes, zlen. rewrite !length_app, !length_le_bytes. lia. Qed.
Lemma mcfg_loop_ok es : forall k p acc, Forall mcfg_ok es -> holds mem p (concat (mcfg_bytes <$> es)) -> 2 ^ 64 - 2 ^ 47 <= p -> p + 16 * zlen es < 2 ^ 64 ->
  rfor (seqZ k (zlen es)) (acc, p) (fun _ st => ptr ← vadd virt_add (snd st) 16; Ok (fst st ++ [read_mcfg_entry mem (snd st)], ptr)) =
    Ok (acc ++ es, p + 16 * zlen es).
Proof.
  induction es as [|e es IH]; intros k p acc Hok Hh Hp Hl.
  { by rewrite zlen_nil, app_nil_r, Z.mul_0_r, Z.add_0_r. }
  apply Forall_cons in Hok as [He Hok]. cbn [fmap list_fmap concat] in Hh. rewrite holds_app in Hh. destruct Hh as [H1 H2].
  replace (zlen (mcfg_bytes e)) with 16 in H2 by done. rewrite zlen_cons in *. pose proof (zlen_nonneg es). rewrite seqZ_cons by lia. cbn [rfor fst snd].
  rewrite (vadd_high virt_add virt_add_canonical) by lia. rsimpl. rewrite (mcfg_entry_back e) by done.
  replace (Z.pred (1 + zlen es)) with (zlen es) by lia. rewrite IH by (done || lia). rewrite <- app_assoc. do 2 f_equal. lia.
Qed.
(** The MCFG table is read back.  If memory holds a table of any number of
    configuration spaces, [parse_mcfg] returns them in their order. *)
Theorem mcfg_roundtrip p sig rest es : zlen sig = 4 -> zlen rest = 36 -> Forall mcfg_ok es -> 44 + 16 * zlen es < 2 ^ 32 ->
  2 ^ 64 - 2 ^ 47 <= p -> p + 44 + 16 * zlen es < 2 ^ 64 ->
  holds mem p (sig ++ le_bytes 4 (44 + 16 * zlen es) ++ rest ++ concat (mcfg_bytes <$> es)) ->
  parse_mcfg mem virt_add p = Ok es.
Proof.
  intros Hs Hr Hes Hlen Hp Hl Hh. pose proof (zlen_nonneg es). rewrite !holds_app in Hh. destruct Hh as (_ & H1 & _ & H2). rewrite Hs, Hr in *.
  unfold parse_mcfg. apply holds_load in H1; [|lia]. change (Z.of_nat 4) with 4 in H1. rewrite H1. unfold size_of_McfgHeader. rewrite usub_ok by lia. rsimpl.
  rewrite (vadd_high virt_add virt_add_canonical) by lia. rsimpl.
  replace (44 + 16 * zlen es - 44) with (zlen es * 16) by lia. rewrite Z.div_mul by done.
  unfold zlen at 1 in H2. rewrite length_le_bytes in H2. rewrite (mcfg_loop_ok es 0 (p + 44) []); [by rsimpl|done| |lia|lia].
  by replace (p + 44) with (p + 4 + Z.of_nat 4 + 36) by lia.
Qed.
End mcfg.

Module SamplePcie.
Import SampleAcpi.
Definition spaces : list McfgEntry :=
  [{| base_addr := 0xB0100000; pci_segment_group_number := 0; start_pci_bus_number := 0; end_pci_bus_number := 0 |};
   {| base_addr := 0xC0000000; pci_segment_group_number := 1; start_pci_bus_number := 4; end_pci_bus_number := 6 |}].
Definition table : list Z := str "MCFG" ++ le_bytes 4 76 ++ replicate 36 0 ++ concat (mcfg_bytes <$> spaces).
(** A host bridge and a disk controller; everything else reads as ones. *)
Definition bridge : list Z := [0x86; 0x80; 0xC0; 0x29; 7; 0; 0; 0; 0; 0; 0; 6; 0; 0; 0; 0].
Definition disk : list Z := [0x86; 0x80; 0x22; 0x29; 7; 0; 0; 0; 2; 1; 6; 1; 0; 0; 0; 0].
Definition near (l : list Z) (base a : Z) : option Z := if a <? base + 0x1000 then byte_in l base a else None.
Definition mem (a : Z) : Z :=
  match near table (hhdm_offset + 0x4000) a, near bridge (hhdm_offset + 0xB0100000) a, near disk (hhdm_offset + 0xC01FA000) a with
  | Some b, _, _ => b | _, Some b, _ => b | _, _, Some b => b | _, _, _ => 0xFF
  end.
Definition ide : list Z := [0x86; 0x80; 0x10; 0x70; 7; 0; 0; 0; 0; 0; 1; 1; 0; 0; 0; 0].
Definition two_disks (a : Z) : Z :=
  match near ide (hhdm_offset + 0xB0100000) a, near disk (hhdm_offset + 0xC01FA000) a with Some b, _ => b | _, Some b => b | _, _ => 0xFF end.
Definition Tables : Type := Z -> option Z.
Definition is_free (w : Tables) (v size : Z) : bool := forallb (fun q => bool_decide (w q = None)) (steps v (v + size) 4096).
#[export] Instance tables_platform : Platform Tables := {
  load32 _ w := (0, w);
  store32 _ _ w := w;
  map_page size v p w := if is_free w v size then Some (fun q => if (v <=? q) && (q <? v + size) then Some (p + (q - v)) else w q) else None;
}.
#[export] Program Instance tables_mapper : Mapper Tables := { frame_of w := w }.
Next Obligation.
  intros size v p w Hs Hv _ Hfree. cbn [map_page tables_platform].
  assert (is_free w v size = true) as ->; [|by eexists]. apply forallb_forall. intros q Hq. apply bool_decide_eq_true_2.
  apply list_elem_of_In in Hq. unfold steps in Hq. apply list_elem_of_fmap in Hq as (i & -> & Hi). apply elem_of_seqZ in Hi.
  assert (exists n, size = 4096 * n /\ 0 < n) as (n & -> & Hn) by (destruct Hs as [-> | ->]; [by exists 1|by exists 512]).
  replace (v + 4096 * n - v + 4096 - 1) with (n * 4096 + 4095) in Hi by lia. rewrite Z.div_add_l in Hi by lia. change (4095 / 4096) with 0 in Hi.
  apply Hfree; [lia|]. rewrite (Z.mul_comm 4096 i), Z.mod_add by lia. apply Z.div_exact in Hv; [|lia]. rewrite Hv.
  replace (4096 * n * (v / (4096 * n))) with (n * (v / (4096 * n)) * 4096) by lia. by apply Z.mod_mul.
Qed.
Definition start : Sys Tables := Build_Sys (fun _ => None) 0.
Definition phys_addr (n : Z) : option Z := if fits 52 n then Some n else None.
Definition phys_add (a b : Z) : option Z := phys_addr (a + b).
Definition align_up (a k : Z) : option Z := phys_addr (a + (- a) mod k).
Lemma phys_new n : 0 <= n < 2 ^ 52 -> phys_addr n = Some n.
Proof. intros Hn. unfold phys_addr. by rewrite (proj2 (fits_iff 52 n) Hn). Qed.
Lemma phys_plus a b : 0 <= a -> 0 <= b -> a + b < 2 ^ 52 -> phys_add a b = Some (a + b).
Proof. intros. apply phys_new. lia. Qed.
Lemma phys_up a k : 0 <= a -> 0 < k -> a + k < 2 ^ 52 -> align_up a k = Some (a + (- a) mod k).
Proof. intros. apply phys_new. pose proof (Z.mod_pos_bound (- a) k). lia. Qed.
End SamplePcie.
Import SamplePcie.

Lemma mcfg_roundtrip_witness : @parse_mcfg dev_build SamplePcie.mem SampleAcpi.virt_add (SampleAcpi.hhdm_offset + 0x4000) = Ok spaces.
Proof.
  apply (@mcfg_roundtrip dev_build SamplePcie.mem SampleAcpi.virt_add SampleAcpi.virt_add_ok (SampleAcpi.hhdm_offset + 0x4000) (str "MCFG") (replicate 36 0)).
  1, 2, 4-7: by vm_compute. repeat constructor; by vm_compute.
Defined.
(** Two storage controllers of different subclasses: the second is recorded twice. *)
Lemma scan_complete_witness : exists devices,
  rfor spaces ∅ (iterate_pcie_buses (H:=dev_build) two_disks SampleAcpi.hhdm_offset SampleAcpi.virt_add) = Ok devices /\
  address <$> found devices 1 1 0 = [SampleAcpi.hhdm_offset + 0xB0100000] /\
  address <$> found devices 1 6 1 = [SampleAcpi.hhdm_offset + 0xC01FA000; SampleAcpi.hhdm_offset + 0xC01FA000].
Proof.
  destruct (@scan_complete dev_build Tables _ two_disks SampleAcpi.hhdm_offset SampleAcpi.virt_add phys_addr phys_add align_up SampleAcpi.virt_add_ok spaces)
    as (devices & H1 & _ & H2 & _); [by vm_compute| |].
  - apply Forall_cons_2; [|apply Forall_cons_2; [|apply Forall_nil_2]]; unfold scannable, SampleAcpi.hhdm_offset;
      cbn [base_addr start_pci_bus_number end_pci_bus_number]; lia.
  - exists devices. split; [exact H1|]. rewrite !H2. split; vm_compute; reflexivity.
Defined.
Lemma spaces_scanned_witness :
  exists devices s', @iterate_pcie_entries dev_build Tables _ SamplePcie.mem SampleAcpi.hhdm_offset SampleAcpi.virt_add phys_addr phys_add align_up spaces start =
    (Ok devices, s') /\ address <$> found devices 1 6 1 = [SampleAcpi.hhdm_offset + 0xC01FA000] /\
    world s' (SampleAcpi.hhdm_offset + 0xC0201000) = Some 0xC0201000 /\ world s' (SampleAcpi.hhdm_offset + 0xC0300000) = None.
Proof.
  destruct (@spaces_scanned dev_build Tables _ _ SampleAcpi.hhdm_offset SampleAcpi.virt_add phys_addr phys_add align_up SampleAcpi.virt_add_ok
    phys_new phys_plus phys_up ltac:(by vm_compute) SamplePcie.mem spaces start) as (s' & H1 & H2).
  - apply Forall_cons_2; [|apply Forall_cons_2; [|apply Forall_nil_2]]; unfold space_ok, space_size, SampleAcpi.hhdm_offset; cbn [base_addr start_pci_bus_number end_pci_bus_number].
    all: refine (conj _ (conj _ _)); [lia|reflexivity|lia].
  - apply FOP_cons; [|apply FOP_cons; [apply Forall_nil_2|apply FOP_nil]]. apply Forall_cons_2; [|apply Forall_nil_2]. left. by vm_compute.
  - apply Forall_cons_2; [|apply Forall_cons_2]; [done..|apply Forall_nil_2].
  - eexists _, s'. split; [exact H1|]. refine (conj _ (conj _ _)); [vm_compute; reflexivity| |].
    + pose proof (H2 (SampleAcpi.hhdm_offset + 0xC0201000) ltac:(by vm_compute)) as H. exact H.
    + pose proof (H2 (SampleAcpi.hhdm_offset + 0xC0300000) ltac:(by vm_compute)) as H. exact H.
Defined.
