(* ===== verification/Terminal.v ===== *)
(** * The terminal

    src/kernel/src/terminal/mod.rs: text on a frame buffer.

    The state is the writer, with its text and colour buffers of 100 rows of 160
    cells, and the memory the frame buffer is part of, a function from addresses
    to words of 32 bits.  The pixel at an offset is the word at four times the
    offset from the address of the frame buffer.

    Shown here: a terminal that fits in its buffers shows the last rows of
    everything written, wrapped at its width; the pixels of every cell but the
    one under the cursor are those of its character; nothing outside the cells
    is written; the cursor blinks; and screens wider or higher than the buffers
    stop the kernel. *)

From S2P Require Import Prelude Font.
#[local] Open Scope Z_scope.

Record DebugWriter := {
  frame_buffer_width : Z; frame_buffer_height : Z; frame_buffer_addr : Z; terminal_width : Z; terminal_height : Z;
  current_row : Z; current_col : Z; cur_bg_color : Z; cur_fg_color : Z; cursor_row : Z; cursor_col : Z;
  is_cursor_on : bool; cursor_blink_interval : Z;
  color_buffer : list (list Z); text_buffer : list (list Z);
}.
Definition WRITER : DebugWriter := {|
  frame_buffer_width := 0; frame_buffer_height := 0; frame_buffer_addr := 0; terminal_width := 0; terminal_height := 0;
  current_row := 0; current_col := 0; cur_bg_color := 0; cur_fg_color := 0xffffff; cursor_row := 0; cursor_col := 0;
  is_cursor_on := false; cursor_blink_interval := 10;
  color_buffer := replicate 100 (replicate 160 0); text_buffer := replicate 100 (replicate 160 0);
|}.
Record Term := { writer : DebugWriter; vram : Z -> Z }.

(** Assignments to fields *)
Definition set_frame (fw fh addr tw th : Z) (w : DebugWriter) : DebugWriter :=
  {| frame_buffer_width := fw; frame_buffer_height := fh; frame_buffer_addr := addr; terminal_width := tw; terminal_height := th;
     current_row := current_row w; current_col := current_col w; cur_bg_color := cur_bg_color w; cur_fg_color := cur_fg_color w;
     cursor_row := cursor_row w; cursor_col := cursor_col w; is_cursor_on := is_cursor_on w; cursor_blink_interval := cursor_blink_interval w;
     color_buffer := color_buffer w; text_buffer := text_buffer w |}.
Definition set_current (r c : Z) (w : DebugWriter) : DebugWriter :=
  {| frame_buffer_width := frame_buffer_width w; frame_buffer_height := frame_buffer_height w; frame_buffer_addr := frame_buffer_addr w;
     terminal_width := terminal_width w; terminal_height := terminal_height w;
     current_row := r; current_col := c; cur_bg_color := cur_bg_color w; cur_fg_color := cur_fg_color w;
     cursor_row := cursor_row w; cursor_col := cursor_col w; is_cursor_on := is_cursor_on w; cursor_blink_interval := cursor_blink_interval w;
     color_buffer := color_buffer w; text_buffer := text_buffer w |}.
Definition set_colors (bg fg : Z) (w : DebugWriter) : DebugWriter :=
  {| frame_buffer_width := frame_buffer_width w; frame_buffer_height := frame_buffer_height w; frame_buffer_addr := frame_buffer_addr w;
     terminal_width := terminal_width w; terminal_height := terminal_height w;
     current_row := current_row w; current_col := current_col w; cur_bg_color := bg; cur_fg_color := fg;
     cursor_row := cursor_row w; cursor_col := cursor_col w; is_cursor_on := is_cursor_on w; cursor_blink_interval := cursor_blink_interval w;
     color_buffer := color_buffer w; text_buffer := text_buffer w |}.
Definition set_cursor (r c : Z) (on : bool) (n : Z) (w : DebugWriter) : DebugWriter :=
  {| frame_buffer_width := frame_buffer_width w; frame_buffer_height := frame_buffer_height w; frame_buffer_addr := frame_buffer_addr w;
     terminal_width := terminal_width w; terminal_height := terminal_height w;
     current_row := current_row w; current_col := current_col w; cur_bg_color := cur_bg_color w; cur_fg_color := cur_fg_color w;
     cursor_row := r; cursor_col := c; is_cursor_on := on; cursor_blink_interval := n;
     color_buffer := color_buffer w; text_buffer := text_buffer w |}.
Definition set_buffers (color text : list (list Z)) (w : DebugWriter) : DebugWriter :=
  {| frame_buffer_width := frame_buffer_width w; frame_buffer_height := frame_buffer_height w; frame_buffer_addr := frame_buffer_addr w;
     terminal_width := terminal_width w; terminal_height := terminal_height w;
     current_row := current_row w; current_col := current_col w; cur_bg_color := cur_bg_color w; cur_fg_color := cur_fg_color w;
     cursor_row := cursor_row w; cursor_col := cursor_col w; is_cursor_on := is_cursor_on w; cursor_blink_interval := cursor_blink_interval w;
     color_buffer := color; text_buffer := text |}.

Section terminal.
Context `{Build}.
Abbreviation T := (M Term never).
Definition self {A} (f : DebugWriter -> A) : T A := gets (fun s => f (writer s)).
Definition assign (f : DebugWriter -> DebugWriter) : T () := modify (fun s => {| writer := f (writer s); vram := vram s |}).
(** [buf[row][col]] and [buf[row][col] = x] *)
Definition index2 (buf : list (list Z)) (row col : Z) : res never Z := r ← index buf row; index r col.
Definition update2 (buf : list (list Z)) (row col x : Z) : res never (list (list Z)) := r ← index buf row; r ← update r col x; update buf row r.
Definition set_cell (row col color ch : Z) : T () :=
  w ← self id;
  t ← lift (update2 (text_buffer w) row col ch);
  c ← lift (update2 (color_buffer w) row col color);
  assign (set_buffers c t).

(** ** Pixels *)
(** [*((self.frame_buffer_addr as *mut u32).add(pixel_offset as usize)) = colour] *)
Definition set_pixel (pixel_offset colour : Z) : T () := modify (fun s =>
  let a := wrap 64 (frame_buffer_addr (writer s) + 4 * pixel_offset) in
  {| writer := writer s; vram := fun b => if b =? a then colour else vram s b |}).
(** The loop over the sixteen rows and eight columns of a cell *)
Definition fill_pixel (row col : Z) (colour : DebugWriter -> Z -> Z -> res never Z) (i j : Z) : T () :=
  w ← self id;
  y ← lift (umul 64 row 16);
  y ← lift (uadd 64 y i);
  o ← lift (umul 64 y (frame_buffer_width w));
  x ← lift (umul 64 col 8);
  o ← lift (uadd 64 o x);
  pixel_offset ← lift (uadd 64 o j);
  c ← lift (colour w i j);
  set_pixel pixel_offset c.
Definition fill_cell (row col : Z) (colour : DebugWriter -> Z -> Z -> res never Z) : T () :=
  for_each (seqZ 0 16) () (fun i _ => for_each (seqZ 0 8) () (fun j _ => fill_pixel row col colour i j)).
Definition glyph_color (character : Z) (w : DebugWriter) (i j : Z) : res never Z :=
  n ← umul 64 character 16;
  n ← uadd 64 n i;
  b ← index BUILTIN_FONT n;
  k ← usub 64 7 j;
  v ← ushr 8 b k;
  Ok (if Z.land v 1 =? 1 then cur_fg_color w else cur_bg_color w).
Definition remove_debug_cursor (row col : Z) : T () := fill_cell row col (fun w _ _ => Ok (cur_bg_color w)).
Definition draw_debug_cursor (row col : Z) : T () := fill_cell row col (fun _ _ _ => Ok 0xFFFFFF).
Definition debug_render_char (character row col : Z) : T () := fill_cell row col (glyph_color character).

(** ** Cursor *)
Definition update_debug_cursor (remove : bool) : T () :=
  w ← self id;
  _ ← remove_debug_cursor (cursor_row w) (cursor_col w);
  ch ← lift (index2 (text_buffer w) (cursor_row w) (cursor_col w));
  _ ← debug_render_char ch (cursor_row w) (cursor_col w);
  _ ← (if negb remove then draw_debug_cursor (current_row w) (current_col w) else mret ());
  assign (fun w => set_cursor (current_row w) (current_col w) (is_cursor_on w) (cursor_blink_interval w) w).
Definition set_blink (on : bool) (n : Z) : T () := assign (fun w => set_cursor (cursor_row w) (cursor_col w) on n w).
Definition blink_debug_cursor : T () :=
  w ← self id;
  if is_cursor_on w then
    if cursor_blink_interval w =? 0 then _ ← update_debug_cursor true; set_blink false 250
    else n ← lift (usub 8 (cursor_blink_interval w) 1); set_blink true n
  else if cursor_blink_interval w =? 0 then _ ← update_debug_cursor false; set_blink true 250
  else n ← lift (usub 8 (cursor_blink_interval w) 1); set_blink false n.

(** ** Text *)
Definition clear_cell (row col : Z) : T () := _ ← set_cell row col 0xFFFFFF00000000 0; debug_render_char 0 row col.
Definition clear_debug_terminal : T () :=
  h ← self terminal_height;
  w ← self terminal_width;
  _ ← for_each (seqZ 0 h) () (fun row _ => for_each (seqZ 0 w) () (fun col _ => clear_cell row col));
  _ ← assign (set_current 0 0);
  update_debug_cursor false.
Definition configure_debug_terminal (width height addr res_width res_height : Z) : T () :=
  _ ← assign (set_frame width height addr (res_width / 8) (res_height / 16));
  clear_debug_terminal.
(** The first frame buffer of the boot loader, if it gives one *)
Definition init_debug_terminal (framebuffer : option (Z * Z * Z)) : T () :=
  match framebuffer with
  | Some (width, height, addr) => configure_debug_terminal width height addr width height
  | None => mret ()
  end.
Definition render_cell (row col : Z) : T () :=
  s ← self id;
  v ← lift (index2 (color_buffer s) row col);
  _ ← assign (set_colors (wrap 32 v) (wrap 32 (Z.shiftr v 32)));
  ch ← lift (index2 (text_buffer s) row col);
  debug_render_char ch row col.
Definition debug_render_buffer : T () :=
  h ← self terminal_height;
  w ← self terminal_width;
  _ ← for_each (seqZ 0 h) () (fun row _ => for_each (seqZ 0 w) () (fun col _ => render_cell row col));
  n ← lift (usub 64 h 1);
  _ ← assign (set_current n 0);
  update_debug_cursor false.
Definition move_cell (i j : Z) : T () :=
  s ← self id;
  i' ← lift (usub 64 i 1);
  v ← lift (index2 (color_buffer s) i j);
  ch ← lift (index2 (text_buffer s) i j);
  set_cell i' j v ch.
Definition debug_terminal_moveup : T () :=
  h ← self terminal_height;
  w ← self terminal_width;
  _ ← for_each (seqZ 1 (h - 1)) () (fun i _ => for_each (seqZ 0 w) () (fun j _ => move_cell i j));
  _ ← for_each (seqZ 0 w) () (fun i _ =>
        n ← lift (usub 64 h 1);
        set_cell n i 0xFFFFFF00000000 0);
  debug_render_buffer.
Definition next_row : T () :=
  w ← self id;
  r ← lift (uadd 64 (current_row w) 1);
  if r =? terminal_height w then
    n ← lift (usub 64 (terminal_height w) 1);
    _ ← assign (set_current n 0);
    debug_terminal_moveup
  else assign (set_current r 0).
Definition debug_terminal_advance : T () :=
  w ← self id;
  c ← lift (uadd 64 (current_col w) 1);
  if c =? terminal_width w then next_row else assign (set_current (current_row w) c).
Definition debug_terminal_newline : T () := next_row.
Definition debug_terminal_putbyte (byte : Z) : T () :=
  w ← self id;
  _ ← fill_cell (current_row w) (current_col w) (glyph_color byte);
  _ ← set_cell (current_row w) (current_col w) (Z.lor (wrap 64 (Z.shiftl (cur_fg_color w) 32)) (cur_bg_color w)) byte;
  debug_terminal_advance.
Definition write_string (format : list Z) : T () :=
  _ ← for_each format () (fun byte _ =>
        if byte =? 10 then debug_terminal_newline
        else if byte <=? 0x7f then debug_terminal_putbyte byte
        else debug_terminal_putbyte 0xFE);
  update_debug_cursor false.
End terminal.

(** ** Loops *)
(** Row by row over the cells: [J r c] holds before the cell [(r, c)]. *)
Lemma for_cells {S E} (f : Z -> Z -> M S E ()) (J : Z -> Z -> S -> Prop) a n m s : 0 <= n -> 0 <= m ->
  (forall r c s, a <= r < a + n -> 0 <= c < m -> J r c s -> exists s', f r c s = (Ok (), s') /\ J r (c + 1) s') ->
  (forall r s, a <= r < a + n -> J r m s -> J (r + 1) 0 s) -> J a 0 s ->
  exists s', for_each (seqZ a n) () (fun r _ => for_each (seqZ 0 m) () (fun c _ => f r c)) s = (Ok (), s') /\ J (a + n) 0 s'.
Proof.
  intros Hn Hm Hf Hnext HJ. apply (for_seq _ (fun r s => J r 0 s)); [done| |done]. intros r s1 Hr HJ1.
  destruct (for_seq (fun c _ => f r c) (J r) 0 m s1) as (s2 & H2 & HJ2); [done|intros c s2 Hc; by apply Hf|done|]. exists s2. auto.
Qed.
(** The cells before [(r, c)] *)
Definition before (r c r' c' : Z) : Prop := r' < r \/ r' = r /\ c' < c.

(** ** Geometry *)
(** Where the pixel of row [i] and column [j] of a cell is *)
Definition pixel_at (w : DebugWriter) (row col i j : Z) : Z :=
  frame_buffer_addr w + 4 * ((row * 16 + i) * frame_buffer_width w + col * 8 + j).
Definition in_cell (i j : Z) : Prop := 0 <= i < 16 /\ 0 <= j < 8.
Definition visible (w : DebugWriter) (row col : Z) : Prop := 0 <= row < terminal_height w /\ 0 <= col < terminal_width w.
(** The terminal fits in the frame buffer. *)
Definition geometry (w : DebugWriter) : Prop :=
  0 < terminal_width w < 2 ^ 32 /\ 0 < terminal_height w < 2 ^ 32 /\ 8 * terminal_width w <= frame_buffer_width w /\
  16 * terminal_height w <= frame_buffer_height w /\ 0 <= frame_buffer_addr w /\
  frame_buffer_addr w + 4 * (frame_buffer_width w * frame_buffer_height w) <= 2 ^ 64.
Lemma pixel_bound w row col i j : geometry w -> visible w row col -> in_cell i j ->
  0 <= (row * 16 + i) * frame_buffer_width w /\ (row * 16 + i) * frame_buffer_width w + frame_buffer_width w <= frame_buffer_width w * frame_buffer_height w /\
  0 <= col * 8 + j < frame_buffer_width w.
Proof. intros (Hw & Hh & Hfw & Hfh & Ha & Hend) (Hr & Hc) (Hi & Hj). split_and!; nia. Qed.
Lemma pixel_inj w row col i j row' col' i' j' : geometry w -> visible w row col -> in_cell i j -> visible w row' col' -> in_cell i' j' ->
  pixel_at w row col i j = pixel_at w row' col' i' j' -> row = row' /\ col = col' /\ i = i' /\ j = j'.
Proof.
  intros Hg Hv Hij Hv' Hij'. pose proof (pixel_bound w row col i j Hg Hv Hij) as (_ & _ & B).
  pose proof (pixel_bound w row' col' i' j' Hg Hv' Hij') as (_ & _ & B'). unfold pixel_at, in_cell in *. intros He.
  assert ((row * 16 + i) * frame_buffer_width w + (col * 8 + j) = (row' * 16 + i') * frame_buffer_width w + (col' * 8 + j')) as E by lia.
  destruct (Z.div_mod_unique (frame_buffer_width w) (row * 16 + i) (row' * 16 + i') (col * 8 + j) (col' * 8 + j')) as [E1 E2]; lia.
Qed.

(** ** Filling a cell *)
(** The words of a cell are those of [c]; no other word has changed. *)
Definition painted (row col : Z) (c : Z -> Z -> Z) (s s' : Term) : Prop :=
  writer s' = writer s /\ (forall i j, in_cell i j -> vram s' (pixel_at (writer s) row col i j) = c i j) /\
  forall a, (forall i j, in_cell i j -> a <> pixel_at (writer s) row col i j) -> vram s' a = vram s a.
Section fill.
Context `{BB : Build}.
Lemma fill_pixel_ok row col colour i j c s : geometry (writer s) -> visible (writer s) row col -> in_cell i j -> colour (writer s) i j = Ok c ->
  fill_pixel row col colour i j s = (Ok (), {| writer := writer s; vram := fun b => if b =? pixel_at (writer s) row col i j then c else vram s b |}).
Proof.
  intros Hg Hv Hij Hc. pose proof (pixel_bound _ row col i j Hg Hv Hij) as (B1 & B2 & B3). destruct Hg as (Gw & Gh & Gfw & Gfh & Ga & Ge).
  destruct Hv as [Hr Hcl]. destruct Hij as [Hi Hj]. unfold fill_pixel, self. mstep. unfold id. rewrite (umul_ok 64 row 16) by lia. mstep.
  rewrite (uadd_ok 64 (row * 16) i) by lia. mstep. rewrite (umul_ok 64 (row * 16 + i)) by lia. mstep. rewrite (umul_ok 64 col 8) by lia. mstep.
  rewrite uadd_ok by lia. mstep. rewrite uadd_ok by lia. mstep. rewrite Hc. mstep. unfold set_pixel, modify. by rewrite wrap_small by lia.
Qed.
Lemma fill_cell_ok row col colour c s : geometry (writer s) -> visible (writer s) row col ->
  (forall i j, in_cell i j -> colour (writer s) i j = Ok (c i j)) ->
  exists s', fill_cell row col colour s = (Ok (), s') /\ painted row col c s s'.
Proof.
  intros Hg Hv Hc. set (P := pixel_at (writer s) row col).
  set (I := fun i j s' => writer s' = writer s /\
    (forall i' j', in_cell i' j' -> before i j i' j' -> vram s' (P i' j') = c i' j') /\
    (forall a, (forall i j, in_cell i j -> a <> P i j) -> vram s' a = vram s a)).
  assert (forall i j s1, in_cell i j -> I i j s1 -> exists s2, fill_pixel row col colour i j s1 = (Ok (), s2) /\ I i (j + 1) s2) as Hstep.
  { intros i j s1 Hij (W & HP & HF). eexists. split; [apply fill_pixel_ok with (c := c i j); rewrite ?W; auto|]. unfold I. cbn [writer vram]. rewrite W.
    fold P. split; [done|]. split.
    - intros i' j' Hij' Hlt. destruct (Z.eqb_spec (P i' j') (P i j)) as [E|E].
      + by apply pixel_inj in E as (_ & _ & -> & ->).
      + apply HP; [done|]. unfold before in *. destruct (decide (i' = i /\ j' = j)) as [[-> ->]|]; [done|lia].
    - intros a Ha. specialize (Ha i j Hij) as Hne. bfalse (a =? P i j). by apply HF. }
  destruct (for_cells (fun i j => fill_pixel row col colour i j) I 0 16 8 s) as (s' & H1 & W & HP & HF); [lia..| | | |].
  - intros i j s1 Hi Hj. apply Hstep. split; lia.
  - intros i s1 Hi (W & HP & HF). split; [done|]. split; [|done]. intros i' j' Hij' Hlt. apply HP; [done|]. unfold in_cell, before in *. lia.
  - split; [done|]. split; [|done]. intros i j [[Hi _] [Hj _]] [?|[? ?]]; lia.
  - exists s'. split; [exact H1|]. split; [done|]. split; [|done]. intros i j Hij. apply HP; [done|]. left. destruct Hij. lia.
Qed.
End fill.

(** ** Characters and cells *)
Definition WHITE : Z := 0xFFFFFF.
Definition DEFAULT : Z := 0xFFFFFF00000000.
Definition glyph (ch i j : Z) : bool := Z.testbit (default 0 (BUILTIN_FONT !! Z.to_nat (16 * ch + i))) (7 - j).
Lemma glyph_color_ok `{Build} ch w i j : 0 <= ch < 256 -> in_cell i j ->
  glyph_color ch w i j = Ok (if glyph ch i j then cur_fg_color w else cur_bg_color w).
Proof.
  intros Hch [Hi Hj]. unfold glyph_color. rewrite umul_ok by lia. rsimpl. rewrite uadd_ok by lia. rsimpl.
  destruct (lookup_lt_is_Some_2 BUILTIN_FONT (Z.to_nat (ch * 16 + i))) as [b Hb].
  { change (length BUILTIN_FONT) with (Z.to_nat 4096). lia. }
  rewrite (index_ok _ _ b) by (done || lia). rsimpl. rewrite usub_ok by lia. rsimpl. unfold ushr. unfold fits.
  btrue ((0 <=? 7 - j) && (7 - j <? 2 ^ 8) && (7 - j <? 8)). rsimpl. do 2 f_equal. unfold glyph. replace (16 * ch + i) with (ch * 16 + i) by lia.
  rewrite Hb. cbn [default from_option id]. change 1 with (Z.ones 1) at 1. rewrite Z.land_ones by lia. change (2 ^ 1) with 2.
  rewrite <- Z.bit0_mod, Z.shiftr_spec by lia. rewrite Z.add_0_l. by destruct (Z.testbit b (7 - j)).
Qed.

Definition dims (b : list (list Z)) : Prop := length b = 100%nat /\ Forall (fun r => length r = 160%nat) b.
Definition cell (b : list (list Z)) (r c : Z) : Z := default 0 (b !! Z.to_nat r ≫= lookup (Z.to_nat c)).
Lemma dims_row b r : dims b -> 0 <= r < 100 -> exists x, b !! Z.to_nat r = Some x /\ zlen x = 160.
Proof.
  intros [Hl Hf] Hr. destruct (lookup_lt_is_Some_2 b (Z.to_nat r)) as [x Hx]; [lia|]. exists x. split; [done|].
  eapply Forall_lookup_1 in Hf; [|exact Hx]. unfold zlen. by rewrite Hf.
Qed.
Lemma index2_ok b r c : dims b -> 0 <= r < 100 -> 0 <= c < 160 -> index2 b r c = Ok (cell b r c).
Proof.
  intros Hd Hr Hc. destruct (dims_row b r Hd Hr) as (x & Hx & Hl). unfold index2, cell. rewrite (index_ok _ _ x) by (done || lia). rsimpl.
  rewrite Hx. cbn [mbind option_bind]. destruct (lookup_lt_is_Some_2 x (Z.to_nat c)) as [v Hv]; [unfold zlen in Hl; lia|].
  rewrite Hv. by apply index_ok; [lia|].
Qed.
Lemma update2_ok b r c v : dims b -> 0 <= r < 100 -> 0 <= c < 160 -> exists b', update2 b r c v = Ok b' /\ dims b' /\
  forall r' c', 0 <= r' -> 0 <= c' -> cell b' r' c' = if (r' =? r) && (c' =? c) then v else cell b r' c'.
Proof.
  intros Hd Hr Hc. destruct (dims_row b r Hd Hr) as (x & Hx & Hl). unfold update2. rewrite (index_ok _ _ x) by (done || lia). rsimpl.
  rewrite update_ok by lia. rsimpl. destruct Hd as [Hb Hf]. rewrite update_ok by (unfold zlen; lia). eexists. split; [done|]. split.
  - split; [by rewrite length_insert|]. apply Forall_insert; [done|]. rewrite length_insert. unfold zlen in Hl. lia.
  - intros r' c' Hr' Hc'. unfold cell. destruct (Z.eqb_spec r' r) as [->|Hne]; cbn [andb].
    + rewrite list_lookup_insert_eq by lia. rewrite Hx. cbn [mbind option_bind]. destruct (Z.eqb_spec c' c) as [->|Hne].
      * rewrite list_lookup_insert_eq; [done|]. unfold zlen in Hl. lia.
      * by rewrite list_lookup_insert_ne by lia.
    + by rewrite list_lookup_insert_ne by lia.
Qed.

Definition frame (w : DebugWriter) : Z * Z * Z * Z * Z :=
  (frame_buffer_width w, frame_buffer_height w, frame_buffer_addr w, terminal_width w, terminal_height w).
Lemma frame_eq w w0 : frame w = frame w0 -> geometry w0 -> geometry w /\ pixel_at w = pixel_at w0 /\ visible w = visible w0 /\
  terminal_width w = terminal_width w0 /\ terminal_height w = terminal_height w0.
Proof. unfold frame, geometry, pixel_at, visible. intros [= -> -> -> -> ->]. done. Qed.

(** ** The screen *)
Section screen.
Context `{BB : Build} (w0 : DebugWriter) (Hgeo : geometry w0) (Hfit : terminal_width w0 <= 160 /\ terminal_height w0 <= 100).
Abbreviation vis := (visible w0).
Abbreviation P := (pixel_at w0).
Abbreviation HT := (terminal_height w0).
Abbreviation W := (terminal_width w0).
Implicit Types s : Term.

Record ready s : Prop := {
  r_frame : frame (writer s) = frame w0;
  r_current : vis (current_row (writer s)) (current_col (writer s));
  r_cursor : vis (cursor_row (writer s)) (cursor_col (writer s));
  r_colors : cur_fg_color (writer s) = WHITE /\ cur_bg_color (writer s) = 0;
  r_color : dims (color_buffer (writer s));
  r_text : dims (text_buffer (writer s));
  r_default : forall r c, vis r c -> cell (color_buffer (writer s)) r c = DEFAULT;
  r_bytes : forall r c, vis r c -> 0 <= cell (text_buffer (writer s)) r c < 256;
}.
(** The pixels of a cell are those of its character, or those of the cursor. *)
Definition shows s (r c : Z) : Prop :=
  forall i j, in_cell i j -> vram s (P r c i j) = if glyph (cell (text_buffer (writer s)) r c) i j then WHITE else 0.
Definition shows_cursor s (r c : Z) : Prop := forall i j, in_cell i j -> vram s (P r c i j) = WHITE.
Definition at_cursor s (r c : Z) : Prop := r = cursor_row (writer s) /\ c = cursor_col (writer s).
Definition coherent s : Prop := forall r c, vis r c -> ~ at_cursor s r c -> shows s r c.
(** No word outside the cells has changed. *)
Definition within s s' : Prop := forall a, (forall r c i j, vis r c -> in_cell i j -> a <> P r c i j) -> vram s' a = vram s a.
Lemma within_refl s : within s s.
Proof. done. Qed.
Lemma within_trans s1 s2 s3 : within s1 s2 -> within s2 s3 -> within s1 s3.
Proof. intros H1 H2 a Ha. rewrite H2, H1; done. Qed.
Lemma vis_bounds r c : vis r c -> 0 <= r < 100 /\ 0 <= c < 160.
Proof. intros [Hr Hc]. lia. Qed.

Lemma paint_ok row col colour c s : frame (writer s) = frame w0 -> vis row col -> (forall i j, in_cell i j -> colour (writer s) i j = Ok (c i j)) ->
  exists s', fill_cell row col colour s = (Ok (), s') /\ writer s' = writer s /\ (forall i j, in_cell i j -> vram s' (P row col i j) = c i j) /\
    (forall r c' i j, vis r c' -> in_cell i j -> ~ (r = row /\ c' = col) -> vram s' (P r c' i j) = vram s (P r c' i j)) /\ within s s'.
Proof.
  intros Hf Hv Hc. destruct (frame_eq _ _ Hf Hgeo) as (Hg & HP & HV & _). destruct (fill_cell_ok row col colour c s Hg) as (s' & H1 & H2 & H3 & H4); [by rewrite HV|done|].
  rewrite HP in H3, H4. exists s'. split; [exact H1|]. split; [done|]. split; [done|]. split.
  - intros r c' i j Hv' Hij Hne. apply H4. intros i' j' Hij' E. apply Hne. apply pixel_inj in E as (-> & -> & _); done.
  - intros a Ha. apply H4. intros i j Hij. by apply Ha.
Qed.
(** Drawing a character in its place makes its cell show it. *)
Lemma render_ok ch row col s : frame (writer s) = frame w0 -> vis row col -> 0 <= ch < 256 -> cur_fg_color (writer s) = WHITE -> cur_bg_color (writer s) = 0 ->
  exists s', debug_render_char ch row col s = (Ok (), s') /\ writer s' = writer s /\
    (forall i j, in_cell i j -> vram s' (P row col i j) = if glyph ch i j then WHITE else 0) /\
    (forall r c' i j, vis r c' -> in_cell i j -> ~ (r = row /\ c' = col) -> vram s' (P r c' i j) = vram s (P r c' i j)) /\ within s s'.
Proof.
  intros Hf Hv Hch Hfg Hbg. apply (paint_ok row col _ (fun i j => if glyph ch i j then WHITE else 0)); [done..|].
  intros i j Hij. rewrite glyph_color_ok by done. by rewrite Hfg, Hbg.
Qed.
(** A state with the same buffers and pixels shows the same. *)
Lemma shows_same s s' r c : text_buffer (writer s') = text_buffer (writer s) -> (forall i j, in_cell i j -> vram s' (P r c i j) = vram s (P r c i j)) ->
  shows s r c -> shows s' r c.
Proof. intros Ht Hv Hs i j Hij. rewrite Hv, Ht by done. by apply Hs. Qed.

Lemma set_colors_id b f w : cur_bg_color w = b -> cur_fg_color w = f -> set_colors b f w = w.
Proof. destruct w. cbn. by intros -> ->. Qed.
Lemma ready_same s s' : ready s -> writer s' = writer s -> ready s'.
Proof. intros [] E. constructor; by rewrite E. Qed.
Lemma shows_vram s s' r c : writer s' = writer s -> (forall i j, in_cell i j -> vram s' (P r c i j) = vram s (P r c i j)) -> shows s r c -> shows s' r c.
Proof. intros Hw. apply shows_same. by rewrite Hw. Qed.
Lemma update_cursor_ok remove s : ready s -> coherent s ->
  exists s', update_debug_cursor remove s = (Ok (), s') /\ within s s' /\
    writer s' = set_cursor (current_row (writer s)) (current_col (writer s)) (is_cursor_on (writer s)) (cursor_blink_interval (writer s)) (writer s) /\
    ready s' /\ coherent s' /\
    (if remove then shows s' else shows_cursor s') (current_row (writer s)) (current_col (writer s)).
Proof.
  intros Hr Hco. unfold update_debug_cursor, self. mstep. unfold id. set (w := writer s). set (r0 := cursor_row w). set (c0 := cursor_col w).
  pose proof (r_cursor s Hr) as Hcur. fold w r0 c0 in Hcur. destruct (vis_bounds r0 c0 Hcur) as [B1 B2]. destruct (r_colors s Hr) as [Hfg Hbg].
  destruct (paint_ok r0 c0 (fun w _ _ => Ok (cur_bg_color w)) (fun _ _ => 0) s) as (s1 & H1 & W1 & _ & O1 & I1); [apply Hr|done|by rewrite Hbg|].
  unfold remove_debug_cursor. mrun H1. rewrite index2_ok by (done || apply Hr). mstep.
  destruct (render_ok (cell (text_buffer w) r0 c0) r0 c0 s1) as (s2 & H2 & W2 & C2 & O2 & I2);
    [rewrite W1; apply Hr|done|by apply (r_bytes s Hr)|by rewrite W1..|]. mrun H2.
  assert (forall r c, vis r c -> shows s2 r c) as Hall.
  { intros r c Hv. destruct (decide (r = r0 /\ c = c0)) as [[-> ->]|Hne].
    - intros i j Hij. rewrite C2 by done. by rewrite W2, W1.
    - apply (shows_vram s); [by rewrite W2|intros i j Hij; by rewrite O2, O1|]. apply Hco; done. }
  assert (exists s3, (if negb remove then draw_debug_cursor (current_row w) (current_col w) else mret ()) s2 = (Ok (), s3) /\ writer s3 = w /\ within s s3 /\
    (forall r c, vis r c -> ~ (r = current_row w /\ c = current_col w) -> shows s3 r c) /\ (if remove then shows s3 else shows_cursor s3) (current_row w) (current_col w))
    as (s3 & H3 & W3 & I3 & S3 & D3).
  { destruct remove; cbn [negb].
    - exists s2. split; [done|]. split; [by rewrite W2|]. split; [by eapply within_trans|]. split; [auto|]. apply Hall, (r_current s Hr).
    - destruct (paint_ok (current_row w) (current_col w) (fun _ _ _ => Ok 0xFFFFFF) (fun _ _ => WHITE) s2) as (s3 & H3 & W3 & C3 & O3 & I3);
        [rewrite W2, W1; apply Hr|apply (r_current s Hr)|done|].
      exists s3. split; [exact H3|]. split; [by rewrite W3, W2|]. split; [by repeat (eapply within_trans; [eassumption|])|]. split; [|exact C3].
      intros r c Hv Hne. apply (shows_vram s2); [done|intros i j Hij; by apply O3|auto]. }
  mrun H3. eexists. split; [done|]. cbn [writer]. rewrite W3. split; [exact I3|]. split; [done|]. split.
  { destruct Hr. by constructor. }
  split; [|destruct remove; [|done]; apply (shows_same s3); [cbn; by rewrite W3|done|exact D3]].
  intros r c Hv Hne. apply (shows_same s3); [cbn; by rewrite W3|done|by apply S3].
Qed.

Lemma render_cell_ok s row col : ready s -> vis row col ->
  exists s', render_cell row col s = (Ok (), s') /\ writer s' = writer s /\
    (forall i j, in_cell i j -> vram s' (P row col i j) = if glyph (cell (text_buffer (writer s)) row col) i j then WHITE else 0) /\
    (forall r c' i j, vis r c' -> in_cell i j -> ~ (r = row /\ c' = col) -> vram s' (P r c' i j) = vram s (P r c' i j)) /\ within s s'.
Proof.
  intros Hr Hv. destruct (vis_bounds row col Hv) as [B1 B2]. destruct (r_colors s Hr) as [Hfg Hbg]. unfold render_cell, self. mstep. unfold id.
  rewrite (index2_ok (color_buffer (writer s))) by (done || apply Hr). mstep. rewrite (r_default s Hr) by done.
  assert (assign (set_colors (wrap 32 DEFAULT) (wrap 32 (Z.shiftr DEFAULT 32))) s = (Ok (), s)) as Ha.
  { unfold assign, modify. rewrite set_colors_id by done. by destruct s. }
  mrun Ha. rewrite index2_ok by (done || apply Hr). mstep. apply render_ok; [apply Hr|done|by apply (r_bytes s Hr)|done..].
Qed.
Lemma render_buffer_ok s : ready s -> exists s', debug_render_buffer s = (Ok (), s') /\ within s s' /\
  writer s' = set_cursor (HT - 1) 0 (is_cursor_on (writer s)) (cursor_blink_interval (writer s)) (set_current (HT - 1) 0 (writer s)) /\
  ready s' /\ coherent s' /\ shows_cursor s' (HT - 1) 0.
Proof.
  intros Hr. destruct (frame_eq _ _ (r_frame s Hr) Hgeo) as (_ & _ & _ & EW & EH). destruct (r_colors s Hr) as [Hfg Hbg].
  unfold debug_render_buffer, self. do 2 mstep. rewrite EW, EH. pose proof Hgeo as (GW & GH & _).
  set (J := fun row col s' => writer s' = writer s /\ within s s' /\ forall r c, vis r c -> before row col r c -> shows s' r c).
  destruct (for_cells (fun row col => render_cell row col) J 0 HT W s) as (s1 & H1 & W1 & I1 & S1); [lia..| | | |].
  - intros row col s1 Hrow Hcol (W1 & I1 & S1). assert (vis row col) as Hv by (split; lia).
    destruct (render_cell_ok s1 row col (ready_same s s1 Hr W1) Hv) as (s2 & H2 & W2 & C2 & O2 & I2). rewrite W1 in C2.
    exists s2. split; [exact H2|]. split; [by rewrite W2|]. split; [by eapply within_trans|]. intros r c Hv' Hb.
    destruct (decide (r = row /\ c = col)) as [[-> ->]|Hne].
    + intros i j Hij. rewrite C2 by done. by rewrite W2, W1.
    + apply (shows_vram s1); [done|intros i j Hij; by apply O2|]. apply S1; [done|]. unfold before in *. lia.
  - intros row s1 Hrow (W1 & I1 & S1). split; [done|]. split; [done|]. intros r c Hv Hb. apply S1; [done|]. destruct Hv. unfold before in *. lia.
  - split; [done|]. split; [done|]. intros r c [Hv1 Hv2] [?|?]; lia.
  - mrun H1. rewrite usub_ok by lia. mstep.
    set (s2 := {| writer := set_current (HT - 1) 0 (writer s1); vram := vram s1 |}).
    assert (assign (set_current (HT - 1) 0) s1 = (Ok (), s2)) as H2 by done. mrun H2.
    assert (ready s2) as Hr2. { destruct Hr. constructor; cbn; rewrite ?W1; try done. split; lia. }
    assert (coherent s2) as Hc2. { intros r c Hv _. apply (shows_same s1); [done|done|]. apply S1; [done|]. left. destruct Hv. lia. }
    destruct (update_cursor_ok false s2 Hr2 Hc2) as (s3 & H3 & I3 & W3 & R3 & C3 & D3). exists s3. split; [exact H3|].
    split; [by eapply within_trans; [exact I1|exact I3]|]. split; [|done]. rewrite W3. unfold s2. cbn [writer]. by rewrite W1.
Qed.

(** ** Changing the text *)
(** The buffers hold [tx] and [cl], and nothing else has changed. *)
Definition edited s (tx cl : Z -> Z -> Z) s' : Prop :=
  vram s' = vram s /\ exists cb tb, writer s' = set_buffers cb tb (writer s) /\ dims cb /\ dims tb /\
    forall r c, 0 <= r -> 0 <= c -> cell tb r c = tx r c /\ cell cb r c = cl r c.
Lemma edited_same s : dims (color_buffer (writer s)) -> dims (text_buffer (writer s)) ->
  edited s (cell (text_buffer (writer s))) (cell (color_buffer (writer s))) s.
Proof. intros Hc Ht. split; [done|]. exists (color_buffer (writer s)), (text_buffer (writer s)). split; [by destruct (writer s)|done]. Qed.
Lemma edited_refl s : ready s -> edited s (cell (text_buffer (writer s))) (cell (color_buffer (writer s))) s.
Proof. intros Hr. apply edited_same; apply Hr. Qed.
Lemma edited_ext s tx cl tx' cl' s' : (forall r c, 0 <= r -> 0 <= c -> tx r c = tx' r c /\ cl r c = cl' r c) -> edited s tx cl s' -> edited s tx' cl' s'.
Proof.
  intros He (Hv & cb & tb & Hw & Hc & Ht & Hx). split; [done|]. exists cb, tb. split_and!; try done. intros r c Hr Hc'.
  destruct (He r c Hr Hc') as [<- <-]. auto.
Qed.
Lemma edited_ready s tx cl s' : ready s -> edited s tx cl s' -> (forall r c, vis r c -> 0 <= tx r c < 256 /\ cl r c = DEFAULT) -> ready s'.
Proof.
  intros Hr (Hv & cb & tb & Hw & Hc & Ht & Hx) Hb. destruct Hr. constructor; rewrite Hw; cbn [set_buffers color_buffer text_buffer]; try done;
    intros r c Hrc; destruct (Hx r c) as [E1 E2]; try (destruct Hrc; lia); destruct (Hb r c Hrc); congruence.
Qed.
Definition upd2 (f : Z -> Z -> Z) (row col v : Z) : Z -> Z -> Z := fun r c => if (r =? row) && (c =? col) then v else f r c.
Lemma set_cell_ok s tx cl s1 row col color ch : edited s tx cl s1 -> vis row col ->
  exists s2, set_cell row col color ch s1 = (Ok (), s2) /\ edited s (upd2 tx row col ch) (upd2 cl row col color) s2.
Proof.
  intros (Hv & cb & tb & Hw & Hc & Ht & Hx) Hrc. destruct (vis_bounds row col Hrc) as [B1 B2]. unfold set_cell, self. mstep. unfold id. rewrite Hw.
  cbn [set_buffers color_buffer text_buffer].
  destruct (update2_ok tb row col ch Ht B1 B2) as (tb' & -> & Ht' & Xt). mstep. destruct (update2_ok cb row col color Hc B1 B2) as (cb' & -> & Hc' & Xc). mstep.
  eexists. split; [done|]. split; [done|]. exists cb', tb'. cbn [writer]. split; [by rewrite Hw|]. split; [done|]. split; [done|].
  intros r c Hr' Hc''. rewrite Xt, Xc by done. unfold upd2. destruct (Hx r c) as [-> ->]; done.
Qed.
Lemma edited_cells s tx cl s1 row col : edited s tx cl s1 -> vis row col ->
  index2 (text_buffer (writer s1)) row col = Ok (tx row col) /\ index2 (color_buffer (writer s1)) row col = Ok (cl row col).
Proof.
  intros (Hv & cb & tb & Hw & Hc & Ht & Hx) Hrc. destruct (vis_bounds row col Hrc) as [B1 B2]. rewrite Hw. cbn [set_buffers color_buffer text_buffer].
  rewrite !index2_ok by done. destruct (Hx row col) as [-> ->]; [lia..|done].
Qed.
(** The cells before [(i, j)] have moved up. *)
Definition up (f : Z -> Z -> Z) (i j r c : Z) : Z := if (c <? W) && ((r + 1 <? i) || (r + 1 =? i) && (c <? j)) then f (r + 1) c else f r c.
Lemma up_eq f g i j i' j' r c : (c < W -> before i j (r + 1) c <-> before i' j' (r + 1) c) -> up f i j r c = up f i' j' r c /\ up g i j r c = up g i' j' r c.
Proof.
  unfold up, before. intros He. destruct (Z.ltb_spec c W); cbn [andb]; [|done].
  replace ((r + 1 <? i') || (r + 1 =? i') && (c <? j')) with ((r + 1 <? i) || (r + 1 =? i) && (c <? j)) by lia. done.
Qed.
Lemma move_rows_ok s : ready s -> exists s', for_each (seqZ 1 (HT - 1)) () (fun i _ => for_each (seqZ 0 W) () (fun j _ => move_cell i j)) s = (Ok (), s') /\
  edited s (up (cell (text_buffer (writer s))) HT 0) (up (cell (color_buffer (writer s))) HT 0) s'.
Proof.
  intros Hr. pose proof Hgeo as (GW & GH & _). set (tx := cell (text_buffer (writer s))). set (cl := cell (color_buffer (writer s))).
  destruct (for_cells move_cell (fun i j => edited s (up tx i j) (up cl i j)) 1 (HT - 1) W s) as (s1 & H1 & E1); [lia..| | | |].
  - intros i j s1 Hi Hj HE. assert (vis i j) as Hv by (split; lia). destruct (edited_cells _ _ _ _ i j HE Hv) as [X1 X2].
    unfold move_cell, self. mstep. unfold id. rewrite usub_ok by lia. mstep. rewrite X2. mstep. rewrite X1. mstep.
    destruct (set_cell_ok _ _ _ _ (i - 1) j (up cl i j i j) (up tx i j i j) HE) as (s2 & H2 & E2); [split; lia|]. exists s2. split; [exact H2|].
    eapply edited_ext; [|exact E2]. intros r c Hr' Hc'. unfold upd2. destruct ((r =? i - 1) && (c =? j)) eqn:E; [|apply up_eq; unfold before; lia].
    boom. subst. unfold up. replace (i - 1 + 1) with i by lia. bfalse ((j <? W) && ((i + 1 <? i) || (i + 1 =? i) && (j <? j))).
    by btrue ((j <? W) && ((i <? i) || (i =? i) && (j <? j + 1))).
  - intros i s1 Hi HE. eapply edited_ext; [|exact HE]. intros r c Hr' Hc'. by apply up_eq; unfold before; lia.
  - eapply edited_ext; [|by apply edited_refl]. intros r c Hr' Hc'. unfold up. by bfalse ((c <? W) && ((r + 1 <? 1) || (r + 1 =? 1) && (c <? 0))).
  - exists s1. split; [exact H1|]. by replace (1 + (HT - 1)) with HT in E1 by lia.
Qed.
(** The rows move up by one and the last one is cleared. *)
Lemma moveup_ok s : ready s -> exists s', debug_terminal_moveup s = (Ok (), s') /\ within s s' /\ ready s' /\ coherent s' /\
  current_row (writer s') = HT - 1 /\ current_col (writer s') = 0 /\
  forall r c, vis r c -> cell (text_buffer (writer s')) r c = if r <? HT - 1 then cell (text_buffer (writer s)) (r + 1) c else 0.
Proof.
  intros Hr. destruct (frame_eq _ _ (r_frame s Hr) Hgeo) as (_ & _ & _ & EW & EH). pose proof Hgeo as (GW & GH & _).
  unfold debug_terminal_moveup, self. do 2 mstep. rewrite EW, EH. set (tx := cell (text_buffer (writer s))). set (cl := cell (color_buffer (writer s))).
  destruct (move_rows_ok s Hr) as (s1 & H1 & E1). mrun H1. fold tx cl in E1.
  set (tail := fun (f : Z -> Z -> Z) v j r c => if (r =? HT - 1) && (c <? j) then v else up f HT 0 r c).
  destruct (for_seq (fun i _ => n ← lift (usub 64 HT 1); set_cell n i 0xFFFFFF00000000 0) (fun j => edited s (tail tx 0 j) (tail cl DEFAULT j)) 0 W s1)
    as (s2 & H2 & E2); [lia| | |].
  - intros j s2 Hj HE. rewrite usub_ok by lia. mstep. destruct (set_cell_ok _ _ _ _ (HT - 1) j DEFAULT 0 HE) as (s3 & H3 & E3); [split; lia|].
    exists s3. split; [exact H3|]. eapply edited_ext; [|exact E3]. intros r c Hr' Hc'. unfold upd2, tail.
    replace (c <? j + 1) with ((c =? j) || (c <? j)) by lia. by destruct (r =? HT - 1), (c =? j), (c <? j).
  - eapply edited_ext; [|exact E1]. intros r c Hr' Hc'. unfold tail. by bfalse ((r =? HT - 1) && (c <? 0)).
  - mrun H2. assert (forall f v r c, vis r c -> tail f v (0 + W) r c = if r <? HT - 1 then f (r + 1) c else v) as Htail.
    { intros f v r c [Hr' Hc']. unfold tail, up. destruct (Z.ltb_spec r (HT - 1)).
      - bfalse ((r =? HT - 1) && (c <? 0 + W)). by btrue ((c <? W) && ((r + 1 <? HT) || (r + 1 =? HT) && (c <? 0))).
      - by btrue ((r =? HT - 1) && (c <? 0 + W)). }
    destruct (render_buffer_ok s2) as (s3 & H3 & I3 & W3 & R3 & C3 & _).
    { eapply edited_ready; [exact Hr|exact E2|]. intros r c Hv. rewrite !Htail by done. destruct (Z.ltb_spec r (HT - 1)); [|done].
      assert (vis (r + 1) c) by (destruct Hv; split; lia). split; [by apply (r_bytes s Hr)|by apply (r_default s Hr)]. }
    exists s3. split; [exact H3|]. destruct E2 as (V2 & cb & tb & W2 & _ & _ & X2).
    split; [intros a Ha; rewrite I3 by done; by rewrite V2|]. split; [done|]. split; [done|]. rewrite W3, W2. cbn.
    split; [done|]. split; [done|]. intros r c Hv. destruct (X2 r c) as [-> _]; [destruct Hv; lia..|]. by apply Htail.
Qed.

(** ** Lines *)
(** Text wrapped at the width of the terminal: the full lines and the last one *)
Definition Lines : Type := list (list Z) * list Z.
Definition type_byte (d : Lines) (b : Z) : Lines :=
  let '(pre, last) := d in
  if b =? 10 then (pre ++ [last], [])
  else if zlen last + 1 =? W then (pre ++ [last ++ [b]], []) else (pre, last ++ [b]).
(** Bytes that are no ASCII characters are all drawn the same. *)
Definition printed (b : Z) : Z := if b <=? 0x7f then b else 0xFE.
(** The character in a cell if the last lines are on the screen *)
Definition shown (d : Lines) (r c : Z) : Z :=
  let '(pre, last) := d in
  default 0 ((pre ++ [last]) !! Z.to_nat (r + Z.max 0 (zlen pre - (HT - 1))) ≫= lookup (Z.to_nat c)).
Definition displays s (d : Lines) : Prop :=
  current_col (writer s) = zlen (snd d) /\ current_row (writer s) = Z.min (zlen (fst d)) (HT - 1) /\
  forall r c, vis r c -> cell (text_buffer (writer s)) r c = shown d r c.
Lemma shown_put pre last b r c : vis r c -> shown (pre, last ++ [b]) r c =
  if (r =? Z.min (zlen pre) (HT - 1)) && (c =? zlen last) then b else shown (pre, last) r c.
Proof.
  intros [Hr Hc]. unfold shown. pose proof (zlen_nonneg pre). set (k := Z.to_nat (r + _)). destruct (decide (k = length pre)) as [Hk|Hk].
  - assert (r = Z.min (zlen pre) (HT - 1)) as Er by (unfold k, zlen in *; lia). btrue (r =? Z.min (zlen pre) (HT - 1)). rewrite !lookup_app_r by lia. rewrite Hk, Nat.sub_diag. cbn [lookup list_lookup mbind option_bind andb].
    destruct (Z.eqb_spec c (zlen last)) as [->|Hne]; [by rewrite to_nat_zlen, list_lookup_middle|].
    destruct (decide (c < zlen last)); unfold zlen in *; [by rewrite lookup_app_l by lia|]. by rewrite !lookup_ge_None_2 by (rewrite ?length_app; cbn; lia).
  - assert (r <> Z.min (zlen pre) (HT - 1)) as Er by (unfold k, zlen in *; lia). bfalse (r =? Z.min (zlen pre) (HT - 1)). cbn [andb]. destruct (decide (k < length pre)%nat).
    + by rewrite !lookup_app_l by done.
    + by rewrite !lookup_ge_None_2 by (rewrite length_app; cbn; lia).
Qed.
Lemma shown_newline pre last r c : vis r c -> shown (pre ++ [last], []) r c =
  if zlen pre <? HT - 1 then shown (pre, last) r c else if r <? HT - 1 then shown (pre, last) (r + 1) c else 0.
Proof.
  intros [Hr Hc]. unfold shown. rewrite zlen_app. change (zlen [last]) with 1. pose proof (zlen_nonneg pre).
  assert (forall k, ((pre ++ [last]) ++ [[]]) !! k ≫= lookup (Z.to_nat c) = (pre ++ [last]) !! k ≫= lookup (Z.to_nat c)) as He.
  { intros k. destruct (decide (k < length (pre ++ [last]))%nat) as [Hk|Hk]; [by rewrite lookup_app_l by done|].
    rewrite lookup_app_r by lia. rewrite (lookup_ge_None_2 (pre ++ [last])) by lia. by destruct (k - _)%nat as [|[]]. }
  rewrite He. destruct (Z.ltb_spec (zlen pre) (HT - 1)).
  - replace (Z.max 0 (zlen pre + 1 - (HT - 1))) with 0 by lia. by replace (Z.max 0 (zlen pre - (HT - 1))) with 0 by lia.
  - destruct (Z.ltb_spec r (HT - 1)).
    + do 4 f_equal. lia.
    + rewrite lookup_ge_None_2; [done|]. rewrite length_app. cbn. unfold zlen in *. lia.
Qed.
Lemma next_row_ok s pre last : ready s -> coherent s -> current_row (writer s) = Z.min (zlen pre) (HT - 1) ->
  (forall r c, vis r c -> cell (text_buffer (writer s)) r c = shown (pre, last) r c) ->
  exists s', next_row s = (Ok (), s') /\ within s s' /\ ready s' /\ coherent s' /\ displays s' (pre ++ [last], []).
Proof.
  intros Hr Hco Hrow Ht. destruct (frame_eq _ _ (r_frame s Hr) Hgeo) as (_ & _ & _ & EW & EH). pose proof Hgeo as (GW & GH & _).
  pose proof (r_current s Hr) as [Hv1 Hv2]. pose proof (zlen_nonneg pre). unfold next_row, self. mstep. unfold id. rewrite uadd_ok by lia. mstep. rewrite EH.
  destruct (Z.eqb_spec (current_row (writer s) + 1) HT) as [He|He].
  - rewrite usub_ok by lia. mstep. set (s1 := {| writer := set_current (HT - 1) 0 (writer s); vram := vram s |}).
    assert (assign (set_current (HT - 1) 0) s = (Ok (), s1)) as H1 by done. mrun H1.
    assert (ready s1) as Hr1. { destruct Hr. constructor; cbn; try done. split; lia. }
    destruct (moveup_ok s1 Hr1) as (s2 & H2 & I2 & R2 & C2 & X1 & X2 & X3). exists s2. split; [exact H2|]. split; [exact I2|]. split; [done|]. split; [done|].
    split; [exact X2|]. cbn [fst snd]. rewrite X1, (zlen_app pre [last]). change (zlen [last]) with 1. split; [lia|].
    intros r c Hv. rewrite X3 by done. rewrite shown_newline by done. bfalse (zlen pre <? HT - 1). destruct (Z.ltb_spec r (HT - 1)); [|done].
    apply Ht. destruct Hv. split; lia.
  - eexists. split; [done|]. split; [done|]. split; [destruct Hr; constructor; cbn; try done; split; lia|]. split.
    + intros r c Hv Hne. apply (shows_same s); [done..|]. by apply Hco.
    + unfold displays. cbn [fst snd writer set_current current_row current_col text_buffer]. rewrite (zlen_app pre [last]). change (zlen [last]) with 1.
      split; [done|]. split; [lia|]. intros r c Hv. rewrite shown_newline by done. btrue (zlen pre <? HT - 1). by apply Ht.
Qed.
Lemma putbyte_ok s d b : ready s -> coherent s -> displays s d -> 0 <= b < 256 -> b <> 10 ->
  exists s', debug_terminal_putbyte b s = (Ok (), s') /\ within s s' /\ ready s' /\ coherent s' /\ displays s' (type_byte d b).
Proof.
  intros Hr Hco (Hcol & Hrow & Ht) Hb Hnl. destruct d as [pre last]. cbn [fst snd] in *. pose proof (r_current s Hr) as Hv. destruct (r_colors s Hr) as [Hfg Hbg].
  unfold debug_terminal_putbyte, self. mstep. unfold id.
  destruct (render_ok b (current_row (writer s)) (current_col (writer s)) s) as (s1 & H1 & W1 & P1 & O1 & I1); [apply Hr|done..|].
  unfold debug_render_char in H1. mrun H1. rewrite Hfg, Hbg. change (Z.lor (wrap 64 (Z.shiftl WHITE 32)) 0) with DEFAULT.
  assert (ready s1) as Hr1 by (by apply (ready_same s)).
  destruct (set_cell_ok s1 _ _ s1 (current_row (writer s)) (current_col (writer s)) DEFAULT b (edited_refl s1 Hr1) Hv) as (s2 & H2 & E2). mrun H2.
  assert (ready s2) as Hr2.
  { eapply edited_ready; [exact Hr1|exact E2|]. intros r c Hv'. unfold upd2. destruct (_ && _); [done|]. split; [by apply (r_bytes s1 Hr1)|by apply (r_default s1 Hr1)]. }
  destruct E2 as (V2 & cb & tb & W2 & _ & _ & X2). rewrite W1 in W2, X2.
  assert (forall r c, vis r c -> cell (text_buffer (writer s2)) r c = shown (pre, last ++ [b]) r c) as Ht2.
  { intros r c Hv'. rewrite W2. cbn [set_buffers text_buffer]. destruct (X2 r c) as [-> _]; [destruct Hv'; lia..|]. rewrite shown_put by done. unfold upd2. rewrite Hrow, Hcol.
    destruct (_ && _); [done|]. by apply Ht. }
  assert (coherent s2) as Hco2.
  { intros r c Hv' Hne i j Hij. rewrite Ht2, shown_put by done. rewrite V2. rewrite <- Hrow, <- Hcol. destruct ((r =? _) && (c =? _)) eqn:E.
    - boom. subst. by apply P1.
    - rewrite O1 by (done || lia). rewrite <- Ht by done. apply Hco; [done| |done]. unfold at_cursor in *. by rewrite W2 in Hne. }
  assert (within s s2) as I2. { intros a Ha. rewrite V2. by apply I1. }
  destruct (frame_eq _ _ (r_frame s Hr) Hgeo) as (_ & _ & _ & EW & EH). pose proof Hgeo as (GW & GH & _). destruct Hv as [Hv1 Hv2].
  unfold debug_terminal_advance, self. mstep. unfold id. assert (current_col (writer s2) = zlen last) as Ec by (by rewrite W2).
  assert (terminal_width (writer s2) = W) as -> by (by rewrite W2). rewrite Ec, uadd_ok by lia. mstep. unfold type_byte. bfalse (b =? 10).
  destruct (zlen last + 1 =? W) eqn:E; boom.
  - destruct (next_row_ok s2 pre (last ++ [b])) as (s3 & H3 & I3 & R3 & C3 & D3); [done|done|by rewrite W2|done|]. exists s3. split; [exact H3|].
    split; [by eapply within_trans|]. done.
  - eexists. split; [done|]. split; [done|]. split; [destruct Hr2; constructor; cbn; try done; rewrite W2; split; cbn; lia|]. split.
    + intros r c Hv' Hne. apply (shows_same s2); [done..|]. by apply Hco2.
    + unfold displays. cbn [fst snd writer set_current current_row current_col text_buffer]. rewrite zlen_app. change (zlen [b]) with 1.
      split; [lia|]. split; [by rewrite W2|done].
Qed.

(** ** Output *)
Lemma write_string_ok s d text : ready s -> coherent s -> displays s d -> Forall (fun b => 0 <= b < 256) text ->
  exists s', write_string text s = (Ok (), s') /\ within s s' /\ ready s' /\ coherent s' /\ displays s' (foldl type_byte d (printed <$> text)) /\
    shows_cursor s' (current_row (writer s')) (current_col (writer s')) /\ at_cursor s' (current_row (writer s')) (current_col (writer s')).
Proof.
  intros Hr Hco Hd Ht. unfold write_string.
  assert (exists s1, for_each text () (fun byte _ => if byte =? 10 then debug_terminal_newline else if byte <=? 0x7f then debug_terminal_putbyte byte
    else debug_terminal_putbyte 0xFE) s = (Ok (), s1) /\ within s s1 /\ ready s1 /\ coherent s1 /\ displays s1 (foldl type_byte d (printed <$> text))) as (s1 & H1 & I1 & R1 & C1 & D1).
  { revert s d Hr Hco Hd. induction Ht as [|b text Hb _ IH]; intros s d Hr Hco Hd; [by exists s|]. cbn [for_each fmap list_fmap foldl].
    assert (exists s1, (if b =? 10 then debug_terminal_newline else if b <=? 0x7f then debug_terminal_putbyte b else debug_terminal_putbyte 0xFE) s = (Ok (), s1) /\
      within s s1 /\ ready s1 /\ coherent s1 /\ displays s1 (type_byte d (printed b))) as (s1 & H1 & I1 & R1 & C1 & D1).
    { unfold printed. destruct (Z.eqb_spec b 10) as [->|Hnl].
      - destruct d as [pre last]. destruct Hd as (_ & Hrow & Htx). by apply next_row_ok.
      - destruct (b <=? 0x7f); by apply putbyte_ok. }
    mrun H1. destruct (IH s1 _ R1 C1 D1) as (s2 & H2 & I2 & Hs2). exists s2. split; [exact H2|]. split; [by eapply within_trans|done]. }
  mrun H1. destruct (update_cursor_ok false s1 R1 C1) as (s2 & H2 & I2 & W2 & R2 & C2 & S2). exists s2. split; [exact H2|]. split; [by eapply within_trans|].
  split; [done|]. split; [done|]. unfold displays, at_cursor. rewrite W2. cbn. split; [exact D1|]. split; [exact S2|done].
Qed.
Lemma write_all_ok texts : forall s d, ready s -> coherent s -> displays s d -> Forall (Forall (fun b => 0 <= b < 256)) texts ->
  shows_cursor s (current_row (writer s)) (current_col (writer s)) -> at_cursor s (current_row (writer s)) (current_col (writer s)) ->
  exists s', for_each texts () (fun t _ => write_string t) s = (Ok (), s') /\ within s s' /\ ready s' /\ coherent s' /\
    displays s' (foldl type_byte d (printed <$> concat texts)) /\
    shows_cursor s' (current_row (writer s')) (current_col (writer s')) /\ at_cursor s' (current_row (writer s')) (current_col (writer s')).
Proof.
  induction texts as [|t texts IH]; intros s d Hr Hco Hd Ht Hs Ha; [by exists s|]. cbn [for_each concat]. apply Forall_cons in Ht as [Ht Hts].
  destruct (write_string_ok s d t Hr Hco Hd Ht) as (s1 & H1 & I1 & R1 & C1 & D1 & S1 & A1). mrun H1. rewrite fmap_app, foldl_app.
  destruct (IH s1 _ R1 C1 D1 Hts S1 A1) as (s2 & H2 & I2 & Hs2). exists s2. split; [exact H2|]. split; [by eapply within_trans|done].
Qed.

(** ** Start *)
Record blank s : Prop := {
  b_frame : frame (writer s) = frame w0;
  b_cursor : vis (cursor_row (writer s)) (cursor_col (writer s));
  b_colors : cur_fg_color (writer s) = WHITE /\ cur_bg_color (writer s) = 0;
  b_color : dims (color_buffer (writer s));
  b_text : dims (text_buffer (writer s));
}.
(** The cells before [(row, col)] are cleared. *)
Definition cleared s (row col : Z) s' : Prop :=
  within s s' /\ blank s' /\ forall r c, vis r c -> before row col r c ->
    cell (text_buffer (writer s')) r c = 0 /\ cell (color_buffer (writer s')) r c = DEFAULT /\ shows s' r c.
Lemma clear_cell_ok s row col s1 : vis row col -> cleared s row col s1 -> exists s2, clear_cell row col s1 = (Ok (), s2) /\ cleared s row (col + 1) s2.
Proof.
  intros Hv (I1 & B1 & X1). unfold clear_cell.
  destruct (set_cell_ok s1 _ _ s1 row col DEFAULT 0 (edited_same s1 (b_color s1 B1) (b_text s1 B1)) Hv) as (s2 & H2 & V2 & cb & tb & W2 & Dc & Dt & Y2). mrun H2.
  destruct B1 as [Bf Bk Bc _ _]. destruct Bc as [Bfg Bbg].
  destruct (render_ok 0 row col s2) as (s3 & H3 & W3 & C3 & O3 & I3); [by rewrite W2|done|done|by rewrite W2..|].
  exists s3. split; [exact H3|]. split; [intros a Ha; rewrite I3, V2 by done; by apply I1|]. rewrite W2 in W3.
  split; [constructor; rewrite W3; done|]. intros r c Hv' Hb. rewrite W3. cbn [set_buffers text_buffer color_buffer].
  assert (0 <= r /\ 0 <= c) as [Hr Hc] by (destruct Hv'; lia). destruct (Y2 r c Hr Hc) as [Ex Ec]. rewrite Ex, Ec. unfold upd2.
  destruct ((r =? row) && (c =? col)) eqn:E.
  - boom. subst. split; [done|]. split; [done|]. intros i j Hij. rewrite C3 by done. rewrite W3. cbn [set_buffers text_buffer]. rewrite Ex. unfold upd2.
    by btrue ((row =? row) && (col =? col)).
  - destruct (X1 r c Hv') as (Z1 & Z2 & Z3); [unfold before in *; lia|]. split; [done|]. split; [done|]. intros i j Hij.
    rewrite O3, V2 by (done || lia). rewrite Z3 by done. rewrite W3. cbn [set_buffers text_buffer]. rewrite Ex. unfold upd2. by rewrite E.
Qed.
Lemma clear_ok s : blank s -> exists s', clear_debug_terminal s = (Ok (), s') /\ within s s' /\ ready s' /\ coherent s' /\ displays s' ([], []) /\
  shows_cursor s' (current_row (writer s')) (current_col (writer s')) /\ at_cursor s' (current_row (writer s')) (current_col (writer s')).
Proof.
  intros Hb. destruct (frame_eq _ _ (b_frame s Hb) Hgeo) as (_ & _ & _ & EW & EH). pose proof Hgeo as (GW & GH & _).
  unfold clear_debug_terminal, self. do 2 mstep. rewrite EW, EH.
  destruct (for_cells clear_cell (cleared s) 0 HT W s) as (s1 & H1 & I1 & B1 & X1); [lia..| | | |].
  - intros row col s1 Hrow Hcol. apply clear_cell_ok. split; lia.
  - intros row s1 Hrow (I1 & B1 & X1). split; [done|]. split; [done|]. intros r c Hv Hbf. apply X1; [done|]. destruct Hv. unfold before in *. lia.
  - split; [done|]. split; [done|]. intros r c [Hv1 Hv2] [?|?]; lia.
  - mrun H1. set (s2 := {| writer := set_current 0 0 (writer s1); vram := vram s1 |}). assert (assign (set_current 0 0) s1 = (Ok (), s2)) as H2 by done. mrun H2.
    assert (forall r c, vis r c -> before (0 + HT) 0 r c) as Hall by (intros r c [Hv1 Hv2]; left; lia).
    assert (ready s2) as R2.
    { destruct B1. constructor; cbn; try done; [split; lia|intros r c Hv; by apply (X1 r c Hv (Hall r c Hv))|].
      intros r c Hv. destruct (X1 r c Hv (Hall r c Hv)) as (-> & _). lia. }
    assert (coherent s2) as C2 by (intros r c Hv _; by apply (X1 r c Hv (Hall r c Hv))).
    destruct (update_cursor_ok false s2 R2 C2) as (s3 & H3 & I3 & W3 & R3 & C3 & S3). exists s3. split; [exact H3|]. split; [by eapply within_trans; [exact I1|exact I3]|].
    split; [done|]. split; [done|]. unfold displays, at_cursor. rewrite W3. cbn [writer s2 set_cursor set_current current_row current_col cursor_row cursor_col text_buffer fst snd].
    split; [|split; [exact S3|done]]. split; [done|]. split; [change (zlen (@nil (list Z))) with 0; lia|]. intros r c Hv. destruct (X1 r c Hv (Hall r c Hv)) as (-> & _).
    unfold shown. cbn [app]. by destruct (Z.to_nat (r + _)) as [|[]].
Qed.

(** ** Blinking *)
Lemma blink_wait s : 0 < cursor_blink_interval (writer s) < 256 ->
  blink_debug_cursor s = (Ok (), {| writer := set_cursor (cursor_row (writer s)) (cursor_col (writer s)) (is_cursor_on (writer s))
    (cursor_blink_interval (writer s) - 1) (writer s); vram := vram s |}).
Proof.
  intros Hn. unfold blink_debug_cursor, self. mstep. unfold id. bfalse (cursor_blink_interval (writer s) =? 0). rewrite usub_ok by lia.
  destruct (is_cursor_on (writer s)) eqn:E; mstep; unfold set_blink, assign, modify; done.
Qed.
(** The cursor blinks.  On a screen that shows its text, the cursor where
    the next character goes, the interrupt handler's calls change nothing until
    the count is used up; the one after that takes the cursor away if it was on,
    so that the screen shows the text everywhere, and draws it if it was off;
    the text stays and the count starts again from 250. *)
Theorem cursor_blinks (n : nat) s : ready s -> coherent s -> at_cursor s (current_row (writer s)) (current_col (writer s)) ->
  cursor_blink_interval (writer s) = Z.of_nat n -> (n < 256)%nat ->
  exists s', for_each (replicate (S n) ()) () (fun _ _ => blink_debug_cursor) s = (Ok (), s') /\ within s s' /\
    writer s' = set_cursor (current_row (writer s)) (current_col (writer s)) (negb (is_cursor_on (writer s))) 250 (writer s) /\ coherent s' /\
    (if is_cursor_on (writer s) then shows s' else shows_cursor s') (current_row (writer s)) (current_col (writer s)).
Proof.
  intros Hr Hco Hat Hn Hlt. revert s Hr Hco Hat Hn. induction n as [|n IH]; intros s Hr Hco Hat Hn.
  - cbn [replicate for_each]. destruct (update_cursor_ok (is_cursor_on (writer s)) s Hr Hco) as (s1 & H1 & I1 & W1 & R1 & C1 & S1).
    assert (blink_debug_cursor s = (Ok (), {| writer := set_cursor (cursor_row (writer s1)) (cursor_col (writer s1)) (negb (is_cursor_on (writer s))) 250 (writer s1);
      vram := vram s1 |})) as Hb.
    { unfold blink_debug_cursor, self. mstep. unfold id. rewrite Hn. change (Z.of_nat 0 =? 0) with true. cbv iota.
      destruct (is_cursor_on (writer s)); mrun H1; done. }
    mrun Hb. eexists. split; [done|]. split; [exact I1|]. cbn [writer]. rewrite W1. split; [done|]. split.
    + intros r c Hv Hne. apply (shows_same s1); [cbn; by rewrite W1|done|]. apply C1; [done|]. intros [-> ->]. apply Hne. split; cbn; by rewrite W1.
    + destruct (is_cursor_on (writer s)); [|done]. apply (shows_same s1); [cbn; by rewrite W1|done|done].
  - cbn [replicate for_each] in *. rewrite (M_bind_run _ _ s _ _ (blink_wait s ltac:(lia))).
    destruct (IH ltac:(lia) {| writer := set_cursor (cursor_row (writer s)) (cursor_col (writer s)) (is_cursor_on (writer s))
      (cursor_blink_interval (writer s) - 1) (writer s); vram := vram s |}) as (s' & H1 & H2); [destruct Hr; by constructor|done|done|cbn; lia|].
    exists s'. split; [exact H1|exact H2].
Qed.
End screen.

Section boot.
Context `{BB : Build}.
Definition fresh (v : Z -> Z) : Term := {| writer := WRITER; vram := v |}.
Definition configured (width height addr : Z) : DebugWriter := set_frame width height addr (width / 8) (height / 16) WRITER.
Lemma configured_geometry width height addr : 8 <= width < 2 ^ 32 -> 16 <= height < 2 ^ 32 -> 0 <= addr -> addr + 4 * (width * height) <= 2 ^ 64 ->
  geometry (configured width height addr).
Proof. intros. unfold geometry, configured. cbn. split_and!; try lia; Z.to_euclidean_division_equations; lia. Qed.
Lemma WRITER_dims : dims (color_buffer WRITER) /\ dims (text_buffer WRITER).
Proof. split; (split; [done|]); apply Forall_replicate; done. Qed.
(** C26: the screen shows the last lines of the output.  On a frame buffer of up
    to 1287 by 1615 pixels, after the terminal was set up and any strings were
    written, every cell but the one of the cursor has the pixels of the
    character that is there if the whole output is cut into lines, at its
    newlines and at the width of the terminal, and the last of them are shown;
    the cursor is where the next character goes; no word outside the cells has
    changed. *)
Theorem terminal_shows_output width height addr v texts : 8 <= width < 8 * 161 -> 16 <= height < 16 * 101 -> 0 <= addr ->
  addr + 4 * (width * height) <= 2 ^ 64 -> Forall (Forall (fun b => 0 <= b < 256)) texts ->
  let w := configured width height addr in
  let d := foldl (type_byte w) ([], []) (printed <$> concat texts) in
  exists s', (_ ← init_debug_terminal (Some (width, height, addr)); for_each texts () (fun t _ => write_string t)) (fresh v) = (Ok (), s') /\
    (forall r c i j, visible w r c -> in_cell i j -> ~ (r = Z.min (zlen (fst d)) (terminal_height w - 1) /\ c = zlen (snd d)) ->
       vram s' (pixel_at w r c i j) = if glyph (shown w d r c) i j then WHITE else 0) /\
    (forall i j, in_cell i j -> vram s' (pixel_at w (Z.min (zlen (fst d)) (terminal_height w - 1)) (zlen (snd d)) i j) = WHITE) /\
    forall a, (forall r c i j, visible w r c -> in_cell i j -> a <> pixel_at w r c i j) -> vram s' a = v a.
Proof.
  intros Hw Hh Ha Hend Ht w d. assert (geometry w) as Hg by (apply configured_geometry; lia).
  assert (terminal_width w <= 160 /\ terminal_height w <= 100) as Hfit by (cbn; Z.to_euclidean_division_equations; lia).
  set (s0 := {| writer := w; vram := v |}). assert (blank w s0) as Hb.
  { destruct WRITER_dims. constructor; try done. split; cbn; [destruct Hg as (_ & ? & _); cbn in *; lia|destruct Hg as (? & _); cbn in *; lia]. }
  destruct (clear_ok w Hg Hfit s0 Hb) as (s1 & H1 & I1 & R1 & C1 & D1 & S1 & A1).
  assert (init_debug_terminal (Some (width, height, addr)) (fresh v) = (Ok (), s1)) as Hi.
  { unfold init_debug_terminal, configure_debug_terminal. assert (assign (set_frame width height addr (width / 8) (height / 16)) (fresh v) = (Ok (), s0)) as H0 by done.
    by mrun H0. }
  destruct (write_all_ok w Hg Hfit texts s1 _ R1 C1 D1 Ht S1 A1) as (s2 & H2 & I2 & R2 & C2 & D2 & S2 & A2). fold d in D2.
  exists s2. split; [by mrun Hi|]. destruct D2 as (Ec & Er & Tx). rewrite Ec, Er in *. split; [|split; [exact S2|]].
  - intros r c i j Hv Hij Hne. rewrite <- Tx by done. apply C2; [done| |done]. intros [-> ->]. apply Hne. destruct A2. done.
  - intros a Hna. rewrite I2, I1; done.
Qed.

(** ** Screens that are too wide *)
Definition sized (w : DebugWriter) (s : Term) : Prop := frame (writer s) = frame w /\ dims (text_buffer (writer s)) /\ dims (color_buffer (writer s)).
Lemma clear_sized w col s : geometry w -> sized w s -> 0 <= col < 160 -> col < terminal_width w -> exists s', clear_cell 0 col s = (Ok (), s') /\ sized w s'.
Proof.
  intros Hg (Hf & Ht & Hc) Hcol Hw. pose proof Hg as (_ & Gh & _). unfold clear_cell.
  destruct (update2_ok (text_buffer (writer s)) 0 col 0 Ht ltac:(lia) Hcol) as (tb & E1 & Ht' & _).
  destruct (update2_ok (color_buffer (writer s)) 0 col DEFAULT Hc ltac:(lia) Hcol) as (cb & E2 & Hc' & _).
  set (s1 := {| writer := set_buffers cb tb (writer s); vram := vram s |}).
  assert (set_cell 0 col 0xFFFFFF00000000 0 s = (Ok (), s1)) as H1.
  { unfold set_cell, self. mstep. unfold id. rewrite E1. mstep. unfold DEFAULT in E2. rewrite E2. by mstep. }
  mrun H1. assert (frame (writer s1) = frame w) as Hf1 by exact Hf. destruct (frame_eq _ _ Hf1 Hg) as (Hg1 & _ & HV & _).
  destruct (fill_cell_ok 0 col (glyph_color 0) (fun i j => if glyph 0 i j then cur_fg_color (writer s1) else cur_bg_color (writer s1)) s1 Hg1)
    as (s2 & H2 & W2 & _); [rewrite HV; split; lia|intros i j Hij; by apply glyph_color_ok|].
  exists s2. split; [exact H2|]. unfold sized. by rewrite W2.
Qed.
Lemma clear_beyond s : dims (text_buffer (writer s)) -> (clear_cell 0 160 s).1 = Panic.
Proof.
  intros Ht. unfold clear_cell, set_cell, self. unfold mbind, M_bind, gets, lift, id. unfold update2.
  destruct (dims_row (text_buffer (writer s)) 0 Ht ltac:(lia)) as (x & Hx & Hl). rewrite (index_ok _ _ x) by (done || lia). rsimpl.
  unfold update. rewrite Hl. done.
Qed.
(** Screens wider than 1287 pixels stop the kernel.  The rows of the buffers
    have 160 cells; on a wider frame buffer, setting up the terminal indexes the
    first row beyond its end and panics. *)
Theorem wide_screen_panics width height addr v : 8 * 161 <= width < 2 ^ 32 -> 16 <= height < 2 ^ 32 -> 0 <= addr -> addr + 4 * (width * height) <= 2 ^ 64 ->
  (init_debug_terminal (Some (width, height, addr)) (fresh v)).1 = Panic.
Proof.
  intros Hw Hh Ha Hend. set (w := configured width height addr). assert (geometry w) as Hg by (apply configured_geometry; lia).
  unfold init_debug_terminal, configure_debug_terminal. set (s0 := {| writer := w; vram := v |}).
  assert (assign (set_frame width height addr (width / 8) (height / 16)) (fresh v) = (Ok (), s0)) as H0 by done. mrun H0.
  unfold clear_debug_terminal, self. do 2 mstep. change (terminal_height (writer s0)) with (height / 16). change (terminal_width (writer s0)) with (width / 8).
  assert (161 <= width / 8 /\ 1 <= height / 16) as [Hw' Hh'] by (Z.to_euclidean_division_equations; lia).
  destruct (for_seq (fun col _ => clear_cell 0 col) (fun _ s => sized w s) 0 160 s0) as (s1 & H1 & _ & Ht & _); [lia| | |].
  - intros col s1 Hcol Hs. apply clear_sized; [done..|lia|cbn; lia].
  - destruct WRITER_dims. done.
  - assert ((for_each (seqZ 0 (width / 8)) () (fun col _ => clear_cell 0 col) s0).1 = Panic) as Hrow.
    { replace (width / 8) with (160 + (width / 8 - 160)) by lia. rewrite seqZ_app by lia. rewrite for_each_app. mrun H1.
      rewrite (seqZ_cons (0 + 160)) by lia. cbn [for_each]. apply bind_panic, clear_beyond, Ht. }
    rewrite (seqZ_cons 0 (height / 16)) by lia. cbn [for_each]. by do 2 apply bind_panic.
Qed.
End boot.

Lemma terminal_shows_output_witness :
  exists s', (_ ← @init_debug_terminal dev_build (Some (16, 32, 0)); for_each [[72; 105]; [10; 33]] () (fun t _ => @write_string dev_build t)) (fresh (fun _ => 7)) = (Ok (), s') /\
    vram s' (4 * ((16 + 2) * 16 + 2)) = WHITE /\ vram s' (4 * ((16 + 2) * 16)) = 0 /\ vram s' (4 * (16 * 16 + 8)) = WHITE /\ vram s' 1 = 7.
Proof.
  destruct (@terminal_shows_output dev_build 16 32 0 (fun _ => 7) [[72; 105]; [10; 33]]) as (s' & H1 & H2 & H3 & H4); [lia..| |].
  { repeat constructor; lia. }
  exists s'. split; [exact H1|]. split; [|split; [|split]].
  - pose proof (H2 1 0 2 2 ltac:(split; vm_compute; (split; [discriminate|reflexivity])) ltac:(split; lia) ltac:(intros [_ E]; vm_compute in E; discriminate E)) as E.
    vm_compute in E. vm_compute. exact E.
  - pose proof (H2 1 0 2 0 ltac:(split; vm_compute; (split; [discriminate|reflexivity])) ltac:(split; lia) ltac:(intros [_ E]; vm_compute in E; discriminate E)) as E.
    vm_compute in E. vm_compute. exact E.
  - pose proof (H3 0 0 ltac:(split; lia)) as E. vm_compute in E. vm_compute. exact E.
  - apply H4. intros r c i j _ _. unfold pixel_at, configured. cbn [set_frame frame_buffer_addr frame_buffer_width]. lia.
Defined.
Lemma wide_screen_panics_witness : (@init_debug_terminal release_build (Some (1920, 1080, 0xFFFF800080000000)) (fresh (fun _ => 0))).1 = Panic.
Proof. apply (@wide_screen_panics release_build); lia. Defined.

Module SampleTerminal.
Definition w : DebugWriter := set_buffers (replicate 100 (replicate 160 DEFAULT)) (replicate 100 (replicate 160 0)) (configured 16 32 0).
Definition s : Term := {| writer := w; vram := fun _ => 0 |}.
Lemma cell_replicate v r c : 0 <= r < 100 -> 0 <= c < 160 -> cell (replicate 100 (replicate 160 v)) r c = v.
Proof. intros. unfold cell. rewrite lookup_replicate_2 by lia. cbn [mbind option_bind]. by rewrite lookup_replicate_2 by lia. Qed.
Lemma visible_bounds r c : visible w r c -> 0 <= r < 100 /\ 0 <= c < 160.
Proof. intros [Hr Hc]. change (terminal_height w) with 2 in Hr. change (terminal_width w) with 2 in Hc. lia. Qed.
Lemma is_ready : ready w s.
Proof.
  constructor; try done.
  - split; [done|]. by apply Forall_replicate.
  - split; [done|]. by apply Forall_replicate.
  - intros r c Hv. destruct (visible_bounds r c Hv). by apply cell_replicate.
  - intros r c Hv. destruct (visible_bounds r c Hv). change (text_buffer (writer s)) with (replicate 100 (replicate 160 0)). by rewrite cell_replicate.
Qed.
Lemma empty_glyph i j : in_cell i j -> glyph 0 i j = false.
Proof.
  intros [Hi _]. unfold glyph. replace (BUILTIN_FONT !! Z.to_nat (16 * 0 + i)) with (Some 0); [apply Z.bits_0|].
  assert (take 16 BUILTIN_FONT = replicate 16 0) as Hf by done. rewrite <- (lookup_take_lt _ 16) by lia. rewrite Hf. by rewrite lookup_replicate_2 by lia.
Qed.
Lemma is_coherent : coherent w s.
Proof.
  intros r c Hv _ i j Hij. destruct (visible_bounds r c Hv). change (text_buffer (writer s)) with (replicate 100 (replicate 160 0)).
  rewrite cell_replicate by done. by rewrite empty_glyph.
Qed.
End SampleTerminal.
Lemma cursor_blinks_witness :
  exists s', for_each (replicate 11 ()) () (fun _ _ => @blink_debug_cursor dev_build) SampleTerminal.s = (Ok (), s') /\
    is_cursor_on (writer s') = true /\ vram s' 0 = WHITE.
Proof.
  destruct (@cursor_blinks dev_build SampleTerminal.w (configured_geometry 16 32 0 ltac:(lia) ltac:(lia) ltac:(lia) ltac:(lia)) ltac:(vm_compute; split; discriminate) 10 SampleTerminal.s
    SampleTerminal.is_ready SampleTerminal.is_coherent) as (s' & H1 & _ & H2 & _ & H3); [done|done|lia|].
  exists s'. split; [exact H1|]. split; [by rewrite H2|]. apply (H3 0 0). split; lia.
Defined.
