(* ===== verification/Hba.v ===== *)
(** * AHCI controllers

    src/kernel/src/drivers/ata/sata/ahci.rs, [AhciSata::new] of sata/mod.rs,
    arch/x86_64/msi.rs, [PciHeader] of pcie.rs, and [identify_storage_devices] of
    hal/storage.rs: from the devices found on the bus to the list of drives.

    The bus is a parameter, [Bus]: volatile accesses by address, pages that are
    mapped or get other flags, and pages that are cleared.  The registers of each
    controller are those of Ahci.v, a [Controller] for the address they are
    mapped at.  Frames come from the allocator of Memory.v.

    Shown here: a controller's drives are on ports it implements, in order, each
    with a buffer of its own that the allocator gave it; messages are sent to the
    processor with number 0 whatever the number of this one is; the registers of
    the first capability are used for those of the message interrupts; what has
    been recorded twice, or is the ninth controller, stops the kernel. *)

From S2P Require Import Prelude Bytes Timer Ahci Memory Acpi Pcie.
From stdpp Require Import gmap.
#[local] Open Scope Z_scope.

(** Accesses of some bytes at an address; [map_4k] by page and frame, with the
    allocator that the frames of new page tables are taken from *)
Class Bus (W : Type) := {
  load_at : Z -> Z -> W -> Z * W;
  store_at : Z -> Z -> Z -> W -> W;
  map_4k : Z -> Z -> BitmapAllocator * W -> option (BitmapAllocator * W);
  update_flags : Z -> W -> option W;
  clear_page : Z -> W -> W;
}.
(** The devices found so far and what they need *)
Record Disks (W : Type) := {
  timing : Timers W;
  FRAME_ALLOCATOR : BitmapAllocator;
  AHCI_PORTS_MAP : list (option Z);
  CUR_AHCI_IDX : Z;
}.
Arguments Build_Disks {W} _ _ _ _.
Arguments timing {W} _.
Arguments FRAME_ALLOCATOR {W} _.
Arguments AHCI_PORTS_MAP {W} _.
Arguments CUR_AHCI_IDX {W} _.
Record AhciHba := { location : Z; base : Z; idx : Z }.

(** Registers of [PciHeader], [PcieMsiCapNode] and [AhciHbaPorts] that are used *)
Definition reg_command : Z := 0x04.
Definition reg_status : Z := 0x06.
Definition reg_bar4 : Z := 0x20.
Definition reg_bar5 : Z := 0x24.
Definition reg_capabilities_ptr : Z := 0x34.
Definition message_control_register : Z := 0x2.
Definition message_addr_register : Z := 0x4.
Definition message_upper_addr_register : Z := 0x8.
Definition message_data_register : Z := 0x8.
Definition message_data_register_64_bit : Z := 0xc.
Definition reg_cap : Z := 0x00.
Definition reg_ghc : Z := 0x04.
Definition reg_pi : Z := 0x0C.
Definition MSI : Z := 0x5.
Definition AHCI_INTERRUPT_HANDLER_IDX : Z := 0x30.
Definition ATAPI_SIG : Z := 0xEB140101.
Definition SATA_SIG : Z := 0x00000101.
Definition MassStorage : Z := 0x01.
Definition Sata : Z := 0x06.
Definition AhciProgIf : Z := 0x01.

(** [phys_addr], [virt_add] and [virt_addr] are [PhysAddr::new], [VirtAddr + u64]
    and [VirtAddr::new]; [lapic] is what [get_local_apic] returns, and
    [identify_buffer] where the heap puts the answer of a drive. *)
Section hba.
Context `{Build} {W : Type} `{Machine W, Bitfield, Bus W} (controller : Z -> Controller W).
Context (hhdm_offset lapic : Z) (phys_addr : Z -> option Z) (virt_add : Z -> Z -> option Z) (identify_buffer : Z -> Z).
Abbreviation D := (M (Disks W) never).
Definition with_timing (t : Timers W) (s : Disks W) : Disks W := Build_Disks t (FRAME_ALLOCATOR s) (AHCI_PORTS_MAP s) (CUR_AHCI_IDX s).
Definition timed {A} (m : M (Timers W) never A) : D A := fun s => let '(r, t) := m (timing s) in (r, with_timing t s).
Definition vadd' (a b : Z) : D Z := lift (expect (virt_add a b)).
Definition bus_read (n a : Z) : D Z := timed (reading (load_at n a)).
Definition bus_write (n a v : Z) : D () := timed (writing (store_at n a v)).
Definition read_at (n base off : Z) : D Z := a ← vadd' base off; bus_read n a.
Definition write_at (n base off v : Z) : D () := a ← vadd' base off; bus_write n a v.
Definition hba_read (base r : Z) : D Z := timed (reading (@mmio_read W (controller base) r)).
Definition hba_write (base r v : Z) : D () := timed (writing (@mmio_write W (controller base) r v)).
Definition map_to (page frame : Z) : D () := fun s =>
  match map_4k page frame (FRAME_ALLOCATOR s, machine (timing s)) with
  | Some (a, w) => (Ok (), Build_Disks (with_machine (timing s) w) a (AHCI_PORTS_MAP s) (CUR_AHCI_IDX s))
  | None => (Panic, s)
  end.
Definition set_flags (page : Z) : D () := fun s =>
  match update_flags page (machine (timing s)) with
  | Some w => (Ok (), with_timing (with_machine (timing s) w) s)
  | None => (Panic, s)
  end.
Definition containing (a : Z) : Z := a - a mod 4096.

(** ** [AhciHba::new] *)
(** [AHCI_PORTS_MAP[hba_idx].set(base)]: the first address stays. *)
Definition set_ports_map (hba_idx b : Z) : D () :=
  m ← gets AHCI_PORTS_MAP;
  o ← lift (index m hba_idx);
  m ← lift (update m hba_idx (Some (default b o)));
  modify (fun s => Build_Disks (timing s) (FRAME_ALLOCATOR s) m (CUR_AHCI_IDX s)).
Definition AhciHba_new (loc hba_idx : Z) : D AhciHba :=
  bar5 ← read_at 4 loc reg_bar5;
  let phys_base := Z.land bar5 0xFFFFFFF0 in
  bar5 ← read_at 4 loc reg_bar5;
  phys_base ← (if negb (Z.land bar5 4 =? 0) then
                 upper_bits ← read_at 4 loc reg_bar4;
                 mret (Z.lor phys_base (wrap 64 (Z.shiftl upper_bits 32)))
               else mret phys_base);
  b ← vadd' hhdm_offset phys_base;
  p ← lift (expect (phys_addr phys_base));
  _ ← map_to (containing b) (containing p);
  _ ← set_ports_map hba_idx b;
  mret {| location := loc; base := b; idx := hba_idx |}.

(** ** [AhciSata::new] *)
Definition take_frames (len : Z) : D (option (list Z)) := fun s =>
  match allocate_continuous_frames (FRAME_ALLOCATOR s) None len with
  | Ok (r, a, _) => (Ok r, Build_Disks (timing s) a (AHCI_PORTS_MAP s) (CUR_AHCI_IDX s))
  | Err e => (Err e, s)
  | Panic => (Panic, s)
  | Hang => (Hang, s)
  end.
Definition clear_frame (frame : Z) : D () :=
  v ← vadd' hhdm_offset frame;
  _ ← timed (writing (clear_page v));
  v ← vadd' hhdm_offset frame;
  (* [Page::from_start_address(..).expect(..)] *)
  if negb (v mod 4096 =? 0) then panic else set_flags v.
Definition cleared_buffer : list Z := replicate (Z.to_nat (4096 * 5)) 0.
Definition AhciSata_new (hba_base max_cmd_slots hba_idx ports_idx : Z) : D (option (AhciSata W)) :=
  let reg r := HBA_PORT_PORTS_OFFSET + HBA_PORT_SIZE * ports_idx + port_offset r in
  sig ← hba_read hba_base (reg signature);
  if sig =? ATAPI_SIG then mret None
  else if negb (sig =? SATA_SIG) then mret None else
  status ← hba_read hba_base (reg sata_status);
  if (device_detection status =? DET_NOT_PRESENT) || (device_detection status =? DET_PRESENT_NO_PHY) then mret None else
  o ← take_frames 5;
  frames ← lift (expect o);
  _ ← for_each frames () (fun frame _ => clear_frame frame);
  first ← lift (index frames 0);
  _ ← vadd' hhdm_offset first;
  t ← gets timing;
  mret (Some (Build_AhciSata t cleared_buffer first max_cmd_slots IdentifyData_default hba_idx ports_idx)).
(** [sata.init()] on the drive's own state, with the machine it shares *)
Definition init_drive (fuel : nat) (hba_base : Z) (sata : AhciSata W) : D (res TimeOut () * AhciSata W) := fun s =>
  let '(r, sata') := @Ahci.init _ W _ (controller hba_base) _ phys_addr hhdm_offset fuel (identify_buffer (ports_idx sata)) (with_timers sata (timing s)) in
  match r with
  | Panic => (Panic, with_timing (timers sata') s)
  | Hang => (Hang, with_timing (timers sata') s)
  | _ => (Ok (r, sata'), with_timing (timers sata') s)
  end.

(** ** [AhciHba::init] *)
(** The loop over the capabilities: [node] is the header just read, [ptr] the
    address of the first one, which the inner [let ptr] does not change. *)
Fixpoint find_msi (fuel : nat) (loc ptr node : Z) : D (option Z) :=
  if node mod 256 =? MSI then mret (Some ptr)
  else if node / 256 =? 0 then mret None
  else match fuel with
       | O => lift Hang
       | S fuel => a ← vadd' loc (node / 256); node ← bus_read 2 a; find_msi fuel loc ptr node
       end.
Definition default_data : Z := with_bits 14 14 0 (with_bits 10 8 0 0).
Definition default_addr : Z := with_bits 3 3 0 0xFEE00000.
Definition configure_msi (hba_idx node : Z) : D () :=
  control_reg ← read_at 2 node message_control_register;
  v ← lift (uadd 8 AHCI_INTERRUPT_HANDLER_IDX (wrap 8 hba_idx));
  let msi_data := with_bits 7 0 v default_data in
  id ← read_at 4 lapic 0x20;
  let msi_addr := with_bits 19 12 id default_addr in
  _ ← write_at 4 node message_addr_register msi_addr;
  _ ← (if bit_of 7 control_reg then
         _ ← write_at 4 node message_upper_addr_register 0;
         write_at 4 node message_data_register_64_bit msi_data
       else write_at 4 node message_data_register msi_data);
  c ← read_at 2 node message_control_register;
  write_at 2 node message_control_register (Z.lor c 1).
Definition probe_port (fuel : nat) (self : AhciHba) (num_cmd_slots pi i : Z) (devices : list (AhciSata W)) : D (list (AhciSata W)) :=
  if Z.land pi (Z.shiftl 1 i) =? 0 then mret devices else
  a ← vadd' (base self) HBA_PORT_PORTS_OFFSET;
  _ ← vadd' a (i * HBA_PORT_SIZE);
  o ← AhciSata_new (base self) num_cmd_slots (idx self) i;
  match o with
  | None => mret devices
  | Some sata =>
      '(r, sata) ← init_drive fuel (base self) sata;
      mret (match r with Ok _ => devices ++ [sata] | _ => devices end)
  end.
Definition AhciHba_init (fuel : nat) (self : AhciHba) : D (list (AhciSata W)) :=
  status ← read_at 2 (location self) reg_status;
  if Z.land status 0x10 =? 0 then mret [] else
  command ← read_at 2 (location self) reg_command;
  _ ← write_at 2 (location self) reg_command (Z.land command (Z.lxor 0xFFFF 0x400));
  ptr ← read_at 1 (location self) reg_capabilities_ptr;
  ptr ← vadd' (location self) ptr;
  node ← bus_read 2 ptr;
  o ← find_msi fuel (location self) ptr node;
  match o with
  | None => mret []
  | Some node =>
      _ ← configure_msi (idx self) node;
      ghc ← hba_read (base self) reg_ghc;
      _ ← hba_write (base self) reg_ghc (Z.lor (Z.lor ghc (Z.shiftl 1 31)) (Z.shiftl 1 1));
      cap ← hba_read (base self) reg_cap;
      if Z.land cap (Z.shiftl 1 31) =? 0 then mret [] else
      cap ← hba_read (base self) reg_cap;
      let num_cmd_slots := 1 + Z.land (Z.shiftr cap 8) 31 in
      pi ← hba_read (base self) reg_pi;
      for_each (seqZ 0 32) [] (probe_port fuel self num_cmd_slots pi)
  end.

(** ** [identify_storage_devices] *)
(** [m.values().flatten().flat_map(|(_, b)| b)]: by subclass, then by programming
    interface, then in the order of the vector *)
Definition in_order (m : gmap Z (gmap Z (list PciDevice))) : list PciDevice :=
  concat ((fun s => match m !! s with
                    | Some m' => concat ((fun p => default [] (m' !! p)) <$> seqZ 0 256)
                    | None => []
                    end) <$> seqZ 0 256).
Definition is_ahci (d : PciDevice) : bool := (subclass (header_partial d) =? Sata) && (prog_if (header_partial d) =? AhciProgIf).
Definition fetch_add_idx : D Z :=
  i ← gets CUR_AHCI_IDX;
  _ ← modify (fun s => Build_Disks (timing s) (FRAME_ALLOCATOR s) (AHCI_PORTS_MAP s) (wrap 8 (i + 1)));
  mret i.
Definition start_controller (fuel : nat) (d : PciDevice) (drives : list (AhciSata W)) : D (list (AhciSata W)) :=
  if is_ahci d then
    i ← fetch_add_idx;
    ahci ← AhciHba_new (address d) i;
    new ← AhciHba_init fuel ahci;
    mret (drives ++ new)
  else mret drives.
(** The list is the map of [STORAGE_DEVICES_BY_IDX] by its keys from 0. *)
Definition identify_storage_devices (fuel : nat) (device_tree : Devices) : D (list (AhciSata W)) :=
  match device_tree !! MassStorage with
  | Some m => for_each (in_order m) [] (start_controller fuel)
  | None => mret []
  end.
End hba.

(** ** What a computation does to its state, whatever its result *)
Definition respects {S E A} (R : S -> S -> Prop) (m : M S E A) : Prop := forall s r s', m s = (r, s') -> R s s'.
Section respects.
Context {S E : Type} (R : S -> S -> Prop) (Rrefl : forall s, R s s) (Rtrans : forall s1 s2 s3, R s1 s2 -> R s2 s3 -> R s1 s3).
Abbreviation resp := (@respects S E _ R).
Lemma resp_bind {A B} (m : M S E A) (f : A -> M S E B) : resp m -> (forall a, resp (f a)) -> resp (m ≫= f).
Proof using Rtrans.
  intros Hm Hf s r s' H. unfold mbind, M_bind in H. destruct (m s) as [[a|e| |] s1] eqn:E1; try (injection H as <- <-; by eapply Hm).
  eapply Rtrans; [by eapply Hm|by eapply Hf].
Qed.
Lemma resp_bind_when {A B} (P : A -> Prop) (m : M S E A) (f : A -> M S E B) :
  (forall s a s', m s = (Ok a, s') -> P a) -> resp m -> (forall a, P a -> resp (f a)) -> resp (m ≫= f).
Proof using Rtrans.
  intros HP Hm Hf s r s' H. unfold mbind, M_bind in H. destruct (m s) as [[a|e| |] s1] eqn:E1; try (injection H as <- <-; by eapply Hm).
  eapply Rtrans; [by eapply Hm|]. eapply Hf; [by eapply HP|exact H].
Qed.
Lemma resp_same {A} (m : M S E A) : (forall s, (m s).2 = s) -> resp m.
Proof using Rrefl. intros Hm s r s' H. specialize (Hm s). rewrite H in Hm. cbn in Hm. by subst. Qed.
Lemma resp_for {A B} (xs : list A) (f : A -> B -> M S E B) : (forall x b, resp (f x b)) -> forall b, resp (for_each xs b f).
Proof using Rrefl Rtrans. intros Hf. induction xs as [|x xs IH]; intros b; cbn [for_each]; [by apply resp_same|]. by apply resp_bind. Qed.
End respects.
Ltac respectful Rr Rt :=
  repeat first
  [ progress intros
  | assumption
  | match goal with
    | |- respects _ (_ ≫= _) => apply (resp_bind _ Rt)
    | |- respects _ (mret _) => apply (resp_same _ Rr); reflexivity
    | |- respects _ (lift _) => apply (resp_same _ Rr); reflexivity
    | |- respects _ (gets _) => apply (resp_same _ Rr); reflexivity
    | |- respects _ get => apply (resp_same _ Rr); reflexivity
    | |- respects _ (throw _) => apply (resp_same _ Rr); reflexivity
    | |- respects _ panic => apply (resp_same _ Rr); reflexivity
    | |- respects _ (if ?b then _ else _) => destruct b
    | |- respects _ (match ?x with _ => _ end) => destruct x
    end ].

Section kept.
Context `{BB : Build} {W : Type} {HM : Machine W} {HC : Controller W} {HB : Bitfield} (phys_addr : Z -> option Z) (hhdm_offset : Z).
Context (Q : W -> Prop).
Hypothesis rdtsc_keeps : forall w, Q w -> Q (rdtsc w).2.
Hypothesis mmio_read_keeps : forall r w, Q w -> Q (mmio_read r w).2.
Hypothesis mmio_write_keeps : forall r v w, Q w -> Q (mmio_write r v w).
(** The drive keeps its buffer and its port, the machine what [Q] says. *)
Definition kept (s s' : AhciSata W) : Prop :=
  dma_20kb_buffer_paddr s' = dma_20kb_buffer_paddr s /\ ports_idx s' = ports_idx s /\ (Q (machine (timers s)) -> Q (machine (timers s'))).
Lemma kept_refl s : kept s s.
Proof. done. Qed.
Lemma kept_trans s1 s2 s3 : kept s1 s2 -> kept s2 s3 -> kept s1 s3.
Proof. intros (A1 & A2 & A3) (B1 & B2 & B3). split; [congruence|]. split; [congruence|auto]. Qed.
Definition ticks (t t' : Timers W) : Prop := Q (machine t) -> Q (machine t').
Lemma resp_clock {E A} (m : M (Timers W) E A) : respects ticks m -> respects kept (clock m).
Proof. intros Hm s r s' H. unfold clock in H. destruct (m (timers s)) as [r' t] eqn:E1. injection H as <- <-. split; [done|]. split; [done|]. by eapply Hm. Qed.
Lemma resp_reading {E} f : (forall w, Q w -> Q (f w).2) -> respects ticks (reading (E:=E) f).
Proof. intros Hf s r s' H. unfold reading in H. destruct (f (machine s)) as [v w] eqn:E1. injection H as <- <-. intros HQ. cbn. specialize (Hf _ HQ). by rewrite E1 in Hf. Qed.
Lemma resp_writing {E} f : (forall w, Q w -> Q (f w)) -> respects ticks (writing (E:=E) f).
Proof. intros Hf s r s' H. injection H as <- <-. intros HQ. cbn. auto. Qed.
Lemma ticks_refl t : ticks t t.
Proof. unfold ticks. auto. Qed.
Lemma ticks_trans t1 t2 t3 : ticks t1 t2 -> ticks t2 t3 -> ticks t1 t3.
Proof. unfold ticks. auto. Qed.
Ltac ticking := respectful ticks_refl ticks_trans; try by apply resp_reading.
Lemma resp_now {E} : respects ticks (now (E:=E)).
Proof. unfold now. ticking. Qed.
Lemma resp_elapsed {E} a : respects ticks (elapsed (E:=E) a).
Proof. unfold elapsed. ticking. apply resp_now. Qed.
Create HintDb kept.
Lemma resp_read_port {E} r : respects kept (read_port (E:=E) r).
Proof. unfold read_port. apply (resp_bind _ kept_trans); [by apply (resp_same _ kept_refl)|]. intros s. apply resp_clock, resp_reading. auto. Qed.
Lemma resp_write_port {E} r v : respects kept (write_port (E:=E) r v).
Proof. unfold write_port. apply (resp_bind _ kept_trans); [by apply (resp_same _ kept_refl)|]. intros s. apply resp_clock, resp_writing. auto. Qed.
Lemma resp_clock_now {E} : respects kept (clock (now (E:=E))).
Proof. apply resp_clock, resp_now. Qed.
Lemma resp_clock_elapsed {E} a : respects kept (clock (elapsed (E:=E) a)).
Proof. apply resp_clock, resp_elapsed. Qed.
Lemma resp_modify {E} (f : AhciSata W -> AhciSata W) : (forall s, kept s (f s)) -> respects kept (modify (E:=E) f).
Proof. intros Hf s r s' H. injection H as <- <-. apply Hf. Qed.
Hint Resolve resp_read_port resp_write_port resp_clock_now resp_clock_elapsed : kept.
Ltac keeping := repeat first [progress (respectful kept_refl kept_trans) | solve [auto with kept] | apply resp_modify; done].
Lemma resp_wait_stopped {E} fuel t : respects kept (wait_stopped (E:=E) fuel t).
Proof. induction fuel as [|fuel IH]; cbn [wait_stopped]; keeping. Qed.
Lemma resp_wait_for {E} fuel (rd : M (AhciSata W) E bool) late t : respects kept rd -> respects kept (wait_for fuel rd late t).
Proof. intros Hr. induction fuel as [|fuel IH]; cbn [wait_for]; keeping. Qed.
Lemma resp_spin {E} fuel (rd : M (AhciSata W) E bool) : respects kept rd -> respects kept (spin_until fuel rd).
Proof. intros Hr. induction fuel as [|fuel IH]; cbn [spin_until]; keeping. Qed.
Hint Resolve resp_wait_stopped resp_wait_for resp_spin : kept.
Lemma resp_engine {E} fuel : respects kept (start_engine (E:=E) fuel).
Proof. unfold start_engine, cmd_bit. keeping; apply resp_spin; keeping. Qed.
Lemma resp_identify {E} fuel result : respects kept (identify phys_addr hhdm_offset (E:=E) fuel result).
Proof. unfold identify, put_fis, put_prdt, put_header. keeping; apply resp_spin; keeping. Qed.
Lemma init_kept fuel result : respects kept (Ahci.init phys_addr hhdm_offset fuel result).
Proof.
  unfold Ahci.init, reset, disable_interrupts, reset_cmd, set_det, is_idle, set_bases, enable_interrupts, not_busy, det_is, ipm_is.
  keeping; try (apply resp_wait_for; keeping); [apply resp_engine|apply resp_identify].
Qed.
End kept.

(** ** The drives and their buffers *)
(** The allocator after some calls of [allocate_frame] *)
Inductive allocates `{Build} : BitmapAllocator -> BitmapAllocator -> Prop :=
| allocates_none a : allocates a a
| allocates_frame a o a' c a'' : allocate_frame a None = Ok (o, a', c) -> allocates a' a'' -> allocates a a''.
(** What the kernel relies on of [map_to]: it does nothing to the allocator but
    ask it for the frames of new tables. *)
Class BusFrames `{Build} (W : Type) `{Bus W} := {
  map_allocates v p a x a' x' : map_4k v p (a, x) = Some (a', x') -> allocates a a';
}.
Definition grows (a a' : BitmapAllocator) : Prop := forall j, 0 <= j -> used a j = true -> used a' j = true.
Lemma grows_trans a b c : grows a b -> grows b c -> grows a c.
Proof. unfold grows. auto. Qed.
Lemma allocates_trans `{Build} a b c : allocates a b -> allocates b c -> allocates a c.
Proof. induction 1; [done|]. intros. eapply allocates_frame; eauto. Qed.
Lemma allocates_grows `{Build} a a' : allocates a a' -> wf a -> wf a' /\ grows a a'.
Proof.
  induction 1 as [a|a o a1 c a2 E _ IH]; intros Hwf; [split; [done|by intros j]|].
  destruct (allocate_frame_spec a None Hwf) as [[E' _]|(i & m & Hi & _ & Hm & Hwf' & E')]; rewrite E' in E.
  - injection E as <- <- <-. by apply IH.
  - assert (a1 = mark a m i) as -> by congruence. clear E E'. destruct (IH Hwf') as [Hwf2 Hg]. split; [done|]. eapply grows_trans; [|exact Hg].
    intros j Hj Hu. unfold mark. rewrite (used_flipped a true [i] m _ j Hj Hm). by destruct (bool_decide _).
Qed.
Section drives.
Context `{BB : Build} {W : Type} {HM : Machine W} {HB : Bitfield} {HBus : Bus W} {HF : BusFrames W} (controller : Z -> Controller W).
Context (hhdm_offset lapic : Z) (phys_addr : Z -> option Z) (virt_add : Z -> Z -> option Z) (identify_buffer : Z -> Z).
Implicit Types s : Disks W.
Abbreviation A s := (FRAME_ALLOCATOR s).
Definition same_frames s s' : Prop := A s' = A s.
Lemma same_frames_refl s : same_frames s s.
Proof. done. Qed.
Lemma same_frames_trans s1 s2 s3 : same_frames s1 s2 -> same_frames s2 s3 -> same_frames s1 s3.
Proof. unfold same_frames. congruence. Qed.
Lemma frames_timed {X} (m : M (Timers W) never X) : respects same_frames (timed m).
Proof. intros s r s' H. unfold timed in H. destruct (m (timing s)). by injection H as <- <-. Qed.
Lemma frames_set_flags p : respects same_frames (set_flags p).
Proof. intros s r s' H. unfold set_flags in H. destruct (update_flags p _); by injection H as <- <-. Qed.
Lemma frames_modify (f : Disks W -> Disks W) : (forall s, same_frames s (f s)) -> respects same_frames (modify (E:=never) f).
Proof. intros Hf s r s' H. injection H as <- <-. apply Hf. Qed.
Lemma frames_drive fuel b sata : respects same_frames (init_drive controller hhdm_offset phys_addr identify_buffer fuel b sata).
Proof. intros s r s' H. unfold init_drive in H. destruct (Ahci.init _ _ _ _ _) as [[]]; by injection H as <- <-. Qed.
Ltac framing := repeat first
  [ progress (respectful same_frames_refl same_frames_trans)
  | apply frames_timed | apply frames_set_flags | apply frames_drive | apply frames_modify; done
  | progress unfold vadd', read_at, write_at, bus_read, bus_write, hba_read, hba_write, set_ports_map, clear_frame, fetch_add_idx ].
(** Mapping the registers of a controller may take frames for page tables. *)
Definition tables_taken s s' : Prop := allocates (A s) (A s').
Lemma tables_taken_trans s1 s2 s3 : tables_taken s1 s2 -> tables_taken s2 s3 -> tables_taken s1 s3.
Proof. apply allocates_trans. Qed.
Lemma taken_same {X} (m : M (Disks W) never X) : respects same_frames m -> respects tables_taken m.
Proof. intros Hm s r s' H. unfold tables_taken. rewrite (Hm _ _ _ H). apply allocates_none. Qed.
Lemma taken_map_to p f : respects tables_taken (map_to p f).
Proof.
  intros s r s' H. unfold map_to in H. destruct (map_4k p f _) as [[a x]|] eqn:E; injection H as <- <-; [|apply allocates_none].
  by apply map_allocates in E.
Qed.
Lemma taken_new loc i : respects tables_taken (AhciHba_new hhdm_offset phys_addr virt_add loc i).
Proof.
  unfold AhciHba_new. repeat first [apply taken_map_to | apply taken_same; solve [framing] | apply (resp_bind _ tables_taken_trans) | intros ?].
Qed.
Lemma frames_find fuel loc ptr node : respects same_frames (find_msi virt_add fuel loc ptr node).
Proof. revert node. induction fuel as [|fuel IH]; intros node; cbn [find_msi]; framing; apply IH. Qed.
Lemma frames_msi i node : respects same_frames (configure_msi lapic virt_add i node).
Proof. unfold configure_msi. framing. Qed.

(** The five frames of a drive's buffer *)
Definition first_frame (d : AhciSata W) : Z := dma_20kb_buffer_paddr d / 4096.
Definition has_buffer (before now : BitmapAllocator) (d : AhciSata W) : Prop :=
  dma_20kb_buffer_paddr d = 4096 * first_frame d /\ 0 <= first_frame d /\
  forall j, first_frame d <= j < first_frame d + 5 -> used before j = false /\ used now j = true.
Definition apart (d d' : AhciSata W) : Prop := first_frame d + 5 <= first_frame d' \/ first_frame d' + 5 <= first_frame d.
Record own (a0 : BitmapAllocator) s (ds : list (AhciSata W)) : Prop := {
  o_wf : wf (A s);
  o_grows : grows a0 (A s);
  o_buffers : Forall (has_buffer a0 (A s)) ds;
  o_apart : ForallOrdPairs apart ds;
}.
Lemma has_buffer_grows a0 a a' d : grows a a' -> has_buffer a0 a d -> has_buffer a0 a' d.
Proof. intros Hg (H1 & H2 & H3). split; [done|]. split; [done|]. intros j Hj. destruct (H3 j Hj) as [? Hu]. split; [done|]. apply Hg; [lia|done]. Qed.
Lemma take_frames_ok s o s' : wf (A s) -> take_frames 5 s = (Ok o, s') -> wf (A s') /\ grows (A s) (A s') /\
  match o with
  | None => True
  | Some fs => exists k, 0 <= k /\ fs = (fun i => i * 4096) <$> seqZ k 5 /\ forall j, k <= j < k + 5 -> used (A s) j = false /\ used (A s') j = true
  end.
Proof.
  intros Hwf H. unfold take_frames in H. destruct (allocate_continuous_frames_spec (A s) None 5 Hwf ltac:(lia)) as [[E _]|(k & m & n & Hrun & _ & Hm & Hn & E)];
    rewrite E in H; injection H as <- <-; [split; [done|]; split; [by intros j|done]|]. cbn [FRAME_ALLOCATOR]. split; [by eapply wf_flipped|]. destruct Hrun as (Hk & Hk' & Hf). split.
  - intros j Hj Hu. rewrite (used_flipped (A s) true (seqZ k 5) m n j Hj Hm). by destruct (bool_decide _).
  - exists k. split; [done|]. split; [done|]. intros j Hj. split; [by apply Hf|]. rewrite (used_flipped (A s) true (seqZ k 5) m n j ltac:(lia) Hm).
    rewrite bool_decide_eq_true_2; [done|]. apply elem_of_seqZ. lia.
Qed.
Lemma sata_new_ok hb n h i s o s' : wf (A s) -> AhciSata_new controller hhdm_offset virt_add hb n h i s = (Ok o, s') ->
  wf (A s') /\ grows (A s) (A s') /\ match o with None => True | Some d => has_buffer (A s) (A s') d end.
Proof.
  intros Hwf H. unfold AhciSata_new in H.
  assert (forall (s1 : Disks W), same_frames s s1 -> wf (A s1) /\ grows (A s) (A s1)) as Hsame by (intros s1 ->; split; [done|by intros j]).
  apply M_bind_ok in H as (sig & s1 & H1 & H). pose proof (frames_timed _ _ _ _ H1) as F1.
  destruct (sig =? ATAPI_SIG); [injection H as <- <-; destruct (Hsame s1 F1); done|].
  destruct (negb (sig =? SATA_SIG)); [injection H as <- <-; destruct (Hsame s1 F1); done|].
  apply M_bind_ok in H as (st & s2 & H2 & H). pose proof (same_frames_trans _ _ _ F1 (frames_timed _ _ _ _ H2)) as F2.
  destruct (_ || _); [injection H as <- <-; destruct (Hsame s2 F2); done|].
  apply M_bind_ok in H as (fo & s3 & H3 & H). apply take_frames_ok in H3 as (Wf3 & G3 & X3); [|by rewrite F2]. rewrite F2 in G3, X3.
  apply M_bind_ok in H as (fs & s4 & H4 & H). destruct fo as [fs'|]; [|discriminate H4]. injection H4 as -> ->.
  apply M_bind_ok in H as ([] & s5 & H5 & H).
  assert (same_frames s4 s5) as F5. { eapply (resp_for _ same_frames_refl same_frames_trans); [|exact H5]. intros. framing. }
  apply M_bind_ok in H as (first & s6 & H6 & H). injection H6 as H6 ->. apply M_bind_ok in H as (v & s7 & H7 & H). injection H7 as _ ->.
  injection H as <- <-. destruct X3 as (k & Hk & -> & Hu). unfold same_frames in F5. rewrite F5. split; [done|]. split; [done|].
  rewrite seqZ_cons in H6 by lia. cbn in H6. injection H6 as <-. unfold has_buffer, first_frame. cbn [dma_20kb_buffer_paddr].
  rewrite Z.div_mul by lia. split; [lia|]. split; [done|exact Hu].
Qed.
Lemma own_same a0 s s' ds : same_frames s s' -> own a0 s ds -> own a0 s' ds.
Proof. unfold same_frames. intros E []. by constructor; rewrite ?E. Qed.
Lemma own_snoc a0 s s' ds d : own a0 s ds -> wf (A s') -> grows (A s) (A s') -> has_buffer (A s) (A s') d -> own a0 s' (ds ++ [d]).
Proof.
  intros [Hwf Hg Hb Ha] Hwf' Hg' (P1 & P2 & P3). constructor.
  - done.
  - by eapply grows_trans.
  - apply Forall_app. split; [eapply Forall_impl; [exact Hb|]; intros d' Hd'; by eapply has_buffer_grows|]. apply Forall_cons_2; [|apply Forall_nil_2].
    split; [done|]. split; [done|]. intros j Hj. destruct (P3 j Hj) as [Hf Hu]. split; [|done]. destruct (used a0 j) eqn:E; [|done].
    rewrite (Hg j) in Hf; [done|lia|done].
  - clear P1. induction ds as [|d' ds IH]; cbn [app]; [apply FOP_cons; [apply Forall_nil_2|apply FOP_nil]|].
    inversion_clear Ha as [|?? Hd' Ha']. apply Forall_cons in Hb as [Hb1 Hb]. apply FOP_cons; [|by apply IH]. apply Forall_app. split; [done|].
    apply Forall_cons_2; [|apply Forall_nil_2]. unfold apart. destruct Hb1 as (_ & Q2 & Q3).
    destruct (Z.le_gt_cases (first_frame d' + 5) (first_frame d)); [by left|]. destruct (Z.le_gt_cases (first_frame d + 5) (first_frame d')); [by right|].
    exfalso. set (j := Z.max (first_frame d) (first_frame d')). destruct (P3 j ltac:(lia)) as [Hf _]. destruct (Q3 j ltac:(lia)) as [_ Hu]. congruence.
Qed.
Lemma own_grown a0 s s' ds : own a0 s ds -> wf (A s') -> grows (A s) (A s') -> own a0 s' ds.
Proof.
  intros [Hwf Hg Hb Ha] Hwf' Hg'. constructor; [done|by eapply grows_trans| |done]. eapply Forall_impl; [exact Hb|]. intros d Hd. by eapply has_buffer_grows.
Qed.
Lemma probe_own a0 fuel self n pi i ds s ds' s' : own a0 s ds ->
  probe_port controller hhdm_offset phys_addr virt_add identify_buffer fuel self n pi i ds s = (Ok ds', s') -> own a0 s' ds'.
Proof.
  intros Ho H. unfold probe_port in H. destruct (_ =? 0); [by injection H as <- <-|].
  apply M_bind_ok in H as (a & s1 & H1 & H). injection H1 as _ <-. apply M_bind_ok in H as (b & s2 & H2 & H). injection H2 as _ <-.
  apply M_bind_ok in H as (o & s3 & H3 & H). apply sata_new_ok in H3 as (W3 & G3 & B3); [|apply Ho].
  destruct o as [d|]; [|injection H as <- <-; by eapply own_grown].
  apply M_bind_ok in H as ([r d'] & s4 & H4 & H). pose proof (frames_drive _ _ _ _ _ _ H4) as F4.
  assert (has_buffer (A s) (A s3) d') as B4.
  { unfold init_drive in H4. destruct (Ahci.init _ _ _ _ _) as [r' d1] eqn:E. apply (@init_kept _ W _ (controller (base self)) _ phys_addr hhdm_offset (fun _ => True)) in E as (E1 & _); [|done..].
    assert (d' = d1) as -> by (by destruct r'; injection H4). unfold has_buffer, first_frame in *. by rewrite E1. }
  assert (ds' = match r with Ok _ => ds ++ [d'] | _ => ds end /\ s' = s4) as [-> ->] by (by injection H).
  eapply own_same; [exact F4|]. destruct r; [by eapply own_snoc|by eapply own_grown..].
Qed.
Lemma for_own {X} a0 (f : X -> list (AhciSata W) -> M (Disks W) never (list (AhciSata W))) xs :
  (forall x ds s ds' s', own a0 s ds -> f x ds s = (Ok ds', s') -> own a0 s' ds') ->
  forall ds s ds' s', own a0 s ds -> for_each xs ds f s = (Ok ds', s') -> own a0 s' ds'.
Proof.
  intros Hf. induction xs as [|x xs IH]; intros ds s ds' s' Ho H; cbn [for_each] in H; [by injection H as <- <-|].
  apply M_bind_ok in H as (ds1 & s1 & H1 & H). eapply IH; [|exact H]. by eapply Hf.
Qed.
Lemma own_app a0 s s' ds1 ds2 : own a0 s ds1 -> own (A s) s' ds2 -> own a0 s' (ds1 ++ ds2).
Proof.
  intros Ho1 [Hwf' Hg' Hb2 Ha2]. pose proof (own_grown a0 s s' ds1 Ho1 Hwf' Hg') as [_ Hg Hb _]. destruct Ho1 as [Hwf Hg1 Hb1 Ha1]. constructor; [done|done| |].
  - apply Forall_app. split; [done|]. eapply Forall_impl; [exact Hb2|]. intros d (P1 & P2 & P3). split; [done|]. split; [done|]. intros j Hj.
    destruct (P3 j Hj) as [Hf Hu]. split; [|done]. destruct (used a0 j) eqn:E; [|done]. rewrite (Hg1 j) in Hf; [done|lia|done].
  - clear Hb. induction ds1 as [|d ds1 IH]; cbn [app]; [done|]. inversion_clear Ha1 as [|?? Hd Ha1']. apply Forall_cons in Hb1 as [(_ & Q2 & Q3) Hb1].
    apply FOP_cons; [|by apply IH]. apply Forall_app. split; [done|]. eapply Forall_impl; [exact Hb2|]. intros d2 (_ & P2 & P3). unfold apart.
    destruct (Z.le_gt_cases (first_frame d + 5) (first_frame d2)); [by left|]. destruct (Z.le_gt_cases (first_frame d2 + 5) (first_frame d)); [by right|].
    exfalso. set (j := Z.max (first_frame d) (first_frame d2)). destruct (P3 j ltac:(lia)) as [Hf _]. destruct (Q3 j ltac:(lia)) as [_ Hu]. congruence.
Qed.
Lemma own_nil s : wf (A s) -> own (A s) s [].
Proof. intros Hwf. constructor; [done|by intros j|apply Forall_nil_2|apply FOP_nil]. Qed.
Definition owning (m : M (Disks W) never (list (AhciSata W))) : Prop := forall a0 s ds s', own a0 s [] -> m s = (Ok ds, s') -> own a0 s' ds.
Lemma owning_bind {X} (m : M (Disks W) never X) f : respects same_frames m -> (forall x, owning (f x)) -> owning (m ≫= f).
Proof. intros Hm Hf a0 s ds s' Ho H. apply M_bind_ok in H as (x & s1 & H1 & H). eapply Hf; [|exact H]. eapply own_same; [by eapply Hm|done]. Qed.
Lemma owning_nil : owning (mret []).
Proof. intros a0 s ds s' Ho H. by injection H as <- <-. Qed.
Lemma init_own fuel self : owning (AhciHba_init controller hhdm_offset lapic phys_addr virt_add identify_buffer fuel self).
Proof.
  unfold AhciHba_init. repeat first [apply owning_nil | apply owning_bind; [first [apply frames_find|apply frames_msi|solve [framing]]|intros ?]
    | match goal with |- owning (if ?b then _ else _) => destruct b | |- owning (match ?x with _ => _ end) => destruct x end].
  intros a0 s ds s' Ho H. eapply for_own; [|exact Ho|exact H]. intros i ds1 s1 ds2 s2. apply probe_own.
Qed.
Lemma start_own fuel a0 d ds s ds' s' : own a0 s ds ->
  start_controller controller hhdm_offset lapic phys_addr virt_add identify_buffer fuel d ds s = (Ok ds', s') -> own a0 s' ds'.
Proof.
  intros Ho H. unfold start_controller in H. destruct (is_ahci d); [|by injection H as <- <-].
  apply M_bind_ok in H as (i & s1 & H1 & H). assert (same_frames s s1) as F1 by (by injection H1 as <- <-).
  apply M_bind_ok in H as (hba & s2 & H2 & H). apply taken_new in H2 as F2. apply M_bind_ok in H as (new & s3 & H3 & H).
  pose proof (own_same a0 _ _ ds F1 Ho) as Ho1. destruct (allocates_grows _ _ F2 (o_wf _ _ _ Ho1)) as [W2 G2].
  pose proof (own_grown a0 _ _ ds Ho1 W2 G2) as Ho2. apply (init_own _ _ (A s2)) in H3; [|apply own_nil, Ho2].
  injection H as <- <-. by eapply own_app.
Qed.
(** C23: every drive has a buffer of its own.  Whatever controllers and drives
    there are, if the drives are identified, each of them has 20 KiB of memory
    at a page boundary for the commands and answers, in frames that were free
    before and are allocated afterwards; the buffers of two drives do not
    overlap; and no frame has been given back.  The page tables for the
    registers of the controllers take their frames from the same allocator in
    between. *)
Theorem drives_own_buffers fuel tree s ds s' : wf (A s) ->
  identify_storage_devices controller hhdm_offset lapic phys_addr virt_add identify_buffer fuel tree s = (Ok ds, s') -> own (A s) s' ds.
Proof.
  intros Hwf H. unfold identify_storage_devices in H. destruct (tree !! MassStorage) as [m|]; [|injection H as <- <-; by apply own_nil].
  eapply for_own; [|by apply own_nil|exact H]. intros. by eapply start_own.
Qed.
End drives.

(** ** Capabilities and messages *)
Section messages.
Context `{BB : Build} {W : Type} {HM : Machine W} {HB : Bitfield} {HL : BitfieldLaws} {HBus : Bus W}.
Context (lapic : Z) (virt_add : Z -> Z -> option Z).
Implicit Types s : Disks W.
Abbreviation w s := (machine (timing s)).
Definition after s (x : W) : Disks W := with_timing (with_machine (timing s) x) s.
(** The capabilities from an offset on: their offsets, ids and the next ones *)
Fixpoint chain (loc node : Z) (caps : list (Z * Z)) (x : W) : Prop :=
  match caps with
  | [] => False
  | [(off, id)] => node = id
  | (off, id) :: ((off', _) :: _) as rest =>
      node = id + 256 * off' /\ exists node', load_at 2 (loc + off') x = (node', x) /\ chain loc node' rest x
  end.
Definition caps_ok (caps : list (Z * Z)) : Prop := Forall (fun c => 0 < c.1 < 256 /\ 0 <= c.2 < 256) caps.
Lemma after_same s : after s (w s) = s.
Proof. by destruct s as [[]]. Qed.
(** The search for the message capability.  If the configuration space has
    a list of capabilities, the loop ends after as many rounds as it has
    entries.  It finds out whether the capability for message interrupts is one
    of them, but what it returns as its address is that of the first capability
    in the list, whichever it is. *)
Theorem capability_search fuel loc ptr node caps s : chain loc node caps (w s) -> caps_ok caps -> (length caps <= fuel)%nat ->
  (forall a b, 0 <= b < 256 -> a = loc -> virt_add a b = Some (a + b)) ->
  find_msi virt_add fuel loc ptr node s = (Ok (if existsb (fun c => c.2 =? MSI) caps then Some ptr else None), s).
Proof.
  intros Hc Hok Hf Hva. revert fuel node Hc Hf. induction caps as [|[off id] caps IH]; intros fuel node Hc Hf; [done|].
  apply Forall_cons in Hok as [[Hoff Hid] Hok]. cbn [fst snd] in *. destruct fuel as [|fuel]; [cbn in Hf; lia|].
  destruct caps as [|[off' id'] caps].
  - cbn in Hc. subst node. cbn [find_msi existsb snd]. rewrite Z.mod_small by lia. rewrite orb_false_r. destruct (id =? MSI); [done|]. by rewrite Z.div_small by lia.
  - destruct Hc as (-> & node' & Hl & Hc). cbn [find_msi existsb snd]. assert ((id + 256 * off') mod 256 = id) as ->.
    { rewrite Z.mul_comm, Z.mod_add by lia. by apply Z.mod_small. }
    destruct (id =? MSI); [done|]. cbn [orb]. assert ((id + 256 * off') / 256 = off') as ->.
    { rewrite Z.mul_comm, Z.div_add by lia. rewrite Z.div_small; lia. }
    apply Forall_cons in Hok as Hok'. destruct Hok' as [[Hoff' _] _]. cbn [fst] in Hoff'. bfalse (off' =? 0). unfold vadd'. rewrite Hva by (done || lia). cbn [expect]. mstep.
    assert (bus_read 2 (loc + off') s = (Ok node', s)) as Hr.
    { unfold bus_read, timed, reading. rewrite Hl. f_equal. apply after_same. }
    mrun Hr. apply IH; [done|done|cbn in *; lia].
Qed.

Lemma message_address id : 0 <= id < 2 ^ 32 -> with_bits 19 12 id default_addr = 0xFEE00000 + 4096 * (id mod 256).
Proof.
  intros Hid. assert (default_addr = 0xFEE00000) as ->.
  { unfold default_addr. rewrite with_bits_eq by lia. vm_compute. reflexivity. }
  rewrite with_bits_eq by lia. change (19 + 1 - 12) with 8. change (2 ^ 8) with 256. change (Z.ldiff 0xFEE00000 (Z.shiftl (Z.ones 8) 12)) with 0xFEE00000.
  rewrite Z.shiftl_mul_pow2 by lia. pose proof (Z.mod_pos_bound id 256 ltac:(lia)). rewrite Z.lor_comm.
  pose proof (lor_shiftl_add 20 (id mod 256 * 2 ^ 12) 0xFEE ltac:(lia) ltac:(lia)) as E. change (Z.shiftl 0xFEE 20) with 0xFEE00000 in E. rewrite E. lia.
Qed.
Lemma message_data v : 0 <= v < 256 -> with_bits 7 0 v default_data = v.
Proof.
  intros Hv. assert (default_data = 0) as ->.
  { unfold default_data. rewrite !with_bits_eq by lia. vm_compute. reflexivity. }
  rewrite with_bits_eq by lia. change (7 + 1 - 0) with 8. rewrite Z.mod_small by (change (2 ^ 8) with 256; lia). rewrite Z.shiftl_0_r. by rewrite Z.ldiff_0_l, Z.lor_0_l.
Qed.
Lemma read_at_run n a b c s v x : virt_add a b = Some c -> load_at n c (w s) = (v, x) -> read_at virt_add n a b s = (Ok v, after s x).
Proof. intros Hc Hl. unfold read_at, vadd'. rewrite Hc. cbn [expect]. mstep. unfold bus_read, timed, reading. by rewrite Hl. Qed.
Lemma write_at_run n a b c v s : virt_add a b = Some c -> write_at virt_add n a b v s = (Ok (), after s (store_at n c v (w s))).
Proof. intros Hc. unfold write_at, vadd'. rewrite Hc. cbn [expect]. by mstep. Qed.
(** Messages go to the processor with number 0.  Configuring the message
    interrupts of a controller writes the vector of the controller, and as the
    destination always 0: the number of the processor is in the upper byte of
    its register, and the code takes the lower one.  Nothing else is written but
    the upper half of the address, if there is one, and the bit that enables the
    messages. *)
Theorem messages_to_processor_0 i node n s c c' w1 w2 w3 w4 w5 : 0 <= i < 8 -> 0 <= n < 256 ->
  (forall off, 0 <= off < 0x10 -> virt_add node off = Some (node + off)) -> virt_add lapic 0x20 = Some (lapic + 0x20) ->
  load_at 2 (node + 2) (w s) = (c, w1) -> load_at 4 (lapic + 0x20) w1 = (n * 2 ^ 24, w2) -> w3 = store_at 4 (node + 4) 0xFEE00000 w2 ->
  w4 = (if Z.testbit c 7 then store_at 4 (node + 0xc) (0x30 + i) (store_at 4 (node + 8) 0 w3) else store_at 4 (node + 8) (0x30 + i) w3) ->
  load_at 2 (node + 2) w4 = (c', w5) ->
  configure_msi lapic virt_add i node s = (Ok (), after s (store_at 2 (node + 2) (Z.lor c' 1) w5)).
Proof using All.
  intros Hi Hn Hnode Hlapic L1 L2 -> E4 L3. unfold configure_msi.
  pose proof (read_at_run 2 node 2 _ s c w1 (Hnode 2 ltac:(lia)) L1) as R1. mrun R1. rewrite wrap_small by lia. rewrite uadd_ok by (unfold AHCI_INTERRUPT_HANDLER_IDX; lia). mstep.
  pose proof (read_at_run 4 lapic 0x20 _ (after s w1) (n * 2 ^ 24) w2 Hlapic L2) as R2. mrun R2. change (after (after s w1) w2) with (after s w2).
  rewrite message_address by lia. replace ((n * 2 ^ 24) mod 256) with 0 by (rewrite <- (Z.mod_mul (n * 2 ^ 16) 256) by lia; f_equal; lia).
  rewrite message_data by (unfold AHCI_INTERRUPT_HANDLER_IDX; lia). rewrite bit_of_ok by lia.
  mrun (write_at_run 4 node 4 _ (0xFEE00000 + 4096 * 0) (after s w2) (Hnode 4 ltac:(lia))).
  set (w3 := store_at 4 (node + 4) 0xFEE00000 w2) in *.
  assert ((if Z.testbit c 7 then _ ← write_at virt_add 4 node message_upper_addr_register 0; write_at virt_add 4 node message_data_register_64_bit (AHCI_INTERRUPT_HANDLER_IDX + i)
    else write_at virt_add 4 node message_data_register (AHCI_INTERRUPT_HANDLER_IDX + i)) (after s w3) = (Ok (), after s w4)) as R4.
  { rewrite E4. destruct (Z.testbit c 7).
    - mrun (write_at_run 4 node 8 _ 0 (after s w3) (Hnode 8 ltac:(lia))). by rewrite (write_at_run 4 node 0xc _ _ _ (Hnode 0xc ltac:(lia))).
    - by rewrite (write_at_run 4 node 8 _ _ _ (Hnode 8 ltac:(lia))). }
  mrun R4. pose proof (read_at_run 2 node 2 _ (after s w4) c' w5 (Hnode 2 ltac:(lia)) L3) as R5. mrun R5.
  by rewrite (write_at_run 2 node 2 _ _ _ (Hnode 2 ltac:(lia))).
Qed.
End messages.

(** ** Controllers the kernel does not survive *)
(** What stays as it is: the base registers of the device at [loc] unless they
    are written, and the pages that are mapped.  A page that is mapped is not
    mapped again. *)
Class BusLaws (W : Type) (controller : Z -> Controller W) (loc : Z) `{Machine W, Bus W} := {
  bar : W -> Z -> Z;
  mapped : W -> Z -> bool;
  load_bar a x : a = loc + reg_bar4 \/ a = loc + reg_bar5 -> (load_at 4 a x).1 = bar x a;
  load_stays n a x : bar (load_at n a x).2 = bar x /\ mapped (load_at n a x).2 = mapped x;
  store_stays n a v x : a + n <= loc + reg_bar4 \/ loc + reg_bar5 + 4 <= a -> bar (store_at n a v x) = bar x /\ mapped (store_at n a v x) = mapped x;
  rdtsc_stays x : bar (rdtsc x).2 = bar x /\ mapped (rdtsc x).2 = mapped x;
  mmio_read_stays b r x : bar (@mmio_read W (controller b) r x).2 = bar x /\ mapped (@mmio_read W (controller b) r x).2 = mapped x;
  mmio_write_stays b r v x : bar (@mmio_write W (controller b) r v x) = bar x /\ mapped (@mmio_write W (controller b) r v x) = mapped x;
  clear_stays a x : bar (clear_page a x) = bar x /\ mapped (clear_page a x) = mapped x;
  flags_stay a x x' : update_flags a x = Some x' -> bar x' = bar x /\ mapped x' = mapped x;
  map_maps v p a x a' x' : map_4k v p (a, x) = Some (a', x') -> bar x' = bar x /\ mapped x' v = true;
  map_once v p a x : mapped x v = true -> map_4k v p (a, x) = None;
  caps_beyond x : 0x40 <= (load_at 1 (loc + reg_capabilities_ptr) x).1;
}.
Section refused.
Context `{BB : Build} {W : Type} {HM : Machine W} {HB : Bitfield} {HBus : Bus W} (controller : Z -> Controller W).
Context (hhdm_offset lapic : Z) (phys_addr : Z -> option Z) (virt_add : Z -> Z -> option Z) (identify_buffer : Z -> Z).
Context (loc : Z) {HL : BusLaws W controller loc}.
Hypothesis virt_add_sum : forall a b c, virt_add a b = Some c -> c = a + b.
Implicit Types s : Disks W.
Abbreviation w s := (machine (timing s)).
Definition stays s s' : Prop := bar (w s') = bar (w s) /\ mapped (w s') = mapped (w s).
Lemma stays_refl s : stays s s.
Proof. done. Qed.
Lemma stays_trans s1 s2 s3 : stays s1 s2 -> stays s2 s3 -> stays s1 s3.
Proof. intros [? ?] [? ?]. split; congruence. Qed.
Lemma stays_reading {X} (f : W -> X * W) (m : M (Timers W) never X) : (forall t, m t = (Ok (f (machine t)).1, with_machine t (f (machine t)).2)) ->
  (forall x, bar (f x).2 = bar x /\ mapped (f x).2 = mapped x) -> respects stays (timed m).
Proof. intros Hm Hf s r s' H. unfold timed in H. rewrite Hm in H. injection H as <- <-. apply Hf. Qed.
Lemma stays_bus_read n a : respects stays (bus_read n a).
Proof.
  apply (stays_reading (load_at n a)); [|intros; apply load_stays]. intros t. unfold reading. by destruct (load_at n a (machine t)).
Qed.
Lemma stays_hba_read b r : respects stays (hba_read controller b r).
Proof.
  apply (stays_reading (@mmio_read W (controller b) r)); [|intros; apply mmio_read_stays]. intros t. unfold reading. by destruct (@mmio_read W (controller b) r (machine t)).
Qed.
Lemma stays_hba_write b r v : respects stays (hba_write controller b r v).
Proof. intros s x s' H. injection H as <- <-. apply mmio_write_stays. Qed.
Lemma stays_clear a : respects stays (timed (writing (clear_page a))).
Proof. intros s x s' H. injection H as <- <-. apply (clear_stays (loc:=loc)). Qed.
Lemma stays_set_flags p : respects stays (set_flags p).
Proof.
  intros s x s' H. unfold set_flags in H. destruct (update_flags p (w s)) eqn:E; injection H as <- <-; [|apply stays_refl]. by apply flags_stay in E.
Qed.
Lemma stays_frames n : respects stays (take_frames n).
Proof. intros s x s' H. unfold take_frames in H. destruct (allocate_continuous_frames _ _ _) as [[[]]|e| |]; by injection H as <- <-. Qed.
Lemma stays_drive fuel b sata : respects stays (init_drive controller hhdm_offset phys_addr identify_buffer fuel b sata).
Proof.
  intros s x s' H. unfold init_drive in H. destruct (Ahci.init _ _ _ _ _) as [r d] eqn:E.
  apply (@init_kept _ W _ (controller b) _ phys_addr hhdm_offset (fun x => bar x = bar (w s) /\ mapped x = mapped (w s))) in E as (_ & _ & E).
  - cbn in E. assert (bar (machine (timers d)) = bar (w s) /\ mapped (machine (timers d)) = mapped (w s)) as Hd by auto. destruct r; injection H as <- <-; exact Hd.
  - intros y [<- <-]. apply (rdtsc_stays (loc:=loc)).
  - intros r' y [<- <-]. apply mmio_read_stays.
  - intros r' v y [<- <-]. apply mmio_write_stays.
Qed.
Ltac staying := repeat first
  [ progress (respectful stays_refl stays_trans)
  | apply stays_bus_read | apply stays_hba_read | apply stays_hba_write | apply stays_clear | apply stays_set_flags | apply stays_frames | apply stays_drive
  | progress unfold vadd', read_at, clear_frame ].
Lemma stays_find fuel l ptr node : respects stays (find_msi virt_add fuel l ptr node).
Proof. revert node. induction fuel as [|fuel IH]; intros node; cbn [find_msi]; staying; apply IH. Qed.
Lemma find_msi_first fuel l ptr node s b s' : find_msi virt_add fuel l ptr node s = (Ok (Some b), s') -> b = ptr.
Proof.
  revert node s. induction fuel as [|fuel IH]; intros node s H; cbn [find_msi] in H; destruct (node mod 256 =? MSI), (node / 256 =? 0); try (by injection H as <- <-); try discriminate H.
  res_inv. by eapply IH.
Qed.
(** Stores beyond the base registers *)
Lemma stays_write n a b v : (forall c, virt_add a b = Some c -> c + n <= loc + reg_bar4 \/ loc + reg_bar5 + 4 <= c) -> respects stays (write_at virt_add n a b v).
Proof.
  intros Hc s x s' H. unfold write_at, vadd' in H. destruct (virt_add a b) as [c|] eqn:E; [|injection H as <- <-; apply stays_refl].
  injection H as <- <-. apply (store_stays (loc:=loc)). by apply Hc.
Qed.
Lemma stays_msi i node : loc + 0x40 <= node -> respects stays (configure_msi lapic virt_add i node).
Proof.
  intros Hn. unfold configure_msi. staying; apply stays_write; intros c Hc; apply virt_add_sum in Hc; right;
    unfold reg_bar5, message_addr_register, message_upper_addr_register, message_data_register, message_data_register_64_bit, message_control_register in *; lia.
Qed.
Lemma stays_probe fuel self n pi i ds : respects stays (probe_port controller hhdm_offset phys_addr virt_add identify_buffer fuel self n pi i ds).
Proof. unfold probe_port, AhciSata_new. staying. apply (resp_for _ stays_refl stays_trans). staying. Qed.
Lemma stays_init fuel self : location self = loc ->
  respects stays (AhciHba_init controller hhdm_offset lapic phys_addr virt_add identify_buffer fuel self).
Proof.
  intros Hloc. unfold AhciHba_init. rewrite Hloc. apply (resp_bind _ stays_trans); [staying|]. intros status. destruct (_ =? 0); [staying|].
  apply (resp_bind _ stays_trans); [staying|]. intros cmd. apply (resp_bind _ stays_trans).
  { apply stays_write. intros c Hc. apply virt_add_sum in Hc. left. unfold reg_command, reg_bar4 in *. lia. }
  intros _. apply (resp_bind_when _ stays_trans (fun v => 0x40 <= v)); [|staying|].
  { intros s v s' H. unfold read_at, vadd' in H. apply M_bind_ok in H as (c0 & s1 & H1 & H). injection H1 as E <-. destruct (virt_add loc reg_capabilities_ptr) as [c|] eqn:Ec; [|discriminate E]. injection E as <-.
    apply virt_add_sum in Ec as ->. unfold bus_read, timed, reading in H. destruct (load_at 1 _ _) as [v' x] eqn:El. injection H as <- _.
    pose proof (caps_beyond (controller:=controller) (w s)) as Hb. by rewrite El in Hb. }
  intros p8 Hp8. apply (resp_bind_when _ stays_trans (fun p => loc + 0x40 <= p)); [|staying|].
  { intros s v s' H. injection H as E ->. destruct (virt_add loc p8) as [c|] eqn:Ec; [|discriminate E]. injection E as <-. apply virt_add_sum in Ec. lia. }
  intros ptr Hptr. apply (resp_bind _ stays_trans); [staying|]. intros node.
  apply (resp_bind_when _ stays_trans (fun o => match o with Some b => b = ptr | None => True end)); [|apply stays_find|].
  { intros s [b|] s' H; [|done]. by apply find_msi_first in H. }
  intros [b|] Hb; [|staying]. subst b. apply (resp_bind _ stays_trans); [by apply stays_msi|]. staying. apply (resp_for _ stays_refl stays_trans). intros. apply stays_probe.
Qed.
(** The page the registers of the device at [loc] are mapped at *)
Definition phys_base (b5 b4 : Z) : Z :=
  let low := Z.land b5 0xFFFFFFF0 in
  if negb (Z.land b5 4 =? 0) then Z.lor low (wrap 64 (Z.shiftl b4 32)) else low.
Definition page_of (x : W) : Z := containing (hhdm_offset + phys_base (bar x (loc + reg_bar5)) (bar x (loc + reg_bar4))).
Lemma read_bar_inv r s v s' : r = reg_bar4 \/ r = reg_bar5 -> read_at virt_add 4 loc r s = (Ok v, s') -> v = bar (w s) (loc + r) /\ stays s s'.
Proof.
  intros Hr H. split; [|eapply (ltac:(staying) : respects stays (read_at virt_add 4 loc r)); exact H].
  unfold read_at, vadd' in H. apply M_bind_ok in H as (c0 & s1 & H1 & H). injection H1 as E <-. destruct (virt_add loc r) as [c|] eqn:Ec; [|discriminate E]. injection E as <-.
  apply virt_add_sum in Ec as ->. unfold bus_read, timed, reading in H. destruct (load_at 4 _ _) as [v' x] eqn:El. injection H as <- _.
  pose proof (load_bar (loc + r) (w s) ltac:(naive_solver)) as Hb. by rewrite El in Hb.
Qed.
Lemma new_maps i s hba s' : AhciHba_new hhdm_offset phys_addr virt_add loc i s = (Ok hba, s') ->
  location hba = loc /\ bar (w s') = bar (w s) /\ mapped (w s) (page_of (w s)) = false /\ mapped (w s') (page_of (w s)) = true.
Proof.
  intros H. unfold AhciHba_new in H. apply M_bind_ok in H as (b5 & s1 & H1 & H). apply read_bar_inv in H1 as [-> [B1 M1]]; [|by right].
  apply M_bind_ok in H as (b5 & s2 & H2 & H). apply read_bar_inv in H2 as [-> [B2 M2]]; [|by right]. rewrite B1 in *.
  apply M_bind_ok in H as (pb & s3 & H3 & H).
  assert (pb = phys_base (bar (w s) (loc + reg_bar5)) (bar (w s) (loc + reg_bar4)) /\ bar (w s3) = bar (w s) /\ mapped (w s3) = mapped (w s)) as (-> & B3 & M3).
  { unfold phys_base. destruct (negb _).
    - apply M_bind_ok in H3 as (u & s4 & H4 & H3). apply read_bar_inv in H4 as [-> [B4 M4]]; [|by left]. injection H3 as <- <-. rewrite B4, M4, B2, M2. done.
    - injection H3 as <- <-. rewrite B2, M2. done. }
  apply M_bind_ok in H as (b & s4 & H4 & H). injection H4 as E4 <-. destruct (virt_add hhdm_offset _) as [c|] eqn:Ec; [|discriminate E4]. injection E4 as <-.
  apply virt_add_sum in Ec as ->. apply M_bind_ok in H as (p & s5 & H5 & H). injection H5 as _ <-. apply M_bind_ok in H as ([] & s6 & H6 & H).
  unfold map_to in H6. fold (page_of (w s)) in H6. destruct (map_4k _ _ (_, w s3)) as [[a' x]|] eqn:Em; [|discriminate H6]. injection H6 as <-.
  apply M_bind_ok in H as ([] & s7 & H7 & H). injection H as <- <-. assert (w s7 = x) as E7.
  { unfold set_ports_map in H7. apply M_bind_ok in H7 as (m & t1 & T1 & H7). injection T1 as _ <-. apply M_bind_ok in H7 as (o & t2 & T2 & H7). injection T2 as _ <-.
    apply M_bind_ok in H7 as (m' & t3 & T3 & H7). injection T3 as _ <-. by injection H7 as <-. }
  rewrite E7. split; [done|]. destruct (mapped (w s) (page_of (w s))) eqn:Emp.
  - rewrite <- M3 in Emp. by rewrite (map_once _ _ _ _ Emp) in Em.
  - apply (map_maps (loc:=loc)) in Em as [Bx Mx]. rewrite Bx. done.
Qed.
Lemma started_once fuel d ds s ds1 s1 : address d = loc -> is_ahci d = true ->
  start_controller controller hhdm_offset lapic phys_addr virt_add identify_buffer fuel d ds s = (Ok ds1, s1) ->
  mapped (w s) (page_of (w s)) = false /\ mapped (w s1) (page_of (w s1)) = true.
Proof.
  intros Hd Ha H. unfold start_controller in H. rewrite Ha, Hd in H. apply M_bind_ok in H as (i & s2 & H2 & H).
  assert (w s2 = w s) as E2 by (by injection H2 as <- <-). apply M_bind_ok in H as (hba & s3 & H3 & H). apply new_maps in H3 as (Hl & B3 & F3 & M3). rewrite E2 in *.
  apply M_bind_ok in H as (new & s4 & H4 & H). apply stays_init in H4 as [B4 M4]; [|done]. injection H as <- <-. split; [done|].
  unfold page_of in *. by rewrite M4, B4, B3.
Qed.
Lemma concat_at {X} (f : Z -> list X) k n : 0 <= k < n -> exists pre post, concat (f <$> seqZ 0 n) = pre ++ f k ++ post.
Proof.
  intros Hk. replace n with (k + (1 + (n - k - 1))) by lia. rewrite seqZ_app by lia. rewrite fmap_app, concat_app. rewrite Z.add_0_l, (seqZ_cons k) by lia. cbn [fmap list_fmap concat].
  by eexists _, _.
Qed.
(** A controller that is recorded twice stops the kernel.  If the tree of
    devices has the same AHCI controller twice in a row, as it has whenever the
    scan met another storage controller first, the drives are never identified:
    the page of its registers is mapped for a second time, which panics. *)
Theorem repeated_controller_refused fuel (tree : Devices) d rest s r s' : address d = loc -> is_ahci d = true ->
  found tree MassStorage Sata AhciProgIf = d :: d :: rest ->
  identify_storage_devices controller hhdm_offset lapic phys_addr virt_add identify_buffer fuel tree s <> (Ok r, s').
Proof.
  intros Hd Ha Hf H. unfold found in Hf. unfold identify_storage_devices in H. destruct (tree !! MassStorage) as [m|]; [|done]. cbn [mbind option_bind] in Hf.
  destruct (m !! Sata) as [m'|] eqn:Em; [|done]. cbn [mbind option_bind] in Hf.
  assert (exists pre post, in_order m = pre ++ (d :: d :: rest) ++ post) as (pre & post & E).
  { unfold in_order.
    match goal with |- context [concat (?f <$> seqZ 0 256)] => destruct (concat_at f Sata 256 ltac:(by split)) as (p1 & q1 & ->) end.
    rewrite Em. destruct (concat_at (fun p => default [] (m' !! p)) AhciProgIf 256 ltac:(by split)) as (p2 & q2 & ->). rewrite Hf.
    exists (p1 ++ p2), (q2 ++ q1). by rewrite <- !app_assoc. }
  rewrite E in H. clear E. revert H. generalize (@nil (AhciSata W)). revert s. induction pre as [|d' pre IH]; intros s ds H; cbn [app for_each] in H.
  - apply M_bind_ok in H as (ds1 & s1 & H1 & H). apply M_bind_ok in H as (ds2 & s2 & H2 & _).
    apply started_once in H1 as [_ H1]; [|done..]. apply started_once in H2 as [H2 _]; [|done..]. congruence.
  - apply M_bind_ok in H as (ds1 & s1 & _ & H). by eapply IH.
Qed.
End refused.

Section many.
Context `{BB : Build} {W : Type} {HM : Machine W} {HB : Bitfield} {HBus : Bus W} (controller : Z -> Controller W).
Context (hhdm_offset lapic : Z) (phys_addr : Z -> option Z) (virt_add : Z -> Z -> option Z) (identify_buffer : Z -> Z).
Implicit Types s : Disks W.
Definition same_count s s' : Prop := CUR_AHCI_IDX s' = CUR_AHCI_IDX s /\ length (AHCI_PORTS_MAP s') = length (AHCI_PORTS_MAP s).
Lemma same_count_refl s : same_count s s.
Proof. done. Qed.
Lemma same_count_trans s1 s2 s3 : same_count s1 s2 -> same_count s2 s3 -> same_count s1 s3.
Proof. intros [? ?] [? ?]. split; congruence. Qed.
Lemma count_timed {X} (m : M (Timers W) never X) : respects same_count (timed m).
Proof. intros s r s' H. unfold timed in H. destruct (m (timing s)). by injection H as <- <-. Qed.
Lemma count_map_to p f : respects same_count (map_to p f).
Proof. intros s r s' H. unfold map_to in H. destruct (map_4k p f _) as [[]|]; by injection H as <- <-. Qed.
Lemma count_set_flags p : respects same_count (set_flags p).
Proof. intros s r s' H. unfold set_flags in H. destruct (update_flags p _); by injection H as <- <-. Qed.
Lemma count_frames n : respects same_count (take_frames n).
Proof. intros s x s' H. unfold take_frames in H. destruct (Memory.allocate_continuous_frames _ _ _) as [[[]]|e| |]; by injection H as <- <-. Qed.
Lemma count_drive fuel b sata : respects same_count (init_drive controller hhdm_offset phys_addr identify_buffer fuel b sata).
Proof. intros s r s' H. unfold init_drive in H. destruct (Ahci.init _ _ _ _ _) as [[]]; by injection H as <- <-. Qed.
Ltac counting := repeat first
  [ progress (respectful same_count_refl same_count_trans)
  | apply count_timed | apply count_map_to | apply count_set_flags | apply count_frames | apply count_drive
  | progress unfold vadd', read_at, write_at, bus_read, bus_write, hba_read, hba_write, clear_frame ].
Lemma count_find fuel loc ptr node : respects same_count (find_msi virt_add fuel loc ptr node).
Proof. revert node. induction fuel as [|fuel IH]; intros node; cbn [find_msi]; counting; apply IH. Qed.
Lemma count_init fuel self : respects same_count (AhciHba_init controller hhdm_offset lapic phys_addr virt_add identify_buffer fuel self).
Proof.
  unfold AhciHba_init, configure_msi. counting; [apply count_find|]. apply (resp_for _ same_count_refl same_count_trans). intros. unfold probe_port, AhciSata_new.
  counting. apply (resp_for _ same_count_refl same_count_trans). counting.
Qed.
Lemma count_ports_map i b s x s' : set_ports_map i b s = (Ok x, s') -> 0 <= i < zlen (AHCI_PORTS_MAP s) /\ same_count s s'.
Proof.
  intros H. unfold set_ports_map in H. apply M_bind_ok in H as (m & s1 & H1 & H). injection H1 as <- <-. apply M_bind_ok in H as (o & s2 & H2 & H). injection H2 as H2 <-.
  apply index_inv in H2 as [Hi _]. split; [done|]. apply M_bind_ok in H as (m' & s3 & H3 & H). injection H3 as H3 <-. rewrite update_ok in H3 by done. injection H3 as <-.
  injection H as <- <-. split; [done|]. cbn. by rewrite length_insert.
Qed.
Lemma count_new loc i s hba s' : AhciHba_new hhdm_offset phys_addr virt_add loc i s = (Ok hba, s') -> 0 <= i < zlen (AHCI_PORTS_MAP s) /\ same_count s s'.
Proof.
  intros H. unfold AhciHba_new in H.
  apply M_bind_ok in H as (b5 & s1 & H1 & H). apply (ltac:(counting) : respects same_count (read_at virt_add 4 loc reg_bar5)) in H1.
  apply M_bind_ok in H as (b5' & s2 & H2 & H). apply (ltac:(counting) : respects same_count (read_at virt_add 4 loc reg_bar5)) in H2.
  apply M_bind_ok in H as (pb & s3 & H3 & H). assert (same_count s2 s3) as C3.
  { destruct (negb _); [|injection H3 as _ <-; apply same_count_refl]. apply M_bind_ok in H3 as (b4 & s4 & H4 & H3).
    apply (ltac:(counting) : respects same_count (read_at virt_add 4 loc reg_bar4)) in H4. by injection H3 as _ <-. }
  apply M_bind_ok in H as (b & s4 & H4 & H). injection H4 as _ <-. apply M_bind_ok in H as (p & s5 & H5 & H). injection H5 as _ <-.
  apply M_bind_ok in H as ([] & s6 & H6 & H). apply count_map_to in H6. apply M_bind_ok in H as ([] & s7 & H7 & H). apply count_ports_map in H7 as [Hi C7]. injection H as <- <-.
  pose proof (same_count_trans _ _ _ (same_count_trans _ _ _ (same_count_trans _ _ _ H1 H2) C3) H6) as C6. destruct C6 as [? El]. unfold zlen in Hi. rewrite El in Hi.
  split; [done|]. eapply same_count_trans; [|exact C7]. done.
Qed.
Lemma start_counts fuel d ds s ds' s' : length (AHCI_PORTS_MAP s) = 8%nat ->
  start_controller controller hhdm_offset lapic phys_addr virt_add identify_buffer fuel d ds s = (Ok ds', s') ->
  length (AHCI_PORTS_MAP s') = 8%nat /\ if is_ahci d then CUR_AHCI_IDX s < 8 /\ CUR_AHCI_IDX s' = wrap 8 (CUR_AHCI_IDX s + 1) else CUR_AHCI_IDX s' = CUR_AHCI_IDX s.
Proof.
  intros Hl H. unfold start_controller in H. destruct (is_ahci d); [|by injection H as <- <-]. apply M_bind_ok in H as (i & s1 & H1 & H). injection H1 as <- <-.
  apply M_bind_ok in H as (hba & s2 & H2 & H). apply count_new in H2 as [Hi [C2 L2]]. apply M_bind_ok in H as (new & s3 & H3 & H). apply count_init in H3 as [C3 L3].
  injection H as <- <-. unfold zlen in Hi. cbn in Hi, C2, L2. rewrite L3, C3, C2, L2. split; [done|]. split; [lia|done].
Qed.
(** The kernel does not survive a ninth controller.  The comment and the
    message say that it is skipped, but the test only prints: with more than
    eight AHCI controllers in the tree the drives are never identified, because
    the table of controllers is indexed beyond its end. *)
Theorem ninth_controller_refused fuel (tree : Devices) m s r s' : tree !! MassStorage = Some m -> (8 < length (List.filter is_ahci (in_order m)))%nat ->
  CUR_AHCI_IDX s = 0 -> length (AHCI_PORTS_MAP s) = 8%nat ->
  identify_storage_devices controller hhdm_offset lapic phys_addr virt_add identify_buffer fuel tree s <> (Ok r, s').
Proof.
  intros Hm Hn Hc Hl H. unfold identify_storage_devices in H. rewrite Hm in H. clear Hm.
  assert (0 <= CUR_AHCI_IDX s <= 8) as Hb by lia. assert (8 - CUR_AHCI_IDX s < zlen (List.filter is_ahci (in_order m))) as Hn' by (unfold zlen; lia). clear Hc Hn.
  revert s Hl Hb Hn' H. generalize (@nil (AhciSata W)). generalize (in_order m). clear tree m.
  intros l. induction l as [|d l IH]; intros ds s Hl Hb Hn H; [cbn in Hn; unfold zlen in Hn; cbn in Hn; lia|].
  cbn [for_each] in H. apply M_bind_ok in H as (ds1 & s1 & H1 & H). apply start_counts in H1 as [L1 C1]; [|done]. cbn [List.filter] in Hn.
  destruct (is_ahci d).
  - destruct C1 as [Hlt C1]. rewrite wrap_small in C1 by lia. rewrite zlen_cons in Hn. eapply (IH ds1 s1); [done|lia|lia|exact H].
  - eapply (IH ds1 s1); [done|lia|lia|exact H].
Qed.
End many.

Module SampleHba.
Import SampleAhci.
Record World := { chip : SampleAhci.Chip; pages : list Z }.
Definition hhdm : Z := 0xFFFF800000000000.
Definition loc : Z := hhdm + 0xC0000000.
Definition lapic : Z := hhdm + 0xFEE00000.
(** A page table takes a frame each time a page is mapped.  A controller whose
    message capability is the second one, and the local APIC of processor 2 *)
Definition rom (a : Z) : Z :=
  if a =? loc + 0x06 then 0x10 else if a =? loc + 0x24 then 0xFEB00000 else if a =? loc + 0x34 then 0x40
  else if a =? loc + 0x40 then 0x5001 else if a =? loc + 0x50 then 0x0005 else if a =? lapic + 0x20 then 2 * 2 ^ 24 else 0.
#[export] Instance world_machine : Machine World := {
  rdtsc x := let '(v, c) := rdtsc (chip x) in (v, {| chip := c; pages := pages x |});
  inb _ x := (0, x);
  outb _ _ x := x;
  apic_read _ x := (0, x);
  apic_write _ _ x := x;
}.
#[export] Instance world_bus : Bus World := {
  load_at _ a x := (rom a, x);
  store_at _ _ _ x := x;
  map_4k v _ p :=
    if bool_decide (v ∈ pages p.2) then None
    else match allocate_frame (H:=dev_build) p.1 None with
         | Ok (Some _, a, _) => Some (a, {| chip := chip p.2; pages := v :: pages p.2 |})
         | _ => None
         end;
  update_flags _ x := Some x;
  clear_page _ x := x;
}.
#[export] Instance world_frames : BusFrames (H:=dev_build) World.
Proof.
  split. intros v p a x a' x'. cbn. destruct (bool_decide _); [done|]. destruct (allocate_frame a None) as [[[[f|] a1] c]|e| |] eqn:E; [|done..].
  intros [= <- _]. eapply allocates_frame; [exact E|apply allocates_none].
Qed.
(** One port with a drive, four command slots, 64-bit addresses *)
Definition controller (_ : Z) : Controller World := {|
  mmio_read off x :=
    (if off =? reg_cap then 2 ^ 31 + 0x300 else if off =? reg_pi then 1
     else if off =? HBA_PORT_PORTS_OFFSET + port_offset signature then SATA_SIG else (mmio_read off (chip x)).1, x);
  mmio_write off v x := {| chip := mmio_write off v (chip x); pages := pages x |};
  memory_at a n x := memory_at a n (chip x);
|}.
#[export] Program Instance world_laws : BusLaws World controller loc := { bar _ a := rom a; mapped x v := bool_decide (v ∈ pages x) }.
Next Obligation. done. Qed.
Next Obligation. done. Qed.
Next Obligation. done. Qed.
Next Obligation. done. Qed.
Next Obligation. done. Qed.
Next Obligation. done. Qed.
Next Obligation. done. Qed.
Next Obligation. intros a x x' [= <-]. done. Qed.
Next Obligation.
  intros v p a x a' x'. cbn. destruct (bool_decide _); [done|]. destruct (allocate_frame a None) as [[[[f|] a1] c]|e| |]; [|done..].
  intros [= _ <-]. split; [done|]. apply bool_decide_eq_true_2, list_elem_of_here.
Qed.
Next Obligation. intros v p a x. cbn. by intros ->. Qed.
Next Obligation. intros x. by vm_compute. Qed.
Lemma virt_add_sum a b c : SampleAcpi.virt_add a b = Some c -> c = a + b.
Proof. unfold SampleAcpi.virt_add, SampleAcpi.virt_addr. destruct (SampleAcpi.is_canonical _); [|done]. by intros [= <-]. Qed.
Definition header : PciHeaderPartial :=
  {| vendor_id := 0x8086; device_id := 0x2922; command := 7; status := 0x10; revision_id := 2; prog_if := 1; subclass := 6; class_code := 1;
     cache_line_size := 0; latency_timer := 0; header_type := 0 |}.
Definition device (k : Z) : PciDevice := {| address := loc + 0x1000 * k; header_partial := header |}.
Definition tree (ds : list PciDevice) : Devices := {[1 := {[6 := {[1 := ds]}]}]}.
Definition allocator : BitmapAllocator := {| bitmap := {| start := 0; blength := 2; page_length := 1; mem := [0x01; 0x00] |}; next := 0 |}.
Lemma allocator_wf : wf allocator.
Proof. split; [split; [done|by apply bytes_check|vm_compute; congruence]|vm_compute; split; congruence]. Qed.
Definition start : Disks World :=
  Build_Disks {| machine := {| chip := {| SampleAhci.counter := 0; SampleAhci.regs := [] |}; pages := [] |}; TSC_TIMER_TICKS_PER_MS := 1; TIME_AT_BOOT := 0;
                 tsc_offset := 0; apic_timer_ticks_per_ms := 0 |} allocator (replicate 8 None) 0.
Definition run (ds : list PciDevice) : res never (list (AhciSata World)) * Disks World :=
  @identify_storage_devices dev_build World _ SampleAhci.fields _ controller hhdm lapic SampleAhci.phys_addr SampleAcpi.virt_add (fun _ => hhdm + 0x20000) 6 (tree ds) start.
End SampleHba.
Import SampleHba.

Lemma drives_own_buffers_witness : exists d s', run [device 0] = (Ok [d], s') /\ dma_20kb_buffer_paddr d = 0x2000 /\ used (FRAME_ALLOCATOR s') 6 = true.
Proof.
  assert (match (run [device 0]).1 with Ok [d] => dma_20kb_buffer_paddr d = 0x2000 | _ => False end) as Hr by (vm_compute; reflexivity).
  destruct (run [device 0]) as [[[|d []]|e| |] s'] eqn:E; try (exfalso; exact Hr). exists d, s'. split; [reflexivity|]. split; [exact Hr|]. unfold run in E.
  apply (@drives_own_buffers dev_build World _ SampleAhci.fields _ _) in E; [|exact allocator_wf]. destruct E as [_ _ Hb _].
  apply Forall_cons in Hb as [(_ & _ & Hb) _]. apply Hb. unfold first_frame. rewrite Hr. by vm_compute.
Defined.
Lemma capability_search_witness :
  find_msi SampleAcpi.virt_add 2 loc (loc + 0x40) 0x5001 start = (Ok (Some (loc + 0x40)), start).
Proof.
  apply (capability_search SampleAcpi.virt_add 2 loc (loc + 0x40) 0x5001 [(0x40, 1); (0x50, 5)] start).
  - split; [done|]. by exists 5.
  - repeat constructor; cbn; lia.
  - cbn. lia.
  - intros a b Hb ->. apply SampleAcpi.virt_add_ok; [vm_compute; congruence|lia|]. unfold canonical, loc, hhdm. lia.
Defined.
Lemma messages_to_processor_0_witness :
  @configure_msi dev_build World SampleAhci.fields _ lapic SampleAcpi.virt_add 3 (loc + 0x50) start = (Ok (), after start (machine (timing start))).
Proof.
  rewrite (@messages_to_processor_0 dev_build World _ SampleAhci.fields SampleAhci.fields_laws _ lapic SampleAcpi.virt_add 3 (loc + 0x50) 2 start 0 0
    (machine (timing start)) (machine (timing start)) (machine (timing start)) (machine (timing start)) (machine (timing start))); [done|lia|lia| |done..].
  - intros off Ho. apply SampleAcpi.virt_add_ok; [vm_compute; congruence|lia|]. unfold canonical, loc, hhdm. lia.
Defined.
Lemma repeated_controller_refused_witness : ~ exists ds s', run [device 0; device 0] = (Ok ds, s').
Proof.
  intros (ds & s' & H). unfold run in H. revert H. apply (@repeated_controller_refused dev_build World _ SampleAhci.fields _ controller _ _ _ SampleAcpi.virt_add _ loc _ virt_add_sum 6 _ (device 0) [] start);
    by vm_compute.
Defined.
Lemma ninth_controller_refused_witness : ~ exists ds s', run (device <$> seqZ 0 9) = (Ok ds, s').
Proof.
  intros (ds & s' & H). unfold run in H. revert H. apply (@ninth_controller_refused dev_build World _ SampleAhci.fields _ controller _ _ _ _ _ 6 (tree (device <$> seqZ 0 9)) {[6 := {[1 := device <$> seqZ 0 9]}]} start).
  - by vm_compute.
  - vm_compute. lia.
  - done.
  - done.
Defined.
