(* ===== verification/Layouts.v ===== *)
(** * The structs that are shared with devices and disks

    The declarations of the structs that the kernel lays over bytes it did not
    write itself, or that a device reads: the superblock and its companions
    ([drivers/fs/ext2/mod.rs]), the tables of the firmware
    ([arch/x86_64/acpi/mod.rs], [apic.rs]), and what an AHCI port exchanges with
    its drive ([drivers/ata/sata/fis.rs], [command.rs]).  A declaration is the
    list of its fields with their sizes and alignments, and [find_field] places
    them by the rules of [repr(C)] and [repr(C, packed)].

    The other files read such structs at fixed places.  Shown here: that these are
    the places of the declared fields, that fields are inside their struct and do
    not overlap, that a field which is written changes no other, and that the
    regions of a port's memory are apart. *)

From S2P Require Import Prelude Bytes Ext2Layout Acpi Timer Ahci AhciTask.
From stdpp Require Import strings.
#[local] Open Scope string_scope.
#[local] Open Scope Z_scope.

(** ** Declarations *)
Record Field := { field_name : string; field_size : Z; field_align : Z }.
(** [repr(C, packed)], [repr(C)] and [repr(C, align(n))] *)
Inductive Repr := Packed | C | Aligned (n : Z).
Record Struct := { repr : Repr; fields : list Field }.
Definition u8 (f : string) : Field := {| field_name := f; field_size := 1; field_align := 1 |}.
Definition u16 (f : string) : Field := {| field_name := f; field_size := 2; field_align := 2 |}.
Definition u32 (f : string) : Field := {| field_name := f; field_size := 4; field_align := 4 |}.
Definition u64 (f : string) : Field := {| field_name := f; field_size := 8; field_align := 8 |}.
Definition array_of (n : Z) (x : Field) : Field := {| field_name := field_name x; field_size := n * field_size x; field_align := field_align x |}.

Definition padded (r : Repr) (at_ : Z) (x : Field) : Z :=
  match r with Packed => at_ | _ => at_ + (- at_) mod field_align x end.
(** Where a field is, and its size *)
Fixpoint find_field (r : Repr) (at_ : Z) (xs : list Field) (f : string) : option (Z * Z) :=
  match xs with
  | [] => None
  | x :: xs => let o := padded r at_ x in
               if bool_decide (field_name x = f) then Some (o, field_size x) else find_field r (o + field_size x) xs f
  end.
Fixpoint end_of (r : Repr) (at_ : Z) (xs : list Field) : Z :=
  match xs with [] => at_ | x :: xs => end_of r (padded r at_ x + field_size x) xs end.
Definition alignment (s : Struct) : Z :=
  let widest := foldr Z.max 1 (field_align <$> fields s) in match repr s with Packed => 1 | C => widest | Aligned n => Z.max n widest end.
Definition offset_of (s : Struct) (f : string) : option (Z * Z) := find_field (repr s) 0 (fields s) f.
Definition size_of (s : Struct) : Z := let e := end_of (repr s) 0 (fields s) in e + (- e) mod alignment s.
(** A field that is itself a struct *)
Definition inner (f : string) (s : Struct) : Field := {| field_name := f; field_size := size_of s; field_align := alignment s |}.
Definition packed (xs : list Field) : Struct := {| repr := Packed; fields := xs |}.
Definition in_c (xs : list Field) : Struct := {| repr := C; fields := xs |}.

(** A field's value in the bytes of a struct *)
Definition field_of (s : Struct) (f : string) (bs : list Z) : option Z := (fun '(o, n) => u_at (Z.to_nat n) o bs) <$> offset_of s f.

(** ** ext2 *)
Definition SuperBlock : Struct := packed [
  u32 "s_inodes_count"; u32 "s_blocks_count"; u32 "s_r_blocks_count"; u32 "s_free_blocks_count"; u32 "s_free_inodes_count";
  u32 "s_first_data_block"; u32 "s_log_block_size"; u32 "s_log_frag_size"; u32 "s_blocks_per_group"; u32 "s_frags_per_group";
  u32 "s_inodes_per_group"; u32 "s_mtime"; u32 "s_wtime"; u16 "s_mnt_count"; u16 "s_max_mnt_count"; u16 "s_magic"; u16 "s_state";
  u16 "s_errors"; u16 "s_minor_rev_level"; u32 "s_lastcheck"; u32 "s_checkinterval"; u32 "s_creator_os"; u32 "s_rev_level";
  u16 "s_def_resuid"; u16 "s_def_resgid"; u32 "s_first_ino"; u16 "s_inode_size"; u16 "s_block_group_nr"; u32 "s_feature_compat";
  u32 "s_feature_incompat"; u32 "s_feature_ro_compat"; array_of 16 (u8 "s_uuid"); array_of 16 (u8 "s_volume_name");
  array_of 64 (u8 "s_last_mounted"); u32 "s_algo_bitmap"; u8 "s_prealloc_blocks"; u8 "s_prealloc_dir_blocks"; u16 "s_padding1";
  array_of 16 (u8 "s_journal_uuid"); u32 "s_journal_inum"; u32 "s_journal_dev"; u32 "s_last_orphan"; array_of 4 (u32 "s_hash_seed");
  u8 "s_def_hash_version"; array_of 3 (u8 "reserved"); u32 "s_default_mount_opts"; u32 "s_first_meta_bg"].
Definition GroupDescriptor : Struct := packed [
  u32 "bg_block_bitmap"; u32 "bg_inode_bitmap"; u32 "bg_inode_table"; u16 "bg_free_blocks_count"; u16 "bg_free_inodes_count"; u16 "bg_used_dirs_count"].
Definition DirEntryPartial : Struct := packed [u32 "inode"; u16 "rec_len"; u16 "name_len"].

(** ** The firmware's tables *)
Definition Rsdp : Struct := packed [
  array_of 8 (u8 "signature"); u8 "checksum"; array_of 6 (u8 "oemid"); u8 "revision"; u32 "rsdt_addr";
  u32 "length"; u64 "xsdt_addr"; u8 "extended_checksum"; array_of 3 (u8 "reserved")].
Definition AcpiSdtHeader : Struct := packed [
  array_of 4 (u8 "signature"); u32 "length"; u8 "revision"; u8 "checksum"; array_of 6 (u8 "oemid"); array_of 8 (u8 "oem_table_id");
  u32 "oem_revision"; u32 "creator_id"; u32 "creator_revision"].
Definition ProcessorLocalApicData : Struct := packed [u8 "processor_id"; u8 "apic_id"; u32 "flags"].
Definition IoApicData : Struct := packed [u8 "id"; u8 "reserved"; u32 "io_apic_addr"; u32 "global_system_interrupt_base"].
Definition IoApicInterruptSourceOverrideData : Struct := packed [u8 "bus_source"; u8 "irq_source"; u32 "global_system_interrupt"; u16 "flags"].
Definition IoApicNonMaskableInterruptSourceData : Struct := packed [u8 "nmi_source"; u8 "reserved"; u16 "flags"; u32 "global_system_interrupt"].
Definition LocalApicNonMaskableInterrupts : Struct := packed [u8 "acpi_processor_id"; u16 "flags"; u8 "lint"].
Definition LocalApicAddrOverrideData : Struct := packed [u16 "reserved"; u64 "local_apic_addr"].
Definition MadtEntryHeader : Struct := packed [u8 "entry_type"; u8 "record_length"].
Definition MadtHeader : Struct := packed [inner "header" AcpiSdtHeader; u32 "local_apic_addr"; u32 "flags"].

(** ** AHCI *)
Definition FisRegH2D : Struct := packed [
  u8 "fis_type"; u8 "flags"; u8 "command"; u8 "feature_low"; u8 "lba0"; u8 "lba1"; u8 "lba2"; u8 "device"; u8 "lba3"; u8 "lba4"; u8 "lba5";
  u8 "feature_high"; u8 "count_low"; u8 "count_high"; u8 "icc"; u8 "control"; array_of 4 (u8 "reserved")].
Definition FisRegD2H : Struct := packed [
  u8 "fis_type"; u8 "flags"; u8 "status"; u8 "error"; u8 "lba0"; u8 "lba1"; u8 "lba2"; u8 "device"; u8 "lba3"; u8 "lba4"; u8 "lba5"; u8 "rsv2";
  u8 "countl"; u8 "counth"; array_of 2 (u8 "rsv3"); array_of 4 (u8 "rsv4")].
Definition FisData : Struct := packed [u8 "fis_type"; u8 "flags"; array_of 2 (u8 "rsv1"); array_of 1 (u32 "data")].
Definition FisPioSetup : Struct := packed [
  u8 "fis_type"; u8 "flags"; u8 "status"; u8 "error"; u8 "lba0"; u8 "lba1"; u8 "lba2"; u8 "device"; u8 "lba3"; u8 "lba4"; u8 "lba5"; u8 "rsv2";
  u8 "countl"; u8 "counth"; u8 "rsv3"; u8 "e_status"; u16 "tc"; array_of 2 (u8 "rsv4")].
Definition FisDmaSetup : Struct := packed [
  u8 "fis_type"; u8 "flags"; array_of 2 (u8 "rsved"); u64 "dma_buffer_id"; u32 "rsvd"; u32 "dma_buf_offset"; u32 "transfer_count"; u32 "resvd"].
Definition FisSetDevBits : Struct := packed [u8 "fis_type"; u8 "flags"; u8 "status"; u8 "error"; u32 "s_active"].
Definition ReceivedFisArea : Struct := {| repr := Aligned 256; fields := [
  inner "dsfis" FisDmaSetup; array_of 4 (u8 "reserved0"); inner "psfis" FisPioSetup; array_of 12 (u8 "reserved1"); inner "rfis" FisRegD2H;
  array_of 4 (u8 "reserved2"); inner "sdbfis" FisSetDevBits; array_of 64 (u8 "ufis"); array_of 96 (u8 "reserved3")] |}.
Definition PrdtEntry : Struct := packed [u32 "data_base_low"; u32 "data_base_high"; u32 "_reserved"; u32 "flags"].
Definition CommandHeader : Struct := packed [
  u16 "flags"; u16 "physical_region_descriptor_table_length"; u32 "physical_region_descriptor_bytes_count";
  u32 "cmd_table_base_addr_low"; u32 "cmd_table_base_addr_high"; array_of 4 (u32 "reserved")].
Definition CommandTable : Struct := packed [
  inner "cmd_fis" FisRegH2D; array_of 32 (u8 "_padding"); u64 "_padding1"; u32 "_padding2"; array_of 16 (u8 "_ata_cmd_area");
  array_of 0x30 (u8 "_reserved"); array_of 24 (inner "prdt_table" PrdtEntry)].
Definition IdentifyData : Struct := in_c [
  u16 "config"; u16 "cylinders"; u16 "_reserved_w2"; u16 "heads"; array_of 2 (u16 "_reserved_w4_5"); u16 "sectors_per_track";
  array_of 3 (u16 "_reserved1"); array_of 20 (u8 "serial"); array_of 3 (u16 "_reserved2"); array_of 8 (u8 "firmware_rev");
  array_of 40 (u8 "model"); u16 "trusted_computing"; u16 "capabilities1"; u16 "capabilities2"; array_of 9 (u16 "_reserved3");
  u32 "lba28_sectors"; array_of 18 (u16 "_reserved4"); u16 "major_version"; u16 "minor_version"; u16 "command_set_supported1";
  u16 "command_set_supported2"; array_of 16 (u16 "_reserved5"); u64 "lba48_sectors"; array_of 152 (u16 "_reserved6")].
Definition sector_count (fis : list Z) : option Z :=
  counth ← field_of FisRegD2H "counth" fis;
  countl ← field_of FisRegD2H "countl" fis;
  Some (Z.lor (wrap 16 (Z.shiftl counth 8)) countl).

(** ** Placement *)
Definition sound (xs : list Field) : bool := forallb (fun x => (0 <=? field_size x) && (1 <=? field_align x)) xs.
Lemma padded_ge r at_ x : 1 <= field_align x -> at_ <= padded r at_ x.
Proof. intros Ha. unfold padded. destruct r; [done| |]; pose proof (Z.mod_pos_bound (- at_) (field_align x)); lia. Qed.
Lemma end_ge r xs : forall at_, sound xs = true -> at_ <= end_of r at_ xs.
Proof.
  induction xs as [|x xs IH]; intros at_ Hs; [done|]. cbn in *. apply andb_true_iff in Hs as [Hx Hs].
  specialize (IH (padded r at_ x + field_size x) Hs). pose proof (padded_ge r at_ x). lia.
Qed.
Lemma find_bounds r xs f o n : forall at_, sound xs = true -> find_field r at_ xs f = Some (o, n) -> at_ <= o /\ 0 <= n /\ o + n <= end_of r at_ xs.
Proof.
  induction xs as [|x xs IH]; intros at_ Hs; [done|]. cbn in *. apply andb_true_iff in Hs as [Hx Hs]. pose proof (padded_ge r at_ x) as Hp.
  case_bool_decide.
  - intros [= <- <-]. pose proof (end_ge r xs (padded r at_ x + field_size x) Hs). lia.
  - intros Hf. apply IH in Hf; [lia|done].
Qed.
Lemma find_disjoint r xs f g o n o' n' : forall at_, sound xs = true -> f <> g -> find_field r at_ xs f = Some (o, n) -> find_field r at_ xs g = Some (o', n') ->
  o + n <= o' \/ o' + n' <= o.
Proof.
  induction xs as [|x xs IH]; intros at_ Hs Hfg; [done|]. cbn in *. apply andb_true_iff in Hs as [Hx Hs]. repeat case_bool_decide; [congruence| | |].
  - intros [= <- <-] Hg. apply find_bounds in Hg; [lia|done].
  - intros Hf [= <- <-]. apply find_bounds in Hf; [lia|done].
  - by apply IH.
Qed.
Lemma size_ge s : 1 <= alignment s -> end_of (repr s) 0 (fields s) <= size_of s.
Proof. intros Ha. unfold size_of. pose proof (Z.mod_pos_bound (- end_of (repr s) 0 (fields s)) (alignment s)). lia. Qed.
Lemma alignment_pos s : 1 <= alignment s.
Proof. unfold alignment. assert (1 <= foldr Z.max 1 (field_align <$> fields s)) by (induction (field_align <$> fields s); cbn; lia). destruct (repr s); lia. Qed.
Lemma field_inside s f o n : sound (fields s) = true -> offset_of s f = Some (o, n) -> 0 <= o /\ 0 <= n /\ o + n <= size_of s.
Proof. intros Hs Hf. apply find_bounds in Hf; [|done]. pose proof (size_ge s (alignment_pos s)). lia. Qed.
(** A number written to one field is read back, and every other field keeps its value. *)
Lemma field_put s f g o n v bs : sound (fields s) = true -> offset_of s f = Some (o, n) -> size_of s <= zlen bs -> 0 <= v < 256 ^ n -> is_Some (offset_of s g) ->
  field_of s g (u_put (Z.to_nat n) o v bs) = if bool_decide (g = f) then Some v else field_of s g bs.
Proof.
  intros Hs Hf Hl Hv [[o' n'] Hg]. unfold field_of. pose proof (field_inside s f o n Hs Hf). pose proof (field_inside s g o' n' Hs Hg).
  case_bool_decide as Hgf; [subst g; rewrite Hf|rewrite Hg]; cbn [fmap option_fmap option_map]; f_equal.
  - apply u_at_put; [lia|lia|]. by rewrite Z2Nat.id by lia.
  - apply u_at_put_ne; [lia..|]. pose proof (find_disjoint (repr s) (fields s) g f o' n' o n 0 Hs Hgf Hg Hf). lia.
Qed.

(** ** ext2 *)
Definition superblock_readers : list (string * (list Z -> Z)) := [
  ("s_blocks_count", s_blocks_count); ("s_free_blocks_count", s_free_blocks_count); ("s_free_inodes_count", s_free_inodes_count);
  ("s_first_data_block", s_first_data_block); ("s_log_block_size", s_log_block_size); ("s_log_frag_size", s_log_frag_size);
  ("s_blocks_per_group", s_blocks_per_group); ("s_inodes_per_group", s_inodes_per_group); ("s_magic", s_magic); ("s_rev_level", s_rev_level);
  ("s_prealloc_blocks", s_prealloc_blocks); ("s_prealloc_dir_blocks", s_prealloc_dir_blocks)].
Definition descriptor_readers : list (string * (list Z -> Z)) := [
  ("bg_block_bitmap", bg_block_bitmap); ("bg_inode_bitmap", bg_inode_bitmap); ("bg_inode_table", bg_inode_table);
  ("bg_free_blocks_count", bg_free_blocks_count); ("bg_free_inodes_count", bg_free_inodes_count); ("bg_used_dirs_count", bg_used_dirs_count)].
Definition reads (s : Struct) (bs : list Z) : string * (list Z -> Z) -> Prop := fun '(f, get) => field_of s f bs = Some (get bs).

(** The superblock's counters are updated in place.  The superblock is 264
    bytes and a group descriptor 18; every accessor of the file system reads the
    declared field of its name; and an update of the count of free blocks, or of
    free inodes, sets that field and keeps the value of each of the other fields
    of the struct. *)
Theorem superblock_update sb v f : zlen sb = SUPERBLOCK_BYTES -> 0 <= v < 2 ^ 32 -> is_Some (offset_of SuperBlock f) ->
  size_of SuperBlock = SUPERBLOCK_BYTES /\ size_of GroupDescriptor = GROUP_DESCRIPTOR_BYTES /\ size_of DirEntryPartial = DIR_ENTRY_PARTIAL_BYTES /\
  Forall (reads SuperBlock sb) superblock_readers /\ Forall (reads GroupDescriptor sb) descriptor_readers /\
  field_of SuperBlock f (set_s_free_blocks_count v sb) = (if bool_decide (f = "s_free_blocks_count") then Some v else field_of SuperBlock f sb) /\
  field_of SuperBlock f (set_s_free_inodes_count v sb) = (if bool_decide (f = "s_free_inodes_count") then Some v else field_of SuperBlock f sb).
Proof.
  intros Hl Hv Hf. split_and!; [done|done|done|repeat constructor|repeat constructor| |].
  - apply (field_put SuperBlock "s_free_blocks_count" f 12 4); [done|done|by rewrite Hl|done|done].
  - apply (field_put SuperBlock "s_free_inodes_count" f 16 4); [done|done|by rewrite Hl|done|done].
Qed.
Lemma superblock_update_witness : field_of SuperBlock "s_magic" (set_s_free_blocks_count 77 (u_put 2 56 0xEF53 (replicate 264 0))) = Some 0xEF53.
Proof.
  destruct (superblock_update (u_put 2 56 0xEF53 (replicate 264 0)) 77 "s_magic") as (_ & _ & _ & _ & _ & H & _); [done|done|by eexists|].
  rewrite H. by vm_compute.
Defined.

(** ** The memory of an AHCI port *)
(** The regions, as offset and size: the header and the table of a command slot,
    and the area for what the drive sends *)
Inductive Region := Header (slot : Z) | Received | Table (slot : Z).
Definition region (r : Region) : Z * Z :=
  match r with
  | Header i => (i * size_of CommandHeader, size_of CommandHeader)
  | Received => (RECEIVED_FIS_AREA_OFFSET, size_of ReceivedFisArea)
  | Table i => (table_off i, size_of CommandTable)
  end.
Definition slot_ok (r : Region) : Prop := match r with Received => True | Header i | Table i => 0 <= i < 32 end.
(** The documented places of the frames in the area *)
Definition frames : list (string * Z) := [("dsfis", 0); ("psfis", 0x20); ("rfis", 0x40); ("sdbfis", 0x58); ("ufis", 0x60); ("reserved3", 0xA0)].

(** What the controller asks of the addresses; the list of the headers begins
    with that of slot 0. *)
Definition required (r : Region) : Z :=
  match r with Header i => if i =? 0 then 1024 else 32 | Received => 256 | Table _ => 128 end.
Definition place (base : Z) (r : Region) : Z := base + (region r).1.
Lemma region_at r : region r = match r with Header i => (32 * i, 32) | Received => (0x400, 256) | Table i => (0x500 + 0x200 * i, 512) end.
Proof.
  destruct r; cbn [region]; change (size_of CommandHeader) with 32; unfold table_off, CMD_TABLES_OFFSET, CMD_TABLE_SIZE; f_equal; done || lia.
Qed.
Lemma region_inside r : slot_ok r -> 0 <= (region r).1 /\ (region r).1 + (region r).2 <= 5 * 4096.
Proof. rewrite region_at. destruct r; cbn; lia. Qed.
Lemma region_aligned base r : base mod 4096 = 0 -> slot_ok r -> place base r mod required r = 0.
Proof.
  unfold place. rewrite region_at. intros Hb Hr. destruct r as [i| |i]; cbn [fst snd required]; [|Z.to_euclidean_division_equations; lia..].
  destruct (Z.eqb_spec i 0); Z.to_euclidean_division_equations; lia.
Qed.
Lemma regions_apart r r' : slot_ok r -> slot_ok r' -> r <> r' ->
  (region r).1 + (region r).2 <= (region r').1 \/ (region r').1 + (region r').2 <= (region r).1.
Proof.
  rewrite !region_at. intros Hr Hr' Hne. destruct r as [i| |i], r' as [j| |j]; cbn in *; try (assert (i <> j) by congruence); try congruence; lia.
Qed.
(** The bytes a command writes are in the header and the table of its slot. *)
Lemma slot_ranges_in i r k : 0 <= i < 32 -> slot_ok r -> r <> Header i -> r <> Table i ->
  within (region r).1 (region r).2 k -> Forall (fun x => ~ within x.1 x.2 k) (slot_ranges i).
Proof.
  intros Hi Hr H1 H2 Hk. pose proof (regions_apart r (Header i) Hr Hi H1) as A1. pose proof (regions_apart r (Table i) Hr Hi H2) as A2.
  rewrite !region_at in *. unfold slot_ranges, table_off, CMD_TABLES_OFFSET, CMD_TABLE_SIZE, within in *. cbn [fst snd] in *. repeat constructor; cbn; lia.
Qed.

Section port_memory.
Context `{BB : Build} {W : Type} {HM : Machine W} {HC : Controller W} {HB : Bitfield} {HL : BitfieldLaws} (phys_addr : Z -> option Z) (hhdm_offset : Z).
Hypothesis (phys_addr_ok : forall a, 0 <= a < 2 ^ 52 -> phys_addr a = Some a).
Lemma set_bases_run (s : AhciSata W) : port_ok s -> let a := dma_20kb_buffer_paddr s in let w r v := poked (port_reg s r) v in
  set_bases (E:=never) s = (Ok (), w interrupt_status 0 (w sata_error 0xFFFFFFFF
    (w fis_base_higher (place a Received / 2 ^ 32) (w fis_base_lower (place a Received mod 2 ^ 32)
      (w command_list_base_higher (place a (Header 0) / 2 ^ 32) (w command_list_base_lower (place a (Header 0) mod 2 ^ 32) s)))))).
Proof.
  intros [_ Ha _] a w. assert (place a (Header 0) = a) as -> by (unfold place; rewrite region_at; cbn; lia).
  assert (place a Received = a + RECEIVED_FIS_AREA_OFFSET) as -> by (unfold place; by rewrite region_at). unfold set_bases. rewrite run_gets.
  erewrite M_bind_run by apply write_port_run. erewrite M_bind_run by apply write_port_run. unfold RECEIVED_FIS_AREA_OFFSET in *.
  rewrite uadd_ok by lia. mstep. erewrite M_bind_run by apply write_port_run. erewrite M_bind_run by apply write_port_run. erewrite M_bind_run by apply write_port_run.
  rewrite write_port_run. unfold wrap. rewrite !Z.shiftr_div_pow2 by lia. rewrite !(Z.mod_small (_ / _)) by (Z.to_euclidean_division_equations; lia). done.
Qed.

(** C24: a port's memory is divided without overlap, and the driver keeps to
    it.  The headers and tables of the 32 slots and the area for received frames
    are inside the five pages of a port, no two of them overlap, and each is at
    an address that is a multiple of what the controller asks for: 1024 for the
    list of headers, 32 for a header, 256 for the received frames, 128 for a
    table.  The addresses [set_bases] gives the controller are those of the list
    and of the received frames.  A request launched in a slot changes no byte of
    any region but the header and the table of that slot.  The received frames
    are where the controller puts them, and the sizes the driver computes with
    are those of the structs. *)
Theorem port_memory_layout (s : Task W) : port_ok (sata s) -> let base := dma_20kb_buffer_paddr (sata s) in
  (forall r, slot_ok r -> 0 <= (region r).1 /\ (region r).1 + (region r).2 <= 5 * 4096 /\ place base r mod required r = 0) /\
  (forall r r', slot_ok r -> slot_ok r' -> r <> r' ->
    (region r).1 + (region r).2 <= (region r').1 \/ (region r').1 + (region r').2 <= (region r).1) /\
  (let w r v := poked (port_reg (sata s) r) v in
   set_bases (E:=never) (sata s) = (Ok (), w interrupt_status 0 (w sata_error 0xFFFFFFFF
    (w fis_base_higher (place base Received / 2 ^ 32) (w fis_base_lower (place base Received mod 2 ^ 32)
      (w command_list_base_higher (place base (Header 0) / 2 ^ 32) (w command_list_base_lower (place base (Header 0) mod 2 ^ 32) (sata s)))))))) /\
  (forall i op, zlen (operations (tstate s)) = 32 -> 0 <= i < 32 -> supported hhdm_offset op -> lba48_supported (sata s) = true ->
    exists s', launch_operation phys_addr hhdm_offset i op s = (Ok (), s') /\ zlen (dma_buffer (sata s')) = 5 * 4096 /\
      forall r (k : nat), slot_ok r -> r <> Header i -> r <> Table i -> within (region r).1 (region r).2 (Z.of_nat k) ->
        dma_buffer (sata s') !! k = dma_buffer (sata s) !! k) /\
  Forall (fun '(f, o) => fst <$> offset_of ReceivedFisArea f = Some o) frames /\ size_of ReceivedFisArea = 256 /\
  size_of CommandTable = size_of_CommandTable /\ size_of CommandHeader = size_of_CommandHeader /\ size_of FisRegH2D = size_of_FisRegH2D /\
  offset_of CommandTable "prdt_table" = Some (0x80, 24 * size_of PrdtEntry).
Proof.
  intros Hok base. split_and!; [| | | |repeat constructor|done..].
  - intros r Hr. destruct (region_inside r Hr). split_and!; [done|done|]. apply region_aligned; [apply Hok|done].
  - apply regions_apart.
  - by apply set_bases_run.
  - intros i op Hl Hi Hs H48. destruct (launch_issues phys_addr hhdm_offset phys_addr_ok s i op Hok Hl Hi Hs H48) as (s' & Hr & (_ & [Hz Hsame] & _) & _).
    exists s'. split_and!; [exact Hr|rewrite Hz; apply Hok|]. intros r k Hr' H1 H2 Hk. apply Hsame. by eapply slot_ranges_in.
Qed.
End port_memory.
#[local] Existing Instances SampleAhci.fields SampleAhci.fields_laws SampleAhci.chip_machine SampleAhci.chip_controller.
Lemma port_memory_layout_witness : place 0x10000 (Table 31) mod 128 = 0 /\ exists s',
  launch_operation (H:=dev_build) SampleAhci.phys_addr SampleAhci.hhdm 3 SampleTask.read SampleTask.start = (Ok (), s') /\
  dma_buffer (sata s') !! 0x480%nat = Some 0.
Proof.
  destruct (port_memory_layout (BB:=dev_build) SampleAhci.phys_addr SampleAhci.hhdm SampleAhci.phys_addr_ok SampleTask.start SampleAhci.sample_port_ok) as (Ha & _ & _ & Hw & _).
  split; [apply (Ha (Table 31)); cbn; lia|]. destruct (Hw 3 SampleTask.read) as (s' & Hr & _ & Hk); [done|lia| |by vm_compute|].
  - split; [lia|]. unfold buffer_ok. split_and!; vm_compute; congruence || done.
  - exists s'. split; [exact Hr|]. rewrite (Hk Received); [by vm_compute|done|done|done|]. unfold within. rewrite region_at. cbn. lia.
Defined.

(** A 16-bit number and its two bytes *)
Lemma u_at_pair o bs : bytes bs -> 0 <= o -> o + 2 <= zlen bs ->
  u_at 2 o bs = u_at 1 o bs + 256 * u_at 1 (o + 1) bs /\ is_byte (u_at 1 o bs) /\ is_byte (u_at 1 (o + 1) bs).
Proof.
  unfold zlen. intros Hb Ho Hl. destruct (lookup_lt_is_Some_2 bs (Z.to_nat o)) as [x Hx]; [lia|]. destruct (lookup_lt_is_Some_2 bs (S (Z.to_nat o))) as [y Hy]; [lia|].
  unfold u_at. replace (Z.to_nat (o + 1)) with (S (Z.to_nat o)) by lia. rewrite (drop_S bs x) by done. rewrite (drop_S bs y) by done.
  rewrite ?take_0. cbn [take le_num]. rewrite ?take_0. cbn [le_num]. pose proof (Forall_lookup_1 _ _ _ _ Hb Hx). pose proof (Forall_lookup_1 _ _ _ _ Hb Hy).
  unfold is_byte in *. lia.
Qed.

(** What the drive says of itself is at the documented words.  The
    identification is 512 bytes; the padding that [repr(C)] puts before the
    28-bit count makes up for the reserved words that are one short, so that this
    count is at word 60, and the fields the driver reads are the declared ones,
    at the words 6, 83 and 100.  The sector count a drive reports is the 16-bit
    number at byte 12 of the frame. *)
Theorem identify_words d fis : zlen d = 512 -> zlen fis = 20 -> bytes fis ->
  size_of IdentifyData = 512 /\ offset_of IdentifyData "lba28_sectors" = Some (2 * 60, 4) /\
  field_of IdentifyData "sectors_per_track" d = Some (sectors_per_track d) /\ sectors_per_track d = u_at 2 (2 * 6) d /\
  field_of IdentifyData "command_set_supported2" d = Some (command_set_supported2 d) /\ command_set_supported2 d = u_at 2 (2 * 83) d /\
  field_of IdentifyData "lba48_sectors" d = Some (lba48_sectors d) /\ lba48_sectors d = u_at 8 (2 * 100) d /\
  sector_count fis = Some (u_at 2 12 fis).
Proof.
  intros _ Hl Hb. split_and!; [done..|]. unfold sector_count.
  change (field_of FisRegD2H "counth" fis) with (Some (u_at 1 13 fis)). change (field_of FisRegD2H "countl" fis) with (Some (u_at 1 12 fis)).
  cbn [mbind option_bind]. f_equal. destruct (u_at_pair 12 fis Hb) as (-> & H1 & H2); [lia..|]. unfold is_byte in *. change (12 + 1) with 13 in *.
  rewrite wrap_small by (rewrite Z.shiftl_mul_pow2 by lia; lia). rewrite Z.lor_comm, (lor_shiftl_add 8) by lia. lia.
Qed.

(** ** The firmware's description of the interrupt controllers *)
Definition number_at (mem : Z -> Z) (p : Z) (s : Struct) (f : string) : Z := default 0 ((fun '(o, n) => load mem n (p + o)) <$> offset_of s f).

(** An entry of the MADT is read as its struct.  [init_apic] casts the
    address behind an entry's header to the struct of the entry's type; the
    numbers it takes are those of the declared fields, which do not reach past
    the length the specification gives such an entry, except those of a
    non-maskable interrupt source, which reach two bytes into the next entry. *)
Theorem madt_entry_fields `{Build} mem hhdm_offset virt_add st p :
  (let n := number_at mem p ProcessorLocalApicData in Z.land (n "flags") 1 = 1 ->
   madt_entry mem hhdm_offset virt_add st PROCESSOR_LOCAL_APIC p = Ok {| processors_partial := processors_partial st ++ [{| processor_id := n "processor_id"; apic_id := n "apic_id" |}];
     io_apics := io_apics st; local_apic_addr := local_apic_addr st; nmi_sources := nmi_sources st; local_nmi_sources := local_nmi_sources st;
     isa_irq_gsi := isa_irq_gsi st; trigger_modes_overrides := trigger_modes_overrides st; polarity_overrides := polarity_overrides st |}) /\
  (let n := number_at mem p IoApicData in forall base, virt_add hhdm_offset (n "io_apic_addr") = Some base ->
   madt_entry mem hhdm_offset virt_add st IO_APIC p = Ok {| processors_partial := processors_partial st;
     io_apics := io_apics st ++ [{| io_id := n "id"; io_base := base; global_system_interrupt_base := n "global_system_interrupt_base" |}];
     local_apic_addr := local_apic_addr st; nmi_sources := nmi_sources st; local_nmi_sources := local_nmi_sources st;
     isa_irq_gsi := isa_irq_gsi st; trigger_modes_overrides := trigger_modes_overrides st; polarity_overrides := polarity_overrides st |}) /\
  (let n := number_at mem p IoApicInterruptSourceOverrideData in
   madt_entry mem hhdm_offset virt_add st INTERRUPT_SOURCE_OVERRIDE p = override st (n "irq_source") (n "global_system_interrupt") (n "flags")) /\
  (let n := number_at mem p LocalApicAddrOverrideData in forall a, virt_add hhdm_offset (n "local_apic_addr") = Some a ->
   madt_entry mem hhdm_offset virt_add st LOCAL_APIC_ADDR_OVERRIDE p = Ok {| processors_partial := processors_partial st; io_apics := io_apics st;
     local_apic_addr := a; nmi_sources := nmi_sources st; local_nmi_sources := local_nmi_sources st;
     isa_irq_gsi := isa_irq_gsi st; trigger_modes_overrides := trigger_modes_overrides st; polarity_overrides := polarity_overrides st |}) /\
  (size_of <$> [ProcessorLocalApicData; IoApicData; IoApicInterruptSourceOverrideData; IoApicNonMaskableInterruptSourceData; LocalApicNonMaskableInterrupts; LocalApicAddrOverrideData]) =
    (fun length => length - size_of MadtEntryHeader) <$> [8; 12; 10; 8 + 2; 6; 12].
Proof.
  destruct st. split_and!; [|intros n base|reflexivity|intros n a|reflexivity].
  - intros n Hn. cbn [madt_entry]. change (PROCESSOR_LOCAL_APIC =? PROCESSOR_LOCAL_APIC) with true. cbv iota.
    change (load mem 4 (p + 2)) with (n "flags"). rewrite Hn. change (n "processor_id") with (load mem 1 (p + 0)). rewrite Z.add_0_r. reflexivity.
  - intros Hb. cbn [madt_entry]. change (IO_APIC =? PROCESSOR_LOCAL_APIC) with false. change (IO_APIC =? IO_APIC) with true. cbv iota.
    unfold vadd. change (load mem 4 (p + 2)) with (n "io_apic_addr"). rewrite Hb. change (n "id") with (load mem 1 (p + 0)). rewrite Z.add_0_r. reflexivity.
  - intros Hb. cbn [madt_entry].
    unfold vadd. change (load mem 8 (p + 2)) with (n "local_apic_addr"). rewrite Hb. reflexivity.
Qed.
Lemma madt_entry_fields_witness : exists st, @madt_entry (fun a => if a =? 1004 then 7 else 0) 0 (fun a b => Some (a + b)) (madt_start 0) LOCAL_APIC_ADDR_OVERRIDE 1000 = Ok st /\ local_apic_addr st = 7 * 2 ^ 16.
Proof.
  destruct (@madt_entry_fields dev_build (fun a => if a =? 1004 then 7 else 0) 0 (fun a b => Some (a + b)) (madt_start 0) 1000) as (_ & _ & _ & H & _).
  eexists. split; [apply H; reflexivity|by vm_compute].
Defined.
Lemma identify_words_witness : sector_count (replicate 12 0 ++ [3; 1] ++ replicate 6 0) = Some 259.
Proof.
  destruct (identify_words (replicate 512 0) (replicate 12 0 ++ [3; 1] ++ replicate 6 0)) as (_ & _ & _ & _ & _ & _ & _ & _ & H); [done|done|repeat constructor; lia|].
  exact H.
Defined.
