(* ===== verification/Idt.v ===== *)
(** * The interrupt table, and what its gates are for

    [arch/x86_64/idt.rs], the macros of [macros/src/lib.rs] that install the
    handlers of the disk controllers, and the handlers of [handlers/irq.rs] that
    belong to the IDE channels.  A gate holds the name of its handler, whose code
    is elsewhere: the wrappers in Entry, the timer's in Scheduler, those of the
    disk controllers in AhciTask.  [InterruptDescriptorTable] is of the crate
    [x86_64]; which gates it lets the kernel index is a parameter ([IdtCrate]),
    with the law that all the vectors from 32 on are.

    Shown: which gate every vector has after [init_idt]; that the interrupts the
    I/O APIC, the local timer and the disk controllers are programmed to send
    have the gates of their handlers when the ISA lines are not moved; that a
    line which the firmware moves is lost; which lines stay enabled without a
    gate; and where the installation stops on interrupt numbers that are too
    large. *)

From S2P Require Import Prelude Bytes Channels Acpi PerCpu Timer Ahci Pata Hba Apic.
From stdpp Require Import gmap.
#[local] Open Scope Z_scope.

(** ** Handlers and gates *)
Inductive IrqIndex :=
| Timer | Keyboard | Cascade | Com24 | Com13 | Sound | Floppy | Printer | Clock | Video | Open1 | Open2 | Mouse | Coprocessor | PrimaryIDE | SecondaryIDE.
Definition irq_index (i : IrqIndex) : Z :=
  match i with
  | Timer => 0 | Keyboard => 1 | Cascade => 2 | Com24 => 3 | Com13 => 4 | Sound => 5 | Floppy => 6 | Printer => 7
  | Clock => 8 | Video => 9 | Open1 => 10 | Open2 => 11 | Mouse => 12 | Coprocessor => 13 | PrimaryIDE => 14 | SecondaryIDE => 15
  end.
Inductive Handler :=
| breakpoint_handler | doublefault_handler | pagefault_handler | spurious_interrupt_handler
| timer_handler | keyboard_handler | primary_ide_handler | secondary_ide_handler
| ahci_interrupt_handler (idx : Z).
#[export] Instance handler_eq_dec : EqDecision Handler.
Proof. solve_decision. Defined.
Record Gate := { handler : Handler; stack_index : option Z }.
Abbreviation InterruptDescriptorTable := (gmap Z Gate).

Class IdtCrate := { indexable : Z -> bool }.
Class IdtLaws `{IdtCrate} := { indexable_interrupts v : 32 <= v < 256 -> indexable v = true }.

(** The gates of exceptions that are fields of the table *)
Definition breakpoint : Z := 3.
Definition double_fault : Z := 8.
Definition page_fault : Z := 14.
Definition not_present : Z := 11.

(** [set_handler_fn] makes a gate present and keeps its stack. *)
Definition set_handler_fn (v : Z) (h : Handler) (d : InterruptDescriptorTable) : InterruptDescriptorTable :=
  <[v := {| handler := h; stack_index := d !! v ≫= stack_index |}]> d.
Definition set_stack_index (v i : Z) (d : InterruptDescriptorTable) : InterruptDescriptorTable :=
  alter (fun g => {| handler := handler g; stack_index := Some i |}) v d.

(** ** The table *)
(** The cells [IDT] and [GSI_TO_IRQ_MAPPING], and the table the processor uses *)
Record Tables := {
  IDT : option InterruptDescriptorTable;
  GSI_TO_IRQ_MAPPING : option (list Z);
  idtr : option InterruptDescriptorTable;
}.
Section idt.
Context `{Build} `{IdtCrate}.
Abbreviation R A := (res never A).
Abbreviation T A := (M Tables never A).

(** [idt[v].set_handler_fn(h)] *)
Definition install (v : Z) (h : Handler) (d : InterruptDescriptorTable) : R InterruptDescriptorTable :=
  if indexable v then Ok (set_handler_fn v h d) else Panic.
Definition exception_gates (d : InterruptDescriptorTable) : InterruptDescriptorTable :=
  set_handler_fn double_fault doublefault_handler (set_handler_fn breakpoint breakpoint_handler d).
Definition page_fault_gate (d : InterruptDescriptorTable) : InterruptDescriptorTable :=
  set_stack_index page_fault PAGE_FAULT_IST_INDEX (set_handler_fn page_fault pagefault_handler d).
Definition minimal_idt : InterruptDescriptorTable := page_fault_gate (exception_gates ∅).

(** [idt[PRIMARY_ISA_PIC_OFFSET + mapping[irq] as u8].set_handler_fn(h)] *)
Definition install_line (mapping : list Z) (irq : IrqIndex) (h : Handler) (d : InterruptDescriptorTable) : R InterruptDescriptorTable :=
  gsi ← index mapping (irq_index irq);
  v ← uadd 8 PRIMARY_ISA_PIC_OFFSET (wrap 8 gsi);
  install v h d.
Definition idt_ahci (base : Z) (d : InterruptDescriptorTable) : R InterruptDescriptorTable :=
  rfor (seqZ 0 8) d (fun idx d => v ← uadd 8 base idx; install v (ahci_interrupt_handler idx) d).

(** A [OnceCell] keeps its first value; the code ignores that the second is refused. *)
Definition set_once {A} (cell : option A) (x : A) : option A := match cell with Some y => Some y | None => Some x end.
Definition load_idt : T () :=
  t ← get;
  d ← lift (expect (IDT t));
  put {| IDT := IDT t; GSI_TO_IRQ_MAPPING := GSI_TO_IRQ_MAPPING t; idtr := Some d |}.
Definition filled_idt (mapping : list Z) : R InterruptDescriptorTable :=
  d ← install_line mapping Timer timer_handler (exception_gates ∅);
  d ← install_line mapping Keyboard keyboard_handler d;
  d ← install_line mapping PrimaryIDE primary_ide_handler d;
  d ← install_line mapping SecondaryIDE secondary_ide_handler d;
  d ← install SPURIOUS_INTERRUPT_HANDLER_IDX spurious_interrupt_handler d;
  idt_ahci AHCI_INTERRUPT_HANDLER_IDX (page_fault_gate d).
Definition init_idt (mapping : list Z) : T () :=
  d ← lift (filled_idt mapping);
  _ ← modify (fun t => {| IDT := set_once (IDT t) d; GSI_TO_IRQ_MAPPING := GSI_TO_IRQ_MAPPING t; idtr := idtr t |});
  _ ← load_idt;
  modify (fun t => {| IDT := IDT t; GSI_TO_IRQ_MAPPING := set_once (GSI_TO_IRQ_MAPPING t) mapping; idtr := idtr t |}).
End idt.

(** What a processor runs for a vector: without a gate the exception for gates
    that are not present, and without that a double fault. *)
Definition reached (d : InterruptDescriptorTable) (v : Z) : option Handler :=
  handler <$> match d !! v with Some g => Some g | None => match d !! not_present with Some g => Some g | None => d !! double_fault end end.

(** ** The gates that are installed *)
(** The interrupt the firmware gives to an ISA line *)
Abbreviation gsi mapping i := (default 0 (mapping !! Z.to_nat (irq_index i))).
Definition gate_of (mapping : list Z) (v : Z) : option Gate :=
  let plain h := Some {| handler := h; stack_index := None |} in
  if (48 <=? v) && (v <? 56) then plain (ahci_interrupt_handler (v - 48))
  else if v =? 14 then Some {| handler := pagefault_handler; stack_index := Some PAGE_FAULT_IST_INDEX |}
  else if v =? 255 then plain spurious_interrupt_handler
  else if v =? 32 + gsi mapping SecondaryIDE then plain secondary_ide_handler
  else if v =? 32 + gsi mapping PrimaryIDE then plain primary_ide_handler
  else if v =? 32 + gsi mapping Keyboard then plain keyboard_handler
  else if v =? 32 + gsi mapping Timer then plain timer_handler
  else if v =? 8 then plain doublefault_handler
  else if v =? 3 then plain breakpoint_handler
  else None.

Section gates.
Context `{BB : Build} {HC : IdtCrate} {HL : IdtLaws}.
Implicit Types d : InterruptDescriptorTable.
(** The interrupts of the four lines that have handlers *)
Definition handled : list IrqIndex := [Timer; Keyboard; PrimaryIDE; SecondaryIDE].
Definition mapping_ok (mapping : list Z) : Prop := length mapping = 16%nat /\ Forall (fun g => 0 <= g < 224) mapping.
Lemma gsi_range mapping i : mapping_ok mapping -> 0 <= gsi mapping i < 224.
Proof. intros [_ Hg]. destruct (mapping !! Z.to_nat (irq_index i)) eqn:E; [by eapply Forall_lookup_1 in Hg|done]. Qed.

Definition stack_of d v : option Z := d !! v ≫= stack_index.
Lemma lookup_set v h d u : set_handler_fn v h d !! u = if u =? v then Some {| handler := h; stack_index := stack_of d v |} else d !! u.
Proof. unfold set_handler_fn. destruct (Z.eqb_spec u v) as [->|Hu]; [by rewrite lookup_insert_eq|by rewrite lookup_insert_ne]. Qed.
Lemma stack_set v h d u : stack_of (set_handler_fn v h d) u = stack_of d u.
Proof. unfold stack_of at 1. rewrite lookup_set. by destruct (Z.eqb_spec u v) as [->|]. Qed.
Lemma stack_new u : stack_of ∅ u = None.
Proof. unfold stack_of. by rewrite lookup_empty. Qed.
Lemma index_gsi mapping i : length mapping = 16%nat -> index (E:=never) mapping (irq_index i) = Ok (gsi mapping i).
Proof. intros Hl. apply index_ok; [by destruct i|]. destruct (lookup_lt_is_Some_2 mapping (Z.to_nat (irq_index i))) as [x Hx]; [rewrite Hl; destruct i; cbn; lia|]. by rewrite Hx. Qed.
Lemma install_ok v h d : 32 <= v < 256 -> install v h d = Ok (set_handler_fn v h d).
Proof. intros Hv. unfold install. by rewrite indexable_interrupts. Qed.
Lemma install_line_ok mapping i h d : mapping_ok mapping -> install_line mapping i h d = Ok (set_handler_fn (32 + gsi mapping i) h d).
Proof.
  intros Hm. pose proof (gsi_range mapping i Hm) as Hg. destruct Hm as [Hl _]. unfold install_line. rewrite index_gsi by done. rsimpl. rewrite wrap_small by lia.
  rewrite uadd_ok by (unfold PRIMARY_ISA_PIC_OFFSET; lia). rsimpl. by rewrite install_ok by (unfold PRIMARY_ISA_PIC_OFFSET; lia).
Qed.
Lemma ahci_step idx h d : 0 <= idx < 8 -> (v ← uadd 8 AHCI_INTERRUPT_HANDLER_IDX idx; install v h d) = Ok (set_handler_fn (48 + idx) h d).
Proof. intros Hi. unfold AHCI_INTERRUPT_HANDLER_IDX. rewrite uadd_ok by lia. rsimpl. by rewrite install_ok by lia. Qed.
Lemma idt_ahci_ok d : (forall u, 48 <= u < 56 -> stack_of d u = None) -> exists d', idt_ahci AHCI_INTERRUPT_HANDLER_IDX d = Ok d' /\
  forall v, d' !! v = if (48 <=? v) && (v <? 56) then Some {| handler := ahci_interrupt_handler (v - 48); stack_index := None |} else d !! v.
Proof using HL.
  intros Hs. unfold idt_ahci. change (seqZ 0 8) with [0; 1; 2; 3; 4; 5; 6; 7]. cbn [rfor].
  repeat (rewrite ahci_step by lia; cbn [mbind res_bind]). eexists. split; [reflexivity|].
  intros v. rewrite !lookup_set, !stack_set, !Hs by lia.
  repeat (match goal with |- context [?a =? ?b] => destruct (Z.eqb_spec a b) as [->|] end; [done|]).
  destruct (Z.leb_spec 48 v), (Z.ltb_spec v 56); cbn [andb]; done || lia.
Qed.
Lemma lookup_page_fault d u : stack_of d page_fault = None ->
  page_fault_gate d !! u = if u =? 14 then Some {| handler := pagefault_handler; stack_index := Some PAGE_FAULT_IST_INDEX |} else d !! u.
Proof.
  intros Hs. unfold page_fault_gate, set_stack_index, page_fault. destruct (Z.eqb_spec u 14) as [->|Hu].
  - rewrite lookup_alter_eq, lookup_set. done.
  - rewrite lookup_alter_ne by done. rewrite lookup_set. by bfalse (u =? 14).
Qed.
Lemma filled_idt_ok mapping : mapping_ok mapping -> exists d, filled_idt mapping = Ok d /\ forall v, d !! v = gate_of mapping v.
Proof using HL.
  intros Hm. unfold filled_idt. rewrite !install_line_ok by done. rsimpl. repeat (rewrite install_line_ok by done; rsimpl).
  rewrite install_ok by (unfold SPURIOUS_INTERRUPT_HANDLER_IDX; lia). rsimpl. unfold SPURIOUS_INTERRUPT_HANDLER_IDX, exception_gates.
  match goal with |- context [page_fault_gate ?x] => set (d0 := x) end.
  assert (forall u, stack_of d0 u = None) as Hs by (intros u; subst d0; by rewrite !stack_set, stack_new).
  destruct (idt_ahci_ok (page_fault_gate d0)) as (d & Hd & Hv).
  { intros u Hu. unfold stack_of. rewrite lookup_page_fault by done. bfalse (u =? 14). apply Hs. }
  exists d. split; [done|]. intros v. rewrite Hv, lookup_page_fault by done. unfold gate_of, breakpoint, double_fault. cbv zeta.
  destruct ((48 <=? v) && (v <? 56)); [done|]. destruct (v =? 14); [done|]. subst d0. rewrite !lookup_set, !stack_set, stack_new, lookup_empty. done.
Qed.
Lemma init_idt_run mapping t : mapping_ok mapping -> IDT t = None -> exists d, (forall v, d !! v = gate_of mapping v) /\
  init_idt mapping t = (Ok (), {| IDT := Some d; GSI_TO_IRQ_MAPPING := set_once (GSI_TO_IRQ_MAPPING t) mapping; idtr := Some d |}).
Proof using HL.
  intros Hm Ht. destruct (filled_idt_ok mapping Hm) as (d & Hd & Hv). exists d. split; [done|]. unfold init_idt. rewrite Hd. mstep.
  unfold load_idt. destruct t as [i g r]. cbn in Ht. subst i. reflexivity.
Qed.

(** The gates.  When the firmware gives every ISA line an interrupt below
    224, [init_idt] ends, and a vector has exactly the gate [gate_of] says: the
    disk controllers have the vectors 48 to 55, the lines with a handler the
    vector 32 and their interrupt, spurious interrupts 255, and of the
    exceptions only breakpoints, double faults and page faults have a gate, the
    last one with a stack of its own.  A second call of [init_idt] loads the
    table of the first. *)
Theorem init_idt_gates mapping mapping' t : mapping_ok mapping -> mapping_ok mapping' -> IDT t = None -> GSI_TO_IRQ_MAPPING t = None ->
  exists d t', init_idt mapping t = (Ok (), t') /\ idtr t' = Some d /\ GSI_TO_IRQ_MAPPING t' = Some mapping /\
    (forall v, d !! v = gate_of mapping v) /\ init_idt mapping' t' = (Ok (), t').
Proof using HL.
  intros Hm Hm' Ht Hg. destruct (init_idt_run mapping t Hm Ht) as (d & Hd & Hr). exists d. eexists. split; [exact Hr|]. rewrite Hg. cbn.
  split_and!; [done|done|exact Hd|]. destruct (filled_idt_ok mapping' Hm') as (d' & Hd' & _). unfold init_idt. rewrite Hd'. reflexivity.
Qed.
End gates.

(** Interrupts that are too large stop the boot.  In a build that checks for
    overflow, if the firmware gives the timer, the keyboard or one of the IDE
    channels an interrupt whose lower byte is 224 or more, [init_idt] panics, and
    no table is set or loaded. *)
Theorem large_interrupt_panics `{HC : IdtCrate} {HL : IdtLaws} mapping i t : length mapping = 16%nat -> In i handled -> 224 <= wrap 8 (gsi mapping i) ->
  @init_idt dev_build _ mapping t = (Panic, t).
Proof.
  intros Hl Hi Hg. unfold init_idt. enough (@filled_idt dev_build _ mapping = Panic) as -> by done.
  assert (forall j h d, @install_line dev_build _ mapping j h d = if wrap 8 (gsi mapping j) <? 224 then Ok (set_handler_fn (32 + wrap 8 (gsi mapping j)) h d) else Panic) as Hj.
  { intros j h d. unfold install_line. rewrite index_gsi by done. rsimpl. pose proof (wrap_range 8 (gsi mapping j) ltac:(lia)) as Hr.
    destruct (Z.ltb_spec (wrap 8 (gsi mapping j)) 224).
    - rewrite uadd_ok by (unfold PRIMARY_ISA_PIC_OFFSET; lia). rsimpl. by rewrite install_ok by (unfold PRIMARY_ISA_PIC_OFFSET; lia).
    - unfold uadd. by rewrite unum_panic by (unfold PRIMARY_ISA_PIC_OFFSET; lia). }
  unfold filled_idt. rewrite Hj. destruct (wrap 8 (gsi mapping Timer) <? 224) eqn:H1; [|done]. rsimpl.
  rewrite Hj. destruct (wrap 8 (gsi mapping Keyboard) <? 224) eqn:H2; [|done]. rsimpl.
  rewrite Hj. destruct (wrap 8 (gsi mapping PrimaryIDE) <? 224) eqn:H3; [|done]. rsimpl.
  rewrite Hj. destruct (wrap 8 (gsi mapping SecondaryIDE) <? 224) eqn:H4; [|done].
  destruct Hi as [<-|[<-|[<-|[<-|[]]]]]; lia.
Qed.

(** ** What the controllers send, and where it arrives *)
Definition line_handler (i : IrqIndex) : option Handler :=
  match i with
  | Timer => Some timer_handler | Keyboard => Some keyboard_handler
  | PrimaryIDE => Some primary_ide_handler | SecondaryIDE => Some secondary_ide_handler
  | _ => None
  end.

Lemma mapping_wide mapping : mapping_ok mapping -> length mapping = 16%nat /\ Forall (fun g => 0 <= g < 2 ^ 32) mapping.
Proof. intros [Hl Hg]. split; [done|]. eapply Forall_impl; [exact Hg|]. cbv beta. lia. Qed.

Section vectors.
Context (mapping : list Z) (mapping_small : mapping_ok mapping).
(** The handler of a vector of the ISA range *)
Definition isa_handler (i : Z) : option Handler :=
  if i =? gsi mapping SecondaryIDE then Some secondary_ide_handler
  else if i =? gsi mapping PrimaryIDE then Some primary_ide_handler
  else if i =? gsi mapping Keyboard then Some keyboard_handler
  else if i =? gsi mapping Timer then Some timer_handler else None.
Lemma gate_isa i : 0 <= i < 16 -> handler <$> gate_of mapping (32 + i) = isa_handler i.
Proof.
  intros Hi. unfold gate_of, isa_handler. cbv zeta. bfalse (48 <=? 32 + i). cbn [andb]. bfalse (32 + i =? 14). bfalse (32 + i =? 255).
  bfalse (32 + i =? 8). bfalse (32 + i =? 3).
  assert (forall x, (32 + i =? 32 + x) = (i =? x)) as Hx by (intros x; destruct (Z.eqb_spec i x); lia). rewrite !Hx.
  repeat match goal with |- context [i =? ?x] => destruct (i =? x); [done|] end. done.
Qed.
Lemma gate_below v : v < 32 -> v <> 14 -> handler <$> gate_of mapping v = if v =? 8 then Some doublefault_handler else if v =? 3 then Some breakpoint_handler else None.
Proof using mapping_small.
  intros Hv Hp. unfold gate_of. cbv zeta. bfalse (48 <=? v). cbn [andb]. bfalse (v =? 14). bfalse (v =? 255).
  assert (forall i, (v =? 32 + gsi mapping i) = false) as Hx by (intros i; pose proof (gsi_range mapping i mapping_small); apply Z.eqb_neq; lia).
  rewrite !Hx. destruct (v =? 8); [done|]. by destruct (v =? 3).
Qed.
Lemma reached_gate d v : (forall v, d !! v = gate_of mapping v) -> reached d v =
  match handler <$> gate_of mapping v with Some h => Some h | None => Some doublefault_handler end.
Proof using mapping_small.
  intros Hd. unfold reached, not_present, double_fault. rewrite !Hd. destruct (gate_of mapping v); [done|]. cbn [fmap option_fmap option_map].
  pose proof (gate_below 11 ltac:(lia) ltac:(lia)) as H1. pose proof (gate_below 8 ltac:(lia) ltac:(lia)) as H2. revert H1 H2.
  destruct (gate_of mapping 11); [done|]. intros _ H2. exact H2.
Qed.
Lemma reached_isa d i : (forall v, d !! v = gate_of mapping v) -> 0 <= i < 16 -> reached d (32 + i) = Some (default doublefault_handler (isa_handler i)).
Proof using mapping_small. intros Hd Hi. rewrite (reached_gate d _ Hd), gate_isa by done. by destruct (isa_handler i). Qed.
End vectors.

(** The local timer is programmed with the vector of the timer's line. *)
Lemma load_timer_run `{Build} {V} `{Machine V} {E} mapping frequency (p : Timers V) : length mapping = 16%nat -> 0 <= gsi mapping Timer < 2 ^ 31 ->
  load_timer (E:=E) (Some mapping) frequency p =
  (Ok (), {| machine := apic_write timer_initial_count frequency (apic_write lvt_timer (Z.lor (32 + gsi mapping Timer) TIMER_PERIODIC_MODE) (machine p));
             TSC_TIMER_TICKS_PER_MS := TSC_TIMER_TICKS_PER_MS p; TIME_AT_BOOT := TIME_AT_BOOT p; tsc_offset := tsc_offset p; apic_timer_ticks_per_ms := frequency |}).
Proof.
  intros Hl Hg. unfold load_timer, modify, writing. unfold mbind at 1, M_bind at 1. cbn [expect]. mstep.
  rewrite (index_ok mapping 0 (gsi mapping Timer)); [|lia|]. 2:{ destruct mapping; [done|]. done. }
  mstep. rewrite uadd_ok by (unfold Timer.PRIMARY_ISA_PIC_OFFSET; lia). mstep. unfold Timer.PRIMARY_ISA_PIC_OFFSET. rewrite (Z.add_comm _ 32). reflexivity.
Qed.
Lemma periodic_vector g : 0 <= g < 16 -> Z.lor (32 + g) 0x20000 mod 256 = 32 + g.
Proof. intros Hg. change 0x20000 with (Z.shiftl 1 17). rewrite lor_shiftl_add by lia. replace (2 ^ 17 * 1) with (512 * 256) by lia. rewrite Z.mod_add by lia. apply Z.mod_small. lia. Qed.

Section wiring.
Context `{BB : Build} {HC : IdtCrate} {HI : IdtLaws}.
Context {W : Type} {base max : Z} {HP : Platform W} {HL : IoApicLaws W base max} (virt_add : Z -> Z -> option Z).
Hypothesis virt_add_canonical : forall a b, 0 <= a -> 0 <= b -> canonical (a + b) -> virt_add a b = Some (a + b).
Hypothesis base_high : 2 ^ 64 - 2 ^ 47 <= base < 2 ^ 64 - 0x1000.
Context (a : IoApic) (a_base : io_base a = base).
Hypothesis first_ok : 0 <= global_system_interrupt_base a < 2 ^ 32 - 256.
Context (mapping : list Z) (triggers polarities : list (option Z)) (local_apic_id : Z).
Hypothesis mapping_small : mapping_ok mapping.
Hypothesis flags_ok : length triggers = 16%nat /\ length polarities = 16%nat /\ Forall flag_ok triggers /\ Forall flag_ok polarities.
Hypothesis id_ok : is_byte local_apic_id.
Abbreviation first := (global_system_interrupt_base a).
Abbreviation bootstrap := (isa_bootstrap virt_add a mapping triggers polarities local_apic_id).

(** A line has an entry of this I/O APIC, and no later line has the same one. *)
Definition owns (i : Z) (g : Z) : Prop := 0 <= i < 16 /\ gsi_of mapping i = first + g /\ forall j, i < j < 16 -> gsi_of mapping j <> first + g.
Lemma line_of_none lines g : Forall (fun j => gsi_of mapping j <> first + g) lines -> line_of a mapping lines g = None.
Proof. induction 1 as [|j lines Hj _ IH]; [done|]. rewrite line_of_cons, IH. by bfalse (gsi_of mapping j =? first + g). Qed.
Lemma line_of_last pre i post g : gsi_of mapping i = first + g -> Forall (fun j => gsi_of mapping j <> first + g) post -> line_of a mapping (pre ++ i :: post) g = Some i.
Proof.
  intros Hi Hp. induction pre as [|j pre IH]; cbn [app]; rewrite line_of_cons; [|by rewrite IH].
  rewrite line_of_none by done. by btrue (gsi_of mapping i =? first + g).
Qed.
Lemma owns_line i g : owns i g -> line_of a mapping (seqZ 0 16) g = Some i.
Proof.
  intros (Hi & Hg & Hj). replace (seqZ 0 16) with (seqZ 0 i ++ i :: seqZ (i + 1) (15 - i)).
  - apply line_of_last; [done|]. apply Forall_forall. intros j Hin. apply elem_of_seqZ in Hin. apply Hj. lia.
  - replace 16 with (i + (16 - i)) by lia. rewrite seqZ_app by lia. f_equal. rewrite (seqZ_cons (0 + i)) by lia. do 2 f_equal; lia.
Qed.
Lemma entry_fields i : 0 <= i < 16 ->
  get_entry Vector (value_of triggers polarities local_apic_id i) = 32 + i /\
  get_entry InterruptMask (value_of triggers polarities local_apic_id i) = (if i =? 0 then MASKED else UNMASKED).
Proof using BB first_ok mapping_small flags_ok id_ok.
  intros Hi. destruct (value_ok mapping triggers polarities local_apic_id (mapping_wide mapping mapping_small) flags_ok id_ok i Hi) as [_ He]. apply entry_in_range in He.
  rewrite !get_entry_is by done. cbn [field_at fst snd]. unfold value_of, isa_value.
  destruct flags_ok as (_ & _ & Ht & Hp).
  assert (forall l, Forall flag_ok l -> 0 <= default 0 (default None (l !! Z.to_nat i)) < 2) as Hd.
  { intros l Hl. apply (flag_range (default None (l !! Z.to_nat i))). destruct (l !! Z.to_nat i) eqn:E; [by eapply Forall_lookup_1 in Hl|done]. }
  pose proof (Hd _ Ht) as Ht'. pose proof (Hd _ Hp) as Hp'. clear He. unfold HIGH_ACTIVE, EDGE_SENSITIVE, MASKED, UNMASKED, is_byte in *.
  set (x := default 0 _) in *. set (y := default 0 _) in *. clearbody x y.
  change (2 ^ 8) with 256. change (2 ^ 13) with 8192. change (2 ^ 15) with 32768. change (2 ^ 16) with 65536. change (2 ^ 0) with 1. change (2 ^ 1) with 2. change (2 ^ 56) with (256 * 2 ^ 48).
  split; destruct (i =? 0); Z.to_euclidean_division_equations; lia.
Qed.
Lemma bootstrap_entries s : exists s', bootstrap s = (Ok (), s') /\ forall i g, owns i g -> 0 <= g <= max ->
  get_entry Vector (entry_in base max (world s') g) = 32 + i /\ get_entry InterruptMask (entry_in base max (world s') g) = (if i =? 0 then MASKED else UNMASKED).
Proof using virt_add_canonical base_high a_base first_ok mapping_small flags_ok id_ok.
  destruct (isa_lines_ok virt_add virt_add_canonical base_high a a_base mapping triggers polarities local_apic_id) with (lines := seqZ 0 16) (s := s) as (s' & Hr & He); [by apply mapping_wide|done|done|done| |].
  - apply Forall_forall. intros i Hi. apply elem_of_seqZ in Hi. lia.
  - exists s'. split; [exact Hr|]. intros i g Ho Hg. rewrite He, owns_line with (i := i) by done. apply entry_fields. by destruct Ho.
Qed.

(** C19: interrupts find their handlers.  Let the firmware leave the keyboard and
    the IDE channels where they are, on entries of the I/O APIC they share with
    no other line, and give the timer's line an interrupt that is none of
    theirs.  After the boot processor has set up the I/O APIC and the table, the
    entries of these lines are enabled and their vectors have the handlers of
    the lines; the vector of the local timer, whatever its rate, has the timer's;
    the message of the [i]-th disk controller has the handler of that
    controller; and spurious interrupts have theirs. *)
Theorem interrupts_reach_handlers {V} {HM : Machine V} {HB : Bitfield} {HF : BitfieldLaws} {E : Type} s t (p : Timers V) frequency :
  IDT t = None -> GSI_TO_IRQ_MAPPING t = None -> first = 0 -> 15 <= max -> 0 <= gsi mapping Timer < 16 ->
  (forall i j, In i [Keyboard; PrimaryIDE; SecondaryIDE] -> gsi mapping i = irq_index i /\ (0 <= j < 16 -> gsi_of mapping j = irq_index i -> j = irq_index i)) ->
  exists s' t' d, bootstrap s = (Ok (), s') /\ init_idt mapping t = (Ok (), t') /\ idtr t' = Some d /\
    (forall i, In i [Keyboard; PrimaryIDE; SecondaryIDE] -> let e := entry_in base max (world s') (irq_index i) in
       get_entry InterruptMask e = UNMASKED /\ reached d (get_entry Vector e) = line_handler i) /\
    (exists v, load_timer (E:=E) (GSI_TO_IRQ_MAPPING t') frequency p =
       (Ok (), {| machine := apic_write timer_initial_count frequency (apic_write lvt_timer v (machine p));
                  TSC_TIMER_TICKS_PER_MS := TSC_TIMER_TICKS_PER_MS p; TIME_AT_BOOT := TIME_AT_BOOT p; tsc_offset := tsc_offset p;
                  apic_timer_ticks_per_ms := frequency |}) /\ reached d (v mod 256) = Some timer_handler) /\
    (forall i, 0 <= i < 8 -> exists v, uadd (E:=never) 8 AHCI_INTERRUPT_HANDLER_IDX i = Ok v /\ reached d (with_bits 7 0 v default_data) = Some (ahci_interrupt_handler i)) /\
    reached d (Z.lor SPURIOUS_INTERRUPT_HANDLER_IDX (Z.shiftl 1 8) mod 256) = Some spurious_interrupt_handler.
Proof using All.
  intros Ht Hg Hf Hmax Htm Hl. destruct (bootstrap_entries s) as (s' & Hs & He). destruct (init_idt_run mapping t mapping_small Ht) as (d & Hd & Hr).
  eexists s', _, d. split; [exact Hs|]. split; [exact Hr|]. cbn [idtr GSI_TO_IRQ_MAPPING]. rewrite Hg. cbn [set_once].
  assert (forall i, In i [Keyboard; PrimaryIDE; SecondaryIDE] -> gsi mapping Timer <> irq_index i) as Hn.
  { intros i Hin He'. destruct (Hl i 0 Hin) as [_ Hx]. specialize (Hx ltac:(lia) He'). by destruct Hin as [<-|[<-|[<-|[]]]]. }
  assert (gsi mapping Keyboard = 1 /\ gsi mapping PrimaryIDE = 14 /\ gsi mapping SecondaryIDE = 15) as (G1 & G2 & G3) by (split_and!; eapply Hl; try exact 0; cbn; tauto).
  pose proof (Hn Keyboard ltac:(cbn; tauto)) as N1. pose proof (Hn PrimaryIDE ltac:(cbn; tauto)) as N2. pose proof (Hn SecondaryIDE ltac:(cbn; tauto)) as N3.
  change (irq_index Keyboard) with 1 in N1. change (irq_index PrimaryIDE) with 14 in N2. change (irq_index SecondaryIDE) with 15 in N3.
  split_and!; [done| | | |].
  - intros i Hin. cbv zeta. destruct (He (irq_index i) (irq_index i)) as [-> ->].
    { unfold owns. rewrite Hf. split; [by destruct i|]. split; [rewrite Z.add_0_l; apply (Hl i 0 Hin)|]. intros j Hj. rewrite Z.add_0_l. intros Hx. destruct (Hl i j Hin) as [_ Hy]. apply Hy in Hx; destruct i; cbn in *; lia. }
    { destruct i; cbn; lia. }
    rewrite (reached_isa mapping mapping_small d) by (done || by destruct i). unfold isa_handler. rewrite G1, G2, G3.
    destruct Hin as [<-|[<-|[<-|[]]]]; by split.
  - exists (Z.lor (32 + gsi mapping Timer) TIMER_PERIODIC_MODE). split.
    + apply load_timer_run; [apply mapping_small|lia].
    + unfold TIMER_PERIODIC_MODE. rewrite periodic_vector by lia. rewrite (reached_isa mapping mapping_small d) by done. unfold isa_handler. rewrite G1, G2, G3.
      bfalse (gsi mapping Timer =? 15). bfalse (gsi mapping Timer =? 14). bfalse (gsi mapping Timer =? 1). by btrue (gsi mapping Timer =? gsi mapping Timer).
  - intros i Hi. exists (48 + i). split; [by apply uadd_ok; unfold AHCI_INTERRUPT_HANDLER_IDX; lia|]. rewrite message_data by lia.
    rewrite (reached_gate mapping mapping_small d _ Hd). unfold gate_of. btrue (48 <=? 48 + i). btrue (48 + i <? 56). cbn. do 2 f_equal. lia.
  - rewrite (reached_gate mapping mapping_small d _ Hd). done.
Qed.

(** C20: a line without a gate ends the kernel.  The bootstrap enables every ISA
    line but the first, and installs a handler at the vector of a line's
    interrupt instead of the vector of the line.  So an interrupt of any other
    line whose number is not the interrupt of a line with a handler arrives at a
    vector without a gate, and the processor ends in the double fault handler,
    which panics.  That concerns the lines nobody handles, and also the keyboard
    and the IDE channels when the firmware moves them. *)
Theorem unserved_line_faults s t i g : IDT t = None -> owns i g -> 0 <= g <= max -> i <> 0 -> (forall j, In j handled -> gsi mapping j <> i) ->
  exists s' t' d, bootstrap s = (Ok (), s') /\ init_idt mapping t = (Ok (), t') /\ idtr t' = Some d /\
    get_entry InterruptMask (entry_in base max (world s') g) = UNMASKED /\
    reached d (get_entry Vector (entry_in base max (world s') g)) = Some doublefault_handler.
Proof using All.
  intros Ht Ho Hg Hi Hn. destruct (bootstrap_entries s) as (s' & Hs & He). destruct (init_idt_run mapping t mapping_small Ht) as (d & Hd & Hr).
  eexists s', _, d. split; [exact Hs|]. split; [exact Hr|]. split; [done|]. destruct (He i g Ho Hg) as [-> ->]. bfalse (i =? 0). split; [done|].
  rewrite (reached_isa mapping mapping_small d i Hd) by apply Ho. unfold isa_handler.
  assert (forall j, In j handled -> (i =? gsi mapping j) = false) as Hj by (intros j Hin; apply Z.eqb_neq; intros ->; by apply (Hn j Hin)).
  by rewrite !Hj by (cbn; tauto).
Qed.

(** The interval timer is not silenced.  The first line, of the interval
    timer, is the one whose entry the bootstrap masks.  On the usual machine the
    firmware moves it to interrupt 2, which is also the number of the line of
    the cascaded controller, whose entry overwrites it: the entry is enabled,
    and its vector has the handler of the local timer, so that every tick of the
    interval timer counts as one of the local timer. *)
Theorem interval_timer_ticks s t : IDT t = None -> first = 0 -> 2 <= max -> gsi mapping Timer = 2 -> gsi mapping Cascade = 2 ->
  (forall j, 2 < j < 16 -> gsi_of mapping j <> 2) -> gsi mapping Keyboard <> 2 ->
  exists s' t' d, bootstrap s = (Ok (), s') /\ init_idt mapping t = (Ok (), t') /\ idtr t' = Some d /\
    get_entry InterruptMask (entry_in base max (world s') (gsi mapping Timer)) = UNMASKED /\
    reached d (get_entry Vector (entry_in base max (world s') (gsi mapping Timer))) = Some timer_handler.
Proof using All.
  intros Ht Hf Hmax H0 H2 Hj Hk. destruct (bootstrap_entries s) as (s' & Hs & He). destruct (init_idt_run mapping t mapping_small Ht) as (d & Hd & Hr).
  eexists s', _, d. split; [exact Hs|]. split; [exact Hr|]. split; [done|]. rewrite H0. destruct (He 2 2) as [-> ->]; [|lia|].
  { unfold owns. rewrite Hf. by split_and!. }
  split; [done|]. rewrite (reached_isa mapping mapping_small d 2 Hd) by done. unfold isa_handler. rewrite H0.
  bfalse (2 =? gsi mapping Keyboard). pose proof (Hj 14 ltac:(lia)) as H14. pose proof (Hj 15 ltac:(lia)) as H15.
  change (gsi_of mapping 14) with (gsi mapping PrimaryIDE) in H14. change (gsi_of mapping 15) with (gsi mapping SecondaryIDE) in H15.
  bfalse (2 =? gsi mapping SecondaryIDE). by bfalse (2 =? gsi mapping PrimaryIDE).
Qed.
End wiring.

(** ** The handlers of the IDE channels *)
(** The channels with their waker lists, the local APIC, and the tasks that were
    woken, in order *)
Record Irqs (W V : Type) := { io : Pata.Io W; apic : Apic.Sys V; woken_tasks : list Z }.
Arguments Build_Irqs {W V} _ _ _.
Arguments io {W V} _.
Arguments apic {W V} _.
Arguments woken_tasks {W V} _.
Section ide.
Context `{Build} {W V : Type} `{Platform V} (virt_add : Z -> Z -> option Z) (virt_addr : Z -> option Z).
Abbreviation I A := (M (Irqs W V) never A).
Definition end_of_interrupt : Z := 0xB0.
Definition on_apic {A} (m : M (Apic.Sys V) never A) : I A := fun s => let '(x, p) := m (apic s) in (x, Build_Irqs (io s) p (woken_tasks s)).
(** [get_local_apic().write_eoi(0)] *)
Definition write_eoi : I () := on_apic (b ← get_local_apic virt_addr; write_reg virt_add b end_of_interrupt 0).
(** [lock().drain(..)], with [wake] for each *)
Definition drain_primary : I () := modify (fun s => Build_Irqs
  (Build_Io (device (io s)) (Pata.world (io s)) [] (SECONDARY_IDE_WAKERS (io s)) (result (io s))) (apic s) (woken_tasks s ++ PRIMARY_IDE_WAKERS (io s))).
Definition drain_secondary : I () := modify (fun s => Build_Irqs
  (Build_Io (device (io s)) (Pata.world (io s)) (PRIMARY_IDE_WAKERS (io s)) [] (result (io s))) (apic s) (woken_tasks s ++ SECONDARY_IDE_WAKERS (io s))).
Definition primary_ide_handler_inner : I () := _ ← drain_primary; write_eoi.
Definition secondary_ide_handler_inner : I () := _ ← drain_secondary; write_eoi.
Definition wakers_of (port : Z) (s : Pata.Io W) : list Z := if port =? PATA_PRIMARY_BASE then PRIMARY_IDE_WAKERS s else SECONDARY_IDE_WAKERS s.
Definition ide_handler (port : Z) : I () := if port =? PATA_PRIMARY_BASE then primary_ide_handler_inner else secondary_ide_handler_inner.
Lemma write_eoi_run s lapic : virt_addr (LOCAL_APIC_ADDR (apic s)) = Some lapic -> virt_add lapic end_of_interrupt = Some (lapic + end_of_interrupt) ->
  write_eoi s = (Ok (), Build_Irqs (io s) (Build_Sys (store32 (lapic + end_of_interrupt) 0 (Apic.world (apic s))) (LOCAL_APIC_ADDR (apic s))) (woken_tasks s)).
Proof.
  intros H1 H2. unfold write_eoi, on_apic.
  assert ((b ← get_local_apic virt_addr; write_reg virt_add b end_of_interrupt 0) (apic s) =
    (Ok (), Build_Sys (store32 (lapic + end_of_interrupt) 0 (Apic.world (apic s))) (LOCAL_APIC_ADDR (apic s)))) as ->; [|reflexivity].
  assert (get_local_apic virt_addr (apic s) = (Ok lapic, apic s)) as Hg by (unfold get_local_apic; mstep; by rewrite H1). mrun Hg.
  unfold write_reg, vadd. rewrite H2. cbn [expect]. mstep. reflexivity.
Qed.

(** A waiting request is woken by its channel.  A task that polls the wait
    for a channel the first time is suspended; the next interrupt of that
    channel wakes the tasks that waited for it in the order they came, the new
    one last, and empties their list, leaves those of the other channel alone,
    and acknowledges the interrupt with a single write to the local APIC; the
    wait is over when it is polled again. *)
Theorem ide_interrupt_wakes s task port other lapic : (port, other) = (PATA_PRIMARY_BASE, PATA_SECONDARY_BASE) \/ (port, other) = (PATA_SECONDARY_BASE, PATA_PRIMARY_BASE) ->
  virt_addr (LOCAL_APIC_ADDR (apic s)) = Some lapic -> virt_add lapic end_of_interrupt = Some (lapic + end_of_interrupt) ->
  exists c s', wait_io_poll task port false (io s) = (Ok (Pending, true), c) /\
    ide_handler port (Build_Irqs c (apic s) (woken_tasks s)) = (Ok (), s') /\
    woken_tasks s' = woken_tasks s ++ wakers_of port (io s) ++ [task] /\ wakers_of port (io s') = [] /\
    wakers_of other (io s') = wakers_of other (io s) /\ Pata.world (io s') = Pata.world (io s) /\
    apic s' = Build_Sys (store32 (lapic + end_of_interrupt) 0 (Apic.world (apic s))) (LOCAL_APIC_ADDR (apic s)) /\
    wait_io_poll task port true (io s') = (Ok (Ready (), true), io s').
Proof.
  intros Hp Ha Hb. destruct Hp as [[= -> ->]|[= -> ->]]; do 2 eexists; (split; [reflexivity|]); (split;
    [unfold ide_handler; cbn [Z.eqb]; (etransitivity; [eapply M_bind_run; reflexivity|]); apply write_eoi_run; [exact Ha|exact Hb]|]);
    cbn; rewrite <- ?app_assoc; by split_and!.
Qed.
End ide.

(** ** A machine *)
Module SampleIdt.
Import SampleApic.
#[export] Instance crate : IdtCrate := { indexable v := 32 <=? v }.
#[export] Instance crate_laws : IdtLaws.
Proof. split. intros v Hv. cbn. lia. Qed.
(** The usual mapping, and one that moves the keyboard to interrupt 20 *)
Definition usual : list Z := 2 :: seqZ 1 15.
Definition moved : list Z := 2 :: 20 :: seqZ 2 14.
Definition none : list (option Z) := replicate 16 None.
Definition boot : Tables := {| IDT := None; GSI_TO_IRQ_MAPPING := None; idtr := None |}.
Lemma usual_ok : mapping_ok usual.
Proof. split; [done|]. repeat constructor; by vm_compute. Qed.
Lemma moved_ok : mapping_ok moved.
Proof. split; [done|]. repeat constructor; by vm_compute. Qed.
Lemma none_ok : length none = 16%nat /\ length none = 16%nat /\ Forall flag_ok none /\ Forall flag_ok none.
Proof. split_and!; try done; repeat constructor. Qed.
Lemma sixteen (P : Z -> Prop) : Forall P (seqZ 0 16) -> forall j, 0 <= j < 16 -> P j.
Proof. intros HP j Hj. rewrite Forall_forall in HP. apply HP. apply elem_of_seqZ. lia. Qed.
End SampleIdt.
Import SampleApic SampleIdt.
Lemma init_idt_gates_witness : exists d t', @init_idt dev_build _ usual boot = (Ok (), t') /\ idtr t' = Some d /\ d !! 34 = Some {| handler := timer_handler; stack_index := None |} /\ d !! 35 = None.
Proof.
  destruct (@init_idt_gates dev_build _ _ usual moved boot usual_ok moved_ok eq_refl eq_refl) as (d & t' & H1 & H2 & _ & Hd & _).
  exists d, t'. split; [exact H1|]. split; [exact H2|]. rewrite !Hd. split; reflexivity.
Defined.
Lemma large_interrupt_panics_witness : @init_idt dev_build _ (2 :: 240 :: seqZ 2 14) boot = (Panic, boot).
Proof. apply (@large_interrupt_panics _ _ (2 :: 240 :: seqZ 2 14) Keyboard boot); [done|cbn; tauto|by vm_compute]. Defined.
Lemma interrupts_reach_handlers_witness : exists s' t' d, @isa_bootstrap dev_build Board _ SampleAcpi.virt_add SampleApic.io usual none none 0 (start 0) = (Ok (), s') /\
  @init_idt dev_build _ usual boot = (Ok (), t') /\ idtr t' = Some d /\ reached d (get_entry Vector (entry_in base 23 (Apic.world s') 1)) = Some keyboard_handler.
Proof.
  destruct (@interrupts_reach_handlers dev_build _ _ Board base 23 _ _ SampleAcpi.virt_add SampleAcpi.virt_add_ok base_high SampleApic.io eq_refl) with
    (mapping := usual) (triggers := none) (polarities := none) (local_apic_id := 0) (s := start 0) (t := boot) (p := SampleClock.timers) (frequency := 1000)
    (HM := SampleClock.counter) (HF := SampleAhci.fields_laws) (E := never) as (s' & t' & d & H1 & H2 & H3 & H4 & _).
  - by vm_compute.
  - exact usual_ok.
  - exact none_ok.
  - by vm_compute.
  - done.
  - done.
  - done.
  - done.
  - by vm_compute.
  - intros i j Hi. split; [by destruct Hi as [<-|[<-|[<-|[]]]]|]. revert j. refine (sixteen _ _).
    destruct Hi as [<-|[<-|[<-|[]]]]; repeat constructor; by vm_compute.
  - exists s', t', d. split; [exact H1|]. split; [exact H2|]. split; [exact H3|]. apply (H4 Keyboard). by left.
Defined.
Lemma unserved_line_faults_witness : exists s' t' d, @isa_bootstrap dev_build Board _ SampleAcpi.virt_add SampleApic.io moved none none 0 (start 0) = (Ok (), s') /\
  @init_idt dev_build _ moved boot = (Ok (), t') /\ idtr t' = Some d /\ get_entry InterruptMask (entry_in base 23 (Apic.world s') 20) = UNMASKED /\
  reached d (get_entry Vector (entry_in base 23 (Apic.world s') 20)) = Some doublefault_handler.
Proof.
  apply (@unserved_line_faults dev_build _ _ Board base 23 _ _ SampleAcpi.virt_add SampleAcpi.virt_add_ok base_high SampleApic.io eq_refl) with (i := 1).
  - by vm_compute.
  - exact moved_ok.
  - exact none_ok.
  - by vm_compute.
  - done.
  - split; [done|]. split; [done|]. intros j Hj. assert (0 <= j < 16) as H by lia. clear -H Hj. revert j H Hj. refine (sixteen _ _).
    change (seqZ 0 16) with [0; 1; 2; 3; 4; 5; 6; 7; 8; 9; 10; 11; 12; 13; 14; 15]. repeat apply Forall_cons_2; try apply Forall_nil_2; intros Hj; lia || by vm_compute.
  - done.
  - done.
  - intros j [<-|[<-|[<-|[<-|[]]]]]; by vm_compute.
Defined.
Lemma interval_timer_ticks_witness : exists s' t' d, @isa_bootstrap dev_build Board _ SampleAcpi.virt_add SampleApic.io usual none none 0 (start 0) = (Ok (), s') /\
  @init_idt dev_build _ usual boot = (Ok (), t') /\ idtr t' = Some d /\ get_entry InterruptMask (entry_in base 23 (Apic.world s') 2) = UNMASKED /\
  reached d (get_entry Vector (entry_in base 23 (Apic.world s') 2)) = Some timer_handler.
Proof.
  apply (@interval_timer_ticks dev_build _ _ Board base 23 _ _ SampleAcpi.virt_add SampleAcpi.virt_add_ok base_high SampleApic.io eq_refl).
  - by vm_compute.
  - exact usual_ok.
  - exact none_ok.
  - by vm_compute.
  - done.
  - done.
  - done.
  - done.
  - done.
  - intros j Hj. assert (0 <= j < 16) as H by lia. revert j H Hj. refine (sixteen _ _). change (seqZ 0 16) with [0; 1; 2; 3; 4; 5; 6; 7; 8; 9; 10; 11; 12; 13; 14; 15]. repeat apply Forall_cons_2; try apply Forall_nil_2; intros Hj; lia || by vm_compute.
  - done.
Defined.
Lemma ide_interrupt_wakes_witness :
  let c := Build_Io SamplePata.fresh (Pata.world (SamplePata.start SamplePata.fresh [])) [5; 6] [7] [] in
  exists c' s', wait_io_poll 9 PATA_SECONDARY_BASE false c = (Ok (Pending, true), c') /\
    secondary_ide_handler_inner SampleAcpi.virt_add (fun x => Some x) (Build_Irqs c' (Build_Sys (Apic.world (start 0)) lapic) []) = (Ok (), s') /\
    woken_tasks s' = [7; 9] /\ PRIMARY_IDE_WAKERS (Idt.io s') = [5; 6].
Proof.
  intros c. destruct (ide_interrupt_wakes SampleAcpi.virt_add (fun x => Some x) (Build_Irqs c (Build_Sys (Apic.world (start 0)) lapic) []) 9 PATA_SECONDARY_BASE PATA_PRIMARY_BASE lapic)
    as (c' & s' & H1 & H2 & H3 & _ & H4 & _).
  - by right.
  - done.
  - by vm_compute.
  - exists c', s'. split_and!; [exact H1|exact H2|exact H3|exact H4].
Defined.
